(* ===== verification/_CoqProject ===== *)
-Q . S2P
Prelude.v
PyVal.v
Sha256.v
Interfaces.v
CborCodec.v
SignedUpdate.v
Envelope.v
EnvelopeFacts.v
Chain.v
Draft.v
DraftFacts.v
Finalize.v
Consent.v
Rotation.v
Effects.v
Adapter.v
Publish.v
Dispatch.v
ReadFacts.v
Discipline.v
Outcomes.v
Concurrency.v
OneUse.v
Signer.v
SignerFacts.v
Base64.v
Json.v
JsonFacts.v
Container.v
ContainerFacts.v
ContainerSafety.v
Storage.v
StorageFacts.v
ContainerScenarios.v
WalletState.v
Wallet.v
WalletRotation.v
WalletFacts.v
WalletRotationFacts.v
WalletOpenFacts.v
WalletClaims.v
Vault.v
WalletDurable.v
Durability.v
Reopening.v
DesktopCli.v
CliFacts.v
RegistryTransport.v
TransportFacts.v
Regex.v
DateTime.v
Receipt.v
ReceiptFacts.v
NativeReport.v
Acceptance.v
AcceptanceRuns.v
AcceptanceClaims.v
ReceiptStore.v
Harness.v
PyPath.v
RemoteRecords.v
RemoteFixture.v
RemoteFacts.v
RemoteClaims.v
LocalRecords.v
LocalFixture.v
LocalRun.v
LocalPeers.v
LocalRuns.v
LocalEvidence.v
LocalClaims.v
Conformance.v
ConformanceFacts.v
Instances.v
Scenarios.v
WalletScenarios.v
CliScenarios.v
AcceptanceScenarios.v
LocalScenarios.v
