(* ===== verification/Prelude.v ===== *)
(** * Decent Wallet: a verification of the wallet, its registry adapter and its acceptance runs

    Decent Wallet keeps an Ed25519 signing key for an owner name in a password
    protected container and publishes the owner's Identity record to a registry.
    A record is a canonical CBOR SignedUpdate inside an envelope of signatures.
    It is a legacy record (the owner signs alone) or a governed one (two of three
    named signers); an owner key can be rotated (operation 5).  A release is gated
    by a receipt, which a script assembles from the test runs of the source; further
    scripts run the wallet against registries and on emulators.  This library models
    the Python package [src/src/decent_wallet] and the scripts of [src/scripts] but one.

    ** Parts of the program and the files that model them

    - Values and exceptions.  [PyVal] is the type [Any] of the source: what CBOR or
      a caller can hand to a validator, Python equality, hashability, dicts with
      their key types.  [Prelude] (this file) has bytes, UTF-8, exceptions as
      values ([exn], [res], [let*], [raise_if]), stable sorting by a key, and the
      tactics and lemmas the other files share.  [Sha256] computes SHA-256.
    - Third-party packages.  [Interfaces] states what is assumed of [cbor2]
      ([Cbor], [CborLaws]) and of the Ed25519 primitives ([Ed25519],
      [Ed25519Laws]).  [CborCodec] is a codec that satisfies the CBOR laws;
      [Instances] has a signature scheme that satisfies the Ed25519 laws, so the
      laws are consistent and every definition can be evaluated.
    - Updates and envelopes (identity.py).  [SignedUpdate]: the validators,
      [_decode_signed_update], [build_identity_update].  [Envelope]:
      [_parse_identity_envelope] with its operations, proofs and predecessor
      rules, [_parse_previous_state_chain], [_validate_draft_transition],
      [_validate_transition].  [EnvelopeFacts] gives an abstract specification of
      one transition ([accepted]) and proves that the parser refines it;
      [Chain] extends it to histories, and fixes the parser's errors.
    - Drafts and bundles (identity.py).  [Draft]: [IdentityDraft],
      [IdentityProof], [IdentityBundle], their canonical exchange, [merge],
      [finalize].  [DraftFacts] and [Finalize] hold their properties.
    - Consent (identity.py).  [Consent]: decisions, statuses, transcripts,
      [InMemoryReplayNonceStore].
    - Rotation latches (identity.py, container.py).  [Rotation]: registry
      environments, [RotationDispatchIntent], [_RotationLatchRegistry].
    - The adapter (identity.py, [RegistryAdapter]).  [Effects] defines programs as
      trees of events: a call to the transport, the consent handler, the replay
      store, the signer, the clock, the latch registry, an owner lock or a one-use
      flag.  [Adapter] has reading, drafting and the consent gate; [Publish] has
      [submit_identity], [sign_draft], [publish_bundle], [confirm_bundle];
      [Dispatch] has the preparation, dispatch and confirmation of a rotation.
    - The signer (signer.py).  [Signer]: its validator and [SignerCapability].
    - The container (container.py).  [Base64] and [Json] model the parts of
      [base64] and [json] the code calls, as CPython 3.12 implements them.
      [Container]: payload values, canonical JSON, key derivation, sealing, the
      envelope's construction, parsing and unlocking; Argon2id, the AEAD cipher and
      the text of floats are the classes [Kdf], [Aead] and [PyFloat] with their laws.
      [Storage]: [_atomic_write], [_stage_file], the recovery after a failed sync and
      [_read] as programs over system calls, on a directory, its files, and what of
      both is on disk; any call can fail.
    - The wallet (container.py, [Wallet]).  [WalletState]: a session's fields, the
      process around it (byte arrays with secrets, capabilities, latches, one-use
      flags, files, clock, randomness), payload fields and their validation.
      [Wallet]: locking, storing, creating, opening, migrating and importing,
      signers, the payload, export and the password.  [WalletRotation]: the rotation
      of the signing key, on the capabilities of [Adapter] and the latches of
      [Rotation].  [WalletClaims] collects the methods into one family of steps.
    - The command line (desktop_cli.py).  [DesktopCli]: the four commands on the
      model of wallets and files, with a terminal.
    - The transport (registry_transport.py).  [RegistryTransport]: the constructor,
      the session around each operation and the operations; each use of the Registry
      package is a call with an arbitrary answer.
    - The acceptance run (security_acceptance.py).  [Regex] matches the patterns the
      script has; [DateTime] is the part of [datetime] it uses ([fromisoformat],
      differences, [isoformat]) with its laws.  [Receipt]:
      [validate_receipt] and the constants of the contract.  [NativeReport]: Python
      and Android reports as parsed XML, inventories of the expected tests.
      [Acceptance]: commands, the three profiles, the assembly of a receipt, its file
      and [main], as programs over requests with arbitrary answers.
    - Harnesses.  [Harness] defines the programs of the scripts below: requests to an
      environment that answers arbitrarily and may look at everything that happened,
      exceptions with their notes, the fields of an object as a state, the trace of
      requests and answers; and the rules to reason about them.  [PyPath] has the
      text, path and address functions they use.
    - The remote run (remote_registry_fixture.py, run_remote_registry_acceptance.py).
      [RemoteRecords]: the worker's records, the lock file's revision, [ssh_command].
      [RemoteFixture]: the fixture with its reader thread, the copying of inputs, the
      phases, the teardown, and the command.
    - The local run (run_wallet_registry_acceptance.py).  [LocalRecords]: adb's and the
      fixture's output, test cases of a report, error messages.  [LocalFixture]:
      [RegistryPeerFixture] with its reader thread, start and teardown.  [LocalRun]:
      Android targets, reports, port mappings, tools, the host and device phases, and
      the command.
    - The conformance run (run-android-runtime-conformance.py).  [Conformance]: the
      whole script on two emulators.

    ** What the theorems show

    - Codecs: [SignedUpdate.build_decode_roundtrip],
      [DraftFacts.bundle_roundtrip].
    - The parser: [EnvelopeFacts.parse_sound] (refinement of the specification),
      [Chain.history_governed] (governance along a history: no step without two
      signers), [Chain.parse_errors] (what it can raise, and that it
      raises [TypeError] on an unhashable owner key).
    - Drafts: [DraftFacts.draft_rules_exact] (against the parser's checks, with
      the two places where they differ), [Finalize.merge_algebra],
      [Finalize.finalize_exact].
    - Latches and consent: [Rotation.latch_discipline] (where a latch that is ready
      for dispatch comes from, and that it persists), [Consent.consent_binding]
      (a transcript's bytes determine it; a replay nonce is consumed once).
    - Reading: [ReadFacts.read_state_verified], [ReadFacts.read_state_walk] (which
      envelopes are asked for, how many, and how the walk ends).
    - When the adapter writes and signs ([Discipline]): a monitor records what a
      call has learnt (approved transcript, clock, lock, latch, flags, writes), and
      every write and every signature of every entry point obeys a rule in that
      knowledge, for all answers of the environment.
      [Discipline.signing_discipline] is about submissions and drafts.
    - What results mean ([Outcomes]): [publication_discipline], [dispatch_discipline]
      (writes and outcomes of the two ways to publish), [rotation_capabilities_sound]
      (what a prepared publication and a confirmation rest on).
    - Threads ([Concurrency], [OneUse]): an interleaving semantics with the shared
      latch registry and reentrant owner locks, and threads that call the adapter's
      methods; [OneUse.concurrent_writes] (no write races with a rotation, and a
      publication is written once).
    - The signer ([SignerFacts]): [signer_validation_agrees] (with the adapter's
      validator) and [capability_contract] (one signature per capability, what signing
      returns, when the key is gone).
    - The container ([JsonFacts], [ContainerFacts], [ContainerSafety]):
      [container_roundtrip] (a payload that was sealed, written, parsed and unlocked
      is the payload), [container_authentic] (what unlocking returns was sealed under
      the password's key, over a text that determines version and header),
      [container_bounds] (what is read is bounded, on a stack of any depth).
    - Storage ([StorageFacts]): [atomic_write_atomic] (after any failure and any
      crash the file has its old or its new contents, and the outcome says which).
    - The wallet ([WalletFacts], [WalletRotationFacts], [WalletOpenFacts]: a
      specification per method; [WalletClaims]): [reachable_sessions_ok] (the session
      invariant, by induction on the steps, with a count of the data keys that refused
      calls of [open] leave behind), [ended_session_erased] (locking and
      inactivity), [active_key_protected] (the active key changes only by a
      confirmed, latched rotation).
    - Durability ([Vault], [WalletDurable], [Durability],
      [Reopening]): every method leaves in the file what the session holds, so that
      opening the file with the session's password gives a session with the same
      identity, keys and payload ([reopening_restores]).
    - The command line: [CliFacts.main_outcome] (one report, no session left open,
      exact exports).  The transport: [TransportFacts.transport_discipline] (peers
      dialled, requests made, errors translated).
    - The acceptance run ([ReceiptFacts], [NativeReport], [AcceptanceRuns]):
      [AcceptanceClaims.receipt_contract] (the validator accepts
      exactly the receipts of a declarative contract), [native_report_exact] (a report
      is accepted when it has each expected test once, passed), [run_acceptance_sound]
      (a receipt is written only after every command of its profile passed and every
      report agreed with the inventory), [assembled_receipt_accepted] (the assembly
      does not fail its own validation), [ReceiptStore.acceptance_exit] (what exit
      status 0 means, and that the file is replaced atomically).
    - The remote run ([RemoteFacts], [RemoteClaims]): [ready_record_exact] (the parser of
      ready records against a specification),
      [remote_commands_confined] (every command of every run is one of a fixed list, on
      the one directory it allocated), [remote_acceptance_exit] (the run ends, and what
      exit status 0 means).
    - The local run ([LocalPeers], [LocalRuns], [LocalClaims]):
      [reverse_mappings_owned] (whose port mappings are touched),
      [wallet_registry_exit] (the run ends, and the evidence behind exit status 0,
      defined in [LocalEvidence]).
    - The conformance run: [ConformanceFacts.conformance_exit].

    [Instances] and [Scenarios] apply the theorems to concrete data: a governed and
    a legacy identity, a publication, a rotation that is dispatched, expires or is
    confirmed, two threads that dispatch at once.  [ContainerScenarios] and
    [WalletScenarios] do so for containers, files and a wallet that is created,
    rotates its key, is locked and opened again; [CliScenarios] for the command line
    and the transport, [AcceptanceScenarios] for a run with its receipt,
    [LocalScenarios] for the local run; [RemoteClaims] and [ConformanceFacts] end with
    runs of their own.

    ** Bounds

    One function has fuel: the JSON scanner of [Json], started with [scan_fuel], two
    more than twice the text's length; [JsonFacts.scan_value_ends] shows that it always
    ends within it.  The walk back through history recurses on the
    number of predecessors that may still be fetched; its start value 1024 is the
    source's [_MAX_PREDECESSOR_DEPTH], and exceeding it is the source's own error.
    The harness loops that wait until a deadline take a number of rounds; when it is
    used up the outcome is [Stuck].  On a clock that advances by at least [tick] from
    one reading to the next, the theorems show that a run is never stuck if the rounds
    cover the timeout (2400 seconds for the remote worker, the fixture's own timeout for
    the local one, 360 seconds for a device), so no result depends on the bound.
    Python integers are unbounded, so they are [Z].  Clock readings are integers
    of one unit; the signer's lifetime is measured in the same unit, the wallet's
    inactivity in milliseconds.

    ** Limits

    The consent handler, the transport, the clock and the operating system are
    events with arbitrary answers.  Threads interleave between events; the code
    between two events is taken as atomic, which is what the locks around the
    latch registry, the flags and the capability give.  A method of the wallet is one
    step, which is what its rotation lock gives.  Asynchronous exceptions (such as
    KeyboardInterrupt) and memory exhaustion are left out.  The recursion limit is a
    parameter where a container is parsed ([parse_container_within]); the theorems on
    sessions and files use the parser on an unlimited stack, which differs only by
    raising [RecursionError] ([container_bounds]), and elsewhere it is left out.

    A Python value of a type that [PyVal] does not list is opaque: an identity, the
    integer it equals if any, and whether it can be hashed; where a constructor iterates
    over such a value, what that gives is a parameter ([to_tuple]).  Times are integers;
    the timeout a user may give the local run is a [duration], so infinity and
    not-a-number are among them.

    Erasure is stated for the byte arrays that hold data keys and seeds and for the
    capabilities' key table.  Immutable copies (the bytes handed to a primitive, a
    decoded payload) and the array of the key-encryption key are not tracked, and
    the weak-reference finalizer of a session is not modelled.  Files are regular
    files of one directory that no other process changes during a write.  Randomness
    is arbitrary: no theorem assumes that nonces or keys are fresh.

    In an acceptance run the results of processes, the parsed trees of XML reports and
    TOML files, the clock and the working tree are answers to requests; paths are their
    text.  Only the directory of the receipt is modelled as files.

    In a harness the thread that reads a process's output runs when the harness looks at
    what it shares with it: every reading of the queue first takes in lines the
    environment chooses.  Text that a request decodes, [int] of digits beyond ASCII, and
    [repr] of text with quotes are not modelled; a few error messages leave out the value
    they quote.  What a script decides from text (patterns, splitting, stripping) is
    modelled in full.

    Not modelled: [argparse] (every command starts with the parsed arguments), the
    Registry package and libp2p, the other platforms, and the script
    run_android_lan_host_acceptance.py, which combines the remote fixture with an
    emulator and SSH forwards: it needs programs over two kinds of requests at once, and
    most of it copies and hashes sources.  Left for later: that script; the transport as
    an answer to the adapter's events; interleavings of wallet methods with the
    adapter's threads. *)

From stdpp Require Export base list strings gmap sorting.
From Stdlib Require Export ZArith Lia.
From Stdlib Require Strings.Byte.
From Stdlib Require Export Sorting.Sorted.

(** * Bytes *)

Abbreviation byte := Byte.byte.
Abbreviation bytes := (list Byte.byte).

#[global] Instance byte_eq_decision : EqDecision byte := Byte.byte_eq_dec.

#[global] Program Instance byte_countable : Countable byte :=
  inj_countable Byte.to_N Byte.of_N _.
Next Obligation. intros b. apply Byte.of_to_N. Qed.

Definition byteZ (b : byte) : Z := Z.of_N (Byte.to_N b).

Definition byte_of_Z (z : Z) : byte :=
  match Byte.of_N (Z.to_N z) with Some b => b | None => Byte.x00 end.

Lemma byteZ_range b : (0 <= byteZ b < 256)%Z.
Proof.
  unfold byteZ. pose proof (Byte.to_N_bounded b). lia.
Qed.

Lemma byte_of_Z_byteZ b : byte_of_Z (byteZ b) = b.
Proof. unfold byte_of_Z, byteZ. rewrite N2Z.id, Byte.of_to_N. done. Qed.

Lemma byteZ_byte_of_Z z : (0 <= z < 256)%Z -> byteZ (byte_of_Z z) = z.
Proof.
  intros Hz. unfold byte_of_Z, byteZ.
  destruct (Byte.of_N (Z.to_N z)) as [b|] eqn:E.
  - apply Byte.to_of_N in E. rewrite E. lia.
  - apply Byte.of_N_None_iff in E. lia.
Qed.

Lemma byteZ_inj a b : byteZ a = byteZ b -> a = b.
Proof. intros H. rewrite <-(byte_of_Z_byteZ a), <-(byte_of_Z_byteZ b). by rewrite H. Qed.

(** Lexicographic order on lists of integers: Python's order on [bytes] (by
    unsigned byte) and on [str] (by code point). *)
Fixpoint lex_leb (a b : list Z) : bool :=
  match a, b with
  | [], _ => true
  | _ :: _, [] => false
  | x :: a', y :: b' => if (x <? y)%Z then true else if (y <? x)%Z then false else lex_leb a' b'
  end.

Definition lex_ltb (a b : list Z) : bool := negb (lex_leb b a).

Definition bytes_leb (a b : bytes) : bool := lex_leb (byteZ <$> a) (byteZ <$> b).
Definition bytes_ltb (a b : bytes) : bool := negb (bytes_leb b a).

Lemma lex_leb_refl a : lex_leb a a = true.
Proof. induction a as [|x a IH]; simpl; [done|]. rewrite Z.ltb_irrefl. done. Qed.

Lemma lex_leb_total a b : lex_leb a b = true \/ lex_leb b a = true.
Proof.
  revert b. induction a as [|x a IH]; intros [|y b]; simpl; auto.
  destruct (Z.ltb_spec x y), (Z.ltb_spec y x); auto; lia.
Qed.

Lemma lex_leb_antisym a b : lex_leb a b = true -> lex_leb b a = true -> a = b.
Proof.
  revert b. induction a as [|x a IH]; intros [|y b]; simpl; auto; try done.
  destruct (Z.ltb_spec x y), (Z.ltb_spec y x); try done; try lia.
  intros. assert (x = y) as -> by lia. f_equal. auto.
Qed.

Lemma lex_leb_trans a b c : lex_leb a b = true -> lex_leb b c = true -> lex_leb a c = true.
Proof.
  revert b c. induction a as [|x a IH]; intros [|y b] [|z c]; simpl; auto; try done.
  destruct (Z.ltb_spec x y), (Z.ltb_spec y x), (Z.ltb_spec y z), (Z.ltb_spec z y),
    (Z.ltb_spec x z), (Z.ltb_spec z x); try done; try lia; eauto.
Qed.

Lemma byteZ_map_inj (a b : bytes) : byteZ <$> a = byteZ <$> b -> a = b.
Proof. apply list_fmap_eq_inj. intros x y. apply byteZ_inj. Qed.

Lemma bytes_leb_total a b : bytes_leb a b = true \/ bytes_leb b a = true.
Proof. apply lex_leb_total. Qed.

Lemma bytes_leb_antisym a b : bytes_leb a b = true -> bytes_leb b a = true -> a = b.
Proof. intros. apply byteZ_map_inj. by apply lex_leb_antisym. Qed.

Lemma bytes_leb_trans a b c : bytes_leb a b = true -> bytes_leb b c = true -> bytes_leb a c = true.
Proof. apply lex_leb_trans. Qed.

Lemma bytes_ltb_irrefl a : bytes_ltb a a = false.
Proof. unfold bytes_ltb, bytes_leb. by rewrite lex_leb_refl. Qed.

Lemma bytes_ltb_leb a b : bytes_ltb a b = true -> bytes_leb a b = true.
Proof.
  unfold bytes_ltb. intros H. destruct (bytes_leb_total a b) as [|E]; [done|].
  rewrite E in H. done.
Qed.

Lemma bytes_leb_ltb a b : bytes_leb a b = true -> a <> b -> bytes_ltb a b = true.
Proof.
  intros Hle Hne. unfold bytes_ltb. destruct (bytes_leb b a) eqn:E; [|done].
  destruct Hne. by apply bytes_leb_antisym.
Qed.

Lemma bytes_ltb_trans a b c : bytes_ltb a b = true -> bytes_ltb b c = true -> bytes_ltb a c = true.
Proof.
  intros H1 H2. apply bytes_leb_ltb.
  - eapply bytes_leb_trans; by apply bytes_ltb_leb.
  - intros ->. unfold bytes_ltb in H1. apply bytes_ltb_leb in H2. rewrite H2 in H1. done.
Qed.

(** * Text

    A Python [str] is its list of code points; lone surrogates are possible and
    make [encode("utf-8")] fail. *)

Abbreviation pystr := (list Z).

(** The [str] written by an ASCII literal of the source. *)
Definition py (s : string) : pystr :=
  (fun a => Z.of_N (Ascii.N_of_ascii a)) <$> String.list_ascii_of_string s.

Arguments py s%_string.

(** The lower-case hexadecimal digit of a value below 16. *)
Definition hex_digit (n : Z) : Z := (if n <? 10 then 48 + n else 87 + n)%Z.

Definition is_surrogate (c : Z) : bool := ((55296 <=? c) && (c <=? 57343))%Z.

Definition is_scalar (c : Z) : bool := ((0 <=? c) && (c <? 1114112))%Z && negb (is_surrogate c).

Definition utf8_char (c : Z) : option bytes :=
  if negb (is_scalar c) then None
  else if (c <? 128)%Z then Some [byte_of_Z c]
  else if (c <? 2048)%Z then Some [byte_of_Z (192 + c / 64); byte_of_Z (128 + c mod 64)]
  else if (c <? 65536)%Z then
    Some [byte_of_Z (224 + c / 4096); byte_of_Z (128 + c / 64 mod 64); byte_of_Z (128 + c mod 64)]
  else
    Some [byte_of_Z (240 + c / 262144); byte_of_Z (128 + c / 4096 mod 64);
          byte_of_Z (128 + c / 64 mod 64); byte_of_Z (128 + c mod 64)].

(** [s.encode("utf-8")]; [None] is [UnicodeEncodeError]. *)
Fixpoint utf8_encode (s : pystr) : option bytes :=
  match s with
  | [] => Some []
  | c :: s' =>
      match utf8_char c, utf8_encode s' with
      | Some b, Some r => Some (b ++ r)
      | _, _ => None
      end
  end.

Definition is_cont (b : byte) : bool := ((128 <=? byteZ b) && (byteZ b <? 192))%Z.

(** The code point of a multi-byte sequence with lead byte offset [hi], if it
    is not overlong ([lo]) and is a scalar value. *)
Definition utf8_scalar (lo : Z) (c : Z) : option Z :=
  if (lo <=? c)%Z && is_scalar c then Some c else None.

(** [b.decode("utf-8")] in strict mode; [None] is [UnicodeDecodeError]. *)
Fixpoint utf8_decode (b : bytes) : option pystr :=
  match b with
  | [] => Some []
  | b0 :: r0 =>
      let v0 := byteZ b0 in
      if (v0 <? 128)%Z then cons v0 <$> utf8_decode r0
      else if (v0 <? 192)%Z then None
      else match r0 with
      | [] => None
      | b1 :: r1 =>
          if negb (is_cont b1) then None
          else let c1 := (byteZ b1 - 128)%Z in
          if (v0 <? 224)%Z then
            match utf8_scalar 128 ((v0 - 192) * 64 + c1) with
            | Some c => cons c <$> utf8_decode r1
            | None => None
            end
          else match r1 with
          | [] => None
          | b2 :: r2 =>
              if negb (is_cont b2) then None
              else let c2 := (byteZ b2 - 128)%Z in
              if (v0 <? 240)%Z then
                match utf8_scalar 2048 ((v0 - 224) * 4096 + c1 * 64 + c2) with
                | Some c => cons c <$> utf8_decode r2
                | None => None
                end
              else match r2 with
              | [] => None
              | b3 :: r3 =>
                  if negb (is_cont b3) then None
                  else let c3 := (byteZ b3 - 128)%Z in
                  if (v0 <? 248)%Z then
                    match utf8_scalar 65536 ((v0 - 240) * 262144 + c1 * 4096 + c2 * 64 + c3) with
                    | Some c => cons c <$> utf8_decode r3
                    | None => None
                    end
                  else None
              end
          end
      end
  end.

Lemma is_cont_of_Z z : (0 <= z < 64)%Z -> is_cont (byte_of_Z (128 + z)) = true.
Proof. intros Hz. unfold is_cont. rewrite byteZ_byte_of_Z; lia. Qed.

Lemma utf8_scalar_some lo c : (lo <= c)%Z -> is_scalar c = true -> utf8_scalar lo c = Some c.
Proof. intros Hlo Hc. unfold utf8_scalar. rewrite Hc. destruct (Z.leb_spec lo c); [done|lia]. Qed.

Lemma utf8_decode_char c b r :
  utf8_char c = Some b -> utf8_decode (b ++ r) = cons c <$> utf8_decode r.
Proof.
  unfold utf8_char. destruct (is_scalar c) eqn:Hs; simpl; [|done].
  assert (0 <= c < 1114112)%Z as Hr.
  { unfold is_scalar in Hs. apply andb_prop in Hs as [Hs _]. lia. }
  pose proof (Z.mod_pos_bound c 64 ltac:(lia)).
  pose proof (Z.mod_pos_bound (c / 64) 64 ltac:(lia)).
  pose proof (Z.mod_pos_bound (c / 4096) 64 ltac:(lia)).
  pose proof (Z_div_mod_eq_full c 64). pose proof (Z_div_mod_eq_full (c / 64) 64).
  pose proof (Z_div_mod_eq_full (c / 4096) 64).
  rewrite ?Z.div_div in * by lia. change (64 * 64)%Z with 4096%Z in *. change (4096 * 64)%Z with 262144%Z in *.
  destruct (Z.ltb_spec c 128).
  { intros [= <-]. simpl. rewrite byteZ_byte_of_Z by lia. by destruct (Z.ltb_spec c 128); [|lia]. }
  destruct (Z.ltb_spec c 2048); [|destruct (Z.ltb_spec c 65536)]; intros [= <-]; simpl;
    rewrite ?is_cont_of_Z by lia; simpl; rewrite ?byteZ_byte_of_Z by lia.
  all: repeat match goal with |- context [(?a <? ?b)%Z] => destruct (Z.ltb_spec a b); [try lia|try lia] end.
  all: match goal with |- context [utf8_scalar ?lo ?v] => replace v with c by lia end.
  all: rewrite utf8_scalar_some by (done || lia); done.
Qed.

(** Decoding inverts encoding: [encode] is injective on encodable strings. *)
Lemma utf8_decode_encode s b : utf8_encode s = Some b -> utf8_decode b = Some s.
Proof.
  revert b. induction s as [|c s IH]; intros b; simpl; [by intros [= <-]|].
  destruct (utf8_char c) as [bc|] eqn:Ec; [|done].
  destruct (utf8_encode s) as [bs|] eqn:Es; [|done]. intros [= <-].
  rewrite (utf8_decode_char _ _ _ Ec), (IH _ eq_refl). done.
Qed.

Lemma utf8_encode_inj s t b : utf8_encode s = Some b -> utf8_encode t = Some b -> s = t.
Proof. intros H1%utf8_decode_encode H2%utf8_decode_encode. congruence. Qed.

Lemma utf8_encode_nil s : utf8_encode s = Some [] -> s = [].
Proof. intros H. by eapply utf8_encode_inj. Qed.

(** * Exceptions and results *)

(** The exception classes the modelled code raises or tells apart. [Exc n] is
    any other [Exception]; exceptions that are not [Exception] instances
    (keyboard interrupts, interpreter exit) are outside the model. *)
Inductive exn :=
  | InvalidIdentityState | InvalidIdentityRequest | TransportFailure
  | StalePublication | ExpiredPublication
  | SignerError | KeyGenerationError | SignerUnavailable | InvalidSigningInput
  | WalletLockedError | PasswordPolicyError | UnlockFailed | InvalidContainer
  | UnsupportedFormat | StorageFailure | StorageOutcomeUnknown | RotationInProgress
  | TypeError | ValueError | JSONDecodeError | KeyError | AttributeError
  | UnicodeEncodeError | UnicodeDecodeError | OSError | FileNotFoundError
  | RecursionError
  | Exc (n : Z).

#[global] Instance exn_eq_decision : EqDecision exn.
Proof. solve_decision. Defined.

Definition is_IdentityAdapterError (e : exn) : bool :=
  match e with
  | InvalidIdentityState | InvalidIdentityRequest | TransportFailure
  | StalePublication | ExpiredPublication => true
  | _ => false
  end.

Inductive res (A : Type) :=
  | Ok (a : A)
  | Err (e : exn).
Arguments Ok {_} _.
Arguments Err {_} _.

Definition res_bind {A B} (m : res A) (k : A -> res B) : res B :=
  match m with Ok a => k a | Err e => Err e end.

Declare Scope res_scope.
Delimit Scope res_scope with res.
Notation "'let*' x := m 'in' k" := (res_bind m (fun x => k))
  (at level 10, x pattern, m at level 100, k at level 200) : res_scope.
Open Scope res_scope.

(** [raise e] when [c] holds: the shape [if c: raise e] of the source. *)
Notation "'raise_if' c 'with' e ; k" := (if c then Err e else k)
  (at level 10, c at level 100, e at level 99, k at level 200) : res_scope.

Definition of_option {A} (e : exn) (o : option A) : res A :=
  match o with Some a => Ok a | None => Err e end.

Lemma res_bind_ok {A B} (m : res A) (k : A -> res B) b :
  res_bind m k = Ok b <-> exists a, m = Ok a /\ k a = Ok b.
Proof.
  destruct m as [a|e]; simpl; split.
  - eauto.
  - by intros (a' & [= <-] & H).
  - done.
  - by intros (a' & H & _).
Qed.

Fixpoint res_map {A B} (f : A -> res B) (l : list A) : res (list B) :=
  match l with
  | [] => Ok []
  | x :: l' => let* y := f x in let* r := res_map f l' in Ok (y :: r)
  end.

Lemma res_map_ok {A B} (f : A -> res B) l r :
  res_map f l = Ok r <-> Forall2 (fun x y => f x = Ok y) l r.
Proof.
  revert r. induction l as [|x l IH]; intros r; simpl.
  - split; [intros [= <-]; constructor | by inversion 1].
  - rewrite res_bind_ok. split.
    + intros (y & Hy & H). apply res_bind_ok in H as (r' & Hr & [= <-]).
      constructor; [done|]. by apply IH.
    + inversion 1 as [|? y ? r' Hy Hr]; subst. exists y. split; [done|].
      apply IH in Hr. rewrite Hr. done.
Qed.

(** The exceptions a computation can raise satisfy [P]. *)
Definition errs {A} (P : exn -> Prop) (m : res A) : Prop :=
  match m with Ok _ => True | Err e => P e end.

Lemma errs_bind {A B} P (m : res A) (k : A -> res B) :
  errs P m -> (forall a, m = Ok a -> errs P (k a)) -> errs P (res_bind m k).
Proof. destruct m; simpl; auto. Qed.

Lemma errs_if {A} P (c : bool) (m n : res A) :
  (c = true -> errs P m) -> (c = false -> errs P n) -> errs P (if c then m else n).
Proof. destruct c; auto. Qed.

(** * Stable sorting by a key *)

(** [sorted(l, key=key)]: Python's sort is stable, as insertion from the right is. *)
Section SortBy.
Context {A : Type} (key : A -> list Z).

Fixpoint insert_by (x : A) (l : list A) : list A :=
  match l with
  | [] => [x]
  | y :: l' => if lex_leb (key x) (key y) then x :: y :: l' else y :: insert_by x l'
  end.

Fixpoint sort_by (l : list A) : list A :=
  match l with
  | [] => []
  | x :: l' => insert_by x (sort_by l')
  end.

Definition key_le (x y : A) : Prop := lex_leb (key x) (key y) = true.
Definition key_lt (x y : A) : Prop := lex_ltb (key x) (key y) = true.

Lemma insert_by_perm x l : Permutation (x :: l) (insert_by x l).
Proof.
  induction l as [|y l IH]; simpl; [done|]. case_match; [done|].
  rewrite Permutation_swap. by constructor.
Qed.

Lemma sort_by_perm l : Permutation l (sort_by l).
Proof.
  induction l as [|x l IH]; simpl; [done|]. rewrite <-insert_by_perm. by constructor.
Qed.

Lemma insert_by_sorted x l : StronglySorted key_le l -> StronglySorted key_le (insert_by x l).
Proof.
  induction 1 as [|y l Hs IH Hy]; simpl; [repeat constructor|].
  destruct (lex_leb (key x) (key y)) eqn:E.
  - constructor; [by constructor|]. constructor; [done|].
    eapply Forall_impl; [exact Hy|]. intros z. by apply lex_leb_trans.
  - constructor; [done|]. rewrite <-insert_by_perm. constructor; [|done].
    destruct (lex_leb_total (key x) (key y)) as [H|H]; unfold key_le; congruence.
Qed.

Lemma sort_by_sorted l : StronglySorted key_le (sort_by l).
Proof. induction l; simpl; [constructor|]. by apply insert_by_sorted. Qed.

Lemma sort_by_id l : StronglySorted key_le l -> sort_by l = l.
Proof.
  induction 1 as [|x l Hs IH Hx]; simpl; [done|]. rewrite IH.
  destruct Hx as [|y l Hxy _]; simpl; [done|]. by rewrite Hxy.
Qed.

Lemma sort_by_fixed l : sort_by l = l <-> StronglySorted key_le l.
Proof. split; [intros <-; apply sort_by_sorted | apply sort_by_id]. Qed.

Lemma key_lt_of_le x y : key_le x y -> key x <> key y -> key_lt x y.
Proof.
  unfold key_le, key_lt, lex_ltb. intros Hle Hne.
  destruct (lex_leb (key y) (key x)) eqn:E; [|done]. destruct Hne. by apply lex_leb_antisym.
Qed.

Lemma sorted_strict l :
  NoDup (key <$> l) -> StronglySorted key_le l -> StronglySorted key_lt l.
Proof.
  intros Hnd. induction 1 as [|x l Hs IH Hx]; [constructor|].
  rewrite fmap_cons in Hnd. apply NoDup_cons in Hnd as [Hni Hnd]. constructor; [auto|].
  rewrite Forall_forall in Hx |- *. intros y Hy. apply key_lt_of_le; [auto|].
  intros E. apply Hni. rewrite E. by apply list_elem_of_fmap_2.
Qed.

#[local] Instance key_lt_antisym : AntiSymm (=) key_lt.
Proof.
  intros x y. unfold key_lt, lex_ltb. intros H1 H2.
  destruct (lex_leb_total (key x) (key y)) as [E|E]; rewrite E in *; done.
Qed.

(** With distinct keys the sorted list depends only on the elements. *)
Lemma sort_by_unique l1 l2 :
  NoDup (key <$> l1) -> Permutation l1 l2 -> sort_by l1 = sort_by l2.
Proof.
  intros Hnd HP.
  assert (forall l, Permutation l1 l -> StronglySorted key_lt (sort_by l)) as Hs.
  { intros l Hl. apply sorted_strict; [|apply sort_by_sorted].
    by rewrite <-sort_by_perm, <-Hl. }
  apply (StronglySorted_unique key_lt); [by apply Hs|by apply Hs|].
  by rewrite <-!sort_by_perm.
Qed.
End SortBy.

(** Sorting related lists by agreeing keys keeps them related. *)
Lemma sort_by_Forall2 {A B} (R : A -> B -> Prop) keyA keyB l m :
  (forall x y, R x y -> keyA x = keyB y) -> Forall2 R l m -> Forall2 R (sort_by keyA l) (sort_by keyB m).
Proof.
  intros Hkey. assert (forall x y l m, R x y -> Forall2 R l m -> Forall2 R (insert_by keyA x l) (insert_by keyB y m)) as Hins.
  { intros x y l' m' Hxy. induction 1 as [|x' y' l' m' Hxy' Hlm IH]; simpl; [by repeat constructor|].
    rewrite (Hkey _ _ Hxy), (Hkey _ _ Hxy'). case_match; by repeat constructor. }
  induction 1; simpl; auto.
Qed.

(** * Automation *)

Create HintDb wallet.
Create Rewrite HintDb wallet.

(** Invert every [res_bind _ _ = Ok _] and every guard of a hypothesis that
    says a fallible definition returned. *)
Ltac inv_ok_step :=
  match goal with
  | H : res_bind _ _ = Ok _ |- _ => apply res_bind_ok in H; destruct H as (? & ? & H)
  | H : Ok _ = Ok _ |- _ => injection H as H; try subst
  | H : Err _ = Ok _ |- _ => discriminate H
  | H : (if ?c then Err _ else _) = Ok _ |- _ => let E := fresh "G" in destruct c eqn:E; [discriminate H|]
  | H : (if ?c then _ else Err _) = Ok _ |- _ => let E := fresh "G" in destruct c eqn:E; [|discriminate H]
  | H : of_option _ ?o = Ok _ |- _ => let E := fresh "E" in destruct o eqn:E; simpl in H
  | H : prod _ _ |- _ => destruct H
  end.
Ltac inv_ok := repeat (inv_ok_step; simpl in *).

(** Turn boolean guards into propositions. *)
Ltac bool_hyps :=
  repeat match goal with
  | H : (_ || _)%bool = false |- _ => apply orb_false_elim in H; destruct H
  | H : (_ && _)%bool = true |- _ => apply andb_prop in H; destruct H
  | H : negb _ = false |- _ => apply negb_false_iff in H
  | H : negb _ = true |- _ => apply negb_true_iff in H
  | H : bool_decide _ = true |- _ => apply bool_decide_eq_true in H
  | H : bool_decide _ = false |- _ => apply bool_decide_eq_false in H
  | H : (_ =? _)%Z = true |- _ => apply Z.eqb_eq in H
  | H : (_ =? _)%Z = false |- _ => apply Z.eqb_neq in H
  | H : (_ <? _)%Z = true |- _ => apply Z.ltb_lt in H
  | H : (_ <? _)%Z = false |- _ => apply Z.ltb_ge in H
  | H : (_ <=? _)%Z = true |- _ => apply Z.leb_le in H
  | H : (_ <=? _)%Z = false |- _ => apply Z.leb_gt in H
  | H : (_ =? _)%nat = true |- _ => apply Nat.eqb_eq in H
  | H : (_ =? _)%nat = false |- _ => apply Nat.eqb_neq in H
  end.
