(* ===== verification/PyVal.v ===== *)
(** Dynamically typed Python values: the [Any] of the source.

    [pyval] holds what [cbor2.loads] and callers can hand to the validators.
    [POther id num hashes] stands for a value of any other type (float, Decimal, tag,
    datetime, set, ...); [num] is the integer it compares equal to, if any, since
    [1.0 == 1] makes such a value usable as the dictionary key [1]; [hashes] says whether
    [hash] accepts it.  A dict is
    its list of items in insertion order, with keys distinct under [==]. *)

From S2P Require Import Prelude.

#[local] Set Warnings "-register-all".

Inductive pyval :=
  | PNone
  | PBool (b : bool)
  | PInt (z : Z)
  | PBytes (b : bytes)
  | PStr (s : pystr)
  | PList (l : list pyval)
  | PTuple (l : list pyval)
  | PDict (d : list (pyval * pyval))
  | POther (id : Z) (num : option Z) (hashes : bool).

(** Induction with hypotheses for the elements of lists and dicts. *)
Section PyvalInd.
Context (P : pyval -> Prop).
Context (HNone : P PNone) (HBool : forall b, P (PBool b)) (HInt : forall z, P (PInt z)).
Context (HBytes : forall b, P (PBytes b)) (HStr : forall s, P (PStr s)).
Context (HList : forall l, Forall P l -> P (PList l)).
Context (HTuple : forall l, Forall P l -> P (PTuple l)).
Context (HDict : forall d, Forall (fun kv => P kv.1 /\ P kv.2) d -> P (PDict d)).
Context (HOther : forall i n h, P (POther i n h)).

Fixpoint pyval_ind' (v : pyval) : P v :=
  let fix all (l : list pyval) : Forall P l :=
    match l with
    | [] => List.Forall_nil _
    | x :: l' => List.Forall_cons _ x l' (pyval_ind' x) (all l')
    end in
  let fix items (d : list (pyval * pyval)) : Forall (fun kv => P kv.1 /\ P kv.2) d :=
    match d with
    | [] => List.Forall_nil _
    | (k, x) :: d' => List.Forall_cons _ (k, x) d' (conj (pyval_ind' k) (pyval_ind' x)) (items d')
    end in
  match v with
  | PNone => HNone | PBool b => HBool b | PInt z => HInt z
  | PBytes b => HBytes b | PStr s => HStr s
  | PList l => HList l (all l)
  | PTuple l => HTuple l (all l)
  | PDict d => HDict d (items d)
  | POther i n h => HOther i n h
  end.
End PyvalInd.

(** The integer a value equals as a number ([True == 1], [1.0 == 1]). *)
Definition num_of (v : pyval) : option Z :=
  match v with
  | PInt z => Some z
  | PBool b => Some (if b then 1 else 0)%Z
  | POther _ n _ => n
  | _ => None
  end.

Definition num_eqb (v : pyval) (z : Z) : bool :=
  match num_of v with Some z' => (z' =? z)%Z | None => false end.

(** Python's [==].  Dicts compare as sets of items; two values of unmodelled
    types are equal when they have the same identity or the same integer. *)
Fixpoint py_eq (a b : pyval) {struct a} : bool :=
  let fix list_eq (l m : list pyval) {struct l} : bool :=
    match l, m with
    | [], [] => true
    | x :: l', y :: m' => py_eq x y && list_eq l' m'
    | _, _ => false
    end in
  let fix items_in (d e : list (pyval * pyval)) {struct d} : bool :=
    match d with
    | [] => true
    | (k, v) :: d' => existsb (fun kv => py_eq k kv.1 && py_eq v kv.2) e && items_in d' e
    end in
  match a, b with
  | PNone, PNone => true
  | PBytes x, PBytes y => bool_decide (x = y)
  | PStr x, PStr y => bool_decide (x = y)
  | PList x, PList y => list_eq x y
  | PTuple x, PTuple y => list_eq x y
  | PDict x, PDict y => (length x =? length y)%nat && items_in x y
  | (PInt _ | PBool _), _ =>
      match num_of a with Some z => num_eqb b z | None => false end
  | POther i n _, POther j _ _ => (i =? j)%Z || match n with Some z => num_eqb b z | None => false end
  | POther _ n _, _ => match n with Some z => num_eqb b z | None => false end
  | _, _ => false
  end.

(** Unhashable values: [x in {...}] raises [TypeError] on them. *)
Fixpoint hashable (v : pyval) : bool :=
  match v with
  | PList _ | PDict _ => false
  | PTuple l => forallb hashable l
  | POther _ _ hashes => hashes
  | _ => true
  end.

(** * Type tests *)

(** [type(v) is int] *)
Definition type_is_int (v : pyval) : bool := match v with PInt _ => true | _ => false end.
(** [type(v) is bytes] *)
Definition type_is_bytes (v : pyval) : bool := match v with PBytes _ => true | _ => false end.

(** * Dictionaries keyed by small integers *)

Abbreviation pydict := (list (pyval * pyval)).

(** [d.get(k)] for an [int] key. *)
Fixpoint dict_get (k : Z) (d : pydict) : option pyval :=
  match d with
  | [] => None
  | (k', v) :: d' => if num_eqb k' k then Some v else dict_get k d'
  end.

(** [d[k]]: [KeyError] when the key is missing. *)
Definition dict_item (k : Z) (d : pydict) : res pyval := of_option KeyError (dict_get k d).

Definition all_int_keys (d : pydict) : bool := forallb (fun kv => type_is_int kv.1) d.

(** [set(d) == set(ks)] for a dict whose keys are all [int]. *)
Definition key_set_is (d : pydict) (ks : list Z) : bool :=
  forallb (fun kv => existsb (num_eqb kv.1) ks) d &&
  forallb (fun k => existsb (fun kv => num_eqb kv.1 k) d) ks.

(** A dict literal [{k1: v1, ...}] with [int] keys. *)
Definition py_dict (l : list (Z * pyval)) : pyval := PDict ((fun kv => (PInt kv.1, kv.2)) <$> l).

Definition py_opt {A} (f : A -> pyval) (o : option A) : pyval :=
  match o with Some a => f a | None => PNone end.

Lemma key_set_is_get d ks k :
  key_set_is d ks = true -> In k ks -> exists v, dict_get k d = Some v.
Proof.
  unfold key_set_is. intros H Hk. apply andb_prop in H as [_ H].
  rewrite forallb_forall in H. specialize (H _ Hk). clear Hk.
  induction d as [|[k' v] d IH]; simpl in *; [done|].
  destruct (num_eqb k' k); eauto.
Qed.

Lemma py_eq_bytes v b : py_eq v (PBytes b) = true <-> v = PBytes b.
Proof.
  destruct v as [| | |x| | | | |i [n|]]; cbn; try (split; intros; congruence).
  rewrite bool_decide_eq_true. split; congruence.
Qed.
