(* ===== verification/Sha256.v ===== *)
(** [hashlib.sha256(m).digest()] of the Python standard library: FIPS 180-4,
    over 32-bit words kept as [Z] with the wrap-around written out. *)

From S2P Require Import Prelude.

Open Scope Z_scope.

Definition w32 (x : Z) : Z := x mod 4294967296.
Definition add32 (x y : Z) : Z := w32 (x + y).
Definition rotr (n x : Z) : Z := w32 (Z.lor (Z.shiftr x n) (Z.shiftl x (32 - n))).
Definition shr (n x : Z) : Z := Z.shiftr x n.

Definition big_sigma0 (x : Z) : Z := Z.lxor (rotr 2 x) (Z.lxor (rotr 13 x) (rotr 22 x)).
Definition big_sigma1 (x : Z) : Z := Z.lxor (rotr 6 x) (Z.lxor (rotr 11 x) (rotr 25 x)).
Definition small_sigma0 (x : Z) : Z := Z.lxor (rotr 7 x) (Z.lxor (rotr 18 x) (shr 3 x)).
Definition small_sigma1 (x : Z) : Z := Z.lxor (rotr 17 x) (Z.lxor (rotr 19 x) (shr 10 x)).
Definition choose (x y z : Z) : Z := Z.lxor (Z.land x y) (Z.land (Z.lxor x 4294967295) z).
Definition majority (x y z : Z) : Z := Z.lxor (Z.land x y) (Z.lxor (Z.land x z) (Z.land y z)).

(** The constants, by their definition in the standard: the first 32 bits of the
    fractional parts of the cube roots (rounds) and square roots (initial state) of
    the first primes. *)
Definition is_prime (n : Z) : bool :=
  forallb (fun d => negb (n mod Z.of_nat d =? 0)) (seq 2 (Z.to_nat n - 2)).

Definition primes (count : nat) : list Z := take count (filter (fun n => is_prime n = true) (Z.of_nat <$> seq 2 310)).

(** The largest [r] with [r ^ 3 <= n], bit by bit. *)
Fixpoint cube_root (bits : nat) (r n : Z) : Z :=
  match bits with
  | O => r
  | S b => let r' := r + 2 ^ Z.of_nat b in cube_root b (if r' ^ 3 <=? n then r' else r) n
  end.

Definition round_constants : list Z :=
  Eval vm_compute in (fun p => w32 (cube_root 40 0 (p * 2 ^ 96))) <$> primes 64.

Definition root_constants : list Z :=
  Eval vm_compute in (fun p => w32 (Z.sqrt (p * 2 ^ 64))) <$> primes 8.

Record hash_state := HashState {
  h_a : Z; h_b : Z; h_c : Z; h_d : Z; h_e : Z; h_f : Z; h_g : Z; h_h : Z }.

Definition initial_hash : hash_state :=
  Eval vm_compute in
  match root_constants with
  | [a; b; c; d; e; f; g; h] => HashState a b c d e f g h
  | _ => HashState 0 0 0 0 0 0 0 0
  end.

(** One round: consume a constant and the head of the 16-word schedule window,
    and push the next schedule word. *)
Definition round (acc : hash_state * list Z) (k : Z) : hash_state * list Z :=
  let '(s, w) := acc in
  let w0 := nth 0 w 0 in
  let t1 := add32 (h_h s) (add32 (big_sigma1 (h_e s)) (add32 (choose (h_e s) (h_f s) (h_g s)) (add32 k w0))) in
  let t2 := add32 (big_sigma0 (h_a s)) (majority (h_a s) (h_b s) (h_c s)) in
  let next := add32 (small_sigma1 (nth 14 w 0)) (add32 (nth 9 w 0) (add32 (small_sigma0 (nth 1 w 0)) w0)) in
  (HashState (add32 t1 t2) (h_a s) (h_b s) (h_c s) (add32 (h_d s) t1) (h_e s) (h_f s) (h_g s),
   tl w ++ [next]).

Fixpoint be_value (l : bytes) (acc : Z) : Z :=
  match l with [] => acc | b :: l' => be_value l' (acc * 256 + byteZ b) end.

Fixpoint words (n : nat) (l : bytes) : list Z :=
  match n with O => [] | S n' => be_value (take 4 l) 0 :: words n' (drop 4 l) end.

Definition compress (s : hash_state) (block : bytes) : hash_state :=
  let t := (foldl round (s, words 16 block) round_constants).1 in
  HashState (add32 (h_a s) (h_a t)) (add32 (h_b s) (h_b t)) (add32 (h_c s) (h_c t)) (add32 (h_d s) (h_d t))
            (add32 (h_e s) (h_e t)) (add32 (h_f s) (h_f t)) (add32 (h_g s) (h_g t)) (add32 (h_h s) (h_h t)).

(** Big-endian bytes of a word. *)
Fixpoint be_bytes (n : nat) (z : Z) : bytes :=
  match n with O => [] | S n' => be_bytes n' (z / 256) ++ [byte_of_Z (z mod 256)] end.

Definition pad (m : bytes) : bytes :=
  let len := Z.of_nat (length m) in
  let zeros := Z.to_nat ((55 - len) mod 64) in
  m ++ [Byte.x80] ++ replicate zeros Byte.x00 ++ be_bytes 8 (8 * len).

Fixpoint blocks (n : nat) (s : hash_state) (l : bytes) : hash_state :=
  match n with O => s | S n' => blocks n' (compress s (take 64 l)) (drop 64 l) end.

Definition sha256 (m : bytes) : bytes :=
  let p := pad m in
  let s := blocks (length p / 64)%nat initial_hash p in
  be_bytes 4 (h_a s) ++ be_bytes 4 (h_b s) ++ be_bytes 4 (h_c s) ++ be_bytes 4 (h_d s) ++
  be_bytes 4 (h_e s) ++ be_bytes 4 (h_f s) ++ be_bytes 4 (h_g s) ++ be_bytes 4 (h_h s).

(** The FIPS 180-4 known answers for the one-block and the two-block message. *)
Example sha256_abc :
  be_value (sha256 [Byte.x61; Byte.x62; Byte.x63]) 0 =
  0xba7816bf8f01cfea414140de5dae2223b00361a396177a9cb410ff61f20015ad.
Proof. vm_compute. reflexivity. Qed.

Example sha256_two_blocks :
  be_value (sha256 (byte_of_Z <$> py "abcdbcdecdefdefgefghfghighijhijkijkljklmklmnlmnomnopnopq")) 0 =
  0x248d6a61d20638b8e5c026930c3e6039a33ce45964ff2167f6ecedd419db06c1.
Proof. vm_compute. reflexivity. Qed.

Lemma be_bytes_length n z : length (be_bytes n z) = n.
Proof. revert z. induction n; intros z; simpl; [done|]. rewrite length_app, IHn. simpl. lia. Qed.

Lemma be_value_app a b acc : be_value (a ++ b) acc = be_value b (be_value a acc).
Proof. revert acc. induction a; intros acc; simpl; auto. Qed.

Lemma be_value_bytes n z acc :
  be_value (be_bytes n z) acc = acc * 256 ^ Z.of_nat n + z mod 256 ^ Z.of_nat n.
Proof.
  revert z acc. induction n as [|n IH]; intros z acc.
  - simpl. rewrite Z.mod_1_r. lia.
  - simpl be_bytes. rewrite be_value_app, IH. simpl be_value.
    rewrite byteZ_byte_of_Z by (apply Z.mod_pos_bound; lia).
    rewrite Nat2Z.inj_succ, Z.pow_succ_r by lia.
    rewrite (Z.rem_mul_r z 256 (256 ^ Z.of_nat n)) by lia. lia.
Qed.

Lemma sha256_length m : length (sha256 m) = 32%nat.
Proof. unfold sha256. rewrite !length_app, !be_bytes_length. reflexivity. Qed.

#[global] Opaque sha256.
#[export] Hint Rewrite sha256_length be_bytes_length : wallet.
#[export] Hint Resolve sha256_length : wallet.
