(* ===== verification/Interfaces.v ===== *)
(** What the wallet assumes of the third-party packages it calls.

    [cbor2] and the Ed25519 primitives of [cryptography] are parameters of the
    model, given by operation classes; the classes of laws state the documented
    behaviour the theorems use.  Concrete instances that satisfy the laws are
    in [CborCodec] and [Instances]. *)

From S2P Require Import Prelude PyVal.

Open Scope Z_scope.

(** * cbor2 *)

(** [cbor2.loads(data)] and [cbor2.dumps(value, canonical=True)]; both may
    raise any exception. *)
Class Cbor := {
  cbor_loads : bytes -> res pyval;
  cbor_dumps : pyval -> res bytes;
}.

(** Dict keys that canonical encoding leaves in place: strictly ascending
    integers of the one-byte range. *)
Fixpoint ascending_keys (lo : Z) (d : pydict) : bool :=
  match d with
  | [] => true
  | (PInt k, _) :: d' => (lo <? k) && (k <? 24) && ascending_keys k d'
  | _ => false
  end.

(** Values whose canonical encoding decodes to the value itself. *)
Fixpoint cbor_plain (v : pyval) : bool :=
  match v with
  | PNone | PBool _ | PInt _ | PBytes _ => true
  | PStr s => match utf8_encode s with Some _ => true | None => false end
  | PList l => forallb cbor_plain l
  | PDict d => ascending_keys (-1) d && forallb (fun kv => cbor_plain kv.2) d
  | PTuple _ | POther _ _ _ => false
  end.

Class CborLaws `{Cbor} : Prop := {
  cbor_roundtrip v :
    cbor_plain v = true -> exists b, cbor_dumps v = Ok b /\ b <> [] /\ cbor_loads b = Ok v;
}.

(** * Ed25519 *)

(** [ed_public seed] is the raw public key of
    [Ed25519PrivateKey.from_private_bytes(seed)] ([None]: [ValueError]);
    [ed_verify pk sig m] tells whether
    [Ed25519PublicKey.from_public_bytes(pk).verify(sig, m)] returns rather than
    raising [ValueError] or [InvalidSignature]. *)
Class Ed25519 := {
  ed_public : bytes -> option bytes;
  ed_sign : bytes -> bytes -> bytes;
  ed_verify : bytes -> bytes -> bytes -> bool;
}.

Class Ed25519Laws `{Ed25519} : Prop := {
  ed_public_some seed : length seed = 32%nat -> exists pk, ed_public seed = Some pk;
  ed_public_seed_length seed pk : ed_public seed = Some pk -> length seed = 32%nat;
  ed_public_length seed pk : ed_public seed = Some pk -> length pk = 32%nat;
  ed_sign_length seed m : length seed = 32%nat -> length (ed_sign seed m) = 64%nat;
  ed_verify_sign seed pk m : ed_public seed = Some pk -> ed_verify pk (ed_sign seed m) m = true;
}.
