(* ===== verification/CborCodec.v ===== *)
(** A concrete codec for the class [Cbor]: the RFC 8949 data items the wallet
    uses (integers, byte and text strings, arrays, maps, booleans, null).

    It shows that the laws of [CborLaws] can hold and lets witnesses evaluate.
    Arguments of [2^64] and above, which no RFC 8949 head carries, use the
    reserved additional information 28 followed by a digit count and the
    digits, so that the codec is total. *)

From S2P Require Import Prelude PyVal Sha256 Interfaces.

Open Scope Z_scope.

(** * Encoding *)

Definition lead (major info : Z) : byte := byte_of_Z (major * 32 + info).

(** Number of base-256 digits that hold [n]. *)
Definition digits (n : Z) : nat := Z.to_nat (Z.log2 n / 8 + 1).

Definition head (major n : Z) : bytes :=
  if n <? 24 then [lead major n]
  else if n <? 256 then lead major 24 :: be_bytes 1 n
  else if n <? 65536 then lead major 25 :: be_bytes 2 n
  else if n <? 4294967296 then lead major 26 :: be_bytes 4 n
  else if n <? 18446744073709551616 then lead major 27 :: be_bytes 8 n
  else lead major 28 :: replicate (digits n) Byte.x01 ++ [Byte.x00] ++ be_bytes (digits n) n.

Definition encode_int (z : Z) : bytes := if 0 <=? z then head 0 z else head 1 (-1 - z).

Fixpoint encode (v : pyval) : bytes :=
  match v with
  | PNone => [Byte.xf6]
  | PBool false => [Byte.xf4]
  | PBool true => [Byte.xf5]
  | PInt z => encode_int z
  | PBytes b => head 2 (Z.of_nat (length b)) ++ b
  | PStr s => let b := default [] (utf8_encode s) in head 3 (Z.of_nat (length b)) ++ b
  | PList l => head 4 (Z.of_nat (length l)) ++ concat (map encode l)
  | PDict d => head 5 (Z.of_nat (length d)) ++ concat (map (fun kv => encode kv.1 ++ encode kv.2) d)
  | PTuple _ | POther _ _ _ => []
  end.

(** * Decoding *)

Fixpoint count_ones (l : bytes) : option (nat * bytes) :=
  match l with
  | Byte.x01 :: l' => match count_ones l' with Some (n, r) => Some (S n, r) | None => None end
  | Byte.x00 :: l' => Some (0%nat, l')
  | _ => None
  end.

(** [split n l]: the first [n] bytes and the rest, if there are that many. *)
Definition split_bytes (n : nat) (l : bytes) : option (bytes * bytes) :=
  if (n <=? length l)%nat then Some (take n l, drop n l) else None.

Definition take_value (n : nat) (l : bytes) : option (Z * bytes) :=
  match split_bytes n l with Some (a, r) => Some (be_value a 0, r) | None => None end.

Definition decode_head (l : bytes) : option (Z * Z * bytes) :=
  match l with
  | [] => None
  | b :: r =>
      let major := byteZ b / 32 in
      let info := byteZ b mod 32 in
      let arg :=
        if info <? 24 then Some (info, r)
        else if info =? 24 then take_value 1 r
        else if info =? 25 then take_value 2 r
        else if info =? 26 then take_value 4 r
        else if info =? 27 then take_value 8 r
        else if info =? 28 then
          match count_ones r with Some (n, r') => take_value n r' | None => None end
        else None in
      match arg with Some (n, r') => Some (major, n, r') | None => None end
  end.

Fixpoint pair_up (l : list pyval) : option pydict :=
  match l with
  | [] => Some []
  | k :: v :: l' => cons (k, v) <$> pair_up l'
  | _ => None
  end.

(** [n] consecutive data items.  Every item takes at least one byte, so the
    length of the input is enough fuel. *)
Fixpoint decode_seq (fuel n : nat) (l : bytes) : option (list pyval * bytes) :=
  match n, fuel with
  | O, _ => Some ([], l)
  | S _, O => None
  | S n', S f =>
      let continue (v : option pyval) (r : bytes) :=
        match v, decode_seq f n' r with
        | Some v, Some (vs, r') => Some (v :: vs, r')
        | _, _ => None
        end in
      match decode_head l with
      | None => None
      | Some (major, arg, r) =>
          let k := Z.to_nat arg in
          if major =? 0 then continue (Some (PInt arg)) r
          else if major =? 1 then continue (Some (PInt (-1 - arg))) r
          else if major =? 2 then
            match split_bytes k r with Some (b, r') => continue (Some (PBytes b)) r' | None => None end
          else if major =? 3 then
            match split_bytes k r with
            | Some (b, r') => continue (PStr <$> utf8_decode b) r'
            | None => None
            end
          else if major =? 4 then
            match decode_seq f k r with Some (vs, r') => continue (Some (PList vs)) r' | None => None end
          else if major =? 5 then
            match decode_seq f (2 * k) r with
            | Some (vs, r') => continue (PDict <$> pair_up vs) r'
            | None => None
            end
          else if (major =? 7) && (arg =? 20) then continue (Some (PBool false)) r
          else if (major =? 7) && (arg =? 21) then continue (Some (PBool true)) r
          else if (major =? 7) && (arg =? 22) then continue (Some PNone) r
          else None
      end
  end.

Definition loads (b : bytes) : res pyval :=
  match decode_seq (length b) 1 b with
  | Some ([v], []) => Ok v
  | _ => Err ValueError
  end.

Definition dumps (v : pyval) : res bytes :=
  if cbor_plain v then Ok (encode v) else Err ValueError.

#[export] Instance codec : Cbor := { cbor_loads := loads; cbor_dumps := dumps }.

(** * Decoding inverts encoding *)

Lemma split_bytes_app a r : split_bytes (length a) (a ++ r) = Some (a, r).
Proof.
  unfold split_bytes. rewrite length_app, (proj2 (Nat.leb_le _ _)) by lia.
  by rewrite take_app_length, drop_app_length.
Qed.

Lemma take_value_be n z r :
  0 <= z < 256 ^ Z.of_nat n -> take_value n (be_bytes n z ++ r) = Some (z, r).
Proof.
  intros Hz. unfold take_value.
  replace n with (length (be_bytes n z)) at 1 by apply be_bytes_length.
  rewrite split_bytes_app, be_value_bytes, Z.mod_small by done. done.
Qed.

Lemma count_ones_replicate n r : count_ones (replicate n Byte.x01 ++ Byte.x00 :: r) = Some (n, r).
Proof. induction n; simpl; [done|]. by rewrite IHn. Qed.

Lemma digits_bound n : 0 < n -> n < 256 ^ Z.of_nat (digits n).
Proof.
  intros Hn. unfold digits. pose proof (Z.log2_nonneg n).
  rewrite Z2Nat.id by (pose proof (Z.div_pos (Z.log2 n) 8); lia).
  pose proof (Z.log2_spec n Hn) as [_ Hlt]. eapply Z.lt_le_trans; [exact Hlt|].
  change 256 with (2 ^ 8). rewrite <-Z.pow_mul_r by (pose proof (Z.div_pos (Z.log2 n) 8); lia).
  apply Z.pow_le_mono_r; [lia|].
  pose proof (Z_div_mod_eq_full (Z.log2 n) 8). pose proof (Z.mod_pos_bound (Z.log2 n) 8). lia.
Qed.

Lemma decode_lead major info :
  0 <= major < 8 -> 0 <= info < 32 ->
  byteZ (lead major info) / 32 = major /\ byteZ (lead major info) mod 32 = info.
Proof.
  intros. unfold lead. rewrite byteZ_byte_of_Z by lia.
  split.
  - rewrite Z.div_add_l, Z.div_small by lia. lia.
  - rewrite Z.add_comm, Z.mod_add, Z.mod_small by lia. lia.
Qed.

Lemma decode_head_head major n r :
  0 <= major < 8 -> 0 <= n -> decode_head (head major n ++ r) = Some (major, n, r).
Proof.
  intros Hm Hn. unfold head.
  repeat match goal with |- context [n <? ?b] => destruct (Z.ltb_spec n b) end;
    cbn [app decode_head];
    edestruct (decode_lead major) as [-> ->]; try lia; cbn -[take_value count_ones be_bytes digits replicate app].
  - by rewrite (proj2 (Z.ltb_lt n 24)) by done.
  - by rewrite take_value_be.
  - by rewrite take_value_be.
  - by rewrite take_value_be.
  - by rewrite take_value_be.
  - rewrite <-app_assoc. cbn [app]. rewrite count_ones_replicate, take_value_be; [done|].
    split; [done|]. apply digits_bound. lia.
Qed.

Lemma head_length major n : (1 <= length (head major n))%nat.
Proof. unfold head. repeat case_match; simpl; lia. Qed.

Lemma encode_nonempty v : cbor_plain v = true -> (1 <= length (encode v))%nat.
Proof.
  assert (forall m n l, (1 <= length (head m n ++ l))%nat) as Hh.
  { intros m n l. rewrite length_app. pose proof (head_length m n). lia. }
  destruct v as [|[]|z|b|s|l|l|d|i n]; intros Hv; try discriminate Hv;
    try apply Hh; try (simpl; lia).
  simpl. unfold encode_int. destruct (0 <=? z); apply head_length.
Qed.

Lemma pair_up_flat d : pair_up (concat (map (fun kv => [kv.1; kv.2]) d)) = Some d.
Proof. induction d as [|[k v] d IH]; simpl; [done|]. by rewrite IH. Qed.

Lemma encode_dict_flat d :
  concat (map (fun kv : pyval * pyval => encode kv.1 ++ encode kv.2) d) =
  concat (map encode (concat (map (fun kv => [kv.1; kv.2]) d))).
Proof. induction d as [|[k v] d IH]; simpl; [done|]. by rewrite IH, <-app_assoc. Qed.

Lemma flat_length (d : pydict) :
  length (concat (map (fun kv => [kv.1; kv.2]) d)) = (2 * length d)%nat.
Proof. induction d; simpl in *; lia. Qed.

Lemma flat_plain lo d :
  ascending_keys lo d = true -> forallb (fun kv => cbor_plain kv.2) d = true ->
  forallb cbor_plain (concat (map (fun kv => [kv.1; kv.2]) d)) = true.
Proof.
  revert lo. induction d as [|[k v] d IH]; intros lo; simpl; [done|].
  destruct k; try done. intros Hk Hv. bool_hyps. simpl.
  erewrite IH by done. by rewrite andb_true_r.
Qed.

(** The item sequence of a list of plain values decodes to the list. *)
Lemma decode_seq_encode fuel vs r :
  forallb cbor_plain vs = true -> (length (concat (map encode vs)) <= fuel)%nat ->
  decode_seq fuel (length vs) (concat (map encode vs) ++ r) = Some (vs, r).
Proof.
  revert vs r. induction fuel as [|f IH]; intros [|v vs] r; cbn [map concat length forallb]; try done.
  - intros Hp Hl. bool_hyps. rewrite length_app in Hl.
    pose proof (encode_nonempty v). destruct (cbor_plain v); [|done]. lia.
  - intros Hp Hl. bool_hyps. rename H into Hv, H0 into Hvs. rewrite length_app in Hl.
    pose proof (encode_nonempty v Hv).
    assert (forall r', decode_seq f (length vs) (concat (map encode vs) ++ r') = Some (vs, r')) as IHvs
      by (intros; apply IH; [done|lia]).
    rewrite <-app_assoc. destruct v as [|[]|z|b|s|l|l|d|i n]; try done.
    1-3: cbn [encode app decode_seq]; change (decode_head (?x :: ?y)) with (decode_head ([x] ++ y)).
    1: change [Byte.xf6] with (head 7 22). 2: change [Byte.xf5] with (head 7 21).
    3: change [Byte.xf4] with (head 7 20).
    1-3: rewrite decode_head_head by lia; cbn -[decode_seq]; by rewrite IHvs.
    + cbn [encode decode_seq]. unfold encode_int. destruct (Z.leb_spec 0 z).
      * rewrite decode_head_head by lia. cbn -[decode_seq]. by rewrite IHvs.
      * rewrite decode_head_head by lia. cbn -[decode_seq]. rewrite IHvs.
        by replace (-1 - (-1 - z)) with z by lia.
    + cbn [encode decode_seq]. rewrite <-app_assoc, decode_head_head by lia. cbn -[decode_seq].
      rewrite Nat2Z.id, split_bytes_app, IHvs. done.
    + cbn [encode decode_seq]. simpl in Hv. destruct (utf8_encode s) as [b|] eqn:Es; [|done].
      cbn [default]. rewrite <-app_assoc, decode_head_head by lia. cbn -[decode_seq].
      rewrite Nat2Z.id, split_bytes_app, (utf8_decode_encode _ _ Es). simpl. by rewrite IHvs.
    + cbn [encode decode_seq] in *. rewrite length_app in Hl.
      pose proof (head_length 4 (Z.of_nat (length l))).
      rewrite <-app_assoc, decode_head_head by lia. cbn -[decode_seq].
      rewrite Nat2Z.id, IH by (done || lia). by rewrite IHvs.
    + cbn [encode decode_seq] in *. simpl in Hv. bool_hyps.
      rewrite encode_dict_flat in *. rewrite length_app in Hl.
      pose proof (head_length 5 (Z.of_nat (length d))).
      rewrite <-app_assoc, decode_head_head by lia. cbn -[decode_seq Nat.mul].
      rewrite Nat2Z.id, <-flat_length.
      rewrite IH by (try lia; eapply flat_plain; done).
      rewrite pair_up_flat. cbn -[decode_seq]. by rewrite IHvs.
Qed.

#[export] Instance codec_laws : CborLaws.
Proof.
  constructor. intros v Hv. exists (encode v). split; [|split].
  - cbn. unfold dumps. by rewrite Hv.
  - intros E. pose proof (encode_nonempty v Hv) as H. rewrite E in H. simpl in H. lia.
  - cbn. unfold loads.
    pose proof (decode_seq_encode (length (encode v)) [v] []) as H.
    cbn [map concat forallb length] in H. rewrite !app_nil_r, Hv in H. by rewrite H.
Qed.
