(* ===== verification/SignedUpdate.v ===== *)
(** The Identity SignedUpdate: validators of untrusted values, the decoder of
    canonical update bytes and its builder
    (identity.py, [_require_uint] to [_verify_bundle_signature]). *)

From S2P Require Import Prelude PyVal Sha256 Interfaces.

Open Scope Z_scope.

Definition _KEY_LENGTH : nat := 32.
Definition _SIGNATURE_LENGTH : nat := 64.
Definition _MAX_PREDECESSOR_DEPTH : nat := 1024.
Definition _AUTHORIZATION_KEYS : list Z := [1; 2; 3; 4; 5; 6; 7].
Definition _SIGNER_ENTRY_KEYS : list Z := [1; 2].
Definition _OPERATION_VALUES : list Z := [1; 2; 3; 4; 5].

(** [_OPERATION_NAMES[operation]] *)
Definition _OPERATION_NAMES (operation : Z) : res pystr :=
  if operation =? 1 then Ok (py "genesis")
  else if operation =? 2 then Ok (py "ordinary-update")
  else if operation =? 3 then Ok (py "replace-signers")
  else if operation =? 4 then Ok (py "upgrade")
  else if operation =? 5 then Ok (py "owner-key-rotation")
  else Err KeyError.

Definition _require_uint (value : pyval) : res Z :=
  match value with
  | PInt z => raise_if z <? 0 with InvalidIdentityRequest; Ok z
  | _ => Err InvalidIdentityRequest
  end.

Definition _require_bytes (len : option nat) (nonempty : bool) (value : pyval) : res bytes :=
  match value with
  | PBytes b =>
      raise_if (match len with Some n => negb (length b =? n)%nat | None => false end)
        with InvalidIdentityRequest;
      raise_if nonempty && bool_decide (b = []) with InvalidIdentityRequest;
      Ok b
  | _ => Err InvalidIdentityRequest
  end.

Definition _require_exact_keys (value : pyval) (expected : list Z) : res pydict :=
  match value with
  | PDict d =>
      raise_if negb (all_int_keys d) || negb (key_set_is d expected) with InvalidIdentityState;
      Ok d
  | _ => Err InvalidIdentityState
  end.

Definition _validate_owner_name (value : pyval) : res bytes :=
  match value with
  | PBytes b =>
      raise_if bool_decide (b = []) with InvalidIdentityRequest;
      match utf8_decode b with Some _ => Ok b | None => Err InvalidIdentityRequest end
  | _ => Err InvalidIdentityRequest
  end.

(** The normalised authorization mapping: keys 1 and 2 are always 1, key 6 is
    the signer set as (identifier, public key) pairs. *)
Record authorization := Authorization {
  auth_operation : Z;                      (* 3 *)
  auth_epoch : Z;                          (* 4 *)
  auth_threshold : Z;                      (* 5 *)
  auth_signers : list (pystr * bytes);     (* 6 *)
  auth_predecessor : bytes;                (* 7 *)
}.

#[global] Instance authorization_eq_decision : EqDecision authorization.
Proof. solve_decision. Defined.

Definition signer_entry_to_py (entry : pystr * bytes) : pyval :=
  py_dict [(1, PStr entry.1); (2, PBytes entry.2)].

Definition auth_to_py (a : authorization) : pyval :=
  py_dict [(1, PInt 1); (2, PInt 1); (3, PInt (auth_operation a)); (4, PInt (auth_epoch a));
           (5, PInt (auth_threshold a)); (6, PList (signer_entry_to_py <$> auth_signers a));
           (7, PBytes (auth_predecessor a))].

(** Sort key [signer_id.encode("utf-8")] of an encodable identifier. *)
Definition id_key (signer_id : pystr) : list Z := byteZ <$> default [] (utf8_encode signer_id).

(** One turn of the loop over the signer set, before the duplicate test. *)
Definition validate_signer_entry (entry : pyval) : res (pystr * bytes) :=
  let* d := _require_exact_keys entry _SIGNER_ENTRY_KEYS in
  let* signer_id := dict_item 1 d in
  let* key_value := dict_item 2 d in
  let* public_key := _require_bytes (Some _KEY_LENGTH) false key_value in
  match signer_id with
  | PStr s =>
      raise_if bool_decide (s = []) with InvalidIdentityState;
      match utf8_encode s with
      | None => Err InvalidIdentityState
      | Some b => raise_if (256 <? length b)%nat with InvalidIdentityState; Ok (s, public_key)
      end
  | _ => Err InvalidIdentityState
  end.

Fixpoint validate_signer_set (seen_ids : list pystr) (seen_keys : list bytes) (entries : list pyval)
    : res (list (pystr * bytes)) :=
  match entries with
  | [] => Ok []
  | entry :: rest =>
      let* e := validate_signer_entry entry in
      raise_if bool_decide (e.1 ∈ seen_ids) || bool_decide (e.2 ∈ seen_keys) with InvalidIdentityState;
      let* normalized := validate_signer_set (e.1 :: seen_ids) (e.2 :: seen_keys) rest in
      Ok (e :: normalized)
  end.

Definition _validate_authorization (value : pyval) : res authorization :=
  let* auth := _require_exact_keys value _AUTHORIZATION_KEYS in
  let* v1 := dict_item 1 auth in
  let* n1 := _require_uint v1 in
  raise_if negb (n1 =? 1) with InvalidIdentityState;
  let* v2 := dict_item 2 auth in
  let* n2 := _require_uint v2 in
  raise_if negb (n2 =? 1) with InvalidIdentityState;
  let* v3 := dict_item 3 auth in
  let* operation := _require_uint v3 in
  raise_if negb (bool_decide (operation ∈ _OPERATION_VALUES)) with InvalidIdentityState;
  let* v4 := dict_item 4 auth in
  let* epoch := _require_uint v4 in
  let* v5 := dict_item 5 auth in
  let* threshold := _require_uint v5 in
  let* v6 := dict_item 6 auth in
  match v6 with
  | PList signer_set =>
      raise_if (length signer_set =? 0)%nat with InvalidIdentityState;
      let* normalized := validate_signer_set [] [] signer_set in
      let ordered := sort_by (fun e => id_key e.1) normalized in
      raise_if negb (bool_decide (normalized = ordered)) ||
               negb ((1 <=? threshold) && (threshold <=? Z.of_nat (length normalized)))
        with InvalidIdentityState;
      let* v7 := dict_item 7 auth in
      let* predecessor := _require_bytes (Some _KEY_LENGTH) false v7 in
      Ok (Authorization operation epoch threshold normalized predecessor)
  | _ => Err InvalidIdentityState
  end.

(** What [_decode_signed_update] returns: the record's two values are not
    validated by it. *)
Record signed_update := SignedUpdate {
  su_record_name : pyval;                  (* record[1] *)
  su_record_key : pyval;                   (* record[2] *)
  su_payload : pydict;
  su_sequence : Z;
  su_authorization : option authorization;
}.

Section Update.
Context `{Cbor}.

Definition _canonical (data : pyval) : res bytes := cbor_dumps data.

Definition _require_canonical (data : pyval) : res pyval :=
  match data with
  | PBytes b =>
      raise_if bool_decide (b = []) with InvalidIdentityState;
      match cbor_loads b with
      | Err _ => Err InvalidIdentityState
      | Ok decoded =>
          match _canonical decoded with
          | Err _ => Err InvalidIdentityState
          | Ok b' => raise_if negb (bool_decide (b' = b)) with InvalidIdentityState; Ok decoded
          end
      end
  | _ => Err InvalidIdentityState
  end.

Definition _decode_signed_update (signed_update_bytes : pyval) : res signed_update :=
  let* decoded := _require_canonical signed_update_bytes in
  match decoded with
  | PDict d =>
      raise_if negb (all_int_keys d) with InvalidIdentityState;
      raise_if negb (key_set_is d [1; 2; 3] || key_set_is d [1; 2; 3; 4]) with InvalidIdentityState;
      let* v1 := dict_item 1 d in
      let* record := _require_exact_keys v1 [1; 2] in
      let* v2 := dict_item 2 d in
      let* payload := _require_exact_keys v2 [] in
      let* v3 := dict_item 3 d in
      let* sequence := _require_uint v3 in
      let* auth :=
        match dict_get 4 d with
        | Some v4 => let* a := _validate_authorization v4 in Ok (Some a)
        | None => Ok None
        end in
      let* name := dict_item 1 record in
      let* key := dict_item 2 record in
      Ok (SignedUpdate name key payload sequence auth)
  | _ => Err InvalidIdentityState
  end.

Definition build_identity_update (owner_name owner_public_key sequence : pyval)
    (auth_mapping : option pydict) : res bytes :=
  let* owner_name := _validate_owner_name owner_name in
  let* owner_public_key := _require_bytes (Some _KEY_LENGTH) false owner_public_key in
  let* sequence := _require_uint sequence in
  let record := py_dict [(1, PBytes owner_name); (2, PBytes owner_public_key)] in
  match auth_mapping with
  | None => _canonical (py_dict [(1, record); (2, PDict []); (3, PInt sequence)])
  | Some d =>
      let* auth := _validate_authorization (PDict d) in
      _canonical (py_dict [(1, record); (2, PDict []); (3, PInt sequence); (4, auth_to_py auth)])
  end.

Context `{Ed25519}.

Definition _verify_signature (public_key update signature : bytes) : res unit :=
  if ed_verify public_key signature (sha256 update) then Ok tt else Err InvalidIdentityState.

Definition _verify_bundle_signature (public_key update signature : bytes) : res unit :=
  match _verify_signature public_key update signature with
  | Err InvalidIdentityState => Err InvalidIdentityRequest
  | r => r
  end.
End Update.

(** * Well-formed authorizations *)

Record entry_wf (e : pystr * bytes) : Prop := {
  entry_id_nonempty : e.1 <> [];
  entry_id_utf8 : exists b, utf8_encode e.1 = Some b /\ (length b <= 256)%nat;
  entry_key_length : length e.2 = _KEY_LENGTH;
}.

Record signers_wf (l : list (pystr * bytes)) : Prop := {
  signers_entries : Forall entry_wf l;
  signers_ids : NoDup l.*1;
  signers_keys : NoDup l.*2;
  signers_sorted : StronglySorted (key_le (fun e => id_key e.1)) l;
}.

Record auth_wf (a : authorization) : Prop := {
  auth_wf_operation : auth_operation a ∈ _OPERATION_VALUES;
  auth_wf_epoch : 0 <= auth_epoch a;
  auth_wf_threshold : 1 <= auth_threshold a <= Z.of_nat (length (auth_signers a));
  auth_wf_signers : signers_wf (auth_signers a);
  auth_wf_predecessor : length (auth_predecessor a) = _KEY_LENGTH;
}.

Lemma require_uint_ok v z : _require_uint v = Ok z <-> v = PInt z /\ 0 <= z.
Proof.
  destruct v; simpl; try (split; [discriminate|by intros [[=] _]]).
  destruct (Z.ltb_spec z0 0); split; try naive_solver lia.
Qed.

Lemma require_bytes_ok n v b :
  _require_bytes (Some n) false v = Ok b <-> v = PBytes b /\ length b = n.
Proof.
  destruct v as [| | |x| | | | |]; simpl; try (split; [discriminate|by intros [[=] _]]).
  destruct (Nat.eqb_spec (length x) n); simpl; split; naive_solver.
Qed.

Lemma require_exact_keys_ok v ks d :
  _require_exact_keys v ks = Ok d <-> v = PDict d /\ all_int_keys d = true /\ key_set_is d ks = true.
Proof.
  destruct v as [| | | | | | |x|]; simpl; try (split; [discriminate|by intros [[=] _]]).
  destruct (all_int_keys x) eqn:E1, (key_set_is x ks) eqn:E2; simpl; split; intros Hd;
    first [injection Hd as <-; done | discriminate | destruct Hd as ([= <-] & ? & ?); congruence].
Qed.

Lemma validate_owner_name_ok v b :
  _validate_owner_name v = Ok b <-> v = PBytes b /\ b <> [] /\ is_Some (utf8_decode b).
Proof.
  destruct v as [| | |x| | | | |]; simpl; try (split; [discriminate|by intros [[=] _]]).
  case_bool_decide as Hx.
  { split; [done|]. intros ([= ->] & ? & _). done. }
  destruct (utf8_decode x) eqn:E; split.
  - intros [= <-]. split; [done|]. by rewrite E.
  - by intros ([= <-] & _).
  - done.
  - intros ([= <-] & _ & [? HH]). congruence.
Qed.

Lemma validate_signer_entry_ok v e : validate_signer_entry v = Ok e -> entry_wf e.
Proof.
  unfold validate_signer_entry. intros Hv.
  apply res_bind_ok in Hv as (d & _ & Hv). apply res_bind_ok in Hv as (sid & _ & Hv).
  apply res_bind_ok in Hv as (kv & _ & Hv). apply res_bind_ok in Hv as (k & Hk & Hv).
  apply require_bytes_ok in Hk as [_ Hk].
  destruct sid as [| | | |s| | | |]; try discriminate. case_bool_decide as Hs; [done|].
  destruct (utf8_encode s) as [b|] eqn:Eb; [|done].
  destruct (Nat.ltb_spec 256 (length b)); [done|]. injection Hv as <-. constructor; simpl; eauto.
Qed.

Lemma validate_signer_entry_py e : entry_wf e -> validate_signer_entry (signer_entry_to_py e) = Ok e.
Proof.
  destruct e as [s k]. intros [Hs (b & Hb & Hl) Hk]. unfold validate_signer_entry. simpl in *.
  unfold _KEY_LENGTH in Hk. rewrite Hk. simpl. rewrite bool_decide_eq_false_2 by done. rewrite Hb.
  destruct (Nat.ltb_spec 256 (length b)); [lia|done].
Qed.

Lemma validate_signer_set_ok ids keys vs l :
  validate_signer_set ids keys vs = Ok l ->
  Forall entry_wf l /\ NoDup l.*1 /\ NoDup l.*2 /\
  (forall e, e ∈ l -> e.1 ∉ ids /\ e.2 ∉ keys).
Proof.
  revert ids keys l. induction vs as [|v vs IH]; intros ids keys l; simpl.
  - intros [= <-]. repeat split; try constructor; set_solver.
  - intros Hv. apply res_bind_ok in Hv as (e & He & Hv).
    destruct (bool_decide (e.1 ∈ ids) || bool_decide (e.2 ∈ keys)) eqn:Eb; [done|]. bool_hyps.
    apply res_bind_ok in Hv as (r & Hr & Hv). injection Hv as <-.
    apply validate_signer_entry_ok in He. apply IH in Hr as (Hw & Hi & Hk & Hs).
    rewrite !fmap_cons. split; [by constructor|].
    split; [|split].
    + apply NoDup_cons. split; [|done]. intros (x & E & Hx)%list_elem_of_fmap.
      apply Hs in Hx. set_solver.
    + apply NoDup_cons. split; [|done]. intros (x & E & Hx)%list_elem_of_fmap.
      apply Hs in Hx. set_solver.
    + intros x [->|Hx]%elem_of_cons; [done|]. apply Hs in Hx. set_solver.
Qed.

Lemma validate_signer_set_py ids keys l :
  Forall entry_wf l -> NoDup l.*1 -> NoDup l.*2 ->
  (forall e, e ∈ l -> e.1 ∉ ids /\ e.2 ∉ keys) ->
  validate_signer_set ids keys (signer_entry_to_py <$> l) = Ok l.
Proof.
  revert ids keys. induction l as [|e l IH]; intros ids keys Hw Hi Hk Hs; [done|].
  rewrite fmap_cons in *. cbn [validate_signer_set].
  apply Forall_cons in Hw as [He Hw]. apply NoDup_cons in Hi as [Hi1 Hi], Hk as [Hk1 Hk].
  rewrite validate_signer_entry_py by done. cbn [res_bind].
  destruct (Hs e) as [H1 H2]; [set_solver|].
  rewrite !bool_decide_eq_false_2 by done. cbn [orb].
  rewrite IH; [done|done|done|done|].
  intros x Hx. destruct (Hs x) as [? ?]; [set_solver|].
  split; intros [E|?]%elem_of_cons; try done.
  - apply Hi1. rewrite <-E. by apply list_elem_of_fmap_2.
  - apply Hk1. rewrite <-E. by apply list_elem_of_fmap_2.
Qed.

Lemma validate_authorization_wf v a : _validate_authorization v = Ok a -> auth_wf a.
Proof.
  unfold _validate_authorization. intros Hv.
  inv_ok. match goal with H : match ?v6 with _ => _ end = Ok a |- _ => rename v6 into w, H into Hv end.
  destruct w as [| | | | |l| | |]; try discriminate. cbn -[validate_signer_set] in Hv.
  destruct (length l =? 0)%nat; [discriminate|].
  apply res_bind_ok in Hv as (n & Hn & Hv).
  match type of Hv with (if ?c then _ else _) = _ => destruct c eqn:Ec; [discriminate|] end.
  apply res_bind_ok in Hv as (v7 & _ & Hv). apply res_bind_ok in Hv as (p & Hp & Hv).
  injection Hv as <-. bool_hyps. apply validate_signer_set_ok in Hn as (Hw & Hi & Hk & _).
  repeat match goal with H : _require_uint _ = Ok _ |- _ => apply require_uint_ok in H as [_ H] end.
  apply require_bytes_ok in Hp as [_ Hp].
  constructor; simpl; try done.
  constructor; try done. apply sort_by_fixed. done.
Qed.

Lemma signer_entries_plain l :
  Forall entry_wf l -> forallb cbor_plain (signer_entry_to_py <$> l) = true.
Proof.
  induction 1 as [|[s k] l [_ (b & Hb & _) _] _ IH]; [done|].
  rewrite fmap_cons. cbn [forallb]. rewrite IH, andb_true_r. simpl in Hb |- *. by rewrite Hb.
Qed.

Lemma auth_to_py_plain a : auth_wf a -> cbor_plain (auth_to_py a) = true.
Proof.
  intros [_ _ _ [Hw _ _ _] _]. simpl. by rewrite signer_entries_plain.
Qed.

Definition auth_items (a : authorization) : pydict :=
  match auth_to_py a with PDict d => d | _ => [] end.

(** Validation accepts a normalised authorization and returns it unchanged. *)
Lemma validate_authorization_to_py a :
  auth_wf a -> _validate_authorization (auth_to_py a) = Ok a.
Proof.
  destruct a as [op epoch thr signers pred]. intros [Hop Hep Hthr [Hw Hi Hk Hs] Hp].
  cbn [auth_operation auth_epoch auth_threshold auth_signers auth_predecessor] in *.
  assert (forall z, 0 <= z -> _require_uint (PInt z) = Ok z) as Hz
    by (intros; by apply require_uint_ok).
  assert (0 <= op) by (unfold _OPERATION_VALUES in Hop; set_solver by lia).
  unfold _validate_authorization.
  cbn -[bool_decide _OPERATION_VALUES _require_uint _require_bytes validate_signer_set sort_by Z.leb].
  rewrite !Hz by lia.
  cbn -[bool_decide _OPERATION_VALUES _require_bytes validate_signer_set sort_by Z.leb].
  rewrite bool_decide_eq_true_2 by done.
  cbn -[bool_decide _require_bytes validate_signer_set sort_by Z.leb].
  rewrite length_fmap. destruct (Nat.eqb_spec (length signers) 0); [lia|].
  rewrite validate_signer_set_py by (done || set_solver). cbn [res_bind].
  rewrite sort_by_id by done. rewrite bool_decide_eq_true_2 by done.
  destruct (Z.leb_spec 1 thr), (Z.leb_spec thr (Z.of_nat (length signers))); try lia.
  cbn -[_require_bytes]. by rewrite (proj2 (require_bytes_ok _ _ _) (conj eq_refl Hp)).
Qed.

(** * Decoding *)

Section UpdateFacts.
Context `{Cbor}.

Lemma require_canonical_bytes v w : _require_canonical v = Ok w -> exists b, v = PBytes b /\ b <> [].
Proof.
  destruct v as [| | |b| | | | |]; simpl; try discriminate. case_bool_decide; [discriminate|]. eauto.
Qed.

(** What every decoded update satisfies. *)
Record update_wf (su : signed_update) : Prop := {
  update_wf_payload : su_payload su = [];
  update_wf_sequence : 0 <= su_sequence su;
  update_wf_authorization a : su_authorization su = Some a -> auth_wf a;
}.

Lemma key_set_is_nil d : key_set_is d [] = true -> d = [].
Proof. destruct d as [|[k v] d]; [done|]. unfold key_set_is. simpl. done. Qed.

Lemma decode_signed_update_wf v su : _decode_signed_update v = Ok su -> update_wf su.
Proof.
  unfold _decode_signed_update. intros Hv. apply res_bind_ok in Hv as (w & _ & Hv).
  destruct w as [| | | | | | |d|]; try discriminate. cbn -[key_set_is] in Hv.
  case_match; [discriminate|]. case_match; [discriminate|].
  apply res_bind_ok in Hv as (v1 & _ & Hv). apply res_bind_ok in Hv as (r & _ & Hv).
  apply res_bind_ok in Hv as (v2 & _ & Hv). apply res_bind_ok in Hv as (p & Hp & Hv).
  apply res_bind_ok in Hv as (v3 & _ & Hv). apply res_bind_ok in Hv as (s & Hs & Hv).
  apply res_bind_ok in Hv as (oa & Ha & Hv).
  apply res_bind_ok in Hv as (n & _ & Hv). apply res_bind_ok in Hv as (k & _ & Hv).
  injection Hv as <-. apply require_exact_keys_ok in Hp as (_ & _ & Hp%key_set_is_nil).
  apply require_uint_ok in Hs as [_ Hs]. constructor; simpl; [done|done|].
  intros a ->. destruct (dict_get 4 d); [|discriminate].
  apply res_bind_ok in Ha as (a' & Ha & [= ->]). by eapply validate_authorization_wf.
Qed.

Lemma decode_signed_update_bytes v su :
  _decode_signed_update v = Ok su -> exists b, v = PBytes b /\ b <> [].
Proof.
  unfold _decode_signed_update. intros Hv. apply res_bind_ok in Hv as (w & Hw & _).
  by eapply require_canonical_bytes.
Qed.

Context `{!CborLaws}.

Lemma require_canonical_dumps v b :
  cbor_plain v = true -> cbor_dumps v = Ok b -> _require_canonical (PBytes b) = Ok v.
Proof.
  intros Hp Hb. destruct (cbor_roundtrip v Hp) as (b' & Hb' & Hne & Hl).
  rewrite Hb in Hb'. injection Hb' as <-. simpl.
  rewrite bool_decide_eq_false_2 by done. rewrite Hl. unfold _canonical. rewrite Hb.
  by rewrite bool_decide_eq_true_2.
Qed.

(** The update value [build_identity_update] encodes. *)
Definition update_value (n k : bytes) (s : Z) (a : option authorization) : pyval :=
  py_dict ([(1, py_dict [(1, PBytes n); (2, PBytes k)]); (2, PDict []); (3, PInt s)] ++
           match a with Some a => [(4, auth_to_py a)] | None => [] end).

Lemma update_value_plain n k s a :
  (forall a', a = Some a' -> auth_wf a') -> cbor_plain (update_value n k s a) = true.
Proof.
  destruct a as [a|]; [|done]. intros Ha. unfold update_value. cbn -[auth_to_py].
  by rewrite (auth_to_py_plain a) by auto.
Qed.

Lemma decode_update_value n k s a b :
  0 <= s -> (forall a', a = Some a' -> auth_wf a') ->
  cbor_dumps (update_value n k s a) = Ok b ->
  _decode_signed_update (PBytes b) = Ok (SignedUpdate (PBytes n) (PBytes k) [] s a).
Proof.
  intros Hs Ha Hb. unfold _decode_signed_update.
  rewrite (require_canonical_dumps _ _ (update_value_plain n k s a Ha) Hb). cbn [res_bind].
  destruct a as [a|]; cbn -[_validate_authorization auth_to_py Z.ltb].
  - rewrite (validate_authorization_to_py a) by auto. destruct (Z.ltb_spec s 0); [lia|done].
  - destruct (Z.ltb_spec s 0); [lia|done].
Qed.

Lemma build_identity_update_value n k s am b :
  build_identity_update n k s am = Ok b ->
  exists n' k' s' a, n = PBytes n' /\ k = PBytes k' /\ s = PInt s' /\ 0 <= s' /\
    length k' = _KEY_LENGTH /\ n' <> [] /\ is_Some (utf8_decode n') /\
    match am with
    | None => a = None
    | Some d => exists a', _validate_authorization (PDict d) = Ok a' /\ a = Some a'
    end /\
    cbor_dumps (update_value n' k' s' a) = Ok b.
Proof.
  unfold build_identity_update. intros Hb.
  apply res_bind_ok in Hb as (n' & Hn & Hb). apply res_bind_ok in Hb as (k' & Hk & Hb).
  apply res_bind_ok in Hb as (s' & Hs & Hb).
  apply validate_owner_name_ok in Hn as (-> & Hn & Hu). apply require_bytes_ok in Hk as (-> & Hk).
  apply require_uint_ok in Hs as (-> & Hs).
  destruct am as [d|].
  - apply res_bind_ok in Hb as (a & Ha & Hb). exists n', k', s', (Some a). eauto 12.
  - exists n', k', s', None. eauto 12.
Qed.

(** C1. Encode/decode round trip of the Identity SignedUpdate: whatever bytes
    [build_identity_update] returns, [_decode_signed_update] accepts them and
    returns exactly the owner name, owner key, sequence and (validated)
    authorization they were built from, with an empty payload. *)
Theorem build_decode_roundtrip n k s am b :
  build_identity_update n k s am = Ok b ->
  exists s' a,
    s = PInt s' /\
    _decode_signed_update (PBytes b) = Ok (SignedUpdate n k [] s' a) /\
    match am with
    | None => a = None
    | Some d => exists a', _validate_authorization (PDict d) = Ok a' /\ a = Some a'
    end.
Proof.
  intros (n' & k' & s' & a & -> & -> & -> & Hs & _ & _ & _ & Ha & Hb)%build_identity_update_value.
  exists s', a. split; [done|]. split; [|done].
  apply decode_update_value; [done| |done].
  intros a' ->. destruct am; [|done]. destruct Ha as (? & Ha & [= ->]).
  by eapply validate_authorization_wf.
Qed.
End UpdateFacts.
