(* ===== verification/Envelope.v ===== *)
(** Finalized Identity envelopes: the parser that verifies one transition
    against its predecessor, chains of predecessors, and the transition rules
    applied to drafts and to submissions
    (identity.py, [IdentityState], [_parse_identity_envelope] to
    [_validate_transition]). *)

From S2P Require Import Prelude PyVal Sha256 Interfaces SignedUpdate.

Open Scope Z_scope.

(** Verified public state read from a finalized envelope. *)
Record identity_state := IdentityState {
  st_owner_name : bytes;
  st_owner_public_key : bytes;
  st_sequence : Z;
  st_signed_update_bytes : bytes;
  st_envelope_bytes : bytes;
  st_state_hash : bytes;
  st_generation : option Z;
  st_threshold : option Z;
  st_signer_set : list (pystr * bytes);
  st_predecessor_envelopes : list bytes;
}.

#[global] Instance identity_state_eq_decision : EqDecision identity_state.
Proof. solve_decision. Defined.

(** [not state.signer_set] *)
Definition is_legacy (st : identity_state) : bool := (length (st_signer_set st) =? 0)%nat.

Definition zero_hash : bytes := replicate _KEY_LENGTH Byte.x00.

(** [dict(signers).get(signer_id)]; the identifiers of a signer set are distinct. *)
Fixpoint signer_key (signers : list (pystr * bytes)) (signer_id : pystr) : option bytes :=
  match signers with
  | [] => None
  | (i, k) :: rest => if bool_decide (i = signer_id) then Some k else signer_key rest signer_id
  end.

Definition signer_key_opt (signers : list (pystr * bytes)) (signer_id : option pystr) : option bytes :=
  match signer_id with Some s => signer_key signers s | None => None end.

(** Sort key of a proof: [b""] for the anonymous signer. *)
Definition proof_key (signer_id : option pystr) : list Z :=
  match signer_id with Some s => id_key s | None => [] end.

(** One turn of the loop of [_validate_proof_list], before the duplicate test. *)
Definition validate_proof_entry (v : pyval) : res (option pystr * bytes) :=
  let* d := _require_exact_keys v [1; 2] in
  let* id_value := dict_item 1 d in
  let* signer_id :=
    match id_value with
    | PNone => Ok None
    | PStr s => raise_if bool_decide (s = []) with InvalidIdentityState; Ok (Some s)
    | _ => Err InvalidIdentityState
    end in
  let* sig_value := dict_item 2 d in
  let* signature := _require_bytes (Some _SIGNATURE_LENGTH) false sig_value in
  match signer_id with
  | Some s => match utf8_encode s with Some _ => Ok (signer_id, signature) | None => Err InvalidIdentityState end
  | None => Ok (signer_id, signature)
  end.

Fixpoint validate_proof_entries (seen : list (option pystr)) (proofs : list pyval)
    : res (list (option pystr * bytes)) :=
  match proofs with
  | [] => Ok []
  | p :: rest =>
      let* e := validate_proof_entry p in
      raise_if bool_decide (e.1 ∈ seen) with InvalidIdentityState;
      let* normalized := validate_proof_entries (e.1 :: seen) rest in
      Ok (e :: normalized)
  end.

Definition _validate_proof_list (proofs : pyval) : res (list (option pystr * bytes)) :=
  match proofs with
  | PList l =>
      let* normalized := validate_proof_entries [] l in
      raise_if negb (bool_decide (normalized = sort_by (fun p => proof_key p.1) normalized))
        with InvalidIdentityState;
      Ok normalized
  | _ => Err InvalidIdentityState
  end.

(** [value in {keys...}]: hashing the value first. *)
Definition in_key_set (value : pyval) (keys : list bytes) : res bool :=
  raise_if negb (hashable value) with TypeError;
  Ok (existsb (fun k => py_eq value (PBytes k)) keys).

(** The per-operation checks of [_parse_identity_envelope] (its [if operation
    == 1: ... elif ...] cascade). *)
Definition check_operation (owner_name : bytes) (record_key : pyval) (sequence : Z)
    (a : authorization) (previous_state : option identity_state) : res unit :=
  let operation := auth_operation a in
  let entries := auth_signers a in
  let two_of_three := (auth_threshold a =? 2) && (length entries =? 3)%nat in
  if operation =? 1 then
    raise_if bool_decide (is_Some previous_state) || negb (sequence =? 1) || negb (auth_epoch a =? 1) ||
             negb (bool_decide (auth_predecessor a = zero_hash)) with InvalidIdentityState;
    raise_if negb two_of_three with InvalidIdentityState;
    Ok tt
  else if operation =? 4 then
    raise_if negb (auth_epoch a =? 1) || negb two_of_three with InvalidIdentityState;
    Ok tt
  else if operation =? 2 then
    match previous_state with
    | None => Err InvalidIdentityState
    | Some p =>
        raise_if is_legacy p || negb (bool_decide (st_owner_name p = owner_name)) ||
                 negb (py_eq record_key (PBytes (st_owner_public_key p))) ||
                 negb (bool_decide (st_state_hash p = auth_predecessor a)) ||
                 negb (sequence =? st_sequence p + 1) ||
                 negb (bool_decide (Some (auth_epoch a) = st_generation p)) ||
                 negb (bool_decide (Some (auth_threshold a) = st_threshold p)) ||
                 negb (bool_decide (entries = st_signer_set p)) with InvalidIdentityState;
        Ok tt
    end
  else if operation =? 3 then
    raise_if negb two_of_three with InvalidIdentityState;
    match previous_state with
    | None => Err InvalidIdentityState
    | Some p =>
        raise_if is_legacy p || negb (bool_decide (st_owner_name p = owner_name)) ||
                 negb (py_eq record_key (PBytes (st_owner_public_key p))) ||
                 negb (bool_decide (st_state_hash p = auth_predecessor a)) ||
                 negb (sequence =? st_sequence p + 1) ||
                 (auth_epoch a <=? default 0 (st_generation p)) ||
                 bool_decide (entries = st_signer_set p) with InvalidIdentityState;
        Ok tt
    end
  else if operation =? 5 then
    match previous_state with
    | None => Err InvalidIdentityState
    | Some p =>
        raise_if negb (bool_decide (st_owner_name p = owner_name)) ||
                 py_eq record_key (PBytes (st_owner_public_key p)) ||
                 negb (bool_decide (st_state_hash p = auth_predecessor a)) ||
                 negb (sequence =? st_sequence p + 1) with InvalidIdentityState;
        if negb (is_legacy p) then
          raise_if negb (bool_decide (Some (auth_epoch a) = st_generation p)) ||
                   negb (bool_decide (Some (auth_threshold a) = st_threshold p)) ||
                   negb (bool_decide (entries = st_signer_set p)) with InvalidIdentityState;
          Ok tt
        else
          raise_if negb (auth_epoch a =? 1) || negb two_of_three with InvalidIdentityState;
          let* member := in_key_set record_key (entries.*2) in
          raise_if negb member with InvalidIdentityState;
          Ok tt
    end
  else Err InvalidIdentityState.

(** The additional conditions on an upgrade (operation 4), which need the proofs. *)
Definition check_upgrade (record_key : pyval) (sequence : Z) (a : authorization)
    (previous_state : option identity_state) (proof_list : list (option pystr * bytes)) : res unit :=
  match proof_list, previous_state with
  | [(signer_id, _)], Some p =>
      raise_if negb (py_eq (py_opt PBytes (signer_key_opt (auth_signers a) signer_id)) record_key) ||
               negb (is_legacy p) ||
               negb (py_eq record_key (PBytes (st_owner_public_key p))) ||
               negb (bool_decide (st_state_hash p = auth_predecessor a)) ||
               negb (sequence =? st_sequence p + 1) with InvalidIdentityState;
      Ok tt
  | _, _ => Err InvalidIdentityState
  end.

Section Envelope.
Context `{Cbor} `{Ed25519}.

(** The loop that verifies identified proofs and collects [valid_signers]. *)
Fixpoint verify_proofs (keys : list (pystr * bytes)) (update : bytes)
    (valid_signers : gset pystr) (proof_list : list (option pystr * bytes)) : res (gset pystr) :=
  match proof_list with
  | [] => Ok valid_signers
  | (None, _) :: _ => Err InvalidIdentityState
  | (Some signer_id, signature) :: rest =>
      match signer_key keys signer_id with
      | None => Err InvalidIdentityState
      | Some public_key =>
          let* _ := _verify_signature public_key update signature in
          verify_proofs keys update ({[signer_id]} ∪ valid_signers) rest
      end
  end.

(** From the proof list to the threshold decision. *)
Definition check_proofs (record_key : pyval) (sequence : Z) (update : bytes) (a : authorization)
    (previous_state : option identity_state) (proof_list : list (option pystr * bytes)) : res unit :=
  let operation := auth_operation a in
  let* _ := if operation =? 4 then check_upgrade record_key sequence a previous_state proof_list else Ok tt in
  let rotation_from_legacy :=
    (operation =? 5) && match previous_state with Some p => is_legacy p | None => false end in
  match rotation_from_legacy, previous_state with
  | true, Some p =>
      match proof_list with
      | [(None, signature)] => _verify_signature (st_owner_public_key p) update signature
      | _ => Err InvalidIdentityState
      end
  | _, _ =>
      let previous_keys := match previous_state with Some p => st_signer_set p | None => [] end in
      let verification_keys :=
        if (operation =? 2) || (operation =? 3) || (operation =? 5) then previous_keys else auth_signers a in
      let* valid_signers := verify_proofs verification_keys update ∅ proof_list in
      if operation =? 4 then
        raise_if negb (size valid_signers =? 1)%nat with InvalidIdentityState; Ok tt
      else
        raise_if Z.of_nat (size valid_signers) <? auth_threshold a with InvalidIdentityState; Ok tt
  end.

(** The two-field branch: [set(outer) == {1, 2}]. *)
Definition parse_legacy_envelope (owner_name envelope : bytes) (outer : pydict) : res identity_state :=
  let* v1 := dict_item 1 outer in
  let* update_bytes := _require_bytes None false v1 in
  let* v2 := dict_item 2 outer in
  let* signature := _require_bytes (Some _SIGNATURE_LENGTH) false v2 in
  let* su := _decode_signed_update (PBytes update_bytes) in
  raise_if bool_decide (is_Some (su_authorization su)) || negb (length (su_payload su) =? 0)%nat ||
           negb (py_eq (su_record_name su) (PBytes owner_name)) with InvalidIdentityState;
  let* public_key := _require_bytes (Some _KEY_LENGTH) false (su_record_key su) in
  let* _ := _verify_signature public_key update_bytes signature in
  Ok (IdentityState owner_name public_key (su_sequence su) update_bytes envelope (sha256 update_bytes)
        None None [] []).

(** The version-1 branch. *)
Definition parse_versioned_envelope (owner_name envelope : bytes) (outer : pydict)
    (previous_state : option identity_state) : res identity_state :=
  let* v2 := dict_item 2 outer in
  let* update_bytes := _require_bytes None false v2 in
  let* proofs := dict_item 3 outer in
  let* su := _decode_signed_update (PBytes update_bytes) in
  match su_authorization su with
  | None => Err InvalidIdentityState
  | Some a =>
      raise_if negb (length (su_payload su) =? 0)%nat ||
               negb (py_eq (su_record_name su) (PBytes owner_name)) with InvalidIdentityState;
      let record_key := su_record_key su in
      let sequence := su_sequence su in
      let* _ := check_operation owner_name record_key sequence a previous_state in
      let* proof_list := _validate_proof_list proofs in
      let* _ := check_proofs record_key sequence update_bytes a previous_state proof_list in
      let* public_key := _require_bytes (Some _KEY_LENGTH) false record_key in
      Ok (IdentityState owner_name public_key sequence update_bytes envelope (sha256 update_bytes)
            (Some (auth_epoch a)) (Some (auth_threshold a)) (auth_signers a)
            (match previous_state with
             | Some p => if bool_decide (auth_operation a ∈ [2; 3; 4; 5])
                         then st_envelope_bytes p :: st_predecessor_envelopes p else []
             | None => []
             end))
  end.

Definition _parse_identity_envelope (owner_name : bytes) (envelope_bytes : pyval)
    (previous_state : option identity_state) : res identity_state :=
  let* decoded := _require_canonical envelope_bytes in
  match envelope_bytes, decoded with
  | PBytes envelope, PDict outer =>
      raise_if negb (all_int_keys outer) with InvalidIdentityState;
      if key_set_is outer [1; 2] then parse_legacy_envelope owner_name envelope outer
      else
        raise_if negb (key_set_is outer [1; 2; 3]) with InvalidIdentityState;
        let* v1 := dict_item 1 outer in
        match v1 with
        | PInt 1 => parse_versioned_envelope owner_name envelope outer previous_state
        | _ => Err InvalidIdentityState
        end
  | _, _ => Err InvalidIdentityState
  end.

(** Parse a list of envelopes, oldest first, each against the state before it. *)
Fixpoint parse_chain (owner_name : bytes) (previous : option identity_state) (chain : list bytes)
    : res (option identity_state) :=
  match chain with
  | [] => Ok previous
  | e :: rest =>
      let* st := _parse_identity_envelope owner_name (PBytes e) previous in
      parse_chain owner_name (Some st) rest
  end.

Definition _parse_previous_state_chain (owner_name : bytes) (envelope : pyval) (history : list bytes)
    : res (option identity_state) :=
  match envelope with
  | PNone => raise_if negb (length history =? 0)%nat with InvalidIdentityRequest; Ok None
  | _ =>
      let* previous := parse_chain owner_name None (rev history) in
      let* st := _parse_identity_envelope owner_name envelope previous in
      Ok (Some st)
  end.

Definition _legacy_envelope (update signature : bytes) : res bytes :=
  _canonical (py_dict [(1, PBytes update); (2, PBytes signature)]).

Definition _versioned_envelope (update : bytes) (signer_id : pystr) (signature : bytes) : res bytes :=
  _canonical (py_dict [(1, PInt 1); (2, PBytes update);
                       (3, PList [py_dict [(1, PStr signer_id); (2, PBytes signature)]])]).
End Envelope.

(** * Transition rules for drafts and submissions *)

Definition _require_complete_2_of_3 (a : authorization) : res unit :=
  raise_if negb (auth_threshold a =? 2) || negb (length (auth_signers a) =? 3)%nat
    with InvalidIdentityRequest;
  Ok tt.

Definition _validate_draft_transition (owner_name owner_public_key : bytes) (sequence : Z)
    (auth : option authorization) (previous_state : option identity_state) : res unit :=
  match previous_state with
  | None =>
      raise_if negb (sequence =? 1) with InvalidIdentityRequest;
      match auth with
      | None => Ok tt
      | Some a =>
          raise_if negb (auth_operation a =? 1) || negb (auth_epoch a =? 1) ||
                   negb (bool_decide (auth_predecessor a = zero_hash)) with InvalidIdentityRequest;
          _require_complete_2_of_3 a
      end
  | Some p =>
      raise_if negb (bool_decide (owner_name = st_owner_name p)) || negb (sequence =? st_sequence p + 1)
        with InvalidIdentityRequest;
      match auth with
      | None =>
          raise_if negb (is_legacy p) || negb (bool_decide (owner_public_key = st_owner_public_key p))
            with InvalidIdentityRequest;
          Ok tt
      | Some a =>
          let candidate := auth_signers a in
          let same_governance :=
            bool_decide (Some (auth_epoch a) = st_generation p) &&
            bool_decide (Some (auth_threshold a) = st_threshold p) &&
            bool_decide (candidate = st_signer_set p) in
          raise_if negb (bool_decide (auth_predecessor a = st_state_hash p)) with InvalidIdentityRequest;
          if auth_operation a =? 5 then
            raise_if bool_decide (owner_public_key = st_owner_public_key p) with InvalidIdentityRequest;
            if is_legacy p then
              raise_if negb (auth_epoch a =? 1) || negb (auth_threshold a =? 2) ||
                       negb (length candidate =? 3)%nat ||
                       negb (bool_decide (owner_public_key ∈ candidate.*2)) with InvalidIdentityRequest;
              Ok tt
            else raise_if negb same_governance with InvalidIdentityRequest; Ok tt
          else
            raise_if negb (bool_decide (owner_public_key = st_owner_public_key p)) with InvalidIdentityRequest;
            if is_legacy p then
              raise_if negb (auth_operation a =? 4) || negb (auth_epoch a =? 1) with InvalidIdentityRequest;
              let* _ := _require_complete_2_of_3 a in
              raise_if negb (bool_decide (st_owner_public_key p ∈ candidate.*2)) with InvalidIdentityRequest;
              Ok tt
            else if auth_operation a =? 2 then
              raise_if negb same_governance with InvalidIdentityRequest; Ok tt
            else if auth_operation a =? 3 then
              raise_if auth_epoch a <=? default 0 (st_generation p) with InvalidIdentityRequest;
              let* _ := _require_complete_2_of_3 a in
              raise_if bool_decide (candidate = st_signer_set p) with InvalidIdentityRequest;
              Ok tt
            else Err InvalidIdentityRequest
      end
  end.

Definition _validate_transition (current : option identity_state) (a : authorization)
    (signer_id : option pystr) (signer_public_key : bytes) : res unit :=
  let operation := auth_operation a in
  let entries := auth_signers a in
  let authorized (signers : list (pystr * bytes)) :=
    bool_decide (signer_key_opt signers signer_id = Some signer_public_key) in
  match current with
  | None =>
      raise_if negb (operation =? 1) || negb (auth_epoch a =? 1) ||
               negb (bool_decide (auth_predecessor a = zero_hash)) with InvalidIdentityRequest;
      let* _ := _require_complete_2_of_3 a in
      raise_if negb (authorized entries) with InvalidIdentityRequest;
      Ok tt
  | Some c =>
      let same_governance :=
        bool_decide (Some (auth_epoch a) = st_generation c) &&
        bool_decide (Some (auth_threshold a) = st_threshold c) &&
        bool_decide (entries = st_signer_set c) in
      if operation =? 5 then
        if is_legacy c then
          raise_if negb (auth_epoch a =? 1) || negb (auth_threshold a =? 2) ||
                   negb (length entries =? 3)%nat || bool_decide (is_Some signer_id) ||
                   negb (bool_decide (signer_public_key = st_owner_public_key c))
            with InvalidIdentityRequest;
          Ok tt
        else
          raise_if negb same_governance || negb (authorized (st_signer_set c))
            with InvalidIdentityRequest;
          Ok tt
      else if is_legacy c then
        raise_if negb (operation =? 4) || negb (auth_epoch a =? 1) ||
                 negb (bool_decide (auth_predecessor a = st_state_hash c)) with InvalidIdentityRequest;
        let* _ := _require_complete_2_of_3 a in
        raise_if negb (bool_decide (signer_public_key = st_owner_public_key c))
          with InvalidIdentityRequest;
        raise_if negb (authorized entries) with InvalidIdentityRequest;
        Ok tt
      else
        raise_if bool_decide (signer_id = None) with InvalidIdentityRequest;
        if operation =? 2 then
          raise_if negb same_governance with InvalidIdentityRequest;
          raise_if negb (authorized (st_signer_set c)) with InvalidIdentityRequest;
          Ok tt
        else if operation =? 3 then
          raise_if auth_epoch a <=? default 0 (st_generation c) with InvalidIdentityRequest;
          let* _ := _require_complete_2_of_3 a in
          raise_if bool_decide (entries = st_signer_set c) with InvalidIdentityRequest;
          raise_if negb (authorized (st_signer_set c)) with InvalidIdentityRequest;
          Ok tt
        else Err InvalidIdentityRequest
  end.
