(* ===== verification/EnvelopeFacts.v ===== *)
(** Abstract specification of Identity transitions and the proof that the
    envelope parser implements it. *)

From S2P Require Import Prelude PyVal Sha256 Interfaces SignedUpdate Envelope.

Open Scope Z_scope.

(** * Proof lists *)

Lemma signer_key_elem l s k : signer_key l s = Some k -> (s, k) ∈ l.
Proof.
  induction l as [|[i x] l IH]; simpl; [done|]. case_bool_decide as E.
  - intros [= ->]. subst. set_solver.
  - intros ?. set_solver.
Qed.

Lemma signer_key_unique l s k : NoDup l.*1 -> (s, k) ∈ l -> signer_key l s = Some k.
Proof.
  induction l as [|[i x] l IH]; [set_solver|].
  rewrite fmap_cons, NoDup_cons. intros [Hi Hnd] [E|Hin]%elem_of_cons; simpl.
  - injection E as -> ->. by rewrite bool_decide_eq_true_2.
  - rewrite bool_decide_eq_false_2; [auto|]. intros ->. apply Hi.
    apply list_elem_of_fmap. by exists (s, k).
Qed.

Record proof_wf (p : option pystr * bytes) : Prop := {
  proof_id_nonempty : p.1 <> Some [];
  proof_id_utf8 s : p.1 = Some s -> is_Some (utf8_encode s);
  proof_sig_length : length p.2 = _SIGNATURE_LENGTH;
}.

Definition proof_to_py (p : option pystr * bytes) : pyval :=
  py_dict [(1, py_opt PStr p.1); (2, PBytes p.2)].

Lemma validate_proof_entry_ok v p : validate_proof_entry v = Ok p -> proof_wf p.
Proof.
  unfold validate_proof_entry. intros Hv.
  apply res_bind_ok in Hv as (d & _ & Hv). apply res_bind_ok in Hv as (iv & _ & Hv).
  apply res_bind_ok in Hv as (sid & Hid & Hv). apply res_bind_ok in Hv as (sv & _ & Hv).
  apply res_bind_ok in Hv as (sig & [_ Hsig]%require_bytes_ok & Hv).
  destruct sid as [s|].
  - destruct (utf8_encode s) eqn:Es; [|done]. injection Hv as <-.
    constructor; simpl; [|by intros ? [= ->]; rewrite Es|done].
    destruct iv; try done. case_bool_decide; [done|]. congruence.
  - injection Hv as <-. by constructor.
Qed.

Lemma validate_proof_entry_py p : proof_wf p -> validate_proof_entry (proof_to_py p) = Ok p.
Proof.
  destruct p as [[s|] sig]; intros [Hne Hu Hl]; unfold validate_proof_entry;
    cbn -[_require_bytes bool_decide] in *.
  - rewrite bool_decide_eq_false_2 by congruence. cbn -[_require_bytes].
    rewrite (proj2 (require_bytes_ok _ _ _) (conj eq_refl Hl)). simpl.
    destruct (Hu s eq_refl) as [b ->]. done.
  - rewrite (proj2 (require_bytes_ok _ _ _) (conj eq_refl Hl)). done.
Qed.

Lemma validate_proof_entries_ok seen vs ps :
  validate_proof_entries seen vs = Ok ps ->
  Forall proof_wf ps /\ NoDup ps.*1 /\ (forall p, p ∈ ps -> p.1 ∉ seen).
Proof.
  revert seen ps. induction vs as [|v vs IH]; intros seen ps; simpl.
  - intros [= <-]. repeat split; try constructor; set_solver.
  - intros Hv. apply res_bind_ok in Hv as (p & Hp%validate_proof_entry_ok & Hv).
    case_bool_decide as Hs; [done|].
    apply res_bind_ok in Hv as (r & (Hw & Hn & Hr)%IH & Hv). injection Hv as <-.
    rewrite fmap_cons. repeat split.
    + by constructor.
    + apply NoDup_cons. split; [|done]. intros (x & E & Hx)%list_elem_of_fmap.
      apply Hr in Hx. set_solver.
    + intros x [->|Hx]%elem_of_cons; [done|]. apply Hr in Hx. set_solver.
Qed.

Lemma validate_proof_entries_py seen ps :
  Forall proof_wf ps -> NoDup ps.*1 -> (forall p, p ∈ ps -> p.1 ∉ seen) ->
  validate_proof_entries seen (proof_to_py <$> ps) = Ok ps.
Proof.
  revert seen. induction ps as [|p ps IH]; intros seen Hw Hn Hs; [done|].
  rewrite fmap_cons in *. apply Forall_cons in Hw as [Hp Hw]. apply NoDup_cons in Hn as [Hn1 Hn].
  cbn [validate_proof_entries]. rewrite validate_proof_entry_py by done. cbn [res_bind].
  rewrite bool_decide_eq_false_2 by set_solver. rewrite IH; [done|done|done|].
  intros x Hx [E|?]%elem_of_cons; [|set_solver]. apply Hn1. rewrite <-E.
  by apply list_elem_of_fmap_2.
Qed.

(** Proof lists as the parser accepts them. *)
Record proofs_wf (ps : list (option pystr * bytes)) : Prop := {
  proofs_wf_entries : Forall proof_wf ps;
  proofs_wf_ids : NoDup ps.*1;
  proofs_wf_sorted : StronglySorted (key_le (fun p => proof_key p.1)) ps;
}.

Lemma validate_proof_list_ok v ps : _validate_proof_list v = Ok ps -> proofs_wf ps.
Proof.
  unfold _validate_proof_list. destruct v as [| | | | |l| | |]; try done. intros Hv.
  apply res_bind_ok in Hv as (n & (Hw & Hn & _)%validate_proof_entries_ok & Hv).
  case_bool_decide as Hs; [|done]. injection Hv as <-. constructor; try done.
  by apply sort_by_fixed.
Qed.

Lemma validate_proof_list_py ps :
  proofs_wf ps -> _validate_proof_list (PList (proof_to_py <$> ps)) = Ok ps.
Proof.
  intros [Hw Hn Hs]. cbn [_validate_proof_list].
  rewrite validate_proof_entries_py by (done || set_solver). cbn [res_bind].
  rewrite sort_by_id by done. by rewrite bool_decide_eq_true_2.
Qed.

Section Spec.
Context `{Ed25519}.

(** [signed key update signature]: the signature verifies over the update's digest. *)
Definition signed (key update signature : bytes) : Prop :=
  ed_verify key signature (sha256 update) = true.

Lemma verify_signature_ok key update signature u :
  _verify_signature key update signature = Ok u <-> signed key update signature.
Proof. unfold _verify_signature, signed. destruct u, (ed_verify _ _ _); split; done. Qed.

(** At least [n] distinct members of a signer set signed the update. *)
Definition quorum (signers : list (pystr * bytes)) (n : Z) (update : bytes) : Prop :=
  exists ps : list (pystr * bytes),
    NoDup ps.*1 /\ n <= Z.of_nat (length ps) /\
    Forall (fun p => exists key, (p.1, key) ∈ signers /\ signed key update p.2) ps.

Definition named (p : pystr * bytes) : option pystr * bytes := (Some p.1, p.2).

Lemma verify_proofs_ok keys update acc ps vs :
  verify_proofs keys update acc ps = Ok vs ->
  exists l, ps = named <$> l /\ vs = list_to_set l.*1 ∪ acc /\
    Forall (fun p => exists key, signer_key keys p.1 = Some key /\ signed key update p.2) l.
Proof.
  revert acc. induction ps as [|[[s|] sig] ps IH]; intros acc; simpl.
  - intros [= <-]. exists []. split; [done|]. split; [set_solver|constructor].
  - destruct (signer_key keys s) as [k|] eqn:Ek; [|done].
    intros Hv. apply res_bind_ok in Hv as (u & Hu%verify_signature_ok & Hv).
    apply IH in Hv as (l & -> & -> & Hl). exists ((s, sig) :: l).
    split; [done|]. split; [set_solver|]. constructor; [eauto|done].
  - done.
Qed.

Lemma verify_proofs_named keys update acc l :
  Forall (fun p => exists key, signer_key keys p.1 = Some key /\ signed key update p.2) l ->
  verify_proofs keys update acc (named <$> l) = Ok (list_to_set l.*1 ∪ acc).
Proof.
  intros Hl. revert acc. induction Hl as [|[s sig] l (k & Hk & Hs) _ IH]; intros acc.
  - simpl. f_equal. set_solver.
  - rewrite fmap_cons. cbn [named fst snd verify_proofs]. simpl in Hk, Hs. rewrite Hk.
    rewrite (proj2 (verify_signature_ok k update sig tt) Hs). cbn [res_bind].
    rewrite IH. f_equal. rewrite fmap_cons. set_solver.
Qed.

Lemma named_nodup (l : list (pystr * bytes)) : NoDup (named <$> l).*1 -> NoDup l.*1.
Proof.
  intros Hn. rewrite <-list_fmap_compose in Hn. apply (NoDup_fmap_1 Some).
  by rewrite <-list_fmap_compose.
Qed.

Lemma named_size (l : list (pystr * bytes)) : NoDup l.*1 -> size (list_to_set l.*1 ∪ ∅ : gset pystr) = length l.
Proof.
  intros Hn. rewrite union_empty_r_L, size_list_to_set by done. by rewrite length_fmap.
Qed.

(** The verified proofs of a duplicate-free list make a quorum of its length. *)
Lemma verify_proofs_quorum keys update ps vs :
  proofs_wf ps -> verify_proofs keys update ∅ ps = Ok vs ->
  quorum keys (Z.of_nat (size vs)) update.
Proof.
  intros [_ Hn _] (l & -> & -> & Hl)%verify_proofs_ok. apply named_nodup in Hn.
  exists l. split; [done|]. split; [by rewrite named_size|].
  eapply Forall_impl; [exact Hl|]. intros p (k & Hk & Hs). exists k.
  split; [by apply signer_key_elem|done].
Qed.

Lemma quorum_mono signers n m update : m <= n -> quorum signers n update -> quorum signers m update.
Proof. intros Hm (ps & Hn & Hl & Hs). exists ps. split; [done|]. split; [lia|done]. Qed.
End Spec.

(** * Operation rules *)

Definition two_of_three (a : authorization) : Prop :=
  auth_threshold a = 2 /\ length (auth_signers a) = 3%nat.

(** The authorization keeps the predecessor's epoch, threshold and signer set. *)
Definition keeps_governance (p : identity_state) (a : authorization) : Prop :=
  st_generation p = Some (auth_epoch a) /\ st_threshold p = Some (auth_threshold a) /\
  st_signer_set p = auth_signers a.

(** The update is the next one of [p] for the same owner name. *)
Definition succeeds (p : identity_state) (owner_name : bytes) (sequence : Z) (a : authorization) : Prop :=
  st_owner_name p = owner_name /\ st_state_hash p = auth_predecessor a /\ sequence = st_sequence p + 1.

(** What each operation requires of an update before its proofs are looked at. *)
Inductive operation_rule (owner_name : bytes) (key : pyval) (sequence : Z) (a : authorization)
    : option identity_state -> Prop :=
  | rule_genesis :
      auth_operation a = 1 -> sequence = 1 -> auth_epoch a = 1 -> auth_predecessor a = zero_hash ->
      two_of_three a -> operation_rule owner_name key sequence a None
  | rule_upgrade prev :
      auth_operation a = 4 -> auth_epoch a = 1 -> two_of_three a ->
      operation_rule owner_name key sequence a prev
  | rule_update p :
      auth_operation a = 2 -> is_legacy p = false -> succeeds p owner_name sequence a ->
      key = PBytes (st_owner_public_key p) -> keeps_governance p a ->
      operation_rule owner_name key sequence a (Some p)
  | rule_replace p :
      auth_operation a = 3 -> is_legacy p = false -> succeeds p owner_name sequence a ->
      key = PBytes (st_owner_public_key p) -> default 0 (st_generation p) < auth_epoch a ->
      auth_signers a <> st_signer_set p -> two_of_three a ->
      operation_rule owner_name key sequence a (Some p)
  | rule_rotate p :
      auth_operation a = 5 -> is_legacy p = false -> succeeds p owner_name sequence a ->
      key <> PBytes (st_owner_public_key p) -> keeps_governance p a ->
      operation_rule owner_name key sequence a (Some p)
  | rule_rotate_legacy p k :
      auth_operation a = 5 -> is_legacy p = true -> succeeds p owner_name sequence a ->
      key = PBytes k -> k <> st_owner_public_key p -> auth_epoch a = 1 -> two_of_three a ->
      k ∈ (auth_signers a).*2 ->
      operation_rule owner_name key sequence a (Some p).

Lemma py_eq_bytes_false v b : py_eq v (PBytes b) = false <-> v <> PBytes b.
Proof. rewrite <-py_eq_bytes. by destruct (py_eq v (PBytes b)). Qed.

Lemma in_key_set_true v keys :
  in_key_set v keys = Ok true <-> exists k, v = PBytes k /\ k ∈ keys.
Proof.
  unfold in_key_set. split.
  - destruct (hashable v); simpl; [|done]. intros [= (k & Hk & E%py_eq_bytes)%existsb_exists].
    exists k. split; [done|]. by apply list_elem_of_In.
  - intros (k & -> & Hk). simpl. f_equal. apply existsb_exists. exists k.
    split; [by apply list_elem_of_In|]. by rewrite bool_decide_eq_true_2.
Qed.

Lemma rule_operation owner key seq a p :
  operation_rule owner key seq a (Some p) -> auth_operation a ∈ [2; 3; 4; 5].
Proof. inversion 1; match goal with E : auth_operation _ = _ |- _ => rewrite E end; set_solver. Qed.

Ltac solve_guards :=
  repeat match goal with
  | |- context [bool_decide ?P] =>
      first [rewrite (bool_decide_eq_true_2 P) by (done || congruence)
            | rewrite (bool_decide_eq_false_2 P) by (done || congruence)]
  | |- context [?x =? ?y] =>
      first [rewrite (proj2 (Z.eqb_eq x y)) by lia | rewrite (proj2 (Z.eqb_neq x y)) by lia]
  | |- context [?x <=? ?y] => rewrite (proj2 (Z.leb_gt x y)) by lia
  | |- context [(?x =? ?y)%nat] => rewrite (proj2 (Nat.eqb_eq x y)) by lia
  | |- context [py_eq ?x (PBytes ?y)] =>
      first [rewrite (proj2 (py_eq_bytes x y)) by done | rewrite (proj2 (py_eq_bytes_false x y)) by congruence]
  end.

Lemma check_operation_sound owner key seq a prev :
  check_operation owner key seq a prev = Ok tt -> operation_rule owner key seq a prev.
Proof.
  unfold check_operation. intros Hc.
  repeat match type of Hc with (if auth_operation a =? ?n then _ else _) = _ =>
    destruct (Z.eqb_spec (auth_operation a) n); cbn -[bool_decide py_eq Z.eqb Nat.eqb zero_hash] in Hc end;
    try discriminate Hc.
  - do 2 (case_match; [discriminate|]). bool_hyps.
    destruct prev as [p|]; [|by apply rule_genesis].
    exfalso. eauto using mk_is_Some.
  - case_match; [discriminate|]. bool_hyps. by apply rule_upgrade.
  - destruct prev as [p|]; [|discriminate]. case_match; [discriminate|]. bool_hyps.
    apply rule_update; try done. by apply py_eq_bytes.
  - case_match; [discriminate|]. destruct prev as [p|]; [|discriminate].
    case_match; [discriminate|]. bool_hyps. apply rule_replace; try done. by apply py_eq_bytes.
  - destruct prev as [p|]; [|discriminate]. case_match; [discriminate|]. bool_hyps.
    destruct (is_legacy p) eqn:El; cbn -[bool_decide py_eq Z.eqb Nat.eqb in_key_set] in Hc.
    + case_match; [discriminate|]. apply res_bind_ok in Hc as ([] & Hm & Hc); [|done].
      apply in_key_set_true in Hm as (k & -> & Hk). bool_hyps.
      eapply rule_rotate_legacy; try done. intros ->. by rewrite (proj2 (py_eq_bytes _ _) eq_refl) in *.
    + case_match; [discriminate|]. bool_hyps. apply rule_rotate; try done. by apply py_eq_bytes_false.
Qed.

Lemma check_operation_complete owner key seq a prev :
  operation_rule owner key seq a prev -> check_operation owner key seq a prev = Ok tt.
Proof.
  intros Hr. unfold check_operation. destruct Hr; unfold two_of_three, keeps_governance, succeeds in *;
    destruct_and?;
    repeat match goal with
    | E : auth_operation _ = _ |- _ => rewrite E; clear E
    | E : is_legacy _ = _ |- _ => rewrite E; clear E
    end; cbn -[bool_decide py_eq Z.eqb Nat.eqb Z.leb in_key_set]; solve_guards; try done.
  rewrite (proj2 (in_key_set_true _ _)) by eauto. done.
Qed.

(** * Accepted transitions *)

Section Accepted.
Context `{Cbor} `{Ed25519}.

(** Whose signatures authorize a version-1 update. *)
Inductive authorized_by (a : authorization) (update : bytes) : option identity_state -> Prop :=
  | by_own_signers :
      auth_operation a = 1 -> quorum (auth_signers a) (auth_threshold a) update ->
      authorized_by a update None
  | by_owner_upgrade p signer_id signature :
      auth_operation a = 4 -> is_legacy p = true ->
      (signer_id, st_owner_public_key p) ∈ auth_signers a ->
      signed (st_owner_public_key p) update signature ->
      authorized_by a update (Some p)
  | by_predecessor_signers p :
      auth_operation a = 2 \/ auth_operation a = 3 \/ auth_operation a = 5 -> is_legacy p = false ->
      quorum (st_signer_set p) (auth_threshold a) update ->
      authorized_by a update (Some p)
  | by_predecessor_owner p signature :
      auth_operation a = 5 -> is_legacy p = true ->
      signed (st_owner_public_key p) update signature ->
      authorized_by a update (Some p).

(** The specification of the parser: [st] is an accepted successor of [prev]. *)
Inductive accepted (prev : option identity_state) (st : identity_state) : Prop :=
  | accepted_legacy signature :
      _decode_signed_update (PBytes (st_signed_update_bytes st)) =
        Ok (SignedUpdate (PBytes (st_owner_name st)) (PBytes (st_owner_public_key st)) []
              (st_sequence st) None) ->
      signed (st_owner_public_key st) (st_signed_update_bytes st) signature ->
      st_generation st = None -> st_threshold st = None -> st_signer_set st = [] ->
      st_predecessor_envelopes st = [] ->
      accepted prev st
  | accepted_versioned a :
      _decode_signed_update (PBytes (st_signed_update_bytes st)) =
        Ok (SignedUpdate (PBytes (st_owner_name st)) (PBytes (st_owner_public_key st)) []
              (st_sequence st) (Some a)) ->
      operation_rule (st_owner_name st) (PBytes (st_owner_public_key st)) (st_sequence st) a prev ->
      (auth_operation a = 4 -> exists p, prev = Some p /\
         st_owner_public_key p = st_owner_public_key st /\ st_state_hash p = auth_predecessor a /\
         st_sequence st = st_sequence p + 1) ->
      authorized_by a (st_signed_update_bytes st) prev ->
      st_generation st = Some (auth_epoch a) -> st_threshold st = Some (auth_threshold a) ->
      st_signer_set st = auth_signers a ->
      st_predecessor_envelopes st =
        match prev with Some p => st_envelope_bytes p :: st_predecessor_envelopes p | None => [] end ->
      accepted prev st.

(** What holds of every parsed state whatever its kind. *)
Record state_wf (st : identity_state) : Prop := {
  state_wf_hash : st_state_hash st = sha256 (st_signed_update_bytes st);
  state_wf_key : length (st_owner_public_key st) = _KEY_LENGTH;
  state_wf_sequence : 0 <= st_sequence st;
}.

Lemma check_upgrade_sound key seq a prev ps :
  check_upgrade key seq a prev ps = Ok tt ->
  exists p signer_id signature, prev = Some p /\ ps = [(Some signer_id, signature)] /\
    key = PBytes (st_owner_public_key p) /\ is_legacy p = true /\
    signer_key (auth_signers a) signer_id = Some (st_owner_public_key p) /\
    st_state_hash p = auth_predecessor a /\ seq = st_sequence p + 1.
Proof.
  unfold check_upgrade. destruct ps as [|[sid sig] [|]]; try done. destruct prev as [p|]; [|done].
  case_match eqn:Ec; [done|]. intros _. bool_hyps.
  match goal with H : py_eq key _ = true |- _ => apply py_eq_bytes in H as -> end.
  match goal with H : py_eq _ _ = true |- _ => apply py_eq_bytes in H end.
  destruct sid as [s|]; [|done]. simpl in *.
  destruct (signer_key (auth_signers a) s) eqn:Ek; [|done]. naive_solver.
Qed.

(** The threshold branch, shared by every operation with identified signers. *)
Lemma verify_threshold keys update thr ps :
  proofs_wf ps ->
  (let* vs := verify_proofs keys update ∅ ps in
   raise_if Z.of_nat (size vs) <? thr with InvalidIdentityState; Ok tt) = Ok tt ->
  quorum keys thr update.
Proof.
  intros Hps Hv. apply res_bind_ok in Hv as (vs & Hvs & Hv). case_match eqn:E; [done|].
  bool_hyps. eapply quorum_mono; [exact E|]. by eapply verify_proofs_quorum.
Qed.

Lemma check_proofs_sound owner key seq update a prev ps :
  proofs_wf ps -> operation_rule owner key seq a prev ->
  check_proofs key seq update a prev ps = Ok tt ->
  authorized_by a update prev /\
  (auth_operation a = 4 -> exists p, prev = Some p /\ key = PBytes (st_owner_public_key p) /\
     st_state_hash p = auth_predecessor a /\ seq = st_sequence p + 1).
Proof.
  intros Hps Hr. unfold check_proofs.
  destruct Hr as [Hop|prev Hop|p Hop Hl|p Hop Hl|p Hop Hl|p k Hop Hl]; rewrite Hop;
    cbn -[check_upgrade verify_proofs]; try rewrite Hl; cbn -[check_upgrade verify_proofs]; intros Hc.
  - split; [|lia]. apply by_own_signers; [done|]. by eapply verify_threshold.
  - apply res_bind_ok in Hc as ([] & (p & sid & sig & -> & -> & -> & Hl & Hk & Hh & Hs)%check_upgrade_sound & Hc).
    split; [|intros _; by eauto 6].
    apply res_bind_ok in Hc as (vs & Hv & _).
    apply verify_proofs_ok in Hv as ([|[sid' sig'] [|]] & [= -> ->] & _ & Hv).
    apply Forall_singleton in Hv as (k & Hk' & Hsig). simpl in *.
    eapply by_owner_upgrade; [done|done|by apply signer_key_elem|]. by simplify_eq.
  - split; [|lia]. apply by_predecessor_signers; [auto|done|]. by eapply verify_threshold.
  - split; [|lia]. apply by_predecessor_signers; [auto|done|]. by eapply verify_threshold.
  - split; [|lia]. apply by_predecessor_signers; [auto|done|]. by eapply verify_threshold.
  - split; [|lia]. destruct ps as [|[[s|] sig] [|]]; try done.
    eapply by_predecessor_owner; [done|done|]. by apply verify_signature_ok in Hc.
Qed.

(** The envelope is the canonical form of a dict, and the parser picks its branch. *)
Lemma parse_envelope_inv owner v prev st :
  _parse_identity_envelope owner v prev = Ok st ->
  exists env outer, v = PBytes env /\ env <> [] /\
    (parse_legacy_envelope owner env outer = Ok st \/
     parse_versioned_envelope owner env outer prev = Ok st).
Proof.
  unfold _parse_identity_envelope. intros Hp. apply res_bind_ok in Hp as (d & Hd & Hp).
  apply require_canonical_bytes in Hd as (env & -> & Hne).
  destruct d as [| | | | | | |outer|]; try done. exists env, outer.
  do 2 (split; [done|]). case_match; [done|]. case_match; [by left|]. case_match; [done|].
  apply res_bind_ok in Hp as (v1 & _ & Hp). right. by repeat (case_match; try done).
Qed.

Lemma parse_legacy_sound owner env outer prev st :
  parse_legacy_envelope owner env outer = Ok st ->
  accepted prev st /\ state_wf st /\ st_owner_name st = owner /\ st_envelope_bytes st = env.
Proof.
  unfold parse_legacy_envelope. intros Hp.
  apply res_bind_ok in Hp as (v1 & _ & Hp). apply res_bind_ok in Hp as (u & _ & Hp).
  apply res_bind_ok in Hp as (v2 & _ & Hp). apply res_bind_ok in Hp as (sig & _ & Hp).
  apply res_bind_ok in Hp as (su & Hsu & Hp). pose proof (decode_signed_update_wf _ _ Hsu) as [Hpl Hseq _].
  case_match eqn:Ec; [done|]. bool_hyps.
  apply res_bind_ok in Hp as (pk & [Hpk Hlen]%require_bytes_ok & Hp).
  apply res_bind_ok in Hp as (t & Hsig%verify_signature_ok & Hp). injection Hp as <-.
  destruct su as [n k pl sq [a|]]; simpl in *; [exfalso; eauto using mk_is_Some|].
  match goal with H : py_eq n _ = true |- _ => apply py_eq_bytes in H as -> end. subst k pl.
  split; [by eapply accepted_legacy|]. split; [by constructor|done].
Qed.

Lemma parse_versioned_sound owner env outer prev st :
  parse_versioned_envelope owner env outer prev = Ok st ->
  accepted prev st /\ state_wf st /\ st_owner_name st = owner /\ st_envelope_bytes st = env.
Proof.
  unfold parse_versioned_envelope. intros Hp.
  apply res_bind_ok in Hp as (v2 & _ & Hp). apply res_bind_ok in Hp as (u & _ & Hp).
  apply res_bind_ok in Hp as (v3 & _ & Hp). apply res_bind_ok in Hp as (su & Hsu & Hp).
  pose proof (decode_signed_update_wf _ _ Hsu) as [Hpl Hseq _].
  destruct su as [n k pl sq [a|]]; simpl in *; [|done]. subst pl. simpl in Hp.
  destruct (py_eq n (PBytes owner)) eqn:En; [|done]. apply py_eq_bytes in En as ->. simpl in Hp.
  apply res_bind_ok in Hp as ([] & Hop%check_operation_sound & Hp).
  apply res_bind_ok in Hp as (ps & Hps%validate_proof_list_ok & Hp).
  apply res_bind_ok in Hp as ([] & Hc & Hp).
  eapply check_proofs_sound in Hc as [Hby Hup]; [|done|done].
  apply res_bind_ok in Hp as (pk & [-> Hlen]%require_bytes_ok & Hp). injection Hp as <-.
  split; [|by split; [constructor|]].
  eapply accepted_versioned; simpl; try done.
  - intros (p & -> & [= ->] & Hh & Hq)%Hup. eauto.
  - destruct prev as [p|]; [|done]. by rewrite bool_decide_eq_true_2 by (by eapply rule_operation).
Qed.

Lemma parse_accepted owner v prev st :
  _parse_identity_envelope owner v prev = Ok st ->
  accepted prev st /\ state_wf st /\ st_owner_name st = owner /\ v = PBytes (st_envelope_bytes st).
Proof.
  intros (env & outer & -> & _ & [Hp|Hp])%parse_envelope_inv.
  - eapply parse_legacy_sound in Hp as (? & ? & ? & <-). eauto.
  - apply parse_versioned_sound in Hp as (? & ? & ? & <-). eauto.
Qed.

(** C2. Soundness of the envelope parser against the transition specification:
    whatever [_parse_identity_envelope] returns is an [accepted] successor of the
    given predecessor: a self-signed legacy state, or a version-1 update that
    obeys the rule of its operation (sequence, predecessor hash, owner key, epoch,
    threshold, signer set) and carries valid signatures of the signers that
    operation requires: the genesis set, the predecessor's set up to the
    threshold, or the predecessor's owner key; its owner name and bytes are the
    ones asked for and its hash is the digest of the signed update. *)
Theorem parse_sound owner v prev st :
  _parse_identity_envelope owner v prev = Ok st ->
  accepted prev st /\ state_wf st /\ st_owner_name st = owner /\ v = PBytes (st_envelope_bytes st).
Proof. apply parse_accepted. Qed.
End Accepted.
