(* ===== verification/Chain.v ===== *)
(** Chains of accepted states: governance along a predecessor history, and the
    errors the parser can raise. *)

From S2P Require Import Prelude PyVal Sha256 Interfaces SignedUpdate Envelope EnvelopeFacts.

Open Scope Z_scope.

(** A legacy state has no governance fields; every other state is governed by
    two of exactly three signers, at a positive epoch. *)
Definition governance_ok (st : identity_state) : Prop :=
  if is_legacy st then st_generation st = None /\ st_threshold st = None
  else st_threshold st = Some 2 /\ length (st_signer_set st) = 3%nat /\
       exists g, st_generation st = Some g /\ 1 <= g.

Lemma is_legacy_nil st : is_legacy st = true <-> st_signer_set st = [].
Proof. unfold is_legacy. rewrite Nat.eqb_eq. apply length_zero_iff_nil. Qed.

Section Chain.
Context `{Cbor} `{Ed25519}.

(** States newest first, each an accepted successor of the next one. *)
Inductive chain : list identity_state -> Prop :=
  | chain_anchor st : accepted None st -> chain [st]
  | chain_next st p l : accepted (Some p) st -> chain (p :: l) -> chain (st :: p :: l).

Lemma accepted_governance prev st :
  (forall p, prev = Some p -> governance_ok p) -> accepted prev st -> governance_ok st.
Proof.
  intros Hprev [sig _ _ Hg Ht Hs _|a Hd Hr Hup Hby Hg Ht Hs _]; unfold governance_ok.
  - rewrite (proj2 (is_legacy_nil st) Hs). done.
  - assert (auth_wf a) as Hwf.
    { apply decode_signed_update_wf in Hd as [_ _ Hw]. by apply Hw. }
    assert (is_legacy st = false) as ->.
    { destruct Hwf as [_ _ Hthr _ _]. unfold is_legacy. rewrite Hs. apply Nat.eqb_neq. lia. }
    rewrite Hs, Ht, Hg.
    inversion Hr as [? ? He ? [Htt Hn]|? ? He [Htt Hn]|p ? Hl ? ? (Kg & Kt & Ks)|p ? Hl ? ? He ? [Htt Hn]
      |p ? Hl ? ? (Kg & Kt & Ks)|p k ? Hl ? ? ? He [Htt Hn]]; subst prev;
      try (rewrite Htt; eauto with lia).
    1, 3: specialize (Hprev p eq_refl); unfold governance_ok in Hprev; rewrite Hl, Ks, Kt, Kg in Hprev;
      by destruct Hprev.
    specialize (Hprev p eq_refl). unfold governance_ok in Hprev. rewrite Hl in Hprev.
    destruct Hprev as (_ & _ & g & Eg & Hg1). rewrite Eg in He. simpl in He.
    split; [done|]. split; [done|]. exists (auth_epoch a). split; [done|lia].
Qed.

Lemma chain_governance l : chain l -> Forall governance_ok l.
Proof.
  induction 1 as [st Ha|st p l Ha Hc IH].
  - apply Forall_singleton. eapply accepted_governance; [|done]. done.
  - constructor; [|done]. eapply accepted_governance; [|done].
    intros q [= <-]. by apply Forall_cons in IH as [? _].
Qed.

(** A chain, or no state at all: what a predecessor history parses to. *)
Definition chain_or_none (prev : option identity_state) (l : list identity_state) : Prop :=
  match prev with None => l = [] | Some p => exists r, l = p :: r /\ chain l end.

Lemma chain_extend prev l st :
  chain_or_none prev l -> accepted prev st -> chain (st :: l).
Proof.
  destruct prev as [p|]; simpl.
  - intros (r & -> & Hc) Ha. by constructor.
  - intros -> Ha. by constructor.
Qed.

Lemma parse_chain_sound owner prev l es r :
  chain_or_none prev l -> Forall (fun s => st_owner_name s = owner) l ->
  parse_chain owner prev es = Ok r ->
  exists l', chain_or_none r l' /\ Forall (fun s => st_owner_name s = owner) l' /\
    st_envelope_bytes <$> l' = rev es ++ (st_envelope_bytes <$> l).
Proof.
  revert prev l. induction es as [|e es IH]; intros prev l Hl Ho; simpl.
  - intros [= <-]. eauto.
  - intros Hp. apply res_bind_ok in Hp as (st & (Ha & _ & Hn & Hb)%parse_accepted & Hp). injection Hb as ->.
    pose proof (chain_extend _ _ _ Hl Ha) as Hc.
    apply (IH (Some st) (st :: l)) in Hp as (l' & Hl' & Ho' & He); [|by exists l|by constructor].
    exists l'. split; [done|]. split; [done|]. by rewrite He, fmap_cons, <-app_assoc.
Qed.

Lemma parse_previous_chain owner env history st :
  _parse_previous_state_chain owner env history = Ok (Some st) ->
  exists l, chain (st :: l) /\ st_envelope_bytes <$> l = history /\
    env = PBytes (st_envelope_bytes st) /\ Forall (fun s => st_owner_name s = owner) (st :: l).
Proof.
  intros Hp.
  assert (exists prev, parse_chain owner None (rev history) = Ok prev /\
          _parse_identity_envelope owner env prev = Ok st) as (prev & Hc & Hs).
  { destruct env; cbn [_parse_previous_state_chain] in Hp; [by case_match|..];
      apply res_bind_ok in Hp as (prev & Hc & Hp); apply res_bind_ok in Hp as (s' & Hs & Hp);
      injection Hp as <-; eauto. }
  apply (parse_chain_sound owner None []) in Hc as (l & Hl & Ho & He); [|done|constructor].
  rewrite rev_involutive, app_nil_r in He.
  apply parse_accepted in Hs as (Ha & _ & Hn & ->). exists l.
  split; [by eapply chain_extend|]. split; [done|]. split; [done|]. by constructor.
Qed.

(** Predecessor histories: when [_parse_previous_state_chain] returns a state,
    that state and the states of the history envelopes (newest first) form a chain
    down to a legacy or genesis anchor in which every state is an accepted successor
    of the next one, all for the requested owner name, and every state is either
    legacy or governed by two of exactly three signers. *)
Lemma previous_chain_sound owner env history st :
  _parse_previous_state_chain owner env history = Ok (Some st) ->
  exists l, chain (st :: l) /\ st_envelope_bytes <$> l = history /\
    env = PBytes (st_envelope_bytes st) /\
    Forall (fun s => st_owner_name s = owner /\ governance_ok s) (st :: l).
Proof.
  intros (l & Hc & He & -> & Ho)%parse_previous_chain. exists l.
  do 3 (split; [done|]). apply Forall_and. split; [done|by apply chain_governance].
Qed.

(** One step after a verified history. *)
Lemma step_after_chain owner v p l st :
  chain (p :: l) -> is_legacy p = false ->
  _parse_identity_envelope owner v (Some p) = Ok st -> is_legacy st = false ->
  quorum (st_signer_set p) 2 (st_signed_update_bytes st) /\
  st_sequence st = st_sequence p + 1 /\
  default 0 (st_generation p) <= default 0 (st_generation st).
Proof.
  intros Hc Hl (Ha & _ & _ & _)%parse_accepted Hst.
  apply chain_governance, Forall_cons in Hc as [Hp _]. unfold governance_ok in Hp. rewrite Hl in Hp.
  destruct Hp as (Ht & Hn & g & Hg & Hg1).
  destruct Ha as [? _ _ _ _ Hs _|a _ Hr Hup Hby Egen _ Esig _].
  { apply is_legacy_nil in Hs. congruence. }
  rewrite Egen, Hg. simpl.
  assert (auth_threshold a = 2 -> quorum (st_signer_set p) 2 (st_signed_update_bytes st)) as Hq.
  { intros Htt. inversion Hby; subst; congruence. }
  inversion Hr as [|? Hop|? ? _ (_ & _ & Hq') _ (Kg & Kt & _)|? ? _ (_ & _ & Hq') _ He _ [Htt _]
      |? ? _ (_ & _ & Hq') _ (Kg & Kt & _)|? ? ? Hl']; subst; try congruence.
  - inversion Hby; try congruence. lia.
  - rewrite Ht in Kt. rewrite Hg in Kg. simplify_eq. split; [by apply Hq|]. split; [done|lia].
  - rewrite Hg in He. simpl in He. split; [by apply Hq|]. split; [done|lia].
  - rewrite Ht in Kt. rewrite Hg in Kg. simplify_eq. split; [by apply Hq|]. split; [done|lia].
Qed.

(** No single key controls a governed identity: if the predecessor was itself
    verified from its history and is governed (not legacy), then any version-1
    envelope the parser accepts after it carries signatures of at least two distinct
    members of the predecessor's signer set, has the next sequence number, and never
    lowers the governance epoch. *)
Lemma two_signers_required owner env history p v st :
  _parse_previous_state_chain owner env history = Ok (Some p) -> is_legacy p = false ->
  _parse_identity_envelope owner v (Some p) = Ok st -> is_legacy st = false ->
  quorum (st_signer_set p) 2 (st_signed_update_bytes st) /\
  st_sequence st = st_sequence p + 1 /\
  default 0 (st_generation p) <= default 0 (st_generation st).
Proof.
  intros (l & Hc & _)%parse_previous_chain Hl. by apply step_after_chain with l.
Qed.

(** C3. No single key controls a governed identity.  When [_parse_previous_state_chain] returns a
    state, that state and the states of the history envelopes (newest first) form a chain down to
    a legacy or genesis anchor in which every state is an accepted successor of the next one, all
    for the requested owner name, each of them legacy or governed by two of exactly three signers.
    And if the state is governed, any version-1 envelope the parser accepts after it carries
    signatures of at least two distinct members of its signer set, has the next sequence number,
    and never lowers the governance epoch. *)
Theorem history_governed owner env history p :
  _parse_previous_state_chain owner env history = Ok (Some p) ->
  (exists l, chain (p :: l) /\ st_envelope_bytes <$> l = history /\ env = PBytes (st_envelope_bytes p) /\
    Forall (fun s => st_owner_name s = owner /\ governance_ok s) (p :: l)) /\
  (is_legacy p = false -> forall v st, _parse_identity_envelope owner v (Some p) = Ok st -> is_legacy st = false ->
    quorum (st_signer_set p) 2 (st_signed_update_bytes st) /\ st_sequence st = st_sequence p + 1 /\
    default 0 (st_generation p) <= default 0 (st_generation st)).
Proof. intros Hp. split; [by apply previous_chain_sound|]. intros Hl v st. by apply two_signers_required with env history. Qed.
End Chain.

(** * Errors of the parser *)

Definition state_or_request (e : exn) : Prop := e = InvalidIdentityState \/ e = InvalidIdentityRequest.

#[local] Hint Extern 1 (state_or_request _) => (by left) || (by right) : core.

Ltac errs_step :=
  match goal with
  | |- errs _ (res_bind _ _) => apply errs_bind; [|intros ? ?]
  | |- errs _ (if _ then _ else _) => apply errs_if; intros ?
  | |- errs _ (Ok _) => exact I
  | |- errs state_or_request (Err _) => simpl; auto
  | |- errs _ (match ?x with _ => _ end) => destruct x eqn:?
  end.

Lemma errs_require_uint v : errs state_or_request (_require_uint v).
Proof. unfold _require_uint. repeat errs_step. Qed.

Lemma errs_require_bytes len ne v : errs state_or_request (_require_bytes len ne v).
Proof. unfold _require_bytes. repeat errs_step. Qed.

Lemma errs_require_exact_keys v ks : errs state_or_request (_require_exact_keys v ks).
Proof. unfold _require_exact_keys. repeat errs_step. Qed.

Lemma errs_dict_item P d ks k : key_set_is d ks = true -> In k ks -> errs P (dict_item k d).
Proof. intros Hd Hk. unfold dict_item. by destruct (key_set_is_get d ks k Hd Hk) as [v ->]. Qed.

Lemma errs_exact_item P v ks d k :
  _require_exact_keys v ks = Ok d -> In k ks -> errs P (dict_item k d).
Proof. intros (_ & _ & Hd)%require_exact_keys_ok. by apply errs_dict_item. Qed.

Ltac errs_item :=
  match goal with
  | |- errs _ (dict_item _ _) =>
      first [eapply errs_exact_item; [eassumption|simpl; tauto]
            |eapply errs_dict_item; [eassumption|simpl; tauto]]
  end.

Ltac errs_leaf :=
  first [apply errs_require_uint|apply errs_require_bytes|apply errs_require_exact_keys|errs_item].

Lemma errs_validate_signer_set ids keys vs :
  errs state_or_request (validate_signer_set ids keys vs).
Proof.
  revert ids keys. induction vs as [|v vs IH]; intros ids keys; cbn [validate_signer_set]; [exact I|].
  repeat (errs_leaf || errs_step || apply IH || unfold validate_signer_entry).
Qed.

Lemma errs_validate_authorization v : errs state_or_request (_validate_authorization v).
Proof.
  unfold _validate_authorization.
  repeat (errs_leaf || apply errs_validate_signer_set || errs_step).
Qed.

Lemma errs_validate_proof_list v : errs state_or_request (_validate_proof_list v).
Proof.
  assert (forall seen vs, errs state_or_request (validate_proof_entries seen vs)) as Hall.
  { intros seen vs. revert seen. induction vs as [|w vs IH]; intros seen; cbn [validate_proof_entries]; [exact I|].
    repeat (errs_leaf || errs_step || apply IH || unfold validate_proof_entry). }
  unfold _validate_proof_list. repeat (apply Hall || errs_step).
Qed.

Section Errors.
Context `{Cbor} `{Ed25519}.

Lemma errs_require_canonical v : errs state_or_request (_require_canonical v).
Proof. unfold _require_canonical. repeat errs_step. Qed.

Lemma errs_decode_signed_update v : errs state_or_request (_decode_signed_update v).
Proof.
  unfold _decode_signed_update.
  repeat (apply errs_require_canonical || apply errs_validate_authorization || errs_leaf || errs_step).
  all: match goal with E : negb (_ || _) = false |- _ => apply negb_false_iff, orb_true_iff in E as [E|E] end.
  all: errs_item.
Qed.

(** Errors of a parse: the two adapter errors, or a [TypeError] from hashing the
    new owner key of a rotation away from a legacy state. *)
Definition parse_error (prev : option identity_state) (e : exn) : Prop :=
  state_or_request e \/
  (e = TypeError /\ exists p, prev = Some p /\ is_legacy p = true).

Lemma errs_weaken {A} prev (m : res A) : errs state_or_request m -> errs (parse_error prev) m.
Proof. destruct m; simpl; [done|]. by left. Qed.

Lemma errs_check_operation owner key seq a prev :
  errs (parse_error prev) (check_operation owner key seq a prev).
Proof.
  unfold check_operation. repeat (apply errs_if; intros ?);
    try (apply errs_weaken; repeat errs_step; fail).
  destruct prev as [p|]; [|simpl; left; auto].
  apply errs_if; intros _; [simpl; left; auto|].
  apply errs_if; intros Hl; [apply errs_weaken; repeat errs_step|].
  apply errs_if; intros _; [simpl; left; auto|].
  apply errs_bind; [|intros b _; apply errs_weaken; repeat errs_step].
  unfold in_key_set. apply errs_if; intros _; [|done]. simpl. right. split; [done|].
  exists p. split; [done|]. by apply negb_false_iff.
Qed.

Lemma errs_verify_proofs keys update acc ps :
  errs state_or_request (verify_proofs keys update acc ps).
Proof.
  revert acc. induction ps as [|[[s|] sig] ps IH]; intros acc; cbn [verify_proofs]; repeat errs_step; try apply IH.
  unfold _verify_signature. repeat errs_step.
Qed.

Lemma errs_check_proofs key seq update a prev ps :
  errs state_or_request (check_proofs key seq update a prev ps).
Proof.
  unfold check_proofs, check_upgrade, _verify_signature.
  repeat (apply errs_verify_proofs || errs_step).
Qed.

Lemma errs_parse_envelope owner v prev :
  errs (parse_error prev) (_parse_identity_envelope owner v prev).
Proof.
  unfold _parse_identity_envelope. apply errs_bind; [apply errs_weaken, errs_require_canonical|].
  intros d _. destruct v; try (simpl; left; auto; fail). destruct d; try (simpl; left; auto; fail).
  apply errs_if; intros _; [simpl; left; auto|]. apply errs_if; intros Hks.
  - apply errs_weaken. unfold parse_legacy_envelope, _verify_signature.
    repeat (apply errs_decode_signed_update || errs_leaf || errs_step).
  - apply errs_if; intros Hks'; [simpl; left; auto|]. apply negb_false_iff in Hks'.
    apply errs_bind; [errs_item|]. intros v1 _.
    assert (errs (parse_error prev) (parse_versioned_envelope owner b d prev)) as Hv.
    { unfold parse_versioned_envelope.
      apply errs_bind; [errs_item|]; intros v2 _.
      apply errs_bind; [apply errs_weaken; errs_leaf|]; intros u _.
      apply errs_bind; [errs_item|]; intros pv _.
      apply errs_bind; [apply errs_weaken, errs_decode_signed_update|]; intros su _.
      destruct (su_authorization su) as [a|]; [|simpl; left; auto].
      apply errs_if; intros _; [simpl; left; auto|].
      apply errs_bind; [apply errs_check_operation|]; intros _ _.
      apply errs_bind; [apply errs_weaken, errs_validate_proof_list|]; intros ps _.
      apply errs_bind; [apply errs_weaken, errs_check_proofs|]; intros _ _.
      apply errs_weaken. repeat (errs_leaf || errs_step). }
    destruct v1 as [| |z| | | | | |]; try (simpl; left; auto; fail).
    destruct z as [|[]|]; try (simpl; left; auto; fail). exact Hv.
Qed.

(** C4. Error behaviour of the parser on arbitrary input: it never fails with a
    key, index or attribute error; it raises [InvalidIdentityState] or
    [InvalidIdentityRequest], except for a [TypeError] that can only occur when the
    predecessor is a legacy state. *)
Theorem parse_errors owner v prev e :
  _parse_identity_envelope owner v prev = Err e ->
  e = InvalidIdentityState \/ e = InvalidIdentityRequest \/
  (e = TypeError /\ exists p, prev = Some p /\ is_legacy p = true).
Proof.
  intros He. pose proof (errs_parse_envelope owner v prev) as Hp. rewrite He in Hp.
  destruct Hp as [[?|?]|?]; auto.
Qed.

(** A malformed envelope escapes the adapter's error classes: an operation-5
    update for a legacy predecessor, otherwise well-formed for its position, whose
    new owner key is an unhashable value (a CBOR array or map) makes the parser raise
    [TypeError] before any signature is verified, whatever its proofs are. *)
Lemma unhashable_owner_key_raises_type_error owner env update proofs name key seq a p :
  _require_canonical (PBytes env) =
    Ok (py_dict [(1, PInt 1); (2, PBytes update); (3, proofs)]) ->
  _decode_signed_update (PBytes update) = Ok (SignedUpdate name key [] seq (Some a)) ->
  name = PBytes owner -> hashable key = false ->
  auth_operation a = 5 -> auth_epoch a = 1 -> two_of_three a ->
  is_legacy p = true -> succeeds p owner seq a ->
  _parse_identity_envelope owner (PBytes env) (Some p) = Err TypeError.
Proof.
  intros Henv Hsu -> Hk Hop Hep [Ht Hn] Hl (Ho & Hh & Hseq).
  assert (forall k, py_eq key (PBytes k) = false) as Hne.
  { intros k. apply py_eq_bytes_false. by intros ->. }
  unfold _parse_identity_envelope. rewrite Henv. cbn -[parse_versioned_envelope].
  unfold parse_versioned_envelope. cbn -[_decode_signed_update check_operation]. rewrite Hsu.
  cbn -[check_operation py_eq]. rewrite (proj2 (py_eq_bytes _ _) eq_refl). cbn -[check_operation].
  unfold check_operation. rewrite Hop, Hl. cbn -[bool_decide py_eq Z.eqb Nat.eqb in_key_set].
  rewrite Hne. solve_guards. unfold in_key_set. rewrite Hk. done.
Qed.
End Errors.
