(* ===== verification/Draft.v ===== *)
(** Identity drafts, detached proofs and portable bundles: construction,
    canonical exchange, merging and finalization
    (identity.py, [IdentityDraft], [IdentityProof], [IdentityBundle]). *)

From S2P Require Import Prelude PyVal Sha256 Interfaces SignedUpdate Envelope EnvelopeFacts.

Open Scope Z_scope.

(** Every exception of [m] becomes [InvalidIdentityRequest]:
    [except InvalidIdentityRequest: raise / except Exception: raise InvalidIdentityRequest()]. *)
Definition as_invalid_request {A} (m : res A) : res A :=
  match m with Ok a => Ok a | Err _ => Err InvalidIdentityRequest end.

(** The elements of a list, if all are [bytes]. *)
Fixpoint all_bytes (l : list pyval) : option (list bytes) :=
  match l with
  | [] => Some []
  | PBytes b :: l' => cons b <$> all_bytes l'
  | _ :: _ => None
  end.

(** * Drafts *)

Record identity_draft := MkDraft {
  draft_signed_update_bytes : bytes;
  draft_previous_state_envelope : option bytes;
  draft_previous_state_history : list bytes;
}.

#[global] Instance identity_draft_eq_decision : EqDecision identity_draft.
Proof. solve_decision. Defined.

(** The values of the properties [owner_name], [owner_public_key], [sequence] and
    [authorization] of a draft. *)
Record draft_fields := DraftFields {
  df_owner_name : bytes;
  df_owner_public_key : bytes;
  df_sequence : Z;
  df_authorization : option authorization;
}.

Section Draft.
Context `{Cbor} `{Ed25519}.

(** [IdentityDraft(signed_update_bytes, previous_state_envelope, previous_state_history)] *)
Definition IdentityDraft (signed_update_bytes previous_state_envelope previous_state_history : pyval)
    : res identity_draft :=
  let* su := _decode_signed_update signed_update_bytes in
  match previous_state_history with
  | PTuple items =>
      raise_if negb (length (su_payload su) =? 0)%nat || (_MAX_PREDECESSOR_DEPTH <? length items)%nat
        with InvalidIdentityRequest;
      match all_bytes items with
      | None => Err InvalidIdentityRequest
      | Some history =>
          let* owner_name := _validate_owner_name (su_record_name su) in
          let* owner_public_key := _require_bytes (Some _KEY_LENGTH) false (su_record_key su) in
          let* previous := _parse_previous_state_chain owner_name previous_state_envelope history in
          let* _ := _validate_draft_transition owner_name owner_public_key (su_sequence su)
                      (su_authorization su) previous in
          match signed_update_bytes, previous_state_envelope with
          | PBytes update, PBytes env => Ok (MkDraft update (Some env) history)
          | PBytes update, _ => Ok (MkDraft update None history)
          | _, _ => Err InvalidIdentityState
          end
      end
  | _ => Err InvalidIdentityRequest
  end.

(** [IdentityDraft.create] *)
Definition draft_create (owner_name owner_public_key sequence : pyval) (auth_mapping : option pydict)
    (previous_state_envelope : option bytes) (previous_state_history : list bytes) : res identity_draft :=
  let* update := build_identity_update owner_name owner_public_key sequence auth_mapping in
  IdentityDraft (PBytes update) (py_opt PBytes previous_state_envelope)
    (PTuple (PBytes <$> previous_state_history)).

(** The four properties; the record of a constructed draft holds two [bytes]. *)
Definition draft_view (d : identity_draft) : res draft_fields :=
  let* su := _decode_signed_update (PBytes (draft_signed_update_bytes d)) in
  match su_record_name su, su_record_key su with
  | PBytes n, PBytes k => Ok (DraftFields n k (su_sequence su) (su_authorization su))
  | _, _ => Err TypeError
  end.

Definition _draft_previous_state (d : identity_draft) : res (option identity_state) :=
  let* f := draft_view d in
  _parse_previous_state_chain (df_owner_name f) (py_opt PBytes (draft_previous_state_envelope d))
    (draft_previous_state_history d).

Definition validate_owner_key_rotation_binding (d : identity_draft)
    (predecessor_owner_public_key successor_owner_public_key : pyval) : res unit :=
  match predecessor_owner_public_key, successor_owner_public_key with
  | PBytes pred, PBytes succ =>
      raise_if negb (length pred =? _KEY_LENGTH)%nat || negb (length succ =? _KEY_LENGTH)%nat
        with InvalidIdentityRequest;
      let* f := draft_view d in
      let* previous := _draft_previous_state d in
      match df_authorization f, previous with
      | Some a, Some p =>
          raise_if negb (auth_operation a =? 5) ||
                   negb (bool_decide (st_owner_public_key p = pred)) ||
                   negb (bool_decide (df_owner_public_key f = succ)) with InvalidIdentityRequest;
          Ok tt
      | _, _ => Err InvalidIdentityRequest
      end
  | _, _ => Err InvalidIdentityRequest
  end.

Definition draft_value (d : identity_draft) : pyval :=
  py_dict [(1, PInt 2); (2, PBytes (draft_signed_update_bytes d));
           (3, py_opt PBytes (draft_previous_state_envelope d));
           (4, PList (PBytes <$> draft_previous_state_history d))].

Definition draft_to_cbor (d : identity_draft) : res bytes := _canonical (draft_value d).

Definition draft_from_cbor (data : pyval) : res identity_draft :=
  as_invalid_request (
    let* value := _require_canonical data in
    let* d := _require_exact_keys value [1; 2; 3; 4] in
    let* v1 := dict_item 1 d in
    let* version :=
      match v1 with
      | PInt z => raise_if negb ((z =? 1) || (z =? 2)) with InvalidIdentityRequest; Ok z
      | _ => Err InvalidIdentityRequest
      end in
    let* v3 := dict_item 3 d in
    raise_if match v3 with PNone | PBytes _ => false | _ => true end with InvalidIdentityRequest;
    let* v4 := dict_item 4 d in
    let* history :=
      if version =? 1 then
        match v4 with
        | PNone => Ok []
        | PBytes b => Ok [PBytes b]
        | _ => Err InvalidIdentityRequest
        end
      else
        match v4 with
        | PList l => raise_if negb (forallb type_is_bytes l) with InvalidIdentityRequest; Ok l
        | _ => Err InvalidIdentityRequest
        end in
    let* v2 := dict_item 2 d in
    IdentityDraft v2 v3 (PTuple history)).
End Draft.

(** * Detached proofs *)

Record identity_proof := MkProof {
  proof_signer_id : option pystr;
  proof_signer_public_key : bytes;
  proof_signature : bytes;
}.

#[global] Instance identity_proof_eq_decision : EqDecision identity_proof.
Proof. solve_decision. Defined.

(** [IdentityProof(signer_id, signer_public_key, signature)] *)
Definition IdentityProof (signer_id signer_public_key signature : pyval) : res identity_proof :=
  let* id :=
    match signer_id with
    | PNone => Ok None
    | PStr s =>
        raise_if bool_decide (s = []) with InvalidIdentityRequest;
        match utf8_encode s with
        | None => Err InvalidIdentityRequest
        | Some b => raise_if (256 <? length b)%nat with InvalidIdentityRequest; Ok (Some s)
        end
    | _ => Err InvalidIdentityRequest
    end in
  let* key := _require_bytes (Some _KEY_LENGTH) false signer_public_key in
  let* sig := _require_bytes (Some _SIGNATURE_LENGTH) false signature in
  Ok (MkProof id key sig).

Definition _proof_order (p : identity_proof) : list Z := proof_key (proof_signer_id p).

(** * Bundles *)

Record identity_bundle := MkBundle {
  bundle_draft : identity_draft;
  bundle_proofs : list identity_proof;
}.

#[global] Instance identity_bundle_eq_decision : EqDecision identity_bundle.
Proof. solve_decision. Defined.

Definition distinct_signers (proofs : list identity_proof) : bool :=
  bool_decide (NoDup (proof_signer_id <$> proofs)).

(** [IdentityBundle(draft, proofs)] *)
Definition IdentityBundle (draft : identity_draft) (proofs : list identity_proof) : res identity_bundle :=
  raise_if negb (bool_decide (proofs = sort_by _proof_order proofs)) with InvalidIdentityRequest;
  raise_if negb (distinct_signers proofs) with InvalidIdentityRequest;
  Ok (MkBundle draft proofs).

(** [self.merge(other)] *)
Definition merge (self other : identity_bundle) : res identity_bundle :=
  raise_if negb (bool_decide (bundle_draft self = bundle_draft other)) with InvalidIdentityRequest;
  let combined := bundle_proofs self ++ bundle_proofs other in
  raise_if negb (distinct_signers combined) with InvalidIdentityRequest;
  IdentityBundle (bundle_draft self) (sort_by _proof_order combined).

Definition bundle_proof_value (p : identity_proof) : pyval :=
  py_dict [(1, py_opt PStr (proof_signer_id p)); (2, PBytes (proof_signer_public_key p));
           (3, PBytes (proof_signature p))].

(** One proof of the list read by [IdentityBundle.from_cbor]. *)
Definition bundle_proof_from (item : pyval) : res identity_proof :=
  let* e := _require_exact_keys item [1; 2; 3] in
  let* signer_id := dict_item 1 e in
  let* key := dict_item 2 e in
  let* sig := dict_item 3 e in
  IdentityProof signer_id key sig.

Section Bundle.
Context `{Cbor} `{Ed25519}.

Definition bundle_to_cbor (b : identity_bundle) : res bytes :=
  let* draft := draft_to_cbor (bundle_draft b) in
  _canonical (py_dict [(1, PInt 2); (2, PBytes draft);
                       (3, PList (bundle_proof_value <$> bundle_proofs b))]).

Definition bundle_from_cbor (data : pyval) : res identity_bundle :=
  as_invalid_request (
    let* value := _require_canonical data in
    let* d := _require_exact_keys value [1; 2; 3] in
    let* v1 := dict_item 1 d in
    let* v2 := dict_item 2 d in
    raise_if negb (match v1 with PInt z => (z =? 1) || (z =? 2) | _ => false end) ||
             negb (type_is_bytes v2) with InvalidIdentityRequest;
    let* v3 := dict_item 3 d in
    match v3 with
    | PList items =>
        let* proofs := res_map bundle_proof_from items in
        raise_if negb (bool_decide (proofs = sort_by _proof_order proofs)) with InvalidIdentityRequest;
        let* draft := draft_from_cbor v2 in
        IdentityBundle draft proofs
    | _ => Err InvalidIdentityRequest
    end).

(** The loop of [finalize] over the proofs of a version-1 draft: the set of valid
    signers and the proof values of the envelope. *)
Fixpoint finalize_proofs (legacy_key : option bytes) (authorized_keys : list (pystr * bytes))
    (update : bytes) (valid_signers : gset pystr) (proofs : list identity_proof)
    : res (gset pystr * list (option pystr * bytes)) :=
  match proofs with
  | [] => Ok (valid_signers, [])
  | p :: rest =>
      match legacy_key with
      | Some key =>
          raise_if bool_decide (is_Some (proof_signer_id p)) ||
                   negb (bool_decide (proof_signer_public_key p = key)) with InvalidIdentityRequest;
          let* _ := _verify_bundle_signature (proof_signer_public_key p) update (proof_signature p) in
          let* r := finalize_proofs legacy_key authorized_keys update valid_signers rest in
          Ok (r.1, (None, proof_signature p) :: r.2)
      | None =>
          match proof_signer_id p with
          | None => Err InvalidIdentityRequest
          | Some signer_id =>
              match signer_key authorized_keys signer_id with
              | None => Err InvalidIdentityRequest
              | Some expected_key =>
                  raise_if negb (bool_decide (expected_key = proof_signer_public_key p))
                    with InvalidIdentityRequest;
                  let* _ := _verify_bundle_signature expected_key update (proof_signature p) in
                  let* r := finalize_proofs legacy_key authorized_keys update
                              ({[signer_id]} ∪ valid_signers) rest in
                  Ok (r.1, (Some signer_id, proof_signature p) :: r.2)
              end
          end
      end
  end.

(** The version-1 branch of [finalize], up to the envelope bytes. *)
Definition finalize_versioned (update : bytes) (record_key : bytes) (a : authorization)
    (previous_state : option identity_state) (proofs : list identity_proof) : res bytes :=
  let operation := auth_operation a in
  let legacy_key :=
    match previous_state with
    | Some p => if (operation =? 5) && is_legacy p then Some (st_owner_public_key p) else None
    | None => None
    end in
  let rotation_from_legacy := bool_decide (is_Some legacy_key) in
  let* authorized_keys :=
    if (operation =? 3) || ((operation =? 5) && negb rotation_from_legacy) then
      match previous_state with
      | Some p => raise_if is_legacy p with InvalidIdentityRequest; Ok (st_signer_set p)
      | None => Err InvalidIdentityRequest
      end
    else if rotation_from_legacy then Ok []
    else Ok (auth_signers a) in
  let* r := finalize_proofs legacy_key authorized_keys update ∅ proofs in
  let* _ :=
    if operation =? 4 then
      match proofs with
      | [p] =>
          raise_if negb (size r.1 =? 1)%nat || negb (bool_decide (proof_signer_public_key p = record_key))
            with InvalidIdentityRequest;
          Ok tt
      | _ => Err InvalidIdentityRequest
      end
    else if rotation_from_legacy then
      raise_if negb (length proofs =? 1)%nat with InvalidIdentityRequest; Ok tt
    else
      raise_if Z.of_nat (size r.1) <? auth_threshold a with InvalidIdentityRequest; Ok tt in
  _canonical (py_dict [(1, PInt 1); (2, PBytes update); (3, PList (proof_to_py <$> r.2))]).

(** [self.finalize()] *)
Definition finalize (b : identity_bundle) : res bytes :=
  let draft := bundle_draft b in
  let update := draft_signed_update_bytes draft in
  let proofs := bundle_proofs b in
  let* previous_state := _draft_previous_state draft in
  raise_if (length proofs =? 0)%nat with InvalidIdentityRequest;
  let* f := draft_view draft in
  let* envelope :=
    match df_authorization f with
    | None =>
        match proofs with
        | [p] =>
            raise_if bool_decide (is_Some (proof_signer_id p)) ||
                     negb (bool_decide (proof_signer_public_key p = df_owner_public_key f))
              with InvalidIdentityRequest;
            let* _ := _verify_bundle_signature (proof_signer_public_key p) update (proof_signature p) in
            _legacy_envelope update (proof_signature p)
        | _ => Err InvalidIdentityRequest
        end
    | Some a => finalize_versioned update (df_owner_public_key f) a previous_state proofs
    end in
  match _parse_identity_envelope (df_owner_name f) (PBytes envelope) previous_state with
  | Ok _ => Ok envelope
  | Err InvalidIdentityState => Err InvalidIdentityRequest
  | Err e => Err e
  end.
End Bundle.
