(* ===== verification/DraftFacts.v ===== *)
(** Properties of drafts and bundles: canonical exchange, merging, and
    finalization against the transition specification. *)

From S2P Require Import Prelude PyVal Sha256 Interfaces SignedUpdate Envelope EnvelopeFacts Draft.

Open Scope Z_scope.

Lemma all_bytes_some l bs : all_bytes l = Some bs <-> l = PBytes <$> bs.
Proof.
  split.
  - revert bs. induction l as [|[| | |b| | | | |] l IH]; intros bs; simpl; try done.
    + by intros [= <-].
    + intros (r & Hr & ->)%fmap_Some. by rewrite fmap_cons, (IH r).
  - intros ->. induction bs as [|b bs IH]; [done|]. rewrite fmap_cons. simpl. by rewrite IH.
Qed.

Lemma type_is_bytes_all bs : forallb type_is_bytes (PBytes <$> bs) = true.
Proof. induction bs; [done|]. by rewrite fmap_cons. Qed.

Lemma bytes_plain bs : forallb cbor_plain (PBytes <$> bs) = true.
Proof. induction bs; [done|]. by rewrite fmap_cons. Qed.

(** * Draft rules and parser rules agree *)

(** The conditions on an upgrade that the parser checks with the proofs. *)
Definition upgrade_rule (owner_name key : bytes) (sequence : Z) (a : authorization)
    (prev : option identity_state) : Prop :=
  auth_operation a = 4 -> exists p, prev = Some p /\ is_legacy p = true /\
    succeeds p owner_name sequence a /\ st_owner_public_key p = key /\ key ∈ (auth_signers a).*2.

Lemma draft_transition_sound owner key seq a prev :
  _validate_draft_transition owner key seq (Some a) prev = Ok tt ->
  operation_rule owner (PBytes key) seq a prev /\ upgrade_rule owner key seq a prev.
Proof.
  unfold _validate_draft_transition, _require_complete_2_of_3, upgrade_rule. intros Hv.
  destruct prev as [p|].
  - case_match eqn:E1; [done|]. case_match eqn:E2; [done|]. bool_hyps. subst owner.
    destruct (Z.eqb_spec (auth_operation a) 5) as [Hop|Hop].
    + case_match eqn:E3; [done|]. split; [|lia]. destruct (is_legacy p) eqn:El.
      * case_match eqn:E4; [done|]. bool_hyps. eapply rule_rotate_legacy; done.
      * case_match eqn:E4; [done|]. bool_hyps. apply rule_rotate; try done. congruence.
    + case_match eqn:E3; [done|]. bool_hyps. subst key. destruct (is_legacy p) eqn:El.
      * case_match eqn:E4; [done|]. apply res_bind_ok in Hv as (u & Hu & Hv).
        case_match eqn:E5; [done|]. case_match eqn:E6; [done|]. bool_hyps.
        split; [by apply rule_upgrade|]. intros _. exists p. unfold succeeds. by split_and!.
      * destruct (Z.eqb_spec (auth_operation a) 2) as [Hop2|Hop2];
          [|destruct (Z.eqb_spec (auth_operation a) 3) as [Hop3|Hop3]; [|done]]; (split; [|lia]).
        -- case_match eqn:E4; [done|]. bool_hyps. apply rule_update; done.
        -- case_match eqn:E4; [done|]. apply res_bind_ok in Hv as (u & Hu & Hv).
           case_match eqn:E5; [done|]. case_match eqn:E6; [done|]. bool_hyps. by apply rule_replace.
  - case_match eqn:E1; [done|]. case_match eqn:E2; [done|]. case_match eqn:E3; [done|]. bool_hyps.
    split; [by apply rule_genesis|lia].
Qed.

Lemma draft_transition_complete owner key seq a prev :
  operation_rule owner (PBytes key) seq a prev -> upgrade_rule owner key seq a prev ->
  _validate_draft_transition owner key seq (Some a) prev = Ok tt.
Proof.
  intros Hr Hu. unfold _validate_draft_transition, _require_complete_2_of_3, upgrade_rule in *.
  destruct Hr as [Hop|prev Hop|p Hop Hl|p Hop Hl|p Hop Hl|p k Hop Hl];
    try (destruct (Hu Hop) as (p & -> & Hl & Hsucc & Hk & Hin); clear Hu);
    unfold two_of_three, keeps_governance, succeeds in *; destruct_and?; simplify_eq;
    try rewrite Hop; try rewrite Hl; cbn -[bool_decide Z.eqb Nat.eqb Z.leb]; solve_guards; try done.
Qed.

(** The upgrade conditions in the parser's own terms: its checks of operation 4 pass
    with one proof of some signer, and the predecessor's name, which the parser leaves
    to its caller, is the owner's. *)
Lemma upgrade_rule_checked owner key seq a prev :
  NoDup (auth_signers a).*1 -> auth_operation a = 4 ->
  upgrade_rule owner key seq a prev <->
  (exists p, prev = Some p /\ st_owner_name p = owner) /\
  exists signer_id signature, check_upgrade (PBytes key) seq a prev [(Some signer_id, signature)] = Ok tt.
Proof.
  intros Hnd Hop. unfold upgrade_rule. split.
  - intros (p & -> & Hl & (Hn & Hh & Hs) & <- & Hin)%(fun f => f Hop). split; [by eauto|].
    apply list_elem_of_fmap in Hin as ([i k] & Hk & Hin). simpl in Hk. subst k. exists i, [].
    unfold check_upgrade. simpl. rewrite (signer_key_unique _ _ _ Hnd Hin), Hl. simpl.
    by solve_guards.
  - intros ((p & -> & Hn) & i & sig & Hc) _. apply check_upgrade_sound in Hc as (p' & i' & sig' & [= <-] & _ & [= ->] & Hl & Hk & Hh & Hs).
    exists p. split; [done|]. split; [done|]. split; [done|]. split; [done|].
    apply signer_key_elem in Hk. apply list_elem_of_fmap. by exists (i', st_owner_public_key p).
Qed.

(** * Constructed drafts *)

Section DraftFacts.
Context `{Cbor} `{Ed25519}.

(** The parser never looks at the predecessor of a legacy envelope. *)
Lemma parse_legacy_any_previous owner v prev prev' st :
  _parse_identity_envelope owner v prev = Ok st -> st_generation st = None ->
  _parse_identity_envelope owner v prev' = Ok st.
Proof.
  unfold _parse_identity_envelope. destruct (_require_canonical v) as [decoded|]; [|done]. simpl.
  destruct v as [| | |e| | | | |]; try done. destruct decoded as [| | | | | | |outer|]; try done.
  case_match; [done|]. case_match; [done|]. case_match; [done|].
  destruct (dict_item 1 outer) as [[| |[|[]|]| | | | | |]|]; try done. simpl.
  unfold parse_versioned_envelope. intros Hp Hg. repeat (let x := fresh "x" in apply res_bind_ok in Hp as (x & _ & Hp)).
  destruct (su_authorization _) as [a|]; [|done]. case_match; [done|].
  repeat (let x := fresh "x" in apply res_bind_ok in Hp as (x & _ & Hp)). injection Hp as <-. done.
Qed.

(** What [_validate_draft_transition] asks of a draft without authorization. *)
Definition legacy_draft_rule (owner_name key : bytes) (sequence : Z) (prev : option identity_state) : Prop :=
  match prev with
  | None => sequence = 1
  | Some p => st_owner_name p = owner_name /\ st_owner_public_key p = key /\ is_legacy p = true /\
              sequence = st_sequence p + 1
  end.

Lemma legacy_draft_exact owner key seq prev :
  _validate_draft_transition owner key seq None prev = Ok tt <-> legacy_draft_rule owner key seq prev.
Proof.
  unfold _validate_draft_transition, legacy_draft_rule. destruct prev as [p|].
  - split.
    + intros Hv. case_match; [done|]. case_match; [done|]. bool_hyps. by split_and!.
    + intros (<- & <- & -> & ->). by solve_guards.
  - destruct (Z.eqb_spec seq 1); simpl; naive_solver.
Qed.

(** C5. What the draft validator accepts, against the parser's rules.  A version-1 draft
    of any operation but 4 is accepted exactly when the parser's per-operation checks
    accept it.  An upgrade (operation 4) is accepted exactly when those checks and the
    parser's upgrade checks pass with one proof of some signer, and the predecessor has
    the draft's owner name, a condition the parser does not state itself.  A draft
    without authorization is accepted exactly as the first update with sequence 1, or as
    the next one of a legacy state of the same name and key: here the parser is weaker,
    it accepts a legacy envelope after every predecessor or after none. *)
Theorem draft_rules_exact owner key seq a prev :
  NoDup (auth_signers a).*1 ->
  (auth_operation a <> 4 ->
    _validate_draft_transition owner key seq (Some a) prev = Ok tt <->
    check_operation owner (PBytes key) seq a prev = Ok tt) /\
  (auth_operation a = 4 ->
    _validate_draft_transition owner key seq (Some a) prev = Ok tt <->
    check_operation owner (PBytes key) seq a prev = Ok tt /\
    (exists p, prev = Some p /\ st_owner_name p = owner) /\
    exists signer_id signature, check_upgrade (PBytes key) seq a prev [(Some signer_id, signature)] = Ok tt) /\
  (_validate_draft_transition owner key seq None prev = Ok tt <-> legacy_draft_rule owner key seq prev) /\
  (forall v prev' st, _parse_identity_envelope owner v prev' = Ok st -> st_generation st = None ->
    _parse_identity_envelope owner v prev = Ok st).
Proof.
  intros Hnd. split_and!.
  - intros Hop. split.
    + intros [Hr _]%draft_transition_sound. by apply check_operation_complete.
    + intros Hc%check_operation_sound. apply draft_transition_complete; [done|]. by intros ?.
  - intros Hop. rewrite <-(upgrade_rule_checked _ _ _ _ _ Hnd Hop). split.
    + intros [Hr Hu]%draft_transition_sound. split; [by apply check_operation_complete|done].
    + intros [Hc%check_operation_sound Hu]. by apply draft_transition_complete.
  - apply legacy_draft_exact.
  - intros v prev' st. apply parse_legacy_any_previous.
Qed.

(** Every [IdentityDraft] object passes its own validation. *)
Definition wf_draft (d : identity_draft) : Prop :=
  IdentityDraft (PBytes (draft_signed_update_bytes d)) (py_opt PBytes (draft_previous_state_envelope d))
    (PTuple (PBytes <$> draft_previous_state_history d)) = Ok d.

Lemma previous_chain_envelope owner v hist r :
  _parse_previous_state_chain owner v hist = Ok r -> v = PNone \/ exists b, v = PBytes b.
Proof.
  intros Hp. destruct v; try (by eauto); cbn [_parse_previous_state_chain] in Hp;
    apply res_bind_ok in Hp as (prev & _ & Hp); apply res_bind_ok in Hp as (s' & Hs & _);
    apply parse_accepted in Hs as (_ & _ & _ & [=]).
Qed.

(** The pieces of a successful construction. *)
Lemma draft_construct_inv u e h d :
  IdentityDraft u e h = Ok d ->
  exists f prev,
    u = PBytes (draft_signed_update_bytes d) /\ e = py_opt PBytes (draft_previous_state_envelope d) /\
    h = PTuple (PBytes <$> draft_previous_state_history d) /\
    draft_view d = Ok f /\ _draft_previous_state d = Ok prev /\
    df_owner_name f <> [] /\ length (df_owner_public_key f) = _KEY_LENGTH /\
    _validate_draft_transition (df_owner_name f) (df_owner_public_key f) (df_sequence f)
      (df_authorization f) prev = Ok tt.
Proof.
  unfold IdentityDraft. intros Hd. apply res_bind_ok in Hd as (su & Hsu & Hd).
  pose proof (decode_signed_update_bytes _ _ Hsu) as (ub & -> & _).
  destruct h as [| | | | | |items| |]; try done. case_match eqn:E1; [done|].
  destruct (all_bytes items) as [hist|] eqn:Eh; [|done]. apply all_bytes_some in Eh as ->.
  apply res_bind_ok in Hd as (n & (En & Hn & _)%validate_owner_name_ok & Hd).
  apply res_bind_ok in Hd as (k & [Ek Hk]%require_bytes_ok & Hd).
  apply res_bind_ok in Hd as (prev & Hp & Hd). apply res_bind_ok in Hd as ([] & Hv & Hd).
  pose proof (previous_chain_envelope _ _ _ _ Hp) as He.
  exists (DraftFields n k (su_sequence su) (su_authorization su)), prev.
  assert (forall env, d = MkDraft ub env hist -> draft_view d = Ok (DraftFields n k (su_sequence su) (su_authorization su)))
    as Hview.
  { intros env ->. unfold draft_view. cbn [draft_signed_update_bytes]. rewrite Hsu. cbn [res_bind].
    by rewrite En, Ek. }
  destruct He as [->|[eb ->]]; injection Hd as <-; unfold _draft_previous_state;
    rewrite (Hview _ eq_refl); by split_and!.
Qed.

Lemma draft_construct_wf u e h d : IdentityDraft u e h = Ok d -> wf_draft d.
Proof.
  intros Hd. pose proof (draft_construct_inv _ _ _ _ Hd) as (f & prev & -> & -> & -> & _). exact Hd.
Qed.

Lemma draft_value_plain d : cbor_plain (draft_value d) = true.
Proof.
  unfold draft_value. cbn -[forallb]. cbn [forallb snd fmap list_fmap].
  destruct (draft_previous_state_envelope d); cbn -[forallb fmap]; by rewrite bytes_plain.
Qed.

Context `{!CborLaws}.

Lemma draft_from_value d b :
  wf_draft d -> cbor_dumps (draft_value d) = Ok b -> draft_from_cbor (PBytes b) = Ok d.
Proof.
  intros Hd Hb. unfold draft_from_cbor.
  rewrite (require_canonical_dumps _ _ (draft_value_plain d) Hb).
  unfold wf_draft in Hd. pose proof (type_is_bytes_all (draft_previous_state_history d)) as Hall.
  destruct d as [u e h]. unfold draft_value.
  cbn [draft_signed_update_bytes draft_previous_state_envelope draft_previous_state_history] in *.
  clear Hb. remember (PBytes <$> h) as l. destruct e; cbn -[IdentityDraft] in *; rewrite Hall; cbn -[IdentityDraft]; by rewrite Hd.
Qed.

Lemma draft_roundtrip_aux d :
  wf_draft d -> exists b, draft_to_cbor d = Ok b /\ draft_from_cbor (PBytes b) = Ok d.
Proof.
  intros Hd. destruct (cbor_roundtrip _ (draft_value_plain d)) as (b & Hb & _).
  exists b. split; [done|]. by apply draft_from_value.
Qed.

(** * Bundles *)

Record proof_ok (p : identity_proof) : Prop := {
  proof_ok_id s : proof_signer_id p = Some s ->
    s <> [] /\ exists b, utf8_encode s = Some b /\ (length b <= 256)%nat;
  proof_ok_key : length (proof_signer_public_key p) = _KEY_LENGTH;
  proof_ok_signature : length (proof_signature p) = _SIGNATURE_LENGTH;
}.

Lemma identity_proof_ok i k s p :
  IdentityProof i k s = Ok p <->
  i = py_opt PStr (proof_signer_id p) /\ k = PBytes (proof_signer_public_key p) /\
  s = PBytes (proof_signature p) /\ proof_ok p.
Proof.
  unfold IdentityProof. split.
  - intros Hp. apply res_bind_ok in Hp as (id & Hid & Hp).
    apply res_bind_ok in Hp as (kb & [-> Hk]%require_bytes_ok & Hp).
    apply res_bind_ok in Hp as (sb & [-> Hs]%require_bytes_ok & Hp). injection Hp as <-.
    destruct i as [| | | |x| | | |]; try done.
    + injection Hid as <-. by split_and!.
    + case_bool_decide; [done|]. destruct (utf8_encode x) as [b|] eqn:Eb; [|done].
      case_match eqn:El; [done|]. injection Hid as <-. simpl. split_and!; try done.
      constructor; simpl; try done. intros ? [= <-]. split; [done|]. exists b.
      split; [done|]. by apply Nat.ltb_ge in El.
  - intros (-> & -> & -> & [Hid Hk Hs]). destruct p as [[x|] k' s']; cbn in Hid, Hk, Hs.
    + destruct (Hid x eq_refl) as (Hx & b & Hb & Hl).
      cbn -[_require_bytes bool_decide Nat.ltb]. rewrite bool_decide_eq_false_2 by done. rewrite Hb.
      destruct (Nat.ltb_spec 256 (length b)); [lia|]. cbn [res_bind].
      by rewrite (proj2 (require_bytes_ok _ _ _) (conj eq_refl Hk)), (proj2 (require_bytes_ok _ _ _) (conj eq_refl Hs)).
    + cbn -[_require_bytes]. by rewrite (proj2 (require_bytes_ok _ _ _) (conj eq_refl Hk)), (proj2 (require_bytes_ok _ _ _) (conj eq_refl Hs)).
Qed.

(** Every [IdentityBundle] object: a constructed draft and constructed proofs,
    sorted and with distinct signers. *)
Record wf_bundle (b : identity_bundle) : Prop := {
  wf_bundle_draft : wf_draft (bundle_draft b);
  wf_bundle_proofs : Forall proof_ok (bundle_proofs b);
  wf_bundle_sorted : StronglySorted (key_le _proof_order) (bundle_proofs b);
  wf_bundle_distinct : NoDup (proof_signer_id <$> bundle_proofs b);
}.

Lemma bundle_construct d ps :
  StronglySorted (key_le _proof_order) ps -> NoDup (proof_signer_id <$> ps) ->
  IdentityBundle d ps = Ok (MkBundle d ps).
Proof.
  intros Hs Hn. unfold IdentityBundle, distinct_signers. rewrite sort_by_id by done.
  by rewrite !bool_decide_eq_true_2.
Qed.

Lemma bundle_proofs_plain ps :
  Forall proof_ok ps -> forallb cbor_plain (bundle_proof_value <$> ps) = true.
Proof.
  induction 1 as [|[[s|] k sg] ps [Hid _ _] _ IH]; [done|..]; rewrite fmap_cons; cbn [forallb]; rewrite IH;
    cbn in Hid |- *; [|done]. by destruct (Hid s eq_refl) as (_ & b & -> & _).
Qed.

Lemma bundle_proofs_read ps :
  Forall proof_ok ps ->
  res_map bundle_proof_from (bundle_proof_value <$> ps) = Ok ps.
Proof.
  intros Hps. apply res_map_ok, Forall2_fmap_l. apply Forall_Forall2_diag.
  eapply Forall_impl; [exact Hps|]. intros p Hp. unfold bundle_proof_from. cbn -[IdentityProof].
  by apply identity_proof_ok.
Qed.

(** C6. Bundle exchange round trip: every bundle (and with it its draft, predecessor
    history and proofs) has a canonical CBOR form that [IdentityBundle.from_cbor] reads
    back to exactly that bundle, re-running every validation. *)
Theorem bundle_roundtrip b :
  wf_bundle b -> exists data, bundle_to_cbor b = Ok data /\ bundle_from_cbor (PBytes data) = Ok b.
Proof.
  destruct b as [d ps]. intros [Hd Hps Hs Hn]. simpl in *.
  destruct (cbor_roundtrip _ (draft_value_plain d)) as (db & Hdb & _).
  set (v := py_dict [(1, PInt 2); (2, PBytes db); (3, PList (bundle_proof_value <$> ps))]).
  assert (cbor_plain v = true) as Hv by (unfold v; cbn -[forallb]; cbn [forallb snd]; by simpl; rewrite bundle_proofs_plain).
  destruct (cbor_roundtrip _ Hv) as (data & Hdata & _). exists data. split.
  - unfold bundle_to_cbor, draft_to_cbor, _canonical. simpl. rewrite Hdb. simpl. exact Hdata.
  - unfold bundle_from_cbor. rewrite (require_canonical_dumps _ _ Hv Hdata).
    pose proof (bundle_proofs_read ps Hps) as Hread. unfold v. remember (bundle_proof_value <$> ps) as l.
    cbn -[IdentityBundle draft_from_cbor res_map sort_by]. rewrite Hread. cbn [res_bind].
    rewrite sort_by_id, bool_decide_eq_true_2 by done. cbn [negb].
    rewrite (draft_from_value d db Hd Hdb). cbn [res_bind]. by rewrite bundle_construct.
Qed.
End DraftFacts.
