(* ===== verification/Finalize.v ===== *)
(** Merging and finalizing bundles: [merge] is a commutative, associative union
    of signer sets, and [finalize] returns an envelope exactly when the collected
    proofs authorize the draft; that envelope is one the parser accepts. *)

From S2P Require Import Prelude PyVal Sha256 Interfaces SignedUpdate Envelope EnvelopeFacts Draft DraftFacts.

Open Scope Z_scope.

(** * Merging *)

Lemma id_key_inj s t b :
  utf8_encode s = Some b -> is_Some (utf8_encode t) -> id_key s = id_key t -> s = t.
Proof.
  unfold id_key. intros Hs [b' Ht]. rewrite Hs, Ht. simpl. intros E%byteZ_map_inj. subst b'.
  by eapply utf8_encode_inj.
Qed.

Lemma id_key_nil s b : utf8_encode s = Some b -> id_key s = [] -> s = [].
Proof. intros Hs E. eapply id_key_inj; [done|by exists []|done]. Qed.

(** The sort key tells the signers of constructed proofs apart. *)
Lemma proof_order_inj p q :
  proof_ok p -> proof_ok q -> _proof_order p = _proof_order q -> proof_signer_id p = proof_signer_id q.
Proof.
  unfold _proof_order. intros [Hp _ _] [Hq _ _].
  destruct (proof_signer_id p) as [s|], (proof_signer_id q) as [t|]; simpl; [| | |done].
  - destruct (Hp s eq_refl) as (_ & b & Hs & _), (Hq t eq_refl) as (_ & b' & Ht & _).
    intros E. f_equal. eapply id_key_inj; eauto.
  - destruct (Hp s eq_refl) as (Hne & b & Hs & _). intros E. destruct Hne. by eapply id_key_nil.
  - destruct (Hq t eq_refl) as (Hne & b & Ht & _). intros E. destruct Hne. by eapply id_key_nil.
Qed.

Lemma proof_order_nodup ps :
  Forall proof_ok ps -> NoDup (proof_signer_id <$> ps) -> NoDup (_proof_order <$> ps).
Proof.
  induction 1 as [|p ps Hp Hps IH]; rewrite ?fmap_cons; [constructor|].
  intros [Hni Hn]%NoDup_cons. apply NoDup_cons. split; [|auto].
  intros (q & E & Hq)%list_elem_of_fmap. apply Hni. rewrite Forall_forall in Hps.
  rewrite (proof_order_inj p q); [|done|auto|done]. by apply list_elem_of_fmap_2.
Qed.

(** Two proof collections over one draft can be joined: no signer is in both. *)
Definition joined (d : identity_draft) (ps : list identity_proof) : res identity_bundle :=
  if distinct_signers ps then Ok (MkBundle d (sort_by _proof_order ps)) else Err InvalidIdentityRequest.

Lemma distinct_signers_perm ps qs : Permutation ps qs -> distinct_signers ps = distinct_signers qs.
Proof. intros HP. apply bool_decide_ext. by rewrite HP. Qed.

Lemma merge_joined a b :
  merge a b = if bool_decide (bundle_draft a = bundle_draft b)
              then joined (bundle_draft a) (bundle_proofs a ++ bundle_proofs b)
              else Err InvalidIdentityRequest.
Proof.
  unfold merge, joined. case_bool_decide as Hd; simpl; [|done].
  destruct (distinct_signers (bundle_proofs a ++ bundle_proofs b)) eqn:E; simpl; [|done].
  apply bundle_construct; [apply sort_by_sorted|]. rewrite <-sort_by_perm. by apply bool_decide_eq_true in E.
Qed.

Lemma joined_perm d ps qs :
  Forall proof_ok ps -> Permutation ps qs -> joined d ps = joined d qs.
Proof.
  intros Hps HP. unfold joined. rewrite (distinct_signers_perm _ _ HP).
  destruct (distinct_signers qs) eqn:E; [|done]. do 2 f_equal. apply sort_by_unique; [|done].
  apply proof_order_nodup; [done|]. rewrite HP. by apply bool_decide_eq_true in E.
Qed.

Lemma merge_swap a b :
  Forall proof_ok (bundle_proofs a) -> Forall proof_ok (bundle_proofs b) -> merge a b = merge b a.
Proof.
  intros Ha Hb. rewrite !merge_joined. rewrite (bool_decide_ext _ (bundle_draft b = bundle_draft a)) by done.
  case_bool_decide as E; [|done]. rewrite E. apply joined_perm; [by apply Forall_app|apply Permutation_app_comm].
Qed.

Lemma joined_app_err d ps qs e : joined d ps = Err e -> joined d (ps ++ qs) = Err InvalidIdentityRequest.
Proof.
  unfold joined. destruct (distinct_signers ps) eqn:E; [done|]. intros _.
  destruct (distinct_signers (ps ++ qs)) eqn:E'; [|done].
  apply bool_decide_eq_true in E'. apply bool_decide_eq_false in E. destruct E.
  rewrite fmap_app in E'. by apply NoDup_app in E' as (? & _).
Qed.

Lemma merge_merge a b c :
  Forall proof_ok (bundle_proofs a) -> Forall proof_ok (bundle_proofs b) -> Forall proof_ok (bundle_proofs c) ->
  (let* x := merge a b in merge x c) =
  if bool_decide (bundle_draft a = bundle_draft b /\ bundle_draft a = bundle_draft c)
  then joined (bundle_draft a) ((bundle_proofs a ++ bundle_proofs b) ++ bundle_proofs c)
  else Err InvalidIdentityRequest.
Proof.
  intros Ha Hb Hc. rewrite (merge_joined a b). case_bool_decide as Hab.
  2: { rewrite bool_decide_eq_false_2 by naive_solver. done. }
  rewrite (bool_decide_ext _ (bundle_draft a = bundle_draft c)) by naive_solver.
  destruct (joined (bundle_draft a) (bundle_proofs a ++ bundle_proofs b)) as [x|e] eqn:E; cbn [res_bind].
  - unfold joined in E. destruct (distinct_signers _); [|done]. injection E as <-.
    rewrite merge_joined. cbn [bundle_draft bundle_proofs]. case_bool_decide; [|done].
    symmetry. apply joined_perm; [by rewrite !Forall_app|]. by rewrite <-sort_by_perm.
  - rewrite (joined_app_err _ _ _ _ E). unfold joined in E. case_match; [done|]. injection E as <-.
    by case_bool_decide.
Qed.

Section Merge.
Context `{Cbor} `{Ed25519}.

Lemma joined_wf d ps b :
  wf_draft d -> Forall proof_ok ps -> joined d ps = Ok b -> wf_bundle b.
Proof.
  unfold joined. intros Hd Hps. destruct (distinct_signers ps) eqn:E; [|done]. intros [= <-].
  apply bool_decide_eq_true in E.
  constructor; simpl; [done|by rewrite <-sort_by_perm|apply sort_by_sorted|by rewrite <-sort_by_perm].
Qed.

(** C7. Collecting proofs is order-independent: merging bundles is commutative and
    associative, as results (errors included), and a merged bundle is again a
    well-formed bundle over the same draft holding exactly the proofs of both. *)
Theorem merge_algebra a b c :
  wf_bundle a -> wf_bundle b -> wf_bundle c ->
  merge a b = merge b a /\
  (let* x := merge a b in merge x c) = (let* y := merge b c in merge a y) /\
  (forall x, merge a b = Ok x -> wf_bundle x /\ bundle_draft x = bundle_draft a /\
     Permutation (bundle_proofs x) (bundle_proofs a ++ bundle_proofs b)).
Proof.
  intros [Hda Ha _ _] [_ Hb _ _] [_ Hc _ _]. split; [by apply merge_swap|]. split.
  - rewrite merge_merge by done. transitivity (let* y := merge b c in merge y a).
    + rewrite merge_merge by done. case_bool_decide as E1.
      * destruct E1 as [<- <-]. rewrite bool_decide_eq_true_2 by done.
        apply joined_perm; [by rewrite !Forall_app|]. rewrite <-app_assoc. apply Permutation_app_comm.
      * rewrite bool_decide_eq_false_2; [done|]. intros [E2 E3]. apply E1. split; congruence.
    + destruct (merge b c) as [y|] eqn:E; [|done]. rewrite merge_joined in E. case_bool_decide; [|done].
      unfold joined in E. destruct (distinct_signers _); [|done]. injection E as <-.
      cbn [res_bind]. apply merge_swap; [|done]. cbn. rewrite <-sort_by_perm. by apply Forall_app.
  - intros x. rewrite merge_joined. case_bool_decide; [|done]. intros Hx.
    split; [eapply joined_wf, Hx; [done|by apply Forall_app]|].
    unfold joined in Hx. destruct (distinct_signers _); [|done]. injection Hx as <-. split; [done|]. simpl. by rewrite <-sort_by_perm.
Qed.
End Merge.

(** * Finalization *)

Definition rotation_from_legacy (a : authorization) (prev : option identity_state) : bool :=
  (auth_operation a =? 5) && match prev with Some p => is_legacy p | None => false end.

(** The signer set whose proofs count for a version-1 draft. *)
Definition authorizing_set (a : authorization) (prev : option identity_state) : list (pystr * bytes) :=
  if (auth_operation a =? 3) || (auth_operation a =? 5)
  then match prev with Some p => st_signer_set p | None => [] end
  else auth_signers a.

Section Finalize.
Context `{Cbor} `{Ed25519}.

(** [p] is a valid proof of a member of [signers]. *)
Definition member_proof (signers : list (pystr * bytes)) (update : bytes) (p : identity_proof) : Prop :=
  exists s, proof_signer_id p = Some s /\ signer_key signers s = Some (proof_signer_public_key p) /\
    signed (proof_signer_public_key p) update (proof_signature p).

(** [p] is the anonymous proof of [key]. *)
Definition owner_proof (key update : bytes) (p : identity_proof) : Prop :=
  proof_signer_id p = None /\ proof_signer_public_key p = key /\ signed key update (proof_signature p).

(** The collected proofs authorize a draft with fields [f] over [prev]. *)
Inductive authorizes (f : draft_fields) (prev : option identity_state) (update : bytes)
    : list identity_proof -> Prop :=
  | authorizes_legacy p :
      df_authorization f = None -> owner_proof (df_owner_public_key f) update p ->
      authorizes f prev update [p]
  | authorizes_legacy_rotation a st p :
      df_authorization f = Some a -> prev = Some st -> auth_operation a = 5 -> is_legacy st = true ->
      owner_proof (st_owner_public_key st) update p ->
      authorizes f prev update [p]
  | authorizes_upgrade a p :
      df_authorization f = Some a -> auth_operation a = 4 -> member_proof (auth_signers a) update p ->
      proof_signer_public_key p = df_owner_public_key f ->
      authorizes f prev update [p]
  | authorizes_quorum a ps :
      df_authorization f = Some a -> auth_operation a <> 4 -> rotation_from_legacy a prev = false ->
      Forall (member_proof (authorizing_set a prev) update) ps ->
      auth_threshold a <= Z.of_nat (length ps) ->
      authorizes f prev update ps.

Definition proof_pair (p : identity_proof) : option pystr * bytes := (proof_signer_id p, proof_signature p).

Lemma verify_bundle_ok key update sig u :
  _verify_bundle_signature key update sig = Ok u <-> signed key update sig.
Proof.
  unfold _verify_bundle_signature, _verify_signature, signed. destruct u, (ed_verify _ _ _); split; done.
Qed.

Definition signer_ids (ps : list identity_proof) : gset pystr := list_to_set (omap proof_signer_id ps).

Lemma signer_ids_cons p ps s : proof_signer_id p = Some s -> signer_ids (p :: ps) = {[s]} ∪ signer_ids ps.
Proof. intros E. unfold signer_ids. simpl. by rewrite E. Qed.

Lemma finalize_members_ok keys update acc ps :
  Forall (member_proof keys update) ps ->
  finalize_proofs None keys update acc ps = Ok (signer_ids ps ∪ acc, proof_pair <$> ps).
Proof.
  intros Hps. revert acc. induction Hps as [|p ps (s & Es & Ek & Hs) _ IH]; intros acc.
  - cbn. do 2 f_equal. unfold signer_ids. simpl. set_solver.
  - cbn [finalize_proofs]. rewrite Es, Ek, bool_decide_eq_true_2 by done. cbn [negb].
    rewrite (proj2 (verify_bundle_ok _ _ _ tt) Hs). cbn [res_bind]. rewrite IH. cbn [res_bind fst snd].
    rewrite fmap_cons, (signer_ids_cons _ _ _ Es). unfold proof_pair at 2. rewrite Es. do 2 f_equal. set_solver.
Qed.

Lemma finalize_members_inv keys update acc ps r :
  finalize_proofs None keys update acc ps = Ok r -> Forall (member_proof keys update) ps.
Proof.
  revert acc r. induction ps as [|p ps IH]; intros acc r; [constructor|]. cbn [finalize_proofs]. intros Hf.
  destruct (proof_signer_id p) as [s|] eqn:Es; [|done]. destruct (signer_key keys s) as [k|] eqn:Ek; [|done].
  case_bool_decide as E; [|done]. subst k. cbn [negb] in Hf.
  apply res_bind_ok in Hf as (u & Hs%verify_bundle_ok & Hf). apply res_bind_ok in Hf as (r' & Hr & _).
  constructor; [by exists s|]. by eapply IH.
Qed.

Lemma finalize_owner_ok key update acc p :
  (exists r, finalize_proofs (Some key) [] update acc [p] = Ok r) <-> owner_proof key update p.
Proof.
  unfold owner_proof. cbn [finalize_proofs]. split.
  - intros [r Hf]. destruct (proof_signer_id p) eqn:Ei; simpl in Hf; [done|]. case_bool_decide as E; [|done].
    simpl in Hf. apply res_bind_ok in Hf as (u & Hs%verify_bundle_ok & _). by rewrite <-E.
  - intros (-> & <- & Hs). rewrite (bool_decide_eq_true_2 (_ = _)) by done. cbn.
    rewrite (proj2 (verify_bundle_ok _ _ _ tt) Hs). cbn. eauto.
Qed.

Lemma signer_ids_size ps :
  Forall (fun p => is_Some (proof_signer_id p)) ps -> NoDup (proof_signer_id <$> ps) ->
  size (signer_ids ps) = length ps.
Proof.
  intros Hps Hn. unfold signer_ids.
  assert (proof_signer_id <$> ps = Some <$> omap proof_signer_id ps) as E.
  { clear Hn. induction Hps as [|p ps [s Hs] _ IH]; [done|]. rewrite fmap_cons, IH. simpl. by rewrite Hs. }
  rewrite E in Hn. rewrite size_list_to_set by (by apply NoDup_fmap_1 in Hn).
  by rewrite <-(length_fmap Some), <-E, length_fmap.
Qed.

Lemma member_proof_some keys update ps :
  Forall (member_proof keys update) ps -> Forall (fun p => is_Some (proof_signer_id p)) ps.
Proof. intros Hps. eapply Forall_impl; [exact Hps|]. intros p (s & -> & _). eauto. Qed.

Lemma members_verify keys update ps acc :
  Forall (member_proof keys update) ps ->
  verify_proofs keys update acc (proof_pair <$> ps) = Ok (signer_ids ps ∪ acc).
Proof.
  intros Hps. revert acc. induction Hps as [|p ps (s & Es & Ek & Hs) _ IH]; intros acc.
  - simpl. f_equal. unfold signer_ids. set_solver.
  - rewrite fmap_cons, (signer_ids_cons _ _ _ Es). unfold proof_pair at 1. rewrite Es.
    cbn [verify_proofs]. rewrite Ek, (proj2 (verify_signature_ok _ _ _ tt) Hs). cbn [res_bind].
    rewrite IH. f_equal. set_solver.
Qed.

Lemma bundle_proofs_wf b : wf_bundle b -> proofs_wf (proof_pair <$> bundle_proofs b).
Proof.
  intros [_ Hok Hs Hn]. constructor.
  - apply Forall_fmap. eapply Forall_impl; [exact Hok|]. intros p [Hid _ Hsig]. constructor; simpl; [|..|done].
    + intros E. by destruct (Hid _ E).
    + intros s E. destruct (Hid _ E) as (_ & x & -> & _). eauto.
  - by rewrite <-list_fmap_compose.
  - clear -Hs. induction Hs as [|p ps Hps IH Hp]; [constructor|]. rewrite fmap_cons.
    constructor; [done|]. by apply Forall_fmap.
Qed.

(** A draft's fields, predecessor and the rules they satisfy. *)
Record draft_context (d : identity_draft) (f : draft_fields) (prev : option identity_state) : Prop := {
  dc_view : draft_view d = Ok f;
  dc_decode : _decode_signed_update (PBytes (draft_signed_update_bytes d)) =
    Ok (SignedUpdate (PBytes (df_owner_name f)) (PBytes (df_owner_public_key f)) [] (df_sequence f)
          (df_authorization f));
  dc_previous : _draft_previous_state d = Ok prev;
  dc_key : length (df_owner_public_key f) = _KEY_LENGTH;
  dc_transition : _validate_draft_transition (df_owner_name f) (df_owner_public_key f) (df_sequence f)
    (df_authorization f) prev = Ok tt;
}.

Lemma wf_draft_context d : wf_draft d -> exists f prev, draft_context d f prev.
Proof.
  intros (f & prev & _ & _ & _ & Hv & Hp & _ & Hk & Ht)%draft_construct_inv. exists f, prev.
  constructor; try done. unfold draft_view in Hv. apply res_bind_ok in Hv as (su & Hsu & Hv).
  pose proof (decode_signed_update_wf _ _ Hsu) as [Hpl _ _]. destruct su as [n k pl sq oa].
  simpl in *. subst pl. destruct n; try done. destruct k; try done. injection Hv as <-. exact Hsu.
Qed.

Lemma proof_values_plain l :
  Forall proof_wf l -> forallb cbor_plain (proof_to_py <$> l) = true.
Proof.
  induction 1 as [|[[s|] sig] l [_ Hu _] _ IH]; [done|..]; rewrite fmap_cons; cbn [forallb]; rewrite IH;
    cbn; [|done]. by destruct (Hu s eq_refl) as [b ->].
Qed.

Definition envelope_value (update : bytes) (pl : list (option pystr * bytes)) : pyval :=
  py_dict [(1, PInt 1); (2, PBytes update); (3, PList (proof_to_py <$> pl))].

Lemma envelope_value_plain update pl : proofs_wf pl -> cbor_plain (envelope_value update pl) = true.
Proof.
  intros [Hw _ _]. unfold envelope_value. pose proof (proof_values_plain pl Hw) as Hp.
  remember (proof_to_py <$> pl) as l. cbn -[forallb]. cbn [forallb snd cbor_plain]. by rewrite Hp.
Qed.

Context `{!CborLaws}.

Lemma require_bytes_any b : _require_bytes None false (PBytes b) = Ok b.
Proof. done. Qed.

(** The parser on a freshly encoded version-1 envelope. *)
Lemma parse_encoded_versioned d f prev a pl env :
  draft_context d f prev -> df_authorization f = Some a -> proofs_wf pl ->
  cbor_dumps (envelope_value (draft_signed_update_bytes d) pl) = Ok env ->
  check_proofs (PBytes (df_owner_public_key f)) (df_sequence f) (draft_signed_update_bytes d) a prev pl = Ok tt ->
  exists st, _parse_identity_envelope (df_owner_name f) (PBytes env) prev = Ok st /\
    st_signed_update_bytes st = draft_signed_update_bytes d.
Proof.
  intros [_ Hdec _ Hk Ht] Ha Hpl Henv Hc. rewrite Ha in Hdec, Ht.
  apply draft_transition_sound in Ht as [Hr%check_operation_complete _].
  unfold _parse_identity_envelope.
  rewrite (require_canonical_dumps _ _ (envelope_value_plain _ _ Hpl) Henv). cbn [res_bind].
  pose proof (validate_proof_list_py pl Hpl) as Hv. unfold envelope_value.
  remember (proof_to_py <$> pl) as l. cbn -[parse_versioned_envelope].
  unfold parse_versioned_envelope. cbn -[_decode_signed_update check_operation check_proofs _validate_proof_list _require_bytes].
  rewrite require_bytes_any. cbn [res_bind]. rewrite Hdec. cbn -[check_operation check_proofs _validate_proof_list _require_bytes].
  rewrite bool_decide_eq_true_2 by done. cbn -[check_operation check_proofs _validate_proof_list _require_bytes].
  rewrite Hr. cbn [res_bind]. rewrite Hv. cbn [res_bind]. rewrite Hc. cbn [res_bind].
  rewrite (proj2 (require_bytes_ok _ _ _) (conj eq_refl Hk)). cbn [res_bind]. by eexists.
Qed.

Lemma parse_encoded_legacy d f prev sig env :
  draft_context d f prev -> df_authorization f = None -> length sig = _SIGNATURE_LENGTH ->
  signed (df_owner_public_key f) (draft_signed_update_bytes d) sig ->
  _legacy_envelope (draft_signed_update_bytes d) sig = Ok env ->
  exists st, _parse_identity_envelope (df_owner_name f) (PBytes env) prev = Ok st /\
    st_signed_update_bytes st = draft_signed_update_bytes d.
Proof.
  intros [_ Hdec _ Hk _] Ha Hl Hs Henv. rewrite Ha in Hdec.
  unfold _parse_identity_envelope. erewrite require_canonical_dumps; [| |exact Henv]; [|done].
  cbn -[parse_legacy_envelope]. unfold parse_legacy_envelope.
  cbn -[_decode_signed_update _require_bytes]. rewrite require_bytes_any.
  cbn [res_bind]. rewrite (proj2 (require_bytes_ok _ _ _) (conj eq_refl Hl)). cbn [res_bind].
  rewrite Hdec. cbn -[_require_bytes _verify_signature]. rewrite bool_decide_eq_true_2 by done.
  cbn -[_require_bytes _verify_signature].
  rewrite (proj2 (require_bytes_ok _ _ _) (conj eq_refl Hk)). cbn [res_bind].
  rewrite (proj2 (verify_signature_ok _ _ _ tt) Hs). cbn [res_bind]. by eexists.
Qed.

(** The parser checks a quorum against the same signer set as [finalize]. *)
Lemma verification_set owner key seq a prev :
  operation_rule owner key seq a prev ->
  (if (auth_operation a =? 2) || (auth_operation a =? 3) || (auth_operation a =? 5)
   then match prev with Some p => st_signer_set p | None => [] end
   else auth_signers a) = authorizing_set a prev.
Proof.
  intros Hr. unfold authorizing_set. destruct Hr as [Hop|? Hop|p Hop _ _ _ (_ & _ & Hg)|p Hop|p Hop|p k Hop];
    rewrite Hop; cbn; done.
Qed.

Lemma authorizes_check f prev update ps a :
  df_authorization f = Some a ->
  operation_rule (df_owner_name f) (PBytes (df_owner_public_key f)) (df_sequence f) a prev ->
  upgrade_rule (df_owner_name f) (df_owner_public_key f) (df_sequence f) a prev ->
  NoDup (proof_signer_id <$> ps) -> authorizes f prev update ps ->
  check_proofs (PBytes (df_owner_public_key f)) (df_sequence f) update a prev (proof_pair <$> ps) = Ok tt.
Proof.
  intros Ha Hr Hu Hn Hps.
  destruct Hps as [|a' st p Ha' -> Hop Hl (Hid & _ & Hs)|a' p Ha' Hop Hm Hk|a' ps Ha' Hop Hrl Hm Hthr];
    [congruence|rewrite Ha in Ha'; injection Ha' as <-..]; unfold check_proofs.
  - rewrite Hop, Hl. cbn. rewrite Hid. by apply verify_signature_ok.
  - destruct (Hu Hop) as (st & -> & Hl & (_ & Hh & Hseq) & Hkey & _).
    pose proof (members_verify (auth_signers a) update [p] ∅ ltac:(by constructor)) as Hv.
    assert (check_upgrade (PBytes (df_owner_public_key f)) (df_sequence f) a (Some st) (proof_pair <$> [p]) = Ok tt) as Hcu.
    { destruct Hm as (s & Hid & Hsk & _). cbn -[bool_decide Z.eqb]. rewrite Hid. cbn [signer_key_opt]. rewrite Hsk, Hk.
      cbn -[bool_decide Z.eqb]. rewrite Hl. by solve_guards. }
    rewrite Hop, Hcu. cbn -[verify_proofs fmap]. rewrite Hv. cbn [res_bind].
    rewrite union_empty_r_L, signer_ids_size; [done|by eapply member_proof_some; constructor|done].
  - rewrite (proj2 (Z.eqb_neq _ 4) Hop). cbn [res_bind]. fold (rotation_from_legacy a prev). rewrite Hrl.
    rewrite (verification_set _ _ _ _ _ Hr), (members_verify _ _ _ _ Hm). cbn [res_bind].
    rewrite union_empty_r_L, signer_ids_size by (done || by eapply member_proof_some).
    rewrite (proj2 (Z.ltb_ge _ _)) by done. by destruct prev.
Qed.

(** The version-1 branch of [finalize] encodes the proofs exactly when they
    authorize the draft. *)
Lemma finalize_versioned_ok f prev update ps a :
  df_authorization f = Some a -> 1 <= auth_threshold a -> NoDup (proof_signer_id <$> ps) ->
  operation_rule (df_owner_name f) (PBytes (df_owner_public_key f)) (df_sequence f) a prev ->
  authorizes f prev update ps ->
  finalize_versioned update (df_owner_public_key f) a prev ps =
    cbor_dumps (envelope_value update (proof_pair <$> ps)).
Proof.
  intros Ha Ht Hn Hr Hps. unfold finalize_versioned, _canonical.
  destruct Hps as [|a' st p Ha' -> Hop Hl Hp|a' p Ha' Hop Hm Hk|a' ps Ha' Hop Hrl Hm Hthr];
    [congruence|rewrite Ha in Ha'; injection Ha' as <-..].
  - rewrite Hop, Hl. cbn -[finalize_proofs].
    destruct Hp as (Hid & Hk & Hs). cbn. rewrite Hid. cbn -[bool_decide]. rewrite (bool_decide_eq_true_2 (_ = _)) by done.
    cbn. rewrite Hk. rewrite (proj2 (verify_bundle_ok _ _ _ tt) Hs). cbn. unfold proof_pair. by rewrite Hid.
  - rewrite Hop. assert (Forall (member_proof (auth_signers a) update) [p]) as Hf by (by constructor).
    replace (match prev with Some p => if (4 =? 5) && is_legacy p then Some (st_owner_public_key p) else None | None => None end)
      with (@None bytes) by (by destruct prev). cbn -[finalize_proofs size].
    rewrite (finalize_members_ok _ _ _ _ Hf). cbn -[size fmap signer_ids union].
    rewrite union_empty_r_L, signer_ids_size by (done || by eapply member_proof_some).
    rewrite bool_decide_eq_true_2 by done. done.
  - replace (match prev with Some p => if (auth_operation a =? 5) && is_legacy p then Some (st_owner_public_key p) else None | None => None end)
      with (@None bytes).
    2: { unfold rotation_from_legacy in Hrl. destruct prev; [|done]. by rewrite Hrl. }
    cbn -[finalize_proofs size]. rewrite andb_true_r, (proj2 (Z.eqb_neq _ 4) Hop).
    transitivity (let* r := finalize_proofs None (authorizing_set a prev) update ∅ ps in
      let* _ := (raise_if Z.of_nat (size r.1) <? auth_threshold a with InvalidIdentityRequest; Ok tt) in
      cbor_dumps (envelope_value update r.2)).
    + unfold authorizing_set. destruct Hr as [E|? E|p E|p E Hl|p E Hl|p k E Hl]; rewrite E; cbn -[finalize_proofs];
        try rewrite Hl; try done.
      unfold rotation_from_legacy in Hrl. rewrite E, Hl in Hrl. done.
    + rewrite (finalize_members_ok _ _ _ _ Hm). cbn [res_bind fst snd].
      rewrite union_empty_r_L, signer_ids_size by (done || by eapply member_proof_some).
      rewrite (proj2 (Z.ltb_ge _ _)) by done. done.
Qed.

Lemma finalize_versioned_inv f prev update ps a env :
  df_authorization f = Some a -> NoDup (proof_signer_id <$> ps) ->
  finalize_versioned update (df_owner_public_key f) a prev ps = Ok env -> authorizes f prev update ps.
Proof.
  intros Ha Hn Hf. unfold finalize_versioned in Hf.
  destruct (rotation_from_legacy a prev) eqn:Hrl; unfold rotation_from_legacy in Hrl.
  - apply andb_prop in Hrl as [Hop Hl]. destruct prev as [st|]; [|done]. rewrite Hop, Hl in Hf.
    cbn -[finalize_proofs] in Hf. apply Z.eqb_eq in Hop. rewrite Hop in Hf. cbn -[finalize_proofs] in Hf.
    apply res_bind_ok in Hf as (r & Hr & Hf). destruct ps as [|p [|]]; try done.
    eapply authorizes_legacy_rotation; try done. apply (finalize_owner_ok _ _ ∅). eauto.
  - assert (exists r, finalize_proofs None (authorizing_set a prev) update ∅ ps = Ok r /\
      (if auth_operation a =? 4 then
         match ps with
         | [p] => raise_if negb (size r.1 =? 1)%nat || negb (bool_decide (proof_signer_public_key p = df_owner_public_key f))
                    with InvalidIdentityRequest; Ok tt
         | _ => Err InvalidIdentityRequest
         end
       else raise_if Z.of_nat (size r.1) <? auth_threshold a with InvalidIdentityRequest; Ok tt) = Ok tt)
      as (r & Hr & Hc).
    { replace (match prev with Some p => if (auth_operation a =? 5) && is_legacy p then Some (st_owner_public_key p) else None | None => None end)
        with (@None bytes) in Hf by (destruct prev; [by rewrite Hrl|done]).
      cbn -[finalize_proofs] in Hf. rewrite andb_true_r in Hf.
      apply res_bind_ok in Hf as (keys & Hkeys & Hf). apply res_bind_ok in Hf as (r & Hr & Hf).
      apply res_bind_ok in Hf as ([] & Hc & _). exists r. split; [|done]. unfold authorizing_set.
      destruct ((auth_operation a =? 3) || (auth_operation a =? 5)); [|by injection Hkeys as <-]. destruct prev as [st|]; [|done].
      destruct (is_legacy st); [done|]. by injection Hkeys as <-. }
    pose proof (finalize_members_inv _ _ _ _ _ Hr) as Hm. rewrite (finalize_members_ok _ _ _ _ Hm) in Hr.
    injection Hr as <-. cbn [fst] in Hc. clear Hf.
    destruct (Z.eqb_spec (auth_operation a) 4) as [Hop|Hop].
    + destruct ps as [|p [|]]; try done. rewrite union_empty_r_L, signer_ids_size in Hc by (done || by eapply member_proof_some).
      cbn -[bool_decide] in Hc. case_bool_decide; [|done]. eapply authorizes_upgrade; try done.
      inversion Hm as [|? ? Hm1 _]; subst. unfold authorizing_set in Hm1. rewrite Hop in Hm1. exact Hm1.
    + rewrite union_empty_r_L, signer_ids_size in Hc by (done || by eapply member_proof_some).
      case_match eqn:E; [done|]. bool_hyps. by eapply authorizes_quorum.
Qed.

Lemma authorizes_nonempty f prev update ps :
  (forall a, df_authorization f = Some a -> 1 <= auth_threshold a) -> authorizes f prev update ps -> ps <> [].
Proof. intros Ht [| | |a l Ha _ _ _ Hl]; try done. intros ->. specialize (Ht a Ha). simpl in Hl. lia. Qed.

Lemma finalize_complete b f prev :
  wf_bundle b -> draft_context (bundle_draft b) f prev ->
  authorizes f prev (draft_signed_update_bytes (bundle_draft b)) (bundle_proofs b) ->
  exists env st, finalize b = Ok env /\ _parse_identity_envelope (df_owner_name f) (PBytes env) prev = Ok st /\
    st_signed_update_bytes st = draft_signed_update_bytes (bundle_draft b).
Proof.
  intros Hb Hc Hau. pose proof (bundle_proofs_wf b Hb) as Hpw. destruct Hb as [_ Hok _ Hn]. destruct b as [d ps].
  cbn [bundle_draft bundle_proofs] in *.
  pose proof (decode_signed_update_wf _ _ (dc_decode _ _ _ Hc)) as [_ _ Haw]. cbn in Haw.
  assert (forall a, df_authorization f = Some a -> 1 <= auth_threshold a) as Hthr
    by (intros a Ha; apply Haw in Ha as []; lia).
  pose proof (authorizes_nonempty _ _ _ _ Hthr Hau) as Hne.
  unfold finalize. cbn [bundle_draft bundle_proofs]. rewrite (dc_previous _ _ _ Hc), (dc_view _ _ _ Hc). cbn [res_bind].
  destruct (Nat.eqb_spec (length ps) 0) as [E|_]; [by apply length_zero_iff_nil in E|].
  destruct (df_authorization f) as [a|] eqn:Ha.
  - pose proof (dc_transition _ _ _ Hc) as Ht. rewrite Ha in Ht. apply draft_transition_sound in Ht as [Hr Hu].
    rewrite (finalize_versioned_ok f prev _ ps a) by auto.
    destruct (cbor_roundtrip _ (envelope_value_plain (draft_signed_update_bytes d) _ Hpw)) as (env & Henv & _).
    rewrite Henv. cbn [res_bind].
    destruct (parse_encoded_versioned d f prev a _ env Hc Ha Hpw Henv) as (st & Hst & Hu').
    { by apply authorizes_check. }
    rewrite Hst. eauto.
  - destruct Hau as [p _ (Hid & Hk & Hs)| | |]; try congruence.
    rewrite Hid, Hk, (bool_decide_eq_true_2 (_ = _)) by done. cbn [negb orb].
    rewrite (proj2 (verify_bundle_ok _ _ _ tt) Hs). cbn -[_legacy_envelope _parse_identity_envelope].
    destruct (cbor_roundtrip (py_dict [(1, PBytes (draft_signed_update_bytes d)); (2, PBytes (proof_signature p))]) eq_refl)
      as (env & Henv & _).
    change (_legacy_envelope (draft_signed_update_bytes d) (proof_signature p) = Ok env) in Henv. rewrite Henv. cbn [res_bind].
    apply Forall_singleton in Hok as [_ _ Hl].
    destruct (parse_encoded_legacy d f prev _ env Hc Ha Hl Hs Henv) as (st & Hst & Hu). rewrite Hst. eauto.
Qed.

Lemma finalize_inv b f prev env :
  wf_bundle b -> draft_context (bundle_draft b) f prev -> finalize b = Ok env ->
  authorizes f prev (draft_signed_update_bytes (bundle_draft b)) (bundle_proofs b).
Proof.
  intros [_ Hok _ Hn] Hc. destruct b as [d ps]. unfold finalize. cbn [bundle_draft bundle_proofs] in *.
  rewrite (dc_previous _ _ _ Hc), (dc_view _ _ _ Hc). cbn [res_bind]. case_match; [done|].
  intros Hf. apply res_bind_ok in Hf as (e & He & _). destruct (df_authorization f) as [a|] eqn:Ha.
  - by eapply finalize_versioned_inv.
  - destruct ps as [|p [|]]; try done. destruct (proof_signer_id p) eqn:Hid; [done|].
    rewrite (bool_decide_eq_false_2 (is_Some None)) in He by (by intros [? [=]]).
    destruct (bool_decide_reflect (proof_signer_public_key p = df_owner_public_key f)) as [Hk|]; [|done].
    cbn [negb orb] in He.
    apply res_bind_ok in He as (u & Hs%verify_bundle_ok & _). apply authorizes_legacy; [done|].
    split; [done|]. split; [done|]. by rewrite <-Hk.
Qed.

(** C8. [IdentityBundle.finalize] succeeds exactly when the collected proofs authorize
    the draft: the owner's anonymous proof for a legacy update or a rotation away from
    a legacy state, the owner's own signer entry for an upgrade, and otherwise
    threshold-many valid proofs of distinct members of the authorizing signer set
    (the predecessor's set for replacement and rotation) and no foreign proof.  The
    envelope it then returns is one the parser accepts over the draft's verified
    predecessor, carrying the draft's signed bytes unchanged. *)
Theorem finalize_exact b :
  wf_bundle b -> exists f prev,
    draft_view (bundle_draft b) = Ok f /\ _draft_previous_state (bundle_draft b) = Ok prev /\
    let update := draft_signed_update_bytes (bundle_draft b) in
    (authorizes f prev update (bundle_proofs b) -> exists env st, finalize b = Ok env /\
       _parse_identity_envelope (df_owner_name f) (PBytes env) prev = Ok st /\
       st_signed_update_bytes st = update) /\
    (forall env, finalize b = Ok env -> authorizes f prev update (bundle_proofs b)).
Proof.
  intros Hb. destruct (wf_draft_context _ (wf_bundle_draft _ Hb)) as (f & prev & Hc). exists f, prev.
  split; [apply Hc|]. split; [apply Hc|]. split; [by apply finalize_complete|].
  intros env. by apply finalize_inv.
Qed.
End Finalize.
