(* ===== verification/Consent.v ===== *)
(** Consent: transcripts shown to the user, decisions, status labels, and the
    replay-nonce store (identity.py, [ConsentDecision] to [ConsentTranscript],
    [_normalize_consent], [InMemoryReplayNonceStore]). *)

From S2P Require Import Prelude PyVal Sha256 Interfaces SignedUpdate.

Open Scope Z_scope.

Inductive ConsentDecision := APPROVED | DENIED | CANCELLED | EXPIRED | FAILED.

#[global] Instance consent_decision_eq_decision : EqDecision ConsentDecision.
Proof. solve_decision. Defined.

(** [decision.value] *)
Definition decision_value (d : ConsentDecision) : pystr :=
  match d with
  | APPROVED => py "approved" | DENIED => py "denied" | CANCELLED => py "cancelled"
  | EXPIRED => py "expired" | FAILED => py "failed"
  end.

(** [ConsentDecision(value)]: members are strings, so a member or its value
    selects it; anything else raises [ValueError] or [TypeError]. *)
Definition _normalize_consent (value : pyval) : ConsentDecision :=
  match value with
  | PStr s =>
      if bool_decide (s = py "approved") then APPROVED
      else if bool_decide (s = py "denied") then DENIED
      else if bool_decide (s = py "cancelled") then CANCELLED
      else if bool_decide (s = py "expired") then EXPIRED
      else FAILED
  | _ => FAILED
  end.

Inductive PublishStatus :=
  | st_READY | st_CONFIRMED | st_PROOF_READY | st_UNKNOWN | st_FAILED | st_STALE
  | st_DENIED | st_CANCELLED | st_EXPIRED.

#[global] Instance publish_status_eq_decision : EqDecision PublishStatus.
Proof. solve_decision. Defined.

Record consent_transcript := MkTranscript {
  tr_authenticated_origin : pystr;
  tr_environment : pystr;
  tr_operation : pystr;
  tr_payload_hash : bytes;
  tr_purpose : pystr;
  tr_capability : pystr;
  tr_expires_at : Z;
  tr_replay_nonce : bytes;
  tr_sequence : Z;
  tr_generation : option Z;
  tr_review_payload : bytes;
  tr_signer_id : option pystr;
  tr_signer_public_key : option bytes;
}.

#[global] Instance consent_transcript_eq_decision : EqDecision consent_transcript.
Proof. solve_decision. Defined.

Definition require_text (value : pyval) : res pystr :=
  match value with
  | PStr s => raise_if bool_decide (s = []) with InvalidIdentityRequest; Ok s
  | _ => Err InvalidIdentityRequest
  end.

(** [ConsentTranscript(...)]; the generation, the reviewed bytes and their hash come
    from validated values and are typed. *)
Definition ConsentTranscript (authenticated_origin environment operation : pyval) (payload_hash : bytes)
    (purpose capability expires_at replay_nonce : pyval) (sequence : Z) (generation : option Z)
    (review_payload : bytes) (signer_id : option pystr) (signer_public_key : option bytes)
    : res consent_transcript :=
  let* origin := require_text authenticated_origin in
  let* env := require_text environment in
  let* op := require_text operation in
  let* purp := require_text purpose in
  let* cap := require_text capability in
  let* exp := _require_uint expires_at in
  let* seq := _require_uint (PInt sequence) in
  let* hash := _require_bytes (Some _KEY_LENGTH) false (PBytes payload_hash) in
  let* nonce := _require_bytes None true replay_nonce in
  let* gen :=
    match generation with
    | Some g => let* g' := _require_uint (PInt g) in Ok (Some g')
    | None => Ok None
    end in
  let* id :=
    match signer_id with
    | Some s => let* s' := require_text (PStr s) in Ok (Some s')
    | None => Ok None
    end in
  let* key :=
    match signer_public_key with
    | Some k => let* k' := _require_bytes (Some _KEY_LENGTH) false (PBytes k) in Ok (Some k')
    | None => raise_if bool_decide (is_Some signer_id) with InvalidIdentityRequest; Ok None
    end in
  let* review := _require_bytes None true (PBytes review_payload) in
  raise_if negb (bool_decide (sha256 review = hash)) with InvalidIdentityRequest;
  Ok (MkTranscript origin env op hash purp cap exp nonce seq gen review id key).

(** The dict [canonical_bytes] encodes: absent optional fields have no key. *)
Definition transcript_value (t : consent_transcript) : pyval :=
  py_dict ([(1, PStr (tr_authenticated_origin t)); (2, PStr (tr_environment t)); (3, PStr (tr_operation t));
            (4, PBytes (tr_payload_hash t)); (5, PStr (tr_purpose t)); (6, PStr (tr_capability t));
            (7, PInt (tr_expires_at t)); (8, PBytes (tr_replay_nonce t)); (9, PInt (tr_sequence t))] ++
           match tr_generation t with Some g => [(10, PInt g)] | None => [] end ++
           match tr_signer_id t with Some s => [(11, PStr s)] | None => [] end ++
           match tr_signer_public_key t with Some k => [(12, PBytes k)] | None => [] end ++
           [(13, PBytes (tr_review_payload t))]).

Section Transcript.
Context `{Cbor}.

Definition canonical_bytes (t : consent_transcript) : res bytes := cbor_dumps (transcript_value t).

Definition transcript_digest (t : consent_transcript) : res bytes :=
  let* b := canonical_bytes t in Ok (sha256 b).

(** The key of [_reserve_replay_nonce]. *)
Definition replay_key (owner_name : bytes) (t : consent_transcript) : res bytes :=
  let* b := _canonical (py_dict [(1, PBytes owner_name); (2, PStr (tr_authenticated_origin t));
                                 (3, PStr (tr_environment t)); (4, PBytes (tr_replay_nonce t))]) in
  Ok (sha256 b).
End Transcript.

(** [InMemoryReplayNonceStore.consume(key)] on the set of consumed keys. *)
Definition consume (consumed : gset bytes) (key : bytes) : bool * gset bytes :=
  if decide (key ∈ consumed) then (false, consumed) else (true, {[key]} ∪ consumed).

(** * Properties *)

Lemma require_text_ok v s : require_text v = Ok s <-> v = PStr s /\ s <> [].
Proof.
  destruct v as [| | | |x| | | |]; simpl; try (split; [discriminate|by intros [[=] _]]).
  case_bool_decide; split; naive_solver.
Qed.

Lemma require_nonempty_ok v b : _require_bytes None true v = Ok b <-> v = PBytes b /\ b <> [].
Proof.
  destruct v as [| | |x| | | | |]; simpl; try (split; [discriminate|by intros [[=] _]]).
  case_bool_decide; split; naive_solver.
Qed.

(** What a constructed transcript guarantees about what the user is shown. *)
Lemma transcript_fields o e op h p c x n sq g r i k t :
  ConsentTranscript o e op h p c x n sq g r i k = Ok t ->
  (tr_review_payload t = r /\ tr_payload_hash t = sha256 r /\ tr_sequence t = sq /\ tr_generation t = g) /\
  (tr_signer_id t = i /\ tr_signer_public_key t = k /\ x = PInt (tr_expires_at t)) /\
  (op = PStr (tr_operation t) /\ e = PStr (tr_environment t) /\ o = PStr (tr_authenticated_origin t)) /\
  tr_replay_nonce t <> [] /\ n = PBytes (tr_replay_nonce t).
Proof.
  unfold ConsentTranscript. intros Ht.
  apply res_bind_ok in Ht as (o' & [-> _]%require_text_ok & Ht).
  apply res_bind_ok in Ht as (e' & [-> _]%require_text_ok & Ht).
  apply res_bind_ok in Ht as (op' & [-> _]%require_text_ok & Ht).
  apply res_bind_ok in Ht as (p' & [-> _]%require_text_ok & Ht).
  apply res_bind_ok in Ht as (c' & [-> _]%require_text_ok & Ht).
  apply res_bind_ok in Ht as (x' & [-> _]%require_uint_ok & Ht).
  apply res_bind_ok in Ht as (sq' & [[= <-] _]%require_uint_ok & Ht).
  apply res_bind_ok in Ht as (h' & [[= <-] _]%require_bytes_ok & Ht).
  apply res_bind_ok in Ht as (n' & [-> Hn]%require_nonempty_ok & Ht).
  apply res_bind_ok in Ht as (g' & Hg & Ht). apply res_bind_ok in Ht as (i' & Hi & Ht).
  apply res_bind_ok in Ht as (k' & Hk & Ht).
  apply res_bind_ok in Ht as (r' & [[= <-] _]%require_nonempty_ok & Ht).
  destruct (bool_decide_reflect (sha256 r = h)) as [Eh|]; [|done]. injection Ht as <-. simpl.
  assert (g' = g) as ->.
  { destruct g; [|congruence]. apply res_bind_ok in Hg as (? & [? ?]%require_uint_ok & ?). congruence. }
  assert (i' = i) as ->.
  { destruct i; [|congruence]. apply res_bind_ok in Hi as (? & [? ?]%require_text_ok & ?). congruence. }
  assert (k' = k) as ->.
  { destruct k; [|by destruct i; simplify_eq/=]. apply res_bind_ok in Hk as (? & [? ?]%require_bytes_ok & ?). congruence. }
  done.
Qed.

(** Running [consume] over a sequence of keys. *)
Fixpoint consume_all (consumed : gset bytes) (keys : list bytes) : list bool :=
  match keys with
  | [] => []
  | k :: keys' => let r := consume consumed k in r.1 :: consume_all r.2 keys'
  end.

(** A replay key is granted at most once: over any sequence of requests to the
    store, two requests for the same key that are both granted are the same request. *)
Lemma replay_nonce_once consumed keys i j k :
  keys !! i = Some k -> keys !! j = Some k ->
  consume_all consumed keys !! i = Some true -> consume_all consumed keys !! j = Some true -> i = j.
Proof.
  assert (forall keys consumed n k, k ∈ consumed -> keys !! n = Some k -> consume_all consumed keys !! n <> Some true) as Hseen.
  { clear. intros keys. induction keys as [|x keys IH]; intros consumed [|n] k Hk; try done; simpl.
    - intros [= ->]. unfold consume. destruct (decide _); done.
    - intros Hn. apply (IH _ _ k); [|done]. unfold consume. destruct (decide _); [done|set_solver]. }
  assert (forall keys consumed n k, keys !! n = Some k -> (consume consumed k).1 = true ->
    consume_all (consume consumed k).2 keys !! n <> Some true) as Hhead.
  { intros keys' c n k' Hn Hc. apply (Hseen _ _ _ k'); [|done]. unfold consume in *. destruct (decide _); set_solver. }
  revert consumed i j. induction keys as [|x keys IH]; intros consumed [|i] [|j]; simpl; try done.
  - intros [= ->] Hj Hi Hj'. injection Hi as Hi. exfalso. by eapply Hhead.
  - intros Hi [= ->] Hi' Hj. injection Hj as Hj. exfalso. by eapply Hhead.
  - intros Hi Hj Hi' Hj'. f_equal. by eapply IH.
Qed.

Section TranscriptFacts.
Context `{Cbor}.

Definition encodable (s : pystr) : bool := match utf8_encode s with Some _ => true | None => false end.

(** Every text field has a UTF-8 form (no lone surrogates). *)
Definition transcript_encodable (t : consent_transcript) : bool :=
  forallb encodable ([tr_authenticated_origin t; tr_environment t; tr_operation t; tr_purpose t; tr_capability t] ++
                     match tr_signer_id t with Some s => [s] | None => [] end).

Lemma transcript_value_plain t : transcript_encodable t = true -> cbor_plain (transcript_value t) = true.
Proof.
  unfold transcript_encodable, transcript_value. cbn [forallb app]. intros He. bool_hyps. unfold encodable in *.
  destruct (tr_generation t), (tr_signer_id t), (tr_signer_public_key t); cbn in *;
    repeat match goal with H : ?x = true |- _ => rewrite H; clear H end; bool_hyps; done.
Qed.

Lemma transcript_value_inj t u : transcript_value t = transcript_value u -> t = u.
Proof.
  unfold transcript_value, py_dict. intros E. injection E as E. destruct t, u. cbn in E.
  destruct tr_generation0, tr_generation1; destruct tr_signer_id0, tr_signer_id1;
    destruct tr_signer_public_key0, tr_signer_public_key1; simplify_eq/=; done.
Qed.

Context `{!CborLaws}.

(** The canonical form of a consent transcript determines the transcript: no two
    different transcripts with encodable text have the same [canonical_bytes], so a
    digest of those bytes commits to every field the user reviewed, absent optional
    fields included. *)
Lemma transcript_bytes_injective t u b :
  transcript_encodable t = true -> transcript_encodable u = true ->
  canonical_bytes t = Ok b -> canonical_bytes u = Ok b -> t = u.
Proof.
  unfold canonical_bytes. intros Ht Hu Hb Hb'.
  destruct (cbor_roundtrip _ (transcript_value_plain t Ht)) as (b1 & E1 & _ & L1).
  destruct (cbor_roundtrip _ (transcript_value_plain u Hu)) as (b2 & E2 & _ & L2).
  apply transcript_value_inj. congruence.
Qed.

(** C9. What the user approved cannot be exchanged or reused: two consent transcripts with
    encodable text and the same [canonical_bytes] are the same transcript, so a digest of those
    bytes commits to every field that was reviewed, absent optional fields included; and over
    any sequence of requests to the replay store, two requests for the same key that are both
    granted are the same request. *)
Theorem consent_binding :
  (forall t u b, transcript_encodable t = true -> transcript_encodable u = true ->
    canonical_bytes t = Ok b -> canonical_bytes u = Ok b -> t = u) /\
  (forall consumed keys i j k, keys !! i = Some k -> keys !! j = Some k ->
    consume_all consumed keys !! i = Some true -> consume_all consumed keys !! j = Some true -> i = j).
Proof. split; [apply transcript_bytes_injective|apply replay_nonce_once]. Qed.
End TranscriptFacts.
