(* ===== verification/Rotation.v ===== *)
(** Owner-key rotation: registry environments, dispatch intents (container.py) and
    the registry of unresolved rotations that gates normal writes (identity.py,
    [_RotationBinding], [_RotationLatchRegistry]). *)

From S2P Require Import Prelude PyVal Sha256 Interfaces SignedUpdate.

Open Scope Z_scope.

(** * Environments and intents *)

(** [len(value.encode("utf-16-le")) // 2]; [None] on a lone surrogate. *)
Fixpoint utf16_units (s : pystr) : option Z :=
  match s with
  | [] => Some 0
  | c :: s' =>
      if negb (is_scalar c) then None
      else (fun n => n + (if c <? 65536 then 1 else 2)) <$> utf16_units s'
  end.

Definition whitespace : pystr :=
  [9; 10; 11; 12; 13; 32; 0x85; 0xa0; 0x1680; 0x2000; 0x2001; 0x2002; 0x2003; 0x2004; 0x2005; 0x2006;
   0x2007; 0x2008; 0x2009; 0x200a; 0x2028; 0x2029; 0x202f; 0x205f; 0x3000].

Definition valid_registry_environment (value : pyval) : bool :=
  match value with
  | PStr s =>
      match utf16_units s with
      | None => false
      | Some n => (1 <=? n) && (n <=? 256) && existsb (fun c => negb (bool_decide (c ∈ whitespace))) s
      end
  | _ => false
  end.

(** The public binding of one rotation: the fields of [RotationDispatchIntent], of
    [_RotationBinding], and of the capabilities derived from a publication. *)
Record rotation_binding := RotationBinding {
  rb_environment : option pystr;
  rb_owner_name : bytes;
  rb_predecessor_owner_public_key : bytes;
  rb_successor_owner_public_key : bytes;
  rb_predecessor_state_hash : bytes;
  rb_sequence : Z;
  rb_envelope_hash : bytes;
}.

#[global] Instance rotation_binding_eq_decision : EqDecision rotation_binding.
Proof. solve_decision. Defined.

Definition require_hash (value : pyval) : res bytes :=
  match value with
  | PBytes b => raise_if negb (length b =? _KEY_LENGTH)%nat with InvalidContainer; Ok b
  | _ => Err InvalidContainer
  end.

(** [RotationDispatchIntent(...)] *)
Definition RotationDispatchIntent (owner_name predecessor_owner_public_key successor_owner_public_key
    predecessor_state_hash sequence envelope_hash environment : pyval) : res rotation_binding :=
  let* env :=
    match environment with
    | PNone => Ok None
    | v =>
        raise_if negb (valid_registry_environment v) with InvalidContainer;
        match v with PStr s => Ok (Some s) | _ => Err InvalidContainer end
    end in
  let* owner :=
    match owner_name with
    | PBytes b =>
        raise_if negb ((1 <=? Z.of_nat (length b)) && (Z.of_nat (length b) <=? 1024 * 1024)) with InvalidContainer;
        match utf8_decode b with Some _ => Ok b | None => Err InvalidContainer end
    | _ => Err InvalidContainer
    end in
  let* pred := require_hash predecessor_owner_public_key in
  let* succ := require_hash successor_owner_public_key in
  let* hash := require_hash predecessor_state_hash in
  let* eh := require_hash envelope_hash in
  match sequence with
  | PInt n => raise_if n <? 1 with InvalidContainer; Ok (RotationBinding env owner pred succ hash n eh)
  | _ => Err InvalidContainer
  end.

(** [_rotation_binding(value)] of an object with typed binding attributes. *)
Definition _rotation_binding (v : rotation_binding) : option rotation_binding :=
  if bool_decide (rb_owner_name v = []) ||
     negb (length (rb_predecessor_owner_public_key v) =? _KEY_LENGTH)%nat ||
     negb (length (rb_successor_owner_public_key v) =? _KEY_LENGTH)%nat ||
     negb (length (rb_predecessor_state_hash v) =? _KEY_LENGTH)%nat ||
     (rb_sequence v <=? 0) ||
     negb (length (rb_envelope_hash v) =? _KEY_LENGTH)%nat
  then None else Some v.

(** [replace(binding, environment=e)] *)
Definition replace_environment (b : rotation_binding) (e : option pystr) : rotation_binding :=
  RotationBinding e (rb_owner_name b) (rb_predecessor_owner_public_key b) (rb_successor_owner_public_key b)
    (rb_predecessor_state_hash b) (rb_sequence b) (rb_envelope_hash b).

(** * The latch registry *)

(** [self._bindings]: at most one unresolved rotation per owner, with its
    dispatch-ready flag. *)
Abbreviation latches := (gmap bytes (rotation_binding * bool)).

Definition is_owner_latched (l : latches) (owner_name : bytes) : bool := bool_decide (is_Some (l !! owner_name)).

Definition is_latched (l : latches) (value : rotation_binding) : bool :=
  match _rotation_binding value with
  | None => false
  | Some b => match l !! rb_owner_name b with Some c => bool_decide (c.1 = b) | None => false end
  end.

Definition is_dispatch_ready (l : latches) (value : rotation_binding) : bool :=
  match _rotation_binding value with
  | None => false
  | Some b => match l !! rb_owner_name b with Some c => bool_decide (c = (b, true)) | None => false end
  end.

Definition register (l : latches) (value : rotation_binding) (dispatch_ready : bool) : bool * latches :=
  match _rotation_binding value with
  | None => (false, l)
  | Some b =>
      match l !! rb_owner_name b with
      | None => (true, <[rb_owner_name b := (b, dispatch_ready)]> l)
      | Some c =>
          if negb (bool_decide (c.1 = b)) &&
             (dispatch_ready || c.2 || bool_decide (is_Some (rb_environment c.1)) ||
              bool_decide (rb_environment b = None) ||
              negb (bool_decide (replace_environment c.1 (rb_environment b) = b)))
          then (false, l)
          else (true, <[rb_owner_name b := (b, dispatch_ready || c.2)]> l)
      end
  end.

Definition clear (l : latches) (value : rotation_binding) : bool * latches :=
  match _rotation_binding value with
  | None => (false, l)
  | Some b =>
      match l !! rb_owner_name b with
      | Some c => if bool_decide (c.1 = b) then (true, delete (rb_owner_name b) l) else (false, l)
      | None => (false, l)
      end
  end.

(** * Histories of latch operations *)

Inductive latch_op := OpRegister (b : rotation_binding) (ready : bool) | OpClear (b : rotation_binding).

#[global] Instance latch_op_eq_decision : EqDecision latch_op.
Proof. solve_decision. Defined.

Definition latch_step (l : latches) (op : latch_op) : latches :=
  match op with OpRegister b ready => (register l b ready).2 | OpClear b => (clear l b).2 end.

(** [self._bindings] after a sequence of calls, oldest first. *)
Definition latch_run (ops : list latch_op) : latches := foldl latch_step ∅ ops.

Lemma rotation_binding_some v b : _rotation_binding v = Some b -> b = v.
Proof. unfold _rotation_binding. case_match; [done|]. congruence. Qed.

Lemma replace_environment_owner b e : rb_owner_name (replace_environment b e) = rb_owner_name b.
Proof. done. Qed.

(** Entries are stored under their own owner and have well-formed fields. *)
Definition latches_wf (l : latches) : Prop :=
  forall o c, l !! o = Some c -> rb_owner_name c.1 = o /\ _rotation_binding c.1 = Some c.1.

(** What one successful registration leaves under its owner. *)
Lemma register_lookup l v ready o c :
  latches_wf l -> (register l v ready).2 !! o = Some c ->
  l !! o = Some c \/
  (c.1 = v /\ _rotation_binding v = Some v /\ o = rb_owner_name v /\
   match l !! o with
   | None => c.2 = ready
   | Some c' => (c'.1 = v /\ c.2 = ready || c'.2) \/
       (c.2 = false /\ c'.2 = false /\ ready = false /\ rb_environment c'.1 = None /\ replace_environment c'.1 (rb_environment v) = v)
   end).
Proof.
  intros Hl. unfold register. destruct (_rotation_binding v) as [b|] eqn:Eb; [|by left].
  pose proof (rotation_binding_some _ _ Eb) as ->.
  destruct (decide (rb_owner_name v = o)) as [<-|Hne].
  - destruct (l !! rb_owner_name v) as [c'|] eqn:E; [case_match eqn:G; [by left; rewrite <-E|]|]; simpl;
      rewrite lookup_insert_eq; intros [= <-]; right; split_and!; try done.
    apply andb_false_iff in G as [G|G]; bool_hyps; [left; by rewrite orb_comm, orb_comm|right].
    destruct c' as [b' r']; simpl in *; subst. split_and!; try done. by apply eq_None_not_Some.
  - destruct (l !! rb_owner_name v) as [c'|]; [case_match; [by left|]|]; simpl;
      rewrite lookup_insert_ne by done; by left.
Qed.

Lemma clear_lookup l v o :
  latches_wf l ->
  (clear l v).2 !! o = (if bool_decide (exists r, l !! o = Some (v, r)) then None else l !! o).
Proof.
  intros Hl. unfold clear. destruct (_rotation_binding v) as [b|] eqn:Eb.
  2: { case_bool_decide as E; [|done]. destruct E as [r E]. apply Hl in E as [_ E]. simpl in E. congruence. }
  pose proof (rotation_binding_some _ _ Eb) as ->.
  destruct (l !! rb_owner_name v) as [[b r]|] eqn:E; simpl.
  - case_bool_decide as G; simpl in *; [subst b|]; case_bool_decide as G'; simpl.
    + destruct G' as [r' E']. apply Hl in E' as [<- _]. apply lookup_delete_eq.
    + rewrite lookup_delete_ne; [done|]. intros <-. apply G'. eauto.
    + destruct G' as [r' E']. pose proof (Hl _ _ E') as [E2 _]. simpl in E2. congruence.
    + done.
  - case_bool_decide as G'; [|done]. destruct G' as [r' E']. pose proof (Hl _ _ E') as [E2 _]. simpl in E2. congruence.
Qed.

Lemma latch_step_wf l op : latches_wf l -> latches_wf (latch_step l op).
Proof.
  intros Hl o c. destruct op as [v ready|v]; simpl.
  - intros [Hc|(Hc & Hv & -> & _)]%register_lookup; [by apply Hl| |done]. rewrite Hc. done.
  - rewrite clear_lookup by done. case_bool_decide; [done|]. apply Hl.
Qed.

Lemma latch_run_wf ops : latches_wf (latch_run ops).
Proof.
  unfold latch_run. assert (latches_wf ∅) as H0 by (intros ? ? Hc; by rewrite lookup_empty in Hc).
  revert H0. generalize (∅ : latches). induction ops as [|op ops IH]; intros l Hl; simpl; [done|].
  apply IH. by apply latch_step_wf.
Qed.

Lemma ready_entry ops o b :
  latch_run ops !! o = Some (b, true) ->
  exists ops1 ops2, ops = ops1 ++ OpRegister b true :: ops2 /\ OpClear b ∉ ops2.
Proof.
  induction ops as [|op ops IH] using rev_ind; [by unfold latch_run; simpl; rewrite lookup_empty|].
  unfold latch_run. rewrite foldl_snoc. fold (latch_run ops). intros Hl.
  assert (latch_run ops !! o = Some (b, true) -> op <> OpClear b ->
    exists ops1 ops2, ops ++ [op] = ops1 ++ OpRegister b true :: ops2 /\ OpClear b ∉ ops2) as Hkeep.
  { intros (ops1 & ops2 & -> & Hn)%IH Hop. exists ops1, (ops2 ++ [op]). split; [by rewrite <-app_assoc|set_solver]. }
  destruct op as [v ready|v]; simpl in Hl.
  - apply register_lookup in Hl as [Hl|(E & _ & -> & Hc)]; [by apply Hkeep| |apply latch_run_wf].
    simpl in E, Hc. subst v. destruct (latch_run ops !! _) as [[b' r']|] eqn:Eo; simpl in Hc.
    + destruct Hc as [[-> Hr]|(? & _)]; [|done]. destruct ready.
      * exists ops, []. split; [done|set_solver].
      * simpl in Hr. subst r'. by apply Hkeep.
    + subst ready. exists ops, []. split; [done|set_solver].
  - rewrite clear_lookup in Hl by apply latch_run_wf. case_bool_decide as Hv; [done|].
    apply Hkeep; [done|]. intros [= ->]. apply Hv. eauto.
Qed.

(** Dispatch readiness is never granted implicitly: whatever sequence of
    registrations and clearings the registry went through, an intent is
    dispatch-ready only if that exact intent was registered with
    [dispatch_ready=True] (as [_mark_latched] does after the durable write) and has
    not been cleared since; read-only registrations never produce readiness. *)
Lemma dispatch_ready_origin ops b :
  is_dispatch_ready (latch_run ops) b = true ->
  exists ops1 ops2, ops = ops1 ++ OpRegister b true :: ops2 /\ OpClear b ∉ ops2.
Proof.
  unfold is_dispatch_ready. destruct (_rotation_binding b) as [b'|] eqn:Eb; [|done].
  apply rotation_binding_some in Eb as ->. destruct (latch_run ops !! _) as [c|] eqn:E; [|done].
  case_bool_decide as Hc; [|done]. subst c. intros _. by eapply ready_entry.
Qed.

Lemma latch_step_persists l op o b r :
  latches_wf l -> l !! o = Some (b, r) -> (forall e, op <> OpClear (replace_environment b e)) ->
  exists e r', latch_step l op !! o = Some (replace_environment b e, r') /\ (r = true -> r' = true) /\
    (e = rb_environment b \/ (r = false /\ rb_environment b = None)).
Proof.
  intros Hl Ho Hop.
  assert (b = replace_environment b (rb_environment b)) as Hb by (by destruct b).
  destruct op as [v ready|v]; simpl.
  - destruct ((register l v ready).2 !! o) as [[b' r']|] eqn:E.
    + apply register_lookup in E as [E|(E & _ & -> & Hc)]; [|simpl in E, Hc|done].
      * rewrite Ho in E. injection E as <- <-. exists (rb_environment b), r. rewrite <-Hb. auto.
      * rewrite Ho in Hc. simpl in Hc. subst v. destruct Hc as [[E Hr]|(Hr & Hr0 & _ & Hn & E)].
        -- subst b'. exists (rb_environment b), r'. rewrite <-Hb. split_and!; auto. intros ->. by destruct ready.
        -- exists (rb_environment b'), r'. rewrite E. subst r. split_and!; auto. done.
    + exfalso. revert E. unfold register. destruct (_rotation_binding v) as [b'|]; [|simpl; intros; congruence].
      destruct (l !! rb_owner_name b'); [case_match; [simpl; intros; congruence|]|]; simpl; intros [E _]%lookup_insert_None;
        congruence.
  - rewrite clear_lookup by done. rewrite bool_decide_eq_false_2.
    + exists (rb_environment b), r. rewrite <-Hb. auto.
    + intros [r' E]. rewrite Ho in E. injection E as <- _. by apply (Hop (rb_environment b)); rewrite <-Hb.
Qed.

(** An unresolved rotation stays latched: from a latched intent, any further
    sequence of registrations and clearings that does not clear that very rotation
    leaves the owner latched with the same rotation (same keys, predecessor, sequence
    and envelope); only an absent environment may have been filled in, and never on a
    dispatch-ready entry, whose readiness is kept. *)
Lemma latch_persists l ops o b r :
  latches_wf l -> l !! o = Some (b, r) -> (forall e, OpClear (replace_environment b e) ∉ ops) ->
  exists e r', foldl latch_step l ops !! o = Some (replace_environment b e, r') /\ (r = true -> r' = true) /\
    (e = rb_environment b \/ (r = false /\ rb_environment b = None)).
Proof.
  revert l b r. induction ops as [|op ops IH]; intros l b r Hl Ho Hops; simpl.
  - exists (rb_environment b), r. split_and!; auto. rewrite Ho. by destruct b.
  - destruct (latch_step_persists l op o b r Hl Ho) as (e & r' & Ho' & Hr & He); [set_solver|].
    destruct (IH _ _ _ (latch_step_wf _ op Hl) Ho') as (e' & r'' & Ho'' & Hr' & He').
    { intros e'. simpl. set_solver. }
    exists e', r''. split; [done|]. split; [auto|]. simpl in He'.
    destruct He' as [->|[-> ->]]; [done|]. destruct He as [<-|He]; [|auto].
    right. split; [|done]. destruct r; [|done]. by specialize (Hr eq_refl).
Qed.

(** C10. The latch registry over any sequence of registrations and clearings.  Dispatch readiness
    is never granted implicitly: an intent is dispatch-ready only if that exact intent was
    registered with [dispatch_ready=True] (as [_mark_latched] does after the durable write) and
    has not been cleared since.  And an unresolved rotation stays latched: unless that very
    rotation is cleared, the owner keeps the same rotation (same keys, predecessor, sequence and
    envelope); only an absent environment may have been filled in, and never on a
    dispatch-ready entry, whose readiness is kept. *)
Theorem latch_discipline :
  (forall ops b, is_dispatch_ready (latch_run ops) b = true ->
    exists ops1 ops2, ops = ops1 ++ OpRegister b true :: ops2 /\ OpClear b ∉ ops2) /\
  (forall l ops o b r, latches_wf l -> l !! o = Some (b, r) -> (forall e, OpClear (replace_environment b e) ∉ ops) ->
    exists e r', foldl latch_step l ops !! o = Some (replace_environment b e, r') /\ (r = true -> r' = true) /\
      (e = rb_environment b \/ (r = false /\ rb_environment b = None))).
Proof. split; [apply dispatch_ready_origin|apply latch_persists]. Qed.
