(* ===== verification/Effects.v ===== *)
(** Effectful code: programs are trees of events.

    An event is one call across a boundary of the adapter: the transport, the
    consent handler, the replay store, the signer, the clock, and the shared latch
    registry, locks and one-use cells of its own process.  Every event may raise;
    the continuation receives the outcome.  The environment's answers are
    arbitrary, so a theorem about all traces of a program covers every transport,
    every consent handler and every interleaving with other threads. *)

From S2P Require Import Prelude PyVal Sha256 Interfaces SignedUpdate Consent Rotation.

Open Scope Z_scope.

(** [b.hex()] *)
Definition hex (b : bytes) : pystr := b ≫= (fun x => [hex_digit (byteZ x / 16); hex_digit (byteZ x mod 16)]).

Inductive event : Set -> Set :=
  (* the clock: int(time.time()) *)
  | Now : event Z
  (* IdentityTransport *)
  | GetEnvelope (owner_name_hex : pystr) : event pyval
  | GetEnvelopeByHash (owner_name_hex : pystr) (state_hash : bytes) : event pyval
  | GetRemoteEnvelope (owner_name_hex : pystr) : event pyval
  | PutEnvelope (owner_name_hex : pystr) (envelope : bytes) (expected_state_hash : option bytes)
      (expires_at : Z) : event unit
  | TransportEnvironment : event (option pyval)   (* getattr(transport, "registry_environment", missing) *)
  | SupportsRotation : event pyval                (* getattr(transport, "supports_owner_key_rotation", False) *)
  | HasRemoteRead : event bool                    (* callable(transport.get_remote_identity_envelope) *)
  (* the consent handler and the replay store *)
  | Consent (transcript : consent_transcript) : event pyval
  | ConsumeNonce (key : bytes) : event bool
  (* the signer capability of one submission *)
  | SignerCreate : event unit
  | SignerPublicKey : event pyval
  | SignerActive : event bool
  | SignerSign (update : bytes) : event pyval
  | SignerInvalidate : event unit
  (* the latch registry and its per-owner locks *)
  | IsOwnerLatched (owner_name : bytes) : event bool
  | IsLatched (binding : rotation_binding) : event bool
  | IsDispatchReady (binding : rotation_binding) : event bool
  | Register (binding : rotation_binding) (dispatch_ready : bool) : event bool
  | Clear (binding : rotation_binding) : event bool
  | AcquireOwner (owner_name : bytes) : event unit
  | ReleaseOwner (owner_name : bytes) : event unit
  (* one-use flags: [self._consumption] with its lock *)
  | NewCell : event Z
  | ConsumeCell (cell : Z) : event bool.

Inductive prog (A : Type) : Type :=
  | Ret (a : A)
  | Raise (e : exn)
  | Do {B : Set} (ev : event B) (k : res B -> prog A).
Arguments Ret {_} _.
Arguments Raise {_} _.
Arguments Do {_ _} _ _.

Definition lift {A} (r : res A) : prog A := match r with Ok a => Ret a | Err e => Raise e end.

Definition call {B : Set} (ev : event B) : prog B := Do ev lift.

Fixpoint bind {A B} (p : prog A) (k : A -> prog B) : prog B :=
  match p with
  | Ret a => k a
  | Raise e => Raise e
  | Do ev c => Do ev (fun r => bind (c r) k)
  end.

(** The outcome of [p] as a value: [try: ... except Exception: ...]. *)
Fixpoint attempt {A} (p : prog A) : prog (res A) :=
  match p with
  | Ret a => Ret (Ok a)
  | Raise e => Ret (Err e)
  | Do ev c => Do ev (fun r => attempt (c r))
  end.

Declare Scope prog_scope.
Delimit Scope prog_scope with prog.
Notation "'let!' x := m 'in' k" := (bind m (fun x => k))
  (at level 10, x pattern, m at level 100, k at level 200) : prog_scope.
Notation "'throw_if' c 'with' e ; k" := (if c then Raise e else k)
  (at level 10, c at level 100, e at level 99, k at level 200) : prog_scope.
Open Scope prog_scope.

(** [with owner_lock(owner_name): p] *)
Definition with_owner_lock {A} (owner_name : bytes) (p : prog A) : prog A :=
  let! _ := call (AcquireOwner owner_name) in
  let! r := attempt p in
  let! _ := call (ReleaseOwner owner_name) in
  lift r.

(** * Traces *)

Record step := MkStep { step_type : Set; step_event : event step_type; step_answer : res step_type }.
Arguments MkStep {_} _ _.

(** [steps p t p']: [p] performs the events of [t], receives their answers, and
    [p'] remains to be run. *)
Fixpoint steps {A} (p : prog A) (t : list step) (p' : prog A) : Prop :=
  match p with
  | Do ev c => (t = [] /\ p' = p) \/ exists r t', t = MkStep ev r :: t' /\ steps (c r) t' p'
  | _ => t = [] /\ p' = p
  end.

(** The program run to its end. *)
Definition returns {A} (p : prog A) (t : list step) (o : res A) : Prop := steps p t (lift o).

(** * Monitors: ghost state advanced by events *)

Section Monitor.
Context {M : Type}.

Record monitor := Monitor {
  allowed : forall B : Set, M -> event B -> Prop;
  advance : forall B : Set, M -> event B -> res B -> M;
}.

Context (mon : monitor).

(** Every event of [p], started in ghost state [m], is allowed when it happens,
    and [Q] holds of the outcome and the final ghost state. *)
Fixpoint safe {A} (m : M) (p : prog A) (Q : res A -> M -> Prop) : Prop :=
  match p with
  | Ret a => Q (Ok a) m
  | Raise e => Q (Err e) m
  | Do ev c => allowed mon _ m ev /\ forall r, safe (advance mon _ m ev r) (c r) Q
  end.

Fixpoint ghost (m : M) (t : list step) : M :=
  match t with
  | [] => m
  | s :: t' => ghost (advance mon _ m (step_event s) (step_answer s)) t'
  end.

Lemma safe_mono {A} (p : prog A) m (Q R : res A -> M -> Prop) :
  safe m p Q -> (forall o m', Q o m' -> R o m') -> safe m p R.
Proof. revert m. induction p as [a|e|B ev c IH]; simpl; intros m H HQ; [auto|auto|]. destruct H; eauto. Qed.

Lemma safe_bind {A B} (p : prog A) (k : A -> prog B) m Q :
  safe m p (fun o m' => match o with Ok a => safe m' (k a) Q | Err e => Q (Err e) m' end) ->
  safe m (bind p k) Q.
Proof. revert m. induction p as [a|e|C ev c IH]; simpl; intros m H; [done|done|]. destruct H; eauto. Qed.

Lemma safe_attempt {A} (p : prog A) m (Q : res (res A) -> M -> Prop) :
  safe m p (fun o m' => Q (Ok o) m') -> safe m (attempt p) Q.
Proof. revert m. induction p as [a|e|C ev c IH]; simpl; intros m H; [done|done|]. destruct H; eauto. Qed.

Lemma safe_call {B : Set} (ev : event B) m Q :
  allowed mon _ m ev -> (forall r, Q r (advance mon _ m ev r)) -> safe m (call ev) Q.
Proof. intros Ha Hr. split; [done|]. intros [b|e]; apply Hr. Qed.

Lemma safe_ret {A} (a : A) m (Q : res A -> M -> Prop) : Q (Ok a) m -> safe m (Ret a) Q.
Proof. done. Qed.

Lemma safe_raise {A} e m (Q : res A -> M -> Prop) : Q (Err e) m -> safe m (Raise e) Q.
Proof. done. Qed.

Lemma safe_lift {A} (r : res A) m (Q : res A -> M -> Prop) : Q r m -> safe m (lift r) Q.
Proof. by destruct r. Qed.

(** Every event of a trace of a safe program was allowed when it happened. *)
Lemma safe_steps {A} (p : prog A) m Q t p' :
  safe m p Q -> steps p t p' ->
  safe (ghost m t) p' Q /\
  forall t1 s t2, t = t1 ++ s :: t2 -> allowed mon _ (ghost m t1) (step_event s).
Proof.
  revert m t. induction p as [a|e|B ev c IH]; simpl; intros m t Hs Ht.
  1-2: destruct Ht as [-> ->]; split; [done|]; intros [|? ?] ? ? [=].
  destruct Ht as [[-> ->]|(r & t' & -> & Ht)].
  { split; [done|]. intros [|? ?] ? ? [=]. }
  destruct Hs as [Ha Hs]. destruct (IH r _ t' (Hs r) Ht) as [Hf Hall].
  split; [done|]. intros [|s1 t1] s t2 [= <- E]; [done|]. simpl. by eapply Hall.
Qed.

Lemma safe_returns {A} (p : prog A) m Q t o :
  safe m p Q -> returns p t o -> Q o (ghost m t).
Proof. intros Hs Ht. eapply safe_steps in Ht as [Hf _]; [|exact Hs]. by destruct o. Qed.
End Monitor.
Arguments monitor : clear implicits.

(** * Running a program against an environment *)

(** A handler answers events from a state of its own. *)
Definition handler (E : Type) := forall B : Set, E -> event B -> res B * E.

Fixpoint run {E A} (h : handler E) (e : E) (p : prog A) : res A * E * list step :=
  match p with
  | Ret a => (Ok a, e, [])
  | Raise x => (Err x, e, [])
  | Do ev c =>
      let ans := h _ e ev in
      let '(o, e', t) := run h ans.2 (c ans.1) in
      (o, e', MkStep ev ans.1 :: t)
  end.

(** The run of a handler is a trace of the program. *)
Lemma run_returns {E A} (h : handler E) e (p : prog A) :
  returns p (run h e p).2 (run h e p).1.1.
Proof.
  unfold returns. revert e. induction p as [a|x|B ev c IH]; intros e; simpl; [done|done|].
  specialize (IH (h B e ev).1 (h B e ev).2). destruct (run h (h B e ev).2 (c (h B e ev).1)) as [[o e'] t].
  right. exists (h B e ev).1, t. done.
Qed.
