(* ===== verification/Adapter.v ===== *)
(** The registry adapter: reading verified state, drafting, consent-gated signing,
    publication, and owner-key rotation dispatch and confirmation
    (identity.py, [RegistryAdapter]). *)

From S2P Require Import Prelude PyVal Sha256 Interfaces SignedUpdate Envelope EnvelopeFacts Draft Consent Rotation Effects.

Open Scope Z_scope.

(** * Results and capabilities *)

Record submission_result := SubmissionResult {
  sr_status : PublishStatus;
  sr_transcript : consent_transcript;
  sr_envelope_bytes : option bytes;
  sr_signed_update_bytes : option bytes;
  sr_proof_bytes : option bytes;
  sr_accepted_state : option identity_state;
  sr_reason : option pystr;
  sr_draft : option identity_draft;
  sr_identity_proof : option identity_proof;
}.

(** A one-use capability for an operation-5 dispatch; [pub_cell] is its
    consumption flag, [pub_adapter_token] the adapter that prepared it. *)
Record rotation_publication := RotationPublication {
  pub_environment : pystr;
  pub_bundle : identity_bundle;
  pub_envelope_bytes : bytes;
  pub_previous_state : identity_state;
  pub_expires_at : Z;
  pub_adapter_token : Z;
  pub_cell : Z;
}.

Record publication_result := PublicationResult {
  pr_status : PublishStatus;
  pr_envelope_bytes : option bytes;
  pr_accepted_state : option identity_state;
  pr_reason : option pystr;
  pr_publication : option rotation_publication;
}.

Record rotation_confirmation := RotationConfirmation {
  conf_binding : rotation_binding;
  conf_state_hash : bytes;
}.

Record rotation_rejection := RotationDispatchRejection {
  rej_status : PublishStatus;
  rej_publication : rotation_publication;
  rej_cell : Z;
}.

Record dispatch_result := RotationDispatchResult {
  dr_status : PublishStatus;
  dr_confirmation : option rotation_confirmation;
  dr_rejection : option rotation_rejection;
  dr_reason : option pystr;
}.

(** A dispatch permit and whether it carries the wallet's seal. *)
Record dispatch_permit := RotationDispatchPermit {
  permit_intent : rotation_binding;
  permit_authentic : bool;
}.

(** The caller's consent parameters, not validated yet. *)
Record consent_args := ConsentArgs {
  ca_authenticated_origin : pyval;
  ca_environment : pyval;
  ca_purpose : pyval;
  ca_capability : pyval;
  ca_expires_at : pyval;
  ca_replay_nonce : pyval;
}.

Definition _same_state (left right : option identity_state) : bool :=
  match left, right with
  | Some l, Some r => bool_decide (st_state_hash l = st_state_hash r) &&
                      bool_decide (st_envelope_bytes l = st_envelope_bytes r)
  | None, None => true
  | _, _ => false
  end.

(** [IdentityBundle.from_submission(result)] *)
Definition from_submission (r : submission_result) : res identity_bundle :=
  match sr_status r, sr_draft r, sr_identity_proof r with
  | st_PROOF_READY, Some d, Some p => IdentityBundle d [p]
  | _, _, _ => Err InvalidIdentityRequest
  end.

(** [RegistryAdapter.__init__]: the validated environment. *)
Definition adapter_environment (registry_environment : pyval) : res (option pystr) :=
  match registry_environment with
  | PNone => Ok None
  | v =>
      raise_if negb (valid_registry_environment v) with InvalidIdentityRequest;
      match v with PStr s => Ok (Some s) | _ => Err InvalidIdentityRequest end
  end.

(** [entry[1]] of a caller-supplied signer entry; [None]: it raises. *)
Definition subscript_1 (v : pyval) : option pyval :=
  match v with
  | PDict d => dict_get 1 d
  | PList l => l !! 1%nat
  | PTuple l => l !! 1%nat
  | PStr s => (fun c => PStr [c]) <$> s !! 1%nat
  | PBytes b => (fun x => PInt (byteZ x)) <$> b !! 1%nat
  | _ => None
  end.

(** [entry[1].encode("utf-8")] *)
Definition entry_sort_key (v : pyval) : option (list Z) :=
  match subscript_1 v with
  | Some (PStr s) => (fun b : bytes => byteZ <$> b) <$> utf8_encode s
  | _ => None
  end.

(** [sorted(entries, key=lambda entry: entry[1].encode("utf-8"))]; [None]: a key raises. *)
Definition sorted_entries (entries : list pyval) : option (list pyval) :=
  if forallb (fun e => bool_decide (is_Some (entry_sort_key e))) entries
  then Some (sort_by (fun e => default [] (entry_sort_key e)) entries)
  else None.

Section Adapter.
Context `{Cbor} `{Ed25519}.
Context (registry_environment : option pystr) (rotation_token : Z).

(** * Reading *)

Definition _rotation_environment_matches (environment : option pystr) : prog bool :=
  match environment with
  | None => Ret false
  | Some e =>
      if bool_decide (Some e = registry_environment) then
        let! r := attempt (call TransportEnvironment) in
        match r with
        | Err _ => Ret false
        | Ok None => Ret true
        | Ok (Some v) => Ret (py_eq v (PStr e))
        end
      else Ret false
  end.

Definition _rotation_transport_available : prog bool :=
  let! r := attempt (
    let! s := call SupportsRotation in
    match s with
    | PBool true => call HasRemoteRead
    | _ => Ret false
    end) in
  match r with Ok b => Ret b | Err _ => Ret false end.

(** The authorization of a canonical envelope value, if it looks like a version-1
    envelope. *)
Definition envelope_authorization (value : pyval) : res (option authorization) :=
  match value with
  | PDict d =>
      match dict_get 1 d, dict_get 2 d with
      | Some (PInt 1), Some (PBytes u) =>
          let* su := _decode_signed_update (PBytes u) in Ok (su_authorization su)
      | _, _ => Ok None
      end
  | _ => Ok None
  end.

(** The [while] loop: walk back to the signed anchor; [depth] predecessors may
    still be fetched.  Returns the anchor's state and the envelopes after it,
    oldest first. *)
Fixpoint walk_history (depth : nat) (owner_name : bytes) (rotation_environment : option pystr)
    (current_envelope : pyval) (chain : list pyval) : prog (identity_state * list pyval) :=
  let! value := lift (_require_canonical current_envelope) in
  let! auth := lift (envelope_authorization value) in
  match auth with
  | Some a =>
      if bool_decide (auth_operation a ∈ [2; 3; 4; 5]) then
        match depth with
        | O => Raise InvalidIdentityState
        | S depth' =>
            let! ok :=
              match rotation_environment with
              | None => Ret true
              | Some e => _rotation_environment_matches (Some e)
              end in
            throw_if negb ok with InvalidIdentityState;
            let! r := attempt (call (GetEnvelopeByHash (hex owner_name) (auth_predecessor a))) in
            match r with
            | Err _ => Raise TransportFailure
            | Ok PNone => Raise InvalidIdentityState
            | Ok predecessor =>
                walk_history depth' owner_name rotation_environment predecessor (current_envelope :: chain)
            end
        end
      else let! st := lift (_parse_identity_envelope owner_name current_envelope None) in Ret (st, chain)
  | None => let! st := lift (_parse_identity_envelope owner_name current_envelope None) in Ret (st, chain)
  end.

(** [for current_envelope in reversed(chain): state = ...] *)
Fixpoint replay_history (owner_name : bytes) (state : identity_state) (chain : list pyval) : res identity_state :=
  match chain with
  | [] => Ok state
  | e :: rest =>
      let* st := _parse_identity_envelope owner_name e (Some state) in
      replay_history owner_name st rest
  end.

Definition _parse_state_with_history (owner_name : bytes) (envelope : pyval)
    (rotation_environment : option pystr) : prog identity_state :=
  let! r := walk_history _MAX_PREDECESSOR_DEPTH owner_name rotation_environment envelope [] in
  lift (replay_history owner_name r.1 r.2).

Definition read_state (owner_name : pyval) : prog (option identity_state) :=
  let! owner_name := lift (_validate_owner_name owner_name) in
  let! r := attempt (call (GetEnvelope (hex owner_name))) in
  match r with
  | Err _ => Raise TransportFailure
  | Ok PNone => Ret None
  | Ok envelope => let! st := _parse_state_with_history owner_name envelope None in Ret (Some st)
  end.

Definition _confirm (owner_name : bytes) (envelope : bytes) (previous_state : option identity_state)
    : prog (option identity_state) :=
  let! owner_name := lift (_validate_owner_name (PBytes owner_name)) in
  let! r := attempt (
    let! candidate := call (GetEnvelope (hex owner_name)) in
    match candidate with
    | PNone => Ret None
    | _ => let! st := lift (_parse_identity_envelope owner_name candidate previous_state) in Ret (Some st)
    end) in
  match r with
  | Ok (Some st) => Ret (if bool_decide (st_envelope_bytes st = envelope) then Some st else None)
  | _ => Ret None
  end.

Definition _confirm_publication (owner_name envelope : bytes) (previous_state : option identity_state)
    (failure_reason : pystr) : prog publication_result :=
  let! accepted := _confirm owner_name envelope previous_state in
  Ret (PublicationResult (if accepted then st_CONFIRMED else st_UNKNOWN) (Some envelope) accepted
         (if accepted then None else Some failure_reason) None).

(** * Drafting *)

Definition create_draft (owner_name owner_public_key : pyval) (auth_mapping : option pydict)
    : prog identity_draft :=
  let! owner_name := lift (_validate_owner_name owner_name) in
  let! key := lift (_require_bytes (Some _KEY_LENGTH) false owner_public_key) in
  let! current := read_state (PBytes owner_name) in
  throw_if match current with Some c => negb (bool_decide (st_owner_public_key c = key)) | None => false end
    with InvalidIdentityRequest;
  let sequence := match current with Some c => st_sequence c + 1 | None => 1 end in
  lift (draft_create (PBytes owner_name) (PBytes key) (PInt sequence) auth_mapping
          (st_envelope_bytes <$> current)
          (match current with Some c => st_predecessor_envelopes c | None => [] end)).

Definition create_owner_key_rotation_draft (owner_name successor_owner_public_key successor_signer_set : pyval)
    : prog identity_draft :=
  let! owner_name := lift (_validate_owner_name owner_name) in
  let! latched := call (IsOwnerLatched owner_name) in
  throw_if latched with InvalidIdentityRequest;
  let! successor := lift (_require_bytes (Some _KEY_LENGTH) false successor_owner_public_key) in
  let! previous := read_state (PBytes owner_name) in
  match previous with
  | None => Raise InvalidIdentityRequest
  | Some p =>
      throw_if bool_decide (successor = st_owner_public_key p) with InvalidIdentityRequest;
      let! governance :=
        if negb (is_legacy p) then
          match successor_signer_set with
          | PNone => Ret (py_opt PInt (st_generation p), py_opt PInt (st_threshold p), signer_entry_to_py <$> st_signer_set p)
          | _ => Raise InvalidIdentityRequest
          end
        else
          match successor_signer_set with
          | PList entries =>
              match sorted_entries entries with
              | Some sorted => Ret (PInt 1, PInt 2, sorted)
              | None => Raise InvalidIdentityRequest
              end
          | _ => Raise InvalidIdentityRequest
          end in
      let '(epoch, threshold, signer_entries) := governance in
      lift (draft_create (PBytes owner_name) (PBytes successor) (PInt (st_sequence p + 1))
              (Some [(PInt 1, PInt 1); (PInt 2, PInt 1); (PInt 3, PInt 5); (PInt 4, epoch); (PInt 5, threshold);
                     (PInt 6, PList signer_entries); (PInt 7, PBytes (st_state_hash p))])
              (Some (st_envelope_bytes p)) (st_predecessor_envelopes p))
  end.

(** * Consent *)

Definition decision_status (d : ConsentDecision) : PublishStatus :=
  match d with
  | DENIED => st_DENIED | CANCELLED => st_CANCELLED | EXPIRED => st_EXPIRED | _ => st_FAILED
  end.

Definition _consent_gate (owner_name : bytes) (transcript : consent_transcript)
    : prog (option (PublishStatus * pystr)) :=
  let! replay := attempt (
    let! key := lift (replay_key owner_name transcript) in
    call (ConsumeNonce key)) in
  match replay with
  | Err _ => Ret (Some (st_FAILED, py "replay protection unavailable"))
  | Ok false => Ret (Some (st_FAILED, py "replay rejected"))
  | Ok true =>
      let! now := call Now in
      if tr_expires_at transcript <=? now then Ret (Some (st_EXPIRED, py "consent expired"))
      else
        let! answer := attempt (call (Consent transcript)) in
        let decision := match answer with Ok v => _normalize_consent v | Err _ => FAILED end in
        if negb (bool_decide (decision = APPROVED)) then
          Ret (Some (decision_status decision, decision_value decision))
        else
          let! now := call Now in
          if tr_expires_at transcript <=? now then Ret (Some (st_EXPIRED, py "consent expired"))
          else Ret None
  end.

(** The operation label of a draft. *)
Definition operation_name (auth : option authorization) : res pystr :=
  match auth with Some a => _OPERATION_NAMES (auth_operation a) | None => Ok (py "identity.update") end.
End Adapter.
