(* ===== verification/Publish.v ===== *)
(** Submitting updates and publishing bundles through the adapter
    (identity.py, [submit_identity], [sign_draft], [publish_bundle],
    [confirm_bundle]). *)

From S2P Require Import Prelude PyVal Sha256 Interfaces SignedUpdate Envelope EnvelopeFacts Draft Consent Rotation Effects Adapter.

Open Scope Z_scope.

(** What the checks of [submit_identity] establish before consent. *)
Record submission_plan := SubmissionPlan {
  sp_owner_name : bytes;
  sp_signer_public_key : bytes;
  sp_signer_id : option pystr;
  sp_current : option identity_state;
  sp_authorization : option authorization;
  sp_update : bytes;
  sp_sequence : Z;
}.

Definition next_sequence (current : option identity_state) : Z :=
  match current with Some c => st_sequence c + 1 | None => 1 end.

Definition predecessors (current : option identity_state) : list bytes :=
  match current with Some c => st_predecessor_envelopes c | None => [] end.

Section Publish.
Context `{Cbor} `{Ed25519}.
Context (registry_environment : option pystr).

(** The draft given to [submit_identity] matches the state and the other arguments. *)
Definition check_draft (draft : identity_draft) (current : option identity_state)
    (owner_name owner_public_key : bytes) (auth_mapping : option pydict) : res unit :=
  raise_if negb (bool_decide (draft_previous_state_envelope draft = st_envelope_bytes <$> current))
    with InvalidIdentityRequest;
  raise_if negb (bool_decide (draft_previous_state_history draft = predecessors current))
    with InvalidIdentityRequest;
  let* f := draft_view draft in
  raise_if negb (bool_decide (df_owner_name f = owner_name)) ||
           negb (bool_decide (df_owner_public_key f = owner_public_key)) with InvalidIdentityRequest;
  raise_if negb match df_authorization f, auth_mapping with
                | Some a, Some d => py_eq (auth_to_py a) (PDict d)
                | None, None => true
                | _, _ => false
                end with InvalidIdentityRequest;
  raise_if negb (df_sequence f =? next_sequence current) with InvalidIdentityRequest;
  Ok tt.

(** The signer identifier, once it is known to be [None] or a string. *)
Definition signer_id_text (signer_id : pyval) : res (option pystr) :=
  match signer_id with
  | PNone => Ok None
  | PStr s => Ok (Some s)
  | _ => Err InvalidIdentityRequest
  end.

(** The branch with an authorization: the validated authorization, the signer
    identifier and the update bytes. *)
Definition plan_versioned (current : option identity_state) (has_draft : bool) (operation : pyval)
    (owner_name owner_public_key signer_public_key : bytes) (signer_id : pyval) (mapping : pydict)
    : res (authorization * option pystr * bytes) :=
  let* auth := _validate_authorization (PDict mapping) in
  let* name := _OPERATION_NAMES (auth_operation auth) in
  raise_if negb (py_eq operation (PStr name)) with InvalidIdentityRequest;
  raise_if match current with
           | Some c => negb (bool_decide (st_owner_public_key c = owner_public_key)) && negb (auth_operation auth =? 5)
           | None => false
           end with InvalidIdentityRequest;
  raise_if (auth_operation auth =? 5) && negb has_draft with InvalidIdentityRequest;
  raise_if match current with
           | Some c => negb (bool_decide (auth_predecessor auth = st_state_hash c))
           | None => negb (bool_decide (auth_predecessor auth = zero_hash))
           end with InvalidIdentityRequest;
  let legacy_owner_rotation_proof :=
    (auth_operation auth =? 5) && match current with Some c => is_legacy c | None => false end in
  raise_if negb legacy_owner_rotation_proof &&
           match signer_id with PStr s => bool_decide (s = []) | _ => true end with InvalidIdentityRequest;
  let* id := signer_id_text signer_id in
  let* _ := _validate_transition current auth id signer_public_key in
  let* update := build_identity_update (PBytes owner_name) (PBytes owner_public_key)
                   (PInt (next_sequence current)) (Some (auth_items auth)) in
  Ok (auth, id, update).

(** The branch without one: only the owner updates a legacy record. *)
Definition plan_legacy (current : option identity_state)
    (owner_name owner_public_key signer_public_key : bytes) (signer_id : pyval) : res bytes :=
  raise_if match current with Some c => negb (bool_decide (st_owner_public_key c = owner_public_key)) | None => false end
    with InvalidIdentityRequest;
  raise_if match current with Some c => negb (is_legacy c) | None => false end with InvalidIdentityRequest;
  raise_if negb (bool_decide (signer_public_key = owner_public_key)) with InvalidIdentityRequest;
  raise_if match signer_id with PNone => false | _ => true end with InvalidIdentityRequest;
  build_identity_update (PBytes owner_name) (PBytes owner_public_key) (PInt (next_sequence current)) None.

(** [submit_identity] up to the transcript. *)
Definition submit_plan (owner_name owner_public_key signer_public_key operation : pyval)
    (auth_mapping : option pydict) (signer_id : pyval) (draft : option identity_draft)
    : prog submission_plan :=
  let! owner_name := lift (_validate_owner_name owner_name) in
  let! latched := call (IsOwnerLatched owner_name) in
  throw_if latched with InvalidIdentityRequest;
  let! owner_key := lift (_require_bytes (Some _KEY_LENGTH) false owner_public_key) in
  let! signer_key := lift (_require_bytes (Some _KEY_LENGTH) false signer_public_key) in
  let! current := read_state registry_environment (PBytes owner_name) in
  let! _ := match draft with
            | Some d => lift (check_draft d current owner_name owner_key auth_mapping)
            | None => Ret tt
            end in
  let! plan :=
    match auth_mapping with
    | Some mapping =>
        let! r := lift (plan_versioned current (bool_decide (is_Some draft)) operation owner_name owner_key
                          signer_key signer_id mapping) in
        let '(auth, id, update) := r in
        Ret (SubmissionPlan owner_name signer_key id current (Some auth) update (next_sequence current))
    | None =>
        let! update := lift (plan_legacy current owner_name owner_key signer_key signer_id) in
        Ret (SubmissionPlan owner_name signer_key None current None update (next_sequence current))
    end in
  throw_if match draft with
           | Some d => negb (bool_decide (sp_update plan = draft_signed_update_bytes d))
           | None => false
           end with InvalidIdentityRequest;
  Ret plan.

(** The signing step inside [complete_submission]; [None]: the consent expired. *)
Definition sign_update (signer_public_key update : bytes) (expires_at : Z) : prog (option bytes) :=
  let! public_key := call SignerPublicKey in
  throw_if negb (py_eq public_key (PBytes signer_public_key)) with InvalidIdentityRequest;
  let! now := call Now in
  let! expired :=
    if expires_at <=? now then Ret true else let! active := call SignerActive in Ret (negb active) in
  if (expired : bool) then let! _ := call SignerInvalidate in Ret None
  else
    let! signature := call (SignerSign update) in
    match signature with
    | PBytes s =>
        throw_if negb (length s =? _SIGNATURE_LENGTH)%nat with InvalidIdentityRequest;
        let! _ := lift (_verify_signature signer_public_key update s) in
        Ret (Some s)
    | _ => Raise InvalidIdentityRequest
    end.

(** A result that only carries a status and a reason. *)
Definition submission_failure (status : PublishStatus) (transcript : consent_transcript)
    (update : option bytes) (reason : pystr) : submission_result :=
  SubmissionResult status transcript None update None None (Some reason) None None.

(** A detached proof instead of a publication. *)
Definition proof_ready (transcript : consent_transcript) (update proof_bytes : bytes) (reason : pystr)
    (draft : identity_draft) (proof : identity_proof) : submission_result :=
  SubmissionResult st_PROOF_READY transcript None (Some update) (Some proof_bytes) None (Some reason)
    (Some draft) (Some proof).

Definition signed_proof_bytes (signer_id : option pystr) (signature : bytes) : res bytes :=
  match signer_id with
  | None => Ok signature
  | Some id => _canonical (py_dict [(1, PStr id); (2, PBytes signature)])
  end.

(** [complete_submission] after signing: a proof for a draft or a threshold set, or
    the publication of a single-signer envelope. *)
Definition publish_signed (plan : submission_plan) (transcript : consent_transcript)
    (draft : option identity_draft) (signature : bytes) : prog submission_result :=
  let update := sp_update plan in
  let current := sp_current plan in
  let expires_at := tr_expires_at transcript in
  match draft, sp_authorization plan with
  | Some d, _ =>
      let! proof := lift (IdentityProof (py_opt PStr (sp_signer_id plan)) (PBytes (sp_signer_public_key plan))
                            (PBytes signature)) in
      let! proof_bytes := lift (signed_proof_bytes (sp_signer_id plan) signature) in
      Ret (proof_ready transcript update proof_bytes (py "draft proof ready") d proof)
  | None, auth =>
      if match auth with Some a => 1 <? auth_threshold a | None => false end then
        match sp_signer_id plan with
        | None => Raise InvalidIdentityRequest
        | Some id =>
            let! proof_bytes := lift (_canonical (py_dict [(1, PStr id); (2, PBytes signature)])) in
            let! proof_draft := lift (IdentityDraft (PBytes update) (py_opt PBytes (st_envelope_bytes <$> current))
                                        (PTuple (PBytes <$> predecessors current))) in
            let! proof := lift (IdentityProof (PStr id) (PBytes (sp_signer_public_key plan)) (PBytes signature)) in
            Ret (proof_ready transcript update proof_bytes (py "threshold bundle required") proof_draft proof)
        end
      else
        let! envelope :=
          match auth, sp_signer_id plan with
          | None, _ => lift (_legacy_envelope update signature)
          | Some _, None => Raise InvalidIdentityRequest
          | Some _, Some id => lift (_versioned_envelope update id signature)
          end in
        let! r := attempt (call (PutEnvelope (hex (sp_owner_name plan)) envelope (st_state_hash <$> current) expires_at)) in
        let result status accepted reason :=
          SubmissionResult status transcript (Some envelope) None None accepted reason None None in
        match r with
        | Err StalePublication => Ret (result st_STALE None (Some (py "conditional publication rejected")))
        | Err ExpiredPublication => Ret (result st_EXPIRED None (Some (py "consent expired")))
        | Err _ =>
            let! accepted := _confirm (sp_owner_name plan) envelope current in
            Ret (result (if accepted then st_CONFIRMED else st_UNKNOWN) accepted
                   (Some (py "independent readback required")))
        | Ok _ =>
            let! accepted := _confirm (sp_owner_name plan) envelope current in
            Ret (result (if accepted then st_CONFIRMED else st_UNKNOWN) accepted
                   (if accepted then None else Some (py "readback did not confirm exact envelope")))
        end
  end.

Definition complete_submission (plan : submission_plan) (transcript : consent_transcript)
    (draft : option identity_draft) : prog submission_result :=
  let update := sp_update plan in
  let current := sp_current plan in
  let expires_at := tr_expires_at transcript in
  let! latest := read_state registry_environment (PBytes (sp_owner_name plan)) in
  if negb (_same_state current latest) then
    Ret (submission_failure st_STALE transcript None (py "accepted state changed before signing"))
  else
    let! now := call Now in
    if expires_at <=? now then Ret (submission_failure st_EXPIRED transcript None (py "consent expired"))
    else
      let! created := attempt (call SignerCreate) in
      match created with
      | Err _ => Ret (submission_failure st_FAILED transcript None (py "signing failed"))
      | Ok _ =>
          let! r := attempt (sign_update (sp_signer_public_key plan) update expires_at) in
          match r with
          | Err _ =>
              let! _ := call SignerInvalidate in
              Ret (submission_failure st_FAILED transcript None (py "signing failed"))
          | Ok None => Ret (submission_failure st_EXPIRED transcript None (py "consent expired"))
          | Ok (Some signature) =>
              let! latest := read_state registry_environment (PBytes (sp_owner_name plan)) in
              if negb (_same_state current latest) then
                Ret (submission_failure st_STALE transcript (Some update) (py "accepted state changed before publication"))
              else
                let! now := call Now in
                if expires_at <=? now then
                  Ret (submission_failure st_EXPIRED transcript (Some update) (py "consent expired"))
                else publish_signed plan transcript draft signature
          end
      end.

Definition submit_identity (owner_name owner_public_key signer_public_key operation : pyval)
    (args : consent_args) (auth_mapping : option pydict) (signer_id : pyval) (draft : option identity_draft)
    : prog submission_result :=
  let! plan := submit_plan owner_name owner_public_key signer_public_key operation auth_mapping signer_id draft in
  let! transcript := lift (ConsentTranscript (ca_authenticated_origin args) (ca_environment args) operation
    (sha256 (sp_update plan)) (ca_purpose args) (ca_capability args) (ca_expires_at args) (ca_replay_nonce args)
    (sp_sequence plan)
    (match sp_authorization plan with
     | Some a => Some (auth_epoch a)
     | None => match sp_current plan with Some c => st_generation c | None => None end
     end)
    (sp_update plan) (sp_signer_id plan) (Some (sp_signer_public_key plan))) in
  let! failure := _consent_gate (sp_owner_name plan) transcript in
  match failure with
  | Some (status, reason) => Ret (submission_failure status transcript None reason)
  | None =>
      with_owner_lock (sp_owner_name plan) (
        let! latched := call (IsOwnerLatched (sp_owner_name plan)) in
        if (latched : bool) then
          Ret (submission_failure st_FAILED transcript None (py "owner-key rotation is unresolved"))
        else complete_submission plan transcript draft)
  end.

Definition sign_draft (draft : identity_draft) (signer_public_key : pyval) (args : consent_args)
    (signer_id : pyval) : prog submission_result :=
  let! f := lift (draft_view draft) in
  let! latched := call (IsOwnerLatched (df_owner_name f)) in
  throw_if latched with InvalidIdentityRequest;
  let! operation := lift (operation_name (df_authorization f)) in
  submit_identity (PBytes (df_owner_name f)) (PBytes (df_owner_public_key f)) signer_public_key (PStr operation)
    args (auth_items <$> df_authorization f) signer_id (Some draft).

(** [publish_bundle] once the transcript is approved. *)
Definition publish_approved (owner_name envelope : bytes) (previous_state : option identity_state)
    (expires_at : Z) : prog publication_result :=
  let result status reason := PublicationResult status (Some envelope) None (Some reason) None in
  let! current := read_state registry_environment (PBytes owner_name) in
  if negb (_same_state previous_state current) then
    Ret (result st_STALE (py "accepted state changed before publication"))
  else
    let! now := call Now in
    if expires_at <=? now then Ret (result st_EXPIRED (py "consent expired"))
    else
      let! r := attempt (with_owner_lock owner_name (
        let! latched := call (IsOwnerLatched owner_name) in
        if (latched : bool) then Ret (Some (result st_FAILED (py "owner-key rotation is unresolved")))
        else
          let! _ := call (PutEnvelope (hex owner_name) envelope (st_state_hash <$> current) expires_at) in
          Ret None)) in
      match r with
      | Ok (Some failed) => Ret failed
      | Err StalePublication => Ret (result st_STALE (py "conditional publication rejected"))
      | Err ExpiredPublication => Ret (result st_EXPIRED (py "consent expired"))
      | Err _ =>
          _confirm_publication owner_name envelope previous_state (py "independent readback did not confirm dispatch")
      | Ok None =>
          _confirm_publication owner_name envelope previous_state (py "readback did not confirm exact envelope")
      end.

Definition is_rotation (auth : option authorization) : bool :=
  match auth with Some a => auth_operation a =? 5 | None => false end.

Definition publish_bundle (bundle : identity_bundle) (args : consent_args) : prog publication_result :=
  let draft := bundle_draft bundle in
  throw_if (length (bundle_proofs bundle) =? 0)%nat with InvalidIdentityRequest;
  let! f := lift (draft_view draft) in
  let auth := df_authorization f in
  throw_if is_rotation auth with InvalidIdentityRequest;
  let! envelope := lift (finalize bundle) in
  let owner_name := df_owner_name f in
  let result status reason := PublicationResult status (Some envelope) None (Some reason) None in
  let! latched := call (IsOwnerLatched owner_name) in
  if (latched : bool) then Ret (result st_FAILED (py "owner-key rotation is unresolved"))
  else
    let! previous_state := lift (_draft_previous_state draft) in
    let! current := read_state registry_environment (PBytes owner_name) in
    if negb (_same_state previous_state current) then
      Ret (result st_STALE (py "accepted state changed before publication"))
    else
      let! operation := lift (operation_name auth) in
      let! transcript := lift (ConsentTranscript (ca_authenticated_origin args) (ca_environment args) (PStr operation)
        (sha256 envelope) (ca_purpose args) (ca_capability args) (ca_expires_at args) (ca_replay_nonce args)
        (df_sequence f)
        (match auth with
         | Some a => Some (auth_epoch a)
         | None => match previous_state with Some p => st_generation p | None => None end
         end)
        envelope None None) in
      let! failure := _consent_gate owner_name transcript in
      match failure with
      | Some (status, reason) => Ret (result status reason)
      | None => publish_approved owner_name envelope previous_state (tr_expires_at transcript)
      end.

Definition confirm_bundle (bundle : identity_bundle) : prog publication_result :=
  let draft := bundle_draft bundle in
  let! f := lift (draft_view draft) in
  throw_if is_rotation (df_authorization f) with InvalidIdentityRequest;
  let! envelope := lift (finalize bundle) in
  let! previous_state := lift (_draft_previous_state draft) in
  _confirm_publication (df_owner_name f) envelope previous_state (py "readback did not confirm exact envelope").
End Publish.
