(* ===== verification/Dispatch.v ===== *)
(** Owner-key rotation through the adapter: preparing a one-use publication,
    dispatching it under a wallet permit, and confirming it from a fresh remote
    read (identity.py, [prepare_owner_key_rotation_publication],
    [dispatch_owner_key_rotation], [confirm_owner_key_rotation]). *)

From S2P Require Import Prelude PyVal Sha256 Interfaces SignedUpdate Envelope EnvelopeFacts Draft Consent Rotation Effects Adapter.

Open Scope Z_scope.

Section Dispatch.
Context `{Cbor} `{Ed25519}.
Context (registry_environment : option pystr) (rotation_token : Z).

(** The binding attributes of a publication. *)
Definition publication_attrs (p : rotation_publication) : res rotation_binding :=
  let* f := draft_view (bundle_draft (pub_bundle p)) in
  Ok (RotationBinding (Some (pub_environment p)) (df_owner_name f)
        (st_owner_public_key (pub_previous_state p)) (df_owner_public_key f)
        (st_state_hash (pub_previous_state p)) (df_sequence f) (sha256 (pub_envelope_bytes p))).

(** [publication._matches_intent(intent)] *)
Definition publication_matches (p : rotation_publication) (intent : rotation_binding) : res bool :=
  let* attrs := publication_attrs p in
  Ok (bool_decide (_rotation_binding attrs = _rotation_binding intent)).

(** [publication._matches_bundle(bundle)] *)
Definition publication_matches_bundle (p : rotation_publication) (bundle : identity_bundle) : bool :=
  bool_decide (bundle = pub_bundle p) &&
  match finalize bundle, _draft_previous_state (bundle_draft bundle), draft_view (bundle_draft bundle) with
  | Ok envelope, Ok (Some previous), Ok f =>
      bool_decide (envelope = pub_envelope_bytes p) && bool_decide (previous = pub_previous_state p) &&
      match df_authorization f with Some a => auth_operation a =? 5 | None => false end
  | _, _, _ => false
  end.

(** [publication._consume_for(adapter_token)] *)
Definition consume_for (p : rotation_publication) : prog bool :=
  if pub_adapter_token p =? rotation_token then call (ConsumeCell (pub_cell p)) else Ret false.

(** The checks of [confirm_owner_key_rotation] on the state read back. *)
Definition confirms (intent : rotation_binding) (st : identity_state) (su : signed_update) : bool :=
  match su_authorization su with
  | None => false
  | Some a =>
      (auth_operation a =? 5) && bool_decide (auth_predecessor a = rb_predecessor_state_hash intent) &&
      bool_decide (st_owner_name st = rb_owner_name intent) &&
      bool_decide (st_owner_public_key st = rb_successor_owner_public_key intent) &&
      (su_sequence su =? rb_sequence intent)
  end.

(** The [try] block of [confirm_owner_key_rotation]: the confirmed state, if any. *)
Definition verify_remote (intent : rotation_binding) (remote_envelope : bytes) : prog (option identity_state) :=
  let owner := rb_owner_name intent in
  let! st := _parse_state_with_history registry_environment owner (PBytes remote_envelope) (rb_environment intent) in
  let! su := lift (_decode_signed_update (PBytes (st_signed_update_bytes st))) in
  if negb (confirms intent st su) then Ret None
  else
    let! ok := _rotation_environment_matches registry_environment (rb_environment intent) in
    if negb ok then Ret None
    else
      let! predecessor_envelope := call (GetEnvelopeByHash (hex owner) (rb_predecessor_state_hash intent)) in
      match predecessor_envelope with
      | PBytes pe =>
          let! predecessor := _parse_state_with_history registry_environment owner (PBytes pe) (rb_environment intent) in
          if negb (bool_decide (st_owner_public_key predecessor = rb_predecessor_owner_public_key intent)) ||
             negb (bool_decide (st_state_hash predecessor = rb_predecessor_state_hash intent)) ||
             negb (st_sequence st =? st_sequence predecessor + 1)
          then Ret None else Ret (Some st)
      | _ => Ret None
      end.

Definition confirm_owner_key_rotation (intent : rotation_binding) : prog (option rotation_confirmation) :=
  let! registered := call (Register intent false) in
  throw_if negb registered with InvalidIdentityRequest;
  let! ok := _rotation_environment_matches registry_environment (rb_environment intent) in
  if negb ok then Ret None
  else
    let! available := _rotation_transport_available in
    if negb available then Ret None
    else
      let! remote := attempt (call (GetRemoteEnvelope (hex (rb_owner_name intent)))) in
      match remote with
      | Err _ => Ret None
      | Ok remote_envelope =>
          let! ok := _rotation_environment_matches registry_environment (rb_environment intent) in
          if negb ok then Ret None
          else
            match remote_envelope with
            | PBytes b =>
                if negb (bool_decide (sha256 b = rb_envelope_hash intent)) then Ret None
                else
                  let! r := attempt (verify_remote intent b) in
                  match r with
                  | Ok (Some st) =>
                      let! ok := _rotation_environment_matches registry_environment (rb_environment intent) in
                      if negb ok then Ret None
                      else Ret (Some (RotationConfirmation intent (st_state_hash st)))
                  | _ => Ret None
                  end
            | _ => Ret None
            end
      end.

Definition environment_mismatch : dispatch_result :=
  RotationDispatchResult st_UNKNOWN None None (Some (py "rotation environment mismatch")).

Definition dispatch_unknown (reason : pystr) : dispatch_result :=
  RotationDispatchResult st_UNKNOWN None None (Some reason).

Definition dispatch_confirmed (intent : rotation_binding) (reason : pystr) : prog dispatch_result :=
  let! confirmation := confirm_owner_key_rotation intent in
  match confirmation with
  | Some c => Ret (RotationDispatchResult st_CONFIRMED (Some c) None None)
  | None => Ret (dispatch_unknown reason)
  end.

(** [RotationDispatchRejection(seal, status, publication)]: only an expiry can be
    turned into a rejection capability. *)
Definition make_rejection (status : PublishStatus) (p : rotation_publication) : prog rotation_rejection :=
  match status with
  | st_EXPIRED => let! cell := call NewCell in Ret (RotationDispatchRejection status p cell)
  | _ => Raise InvalidIdentityRequest
  end.

(** [prewrite_result]: a fresh remote read decides what may be reported when the
    write did not happen. *)
Definition prewrite_result (p : rotation_publication) (intent : rotation_binding) (status : PublishStatus)
    (reason : pystr) (candidate_observed_locally clearable_rejection : bool) : prog dispatch_result :=
  let matches := _rotation_environment_matches registry_environment (rb_environment intent) in
  let! ok := matches in
  if negb ok then Ret environment_mismatch
  else
    let! remote := attempt (call (GetRemoteEnvelope (hex (rb_owner_name intent)))) in
    match remote with
    | Err _ => Ret (dispatch_unknown (py "independent readback unavailable after pre-write rejection"))
    | Ok remote_envelope =>
        let! ok := matches in
        if negb ok then Ret environment_mismatch
        else
          match remote_envelope with
          | PBytes b =>
              if candidate_observed_locally || bool_decide (sha256 b = rb_envelope_hash intent) then
                dispatch_confirmed intent (py "candidate observed but independent confirmation incomplete")
              else if negb clearable_rejection then
                Ret (dispatch_unknown (py "pre-write outcome cannot safely clear the durable intent"))
              else
                let! ok := matches in
                if negb ok then Ret environment_mismatch
                else
                  let! rejection := make_rejection status p in
                  Ret (RotationDispatchResult status None (Some rejection) (Some reason))
          | _ => Ret (dispatch_unknown (py "independent readback unavailable after pre-write rejection"))
          end
    end.

(** The body of [dispatch_owner_key_rotation] under the owner lock. *)
Definition dispatch_locked (p : rotation_publication) (owner_name : bytes) (intent : rotation_binding)
    : prog dispatch_result :=
  let! latched := call (IsLatched intent) in
  throw_if negb latched with InvalidIdentityRequest;
  let! available := _rotation_transport_available in
  if negb available then
    prewrite_result p intent st_FAILED (py "rotation transport capability unavailable") false false
  else
    let! r := attempt (read_state registry_environment (PBytes owner_name)) in
    match r with
    | Err e =>
        if is_IdentityAdapterError e then
          prewrite_result p intent st_FAILED (py "pre-write state validation failed") false false
        else Raise e
    | Ok current =>
        if negb (_same_state (Some (pub_previous_state p)) current) then
          let observed := match current with
                          | Some c => bool_decide (sha256 (st_envelope_bytes c) = rb_envelope_hash intent)
                          | None => false
                          end in
          prewrite_result p intent st_STALE (py "accepted state changed before publication") observed false
        else
          let! now := call Now in
          if pub_expires_at p <=? now then prewrite_result p intent st_EXPIRED (py "consent expired") false true
          else
            let! ok := _rotation_environment_matches registry_environment (rb_environment intent) in
            if negb ok then Ret environment_mismatch
            else
              let! w := attempt (call (PutEnvelope (hex owner_name) (pub_envelope_bytes p)
                                         (Some (st_state_hash (pub_previous_state p))) (pub_expires_at p))) in
              match w with
              | Err StalePublication =>
                  prewrite_result p intent st_STALE (py "conditional publication rejected") false false
              | Err ExpiredPublication => prewrite_result p intent st_EXPIRED (py "consent expired") false true
              | Err _ => dispatch_confirmed intent (py "independent readback did not confirm dispatch")
              | Ok _ => dispatch_confirmed intent (py "readback did not confirm exact envelope")
              end
    end.

Definition dispatch_owner_key_rotation (p : rotation_publication) (permit : dispatch_permit)
    : prog dispatch_result :=
  let intent := permit_intent permit in
  throw_if negb (permit_authentic permit) with InvalidIdentityRequest;
  let! matching := lift (publication_matches p intent) in
  throw_if negb matching with InvalidIdentityRequest;
  let! ready := call (IsDispatchReady intent) in
  throw_if negb ready with InvalidIdentityRequest;
  let! consumed := consume_for p in
  throw_if negb consumed with InvalidIdentityRequest;
  let! ok := _rotation_environment_matches registry_environment (rb_environment intent) in
  if negb ok then Ret environment_mismatch
  else
    let! attrs := lift (publication_attrs p) in
    let owner_name := rb_owner_name attrs in
    with_owner_lock owner_name (dispatch_locked p owner_name intent).

(** [prepare_owner_key_rotation_publication] *)
Definition prepare_owner_key_rotation_publication (bundle : identity_bundle) (args : consent_args)
    : prog publication_result :=
  let draft := bundle_draft bundle in
  let failed reason := PublicationResult st_FAILED None None (Some reason) None in
  let! f := lift (draft_view draft) in
  let owner_name := df_owner_name f in
  let! latched := call (IsOwnerLatched owner_name) in
  if (latched : bool) then Ret (failed (py "owner-key rotation is unresolved"))
  else match df_authorization f with
  | None => Raise InvalidIdentityRequest
  | Some a =>
      throw_if negb (auth_operation a =? 5) with InvalidIdentityRequest;
      let! available := _rotation_transport_available in
      if negb available then Ret (failed (py "rotation transport capability unavailable"))
      else match ca_environment args, valid_registry_environment (ca_environment args) with
      | PStr environment, true =>
          let matches := _rotation_environment_matches registry_environment (Some environment) in
          let! ok := matches in
          if negb ok then Ret (failed (py "rotation environment mismatch"))
          else
            let! envelope := lift (finalize bundle) in
            let result status reason := PublicationResult status (Some envelope) None (Some reason) None in
            let! previous := lift (_draft_previous_state draft) in
            match previous with
            | None => Raise InvalidIdentityRequest
            | Some previous_state =>
                let! current := read_state registry_environment (PBytes owner_name) in
                let! ok := matches in
                if negb ok then Ret (failed (py "rotation environment mismatch"))
                else if negb (_same_state previous current) then
                  Ret (result st_STALE (py "accepted state changed before publication"))
                else
                  let! transcript := lift (ConsentTranscript (ca_authenticated_origin args) (ca_environment args)
                    (PStr (py "owner-key-rotation")) (sha256 envelope) (ca_purpose args) (ca_capability args)
                    (ca_expires_at args) (ca_replay_nonce args) (df_sequence f) (Some (auth_epoch a)) envelope None None) in
                  let! failure := _consent_gate owner_name transcript in
                  match failure with
                  | Some (status, reason) => Ret (result status reason)
                  | None =>
                      let! ok := matches in
                      if negb ok then Ret (failed (py "rotation environment mismatch"))
                      else
                        let! current := read_state registry_environment (PBytes owner_name) in
                        let! ok := matches in
                        if negb ok then Ret (failed (py "rotation environment mismatch"))
                        else if negb (_same_state previous current) then
                          Ret (result st_STALE (py "accepted state changed before publication"))
                        else
                          let! now := call Now in
                          if tr_expires_at transcript <=? now then Ret (result st_EXPIRED (py "consent expired"))
                          else
                            let! cell := call NewCell in
                            Ret (PublicationResult st_READY (Some envelope) None None
                                   (Some (RotationPublication environment bundle envelope previous_state
                                            (tr_expires_at transcript) rotation_token cell)))
                  end
            end
      | _, _ => Ret (failed (py "rotation environment mismatch"))
      end
  end.
End Dispatch.
