(* ===== verification/ReadFacts.v ===== *)
(** What reading through the adapter guarantees: every state it returns is backed by
    a verified chain of envelopes down to a signed anchor, and the walk back through
    history is bounded. *)

From S2P Require Import Prelude PyVal Sha256 Interfaces SignedUpdate Envelope EnvelopeFacts Chain Draft Consent Rotation Effects Adapter.

Open Scope Z_scope.

(** * Outcomes and lengths of programs *)

(** Whatever the answers, a value [p] returns satisfies [Φ]. *)
Fixpoint result_ok {A} (p : prog A) (Φ : A -> Prop) : Prop :=
  match p with Ret a => Φ a | Raise _ => True | Do _ c => forall r, result_ok (c r) Φ end.

Lemma result_bind {A B} (p : prog A) (k : A -> prog B) Φ :
  result_ok p (fun a => result_ok (k a) Φ) -> result_ok (bind p k) Φ.
Proof. induction p as [a|e|C ev c IH]; simpl; auto. Qed.

Lemma result_mono {A} (p : prog A) (Φ Ψ : A -> Prop) :
  result_ok p Φ -> (forall a, Φ a -> Ψ a) -> result_ok p Ψ.
Proof. intros Hp HI. induction p as [a|e|C ev c IH]; simpl in *; auto. Qed.

Lemma result_attempt {A} (p : prog A) (Φ : res A -> Prop) :
  result_ok p (fun a => Φ (Ok a)) -> (forall e, Φ (Err e)) -> result_ok (attempt p) Φ.
Proof. intros Hp He. induction p as [a|e|C ev c IH]; simpl in *; auto. Qed.

Lemma result_any {A} (p : prog A) (Φ : A -> Prop) : (forall a, Φ a) -> result_ok p Φ.
Proof. intros HΦ. induction p as [a|e|C ev c IH]; simpl; auto. Qed.

Lemma result_lift {A} (r : res A) (Φ : A -> Prop) : (forall a, r = Ok a -> Φ a) -> result_ok (lift r) Φ.
Proof. destruct r; simpl; auto. Qed.

Lemma result_returns {A} (p : prog A) Φ t a : result_ok p Φ -> returns p t (Ok a) -> Φ a.
Proof.
  unfold returns. revert t. induction p as [b|e|B ev c IH]; simpl; intros t Hp Ht.
  - destruct Ht as [_ [= ->]]. done.
  - by destruct Ht as [_ [=]].
  - destruct Ht as [[_ [=]]|(r & t' & _ & Ht)]. eauto.
Qed.

Lemma returns_attempt_call {B : Set} {A} (ev : event B) (k : res B -> prog A) t o :
  returns (let! r := attempt (call ev) in k r) t o -> exists r t', t = MkStep ev r :: t' /\ returns (k r) t' o.
Proof.
  unfold returns. simpl. intros [[_ E]|(r & t' & -> & Ht)].
  - by destruct o.
  - exists r, t'. split; [done|]. by destruct r.
Qed.

Section ReadFacts.
Context `{Cbor} `{Ed25519}.
Context (env : option pystr).

(** * Verified states *)

(** The state heads a chain of accepted states of the owner, whose envelopes are
    exactly its recorded predecessors. *)
Definition verified (owner : bytes) (st : identity_state) : Prop :=
  exists l, chain (st :: l) /\ Forall (fun s => st_owner_name s = owner) (st :: l) /\
    st_envelope_bytes <$> l = st_predecessor_envelopes st.

Lemma verified_governance owner st : verified owner st -> governance_ok st.
Proof. intros (l & Hc & _). apply chain_governance in Hc. by apply Forall_cons in Hc as [? _]. Qed.

(** The parser takes the version-1 branch on an envelope that carries an authorization. *)
Lemma parse_carries owner v value a prev st :
  _require_canonical v = Ok value -> envelope_authorization value = Ok (Some a) ->
  _parse_identity_envelope owner v prev = Ok st -> st_signer_set st = auth_signers a.
Proof.
  intros Hv Ha Hp. unfold _parse_identity_envelope in Hp. rewrite Hv in Hp. cbn [res_bind] in Hp.
  pose proof (require_canonical_bytes _ _ Hv) as (e & -> & _).
  unfold envelope_authorization in Ha. destruct value as [| | | | | | |d|]; try done.
  destruct (dict_get 1 d) as [[| |[|[]|]| | | | | |]|] eqn:E1; try done.
  destruct (dict_get 2 d) as [[| | |u| | | | |]|] eqn:E2; try done.
  apply res_bind_ok in Ha as (su & Hsu & [= Ha]).
  case_match; [done|]. case_match.
  - unfold parse_legacy_envelope, dict_item in Hp. rewrite E1 in Hp. simpl in Hp. done.
  - case_match; [done|]. unfold dict_item in Hp. rewrite E1 in Hp. cbn [of_option res_bind] in Hp.
    unfold parse_versioned_envelope, dict_item in Hp. rewrite E2 in Hp. cbn [of_option res_bind _require_bytes] in Hp.
    destruct (of_option KeyError (dict_get 3 d)) as [v3|]; [|done]. cbn [andb res_bind] in Hp.
    rewrite Hsu in Hp. cbn [res_bind] in Hp. rewrite Ha in Hp. case_match; [done|].
    repeat (apply res_bind_ok in Hp as (? & _ & Hp)). injection Hp as <-. done.
Qed.

(** An accepted version-1 state records its predecessor's envelopes. *)
Lemma accepted_predecessors prev st :
  accepted prev st -> is_legacy st = false ->
  st_predecessor_envelopes st = match prev with Some p => st_envelope_bytes p :: st_predecessor_envelopes p | None => [] end.
Proof. intros [? _ _ _ _ Hs _|a _ _ _ _ _ _ _ Hp] Hl; [|done]. apply is_legacy_nil in Hs. congruence. Qed.

Lemma verified_anchor owner v st : _parse_identity_envelope owner v None = Ok st -> verified owner st.
Proof.
  intros (Ha & _ & Ho & _)%parse_accepted. exists []. split; [by constructor|]. split; [by constructor|].
  destruct Ha as [? _ _ _ _ _ Hp|? _ _ _ _ _ _ _ Hp]; by rewrite Hp.
Qed.

Lemma verified_next owner v p st :
  verified owner p -> _parse_identity_envelope owner v (Some p) = Ok st -> is_legacy st = false -> verified owner st.
Proof.
  intros (l & Hc & Ho & Hp) (Ha & _ & Hn & _)%parse_accepted Hl. exists (p :: l).
  split; [by constructor|]. split; [by constructor|]. by rewrite (accepted_predecessors _ _ Ha Hl), fmap_cons, Hp.
Qed.

(** Envelopes that carry an authorization. *)
Definition carries (v : pyval) : Prop :=
  exists value a, _require_canonical v = Ok value /\ envelope_authorization value = Ok (Some a).

Lemma carries_governed owner v prev st :
  carries v -> _parse_identity_envelope owner v prev = Ok st -> is_legacy st = false.
Proof.
  intros (value & a & Hv & Ha) Hp. pose proof (parse_carries _ _ _ _ _ _ Hv Ha Hp) as Hs.
  assert (auth_wf a) as [_ _ Ht _ _].
  { unfold envelope_authorization in Ha. repeat (case_match; try done).
    apply res_bind_ok in Ha as (su & [_ _ Hw]%decode_signed_update_wf & [= Ha]). auto. }
  unfold is_legacy. rewrite Hs. apply Nat.eqb_neq. lia.
Qed.

Lemma replay_verified owner st ch st' :
  verified owner st -> Forall carries ch -> replay_history owner st ch = Ok st' ->
  verified owner st' /\ from_option (fun v => v = PBytes (st_envelope_bytes st')) (st = st') (last ch).
Proof.
  intros Hst Hch. revert st Hst. induction Hch as [|v ch Hv Hch IH]; intros st Hst; simpl.
  - intros [= <-]. done.
  - intros Hr. apply res_bind_ok in Hr as (s1 & Hs1 & Hr).
    pose proof (verified_next _ _ _ _ Hst Hs1 (carries_governed _ _ _ _ Hv Hs1)) as Hs.
    destruct (IH s1 Hs Hr) as [Hv' Hl]. split; [done|]. destruct ch as [|w ch].
    2: { rewrite last_cons_cons. destruct (last (w :: ch)) eqn:E; [done|]. by apply last_None in E. }
    simpl in *. subst. by apply parse_accepted in Hs1 as (_ & _ & _ & ->).
Qed.

(** The walk returns a verified anchor and, oldest first, the authorized envelopes
    that follow it up to the one it started from. *)
Lemma walk_verified depth owner re v ch :
  Forall carries ch ->
  result_ok (walk_history env depth owner re v ch) (fun r =>
    verified owner r.1 /\ Forall carries r.2 /\
    exists pre, r.2 = pre ++ ch /\ from_option (fun w => w = v) (v = PBytes (st_envelope_bytes r.1)) (last pre)).
Proof.
  revert v ch. induction depth as [|d IH]; intros v ch Hch; cbn [walk_history];
    apply result_bind, result_lift; intros value Hv; apply result_bind, result_lift; intros oa Hoa.
  1-2: assert (result_ok (let! st := lift (_parse_identity_envelope owner v None) in Ret (st, ch)) (fun r =>
    verified owner r.1 /\ Forall carries r.2 /\
    exists pre, r.2 = pre ++ ch /\ from_option (fun w => w = v) (v = PBytes (st_envelope_bytes r.1)) (last pre))) as Hanchor
    by (apply result_bind, result_lift; intros st Hst; simpl; split; [by eapply verified_anchor|]; split; [done|];
        exists []; split; [done|]; simpl; by apply parse_accepted in Hst as (_ & _ & _ & ->)).
  - destruct oa as [a|]; [|done]. case_bool_decide; [exact I|done].
  - destruct oa as [a|]; [|done]. case_bool_decide; [|done].
    apply result_bind, result_any. intros ok. destruct (negb ok); [exact I|].
    apply result_bind, result_attempt; [|intros; exact I]. apply result_any. intros w.
    assert (carries v) as Hc by (exists value, a; done).
    assert (result_ok (walk_history env d owner re w (v :: ch)) (fun r =>
      verified owner r.1 /\ Forall carries r.2 /\
      exists pre, r.2 = pre ++ ch /\ from_option (fun w => w = v) (v = PBytes (st_envelope_bytes r.1)) (last pre))) as Hrec.
    { eapply result_mono; [apply IH; by constructor|]. intros r (Hr1 & Hr2 & pre & Hpre & _).
      split; [done|]. split; [done|]. exists (pre ++ [v]). split; [by rewrite Hpre, <-app_assoc|].
      rewrite last_snoc. done. }
    destruct w; done.
Qed.

Lemma history_verified owner v re :
  result_ok (_parse_state_with_history env owner v re) (fun st => verified owner st /\ v = PBytes (st_envelope_bytes st)).
Proof.
  unfold _parse_state_with_history. apply result_bind. eapply result_mono; [by apply walk_verified|].
  intros [st ch] (Hst & Hch & pre & Hpre & Hlast). simpl in *. rewrite app_nil_r in Hpre. subst pre.
  apply result_lift. intros st' Hr. destruct (replay_verified _ _ _ _ Hst Hch Hr) as [Hv Hl]. split; [done|].
  destruct (last ch) as [w|]; simpl in *; subst; done.
Qed.

Lemma read_state_result v :
  result_ok (read_state env v) (fun o => forall st, o = Some st -> exists owner, v = PBytes owner /\ verified owner st).
Proof.
  unfold read_state. apply result_bind, result_lift. intros owner (-> & _)%validate_owner_name_ok.
  apply result_bind, result_attempt; [|intros; exact I]. apply result_any. intros w.
  assert (result_ok (let! st := _parse_state_with_history env owner w None in Ret (Some st)) (fun o =>
    forall st, o = Some st -> exists owner', PBytes owner = PBytes owner' /\ verified owner' st)) as Hw.
  { apply result_bind. eapply result_mono; [apply history_verified|]. intros st [Hst _] ? [= <-]. eauto. }
  destruct w; done.
Qed.

(** C12. Every state [read_state] returns is verified: it was parsed from the very
    bytes the transport returned for the owner, and it heads a chain of accepted
    states down to a legacy or genesis anchor, all for that owner, whose envelopes are
    exactly the state's recorded predecessors; a governed state has two-of-three
    governance.  This holds whatever the transport answers. *)
Theorem read_state_verified v t st :
  returns (read_state env v) t (Ok (Some st)) ->
  exists owner t', v = PBytes owner /\ verified owner st /\ governance_ok st /\
    t = MkStep (GetEnvelope (hex owner)) (Ok (PBytes (st_envelope_bytes st))) :: t'.
Proof.
  intros Ht. pose proof (result_returns _ _ _ _ (read_state_result v) Ht st eq_refl) as (owner & -> & Hst).
  exists owner. unfold read_state in Ht.
  destruct (_validate_owner_name (PBytes owner)) as [o|] eqn:Eo; [|by destruct Ht as [_ [=]]].
  apply validate_owner_name_ok in Eo as ([= <-] & _). cbn [lift bind] in Ht.
  apply returns_attempt_call in Ht as (r & t' & -> & Ht). exists t'. split; [done|]. split; [done|].
  split; [by eapply verified_governance|]. destruct r as [w|]; [|by destruct Ht as [_ [=]]].
  assert (w <> PNone) as Hne by (by intros ->; destruct Ht as [_ [=]]).
  assert (returns (let! st := _parse_state_with_history env owner w None in Ret (Some st)) t' (Ok (Some st))) as Ht'
    by (destruct w; done).
  do 3 f_equal. clear Ht.
  refine (result_returns _ (fun o => forall s, o = Some s -> w = PBytes (st_envelope_bytes s)) _ _ _ Ht' st eq_refl).
  apply result_bind. eapply result_mono; [apply history_verified|]. intros s [_ Hs] ? [= <-]. exact Hs.
Qed.

(** * The reads of a walk *)

(** The envelope is canonical and its authorization names the predecessor with the
    state hash [h]. *)
Definition names_predecessor (w : pyval) (h : bytes) : Prop :=
  exists value a, _require_canonical w = Ok value /\ envelope_authorization value = Ok (Some a) /\
    auth_operation a ∈ [2; 3; 4; 5] /\ h = auth_predecessor a.

(** [walked owner depth r l depth' last]: with [depth] predecessor reads left and the
    answer [r] in hand, the reads [l] were made, each for the hash that the answer right
    before it names; [depth'] reads are left and [last] is the last answer. *)
Inductive walked (owner : bytes) : nat -> res pyval -> list step -> nat -> res pyval -> Prop :=
  | walked_here depth r : walked owner depth r [] depth r
  | walked_back depth w h r l depth' last :
      names_predecessor w h -> walked owner depth r l depth' last ->
      walked owner (S depth) (Ok w) (MkStep (GetEnvelopeByHash (hex owner) h) r :: l) depth' last.

Lemma walked_count owner depth r l depth' last :
  walked owner depth r l depth' last -> (length l + depth' = depth)%nat.
Proof. induction 1; simpl; lia. Qed.

(** How a walk that stopped at the answer [last] ends: a transport error is a
    [TransportFailure], an absent predecessor an [InvalidIdentityState], and an envelope that
    names a predecessor is left unread only when no reads are left. *)
Definition walk_ended {A} (depth : nat) (last : res pyval) (o : res A) : Prop :=
  match last with
  | Err _ => o = Err TransportFailure
  | Ok PNone => o = Err InvalidIdentityState
  | Ok w => forall h, names_predecessor w h -> depth = 0%nat /\ o = Err InvalidIdentityState
  end.

Lemma steps_value {A} (o : res A) t p' : steps (lift o) t p' -> t = [] /\ p' = lift o.
Proof. by destruct o. Qed.

Lemma lift_inj {A} (a b : res A) : lift a = lift b -> a = b.
Proof. destruct a, b; simpl; congruence. Qed.

Lemma is_none_dec (v : pyval) : v = PNone \/ v <> PNone.
Proof. destruct v; first [by left|by right]. Qed.

(** Walks that make no further read. *)
Lemma walked_stops {A} owner depth w (p : prog A) t p' :
  w <> PNone -> (exists o, p = lift o /\ forall h, names_predecessor w h -> depth = 0%nat /\ o = Err InvalidIdentityState) ->
  steps p t p' ->
  exists depth' last, walked owner depth (Ok w) t depth' last /\ forall o, p' = lift o -> walk_ended depth' last o.
Proof.
  intros Hw (o & -> & Hn) [-> ->]%steps_value. exists depth, (Ok w). split; [constructor|].
  intros o' <-%lift_inj. by destruct w.
Qed.

Lemma walk_end_value {A} owner w ch (k : identity_state * list pyval -> prog A) :
  (forall r, exists o, k r = lift o) ->
  exists o, (let! r := let! st := lift (_parse_identity_envelope owner w None) in Ret (st, ch) in k r) = lift o.
Proof. intros Hk. destruct (_parse_identity_envelope owner w None) as [st|e]; [apply Hk|by exists (Err e)]. Qed.

Lemma read_end_value {A} owner (r : identity_state * list pyval) (g : identity_state -> A) :
  exists o, (let! st := lift (replay_history owner r.1 r.2) in Ret (g st)) = lift o.
Proof. destruct (replay_history owner r.1 r.2) as [st|e]; [by exists (Ok (g st))|by exists (Err e)]. Qed.

Lemma steps_assoc {A B C} (p : prog A) (f : A -> prog B) (g : B -> prog C) t p' :
  steps (let! b := let! a := p in f a in g b) t p' ->
  exists p'', steps (let! a := p in let! b := f a in g b) t p'' /\ forall o, p' = lift o -> p'' = lift o.
Proof.
  revert t. induction p as [a|e|X ev c IH]; intros t; simpl; [eauto|eauto|].
  intros [[-> ->]|(r & t' & -> & Hs)]; [eexists; split; [by left|by intros []]|].
  destruct (IH r t' Hs) as (p'' & Hs' & Ho). exists p''. split; [right; eauto|done].
Qed.

Lemma names_predecessor_eq w value a h :
  _require_canonical w = Ok value -> envelope_authorization value = Ok (Some a) -> names_predecessor w h ->
  auth_operation a ∈ [2; 3; 4; 5] /\ h = auth_predecessor a.
Proof. intros Hv Ha (value' & a' & Hv' & Ha' & Hop & ->). by assert (a' = a) as -> by congruence. Qed.

Lemma walk_steps {A} depth owner w ch (k : identity_state * list pyval -> prog A) t p' :
  w <> PNone -> (forall r, exists o, k r = lift o) ->
  steps (let! r := walk_history env depth owner None w ch in k r) t p' ->
  exists depth' last, walked owner depth (Ok w) t depth' last /\ forall o, p' = lift o -> walk_ended depth' last o.
Proof.
  revert w ch t. induction depth as [|d IH]; intros w ch t Hw Hk; cbn [walk_history];
    destruct (_require_canonical w) as [value|e] eqn:Hv; cbn [lift bind].
  2, 4: apply walked_stops; [done|]; exists (Err e); split; [done|]; intros h (? & ? & ? & _); congruence.
  1-2: destruct (envelope_authorization value) as [[a|]|e] eqn:Ha; cbn [lift bind].
  3, 6: apply walked_stops; [done|]; exists (Err e); split; [done|]; intros h (? & ? & ? & ? & _); congruence.
  2, 4: apply walked_stops; [done|]; destruct (walk_end_value owner w ch k Hk) as [o Ho]; exists o; split; [exact Ho|];
    intros h (? & ? & ? & ? & _); congruence.
  all: case_bool_decide as Hop.
  2, 4: apply walked_stops; [done|]; destruct (walk_end_value owner w ch k Hk) as [o Ho]; exists o; split; [exact Ho|];
    intros h [? _]%(names_predecessor_eq _ _ _ _ Hv Ha); done.
  - apply walked_stops; [done|]. by exists (Err InvalidIdentityState).
  - cbn [lift bind call attempt negb steps]. intros [[-> ->]|(r & t' & -> & Hs)].
    + exists (S d), (Ok w). split; [constructor|]. intros [] [=].
    + assert (names_predecessor w (auth_predecessor a)) as Hn by (exists value, a; done).
      assert (exists depth' last, walked owner d r t' depth' last /\ forall o, p' = lift o -> walk_ended depth' last o)
        as (d' & last & Hl & He).
      { destruct r as [x|e]; cbn [lift bind attempt] in Hs.
        2: { destruct Hs as [-> ->]. exists d, (Err e). split; [constructor|]. by intros [] [= <-]. }
        destruct (is_none_dec x) as [->|Hx].
        - destruct Hs as [-> ->]. exists d, (Ok PNone). split; [constructor|]. by intros [] [= <-].
        - apply (IH x (w :: ch)); [done|done|]. by destruct x. }
      exists d', last. split; [by econstructor|done].
Qed.

Lemma history_steps owner depth w t p' :
  w <> PNone ->
  steps (let! st := let! r := walk_history env depth owner None w [] in lift (replay_history owner r.1 r.2) in
         Ret (Some st)) t p' ->
  exists depth' last, walked owner depth (Ok w) t depth' last /\ forall o, p' = lift o -> walk_ended depth' last o.
Proof.
  intros Hw Hs. apply steps_assoc in Hs as (p'' & Hs & Ho).
  destruct (walk_steps _ _ _ _ _ _ _ Hw (fun r => read_end_value owner r Some) Hs) as (d & last & Hl & He).
  exists d, last. split; [done|]. auto.
Qed.

(** C13. Reading is bounded, and it reads what it must.  Whatever the transport answers,
    in every run of [read_state], complete or not, the first call asks for the owner's current
    envelope and every later one for the predecessor that the envelope answered right
    before names, at most [_MAX_PREDECESSOR_DEPTH] (1024) of them.  A run that has ended
    stopped with a validation error before any call, found no current envelope ([None]), met
    a transport error ([TransportFailure]) or an absent predecessor ([InvalidIdentityState]), or
    holds an envelope that names no predecessor, unless all 1024 reads are spent
    ([InvalidIdentityState]). *)
Theorem read_state_walk v t p' :
  steps (read_state env v) t p' ->
  (t = [] /\ forall o, p' = lift o -> exists e, _validate_owner_name v = Err e /\ o = Err e) \/
  exists owner first l depth last,
    v = PBytes owner /\ t = MkStep (GetEnvelope (hex owner)) first :: l /\
    walked owner _MAX_PREDECESSOR_DEPTH first l depth last /\
    (length l + depth = _MAX_PREDECESSOR_DEPTH)%nat /\
    forall o, p' = lift o -> first = Ok PNone /\ o = Ok None \/ first <> Ok PNone /\ walk_ended depth last o.
Proof.
  unfold read_state, _parse_state_with_history. generalize _MAX_PREDECESSOR_DEPTH. intros depth.
  destruct (_validate_owner_name v) as [owner|e] eqn:Eo; cbn [lift bind].
  2: { intros [-> ->]. left. split; [done|]. intros o Ho. exists e. split; [done|]. by apply (lift_inj (Err e) o) in Ho. }
  apply validate_owner_name_ok in Eo as (-> & _). cbn [call attempt bind steps].
  intros [[-> ->]|(r & t' & -> & Hs)]; [by left; split; [|intros []]|]. right. exists owner, r, t'.
  assert (exists depth' last, walked owner depth r t' depth' last /\
    forall o, p' = lift o -> r = Ok PNone /\ o = Ok None \/ r <> Ok PNone /\ walk_ended depth' last o) as (d & last & Hl & He).
  2: { exists d, last. split_and!; try done. by eapply walked_count. }
  destruct r as [w|e]; cbn [lift attempt bind] in Hs.
  2: { destruct Hs as [-> ->]. exists depth, (Err e). split; [constructor|].
    intros o Ho. right. split; [done|]. by destruct o; simplify_eq/=. }
  destruct (is_none_dec w) as [->|Hw].
  { destruct Hs as [-> ->]. exists depth, (Ok PNone). split; [constructor|].
    intros o Ho. left. split; [done|]. by destruct o; simplify_eq/=. }
  destruct (history_steps owner depth w t' p' Hw) as (d & last & Hl & He); [by destruct w|].
  exists d, last. split; [done|]. intros o Ho. right. split; [congruence|auto].
Qed.
End ReadFacts.
