(* ===== verification/Discipline.v ===== *)
(** When the adapter writes: ghost state that records what a call has learnt from
    its environment, and the proof that every write of every entry point happens
    only after approved consent for the written bytes, before its expiry, and under
    the owner's lock with the latch checked. *)

From S2P Require Import Prelude PyVal Sha256 Interfaces SignedUpdate Envelope EnvelopeFacts Chain Draft DraftFacts Consent Rotation Effects Adapter ReadFacts Publish Dispatch.

Open Scope Z_scope.

(** * What a trace has established *)

Record knowledge := Knowledge {
  kn_approved : option consent_transcript;   (* the last transcript, if it was approved *)
  kn_now : option Z;                         (* the last reading of the clock *)
  kn_locked : option bytes;                  (* the owner whose lock is held *)
  kn_unlatched : bool;                       (* under that lock, no rotation of the owner is latched *)
  kn_latched : option rotation_binding;      (* under that lock, this rotation is latched *)
  kn_ready : option rotation_binding;        (* this rotation was dispatch-ready *)
  kn_consumed : option Z;                    (* the one-use cell this call consumed *)
  kn_writes : nat;                           (* writes so far *)
}.

Definition nothing_known : knowledge := Knowledge None None None false None None None 0.

Definition set_lock (k : knowledge) (owner : option bytes) : knowledge :=
  Knowledge (kn_approved k) (kn_now k) owner false None (kn_ready k) (kn_consumed k) (kn_writes k).

Definition learn (B : Set) (k : knowledge) (ev : event B) : res B -> knowledge :=
  match ev in event B return res B -> knowledge with
  | Consent t => fun r =>
      let approved := match r with Ok v => bool_decide (_normalize_consent v = APPROVED) | Err _ => false end in
      Knowledge (if approved then Some t else None) (kn_now k) (kn_locked k) (kn_unlatched k) (kn_latched k)
        (kn_ready k) (kn_consumed k) (kn_writes k)
  | Now => fun r =>
      Knowledge (kn_approved k) (match r with Ok z => Some z | Err _ => None end) (kn_locked k) (kn_unlatched k)
        (kn_latched k) (kn_ready k) (kn_consumed k) (kn_writes k)
  | AcquireOwner o => fun _ => set_lock k (Some o)
  | ReleaseOwner _ => fun _ => set_lock k None
  | IsOwnerLatched o => fun r =>
      let unlatched := match r with Ok false => bool_decide (kn_locked k = Some o) | _ => false end in
      Knowledge (kn_approved k) (kn_now k) (kn_locked k) unlatched (kn_latched k) (kn_ready k) (kn_consumed k)
        (kn_writes k)
  | IsLatched b => fun r =>
      let latched := match r with Ok true => bool_decide (kn_locked k = Some (rb_owner_name b)) | _ => false end in
      Knowledge (kn_approved k) (kn_now k) (kn_locked k) (kn_unlatched k) (if latched then Some b else None)
        (kn_ready k) (kn_consumed k) (kn_writes k)
  | Register _ _ | Clear _ => fun _ =>
      Knowledge (kn_approved k) (kn_now k) (kn_locked k) false None (kn_ready k) (kn_consumed k) (kn_writes k)
  | IsDispatchReady b => fun r =>
      Knowledge (kn_approved k) (kn_now k) (kn_locked k) (kn_unlatched k) (kn_latched k)
        (match r with Ok true => Some b | _ => None end) (kn_consumed k) (kn_writes k)
  | ConsumeCell c => fun r =>
      Knowledge (kn_approved k) (kn_now k) (kn_locked k) (kn_unlatched k) (kn_latched k) (kn_ready k)
        (match r with Ok true => Some c | _ => kn_consumed k end) (kn_writes k)
  | PutEnvelope _ _ _ _ => fun _ =>
      Knowledge (kn_approved k) (kn_now k) (kn_locked k) (kn_unlatched k) (kn_latched k) (kn_ready k)
        (kn_consumed k) (S (kn_writes k))
  | _ => fun _ => k
  end.

(** A condition on writes, in what is known when they happen. *)
Definition write_rule := knowledge -> pystr -> bytes -> option bytes -> Z -> Prop.

(** A condition on what is handed to the signer. *)
Definition sign_rule := knowledge -> bytes -> Prop.

Definition any_signature : sign_rule := fun _ _ => True.

Definition rule_monitor (P : write_rule) (S : sign_rule) : monitor knowledge := {|
  allowed B k ev := match ev with PutEnvelope o e h x => P k o e h x | SignerSign u => S k u | _ => True end;
  advance := learn;
|}.
Abbreviation write_monitor P := (rule_monitor P any_signature).

(** What is known after a trace. *)
Definition known (t : list step) : knowledge := ghost (write_monitor (fun _ _ _ _ _ => True)) nothing_known t.

Lemma ghost_known P S t : ghost (rule_monitor P S) nothing_known t = known t.
Proof. unfold known. generalize nothing_known. induction t; intros k; simpl; auto. Qed.

(** Every write of [p] obeys the rule. *)
Definition writes_obey {A} (p : prog A) (P : write_rule) : Prop :=
  forall t p' t1 o e h x r t2,
    steps p t p' -> t = t1 ++ MkStep (PutEnvelope o e h x) r :: t2 -> P (known t1) o e h x.

Lemma safe_writes_obey {A} (p : prog A) P S Q :
  safe (rule_monitor P S) nothing_known p Q -> writes_obey p P.
Proof.
  intros Hs t p' t1 o e h x r t2 Ht ->. eapply safe_steps in Ht as [_ Hall]; [|exact Hs].
  specialize (Hall _ _ _ eq_refl). by rewrite ghost_known in Hall.
Qed.

(** Every signature [p] asks for obeys the rule. *)
Definition signs_obey {A} (p : prog A) (S : sign_rule) : Prop :=
  forall t p' t1 u r t2, steps p t p' -> t = t1 ++ MkStep (SignerSign u) r :: t2 -> S (known t1) u.

Lemma safe_signs_obey {A} (p : prog A) P S Q :
  safe (rule_monitor P S) nothing_known p Q -> signs_obey p S.
Proof.
  intros Hs t p' t1 u r t2 Ht ->. eapply safe_steps in Ht as [_ Hall]; [|exact Hs].
  specialize (Hall _ _ _ eq_refl). by rewrite ghost_known in Hall.
Qed.

(** * Reading does not write *)

Definition is_read {B} (ev : event B) : bool :=
  match ev with
  | GetEnvelope _ | GetEnvelopeByHash _ _ | GetRemoteEnvelope _ | TransportEnvironment | SupportsRotation
  | HasRemoteRead => true
  | _ => false
  end.

Fixpoint reads_only {A} (p : prog A) : Prop :=
  match p with Do ev c => is_read ev = true /\ forall r, reads_only (c r) | _ => True end.

Lemma reads_bind {A B} (p : prog A) (k : A -> prog B) :
  reads_only p -> (forall a, reads_only (k a)) -> reads_only (bind p k).
Proof. intros Hp Hk. induction p as [a|e|C ev c IH]; simpl in *; [done|done|]. destruct Hp; eauto. Qed.

Lemma reads_attempt {A} (p : prog A) : reads_only p -> reads_only (attempt p).
Proof. intros Hp. induction p as [a|e|C ev c IH]; simpl in *; [done|done|]. destruct Hp; eauto. Qed.

Lemma reads_call {B : Set} (ev : event B) : is_read ev = true -> reads_only (call ev).
Proof. intros Hev. split; [done|]. by intros [|]. Qed.

Lemma reads_lift {A} (r : res A) : reads_only (lift r).
Proof. by destruct r. Qed.

#[export] Hint Resolve reads_attempt reads_lift : wallet.

Lemma reads_safe {A} (p : prog A) P S k Q :
  reads_only p -> (forall o, Q o k) -> safe (rule_monitor P S) k p Q.
Proof.
  intros Hp HQ. revert Hp. induction p as [a|e|B ev c IH]; simpl; intros Hp; [auto|auto|].
  destruct Hp as [Hev Hc]. split; [by destruct ev|]. intros r. replace (learn B k ev r) with k by (by destruct ev). auto.
Qed.

Lemma reads_safe_result {A} (p : prog A) P S k Φ Q :
  reads_only p -> result_ok p Φ -> (forall o, (forall a, o = Ok a -> Φ a) -> Q o k) -> safe (rule_monitor P S) k p Q.
Proof.
  intros Hp HΦ HQ. revert Hp HΦ. induction p as [a|e|B ev c IH]; simpl; intros Hp HΦ.
  - apply HQ. by intros ? [= <-].
  - apply HQ. by intros ? [=].
  - destruct Hp as [Hev Hc]. split; [by destruct ev|]. intros r.
    replace (learn B k ev r) with k by (by destruct ev). auto.
Qed.

Ltac reads_step :=
  match goal with
  | |- reads_only (bind _ _) => apply reads_bind; [|intros ?]
  | |- reads_only (attempt _) => apply reads_attempt
  | |- reads_only (call _) => apply reads_call; reflexivity
  | |- reads_only (lift _) => apply reads_lift
  | |- reads_only (Ret _) => exact I
  | |- reads_only (Raise _) => exact I
  | |- reads_only (match ?x with _ => _ end) => destruct x
  end.
Ltac reads := repeat reads_step.

Section Reads.
Context `{Cbor} `{Ed25519}.
Context (env : option pystr).

Lemma reads_environment e : reads_only (_rotation_environment_matches env e).
Proof. unfold _rotation_environment_matches. reads. Qed.

Lemma reads_available : reads_only _rotation_transport_available.
Proof. unfold _rotation_transport_available. reads. Qed.

Lemma reads_walk depth owner re e chain : reads_only (walk_history env depth owner re e chain).
Proof.
  revert e chain. induction depth as [|d IH]; intros e chain; cbn [walk_history];
    repeat (reads_step || apply reads_environment || apply IH).
Qed.

Lemma reads_history owner e re : reads_only (_parse_state_with_history env owner e re).
Proof. unfold _parse_state_with_history. apply reads_bind; [apply reads_walk|]. intros ?. reads. Qed.

Lemma reads_state owner : reads_only (read_state env owner).
Proof.
  unfold read_state.
  repeat match goal with |- reads_only (_parse_state_with_history _ _ _ _) => apply reads_history | _ => reads_step end.
Qed.

Lemma reads_confirm owner e prev : reads_only (_confirm owner e prev).
Proof. unfold _confirm. reads. Qed.

Lemma reads_confirm_publication owner e prev reason : reads_only (_confirm_publication owner e prev reason).
Proof. unfold _confirm_publication. apply reads_bind; [apply reads_confirm|]. intros ?. reads. Qed.

Lemma reads_verify_remote intent b : reads_only (verify_remote env intent b).
Proof.
  unfold verify_remote.
  repeat match goal with
  | |- reads_only (_parse_state_with_history _ _ _ _) => apply reads_history
  | |- reads_only (_rotation_environment_matches _ _) => apply reads_environment
  | _ => reads_step
  end.
Qed.
End Reads.

#[export] Hint Resolve reads_environment reads_available reads_history reads_state reads_confirm
  reads_confirm_publication reads_verify_remote : wallet.

(** * Symbolic execution *)

(** One step of a program under a write monitor; reading programs are skipped. *)
Ltac wp_step :=
  match goal with
  | |- safe _ _ (bind _ _) _ => apply safe_bind
  | |- safe _ _ (attempt _) _ => apply safe_attempt
  | |- safe _ _ (read_state _ _) _ =>
      let V := fresh "Hread" in
      apply reads_safe_result with (1 := reads_state _ _) (2 := read_state_result _ _); intros [?|?] V
  | |- safe _ _ (_confirm _ _ _) _ => apply reads_safe; [apply reads_confirm|]; intros [?|?]
  | |- safe _ _ (_confirm_publication _ _ _ _) _ => apply reads_safe; [apply reads_confirm_publication|]; intros [?|?]
  | |- safe _ _ (_rotation_environment_matches _ _) _ => apply reads_safe; [apply reads_environment|]; intros [?|?]
  | |- safe _ _ _rotation_transport_available _ => apply reads_safe; [apply reads_available|]; intros [?|?]
  | |- safe _ _ (verify_remote _ _ _) _ => apply reads_safe; [apply reads_verify_remote|]; intros [?|?]
  | |- safe _ _ (call _) _ => apply safe_call; [try exact I|intros [?|?]]
  | |- safe _ _ (lift (Ok _)) _ => apply safe_lift
  | |- safe _ _ (lift ?r) _ => let E := fresh "E" in apply safe_lift; destruct r eqn:E
  | |- safe _ _ (Ret _) _ => apply safe_ret
  | |- safe _ _ (Raise _) _ => apply safe_raise
  | |- safe _ _ (if ?b then _ else _) _ => let G := fresh "G" in destruct b eqn:G; try discriminate G
  | |- safe _ _ (match ?x with _ => _ end) _ => let G := fresh "G" in destruct x eqn:G
  | |- True => exact I
  | |- _ => progress cbn beta iota zeta
  end.
Ltac wp := repeat wp_step.

(** Running [p] under the owner's lock. *)
Lemma safe_owner_lock {A} P S k o (p : prog A) Q :
  safe (rule_monitor P S) (set_lock k (Some o)) p (fun r k' => Q r (set_lock k' None) /\ forall e, Q (Err e) (set_lock k' None)) ->
  (forall e, Q (Err e) (set_lock k (Some o))) ->
  safe (rule_monitor P S) k (with_owner_lock o p) Q.
Proof.
  intros Hp He. unfold with_owner_lock. apply safe_bind, safe_call; [exact I|].
  intros [u|e]; [|apply He]. cbn beta iota. apply safe_bind, safe_attempt. eapply safe_mono; [exact Hp|].
  intros r k' [HQ HQe]. cbn beta iota. apply safe_bind, safe_call; [exact I|]. intros [u'|e]; [by apply safe_lift|apply HQe].
Qed.

Section Consented.
Context `{Cbor} `{Ed25519}.
Context (env : option pystr).

(** After the consent gate the transcript is approved, or the gate reports a failure. *)
Lemma consent_gate_safe P S k owner tr (Q : res (option (PublishStatus * pystr)) -> knowledge -> Prop) :
  (forall o ap now, (o = Ok None -> ap = Some tr) -> (forall s r, o = Ok (Some (s, r)) -> s <> st_PROOF_READY) ->
     Q o (Knowledge ap now (kn_locked k) (kn_unlatched k) (kn_latched k) (kn_ready k) (kn_consumed k) (kn_writes k))) ->
  safe (rule_monitor P S) k (_consent_gate owner tr) Q.
Proof.
  intros HQ. destruct k as [ap now lk ul la rd co wr]. cbn in HQ. unfold _consent_gate.
  assert (forall d, decision_status d <> st_PROOF_READY) as Hd by (by intros []).
  assert (forall a (b : pystr) s r, a <> st_PROOF_READY -> Ok (Some (a, b)) = Ok (Some (s, r)) -> s <> st_PROOF_READY)
    as Hs by (intros; congruence).
  wp; cbn; try (apply HQ; [done|]; first [by intros ? ? [=] | intros ? ?; apply Hs; first [discriminate | apply Hd]]).
  apply HQ; [|done]. intros _. bool_hyps. by rewrite bool_decide_eq_true_2.
Qed.

Lemma same_state_hash prev current :
  _same_state prev current = true -> st_state_hash <$> current = st_state_hash <$> prev.
Proof.
  unfold _same_state. destruct prev, current; try done. intros Hs. bool_hyps. simpl. congruence.
Qed.

(** An ordinary write is authorized: approved consent covers what is published until
    after the last clock reading, the owner's lock is held, no rotation of the owner
    is latched, and nothing was written before. *)
Definition ordinary_write (k : knowledge) (owner reviewed : bytes) (expires_at : Z) : Prop :=
  kn_writes k = 0%nat /\ kn_locked k = Some owner /\ kn_unlatched k = true /\
  (exists tr, kn_approved k = Some tr /\ tr_review_payload tr = reviewed /\ tr_payload_hash tr = sha256 reviewed /\
     tr_expires_at tr = expires_at) /\
  exists now, kn_now k = Some now /\ now < expires_at.

Lemma publish_approved_safe P k owner e prev tr :
  kn_writes k = 0%nat -> kn_approved k = Some tr -> tr_review_payload tr = e -> tr_payload_hash tr = sha256 e ->
  (forall k', ordinary_write k' owner e (tr_expires_at tr) -> P k' (hex owner) e (st_state_hash <$> prev) (tr_expires_at tr)) ->
  safe (write_monitor P) k (publish_approved env owner e prev (tr_expires_at tr)) (fun _ _ => True).
Proof.
  intros Hw Ha Hr Hh HP. unfold publish_approved. wp. apply safe_owner_lock; [|intros; wp]. wp.
  - split; [wp|]. intros; wp.
  - bool_hyps. rewrite (same_state_hash _ _ G). apply HP. unfold ordinary_write. cbn.
    rewrite bool_decide_eq_true_2 by done. split_and!; eauto 6.
  - cbn beta iota. split; [wp|]. intros; wp.
  - split; [wp|]. intros; wp.
  - split; [wp|]. intros; wp.
Qed.

(** The rule [publish_bundle] follows. *)
Definition publish_rule (bundle : identity_bundle) : write_rule := fun k o e h x =>
  exists f prev,
    draft_view (bundle_draft bundle) = Ok f /\ _draft_previous_state (bundle_draft bundle) = Ok prev /\
    is_rotation (df_authorization f) = false /\ finalize bundle = Ok e /\
    o = hex (df_owner_name f) /\ h = st_state_hash <$> prev /\ ordinary_write k (df_owner_name f) e x.

Lemma publish_bundle_safe bundle args :
  safe (write_monitor (publish_rule bundle)) nothing_known (publish_bundle env bundle args) (fun _ _ => True).
Proof.
  unfold publish_bundle. wp.
  apply consent_gate_safe. intros [[[]|]|] ap now Hap _; wp.
  match goal with H : ConsentTranscript _ _ _ _ _ _ _ _ _ _ _ _ _ = Ok ?t |- _ =>
    apply transcript_fields in H as ((Hrev & Hhash & _) & _) end.
  eapply publish_approved_safe; [done|by apply Hap|done|by rewrite Hhash|].
  intros k' Hk. eexists _, _. by split_and!.
Qed.

(** What [publish_bundle] may write, against any transport, consent handler and
    clock: at most one envelope, the finalized form of the bundle, never an owner-key
    rotation, conditional on the hash of the draft's verified predecessor, after the
    user approved a transcript whose reviewed bytes are that very envelope, before the
    consent's expiry by the last clock reading, and while holding the owner's lock with
    the rotation latch found clear under it. *)
Lemma publish_bundle_writes bundle args : writes_obey (publish_bundle env bundle args) (publish_rule bundle).
Proof. eapply safe_writes_obey, publish_bundle_safe. Qed.

(** * Submissions *)

Lemma plan_versioned_threshold current op owner key skey sid m a id u :
  (forall c, current = Some c -> governance_ok c) ->
  plan_versioned current false op owner key skey sid m = Ok (a, id, u) -> auth_threshold a = 2.
Proof.
  intros Hg. unfold plan_versioned. intros Hp.
  apply res_bind_ok in Hp as (a' & _ & Hp). apply res_bind_ok in Hp as (nm & _ & Hp).
  case_match; [done|]. case_match; [done|]. case_match eqn:G5; [done|]. rewrite andb_true_r in G5. case_match; [done|].
  case_match; [done|]. apply res_bind_ok in Hp as (id' & _ & Hp). apply res_bind_ok in Hp as (u' & Hv & Hp).
  apply res_bind_ok in Hp as (up & _ & [= -> _ _]). clear -Hg Hv G5.
  unfold _validate_transition, _require_complete_2_of_3 in Hv. destruct current as [c|].
  - rewrite G5 in Hv. specialize (Hg c eq_refl). unfold governance_ok in Hg. destruct (is_legacy c).
    + case_match; [done|]. apply res_bind_ok in Hv as ([] & Hv & _). case_match eqn:E; [done|]. by bool_hyps.
    + case_bool_decide; [done|]. destruct (auth_operation a =? 2).
      * case_match eqn:E; [done|]. bool_hyps. destruct Hg as (Ht & _). congruence.
      * destruct (auth_operation a =? 3); [|done]. case_match; [done|].
        apply res_bind_ok in Hv as ([] & Hv & _). case_match eqn:E; [done|]. by bool_hyps.
  - case_match; [done|]. apply res_bind_ok in Hv as ([] & Hv & _). case_match eqn:E; [done|]. by bool_hyps.
Qed.

(** The owner's own update of a legacy record (or the first one). *)
Definition legacy_plan (current : option identity_state) (owner key update : bytes) : Prop :=
  build_identity_update (PBytes owner) (PBytes key) (PInt (next_sequence current)) None = Ok update /\
  forall c, current = Some c -> is_legacy c = true /\ st_owner_public_key c = key.

Definition plan_ok (owner_name : pyval) (draft : option identity_draft) (plan : submission_plan) : Prop :=
  owner_name = PBytes (sp_owner_name plan) /\
  match sp_authorization plan with
  | Some a => draft = None -> auth_threshold a = 2
  | None => legacy_plan (sp_current plan) (sp_owner_name plan) (sp_signer_public_key plan) (sp_update plan)
  end.

(** The plan is for the given signer key and, with a draft, for the draft's bytes. *)
Definition plan_signs (signer_key : pyval) (draft : option identity_draft) (plan : submission_plan) : Prop :=
  signer_key = PBytes (sp_signer_public_key plan) /\
  forall d, draft = Some d -> sp_update plan = draft_signed_update_bytes d.

Lemma plan_legacy_ok current owner key skey sid u :
  plan_legacy current owner key skey sid = Ok u -> legacy_plan current owner skey u.
Proof.
  unfold plan_legacy. intros Hp. case_match eqn:G1; [done|]. case_match eqn:G2; [done|].
  case_match eqn:G3; [done|]. case_match; [done|]. bool_hyps. subst skey. split; [done|].
  intros c ->. by bool_hyps.
Qed.

Lemma submit_plan_safe P S k on ok sk op am sid draft Q :
  (forall o k', kn_writes k' = kn_writes k -> (forall plan, o = Ok plan -> plan_ok on draft plan /\ plan_signs sk draft plan) -> Q o k') ->
  safe (rule_monitor P S) k (submit_plan env on ok sk op am sid draft) Q.
Proof.
  intros HQ. unfold submit_plan.
  apply safe_bind, safe_lift. destruct (_validate_owner_name on) as [owner|] eqn:Eo; [|by apply HQ].
  apply validate_owner_name_ok in Eo as (-> & _).
  assert (forall current : option identity_state,
    (forall a, Ok current = Ok a -> forall st, a = Some st -> exists o, PBytes owner = PBytes o /\ verified o st) ->
    forall c, current = Some c -> governance_ok c) as Hg.
  { intros current Hc c ->. destruct (Hc _ eq_refl c eq_refl) as (o & _ & Hv). by eapply verified_governance. }
  wp; apply HQ; try done; intros plan [= <-];
    (split; [split; [done|]|split;
      [by match goal with E : _require_bytes _ _ sk = Ok _ |- _ => apply require_bytes_ok in E as [-> _] end
      |intros ? [= <-]; by bool_hyps]]); cbn;
    first [by eapply plan_legacy_ok | by intros [=] | intros _; subst; eapply plan_versioned_threshold; [by apply Hg|done]].
Qed.

(** The rule [submit_identity] follows. *)
Definition submit_rule (owner_name : pyval) (draft : option identity_draft) : write_rule := fun k o e h x =>
  draft = None /\ exists owner current key update signature,
    owner_name = PBytes owner /\ o = hex owner /\ h = st_state_hash <$> current /\
    legacy_plan current owner key update /\ signed key update signature /\
    _legacy_envelope update signature = Ok e /\ ordinary_write k owner update x.

(** What [submit_identity] hands to the signer: the update of a transcript the user
    approved for the named signer key, before its expiry by the last clock reading,
    under the owner's lock with no rotation of the owner latched. *)
Definition submit_signs (owner_name signer_key : pyval) (draft : option identity_draft) : sign_rule := fun k u =>
  (forall d, draft = Some d -> u = draft_signed_update_bytes d) /\
  exists owner key tr now, owner_name = PBytes owner /\ signer_key = PBytes key /\
    kn_locked k = Some owner /\ kn_unlatched k = true /\ kn_writes k = 0%nat /\
    kn_approved k = Some tr /\ tr_review_payload tr = u /\ tr_payload_hash tr = sha256 u /\
    tr_signer_public_key tr = Some key /\ kn_now k = Some now /\ now < tr_expires_at tr.

(** A detached proof is a valid signature of the given key over the draft it names:
    the given draft, or a draft of the update that was built. *)
Definition detached_ok (signer_key : pyval) (draft : option identity_draft) (o : res submission_result) : Prop :=
  forall r, o = Ok r -> sr_status r = st_PROOF_READY ->
  exists d p, sr_draft r = Some d /\ sr_identity_proof r = Some p /\
    signer_key = PBytes (proof_signer_public_key p) /\ proof_ok p /\
    signed (proof_signer_public_key p) (draft_signed_update_bytes d) (proof_signature p) /\
    match draft with Some d' => d = d' | None => wf_draft d end.

Lemma detached_err sk draft e : detached_ok sk draft (Err e).
Proof. by intros r [=]. Qed.

Lemma detached_other sk draft r : sr_status r <> st_PROOF_READY -> detached_ok sk draft (Ok r).
Proof. by intros Hr ? [= <-]. Qed.

Lemma detached_proof tr u pb reason d i k sig p draft :
  IdentityProof i (PBytes k) (PBytes sig) = Ok p -> signed k (draft_signed_update_bytes d) sig ->
  match draft with Some d' => d = d' | None => wf_draft d end ->
  detached_ok (PBytes k) draft (Ok (proof_ready tr u pb reason d p)).
Proof.
  intros (_ & [= ->] & [= ->] & Hp)%identity_proof_ok Hs Hd r [= <-] _. exists d, p. by split_and!.
Qed.

#[local] Hint Resolve detached_err : core.
#[local] Hint Extern 2 (detached_ok _ _ (Ok _)) =>
  apply detached_other; simpl; repeat case_match; discriminate : core.

Lemma publish_signed_safe S k on sk draft plan tr sig :
  plan_ok on draft plan -> plan_signs sk draft plan -> signed (sp_signer_public_key plan) (sp_update plan) sig ->
  ordinary_write k (sp_owner_name plan) (sp_update plan) (tr_expires_at tr) ->
  safe (rule_monitor (submit_rule on draft) S) k (publish_signed plan tr draft sig) (fun o _ => detached_ok sk draft o).
Proof.
  intros [-> Hplan] [-> Hd] Hs Hk. unfold publish_signed. destruct draft as [d|].
  { wp; auto. eapply detached_proof; [done| |done]. by rewrite <-(Hd d). }
  destruct (sp_authorization plan) as [a|] eqn:Ha.
  - rewrite (Hplan eq_refl). wp; auto. eapply detached_proof; [done| |by eapply draft_construct_wf].
    match goal with E : IdentityDraft _ _ _ = Ok _ |- _ => apply draft_construct_inv in E as (? & ? & [= <-] & _) end. done.
  - wp; auto. split; [done|]. by eexists _, _, _, _, _.
Qed.

Lemma complete_submission_safe k on sk draft plan tr :
  plan_ok on draft plan -> plan_signs sk draft plan -> kn_writes k = 0%nat ->
  kn_locked k = Some (sp_owner_name plan) -> kn_unlatched k = true ->
  kn_approved k = Some tr -> tr_review_payload tr = sp_update plan -> tr_payload_hash tr = sha256 (sp_update plan) ->
  tr_signer_public_key tr = Some (sp_signer_public_key plan) ->
  safe (rule_monitor (submit_rule on draft) (submit_signs on sk draft)) k (complete_submission env plan tr draft)
    (fun o _ => detached_ok sk draft o).
Proof.
  intros Hplan Hsig Hw Hl Hu Ha Hr Hh Hk. unfold complete_submission, sign_update. wp; auto.
  - destruct Hplan as [-> _], Hsig as [-> Hd]. bool_hyps. split; [by apply Hd|].
    eexists _, _, tr, _. cbn. split_and!; done.
  - apply publish_signed_safe; [done|done|by eapply verify_signature_ok|]. bool_hyps.
    unfold ordinary_write. cbn. split_and!; eauto 6.
Qed.

Lemma submit_identity_safe owner_name owner_key signer_key op args am sid draft :
  safe (rule_monitor (submit_rule owner_name draft) (submit_signs owner_name signer_key draft)) nothing_known
    (submit_identity env owner_name owner_key signer_key op args am sid draft)
    (fun o _ => detached_ok signer_key draft o).
Proof.
  unfold submit_identity. apply safe_bind, submit_plan_safe. intros [plan|] k Hk Hplan; [|auto].
  specialize (Hplan _ eq_refl) as [Hplan Hsk]. wp; auto.
  apply consent_gate_safe. intros [[[]|]|] ap now Hap Hfail; wp; auto.
  { apply detached_other. by eapply Hfail. }
  match goal with H : ConsentTranscript _ _ _ _ _ _ _ _ _ _ _ _ _ = Ok ?t |- _ =>
    apply transcript_fields in H as ((Hrev & Hhash & _) & (_ & Hkey & _) & _) end.
  apply safe_owner_lock; [|auto]. wp; auto.
  eapply safe_mono; [|intros o' k' Ho; split; [exact Ho|auto]].
  eapply complete_submission_safe; try done; cbn; [by rewrite bool_decide_eq_true_2|by apply Hap].
Qed.

(** What [submit_identity] (and with it [sign_draft]) may write: nothing at all
    for a draft, and never a governed update (those leave as detached proofs); the one
    write it can make is the owner's own legacy update, carrying a valid signature of
    the owner key over the update the user approved, at the next sequence number,
    conditional on the state it was built on, before expiry by the last clock reading,
    under the owner's lock with the latch found clear. *)
Lemma submit_identity_writes owner_name owner_key signer_key op args am sid draft :
  writes_obey (submit_identity env owner_name owner_key signer_key op args am sid draft) (submit_rule owner_name draft).
Proof. eapply safe_writes_obey, submit_identity_safe. Qed.

(** What [submit_identity] may have signed: only the update bytes of a transcript
    the user approved, naming the given signer key, before the approval's expiry by the
    last clock reading, under the owner's lock with the rotation latch found clear; with
    a draft, only the draft's own bytes. *)
Lemma submit_identity_signs owner_name owner_key signer_key op args am sid draft :
  signs_obey (submit_identity env owner_name owner_key signer_key op args am sid draft)
    (submit_signs owner_name signer_key draft).
Proof. eapply safe_signs_obey, submit_identity_safe. Qed.

(** What [submit_identity] may write and have signed.  It writes nothing at all for a draft,
    and never a governed update (those leave as detached proofs); the one write it can make is
    the owner's own legacy update, carrying a valid signature of the owner key over the update
    the user approved, at the next sequence number, conditional on the state it was built on,
    before expiry by the last clock reading, under the owner's lock with the latch found clear.
    It has only the update bytes of a transcript signed that the user approved, naming the given
    signer key, before the approval's expiry, under the lock with the latch clear; with a draft,
    only the draft's own bytes. *)
Lemma submit_identity_discipline owner_name owner_key signer_key op args am sid draft :
  writes_obey (submit_identity env owner_name owner_key signer_key op args am sid draft) (submit_rule owner_name draft) /\
  signs_obey (submit_identity env owner_name owner_key signer_key op args am sid draft) (submit_signs owner_name signer_key draft).
Proof. split; [apply submit_identity_writes|apply submit_identity_signs]. Qed.

Lemma safe_weaken {A} (p : prog A) (P P' : write_rule) (S S' : sign_rule) k Q :
  (forall k o e h x, P k o e h x -> P' k o e h x) -> (forall k u, S k u -> S' k u) ->
  safe (rule_monitor P S) k p Q -> safe (rule_monitor P' S') k p Q.
Proof.
  intros HP HS. revert k. induction p as [a|e|B ev c IH]; simpl; intros k; [done|done|].
  intros [Hev Hc]. split; [destruct ev; auto|]. auto.
Qed.

Definition no_writes : write_rule := fun _ _ _ _ _ => False.

(** What [sign_draft] hands to the signer. *)
Definition draft_signs (draft : identity_draft) (signer_key : pyval) : sign_rule := fun k u =>
  u = draft_signed_update_bytes draft /\
  exists f, draft_view draft = Ok f /\ submit_signs (PBytes (df_owner_name f)) signer_key (Some draft) k u.

Lemma sign_draft_safe draft sk args sid :
  safe (rule_monitor no_writes (draft_signs draft sk)) nothing_known (sign_draft env draft sk args sid)
    (fun o _ => detached_ok sk (Some draft) o).
Proof.
  unfold sign_draft. wp; auto. subst. eapply safe_weaken; [| |apply submit_identity_safe].
  - by intros k o e h x [[=] _].
  - intros k u Hs. split; [by apply Hs|]. eauto.
Qed.

(** Signing a draft is detached: it never writes to the registry; the only bytes it
    can have signed are the draft's own, after the user approved them for the given
    signer key; and a returned proof is a valid signature of that key over the draft
    given. *)
Lemma sign_draft_detached draft sk args sid :
  writes_obey (sign_draft env draft sk args sid) no_writes /\
  signs_obey (sign_draft env draft sk args sid) (draft_signs draft sk) /\
  forall t r, returns (sign_draft env draft sk args sid) t (Ok r) -> sr_status r = st_PROOF_READY ->
    exists p, sr_draft r = Some draft /\ sr_identity_proof r = Some p /\
      sk = PBytes (proof_signer_public_key p) /\
      signed (proof_signer_public_key p) (draft_signed_update_bytes draft) (proof_signature p).
Proof.
  pose proof (sign_draft_safe draft sk args sid) as Hs. split; [by eapply safe_writes_obey|].
  split; [by eapply safe_signs_obey|]. intros t r Ht Hr. eapply safe_returns in Ht; [|exact Hs].
  destruct (Ht r eq_refl Hr) as (d & p & Hd & Hp & Hk & _ & Hsig & ->). eauto 8.
Qed.

(** C14. What a submission may write and have signed.  [submit_identity] writes nothing at all for a
    draft, and never a governed update (those leave as detached proofs); the one write it can make
    is the owner's own legacy update, carrying a valid signature of the owner key over the update
    the user approved, at the next sequence number, conditional on the state it was built on,
    before expiry by the last clock reading, under the owner's lock with the latch found clear.
    It has only the update bytes of a transcript signed that the user approved, naming the given
    signer key, before the approval's expiry, under the lock with the latch clear; with a draft,
    only the draft's own bytes.  [sign_draft] never writes, has only the draft's bytes signed after
    that approval, and returns a valid signature of the given key over the draft it was given. *)
Theorem signing_discipline owner_name owner_key signer_key op args am sid draft :
  (writes_obey (submit_identity env owner_name owner_key signer_key op args am sid draft) (submit_rule owner_name draft) /\
   signs_obey (submit_identity env owner_name owner_key signer_key op args am sid draft) (submit_signs owner_name signer_key draft)) /\
  forall d, writes_obey (sign_draft env d signer_key args sid) no_writes /\
    signs_obey (sign_draft env d signer_key args sid) (draft_signs d signer_key) /\
    forall t r, returns (sign_draft env d signer_key args sid) t (Ok r) -> sr_status r = st_PROOF_READY ->
      exists p, sr_draft r = Some d /\ sr_identity_proof r = Some p /\
        signer_key = PBytes (proof_signer_public_key p) /\
        signed (proof_signer_public_key p) (draft_signed_update_bytes d) (proof_signature p).
Proof. split; [apply submit_identity_discipline|]. intros d. apply sign_draft_detached. Qed.
End Consented.

(** * Owner-key rotation *)

(** A constructed intent passes [_rotation_binding]. *)
Lemma intent_binding o pk sk ph sq eh en b :
  RotationDispatchIntent o pk sk ph sq eh en = Ok b -> _rotation_binding b = Some b.
Proof.
  unfold RotationDispatchIntent. intros Hb.
  assert (forall v x, require_hash v = Ok x -> length x = _KEY_LENGTH) as Hh.
  { intros [| | |b0| | | | |] x; try done. cbn [require_hash].
    destruct (Nat.eqb_spec (length b0) _KEY_LENGTH); [|done]. by intros [= <-]. }
  apply res_bind_ok in Hb as (e & _ & Hb). apply res_bind_ok in Hb as (ow & Ho & Hb).
  apply res_bind_ok in Hb as (x1 & H1%Hh & Hb). apply res_bind_ok in Hb as (x2 & H2%Hh & Hb).
  apply res_bind_ok in Hb as (x3 & H3%Hh & Hb). apply res_bind_ok in Hb as (x4 & H4%Hh & Hb).
  destruct sq as [| |n| | | | | |]; try done. case_match eqn:En; [done|]. injection Hb as <-.
  assert (ow <> []) as Hne.
  { destruct o as [| | |ob| | | | |]; try done. case_match eqn:E; [done|]. destruct (utf8_decode ob); [|done].
    injection Ho as <-. bool_hyps. intros ->. simpl in *. lia. }
  bool_hyps. unfold _rotation_binding. cbn [rb_owner_name rb_predecessor_owner_public_key rb_successor_owner_public_key
    rb_predecessor_state_hash rb_sequence rb_envelope_hash].
  rewrite H1, H2, H3, H4, Nat.eqb_refl, bool_decide_eq_false_2 by done.
  destruct (Z.leb_spec n 0); [lia|done].
Qed.

Section RotationWrites.
Context `{Cbor} `{Ed25519}.
Context (env : option pystr) (token : Z).

(** The rule [dispatch_owner_key_rotation] follows. *)
Definition dispatch_rule (p : rotation_publication) (permit : dispatch_permit) : write_rule := fun k o e h x =>
  let intent := permit_intent permit in
  permit_authentic permit = true /\ publication_attrs p = Ok intent /\ pub_adapter_token p = token /\
  o = hex (rb_owner_name intent) /\ e = pub_envelope_bytes p /\ sha256 e = rb_envelope_hash intent /\
  h = Some (rb_predecessor_state_hash intent) /\ x = pub_expires_at p /\
  rb_environment intent = env /\
  kn_writes k = 0%nat /\ kn_ready k = Some intent /\ kn_consumed k = Some (pub_cell p) /\
  kn_locked k = Some (rb_owner_name intent) /\ kn_latched k = Some intent /\
  exists now, kn_now k = Some now /\ now < x.

Lemma confirm_rotation_safe P k intent Q :
  (forall o k', Q o k') -> safe (write_monitor P) k (confirm_owner_key_rotation env intent) Q.
Proof. intros HQ. unfold confirm_owner_key_rotation. by wp. Qed.

Lemma prewrite_safe P k p intent st reason l c Q :
  (forall o k', Q o k') -> safe (write_monitor P) k (prewrite_result env p intent st reason l c) Q.
Proof.
  intros HQ. unfold prewrite_result, dispatch_confirmed, make_rejection.
  repeat (wp_step || (apply confirm_rotation_safe; intros [?|?] ?)); done.
Qed.

Lemma dispatch_confirmed_safe P k intent reason Q :
  (forall o k', Q o k') -> safe (write_monitor P) k (dispatch_confirmed env intent reason) Q.
Proof.
  intros HQ. unfold dispatch_confirmed. apply safe_bind, confirm_rotation_safe. intros [?|?] ?; by wp.
Qed.

Lemma publication_attrs_fields p b :
  publication_attrs p = Ok b ->
  rb_predecessor_state_hash b = st_state_hash (pub_previous_state p) /\ rb_envelope_hash b = sha256 (pub_envelope_bytes p).
Proof. unfold publication_attrs. intros (f & _ & [= <-])%res_bind_ok. done. Qed.

Lemma dispatch_locked_safe k p intent Q :
  (forall o k', Q o k') ->
  kn_writes k = 0%nat -> kn_ready k = Some intent -> kn_consumed k = Some (pub_cell p) ->
  kn_locked k = Some (rb_owner_name intent) -> publication_attrs p = Ok intent -> pub_adapter_token p = token ->
  rb_environment intent = env ->
  safe (write_monitor (dispatch_rule p (RotationDispatchPermit intent true))) k
    (dispatch_locked env p (rb_owner_name intent) intent) Q.
Proof.
  intros HQ Hw Hr Hc Hl Hat Htok Henv. unfold dispatch_locked.
  repeat (wp_step || (apply prewrite_safe; exact HQ) || (apply dispatch_confirmed_safe; exact HQ)); try apply HQ.
  bool_hyps. unfold dispatch_rule. cbn. rewrite bool_decide_eq_true_2 by done.
  pose proof (publication_attrs_fields _ _ Hat) as [Hph Heh]. split_and!; try done; try (by rewrite Hph); [by subst a|eauto].
Qed.

Lemma environment_matches_safe P k e (Q : res bool -> knowledge -> Prop) :
  (forall r, (r = Ok true -> e = env) -> Q r k) ->
  safe (write_monitor P) k (_rotation_environment_matches env e) Q.
Proof.
  intros HQ. apply reads_safe_result with (1 := reads_environment env e) (Φ := fun b => b = true -> e = env).
  - unfold _rotation_environment_matches. destruct e as [x|]; [|done]. case_bool_decide as E; [|done].
    apply result_any. done.
  - intros o Ho. apply HQ. intros ->. exact (Ho true eq_refl eq_refl).
Qed.

Lemma dispatch_safe p permit :
  _rotation_binding (permit_intent permit) = Some (permit_intent permit) ->
  safe (write_monitor (dispatch_rule p permit)) nothing_known (dispatch_owner_key_rotation env token p permit) (fun _ _ => True).
Proof.
  intros Hi. unfold dispatch_owner_key_rotation, publication_matches, consume_for.
  destruct permit as [intent authentic]. cbn [permit_intent permit_authentic] in *.
  destruct (publication_attrs p) as [attrs|] eqn:Hat; [|by wp]. cbn [res_bind]. rewrite Hi.
  destruct (bool_decide_reflect (_rotation_binding attrs = Some intent)) as [Eb|]; [|by wp].
  apply rotation_binding_some in Eb as <-.
  repeat match goal with |- safe _ _ (_rotation_environment_matches _ _) _ => fail 1 | _ => wp_step end; try done.
  apply environment_matches_safe. intros [[]|] Henv; [|done|done]. specialize (Henv eq_refl). wp.
  bool_hyps. subst. apply safe_owner_lock; [|done]. apply dispatch_locked_safe; done.
Qed.

(** What [dispatch_owner_key_rotation] may write, for a permit that carries a
    constructed intent: at most one envelope, exactly the prepared publication's, whose
    hash, owner, keys, sequence, predecessor hash and environment are those of the
    permit's intent; only with an authentic permit, after the intent was found
    dispatch-ready and this adapter consumed the publication's one-use flag, before the
    consent's expiry by the last clock reading, in the adapter's own environment, and
    under the owner's lock with that very intent still latched. *)
Lemma dispatch_writes p permit o pk sk ph sq eh en :
  RotationDispatchIntent o pk sk ph sq eh en = Ok (permit_intent permit) ->
  writes_obey (dispatch_owner_key_rotation env token p permit) (dispatch_rule p permit).
Proof. intros Hi%intent_binding. by eapply safe_writes_obey, dispatch_safe. Qed.
End RotationWrites.
