(* ===== verification/Outcomes.v ===== *)
(** What the adapter's results mean: confirmed publications were read back exactly,
    rotation confirmations rest on a fresh remote read and verified history,
    rejections are issued only when nothing was accepted, and a prepared publication
    was consented to. *)

From S2P Require Import Prelude PyVal Sha256 Interfaces SignedUpdate Envelope EnvelopeFacts Chain Draft Consent Rotation Effects Adapter ReadFacts Publish Dispatch Discipline.

Open Scope Z_scope.

(** * The log monitor: the trace itself, newest event first *)

Definition log_monitor : monitor (list step) := {|
  allowed B m ev := True;
  advance B m ev r := MkStep ev r :: m;
|}.

Lemma ghost_log m t : ghost log_monitor m t = rev t ++ m.
Proof.
  revert m. induction t as [|[B ev r] t IH]; intros m; simpl; [done|]. by rewrite IH, <-app_assoc.
Qed.

(** A property of the outcome and the trace of every completed run. *)
Lemma log_returns {A} (p : prog A) (Ψ : res A -> list step -> Prop) t o :
  safe log_monitor [] p Ψ -> returns p t o -> Ψ o (rev t).
Proof. intros Hs Ht. apply (safe_returns _ _ _ _ _ _ Hs) in Ht. by rewrite ghost_log, app_nil_r in Ht. Qed.

(** Skipping a program whose result is known. *)
Lemma log_result {A} (p : prog A) m Φ (Q : res A -> list step -> Prop) :
  result_ok p Φ -> (forall o l, (forall a, o = Ok a -> Φ a) -> Q o (l ++ m)) -> safe log_monitor m p Q.
Proof.
  revert m. induction p as [a|e|B ev c IH]; intros m HΦ HQ; simpl in *.
  - apply (HQ (Ok a) []). by intros ? [= <-].
  - apply (HQ (Err e) []). by intros ? [=].
  - split; [done|]. intros r. apply IH; [done|]. intros o l Ho.
    specialize (HQ o (l ++ [MkStep ev r]) Ho). by rewrite <-app_assoc in HQ.
Qed.

Lemma log_any {A} (p : prog A) m (Q : res A -> list step -> Prop) :
  (forall o l, Q o (l ++ m)) -> safe log_monitor m p Q.
Proof. intros HQ. apply log_result with (Φ := fun _ => True); [by apply result_any|]. auto. Qed.

(** The answers to writes. *)
Definition put_answer (s : step) : option (res unit) :=
  match step_event s in event B return res B -> option (res unit) with
  | PutEnvelope _ _ _ _ => fun r => Some r
  | _ => fun _ => None
  end (step_answer s).

Definition put_answers (l : list step) : list (res unit) := omap put_answer l.

Lemma put_answers_app l m : put_answers (l ++ m) = put_answers l ++ put_answers m.
Proof. apply omap_app. Qed.

(** Skipping a program that never writes. *)
Lemma log_no_writes {A} (p : prog A) k m (Q : res A -> list step -> Prop) :
  safe (write_monitor no_writes) k p (fun _ _ => True) ->
  (forall o l, put_answers l = [] -> Q o (l ++ m)) -> safe log_monitor m p Q.
Proof.
  revert k m. induction p as [a|e|B ev c IH]; intros k m Hp HQ; simpl in *.
  - by apply (HQ (Ok a) []).
  - by apply (HQ (Err e) []).
  - destruct Hp as [Hev Hc]. split; [done|]. intros r. eapply IH; [apply Hc|]. intros o l Hl.
    specialize (HQ o (l ++ [MkStep ev r])). rewrite <-app_assoc in HQ. apply HQ.
    rewrite put_answers_app, Hl. by destruct ev.
Qed.

(** Skipping a reading program whose result is known. *)
Lemma log_reads {A} (p : prog A) m Φ (Q : res A -> list step -> Prop) :
  reads_only p -> result_ok p Φ ->
  (forall o l, put_answers l = [] -> (forall a, o = Ok a -> Φ a) -> Q o (l ++ m)) -> safe log_monitor m p Q.
Proof.
  revert m. induction p as [a|e|B ev c IH]; intros m Hp HΦ HQ; simpl in *.
  - apply (HQ (Ok a) []); [done|]. by intros ? [= <-].
  - apply (HQ (Err e) []); [done|]. by intros ? [=].
  - destruct Hp as [Hev Hc]. split; [done|]. intros r. apply IH; [auto|auto|]. intros o l Hl Ho.
    specialize (HQ o (l ++ [MkStep ev r])). rewrite <-app_assoc in HQ. apply HQ; [|done].
    rewrite put_answers_app, Hl. by destruct ev.
Qed.

Lemma log_reads_any {A} (p : prog A) m (Q : res A -> list step -> Prop) :
  reads_only p -> (forall o l, put_answers l = [] -> Q o (l ++ m)) -> safe log_monitor m p Q.
Proof.
  intros Hp HQ. apply log_reads with (Φ := fun _ => True); [done|by apply result_any|]. auto.
Qed.

(** The consent gate reports failures only. *)
Definition gate_failure (o : option (PublishStatus * pystr)) : Prop :=
  match o with
  | Some (st, _) => st <> st_CONFIRMED /\ st <> st_READY /\ st <> st_PROOF_READY /\ st <> st_UNKNOWN
  | None => True
  end.

Lemma consent_gate_failure `{Cbor} owner tr : result_ok (_consent_gate owner tr) gate_failure.
Proof.
  assert (forall st r, st <> st_CONFIRMED -> st <> st_READY -> st <> st_PROOF_READY -> st <> st_UNKNOWN ->
    result_ok (Ret (Some (st, r))) gate_failure) as Hf by (intros; simpl; done).
  unfold _consent_gate. apply result_bind, result_any. intros [[]|]; [|by apply Hf|by apply Hf].
  apply result_bind, result_any. intros now. destruct (_ <=? _); [by apply Hf|]. apply result_bind, result_any. intros d.
  cbn zeta. generalize (match d with Ok v => _normalize_consent v | Err _ => FAILED end). intros dec.
  destruct (negb (bool_decide (dec = APPROVED))); [by destruct dec; apply Hf|].
  apply result_bind, result_any. intros now'. destruct (_ <=? _); [by apply Hf|exact I].
Qed.

(** Symbolic execution under the log monitor; reading programs are skipped. *)
Ltac log_step :=
  match goal with
  | |- safe _ _ (bind _ _) _ => apply safe_bind
  | |- safe _ _ (attempt _) _ => apply safe_attempt
  | |- safe _ _ (read_state _ _) _ => apply log_any; intros [?|?] ?
  | |- safe _ _ (_rotation_environment_matches _ _) _ => apply log_any; intros [?|?] ?
  | |- safe _ _ _rotation_transport_available _ => apply log_any; intros [?|?] ?
  | |- safe _ _ (_consent_gate _ _) _ =>
      let V := fresh "Hgate" in apply log_result with (1 := consent_gate_failure _ _); intros [?|?] ? V
  | |- safe _ _ (call _) _ => apply safe_call; [exact I|intros [?|?]]
  | |- safe _ _ (lift (Ok _)) _ => apply safe_lift
  | |- safe _ _ (lift ?r) _ => let E := fresh "E" in apply safe_lift; destruct r eqn:E
  | |- safe _ _ (Ret _) _ => apply safe_ret
  | |- safe _ _ (Raise _) _ => apply safe_raise
  | |- safe _ _ (if ?b then _ else _) _ => let G := fresh "G" in destruct b eqn:G; try discriminate G
  | |- safe _ _ (match ?x with _ => _ end) _ => let G := fresh "G" in destruct x eqn:G
  | |- _ => progress cbn beta iota zeta
  end.

Section Outcomes.
Context `{Cbor} `{Ed25519}.
Context (env : option pystr) (token : Z).

(** * Confirmation of ordinary publications *)

(** The transport returned exactly [e] for the owner in this part of the log, and it
    parses to [st] after [prev]. *)
Definition read_back (owner e : bytes) (prev : option identity_state) (st : identity_state) (l : list step) : Prop :=
  st_envelope_bytes st = e /\ _parse_identity_envelope owner (PBytes e) prev = Ok st /\
  MkStep (GetEnvelope (hex owner)) (Ok (PBytes e)) ∈ l.

Lemma confirm_log owner e prev m (Q : res (option identity_state) -> list step -> Prop) :
  (forall o l, (forall st, o = Ok (Some st) -> read_back owner e prev st l) -> Q o (l ++ m)) ->
  safe log_monitor m (_confirm owner e prev) Q.
Proof.
  intros HQ. unfold _confirm. apply safe_bind, safe_lift.
  destruct (_validate_owner_name (PBytes owner)) as [o|] eqn:Eo; [|by apply (HQ _ [])].
  apply validate_owner_name_ok in Eo as ([= <-] & _).
  apply safe_bind, safe_attempt, safe_bind, safe_call; [exact I|]. intros r.
  assert (forall o, (forall st, o = Ok (Some st) -> read_back owner e prev st [MkStep (GetEnvelope (hex owner)) r]) ->
    Q o (MkStep (GetEnvelope (hex owner)) r :: m)) as HQ1 by (intros o; apply (HQ o [_])).
  cbn [advance log_monitor]. destruct r as [w|]; [|by apply HQ1]. cbn beta iota.
  assert (safe log_monitor (MkStep (GetEnvelope (hex owner)) (Ok w) :: m)
    (let! st := lift (_parse_identity_envelope owner w prev) in Ret (Some st)) (fun o m' =>
       safe log_monitor m' match o with
         | Ok (Some st) => Ret (if bool_decide (st_envelope_bytes st = e) then Some st else None)
         | _ => Ret None
         end Q)) as Hw.
  { apply safe_bind, safe_lift. destruct (_parse_identity_envelope owner w prev) as [st|] eqn:Est; [|by apply HQ1].
    apply HQ1. case_bool_decide as He; [|done]. intros ? [= <-].
    pose proof (parse_accepted _ _ _ _ Est) as (_ & _ & _ & ->). rewrite He in *.
    split_and!; try done; apply list_elem_of_here. }
  destruct w; first [exact Hw | by apply HQ1].
Qed.

(** The process's own locks, latch registry and flags answer without raising. *)
Definition internal_answered (s : step) : Prop :=
  match step_event s in event B return res B -> Prop with
  | IsOwnerLatched _ | IsLatched _ | IsDispatchReady _ | Register _ _ | Clear _
  | AcquireOwner _ | ReleaseOwner _ | NewCell | ConsumeCell _ => fun r => exists a, r = Ok a
  | _ => fun _ => True
  end (step_answer s).

(** Close a branch in which an internal event raised. *)
Ltac internal_raised :=
  let Hl := fresh in intros Hl; exfalso;
  repeat match type of Hl with
  | Forall internal_answered (MkStep _ (Err _) :: _) => apply Forall_cons in Hl as [[? [=]] _]
  | Forall internal_answered (_ :: _) => apply Forall_cons in Hl as [_ Hl]
  end.

(** A confirmed publication: its accepted state was read back after the write. *)
Definition confirmed_after (owner e : bytes) (prev : option identity_state) (st : identity_state) (log : list step) : Prop :=
  exists l m, log = l ++ m /\ read_back owner e prev st l /\
    exists h x r, MkStep (PutEnvelope (hex owner) e h x) r ∈ m.

Definition publication_confirmed (owner e : bytes) (prev : option identity_state)
    (o : res publication_result) (log : list step) : Prop :=
  Forall internal_answered log ->
  forall r, o = Ok r -> pr_status r = st_CONFIRMED ->
  exists st, pr_accepted_state r = Some st /\ confirmed_after owner e prev st log.

Lemma confirm_publication_log owner e prev reason m :
  (Forall internal_answered m -> exists h x r, MkStep (PutEnvelope (hex owner) e h x) r ∈ m) ->
  safe log_monitor m (_confirm_publication owner e prev reason) (publication_confirmed owner e prev).
Proof.
  intros Hput. unfold _confirm_publication. apply safe_bind, confirm_log. intros [o|] l Ho; [|by intros _ ? [=]].
  intros Hint r [= <-]. destruct o as [st|]; [|done]. intros _. exists st. split; [done|].
  apply Forall_app in Hint as [_ Hint]. exists l, m. split; [done|]. split; [by apply Ho|by apply Hput].
Qed.

Lemma publish_approved_log owner e prev x m :
  safe log_monitor m (publish_approved env owner e prev x) (publication_confirmed owner e prev).
Proof.
  assert (forall st e' reason l, st <> st_CONFIRMED ->
    publication_confirmed owner e prev (Ok (PublicationResult st e' None reason None)) l) as Hfail
    by (intros st e' reason l Hst _ r [= <-] Hc; done).
  unfold publish_approved, with_owner_lock.
  repeat match goal with
  | |- safe _ _ (_confirm_publication _ _ _ _) _ => apply confirm_publication_log
  | |- publication_confirmed _ _ _ (Ok (PublicationResult _ _ _ _ _)) _ => by apply Hfail
  | |- publication_confirmed _ _ _ (Err _) _ => by intros _ ? [=]
  | |- _ => log_step
  end; cbn [advance log_monitor].
  all: first
    [ intros _; do 3 eexists; repeat first [apply list_elem_of_here | apply list_elem_of_further]; fail
    | internal_raised ].
Qed.

(** [CONFIRMED] from [publish_bundle] means what it says: after a write of the
    bundle's finalized envelope the transport returned exactly that envelope for the
    owner, and the reported accepted state is its verified parse over the draft's
    predecessor.  (The process's own locks and registry are assumed not to raise.) *)
Lemma publish_confirmed bundle args t r :
  returns (publish_bundle env bundle args) t (Ok r) -> Forall internal_answered t -> pr_status r = st_CONFIRMED ->
  exists f prev e st, draft_view (bundle_draft bundle) = Ok f /\ _draft_previous_state (bundle_draft bundle) = Ok prev /\
    finalize bundle = Ok e /\ pr_accepted_state r = Some st /\ confirmed_after (df_owner_name f) e prev st (rev t).
Proof.
  intros Ht Hint Hst.
  set (Ψ := fun (o : res publication_result) (log : list step) => Forall internal_answered log ->
    forall r, o = Ok r -> pr_status r = st_CONFIRMED -> exists f prev e st, draft_view (bundle_draft bundle) = Ok f /\
    _draft_previous_state (bundle_draft bundle) = Ok prev /\ finalize bundle = Ok e /\
    pr_accepted_state r = Some st /\ confirmed_after (df_owner_name f) e prev st log).
  eapply (log_returns _ Ψ) in Ht; [eapply Ht; [by rewrite <-Permutation_rev|done|done]|].
  assert (forall e l, Ψ (Err e) l) as Herr by (intros e l _ ? [=]).
  assert (forall st e reason l, st <> st_CONFIRMED -> Ψ (Ok (PublicationResult st e None reason None)) l) as Hfail
    by (intros st e reason l Hs _ ? [= <-] Hc; done).
  unfold publish_bundle.
  repeat match goal with
  | |- safe _ _ (publish_approved _ _ _ _ _) _ => eapply safe_mono; [apply publish_approved_log|]
  | |- Ψ (Err _) _ => apply Herr
  | |- Ψ (Ok (PublicationResult ?st _ None _ None)) _ => apply Hfail; try discriminate
  | |- _ => log_step
  end.
  - intros ->. specialize (Hgate _ eq_refl). by destruct Hgate.
  - intros o l' Ho Hl r' -> Hr. destruct (Ho Hl r' eq_refl Hr) as (st & Hs & Hc). by eexists _, _, _, _.
Qed.

(** * Confirmation of owner-key rotations *)

(** [st] is the rotation the intent describes: a verified operation-5 state of the
    intent's owner, parsed from [b], succeeding the verified predecessor the intent
    names. *)
Definition rotation_evidence (intent : rotation_binding) (b : bytes) (st : identity_state) : Prop :=
  verified (rb_owner_name intent) st /\ st_envelope_bytes st = b /\
  st_owner_public_key st = rb_successor_owner_public_key intent /\ st_sequence st = rb_sequence intent /\
  (exists a, auth_operation a = 5 /\ auth_predecessor a = rb_predecessor_state_hash intent /\
     _decode_signed_update (PBytes (st_signed_update_bytes st)) =
       Ok (SignedUpdate (PBytes (st_owner_name st)) (PBytes (st_owner_public_key st)) [] (st_sequence st) (Some a))) /\
  exists p, verified (rb_owner_name intent) p /\ st_owner_public_key p = rb_predecessor_owner_public_key intent /\
    st_state_hash p = rb_predecessor_state_hash intent /\ st_sequence st = st_sequence p + 1.

Lemma verified_accepted owner st : verified owner st -> exists prev, accepted prev st.
Proof. intros (l & Hc & _). inversion Hc; subst; eauto. Qed.

Lemma accepted_decode prev st :
  accepted prev st -> exists oa, _decode_signed_update (PBytes (st_signed_update_bytes st)) =
    Ok (SignedUpdate (PBytes (st_owner_name st)) (PBytes (st_owner_public_key st)) [] (st_sequence st) oa).
Proof. intros [? Hd|a Hd]; eauto. Qed.

Lemma verify_remote_result intent b :
  result_ok (verify_remote env intent b) (fun o => forall st, o = Some st -> rotation_evidence intent b st).
Proof.
  unfold verify_remote. apply result_bind. eapply result_mono; [apply history_verified|].
  intros st [Hv Hb]. injection Hb as ->. apply result_bind, result_lift. intros su Hsu.
  destruct (confirms intent st su) eqn:Hc; [|done]. cbn [negb].
  apply result_bind, result_any. intros ok. destruct (negb ok); [done|].
  apply result_bind, result_any. intros [| | |pe| | | | |]; try done.
  apply result_bind. eapply result_mono; [apply history_verified|]. intros p [Hp _].
  destruct (_ || _) eqn:G; [done|]. intros ? [= <-].
  destruct (verified_accepted _ _ Hv) as [prev Ha]. destruct (accepted_decode _ _ Ha) as [oa Hd].
  rewrite Hd in Hsu. injection Hsu as <-. unfold confirms in Hc. cbn in Hc. destruct oa as [a|]; [|done].
  bool_hyps. unfold rotation_evidence. split_and!; try done; eauto.
Qed.

(** A confirmation rests on a remote read, in this log, of the intended envelope. *)
Definition rotation_confirmed (intent : rotation_binding) (c : rotation_confirmation) (log : list step) : Prop :=
  conf_binding c = intent /\ rb_environment intent = env /\ env <> None /\
  exists b st, MkStep (GetRemoteEnvelope (hex (rb_owner_name intent))) (Ok (PBytes b)) ∈ log /\
    sha256 b = rb_envelope_hash intent /\ rotation_evidence intent b st /\ conf_state_hash c = st_state_hash st.

Lemma rotation_confirmed_app intent c l m : rotation_confirmed intent c m -> rotation_confirmed intent c (l ++ m).
Proof. intros (H1 & H2 & H3 & b & st & H4 & H5). repeat (split; [done|]). exists b, st. split; [set_solver|done]. Qed.

Lemma environment_matches_result e :
  result_ok (_rotation_environment_matches env e) (fun b => b = true -> e = env /\ env <> None).
Proof.
  unfold _rotation_environment_matches. destruct e as [x|]; [|done]. case_bool_decide as E; [|done].
  apply result_any. by rewrite <-E.
Qed.

Lemma confirm_rotation_log intent m :
  safe log_monitor m (confirm_owner_key_rotation env intent) (fun o log =>
    forall c, o = Ok (Some c) -> rotation_confirmed intent c log).
Proof.
  unfold confirm_owner_key_rotation.
  repeat match goal with
  | |- safe _ _ (_rotation_environment_matches _ _) _ =>
      let V := fresh "Henv" in apply log_result with (1 := environment_matches_result _); intros [?|?] ? V
  | |- safe _ _ (verify_remote _ _ _) _ =>
      let V := fresh "Hev" in apply log_result with (1 := verify_remote_result _ _); intros [?|?] ? V
  | |- forall c, _ = Ok (Some c) -> _ => intros c [=]; fail
  | |- _ => log_step
  end.
  intros c [= <-]. bool_hyps. subst.
  destruct (Henv _ eq_refl eq_refl) as [He Hne]. specialize (Hev _ eq_refl _ eq_refl).
  do 3 (split; [done|]). eexists _, _. split; [|by split_and!].
  cbn [advance log_monitor]. set_solver.
Qed.

(** [confirm_owner_key_rotation] mints a confirmation only from evidence: in the
    adapter's own explicit environment, a fresh remote read returned bytes with the
    intent's envelope hash, which parse with full history to a verified operation-5
    state of the intent's owner with the successor key and sequence, whose named
    predecessor, fetched and verified on its own, has the intent's predecessor key and
    hash.  The confirmation carries exactly that intent and the new state's hash. *)
Lemma rotation_confirmation_sound intent t c :
  returns (confirm_owner_key_rotation env intent) t (Ok (Some c)) -> rotation_confirmed intent c (rev t).
Proof.
  intros Ht. eapply log_returns in Ht; [|apply confirm_rotation_log]. by apply Ht.
Qed.

(** * Outcomes of a dispatch *)

Definition only_expired (l : list step) : Prop := Forall (fun r => r = Err ExpiredPublication) (put_answers l).

Lemma only_expired_app l m : put_answers l = [] -> only_expired m -> only_expired (l ++ m).
Proof. intros Hl. unfold only_expired. by rewrite put_answers_app, Hl. Qed.

Lemma only_expired_cons s m : put_answer s = None -> only_expired m -> only_expired (s :: m).
Proof. intros Hs. unfold only_expired, put_answers. simpl. by rewrite Hs. Qed.

Lemma only_expired_put o e h x m :
  only_expired m -> only_expired (MkStep (PutEnvelope o e h x) (Err ExpiredPublication) :: m).
Proof. intros Hm. by constructor. Qed.

Definition dispatch_outcome (p : rotation_publication) (intent : rotation_binding)
    (o : res dispatch_result) (log : list step) : Prop :=
  forall r, o = Ok r ->
    (dr_status r = st_CONFIRMED <-> dr_confirmation r <> None) /\
    (forall c, dr_confirmation r = Some c -> rotation_confirmed intent c log) /\
    (forall rej, dr_rejection r = Some rej ->
       dr_status r = st_EXPIRED /\ rej_publication rej = p /\ only_expired log /\
       exists b, MkStep (GetRemoteEnvelope (hex (rb_owner_name intent))) (Ok (PBytes b)) ∈ log /\
         sha256 b <> rb_envelope_hash intent).

Lemma dispatch_outcome_app p intent o l m :
  put_answers l = [] -> dispatch_outcome p intent o m -> dispatch_outcome p intent o (l ++ m).
Proof.
  intros Hl Ho r Hr. destruct (Ho r Hr) as (H1 & H2 & H3). split; [done|]. split.
  - intros c Hc. by apply rotation_confirmed_app, H2.
  - intros rej Hrej. destruct (H3 rej Hrej) as (? & ? & Hexp & b & Hb & Hne). split; [done|]. split; [done|].
    split; [by apply only_expired_app|]. exists b. split; [set_solver|done].
Qed.

Lemma dispatch_outcome_unknown p intent reason log :
  dispatch_outcome p intent (Ok (dispatch_unknown reason)) log.
Proof. intros r [= <-]. by split_and!. Qed.

Lemma dispatch_confirmed_log p intent reason m :
  safe log_monitor m (dispatch_confirmed env intent reason) (dispatch_outcome p intent).
Proof.
  unfold dispatch_confirmed. apply safe_bind. eapply safe_mono; [apply confirm_rotation_log|].
  intros [[c|]|e] log Hc; [| |by intros ? [=]].
  - intros r [= <-]. simpl. split; [done|]. split; [|done]. intros ? [= <-]. by apply Hc.
  - apply dispatch_outcome_unknown.
Qed.

Lemma prewrite_log p intent st reason observed clearable m :
  (clearable = true -> only_expired m) ->
  safe log_monitor m (prewrite_result env p intent st reason observed clearable) (dispatch_outcome p intent).
Proof.
  intros Hm. unfold prewrite_result, make_rejection.
  repeat match goal with
  | |- safe _ _ (_rotation_environment_matches _ _) _ =>
      apply log_reads_any; [apply reads_environment|]; intros [?|?] ? ?
  | |- safe _ _ (dispatch_confirmed _ _ _) _ => apply dispatch_confirmed_log
  | |- dispatch_outcome _ _ (Ok (dispatch_unknown _)) _ => apply dispatch_outcome_unknown
  | |- dispatch_outcome _ _ (Ok environment_mismatch) _ => apply dispatch_outcome_unknown
  | |- dispatch_outcome _ _ (Err _) _ => by intros ? [=]
  | |- _ => log_step
  end.
  bool_hyps. intros r [= <-]. cbn [dr_status dr_confirmation dr_rejection]. split; [done|]. split; [done|].
  intros rej [= <-]. split; [done|]. split; [done|]. cbn [advance log_monitor]. split.
  - repeat first [apply only_expired_cons; [reflexivity|] | apply only_expired_app; [assumption|]]. by apply Hm.
  - eexists. split; [|done]. set_solver.
Qed.

Lemma only_expired_nil m : put_answers m = [] -> only_expired m.
Proof. unfold only_expired. by intros ->. Qed.

Lemma dispatch_locked_log p owner intent m :
  put_answers m = [] ->
  safe log_monitor m (dispatch_locked env p owner intent) (dispatch_outcome p intent).
Proof.
  intros Hm. unfold dispatch_locked.
  repeat match goal with
  | |- safe _ _ (_rotation_environment_matches _ _) _ =>
      apply log_reads_any; [apply reads_environment|]; intros [?|?] ? ?
  | |- safe _ _ _rotation_transport_available _ => apply log_reads_any; [apply reads_available|]; intros [?|?] ? ?
  | |- safe _ _ (read_state _ _) _ => apply log_reads_any; [apply reads_state|]; intros [?|?] ? ?
  | |- safe _ _ (prewrite_result _ _ _ _ _ _ _) _ => apply prewrite_log
  | |- safe _ _ (dispatch_confirmed _ _ _) _ => apply dispatch_confirmed_log
  | |- dispatch_outcome _ _ (Ok environment_mismatch) _ => apply dispatch_outcome_unknown
  | |- dispatch_outcome _ _ (Err _) _ => by intros ? [=]
  | |- false = true -> _ => intros [=]; fail
  | |- true = true -> _ => intros _; cbn [advance log_monitor]
  | |- only_expired (MkStep (PutEnvelope _ _ _ _) (Err ExpiredPublication) :: _) => apply only_expired_put
  | |- only_expired (_ :: _) => apply only_expired_cons; [reflexivity|]
  | |- only_expired (_ ++ _) => apply only_expired_app; [assumption|]
  | |- only_expired m => by apply only_expired_nil
  | |- _ => log_step
  end.
Qed.

(** What a dispatch may report.  [CONFIRMED] comes with, and only with, a
    confirmation resting on a fresh remote read of the intended envelope and verified
    history.  A rejection capability (the only thing that can clear a durable latch
    without a confirmation) is issued only with status [EXPIRED], for this
    publication, when no write of this call could have been accepted (none was made,
    or the transport refused it as expired) and a fresh remote read returned an
    envelope other than the intended one. *)
Lemma dispatch_outcomes p permit t r :
  returns (dispatch_owner_key_rotation env token p permit) t (Ok r) ->
  dispatch_outcome p (permit_intent permit) (Ok r) (rev t).
Proof.
  intros Ht. eapply log_returns in Ht; [exact Ht|]. clear Ht. unfold dispatch_owner_key_rotation, consume_for, with_owner_lock.
  repeat match goal with
  | |- safe _ _ (_rotation_environment_matches _ _) _ =>
      apply log_reads_any; [apply reads_environment|]; intros [?|?] ? ?
  | |- safe _ _ (dispatch_locked _ _ _ _) _ =>
      eapply safe_mono; [apply dispatch_locked_log|]; [|intros ? ? Ho]
  | |- dispatch_outcome _ _ (Ok environment_mismatch) _ => apply dispatch_outcome_unknown
  | |- dispatch_outcome _ _ (Err _) _ => by intros ? [=]
  | |- put_answers (advance _ _ _ _ _) = [] => cbn [advance log_monitor]
  | |- put_answers (_ ++ _) = [] => rewrite put_answers_app; apply app_nil; split
  | |- put_answers (_ :: ?l) = [] => change (put_answers l = [])
  | |- put_answers [] = [] => reflexivity
  | |- put_answers _ = [] => assumption
  | Ho : dispatch_outcome _ _ ?o _ |- safe _ _ (lift ?o) _ => apply safe_lift, (dispatch_outcome_app _ _ _ [_]); [reflexivity|exact Ho]
  | |- _ => log_step
  end.
Qed.

(** * Preparation *)

(** What a prepared publication stands for, in what the call learnt. *)
Definition prepared (bundle : identity_bundle) (args : consent_args) (r : publication_result)
    (pub : rotation_publication) (k : knowledge) : Prop :=
  pr_status r = st_READY /\ publication_matches_bundle pub bundle = true /\
  pub_adapter_token pub = token /\ env = Some (pub_environment pub) /\ ca_environment args = PStr (pub_environment pub) /\
  exists tr now, kn_approved k = Some tr /\ tr_review_payload tr = pub_envelope_bytes pub /\
    tr_operation tr = py "owner-key-rotation" /\ tr_environment tr = pub_environment pub /\
    tr_expires_at tr = pub_expires_at pub /\ kn_now k = Some now /\ now < pub_expires_at pub.

Lemma prepare_safe bundle args :
  safe (write_monitor no_writes) nothing_known (prepare_owner_key_rotation_publication env token bundle args)
    (fun o k => forall r pub, o = Ok r -> pr_publication r = Some pub -> prepared bundle args r pub k).
Proof.
  unfold prepare_owner_key_rotation_publication.
  repeat match goal with
  | |- safe _ _ (_rotation_environment_matches _ _) _ =>
      apply environment_matches_safe; let V := fresh "Henv" in intros [[]|] V
  | |- safe _ _ (_consent_gate _ _) _ =>
      apply consent_gate_safe; let V := fresh "Hap" in intros [[[]|]|] ? ? V _
  | |- forall r pub, Ok (PublicationResult _ _ _ _ None) = Ok r -> _ => intros r pub [= <-] [=]; fail
  | |- forall r pub, Err _ = Ok r -> _ => intros r pub [=]; fail
  | |- _ => wp_step
  end.
  intros r pub [= <-] [= <-]. bool_hyps.
  match goal with H : ConsentTranscript _ _ _ _ _ _ _ _ _ _ _ _ _ = Ok ?t |- _ =>
    apply transcript_fields in H as ((Hrev & _) & (_ & _ & Hexp) & (Hop & He & _) & _) end.
  split; [done|]. split.
  - unfold publication_matches_bundle. cbn. rewrite bool_decide_eq_true_2 by done.
    repeat match goal with H : ?x = Ok _ |- context [?x] => rewrite H; cbn end.
    repeat match goal with H : ?x = Some _ |- context [?x] => rewrite H; cbn end.
    rewrite !bool_decide_eq_true_2 by done. cbn. by apply Z.eqb_eq.
  - split; [done|]. split; [by symmetry; apply Henv|]. split; [done|].
    eexists _, _. split; [by apply Hap|]. cbn in *. split_and!; try done; congruence.
Qed.

(** Preparing a rotation writes nothing, and a publication capability is handed
    out only for this very bundle (its envelope, operation 5, and its verified
    predecessor), bound to this adapter and its explicit environment, after the user
    approved an owner-key-rotation transcript whose reviewed bytes are the envelope and
    before that approval's expiry. *)
Lemma prepare_publication_sound bundle args :
  writes_obey (prepare_owner_key_rotation_publication env token bundle args) no_writes /\
  forall t r pub, returns (prepare_owner_key_rotation_publication env token bundle args) t (Ok r) ->
    pr_publication r = Some pub -> prepared bundle args r pub (known t).
Proof.
  split.
  - eapply safe_writes_obey. eapply safe_mono; [apply prepare_safe|]. done.
  - intros t r pub Ht Hr. eapply safe_returns in Ht; [|apply prepare_safe]. rewrite ghost_known in Ht. eauto.
Qed.

(** C11. What [publish_bundle] may write and report, against any transport, consent handler and
    clock.  It writes at most one envelope, the finalized form of the bundle, never an owner-key
    rotation, conditional on the hash of the draft's verified predecessor, after the user approved
    a transcript whose reviewed bytes are that very envelope, before the consent's expiry by the
    last clock reading, and while holding the owner's lock with the rotation latch found clear
    under it.  [CONFIRMED] means that after a write of that envelope the transport returned exactly
    it for the owner, and the reported accepted state is its verified parse over the draft's
    predecessor.  (For the second part the process's own locks and registry are assumed not to
    raise.) *)
Theorem publication_discipline bundle args :
  writes_obey (publish_bundle env bundle args) (publish_rule bundle) /\
  forall t r, returns (publish_bundle env bundle args) t (Ok r) -> Forall internal_answered t -> pr_status r = st_CONFIRMED ->
    exists f prev e st, draft_view (bundle_draft bundle) = Ok f /\ _draft_previous_state (bundle_draft bundle) = Ok prev /\
      finalize bundle = Ok e /\ pr_accepted_state r = Some st /\ confirmed_after (df_owner_name f) e prev st (rev t).
Proof. split; [apply publish_bundle_writes|]. intros t r. apply publish_confirmed. Qed.

(** C15. What [dispatch_owner_key_rotation] may write and report.  For a permit that carries a
    constructed intent it writes at most one envelope, exactly the prepared publication's, whose
    hash, owner, keys, sequence, predecessor hash and environment are those of the intent; only
    with an authentic permit, after the intent was found dispatch-ready and this adapter consumed
    the publication's one-use flag, before the consent's expiry by the last clock reading, in the
    adapter's own environment, and under the owner's lock with that very intent still latched.
    It reports [CONFIRMED] with, and only with, a confirmation resting on a fresh remote read of
    the intended envelope and verified history.  It issues a rejection capability (the only thing
    that can clear a durable latch without a confirmation) only with status [EXPIRED], for this
    publication, when no write of this call could have been accepted and a fresh remote read
    returned an envelope other than the intended one. *)
Theorem dispatch_discipline p permit :
  (forall o pk sk ph sq eh en, RotationDispatchIntent o pk sk ph sq eh en = Ok (permit_intent permit) ->
    writes_obey (dispatch_owner_key_rotation env token p permit) (dispatch_rule env token p permit)) /\
  (forall t r, returns (dispatch_owner_key_rotation env token p permit) t (Ok r) ->
    dispatch_outcome p (permit_intent permit) (Ok r) (rev t)).
Proof. split; [apply dispatch_writes|apply dispatch_outcomes]. Qed.

(** C16. The evidence behind the capabilities of a rotation.  Preparing one writes nothing and hands
    out a publication only for this very bundle (its envelope, operation 5, and its verified
    predecessor), bound to this adapter and its explicit environment, after the user approved an
    owner-key-rotation transcript whose reviewed bytes are the envelope and before that approval's
    expiry.  [confirm_owner_key_rotation] mints a confirmation only in the adapter's own explicit
    environment, from a fresh remote read of bytes with the intent's envelope hash, which parse
    with full history to a verified operation-5 state of the intent's owner with the successor key
    and sequence, whose named predecessor, fetched and verified on its own, has the intent's
    predecessor key and hash; it carries exactly that intent and the new state's hash. *)
Theorem rotation_capabilities_sound bundle args intent :
  (writes_obey (prepare_owner_key_rotation_publication env token bundle args) no_writes /\
   forall t r pub, returns (prepare_owner_key_rotation_publication env token bundle args) t (Ok r) ->
     pr_publication r = Some pub -> prepared bundle args r pub (known t)) /\
  (forall t c, returns (confirm_owner_key_rotation env intent) t (Ok (Some c)) -> rotation_confirmed intent c (rev t)).
Proof. split; [apply prepare_publication_sound|apply rotation_confirmation_sound]. Qed.
End Outcomes.
