(* ===== verification/Concurrency.v ===== *)
(** Threads that share one adapter: an interleaving semantics over the latch
    registry, the owner locks and the one-use flags, and the guarantee that no write
    races with an unresolved rotation. *)

From S2P Require Import Prelude PyVal Sha256 Interfaces SignedUpdate Envelope EnvelopeFacts Draft Consent Rotation Effects Adapter Publish Dispatch Discipline Outcomes.

Open Scope Z_scope.

(** * The shared state of a process *)

Record shared := Shared {
  sh_latches : latches;
  sh_locks : gmap bytes (nat * nat);      (* owner lock: holding thread and depth *)
  sh_consumed : gset Z;                   (* consumed one-use flags *)
}.

Definition shared_init : shared := Shared ∅ ∅ ∅.

Definition holds (s : shared) (i : nat) (owner : bytes) : Prop := exists n, sh_locks s !! owner = Some (i, S n).

(** The lock is free or already held by thread [i] (it is reentrant). *)
Definition lock_open (s : shared) (i : nat) (owner : bytes) : Prop :=
  match sh_locks s !! owner with Some (j, _) => j = i | None => True end.

Definition lock_depth (s : shared) (owner : bytes) : nat :=
  match sh_locks s !! owner with Some (_, n) => n | None => 0 end.

Definition with_latches (s : shared) (l : latches) : shared := Shared l (sh_locks s) (sh_consumed s).

(** [answered i ev r s s']: thread [i]'s event [ev] may be answered [r] in [s], leading
    to [s'].  Events outside the process may be answered in any way. *)
Definition answered (i : nat) {B : Set} (ev : event B) : res B -> shared -> shared -> Prop :=
  match ev in event B return res B -> shared -> shared -> Prop with
  | IsOwnerLatched o => fun r s s' => r = Ok (is_owner_latched (sh_latches s) o) /\ s' = s
  | IsLatched b => fun r s s' => r = Ok (is_latched (sh_latches s) b) /\ s' = s
  | IsDispatchReady b => fun r s s' => r = Ok (is_dispatch_ready (sh_latches s) b) /\ s' = s
  | Register b ready => fun r s s' =>
      lock_open s i (rb_owner_name b) /\ r = Ok (register (sh_latches s) b ready).1 /\
      s' = with_latches s (register (sh_latches s) b ready).2
  | Clear b => fun r s s' =>
      lock_open s i (rb_owner_name b) /\ r = Ok (clear (sh_latches s) b).1 /\
      s' = with_latches s (clear (sh_latches s) b).2
  | AcquireOwner o => fun r s s' =>
      lock_open s i o /\ r = Ok tt /\
      s' = Shared (sh_latches s) (<[o := (i, S (lock_depth s o))]> (sh_locks s)) (sh_consumed s)
  | ReleaseOwner o => fun r s s' =>
      exists n, sh_locks s !! o = Some (i, S n) /\ r = Ok tt /\
      s' = Shared (sh_latches s)
             (match n with O => delete o (sh_locks s) | S _ => <[o := (i, n)]> (sh_locks s) end) (sh_consumed s)
  | ConsumeCell c => fun r s s' =>
      r = Ok (negb (bool_decide (c ∈ sh_consumed s))) /\
      s' = Shared (sh_latches s) (sh_locks s) ({[c]} ∪ sh_consumed s)
  | _ => fun _ s s' => s' = s
  end.

(** A process: its threads and what they share. *)
Record process := Process { pr_threads : list (prog unit); pr_shared : shared }.

Inductive process_step : process -> process -> Prop :=
  | thread_step i B (ev : event B) c r ts s s' :
      ts !! i = Some (Do ev c) -> answered i ev r s s' ->
      process_step (Process ts s) (Process (<[i := c r]> ts) s').

(** * Writes under the latch discipline *)

(** A write happens under the owner's lock and either no rotation of the owner is
    latched or the written envelope is the latched rotation's. *)
Definition guarded_write : write_rule := fun k o e h x =>
  exists owner, o = hex owner /\ kn_locked k = Some owner /\
    (kn_unlatched k = true \/ exists b, kn_latched k = Some b /\ sha256 e = rb_envelope_hash b).

(** Programs that write only so. *)
Definition disciplined {A} (p : prog A) : Prop :=
  safe (write_monitor guarded_write) nothing_known p (fun _ _ => True).

Lemma safe_rule_mono {A} (p : prog A) (P P' : write_rule) (S : sign_rule) k Q :
  (forall k o e h x, P k o e h x -> P' k o e h x) ->
  safe (rule_monitor P S) k p Q -> safe (write_monitor P') k p (fun _ _ => True).
Proof.
  intros HP. revert k. induction p as [a|e|B ev c IH]; simpl; intros k; [done|done|].
  intros [Hev Hc]. split; [destruct ev; try exact I; auto|]. auto.
Qed.

Lemma disciplined_ignore {A} (p : prog A) : disciplined p -> disciplined (let! _ := p in Ret tt).
Proof. intros Hp. apply safe_bind. eapply safe_mono; [exact Hp|]. by intros [a|e]. Qed.

Section EntryPoints.
Context `{Cbor} `{Ed25519}.
Context (env : option pystr) (token : Z).

Lemma ordinary_guarded k o owner e e' h x :
  o = hex owner -> ordinary_write k owner e x -> guarded_write k o e' h x.
Proof. intros -> (_ & Hl & Hu & _). exists owner. auto. Qed.

Lemma publish_bundle_disciplined bundle args : disciplined (publish_bundle env bundle args).
Proof.
  eapply safe_rule_mono, publish_bundle_safe. intros k o e h x (f & prev & _ & _ & _ & _ & Ho & _ & Hw).
  by eapply ordinary_guarded.
Qed.

Lemma submit_identity_disciplined on ok sk op args am sid draft :
  disciplined (submit_identity env on ok sk op args am sid draft).
Proof.
  eapply safe_rule_mono, submit_identity_safe.
  intros k o e h x (_ & owner & cur & key & u & sig & _ & Ho & _ & _ & _ & _ & Hw). by eapply ordinary_guarded.
Qed.

Lemma sign_draft_disciplined draft sk args sid : disciplined (sign_draft env draft sk args sid).
Proof.
  unfold disciplined, sign_draft. wp. subst. apply submit_identity_disciplined.
Qed.

Lemma dispatch_disciplined p permit :
  _rotation_binding (permit_intent permit) = Some (permit_intent permit) ->
  disciplined (dispatch_owner_key_rotation env token p permit).
Proof.
  intros Hi. eapply safe_rule_mono; [|by apply dispatch_safe].
  intros k o e h x (_ & _ & _ & Ho & _ & He & _ & _ & _ & _ & _ & _ & Hl & Hla & _). exists (rb_owner_name (permit_intent permit)).
  split; [done|]. split; [done|]. right. eauto.
Qed.
(** Methods that write nothing. *)
Lemma reads_disciplined {A} (p : prog A) : reads_only p -> disciplined p.
Proof. intros Hp. by apply reads_safe. Qed.

Lemma create_draft_disciplined on ok am : disciplined (create_draft env on ok am).
Proof. unfold disciplined, create_draft. by wp. Qed.

Lemma create_rotation_draft_disciplined on sk ss : disciplined (create_owner_key_rotation_draft env on sk ss).
Proof. unfold disciplined, create_owner_key_rotation_draft. by wp. Qed.

Lemma confirm_bundle_disciplined bundle : disciplined (confirm_bundle bundle).
Proof. unfold disciplined, confirm_bundle. by wp. Qed.

Lemma confirm_rotation_disciplined intent : disciplined (confirm_owner_key_rotation env intent).
Proof. by apply confirm_rotation_safe. Qed.

Lemma prepare_disciplined bundle args :
  disciplined (prepare_owner_key_rotation_publication env token bundle args).
Proof. eapply safe_rule_mono; [|apply prepare_safe]. by intros k o e h x []. Qed.

Lemma latch_calls_disciplined b ready : disciplined (call (Register b ready)) /\ disciplined (call (Clear b)).
Proof. unfold disciplined. split; by wp. Qed.
End EntryPoints.

Section Calls.
Context `{Cbor} `{Ed25519}.

(** One call of a method on an adapter of the process (the environment [env] and the
    [token] are the adapter's), or of a session on the latch registry. *)
Inductive adapter_method : forall A : Type, prog A -> Prop :=
  | calls_read_state env on : adapter_method _ (read_state env on)
  | calls_create_draft env on ok am : adapter_method _ (create_draft env on ok am)
  | calls_create_rotation_draft env on sk ss : adapter_method _ (create_owner_key_rotation_draft env on sk ss)
  | calls_submit_identity env on ok sk op args am sid draft :
      adapter_method _ (submit_identity env on ok sk op args am sid draft)
  | calls_sign_draft env draft sk args sid : adapter_method _ (sign_draft env draft sk args sid)
  | calls_publish_bundle env bundle args : adapter_method _ (publish_bundle env bundle args)
  | calls_confirm_bundle bundle : adapter_method _ (confirm_bundle bundle)
  | calls_confirm_rotation env intent : adapter_method _ (confirm_owner_key_rotation env intent)
  | calls_prepare env token bundle args :
      adapter_method _ (prepare_owner_key_rotation_publication env token bundle args)
  | calls_dispatch env token p permit o pk sk ph sq eh en :
      RotationDispatchIntent o pk sk ph sq eh en = Ok (permit_intent permit) ->
      adapter_method _ (dispatch_owner_key_rotation env token p permit)
  | calls_register b ready : adapter_method _ (call (Register b ready))
  | calls_clear b : adapter_method _ (call (Clear b)).

(** A thread that makes one such call and keeps nothing of its result. *)
Definition adapter_thread (t : prog unit) : Prop :=
  exists A (p : prog A), adapter_method A p /\ t = let! _ := p in Ret tt.

Lemma adapter_thread_disciplined t : adapter_thread t -> disciplined t.
Proof.
  intros (A & p & Hp & ->). apply disciplined_ignore. destruct Hp as
    [| | | | | | | | | env token p permit o pk sk ph sq eh en Hi%intent_binding|b ready|b].
  - apply reads_disciplined, reads_state.
  - apply create_draft_disciplined.
  - apply create_rotation_draft_disciplined.
  - apply submit_identity_disciplined.
  - apply sign_draft_disciplined.
  - apply publish_bundle_disciplined.
  - apply confirm_bundle_disciplined.
  - apply confirm_rotation_disciplined.
  - apply prepare_disciplined.
  - by apply dispatch_disciplined.
  - apply (latch_calls_disciplined b ready).
  - apply (latch_calls_disciplined b false).
Qed.
End Calls.

(** * The invariant *)

(** What thread [i] believes is true of the shared state. *)
Record believes (i : nat) (k : knowledge) (s : shared) : Prop := {
  believes_lock o : kn_locked k = Some o -> holds s i o;
  believes_unlatched : kn_unlatched k = true -> exists o, kn_locked k = Some o /\ sh_latches s !! o = None;
  believes_latched b : kn_latched k = Some b ->
    kn_locked k = Some (rb_owner_name b) /\ exists r, sh_latches s !! rb_owner_name b = Some (b, r);
}.

Record process_ok (p : process) (ks : list knowledge) : Prop := {
  ok_length : length ks = length (pr_threads p);
  ok_safe i k t : ks !! i = Some k -> pr_threads p !! i = Some t ->
    safe (write_monitor guarded_write) k t (fun _ _ => True);
  ok_believes i k : ks !! i = Some k -> believes i k (pr_shared p);
}.

Lemma is_latched_true l b : is_latched l b = true -> exists r, l !! rb_owner_name b = Some (b, r).
Proof.
  unfold is_latched. destruct (_rotation_binding b) as [b'|] eqn:E; [|done]. apply rotation_binding_some in E as ->.
  destruct (l !! rb_owner_name b) as [[c r]|]; [|done]. case_bool_decide as Ec; [|done]. simpl in Ec. subst. eauto.
Qed.

Lemma register_other l b ready o : o <> rb_owner_name b -> (register l b ready).2 !! o = l !! o.
Proof.
  intros Hne. unfold register. destruct (_rotation_binding b) as [b'|] eqn:E; [|done].
  apply rotation_binding_some in E as ->. destruct (l !! rb_owner_name b); [case_match; [done|]|]; simpl;
    by rewrite lookup_insert_ne by done.
Qed.

Lemma clear_other l b o : o <> rb_owner_name b -> (clear l b).2 !! o = l !! o.
Proof.
  intros Hne. unfold clear. destruct (_rotation_binding b) as [b'|] eqn:E; [|done].
  apply rotation_binding_some in E as ->. destruct (l !! rb_owner_name b); [|done]. case_match; [|done]. simpl.
  by rewrite lookup_delete_ne by done.
Qed.

(** An event of thread [i] changes neither the locks another thread holds nor the
    latches of owners another thread has locked. *)
Lemma answered_other i j B (ev : event B) r s s' o :
  i <> j -> answered i ev r s s' -> holds s j o ->
  holds s' j o /\ sh_latches s' !! o = sh_latches s !! o.
Proof.
  intros Hij Ha [n Hn].
  assert (lock_open s i o -> False) as Hno by (unfold lock_open; rewrite Hn; congruence).
  destruct ev; simpl in Ha; destruct_and?; subst; try (split; [by exists n|done]).
  - split; [by exists n|]. apply register_other. by intros ->.
  - split; [by exists n|]. apply clear_other. by intros ->.
  - split; [|done]. exists n. simpl. rewrite lookup_insert_ne; [done|]. by intros ->.
  - destruct Ha as (m & Hm & _ & ->). split; [|done]. exists n. simpl. assert (owner_name <> o) by congruence.
    destruct m; [by rewrite lookup_delete_ne|by rewrite lookup_insert_ne].
Qed.

Lemma believes_other i j B (ev : event B) r k s s' :
  i <> j -> answered i ev r s s' -> believes j k s -> believes j k s'.
Proof.
  intros Hij Ha [Hl Hu Hb]. constructor.
  - intros o Ho. by apply (answered_other _ _ _ _ _ _ _ o Hij Ha), Hl.
  - intros Hk. destruct (Hu Hk) as (o & Ho & Hn). exists o. split; [done|].
    by destruct (answered_other _ _ _ _ _ _ _ o Hij Ha (Hl _ Ho)) as [_ ->].
  - intros b Hk. destruct (Hb b Hk) as (Ho & q & Hn). split; [done|]. exists q.
    by destruct (answered_other _ _ _ _ _ _ _ _ Hij Ha (Hl _ Ho)) as [_ ->].
Qed.

(** The acting thread's beliefs stay true as it learns the answer. *)
Lemma believes_self i B (ev : event B) r k s s' :
  answered i ev r s s' -> believes i k s -> believes i (learn B k ev r) s'.
Proof.
  intros Ha [Hl Hu Hb]. destruct ev; simpl in Ha; destruct_and?; subst; try (by constructor).
  - constructor; simpl; [done| |done]. destruct (is_owner_latched _ _) eqn:E; [done|].
    intros Hk%bool_decide_eq_true. exists owner_name. split; [done|].
    unfold is_owner_latched in E. apply bool_decide_eq_false in E. by apply eq_None_not_Some.
  - constructor; simpl; [done|done|]. destruct (is_latched _ _) eqn:E; [|done]. intros b.
    case_bool_decide as Hk; [|done]. intros [= <-]. split; [done|]. by apply is_latched_true.
  - constructor; simpl; [|done|done]. intros o [= <-]. eexists. apply lookup_insert_eq.
Qed.

Lemma process_step_ok p p' ks :
  process_step p p' -> process_ok p ks -> exists ks', process_ok p' ks'.
Proof.
  intros [i B ev c r ts s s' Hi Ha] [Hlen Hs Hb]. simpl in *.
  destruct (ks !! i) as [k|] eqn:Hk.
  2: { apply lookup_ge_None in Hk. apply lookup_lt_Some in Hi. lia. }
  exists (<[i := learn B k ev r]> ks). constructor; simpl.
  - by rewrite !length_insert.
  - intros j k' t Hj Ht. destruct (decide (i = j)) as [<-|Hne].
    + rewrite list_lookup_insert_eq in Hj by (by eapply lookup_lt_Some).
      rewrite list_lookup_insert_eq in Ht by (by eapply lookup_lt_Some). injection Hj as <-. injection Ht as <-.
      destruct (Hs i k _ Hk Hi) as [_ Hc]. apply Hc.
    + rewrite list_lookup_insert_ne in Hj by done. rewrite list_lookup_insert_ne in Ht by done. by eapply Hs.
  - intros j k' Hj. destruct (decide (i = j)) as [<-|Hne].
    + rewrite list_lookup_insert_eq in Hj by (by eapply lookup_lt_Some). injection Hj as <-.
      eapply believes_self; [done|by apply Hb].
    + rewrite list_lookup_insert_ne in Hj by done. eapply believes_other; [done|done|by apply Hb].
Qed.

Lemma process_init_ok ts s : Forall disciplined ts -> process_ok (Process ts s) (replicate (length ts) nothing_known).
Proof.
  intros Hts. constructor; simpl.
  - apply length_replicate.
  - intros i k t [-> _]%lookup_replicate_1 Ht. rewrite Forall_lookup in Hts. by eapply Hts.
  - intros i k [-> _]%lookup_replicate_1. by constructor.
Qed.

Lemma process_reachable_ok ts s p :
  Forall disciplined ts -> rtc process_step (Process ts s) p -> exists ks, process_ok p ks.
Proof.
  intros Hts Hr. assert (exists ks, process_ok (Process ts s) ks) as Hi by eauto using process_init_ok.
  revert Hi. induction Hr as [|x y z Hxy Hyz IH]; [done|]. intros [ks Hks]. apply IH. by eapply process_step_ok.
Qed.

(** No write races with an unresolved rotation.  Threads of one process share an
    adapter and interleave arbitrarily, each running a program that writes only under the
    latch discipline; the transport, the clock and the consent handlers answer in any way.  In every reachable state, a
    thread about to write an owner's envelope holds that owner's lock, and the owner
    has no latched rotation, or the envelope is the latched rotation's own; and no two
    threads are about to write for the same owner. *)
Lemma writes_never_race ts s p i o e h x c :
  Forall disciplined ts -> rtc process_step (Process ts s) p ->
  pr_threads p !! i = Some (Do (PutEnvelope o e h x) c) ->
  exists owner, o = hex owner /\ holds (pr_shared p) i owner /\
    (sh_latches (pr_shared p) !! owner = None \/
     exists b r, sh_latches (pr_shared p) !! owner = Some (b, r) /\ sha256 e = rb_envelope_hash b) /\
    (forall j, holds (pr_shared p) j owner -> j = i).
Proof.
  intros Hts Hr Hi. destruct (process_reachable_ok _ _ _ Hts Hr) as [ks [Hlen Hs Hb]].
  destruct (ks !! i) as [k|] eqn:Hk.
  2: { apply lookup_ge_None in Hk. apply lookup_lt_Some in Hi. lia. }
  destruct (Hs i k _ Hk Hi) as [(owner & -> & Hl & Hw) _]. destruct (Hb i k Hk) as [Bl Bu Bb].
  exists owner. split; [done|]. split; [by apply Bl|]. split.
  - destruct Hw as [Hu|(b & Hbl & He)].
    + destruct (Bu Hu) as (o & Ho & Hn). left. congruence.
    + destruct (Bb b Hbl) as (Ho & r & Hn). right. exists b, r. split; [congruence|done].
  - intros j [n Hj]. destruct (Bl _ Hl) as [m Hm]. congruence.
Qed.
