(* ===== verification/OneUse.v ===== *)
(** One-use publications across threads: however the dispatches of one prepared
    rotation are interleaved, at most one write comes out. *)

From S2P Require Import Prelude PyVal Sha256 Interfaces SignedUpdate Envelope Draft Consent Rotation Effects Adapter Dispatch Discipline Concurrency.

Open Scope Z_scope.

(** * Interleaved traces *)

(** [process_trace p l q]: from [p], the threads perform the events of [l], each with
    the number of its thread, and [q] is reached. *)
Inductive process_trace : process -> list (nat * step) -> process -> Prop :=
  | trace_nil p : process_trace p [] p
  | trace_cons i B (ev : event B) c r ts s s' l q :
      ts !! i = Some (Do ev c) -> answered i ev r s s' ->
      process_trace (Process (<[i := c r]> ts) s') l q ->
      process_trace (Process ts s) ((i, MkStep ev r) :: l) q.

(** The events of thread [i]. *)
Definition events_of (i : nat) (l : list (nat * step)) : list step := (filter (fun e => e.1 = i) l).*2.

Lemma steps_nil {A} (p : prog A) : steps p [] p.
Proof. destruct p; simpl; auto. Qed.

Lemma events_of_cons_eq i s l : events_of i ((i, s) :: l) = s :: events_of i l.
Proof. unfold events_of. by rewrite filter_cons_True. Qed.

Lemma events_of_cons_ne i j s l : i <> j -> events_of j ((i, s) :: l) = events_of j l.
Proof. intros Hij. unfold events_of. by rewrite filter_cons_False by (by simpl). Qed.

(** A thread's own events are a trace of its program. *)
Lemma process_trace_steps p l q i t :
  process_trace p l q -> pr_threads p !! i = Some t -> exists t', steps t (events_of i l) t'.
Proof.
  intros Ht. revert t. induction Ht as [p|j B ev c r ts s s' l q Hj Ha Ht IH]; intros t Hi; simpl in *.
  - exists t. apply steps_nil.
  - destruct (decide (j = i)) as [->|Hne].
    + assert (t = Do ev c) as -> by congruence. destruct (IH (c r)) as [t' Ht'].
      { apply list_lookup_insert_eq. by eapply lookup_lt_Some. }
      exists t'. rewrite events_of_cons_eq. simpl. right. eauto.
    + rewrite events_of_cons_ne by done. apply IH. by rewrite list_lookup_insert_ne.
Qed.

Lemma process_trace_app p l q l' q' : process_trace p l q -> process_trace q l' q' -> process_trace p (l ++ l') q'.
Proof. induction 1 as [|i B ev c r ts s s' l q Hi Ha Ht IH]; intros Hq; [done|]. simpl. econstructor; eauto. Qed.

Lemma process_trace_rtc p l q : process_trace p l q -> rtc process_step p q.
Proof. induction 1 as [|i B ev c r ts s s' l q Hi Ha Ht IH]; [done|]. eapply rtc_l; [by econstructor|done]. Qed.

(** * Counting *)

Definition is_put (s : step) : bool := match step_event s with PutEnvelope _ _ _ _ => true | _ => false end.

(** The step consumed the one-use flag [c]. *)
Definition consumes (c : Z) (s : step) : bool :=
  match step_event s in event B return res B -> bool with
  | ConsumeCell c' => fun r => (c' =? c) && match r with Ok b => b | Err _ => false end
  | _ => fun _ => false
  end (step_answer s).

Definition puts (l : list (nat * step)) : list (nat * step) := filter (fun e => is_put e.2 = true) l.

(** The registry of flags grants each flag once. *)
Lemma consumed_once p l q c :
  process_trace p l q ->
  (length (filter (fun e => consumes c e.2 = true) l) <= if bool_decide (c ∈ sh_consumed (pr_shared p)) then 0 else 1)%nat.
Proof.
  induction 1 as [p|i B ev k r ts s s' l q Hi Ha Ht IH]; [simpl; lia|]. cbn [pr_shared] in *.
  assert (consumes c (MkStep ev r) = false /\ sh_consumed s' = sh_consumed s \/
    exists c', sh_consumed s' = {[c']} ∪ sh_consumed s /\
      (consumes c (MkStep ev r) = true -> c' = c /\ c ∉ sh_consumed s)) as Hev.
  { destruct ev; cbn in Ha |- *; destruct_and?; subst; try (left; done).
    - destruct Ha as (n & _ & _ & ->). by left.
    - right. exists cell. split; [done|]. case_bool_decide; cbn; rewrite ?andb_false_r; [done|].
      rewrite andb_true_r. by intros ->%Z.eqb_eq. }
  destruct Hev as [[Hc Hs]|(c' & Hs & Hc)].
  - rewrite filter_cons_False by (simpl; congruence). by rewrite <-Hs.
  - destruct (consumes c (MkStep ev r)) eqn:Ec.
    + destruct (Hc eq_refl) as [-> Hn]. rewrite filter_cons_True by done. rewrite (bool_decide_eq_false_2 _ Hn).
      rewrite Hs in IH. rewrite bool_decide_eq_true_2 in IH by set_solver. simpl. lia.
    + rewrite filter_cons_False by (simpl; congruence). rewrite Hs in IH.
      repeat case_bool_decide; try lia. set_solver.
Qed.

Lemma ghost_consumed k t c :
  kn_consumed (ghost (write_monitor (fun _ _ _ _ _ => True)) k t) = Some c ->
  kn_consumed k = Some c \/ exists s, s ∈ t /\ consumes c s = true.
Proof.
  revert k. induction t as [|[B ev r] t IH]; intros k; [by left|]. cbn [ghost]. intros [Hk|(s & Hs & Hc)]%IH.
  - cbn in Hk. destruct ev; try (by left). cbn in Hk. destruct r as [[]|]; try (by left). injection Hk as ->.
    right. eexists. split; [apply list_elem_of_here|]. cbn. by rewrite Z.eqb_refl.
  - right. exists s. split; [by apply list_elem_of_further|done].
Qed.

Lemma ghost_writes k t :
  (kn_writes k + length (filter (fun s => is_put s = true) t) =
   kn_writes (ghost (write_monitor (fun _ _ _ _ _ => True)) k t))%nat.
Proof.
  revert k. induction t as [|[B ev r] t IH]; intros k; [simpl; lia|]. cbn [ghost]. rewrite <-IH.
  destruct ev; try (rewrite filter_cons_False by done; done).
  rewrite filter_cons_True by done. simpl. lia.
Qed.

(** * At most one write per publication *)

Lemma events_of_app i l1 l2 : events_of i (l1 ++ l2) = events_of i l1 ++ events_of i l2.
Proof. unfold events_of. by rewrite filter_app, fmap_app. Qed.

Lemma events_of_elem i s l : s ∈ events_of i l -> (i, s) ∈ l.
Proof. unfold events_of. intros ([j s'] & -> & [Hj Hs]%list_elem_of_filter)%list_elem_of_fmap. simpl in Hj. by subst. Qed.

Lemma two_puts l :
  (length (puts l) <= 1)%nat \/
  exists l1 i s l2 j s' l3, l = l1 ++ (i, s) :: l2 ++ (j, s') :: l3 /\ is_put s = true /\ is_put s' = true.
Proof.
  assert (forall l, puts l = [] \/ exists l1 i s l2, l = l1 ++ (i, s) :: l2 /\ is_put s = true) as Hone.
  { clear l. intros l. induction l as [|[i s] l IH]; [by left|]. destruct (is_put s) eqn:E.
    - right. by exists [], i, s, l.
    - destruct IH as [IH|(l1 & j & s' & l2 & -> & Hs)].
      + left. unfold puts in *. by rewrite filter_cons_False by (simpl; congruence).
      + right. by exists ((i, s) :: l1), j, s', l2. }
  induction l as [|[i s] l IH]; [left; simpl; lia|]. unfold puts in *. destruct (is_put s) eqn:E.
  - rewrite filter_cons_True by done. destruct (Hone l) as [H0|(l1 & j & s' & l2 & -> & Hs)].
    + left. unfold puts in H0. rewrite H0. simpl. lia.
    + right. by exists [], i, s, l1, j, s', l2.
  - rewrite filter_cons_False by (simpl; congruence). destruct IH as [IH|(l1 & j & s1 & l2 & k & s2 & l3 & -> & H1 & H2)]; [by left|].
    right. by exists ((i, s) :: l1), j, s1, l2, k, s2, l3.
Qed.

Lemma two_elements {A} (l : list A) (P : A -> Prop) `{forall x, Decision (P x)} x y :
  x ∈ l -> y ∈ l -> P x -> P y -> x <> y -> (2 <= length (filter P l))%nat.
Proof.
  intros Hx Hy Px Py Hne. assert (x ∈ filter P l) as Hx' by (by apply list_elem_of_filter).
  assert (y ∈ filter P l) as Hy' by (by apply list_elem_of_filter).
  destruct (filter P l) as [|a [|b m]]; simpl; [set_solver| |lia]. apply list_elem_of_singleton in Hx', Hy'. congruence.
Qed.

(** A write of a dispatch that consumed flag [c] in the same call. *)
Definition single_write (c : Z) : write_rule := fun k _ _ _ _ => kn_writes k = 0%nat /\ kn_consumed k = Some c.

Lemma is_put_shape s : is_put s = true -> exists o e h x r, s = MkStep (PutEnvelope o e h x) r.
Proof. destruct s as [B ev r]. unfold is_put. destruct ev; try done. cbn. eauto 8. Qed.

Lemma trace_thread p l q i s :
  process_trace p l q -> (i, s) ∈ l -> is_Some (pr_threads p !! i).
Proof.
  induction 1 as [p|j B ev c r ts s0 s' l q Hj Ha Ht IH]; [set_solver|]. simpl in *.
  intros [[= -> ->]|Hi]%elem_of_cons; [eauto|]. specialize (IH Hi). apply lookup_lt_is_Some in IH.
  rewrite length_insert in IH. by apply lookup_lt_is_Some.
Qed.

(** A write of thread [i] follows its own consumption of the flag and is its first. *)
Lemma writer_consumed c p l q i t1 s t2 :
  Forall (fun t => writes_obey t (single_write c)) (pr_threads p) -> process_trace p l q ->
  events_of i l = t1 ++ s :: t2 -> is_put s = true ->
  filter (fun s => is_put s = true) t1 = [] /\ exists a, (i, a) ∈ l /\ consumes c a = true.
Proof.
  intros Hts Ht E Hs. assert (forall a, a ∈ t1 ++ s :: t2 -> (i, a) ∈ l) as Hin.
  { intros a Hin. apply events_of_elem. by rewrite E. }
  destruct (trace_thread p l q i s Ht (Hin s ltac:(set_solver))) as [t Hi].
  destruct (process_trace_steps p l q i t Ht Hi) as [t' Hst]. rewrite Forall_lookup in Hts.
  apply is_put_shape in Hs as (o & e & h & x & r & ->). rewrite E in Hst.
  destruct (Hts i t Hi _ t' t1 o e h x r t2 Hst eq_refl) as [Hw Hc]. unfold known in *.
  rewrite <-ghost_writes in Hw. split; [apply nil_length_inv; simpl in Hw; lia|].
  apply ghost_consumed in Hc as [[=]|(a & Ha & Hc)]. exists a. split; [apply Hin; set_solver|done].
Qed.

Lemma single_writer_once c p l q :
  Forall (fun t => writes_obey t (single_write c)) (pr_threads p) -> process_trace p l q -> (length (puts l) <= 1)%nat.
Proof.
  intros Hts Ht. destruct (two_puts l) as [|(l1 & i & s1 & l2 & j & s2 & l3 & E & H1 & H2)]; [done|exfalso].
  assert (events_of i l = events_of i l1 ++ s1 :: events_of i (l2 ++ (j, s2) :: l3)) as Ei
    by (by rewrite E, events_of_app, events_of_cons_eq).
  destruct (writer_consumed c p l q i _ _ _ Hts Ht Ei H1) as (_ & a & Ha & Hca).
  destruct (decide (i = j)) as [<-|Hij].
  - assert (events_of i l = (events_of i l1 ++ s1 :: events_of i l2) ++ s2 :: events_of i l3) as Ej.
    { by rewrite Ei, events_of_app, events_of_cons_eq, <-app_assoc. }
    destruct (writer_consumed c p l q i _ _ _ Hts Ht Ej H2) as (Hn & _).
    rewrite filter_app, filter_cons_True in Hn by done. by apply app_eq_nil in Hn as [_ ?].
  - assert (events_of j l = events_of j (l1 ++ (i, s1) :: l2) ++ s2 :: events_of j l3) as Ej.
    { by rewrite E, !events_of_app, !events_of_cons_ne, events_of_app, events_of_cons_eq, app_assoc by done. }
    destruct (writer_consumed c p l q j _ _ _ Hts Ht Ej H2) as (_ & b & Hb & Hcb).
    pose proof (consumed_once p l q c Ht) as Hone.
    assert (2 <= length (filter (fun e => consumes c e.2 = true) l))%nat as Htwo.
    { apply (two_elements l _ (i, a) (j, b)); try done. congruence. }
    case_bool_decide; lia.
Qed.

Section Dispatches.
Context `{Cbor} `{Ed25519}.
Context (env : option pystr) (token : Z).

(** A thread that dispatches the publication under some permit with a constructed
    intent. *)
Definition dispatches (p : rotation_publication) (t : prog unit) : Prop :=
  exists permit o pk sk ph sq eh en,
    RotationDispatchIntent o pk sk ph sq eh en = Ok (permit_intent permit) /\
    t = let! _ := dispatch_owner_key_rotation env token p permit in Ret tt.

Lemma dispatches_single_write p t : dispatches p t -> writes_obey t (single_write (pub_cell p)).
Proof.
  intros (permit & o & pk & sk & ph & sq & eh & en & Hi%intent_binding & ->).
  eapply (safe_writes_obey _ _ any_signature (fun _ _ => True)), safe_bind.
  eapply safe_weaken with (P := dispatch_rule env token p permit) (S := any_signature); [|done|].
  - intros k ? ? ? ? (_ & _ & _ & _ & _ & _ & _ & _ & _ & Hw & _ & Hc & _). by split.
  - eapply safe_mono; [by apply dispatch_safe|]. by intros [].
Qed.

(** A prepared publication is written at most once: let any number of threads
    dispatch it, under any permits and in any interleaving, starting from any shared
    state and with any answers of the transport; the whole process makes at most one
    registry write. *)
Lemma publication_written_once p ts s l q :
  Forall (dispatches p) ts -> process_trace (Process ts s) l q -> (length (puts l) <= 1)%nat.
Proof.
  intros Hts Ht. eapply (single_writer_once (pub_cell p)); [|exact Ht].
  eapply Forall_impl; [exact Hts|]. apply dispatches_single_write.
Qed.

End Dispatches.

(** C17. Threads of one process call the methods of adapters that share the latch
    registry (every method of the adapter that reads, drafts, signs, publishes, prepares,
    dispatches or confirms, and a session's registrations and clearings of latches) and
    interleave arbitrarily, from any shared state; the transport, the clock and the consent
    handlers answer in any way.  No write races with an unresolved rotation: whenever a thread
    is about to write an owner's envelope, it holds that owner's lock, alone, and the owner
    has no latched rotation, or the envelope is the latched rotation's own.  And a prepared
    publication is written at most once: let any number of threads dispatch it, under
    any permits and from any shared state, the whole process makes at most one registry
    write. *)
Theorem concurrent_writes `{Cbor} `{Ed25519} ts s :
  (Forall adapter_thread ts -> forall p i o e h x c, rtc process_step (Process ts s) p ->
    pr_threads p !! i = Some (Do (PutEnvelope o e h x) c) ->
    exists owner, o = hex owner /\ holds (pr_shared p) i owner /\
      (sh_latches (pr_shared p) !! owner = None \/
       exists b r, sh_latches (pr_shared p) !! owner = Some (b, r) /\ sha256 e = rb_envelope_hash b) /\
      (forall j, holds (pr_shared p) j owner -> j = i)) /\
  (forall env token pub l q, Forall (dispatches env token pub) ts -> process_trace (Process ts s) l q ->
    (length (puts l) <= 1)%nat).
Proof.
  split.
  - intros Hts p i o e h x c. apply writes_never_race. eapply Forall_impl; [exact Hts|]. apply adapter_thread_disciplined.
  - intros env token pub l q. apply publication_written_once.
Qed.
