(* ===== verification/Signer.v ===== *)
(** The one-operation signer: its own validator of update bytes and the capability
    that signs once and erases its key (signer.py). *)

From S2P Require Import Prelude PyVal Sha256 Interfaces SignedUpdate.

Open Scope Z_scope.

Module Signer.

(** * Validation of signing input *)

Definition _require_exact_int_keys (value : pyval) (expected : list Z) : res pydict :=
  match value with
  | PDict d =>
      raise_if negb (all_int_keys d) || negb (key_set_is d expected) with InvalidSigningInput;
      Ok d
  | _ => Err InvalidSigningInput
  end.

Definition _require_uint (value : pyval) : res Z :=
  match value with
  | PInt z => raise_if z <? 0 with InvalidSigningInput; Ok z
  | _ => Err InvalidSigningInput
  end.

Definition require_key (value : pyval) : res bytes :=
  match value with
  | PBytes b => raise_if negb (length b =? _KEY_LENGTH)%nat with InvalidSigningInput; Ok b
  | _ => Err InvalidSigningInput
  end.

(** The loop over the signer entries: identifiers strictly ascending by their UTF-8
    bytes, keys distinct; returns the keys. *)
Fixpoint check_entries (previous_id : option bytes) (seen_ids : list pystr) (seen_keys : list bytes)
    (entries : list pyval) : res (list bytes) :=
  match entries with
  | [] => Ok []
  | entry :: rest =>
      let* d := _require_exact_int_keys entry _SIGNER_ENTRY_KEYS in
      let* signer_id := dict_item 1 d in
      let* public_key := dict_item 2 d in
      match signer_id with
      | PStr s =>
          raise_if bool_decide (s = []) with InvalidSigningInput;
          let* id_bytes := of_option UnicodeEncodeError (utf8_encode s) in
          raise_if (256 <? length id_bytes)%nat with InvalidSigningInput;
          raise_if match previous_id with Some p => bytes_leb id_bytes p | None => false end with InvalidSigningInput;
          let* key := require_key public_key in
          raise_if bool_decide (s ∈ seen_ids) || bool_decide (key ∈ seen_keys) with InvalidSigningInput;
          let* keys := check_entries (Some id_bytes) (s :: seen_ids) (key :: seen_keys) rest in
          Ok (key :: keys)
      | _ => Err InvalidSigningInput
      end
  end.

Definition _validate_authorization (value : pyval) (signer_public_key : bytes) : res unit :=
  let* auth := _require_exact_int_keys value _AUTHORIZATION_KEYS in
  let* v1 := dict_item 1 auth in
  let* n1 := _require_uint v1 in
  raise_if negb (n1 =? 1) with InvalidSigningInput;
  let* v2 := dict_item 2 auth in
  let* n2 := _require_uint v2 in
  raise_if negb (n2 =? 1) with InvalidSigningInput;
  let* v3 := dict_item 3 auth in
  let* operation := _require_uint v3 in
  raise_if negb (bool_decide (operation ∈ _OPERATION_VALUES)) with InvalidSigningInput;
  let* v4 := dict_item 4 auth in
  let* _ := _require_uint v4 in
  let* v5 := dict_item 5 auth in
  let* threshold := _require_uint v5 in
  let* v6 := dict_item 6 auth in
  match v6 with
  | PList entries =>
      raise_if (length entries =? 0)%nat with InvalidSigningInput;
      let* keys := check_entries None [] [] entries in
      raise_if (threshold <? 1) || (Z.of_nat (length entries) <? threshold) with InvalidSigningInput;
      let* v7 := dict_item 7 auth in
      let* _ := require_key v7 in
      raise_if negb (bool_decide (signer_public_key ∈ keys)) && negb (bool_decide (operation ∈ [3; 5]))
        with InvalidSigningInput;
      Ok tt
  | _ => Err InvalidSigningInput
  end.

Section Validate.
Context `{Cbor}.

Definition _validate_identity_update (data : pyval) (signer_public_key : bytes) : res unit :=
  match data with
  | PBytes b =>
      raise_if bool_decide (b = []) with InvalidSigningInput;
      let* decoded :=
        match cbor_loads b with
        | Err _ => Err InvalidSigningInput
        | Ok v =>
            match cbor_dumps v with
            | Err _ => Err InvalidSigningInput
            | Ok b' => raise_if negb (bool_decide (b' = b)) with InvalidSigningInput; Ok v
            end
        end in
      match decoded with
      | PDict d =>
          raise_if negb (all_int_keys d) || negb (key_set_is d [1; 2; 3] || key_set_is d [1; 2; 3; 4])
            with InvalidSigningInput;
          let* record := _require_exact_int_keys (default PNone (dict_get 1 d)) [1; 2] in
          let* _ :=
            match dict_get 1 record with
            | Some (PBytes n) => raise_if bool_decide (n = []) with InvalidSigningInput; Ok n
            | _ => Err InvalidSigningInput
            end in
          let* key := require_key (default PNone (dict_get 2 record)) in
          raise_if negb (py_eq (default PNone (dict_get 2 d)) (PDict [])) with InvalidSigningInput;
          let* sequence := _require_uint (default PNone (dict_get 3 d)) in
          raise_if sequence <? 0 with InvalidSigningInput;
          match dict_get 4 d with
          | Some auth => _validate_authorization auth signer_public_key
          | None => raise_if negb (bool_decide (key = signer_public_key)) with InvalidSigningInput; Ok tt
          end
      | _ => Err InvalidSigningInput
      end
  | _ => Err InvalidSigningInput
  end.
End Validate.

(** * Key generation *)

(** [_generate_seed()]: [approved] tells whether [secrets.token_bytes] is the approved
    generator, [drawn] what it returned. *)
Definition _generate_seed (approved : bool) (drawn : res pyval) : res bytes :=
  raise_if negb approved with KeyGenerationError;
  match drawn with
  | Ok (PBytes b) => raise_if negb (length b =? _KEY_LENGTH)%nat with KeyGenerationError; Ok b
  | _ => Err KeyGenerationError
  end.

Definition _public_key_from_seed `{Ed25519} (seed : bytes) : res bytes := of_option KeyGenerationError (ed_public seed).

(** * The capability *)

(** A capability with the entry of [_PRIVATE_KEYS] its handle names; instants of the
    monotonic clock are integers of one unit.  [cap_callbacks] counts the calls of
    [on_invalidate]. *)
Record capability := Capability {
  cap_handle : option Z;
  cap_public_key : bytes;
  cap_expires_at : Z;
  cap_active : bool;
  cap_on_invalidate : bool;
  cap_timer : bool;
  cap_private_keys : gmap Z bytes;
  cap_callbacks : nat;
}.

Definition _invalidate_unlocked (c : capability) : capability :=
  if negb (cap_active c) && bool_decide (cap_handle c = None) then c
  else
    Capability None (cap_public_key c) 0 false false false
      (match cap_handle c with Some h => delete h (cap_private_keys c) | None => cap_private_keys c end)
      (cap_callbacks c + (if cap_on_invalidate c then 1 else 0)).

Definition invalidate (c : capability) : capability := _invalidate_unlocked c.

Definition is_active (now : Z) (c : capability) : bool * capability :=
  let c' := if cap_active c && (cap_expires_at c <=? now) then _invalidate_unlocked c else c in
  (cap_active c', c').

Definition _assert_active (now : Z) (c : capability) : res unit * capability :=
  if negb (cap_active c) then (Err SignerUnavailable, c)
  else if cap_expires_at c <=? now then (Err SignerUnavailable, invalidate c)
  else match cap_handle c with
  | Some h => if bool_decide (is_Some (cap_private_keys c !! h)) then (Ok tt, c) else (Err SignerUnavailable, c)
  | None => (Err SignerUnavailable, c)
  end.

(** The [except] clauses of [sign_identity_update]. *)
Definition signing_error (e : exn) : exn :=
  match e with
  | InvalidSigningInput | SignerError | KeyGenerationError | SignerUnavailable => e
  | _ => SignerError
  end.

Section Capability.
Context `{Cbor} `{Ed25519}.

(** [SignerCapability.__init__] for a fresh handle. *)
Definition create_capability (handle : Z) (seed public_key : bytes) (now timeout : Z) (callback : bool)
    (private_keys : gmap Z bytes) : capability :=
  Capability (Some handle) public_key (now + timeout) true callback true (<[handle := seed]> private_keys) 0.

(** [_create_capability_from_seed]; [unit] clock units make one second. *)
Definition _create_capability_from_seed (unit : Z) (seed : pyval) (timeout : Z) (handle now : Z)
    (callback : bool) (private_keys : gmap Z bytes) : res capability :=
  match seed with
  | PBytes s =>
      raise_if negb (length s =? _KEY_LENGTH)%nat with SignerUnavailable;
      raise_if negb ((0 <? timeout) && (timeout <=? 900 * unit)) with SignerUnavailable;
      match ed_public s with
      | Some pk => Ok (create_capability handle s pk now timeout callback private_keys)
      | None => Err SignerUnavailable
      end
  | _ => Err SignerUnavailable
  end.

Definition sign_body (update : bytes) (c : capability) : res bytes :=
  let* _ := _validate_identity_update (PBytes update) (cap_public_key c) in
  let digest := sha256 update in
  let* seed := of_option SignerUnavailable
    match cap_handle c with Some h => cap_private_keys c !! h | None => None end in
  let signature := ed_sign seed digest in
  raise_if negb (length signature =? _SIGNATURE_LENGTH)%nat with SignerError;
  Ok signature.

Definition sign_identity_update (now : Z) (update : bytes) (c : capability) : res bytes * capability :=
  let '(ok, c1) := _assert_active now c in
  match ok with
  | Err e => (Err e, c1)
  | Ok _ =>
      (match sign_body update c1 with Ok s => Ok s | Err e => Err (signing_error e) end, _invalidate_unlocked c1)
  end.
End Capability.
End Signer.
