(* ===== verification/SignerFacts.v ===== *)
(** The signer accepts exactly the updates the rest of the wallet decodes, for the
    keys entitled to sign them, and a capability signs at most once. *)

From S2P Require Import Prelude PyVal Sha256 Interfaces SignedUpdate Envelope Draft DraftFacts Signer.

Open Scope Z_scope.

(** * The two validators agree *)

(** What an acceptable signer entry looks like. *)
Definition entry_shape (v : pyval) (s : pystr) (b k : bytes) : Prop :=
  exists d, v = PDict d /\ all_int_keys d = true /\ key_set_is d _SIGNER_ENTRY_KEYS = true /\
    dict_get 1 d = Some (PStr s) /\ dict_get 2 d = Some (PBytes k) /\ length k = _KEY_LENGTH /\
    s <> [] /\ utf8_encode s = Some b /\ (length b <= 256)%nat.

Lemma dict_item_ok k d v : dict_item k d = Ok v <-> dict_get k d = Some v.
Proof. unfold dict_item. destruct (dict_get k d); simpl; split; congruence. Qed.

Lemma require_key_ok v b : Signer.require_key v = Ok b <-> v = PBytes b /\ length b = _KEY_LENGTH.
Proof.
  destruct v as [| | |x| | | | |]; try (split; [discriminate|by intros [[=] _]]). cbn [Signer.require_key].
  destruct (Nat.eqb_spec (length x) _KEY_LENGTH); cbn [negb]; split; naive_solver.
Qed.

Lemma exact_int_keys_ok v ks d :
  Signer._require_exact_int_keys v ks = Ok d <-> v = PDict d /\ all_int_keys d = true /\ key_set_is d ks = true.
Proof.
  destruct v as [| | | | | | |x|]; try (split; [discriminate|by intros [[=] _]]). cbn [Signer._require_exact_int_keys].
  destruct (all_int_keys x) eqn:E1, (key_set_is x ks) eqn:E2; cbn [negb orb]; split; intros Hd;
    first [injection Hd as <-; done | discriminate | destruct Hd as ([= <-] & ? & ?); congruence].
Qed.

Lemma signer_entry_shape v s k : validate_signer_entry v = Ok (s, k) <-> exists b, entry_shape v s b k.
Proof.
  unfold validate_signer_entry, entry_shape. split.
  - intros Hv. apply res_bind_ok in Hv as (d & (-> & Hi & Hk)%require_exact_keys_ok & Hv).
    apply res_bind_ok in Hv as (v1 & H1%dict_item_ok & Hv). apply res_bind_ok in Hv as (v2 & H2%dict_item_ok & Hv).
    apply res_bind_ok in Hv as (k' & [-> Hl]%require_bytes_ok & Hv). destruct v1 as [| | | |s'| | | |]; try done.
    case_bool_decide; [done|]. destruct (utf8_encode s') as [b|] eqn:Eb; [|done].
    destruct (Nat.ltb_spec 256 (length b)); [done|]. injection Hv as <- <-. eauto 12.
  - intros (b & d & -> & Hi & Hk & H1 & H2 & Hl & Hs & Hb & Hlb).
    rewrite (proj2 (require_exact_keys_ok _ _ d)) by done. cbn [res_bind]. unfold dict_item. rewrite H1, H2.
    cbn [of_option res_bind]. rewrite (proj2 (require_bytes_ok _ _ _) (conj eq_refl Hl)). cbn [res_bind].
    rewrite bool_decide_eq_false_2, Hb by done. destruct (Nat.ltb_spec 256 (length b)); [lia|done].
Qed.

Lemma check_entries_cons prev ids keys v vs ks :
  Signer.check_entries prev ids keys (v :: vs) = Ok ks <->
  exists s k b ks', entry_shape v s b k /\
    match prev with Some p => bytes_leb b p = false | None => True end /\
    s ∉ ids /\ k ∉ keys /\ Signer.check_entries (Some b) (s :: ids) (k :: keys) vs = Ok ks' /\ ks = k :: ks'.
Proof.
  cbn [Signer.check_entries]. unfold entry_shape. split.
  - intros Hv. apply res_bind_ok in Hv as (d & (-> & Hi & Hk)%exact_int_keys_ok & Hv).
    apply res_bind_ok in Hv as (v1 & H1%dict_item_ok & Hv). apply res_bind_ok in Hv as (v2 & H2%dict_item_ok & Hv).
    destruct v1 as [| | | |s| | | |]; try done. case_bool_decide; [done|].
    apply res_bind_ok in Hv as (b & Hb & Hv). destruct (utf8_encode s) as [b'|] eqn:Eb; [|done]. injection Hb as ->.
    destruct (Nat.ltb_spec 256 (length b)); [done|].
    destruct (match prev with Some p => bytes_leb b p | None => false end) eqn:Ep; [done|].
    apply res_bind_ok in Hv as (k & [-> Hl]%require_key_ok & Hv). case_match eqn:G; [done|]. bool_hyps.
    apply res_bind_ok in Hv as (ks' & Hks & [= <-]). exists s, k, b, ks'. split; [by eauto 12|].
    split_and!; try done. by destruct prev.
  - intros (s & k & b & ks' & (d & -> & Hi & Hk & H1 & H2 & Hl & Hs & Hb & Hlb) & Hp & Hs' & Hk' & Hks & ->).
    rewrite (proj2 (exact_int_keys_ok _ _ d)) by done. cbn [res_bind]. unfold dict_item. rewrite H1, H2.
    cbn [of_option res_bind]. rewrite bool_decide_eq_false_2, Hb by done. cbn [of_option res_bind].
    destruct (Nat.ltb_spec 256 (length b)); [lia|].
    replace (match prev with Some p => bytes_leb b p | None => false end) with false by (by destruct prev).
    rewrite (proj2 (require_key_ok _ _) (conj eq_refl Hl)). cbn [res_bind].
    rewrite !bool_decide_eq_false_2 by done. cbn [orb]. by rewrite Hks.
Qed.

(** Identifiers strictly ascending, after [prev] if there is one. *)
Fixpoint ascending (prev : option bytes) (l : list (pystr * bytes)) : Prop :=
  match l with
  | [] => True
  | e :: l' => exists b, utf8_encode e.1 = Some b /\
      match prev with Some p => bytes_leb b p = false | None => True end /\ ascending (Some b) l'
  end.

Lemma check_entries_ok prev ids keys vs ks :
  Signer.check_entries prev ids keys vs = Ok ks <->
  exists l, validate_signer_set ids keys vs = Ok l /\ ascending prev l /\ ks = l.*2.
Proof.
  revert prev ids keys ks. induction vs as [|v vs IH]; intros prev ids keys ks.
  - cbn. split; [intros [= <-]; by exists []|by intros (l & [= <-] & _ & ->)].
  - rewrite check_entries_cons. cbn [validate_signer_set]. split.
    + intros (s & k & b & ks' & Hv & Hp & Hs & Hk & Hks & ->). apply IH in Hks as (l & Hl & Ha & ->).
      exists ((s, k) :: l). rewrite (proj2 (signer_entry_shape v s k)) by eauto. cbn [res_bind fst snd].
      rewrite !bool_decide_eq_false_2 by done. cbn [orb]. rewrite Hl. split; [done|]. split; [|done].
      destruct Hv as (d & _ & _ & _ & _ & _ & _ & _ & Hb & _). by exists b.
    + intros (l & Hl & Ha & ->). apply res_bind_ok in Hl as ([s k] & Hv & Hl). cbn [fst snd] in Hl.
      destruct (bool_decide (s ∈ ids) || bool_decide (k ∈ keys)) eqn:G; [done|]. bool_hyps.
      apply res_bind_ok in Hl as (l' & Hl' & [= <-]). destruct Ha as (b & Hb & Hp & Ha). cbn [fst] in Hb.
      apply signer_entry_shape in Hv as (b' & Hv). assert (b' = b) as ->.
      { destruct Hv as (d & _ & _ & _ & _ & _ & _ & _ & Hb' & _). congruence. }
      exists s, k, b, (l'.*2). split_and!; try done. apply IH. eauto.
Qed.

Lemma id_key_bytes s b : utf8_encode s = Some b -> id_key s = byteZ <$> b.
Proof. unfold id_key. by intros ->. Qed.

Lemma ascending_sorted prev l :
  ascending prev l ->
  StronglySorted (key_le (fun e => id_key e.1)) l /\
  forall p, prev = Some p -> Forall (fun e => lex_leb (byteZ <$> p) (id_key e.1) = true) l.
Proof.
  revert prev. induction l as [|e l IH]; intros prev; [split; constructor|].
  intros (b & Hb & Hp & Ha). apply IH in Ha as [Hs Hf]. specialize (Hf b eq_refl).
  assert (forall e', lex_leb (byteZ <$> b) (id_key e'.1) = true -> key_le (fun e => id_key e.1) e e') as Hle.
  { intros e' He'. unfold key_le. by rewrite (id_key_bytes _ _ Hb). }
  split.
  - constructor; [done|]. eapply Forall_impl; [exact Hf|]. auto.
  - intros p ->. assert (lex_leb (byteZ <$> p) (byteZ <$> b) = true) as Hpb.
    { destruct (bytes_leb_total p b) as [E|E]; [done|]. unfold bytes_leb in *. congruence. }
    constructor; [by rewrite (id_key_bytes _ _ Hb)|]. eapply Forall_impl; [exact Hf|]. intros e'. by apply lex_leb_trans.
Qed.

Lemma sorted_ascending prev l :
  Forall entry_wf l -> NoDup l.*1 -> StronglySorted (key_le (fun e => id_key e.1)) l ->
  (forall p, prev = Some p -> Forall (fun e => lex_leb (id_key e.1) (byteZ <$> p) = false) l) -> ascending prev l.
Proof.
  intros Hw. revert prev. induction Hw as [|e l [_ (b & Hb & _) _] Hw IH]; intros prev Hn Hs Hp; [done|].
  rewrite fmap_cons in Hn. apply NoDup_cons in Hn as [Hni Hn]. inversion Hs as [|? ? Hs' He]; subst.
  exists b. split; [done|]. split.
  - destruct prev as [p|]; [|done]. specialize (Hp p eq_refl). apply Forall_cons in Hp as [Hp _].
    by rewrite (id_key_bytes _ _ Hb) in Hp.
  - apply IH; [done|done|]. intros ? [= <-]. apply Forall_forall. intros e' He'.
    rewrite Forall_forall in He, Hw. specialize (He e' He'). destruct (Hw e' He') as [_ (b' & Hb' & _) _].
    unfold key_le in He. rewrite (id_key_bytes _ _ Hb), (id_key_bytes _ _ Hb') in *.
    destruct (lex_leb (byteZ <$> b') (byteZ <$> b)) eqn:E; [|done]. exfalso. apply Hni.
    assert (b = b') as <- by (by apply byteZ_map_inj, lex_leb_antisym).
    rewrite (utf8_encode_inj _ _ _ Hb Hb'). by apply list_elem_of_fmap_2.
Qed.

Lemma signer_uint_ok v z : Signer._require_uint v = Ok z <-> v = PInt z /\ 0 <= z.
Proof.
  destruct v; simpl; try (split; [discriminate|by intros [[=] _]]).
  destruct (Z.ltb_spec z0 0); split; try naive_solver lia.
Qed.

Lemma validate_set_length ids keys vs l : validate_signer_set ids keys vs = Ok l -> length vs = length l.
Proof.
  revert ids keys l. induction vs as [|v vs IH]; intros ids keys l; cbn [validate_signer_set]; [by intros [= <-]|].
  intros Hv. apply res_bind_ok in Hv as (e & _ & Hv). case_match; [done|].
  apply res_bind_ok in Hv as (l' & Hl%IH & [= <-]). simpl. lia.
Qed.

(** The keys an authorization lets sign: members of its set, or, for replacement and
    rotation, any key (those proofs are judged against the predecessor's set). *)
Definition entitled (a : authorization) (key : bytes) : Prop :=
  key ∈ (auth_signers a).*2 \/ auth_operation a ∈ [3; 5].

(** Reads the next integer field on both sides: [Hv] is the accepting run, [ok] and
    [mine] the two validators' specifications. *)
Ltac copy_uint Hv n ok mine :=
  let v := fresh "v" in let H := fresh "Hn" in let E := fresh in
  apply res_bind_ok in Hv as (v & E & Hv); rewrite E; clear E;
  apply res_bind_ok in Hv as (n & E & Hv); apply ok in E as [-> H];
  cbn [res_bind]; rewrite (proj2 (mine _ n)) by done; cbn [res_bind].

Ltac copy_header Hv op th ok mine :=
  let n1 := fresh "n" in copy_uint Hv n1 ok mine; destruct (negb (n1 =? 1)); [done|];
  let n2 := fresh "n" in copy_uint Hv n2 ok mine; destruct (negb (n2 =? 1)); [done|];
  copy_uint Hv op ok mine; destruct (negb (bool_decide (op ∈ _OPERATION_VALUES))); [done|];
  let ep := fresh "ep" in copy_uint Hv ep ok mine; copy_uint Hv th ok mine.

Lemma authorization_agrees v key :
  Signer._validate_authorization v key = Ok tt <->
  exists a, _validate_authorization v = Ok a /\ entitled a key.
Proof.
  unfold Signer._validate_authorization, _validate_authorization, entitled. split.
  - intros Hv. apply res_bind_ok in Hv as (d & (-> & Hi & Hk)%exact_int_keys_ok & Hv).
    rewrite (proj2 (require_exact_keys_ok _ _ d)) by done. cbn [res_bind].
    copy_header Hv op th signer_uint_ok require_uint_ok.
    apply res_bind_ok in Hv as (v6 & -> & Hv). cbn [res_bind]. destruct v6 as [| | | | |es| | |]; try done.
    destruct (length es =? 0)%nat; [done|]. apply res_bind_ok in Hv as (ks & (l & Hl & Ha & ->)%check_entries_ok & Hv).
    rewrite Hl. cbn [res_bind]. pose proof (ascending_sorted _ _ Ha) as [Hs _]. rewrite sort_by_id by done.
    rewrite (bool_decide_eq_true_2 (l = l)) by done.
    case_match eqn:G; [done|]. apply res_bind_ok in Hv as (v7 & -> & Hv).
    apply res_bind_ok in Hv as (pr & [-> Hpr]%require_key_ok & Hv). case_match eqn:G7; [done|]. clear Hv.
    apply validate_set_length in Hl as Hlen. bool_hyps.
    replace (negb ((1 <=? th) && (th <=? Z.of_nat (length l)))) with false by (symmetry; apply negb_false_iff, andb_true_intro; split; apply Z.leb_le; lia).
    cbn [negb orb res_bind]. rewrite (proj2 (require_bytes_ok _ _ _) (conj eq_refl Hpr)). cbn [res_bind].
    eexists. split; [reflexivity|]. cbn. apply andb_false_iff in G7 as [G7|G7]; bool_hyps; auto.
  - intros (a & Hv & He). apply res_bind_ok in Hv as (d & (-> & Hi & Hk)%require_exact_keys_ok & Hv).
    rewrite (proj2 (exact_int_keys_ok _ _ d)) by done. cbn [res_bind].
    copy_header Hv op th require_uint_ok signer_uint_ok.
    apply res_bind_ok in Hv as (v6 & -> & Hv). cbn [res_bind]. destruct v6 as [| | | | |es| | |]; try done.
    destruct (length es =? 0)%nat; [done|]. apply res_bind_ok in Hv as (l & Hl & Hv).
    case_match eqn:G; [done|]. apply res_bind_ok in Hv as (v7 & -> & Hv).
    apply res_bind_ok in Hv as (pr & [-> Hpr]%require_bytes_ok & [= <-]). cbn in He.
    apply validate_set_length in Hl as Hlen. bool_hyps.
    destruct (validate_signer_set_ok _ _ _ _ Hl) as (Hw & Hn' & _).
    rewrite (proj2 (check_entries_ok None [] [] es (l.*2))).
    2:{ exists l. split_and!; [done| |done]. apply sorted_ascending; [done|done| |done]. by apply sort_by_fixed. }
    cbn [res_bind]. replace ((th <? 1) || (Z.of_nat (length es) <? th)) with false by (symmetry; apply orb_false_iff; split; apply Z.ltb_ge; lia).
    rewrite (proj2 (require_key_ok _ _) (conj eq_refl Hpr)). cbn [res_bind].
    destruct He as [He|He]; rewrite (bool_decide_eq_true_2 _ He); [done|]. by rewrite andb_false_r.
Qed.

Section Agreement.
Context `{Cbor}.

Lemma canonical_ok u v :
  _require_canonical (PBytes u) = Ok v <-> u <> [] /\ cbor_loads u = Ok v /\ cbor_dumps v = Ok u.
Proof.
  cbn [_require_canonical]. unfold _canonical. case_bool_decide as Hu; [by split; [|intros []]|].
  destruct (cbor_loads u) as [w|]; [|by split; [|intros (_ & ? & _)]].
  destruct (cbor_dumps w) as [b|] eqn:Eb; [|split; [done|intros (_ & [= <-] & ?); congruence]].
  case_bool_decide; cbn [negb]; split; [|intros (_ & [= <-] & _); done|done|intros (_ & [= <-] & ?); congruence].
  intros [= <-]. by subst.
Qed.

Lemma py_eq_empty v : py_eq v (PDict []) = true <-> v = PDict [].
Proof. destruct v as [| | | | | | |[|x d]|i [n|]]; cbn; try (split; intros; congruence). Qed.

(** The dictionary behind an update with record name [n] and key [k]. *)
Definition update_shape (d : pydict) (n k : bytes) (s : Z) (v4 : option pyval) : Prop :=
  all_int_keys d = true /\ key_set_is d [1; 2; 3] || key_set_is d [1; 2; 3; 4] = true /\
  (exists r, dict_get 1 d = Some (PDict r) /\ all_int_keys r = true /\ key_set_is r [1; 2] = true /\
     dict_get 1 r = Some (PBytes n) /\ dict_get 2 r = Some (PBytes k)) /\
  dict_get 2 d = Some (PDict []) /\ dict_get 3 d = Some (PInt s) /\ 0 <= s /\ dict_get 4 d = v4.

Lemma decoded_shape u n k s oa :
  _decode_signed_update (PBytes u) = Ok (SignedUpdate (PBytes n) (PBytes k) [] s oa) <->
  exists d v4, _require_canonical (PBytes u) = Ok (PDict d) /\ update_shape d n k s v4 /\
    match v4 with Some v => exists a, _validate_authorization v = Ok a /\ oa = Some a | None => oa = None end.
Proof.
  unfold _decode_signed_update, update_shape. split.
  - intros Hv. apply res_bind_ok in Hv as (v & -> & Hv). destruct v as [| | | | | | |d|]; try done.
    case_match eqn:G1; [done|]. case_match eqn:G2; [done|]. bool_hyps.
    apply res_bind_ok in Hv as (v1 & H1%dict_item_ok & Hv).
    apply res_bind_ok in Hv as (r & (-> & Hr & Hr')%require_exact_keys_ok & Hv).
    apply res_bind_ok in Hv as (v2 & H2%dict_item_ok & Hv).
    apply res_bind_ok in Hv as (p & (-> & _ & ->%key_set_is_nil)%require_exact_keys_ok & Hv).
    apply res_bind_ok in Hv as (v3 & H3%dict_item_ok & Hv). apply res_bind_ok in Hv as (s' & [-> Hs]%require_uint_ok & Hv).
    apply res_bind_ok in Hv as (oa' & Ha & Hv). apply res_bind_ok in Hv as (n' & Hn%dict_item_ok & Hv).
    apply res_bind_ok in Hv as (k' & Hk%dict_item_ok & [= -> -> -> ->]).
    exists d, (dict_get 4 d). split; [done|]. split; [by eauto 20|]. destruct (dict_get 4 d); [|congruence].
    apply res_bind_ok in Ha as (a & Ha & [= <-]). eauto.
  - intros (d & v4 & -> & (Hd & Hk & (r & H1 & Hr & Hr' & Hn & Hk') & H2 & H3 & Hs & H4) & Ha).
    cbn [res_bind]. rewrite Hd, Hk. cbn [negb]. unfold dict_item. rewrite H1, H2, H3, H4. cbn [of_option res_bind].
    rewrite (proj2 (require_exact_keys_ok _ [1; 2] r)) by done. cbn [res_bind].
    rewrite (proj2 (require_exact_keys_ok _ [] [])) by done. cbn [res_bind].
    rewrite (proj2 (require_uint_ok _ s)) by done. cbn [res_bind]. rewrite Hn, Hk'.
    destruct v4 as [v|]; [destruct Ha as (a & -> & ->)|subst]; done.
Qed.

Lemma signer_shape u key :
  Signer._validate_identity_update (PBytes u) key = Ok tt <->
  exists d n k s v4, _require_canonical (PBytes u) = Ok (PDict d) /\ update_shape d n k s v4 /\
    n <> [] /\ length k = _KEY_LENGTH /\
    match v4 with Some v => Signer._validate_authorization v key = Ok tt | None => k = key end.
Proof.
  unfold Signer._validate_identity_update, update_shape. split.
  - intros Hv. case_bool_decide as Hu; [done|]. apply res_bind_ok in Hv as (v & Hc & Hv).
    assert (_require_canonical (PBytes u) = Ok v) as ->.
    { apply canonical_ok. destruct (cbor_loads u) as [w|]; [|done]. destruct (cbor_dumps w) eqn:E; [|done].
      case_bool_decide; cbn [negb] in Hc; [|done]. injection Hc as <-. by subst. }
    destruct v as [| | | | | | |d|]; try done. case_match eqn:G; [done|]. bool_hyps.
    apply res_bind_ok in Hv as (r & (Hr1 & Hr & Hr')%exact_int_keys_ok & Hv).
    destruct (dict_get 1 d) as [v1|] eqn:E1; simpl in Hr1; [subst v1|done].
    apply res_bind_ok in Hv as (n' & Hn & Hv). destruct (dict_get 1 r) as [[| | |n| | | | |]|] eqn:Hn1; try done.
    case_bool_decide; [done|]. apply res_bind_ok in Hv as (k & [Hk Hl]%require_key_ok & Hv).
    destruct (dict_get 2 r) as [v2|] eqn:Hk2; simpl in Hk; [subst v2|done].
    case_match eqn:Hp; [done|]. bool_hyps. apply py_eq_empty in Hp.
    destruct (dict_get 2 d) as [v2|] eqn:E2; simpl in Hp; [subst v2|done].
    apply res_bind_ok in Hv as (s & [Hs1 Hs]%signer_uint_ok & Hv).
    destruct (dict_get 3 d) as [v3|] eqn:E3; simpl in Hs1; [subst v3|done].
    case_match; [done|]. exists d, n, k, s, (dict_get 4 d). split; [done|]. split; [by eauto 20|]. split_and!; try done.
    destruct (dict_get 4 d); [done|]. case_match eqn:G4; [done|]. by bool_hyps.
  - intros (d & n & k & s & v4 & Hc & (Hd & Hk & (r & H1 & Hr & Hr' & Hn & Hk') & H2 & H3 & Hs & H4) & Hn0 & Hl & Ha).
    apply canonical_ok in Hc as (Hu & -> & ->). rewrite bool_decide_eq_false_2 by done.
    rewrite (bool_decide_eq_true_2 (u = u)) by done. cbn [negb res_bind]. rewrite Hd, Hk, H1, H2, H3, H4. cbn [negb orb default from_option id].
    rewrite (proj2 (exact_int_keys_ok _ [1; 2] r)) by done. cbn [res_bind]. rewrite Hn, Hk'.
    rewrite bool_decide_eq_false_2 by done. cbn [res_bind default from_option id]. rewrite (proj2 (require_key_ok _ k)) by done.
    cbn [res_bind]. rewrite (proj2 (py_eq_empty _)) by done. cbn [negb].
    rewrite (proj2 (signer_uint_ok _ s)) by done. cbn [res_bind]. destruct (Z.ltb_spec s 0); [lia|].
    destruct v4; [done|]. by rewrite bool_decide_eq_true_2.
Qed.

Lemma signer_accepts u key :
  Signer._validate_identity_update (PBytes u) key = Ok tt <->
  exists n k s oa,
    _decode_signed_update (PBytes u) = Ok (SignedUpdate (PBytes n) (PBytes k) [] s oa) /\
    n <> [] /\ length k = _KEY_LENGTH /\
    match oa with None => k = key | Some a => entitled a key end.
Proof.
  rewrite signer_shape. split.
  - intros (d & n & k & s & v4 & Hc & Hd & Hn & Hl & Ha). destruct v4 as [v|].
    + apply authorization_agrees in Ha as (a & Ha & He). exists n, k, s, (Some a). split_and!; try done.
      apply decoded_shape. exists d, (Some v). eauto.
    + exists n, k, s, None. split_and!; try done. apply decoded_shape. by exists d, None.
  - intros (n & k & s & oa & (d & v4 & Hc & Hd & Ha)%decoded_shape & Hn & Hl & He).
    exists d, n, k, s, v4. split_and!; try done. destruct v4 as [v|]; [|by subst].
    destruct Ha as (a & Ha & ->). apply authorization_agrees. eauto.
Qed.

(** C18. The signer's validator, written independently of the adapter's decoder, accepts
    bytes for a key exactly when the decoder accepts them as a SignedUpdate, the owner name
    is nonempty and the owner key has 32 bytes (which the decoder alone does not ask), and
    the key is the owner key of a legacy update, a member of the authorization's signer
    set, or the operation is signer replacement or owner-key rotation.  The adapter asks
    those two conditions when it constructs a draft: for the update of any [IdentityDraft]
    the signer accepts a key exactly when the key is so entitled. *)
Theorem signer_validation_agrees `{Ed25519} key :
  (forall u, Signer._validate_identity_update (PBytes u) key = Ok tt <->
    exists n k s oa,
      _decode_signed_update (PBytes u) = Ok (SignedUpdate (PBytes n) (PBytes k) [] s oa) /\
      n <> [] /\ length k = _KEY_LENGTH /\
      match oa with None => k = key | Some a => entitled a key end) /\
  (forall update env hist d, IdentityDraft update env hist = Ok d ->
    exists f, draft_view d = Ok f /\
      (Signer._validate_identity_update (PBytes (draft_signed_update_bytes d)) key = Ok tt <->
       match df_authorization f with None => df_owner_public_key f = key | Some a => entitled a key end)).
Proof.
  split; [intros u; apply signer_accepts|].
  intros update env hist d Hd. apply draft_construct_inv in Hd as (f & prev & _ & _ & _ & Hv & _ & Hn & Hk & _).
  exists f. split; [done|]. unfold draft_view in Hv. apply res_bind_ok in Hv as (su & Hsu & Hv). rewrite signer_accepts.
  pose proof (decode_signed_update_wf _ _ Hsu) as [Hp _ _]. destruct su as [rn rk pl s oa]. simpl in *. subst pl.
  destruct rn as [| | |n| | | | |]; try done. destruct rk as [| | |k| | | | |]; try done. injection Hv as <-. simpl in *. split.
  - intros (n' & k' & s' & oa' & Hsu' & _ & _ & He). rewrite Hsu in Hsu'. by injection Hsu' as -> -> -> ->.
  - intros He. by exists n, k, s, oa.
Qed.
End Agreement.

(** * Errors of the validator *)

(** What the validator can raise; everything but the first is turned into a
    [SignerError] by the capability. *)
Definition signer_rejects (e : exn) : Prop := e = InvalidSigningInput \/ e = UnicodeEncodeError \/ e = KeyError.

#[local] Hint Extern 1 (signer_rejects _) => first [exact (or_introl eq_refl)|exact (or_intror (or_introl eq_refl))|exact (or_intror (or_intror eq_refl))] : core.

Ltac rejects_step :=
  match goal with
  | |- errs _ (res_bind _ _) => apply errs_bind; [|intros ? ?]
  | |- errs _ (if _ then _ else _) => apply errs_if; intros ?
  | |- errs _ (Ok _) => exact I
  | |- errs signer_rejects (Err _) => simpl; auto
  | |- errs signer_rejects (dict_item ?k ?d) => unfold dict_item; destruct (dict_get k d); simpl; auto
  | |- errs signer_rejects (of_option _ ?o) => destruct o; simpl; auto
  | |- errs _ (match ?x with _ => _ end) => destruct x eqn:?
  | |- errs _ (Signer._require_exact_int_keys _ _) => unfold Signer._require_exact_int_keys
  | |- errs _ (Signer._require_uint _) => unfold Signer._require_uint
  | |- errs _ (Signer.require_key _) => unfold Signer.require_key
  end.

Lemma errs_check_entries prev ids keys vs : errs signer_rejects (Signer.check_entries prev ids keys vs).
Proof.
  revert prev ids keys. induction vs as [|v vs IH]; intros prev ids keys; cbn [Signer.check_entries]; [exact I|].
  repeat (apply IH || rejects_step).
Qed.

Lemma errs_signer_authorization v key : errs signer_rejects (Signer._validate_authorization v key).
Proof. unfold Signer._validate_authorization. repeat (apply errs_check_entries || rejects_step). Qed.

Lemma errs_signer_update `{Cbor} v key : errs signer_rejects (Signer._validate_identity_update v key).
Proof. unfold Signer._validate_identity_update. repeat (apply errs_signer_authorization || rejects_step). Qed.

(** * One operation per capability *)

(** What a holder or the expiry timer can do with a capability. *)
Inductive cap_op := OpSign (now : Z) (update : bytes) | OpInvalidate | OpIsActive (now : Z).

Definition is_sign (o : cap_op) : bool := match o with OpSign _ _ => true | _ => false end.

Section OneUse.
Context `{Cbor} `{Ed25519}.

(** One operation: the signature it returned, if any, and the capability after it. *)
Definition cap_step (o : cap_op) (c : Signer.capability) : option bytes * Signer.capability :=
  match o with
  | OpSign now u =>
      let r := Signer.sign_identity_update now u c in (match r.1 with Ok s => Some s | Err _ => None end, r.2)
  | OpInvalidate => (None, Signer.invalidate c)
  | OpIsActive now => (None, (Signer.is_active now c).2)
  end.

Fixpoint cap_run (ops : list cap_op) (c : Signer.capability) : list bytes * Signer.capability :=
  match ops with
  | [] => ([], c)
  | o :: ops' =>
      let '(s, c') := cap_step o c in let '(ss, c'') := cap_run ops' c' in (option_list s ++ ss, c'')
  end.

(** A capability that has signed, expired or been cancelled: its key is gone and its
    owner was told once. *)
Record erased (handle : Z) (keys : gmap Z bytes) (callback : bool) (c : Signer.capability) : Prop := {
  erased_handle : Signer.cap_handle c = None;
  erased_active : Signer.cap_active c = false;
  erased_timer : Signer.cap_timer c = false;
  erased_keys : Signer.cap_private_keys c = delete handle keys;
  erased_callback : Signer.cap_on_invalidate c = false;
  erased_told : Signer.cap_callbacks c = if callback then 1%nat else 0%nat;
}.
Section Created.
Context (unit timeout handle now : Z) (seed : pyval) (callback : bool) (keys : gmap Z bytes) (c : Signer.capability).
Hypothesis created : Signer._create_capability_from_seed unit seed timeout handle now callback keys = Ok c.

Lemma created_shape :
  exists s pk, seed = PBytes s /\ length s = _KEY_LENGTH /\ ed_public s = Some pk /\
    0 < timeout <= 900 * unit /\ c = Signer.create_capability handle s pk now timeout callback keys.
Proof using created.
  unfold Signer._create_capability_from_seed in created. destruct seed as [| | |s| | | | |]; try done.
  revert created. case_match eqn:G1; [done|]. case_match eqn:G2; [done|]. bool_hyps.
  destruct (ed_public s) as [pk|] eqn:E; [|done]. intros [= <-].
  exists s, pk. split_and!; done.
Qed.

Lemma step_erased o c' : erased handle keys callback c' -> cap_step o c' = (None, c').
Proof.
  destruct c' as [h pk ex ac cb tm ks n]. intros [Hh Ha Ht Hk Hc Hn]. simpl in *. subst.
  destruct o; reflexivity.
Qed.

Lemma run_erased ops c' : erased handle keys callback c' -> cap_run ops c' = ([], c').
Proof.
  intros He. induction ops as [|o ops IH]; [done|]. cbn [cap_run]. rewrite (step_erased o c' He), IH. done.
Qed.

Lemma invalidate_erases : erased handle keys callback (Signer._invalidate_unlocked c).
Proof using created.
  destruct created_shape as (s & pk & -> & _ & _ & _ & ->). constructor; try done; simpl.
  apply delete_insert_eq.
Qed.

Lemma active_created t :
  Signer._assert_active t c = if now + timeout <=? t then (Err SignerUnavailable, Signer.invalidate c) else (Ok tt, c).
Proof using created.
  destruct created_shape as (s & pk & -> & _ & _ & _ & ->). unfold Signer._assert_active. simpl.
  case_match; [done|]. rewrite bool_decide_eq_true_2; [done|]. rewrite lookup_insert_eq. eauto.
Qed.

(** An operation on a fresh capability erases it or leaves it alone; signing always
    erases it. *)
Lemma step_created o :
  erased handle keys callback (cap_step o c).2 \/ (cap_step o c = (None, c) /\ is_sign o = false).
Proof using created.
  destruct o as [t u| |t]; cbn [cap_step].
  - left. unfold Signer.sign_identity_update. rewrite active_created. cbn [snd].
    destruct (now + timeout <=? t); apply invalidate_erases.
  - left. apply invalidate_erases.
  - cbn [snd]. unfold Signer.is_active. case_match; [left; apply invalidate_erases|by right].
Qed.

(** A capability signs at most once: whatever sequence of signing attempts,
    cancellations, timer firings and activity queries follows its creation, at most
    one signature comes out; a single signing attempt, successful or not, leaves it
    inactive with its private key erased from the key table, its timer gone and the
    owner's callback run exactly once. *)
Lemma capability_signs_once ops :
  (length (cap_run ops c).1 <= 1)%nat /\
  (existsb is_sign ops = true -> erased handle keys callback (cap_run ops c).2) /\
  (erased handle keys callback (cap_run ops c).2 \/ (cap_run ops c).2 = c).
Proof using created.
  induction ops as [|o ops IH]; [cbn; split_and!; try done; [lia|by right]|].
  cbn [cap_run existsb]. destruct (cap_step o c) as [s c'] eqn:Es. pose proof (step_created o) as [He|[E Ho]]; rewrite Es in *.
  - cbn [snd] in He. rewrite (run_erased ops c' He). cbn [fst snd]. split_and!; auto.
    destruct s; cbn; lia.
  - injection E as -> ->. destruct (cap_run ops c) as [ss c''] eqn:Er. cbn [fst snd option_list app] in *. rewrite Ho. done.
Qed.

Lemma sign_created t u s pk :
  seed = PBytes s -> ed_public s = Some pk -> length s = _KEY_LENGTH ->
  c = Signer.create_capability handle s pk now timeout callback keys -> `{Ed25519Laws} ->
  (Signer.sign_identity_update t u c).1 =
  if now + timeout <=? t then Err SignerUnavailable
  else match Signer._validate_identity_update (PBytes u) pk with
  | Ok _ => Ok (ed_sign s (sha256 u))
  | Err e => Err (Signer.signing_error e)
  end.
Proof using created.
  intros Hs Hpk Hl Hc Hlaws. unfold Signer.sign_identity_update. rewrite active_created. destruct (now + timeout <=? t); [done|].
  rewrite Hc. unfold Signer.sign_body. cbn -[Signer._validate_identity_update sha256 ed_sign lookup insert].
  destruct (Signer._validate_identity_update _ _); [|done]. cbn [res_bind]. rewrite lookup_insert_eq.
  cbn [of_option res_bind]. rewrite ed_sign_length by done. done.
Qed.

(** What signing with a fresh capability returns.  Past the capability's lifetime
    (at most fifteen minutes) it is refused; before, it succeeds exactly on the
    updates the validator accepts for the capability's key, the signature is 64 bytes
    long and verifies under that key over the SHA-256 digest of the update, and a
    rejected update is reported as rejected input or as a signer error. *)
Lemma signing_outcome t u (laws : Ed25519Laws) :
  0 < timeout <= 900 * unit /\
  match (Signer.sign_identity_update t u c).1 with
  | Ok sig => t < now + timeout /\
      Signer._validate_identity_update (PBytes u) (Signer.cap_public_key c) = Ok tt /\
      length sig = _SIGNATURE_LENGTH /\ ed_verify (Signer.cap_public_key c) sig (sha256 u) = true
  | Err e =>
      (now + timeout <= t /\ e = SignerUnavailable) \/
      (t < now + timeout /\ Signer._validate_identity_update (PBytes u) (Signer.cap_public_key c) <> Ok tt /\
       (e = InvalidSigningInput \/ e = SignerError))
  end.
Proof using created.
  destruct created_shape as (s & pk & Hs & Hl & Hpk & Ht & Hc). split; [done|].
  rewrite (sign_created t u s pk) by done. replace (Signer.cap_public_key c) with pk by (by rewrite Hc).
  destruct (Z.leb_spec (now + timeout) t); [by left|].
  destruct (Signer._validate_identity_update (PBytes u) pk) as [[]|e] eqn:Ev.
  - rewrite ed_sign_length, (ed_verify_sign s pk) by done. done.
  - right. split_and!; [done|done|]. pose proof (errs_signer_update (PBytes u) pk) as He. rewrite Ev in He.
    destruct He as [-> | [-> | ->]]; auto.
Qed.

(** C19. The contract of a capability.  Whatever sequence of signing attempts, cancellations, timer
    firings and activity queries follows its creation, at most one signature comes out; a single
    signing attempt, successful or not, leaves it inactive with its private key erased from the
    key table, its timer gone and the owner's callback run exactly once.  Past its lifetime (at
    most fifteen minutes) a fresh capability refuses to sign; before, it signs exactly the updates
    the validator accepts for its key, with a signature of 64 bytes that verifies under that key
    over the SHA-256 digest of the update, and reports a rejected update as such. *)
Theorem capability_contract :
  (forall ops, (length (cap_run ops c).1 <= 1)%nat /\
    (existsb is_sign ops = true -> erased handle keys callback (cap_run ops c).2) /\
    (erased handle keys callback (cap_run ops c).2 \/ (cap_run ops c).2 = c)) /\
  (forall t u, Ed25519Laws -> 0 < timeout <= 900 * unit /\
    match (Signer.sign_identity_update t u c).1 with
    | Ok sig => t < now + timeout /\
        Signer._validate_identity_update (PBytes u) (Signer.cap_public_key c) = Ok tt /\
        length sig = _SIGNATURE_LENGTH /\ ed_verify (Signer.cap_public_key c) sig (sha256 u) = true
    | Err e =>
        (now + timeout <= t /\ e = SignerUnavailable) \/
        (t < now + timeout /\ Signer._validate_identity_update (PBytes u) (Signer.cap_public_key c) <> Ok tt /\
         (e = InvalidSigningInput \/ e = SignerError))
    end).
Proof using created. split; [apply capability_signs_once|intros t u laws; by apply signing_outcome]. Qed.
End Created.
End OneUse.
