(* ===== verification/Base64.v ===== *)
(** Base64 as the container uses it: [base64.b64encode] and the strict decoder
    [base64.b64decode(..., validate=True)] of CPython 3.12
    (container.py, [_b64_encode], [_b64_decode]). *)

From S2P Require Import Prelude PyVal.

Open Scope Z_scope.

(** The character of a 6-bit value, and back. *)
Definition b64_char (n : Z) : Z :=
  if n <? 26 then 65 + n else if n <? 52 then 71 + n else if n <? 62 then n - 4 else if n =? 62 then 43 else 47.

Definition b64_value (c : Z) : option Z :=
  if (65 <=? c) && (c <=? 90) then Some (c - 65)
  else if (97 <=? c) && (c <=? 122) then Some (c - 71)
  else if (48 <=? c) && (c <=? 57) then Some (c + 4)
  else if c =? 43 then Some 62 else if c =? 47 then Some 63 else None.

Definition pad : Z := 61.

(** [base64.b64encode(b).decode("ascii")] *)
Fixpoint _b64_encode (b : bytes) : pystr :=
  match b with
  | [] => []
  | [x] => [b64_char (byteZ x / 4); b64_char (byteZ x mod 4 * 16); pad; pad]
  | [x; y] =>
      [b64_char (byteZ x / 4); b64_char (byteZ x mod 4 * 16 + byteZ y / 16); b64_char (byteZ y mod 16 * 4); pad]
  | x :: y :: z :: rest =>
      b64_char (byteZ x / 4) :: b64_char (byteZ x mod 4 * 16 + byteZ y / 16) ::
      b64_char (byteZ y mod 16 * 4 + byteZ z / 64) :: b64_char (byteZ z mod 64) :: _b64_encode rest
  end.

(** The loop of [binascii.a2b_base64(s, strict_mode=True)]: [quad] characters of the
    current group were read, [left] holds their bits not yet written, [pads] padding
    characters were seen, [started] tells whether padding has begun.  [None] is
    [binascii.Error]. *)
Fixpoint a2b_base64 (quad : nat) (left : Z) (pads : nat) (started : bool) (s : pystr) : option bytes :=
  match s with
  | [] => if (quad =? 0)%nat then Some [] else None
  | c :: s' =>
      if c =? pad then
        if (2 <=? quad)%nat && (4 <=? quad + S pads)%nat then (if bool_decide (s' = []) then Some [] else None)
        else a2b_base64 quad left (if (2 <=? quad)%nat then S pads else pads) true s'
      else
        match b64_value c with
        | None => None
        | Some v =>
            if started then None
            else match quad with
            | 0%nat => a2b_base64 1 v 0 false s'
            | 1%nat => (fun r => byte_of_Z (left * 4 + v / 16) :: r) <$> a2b_base64 2 (v mod 16) 0 false s'
            | 2%nat => (fun r => byte_of_Z (left * 16 + v / 4) :: r) <$> a2b_base64 3 (v mod 4) 0 false s'
            | _ => (fun r => byte_of_Z (left * 64 + v) :: r) <$> a2b_base64 0 0 0 false s'
            end
        end
  end.

(** [base64.b64decode(value.encode("ascii"), validate=True)]: a character outside
    ASCII raises [UnicodeEncodeError], leading padding is refused. *)
Definition b64decode (s : pystr) : option bytes :=
  if forallb (fun c => (0 <=? c) && (c <? 128)) s then
    match s with
    | c :: _ => if c =? pad then None else a2b_base64 0 0 0 false s
    | [] => Some []
    end
  else None.

(** * Decoding inverts encoding *)

Lemma b64_value_char n : 0 <= n < 64 -> b64_value (b64_char n) = Some n /\ b64_char n <> pad /\ 0 <= b64_char n < 128.
Proof.
  intros Hn. assert (forallb (fun k => bool_decide (b64_value (b64_char (Z.of_nat k)) = Some (Z.of_nat k)) &&
    negb (b64_char (Z.of_nat k) =? pad) && (0 <=? b64_char (Z.of_nat k)) && (b64_char (Z.of_nat k) <? 128)) (seq 0 64) = true) as Hall
    by (vm_compute; reflexivity).
  rewrite forallb_forall in Hall. specialize (Hall (Z.to_nat n)). rewrite Z2Nat.id in Hall by lia.
  rewrite in_seq in Hall. specialize (Hall ltac:(lia)). bool_hyps. done.
Qed.

(** Reading one character of a group. *)
Lemma a2b_char quad left n s :
  0 <= n < 64 ->
  a2b_base64 quad left 0 false (b64_char n :: s) =
  match quad with
  | 0%nat => a2b_base64 1 n 0 false s
  | 1%nat => (fun r => byte_of_Z (left * 4 + n / 16) :: r) <$> a2b_base64 2 (n mod 16) 0 false s
  | 2%nat => (fun r => byte_of_Z (left * 16 + n / 4) :: r) <$> a2b_base64 3 (n mod 4) 0 false s
  | _ => (fun r => byte_of_Z (left * 64 + n) :: r) <$> a2b_base64 0 0 0 false s
  end.
Proof.
  intros Hn. destruct (b64_value_char n Hn) as (Hv & Hp & _). cbn [a2b_base64].
  rewrite (proj2 (Z.eqb_neq _ _) Hp), Hv. done.
Qed.

Lemma byte_of_Z_eq z b : z = byteZ b -> byte_of_Z z = b.
Proof. intros ->. apply byte_of_Z_byteZ. Qed.

Lemma a2b_encode b : a2b_base64 0 0 0 false (_b64_encode b) = Some b.
Proof.
  assert (forall n (b : bytes), (length b <= n)%nat -> a2b_base64 0 0 0 false (_b64_encode b) = Some b) as Hall;
    [|by apply (Hall (length b)), Nat.le_refl].
  clear b. intros n. induction n as [|n IH]; intros b Hn; [destruct b; [done|simpl in Hn; lia]|].
  destruct b as [|x [|y [|z rest]]]; [done|..]; cbn [_b64_encode];
    pose proof (byteZ_range x); try pose proof (byteZ_range y); try pose proof (byteZ_range z).
  - rewrite !a2b_char by (Z.to_euclidean_division_equations; lia).
    cbn. do 2 f_equal. apply byte_of_Z_eq. Z.to_euclidean_division_equations. lia.
  - rewrite !a2b_char by (Z.to_euclidean_division_equations; lia).
    cbn. do 2 f_equal; [|f_equal]; apply byte_of_Z_eq; Z.to_euclidean_division_equations; lia.
  - rewrite !a2b_char by (Z.to_euclidean_division_equations; lia).
    rewrite IH by (simpl in Hn; lia). cbn. do 2 f_equal; [|f_equal; [|f_equal]]; apply byte_of_Z_eq;
      Z.to_euclidean_division_equations; lia.
Qed.

Lemma b64_encode_ascii b : forallb (fun c => (0 <=? c) && (c <? 128)) (_b64_encode b) = true.
Proof.
  assert (forall n (b : bytes), (length b <= n)%nat -> forallb (fun c => (0 <=? c) && (c <? 128)) (_b64_encode b) = true) as Hall;
    [|by apply (Hall (length b)), Nat.le_refl].
  assert (forall n, 0 <= n < 64 -> (0 <=? b64_char n) && (b64_char n <? 128) = true) as Hc.
  { intros n (_ & _ & ?)%b64_value_char. apply andb_true_intro. split; [apply Z.leb_le|apply Z.ltb_lt]; lia. }
  clear b. intros n. induction n as [|n IH]; intros b Hn; [destruct b; [done|simpl in Hn; lia]|].
  destruct b as [|x [|y [|z rest]]]; [done|..]; cbn [_b64_encode forallb];
    pose proof (byteZ_range x); try pose proof (byteZ_range y); try pose proof (byteZ_range z);
    rewrite ?Hc by (Z.to_euclidean_division_equations; lia); [done|done|].
  apply IH. simpl in Hn. lia.
Qed.

Lemma b64decode_encode b : b64decode (_b64_encode b) = Some b.
Proof.
  unfold b64decode. rewrite b64_encode_ascii. destruct (_b64_encode b) as [|c s] eqn:E.
  - rewrite <-(a2b_encode b), E. done.
  - rewrite <-E, a2b_encode. destruct (Z.eqb_spec c pad) as [->|]; [|done]. exfalso.
    destruct b as [|x b']; [done|]. pose proof (byteZ_range x).
    assert (0 <= byteZ x / 4 < 64) as (_ & Hp & _)%b64_value_char by (Z.to_euclidean_division_equations; lia).
    apply Hp. destruct b' as [|y [|z rest]]; cbn [_b64_encode] in E; congruence.
Qed.
