(* ===== verification/Json.v ===== *)
(** JSON text as the container uses it: [json.dumps] with sorted keys, compact
    separators and [ensure_ascii=False], and [json.loads], of CPython's [json]
    module (container.py, [_canonical_json], [_parse_container]). *)

From S2P Require Import Prelude PyVal.

Open Scope Z_scope.

(** What [json.loads] can return.  An object is its items in insertion order with
    distinct keys.  A float is kept as the literal it was read from. *)
Inductive json :=
  | JNull
  | JBool (b : bool)
  | JInt (z : Z)
  | JFloat (literal : pystr)
  | JStr (s : pystr)
  | JArr (l : list json)
  | JObj (o : list (pystr * json)).

Section JsonInd.
Context (P : json -> Prop).
Context (HNull : P JNull) (HBool : forall b, P (JBool b)) (HInt : forall z, P (JInt z)).
Context (HFloat : forall s, P (JFloat s)) (HStr : forall s, P (JStr s)).
Context (HArr : forall l, Forall P l -> P (JArr l)).
Context (HObj : forall o, Forall (fun kv => P kv.2) o -> P (JObj o)).

Fixpoint json_ind' (v : json) : P v :=
  let fix all (l : list json) : Forall P l :=
    match l with [] => List.Forall_nil _ | x :: l' => List.Forall_cons _ x l' (json_ind' x) (all l') end in
  let fix items (o : list (pystr * json)) : Forall (fun kv => P kv.2) o :=
    match o with [] => List.Forall_nil _ | kv :: o' => List.Forall_cons _ kv o' (json_ind' kv.2) (items o') end in
  match v with
  | JNull => HNull | JBool b => HBool b | JInt z => HInt z | JFloat s => HFloat s | JStr s => HStr s
  | JArr l => HArr l (all l)
  | JObj o => HObj o (items o)
  end.
End JsonInd.

(** What is used of Python's floats: the integer a literal's value equals, if it is
    integral, and its [repr] if it is finite. *)
Class PyFloat := {
  float_integer : pystr -> option Z;
  float_repr : pystr -> option pystr;
}.

(** * Integers in decimal *)

(** The decimal digits of [n >= 0], most significant first, before [acc]. *)
Fixpoint digits_of (fuel : nat) (n : Z) (acc : list Z) : list Z :=
  match fuel with
  | O => acc
  | S fuel' => if n <? 10 then n :: acc else digits_of fuel' (n / 10) (n mod 10 :: acc)
  end.

Definition decimal (n : Z) : list Z := digits_of (S (Z.to_nat (Z.log2 n))) n [].

(** [sys.get_int_max_str_digits()] *)
Definition int_max_str_digits : nat := 4300.

Definition digit_char (d : Z) : Z := 48 + d.

(** [repr(z)]; [None]: the limit on digits raises [ValueError]. *)
Definition int_repr (z : Z) : option pystr :=
  let ds := decimal (Z.abs z) in
  if (int_max_str_digits <? length ds)%nat then None
  else Some ((if z <? 0 then [45] else []) ++ (digit_char <$> ds)).

(** * Writing *)

Definition escape_char (c : Z) : pystr :=
  if c =? 34 then [92; 34] else if c =? 92 then [92; 92]
  else if c =? 8 then [92; 98] else if c =? 12 then [92; 102] else if c =? 10 then [92; 110]
  else if c =? 13 then [92; 114] else if c =? 9 then [92; 116]
  else if c <? 32 then [92; 117; 48; 48; hex_digit (c / 16); hex_digit (c mod 16)]
  else [c].

Definition quote (s : pystr) : pystr := 34 :: (s ≫= escape_char) ++ [34].

(** The parts with a comma between them. *)
Fixpoint join (parts : list pystr) : pystr :=
  match parts with
  | [] => []
  | [p] => p
  | p :: rest => p ++ 44 :: join rest
  end.

(** The elements of a list of options, if all are there. *)
Fixpoint sequence {A} (l : list (option A)) : option (list A) :=
  match l with
  | [] => Some []
  | o :: l' => match o, sequence l' with Some a, Some r => Some (a :: r) | _, _ => None end
  end.

Definition member (kt : pystr * pystr) : pystr := quote kt.1 ++ 58 :: kt.2.

Section Json.
Context `{PyFloat}.

(** [json.dumps(v, sort_keys=True, separators=(",", ":"), ensure_ascii=False,
    allow_nan=False)]; [None]: [ValueError]. *)
Fixpoint json_dumps (v : json) : option pystr :=
  match v with
  | JNull => Some (py "null")
  | JBool true => Some (py "true")
  | JBool false => Some (py "false")
  | JInt z => int_repr z
  | JFloat l => float_repr l
  | JStr s => Some (quote s)
  | JArr l => (fun parts => 91 :: join parts ++ [93]) <$> sequence (json_dumps <$> l)
  | JObj o =>
      (fun items => 123 :: join (member <$> sort_by fst items) ++ [125]) <$>
      sequence ((fun kv => (fun t => (kv.1, t)) <$> json_dumps kv.2) <$> o)
  end.
End Json.

(** * Reading *)

Definition is_space (c : Z) : bool := (c =? 32) || (c =? 9) || (c =? 10) || (c =? 13).

Fixpoint skip_space (s : pystr) : pystr :=
  match s with c :: s' => if is_space c then skip_space s' else s | [] => [] end.

(** What follows the character [c] at the start of [s], if it is there. *)
Definition starts (c : Z) (s : pystr) : option pystr :=
  match s with d :: r => if d =? c then Some r else None | [] => None end.

Definition hex_value (c : Z) : option Z :=
  if (48 <=? c) && (c <=? 57) then Some (c - 48)
  else if (97 <=? c) && (c <=? 102) then Some (c - 87)
  else if (65 <=? c) && (c <=? 70) then Some (c - 55) else None.

Definition hex4 (a b c d : Z) : option Z :=
  match hex_value a, hex_value b, hex_value c, hex_value d with
  | Some a, Some b, Some c, Some d => Some (((a * 16 + b) * 16 + c) * 16 + d)
  | _, _, _, _ => None
  end.

Definition unescape (c : Z) : option Z :=
  if (c =? 34) || (c =? 92) || (c =? 47) then Some c
  else if c =? 98 then Some 8 else if c =? 102 then Some 12 else if c =? 110 then Some 10
  else if c =? 114 then Some 13 else if c =? 116 then Some 9 else None.

Definition cons_char (c : Z) (r : res (pystr * pystr)) : res (pystr * pystr) :=
  match r with Ok (s, rest) => Ok (c :: s, rest) | Err e => Err e end.

(** The text of a string after its opening quote, and what follows its closing one. *)
Fixpoint scan_string (s : pystr) : res (pystr * pystr) :=
  match s with
  | [] => Err JSONDecodeError
  | c :: r =>
      if c =? 34 then Ok ([], r)
      else if c =? 92 then
        match r with
        | e :: r1 =>
            if e =? 117 then
              match r1 with
              | a :: b :: c' :: d :: r2 =>
                  match hex4 a b c' d with
                  | None => Err JSONDecodeError
                  | Some u =>
                      if (55296 <=? u) && (u <=? 56319) then
                        match r2 with
                        | x :: y :: a2 :: b2 :: c2 :: d2 :: r3 =>
                            if (x =? 92) && (y =? 117) then
                              match hex4 a2 b2 c2 d2 with
                              | None => Err JSONDecodeError
                              | Some u2 =>
                                  if (56320 <=? u2) && (u2 <=? 57343)
                                  then cons_char (65536 + (u - 55296) * 1024 + (u2 - 56320)) (scan_string r3)
                                  else cons_char u (scan_string r2)
                              end
                            else cons_char u (scan_string r2)
                        | _ => cons_char u (scan_string r2)
                        end
                      else cons_char u (scan_string r2)
                  end
              | _ => Err JSONDecodeError
              end
            else
              match unescape e with
              | Some u => cons_char u (scan_string r1)
              | None => Err JSONDecodeError
              end
        | [] => Err JSONDecodeError
        end
      else if c <? 32 then Err JSONDecodeError
      else cons_char c (scan_string r)
  end.

Definition is_digit (c : Z) : bool := (48 <=? c) && (c <=? 57).

Fixpoint span_digits (s : pystr) : pystr * pystr :=
  match s with
  | c :: s' => if is_digit c then let r := span_digits s' in (c :: r.1, r.2) else ([], s)
  | [] => ([], [])
  end.

(** [int(digits)] of decimal digits. *)
Definition digits_value (ds : pystr) : Z := foldl (fun n c => n * 10 + (c - 48)) 0 ds.

(** The fraction and the exponent after an integer part, as text, and the rest. *)
Definition scan_fraction (s : pystr) : pystr * pystr :=
  match starts 46 s with
  | Some r => let d := span_digits r in match d.1 with [] => ([], s) | ds => (46 :: ds, d.2) end
  | None => ([], s)
  end.

Definition scan_exponent (s : pystr) : pystr * pystr :=
  match s with
  | e :: r =>
      if (e =? 101) || (e =? 69) then
        let '(sign, r1) := match r with
                           | c :: r' => if (c =? 43) || (c =? 45) then ([c], r') else ([], r)
                           | [] => ([], r)
                           end in
        let d := span_digits r1 in
        match d.1 with [] => ([], s) | ds => (e :: sign ++ ds, d.2) end
      else ([], s)
  | [] => ([], s)
  end.

(** A number after its sign: an integer part without leading zeros, then optionally a
    fraction and an exponent, which make it a float. *)
Definition scan_number (negative : bool) (s : pystr) : res (json * pystr) :=
  let '(ints, r) :=
    match starts 48 s with
    | Some r => ([48], r)
    | None => span_digits s
    end in
  match ints with
  | [] => Err JSONDecodeError
  | _ =>
      let '(frac, r1) := scan_fraction r in
      let '(ex, r2) := scan_exponent r1 in
      match frac, ex with
      | [], [] =>
          if (int_max_str_digits <? length ints)%nat then Err ValueError
          else Ok (JInt (if negative then - digits_value ints else digits_value ints), r)
      | _, _ => Ok (JFloat ((if negative then [45] else []) ++ ints ++ frac ++ ex), r2)
      end
  end.

(** [s] without the prefix [p], if it has it. *)
Fixpoint strip (p s : pystr) : option pystr :=
  match p, s with
  | [], _ => Some s
  | c :: p', d :: s' => if c =? d then strip p' s' else None
  | _ :: _, [] => None
  end.

(** [d[k] = v] *)
Fixpoint obj_set {A} (o : list (pystr * A)) (k : pystr) (v : A) : list (pystr * A) :=
  match o with
  | [] => [(k, v)]
  | kv :: o' => if bool_decide (kv.1 = k) then (k, v) :: o' else kv :: obj_set o' k v
  end.

Definition literals : list (pystr * json) :=
  [(py "null", JNull); (py "true", JBool true); (py "false", JBool false); (py "NaN", JFloat (py "NaN"));
   (py "Infinity", JFloat (py "Infinity")); (py "-Infinity", JFloat (py "-Infinity"))].

Fixpoint scan_literal (ls : list (pystr * json)) (s : pystr) : option (json * pystr) :=
  match ls with
  | [] => None
  | l :: ls' => match strip l.1 s with Some r => Some (l.2, r) | None => scan_literal ls' s end
  end.

(** A value that starts with neither a quote, a brace nor a bracket. *)
Definition scan_atom (s : pystr) : res (json * pystr) :=
  match scan_literal literals s with
  | Some r => Ok r
  | None =>
      match starts 45 s with
      | Some r => scan_number true r
      | None => scan_number false s
      end
  end.

(** The nesting still allowed one level further in; [None] when there is none left.  A
    limit [None] stands for an interpreter stack that is never exhausted. *)
Definition deeper (depth : option nat) : option (option nat) :=
  match depth with None => Some None | Some O => None | Some (S d) => Some (Some d) end.

(** A value at the start of the text; the elements of an array after its bracket; the
    members of an object after its brace.  [None] means that [fuel] has run out.
    The C scanner guards every object and array with [Py_EnterRecursiveCall]. *)
Fixpoint scan_value (depth : option nat) (fuel : nat) (s : pystr) {struct fuel} : option (res (json * pystr)) :=
  match fuel with
  | O => None
  | S f =>
      match s with
      | [] => Some (Err JSONDecodeError)
      | c :: r =>
          if c =? 34 then
            Some match scan_string r with Ok (t, r') => Ok (JStr t, r') | Err e => Err e end
          else if c =? 123 then
            match deeper depth with
            | None => Some (Err RecursionError)
            | Some depth' =>
                match starts 125 (skip_space r) with
                | Some r' => Some (Ok (JObj [], r'))
                | None => scan_members depth' f [] (skip_space r)
                end
            end
          else if c =? 91 then
            match deeper depth with
            | None => Some (Err RecursionError)
            | Some depth' =>
                match starts 93 (skip_space r) with
                | Some r' => Some (Ok (JArr [], r'))
                | None => scan_items depth' f [] (skip_space r)
                end
            end
          else Some (scan_atom s)
      end
  end
with scan_items (depth : option nat) (fuel : nat) (acc : list json) (s : pystr) {struct fuel} : option (res (json * pystr)) :=
  match fuel with
  | O => None
  | S f =>
      match scan_value depth f s with
      | None => None
      | Some (Err e) => Some (Err e)
      | Some (Ok (v, r)) =>
          match starts 44 (skip_space r), starts 93 (skip_space r) with
          | Some r', _ => scan_items depth f (acc ++ [v]) (skip_space r')
          | None, Some r' => Some (Ok (JArr (acc ++ [v]), r'))
          | None, None => Some (Err JSONDecodeError)
          end
      end
  end
with scan_members (depth : option nat) (fuel : nat) (acc : list (pystr * json)) (s : pystr) {struct fuel} : option (res (json * pystr)) :=
  match fuel with
  | O => None
  | S f =>
      match starts 34 s with
      | None => Some (Err JSONDecodeError)
      | Some r0 =>
          match scan_string r0 with
          | Err e => Some (Err e)
          | Ok (k, r) =>
              match starts 58 (skip_space r) with
              | None => Some (Err JSONDecodeError)
              | Some r1 =>
                  match scan_value depth f (skip_space r1) with
                  | None => None
                  | Some (Err e) => Some (Err e)
                  | Some (Ok (v, r2)) =>
                      match starts 44 (skip_space r2), starts 125 (skip_space r2) with
                      | Some r3, _ => scan_members depth f (obj_set acc k v) (skip_space r3)
                      | None, Some r3 => Some (Ok (JObj (obj_set acc k v), r3))
                      | None, None => Some (Err JSONDecodeError)
                      end
                  end
              end
          end
      end
  end.

(** Every call consumes a character or descends from a value to its parts. *)
Definition scan_fuel (s : pystr) : nat := S (S (2 * length s)).

(** [json.loads(s)] where the interpreter's stack allows values nested [depth] deep. *)
Definition json_loads_within (depth : option nat) (s : pystr) : res json :=
  let s := skip_space s in
  match scan_value depth (scan_fuel s) s with
  | None => Err JSONDecodeError
  | Some (Err e) => Err e
  | Some (Ok (v, r)) => if bool_decide (skip_space r = []) then Ok v else Err JSONDecodeError
  end.

(** [json.loads(s)] on a stack that suffices ([JsonFacts.json_loads_within_eq]: a limit only
    ever turns the outcome into [RecursionError]). *)
Definition json_loads (s : pystr) : res json := json_loads_within None s.
