(* ===== verification/JsonFacts.v ===== *)
(** Properties of the JSON reader and writer: the reader always terminates, and it
    inverts the writer. *)

From S2P Require Import Prelude PyVal Json.

Open Scope Z_scope.

(** * The reader's fuel is enough *)

Lemma starts_some c s r : starts c s = Some r <-> s = c :: r.
Proof.
  destruct s as [|d s]; simpl; [done|]. destruct (Z.eqb_spec d c) as [->|Hne]; split; naive_solver.
Qed.

Lemma skip_space_length s : (length (skip_space s) <= length s)%nat.
Proof. induction s as [|c s IH]; simpl; [lia|]. destruct (is_space c); simpl; lia. Qed.

Lemma cons_char_ok c r t rest :
  cons_char c r = Ok (t, rest) -> exists t', r = Ok (t', rest) /\ t = c :: t'.
Proof. destruct r as [[t' r']|]; [|done]. intros [= <- <-]. eauto. Qed.

Lemma scan_string_length s t r : scan_string s = Ok (t, r) -> (length r < length s)%nat.
Proof.
  remember (length s) as n eqn:En. revert s t r En. induction n as [n IH] using lt_wf_ind.
  intros [|c s] t r -> Hs; [done|]. cbn [scan_string] in Hs.
  assert (forall s' t' c', (length s' <= length s)%nat -> cons_char c' (scan_string s') = Ok (t', r) -> (length r < S (length s))%nat) as Hc.
  { intros s' t' c' Hl (u & Hu & _)%cons_char_ok. apply (IH (length s')) in Hu; simpl; lia. }
  destruct (c =? 34); [injection Hs as <- <-; simpl; lia|]. destruct (c =? 92).
  - destruct s as [|e s]; [done|]. destruct (e =? 117); [|destruct (unescape e); [|done]; eapply Hc, Hs; simpl; lia].
    destruct s as [|a [|b [|c' [|d s]]]]; try done. destruct (hex4 a b c' d) as [u|]; [|done].
    destruct ((55296 <=? u) && (u <=? 56319)); [|eapply Hc, Hs; simpl; lia].
    destruct s as [|x [|y [|a2 [|b2 [|c2 [|d2 s]]]]]]; try (eapply Hc, Hs; simpl; lia).
    destruct ((x =? 92) && (y =? 117)); [|eapply Hc, Hs; simpl; lia].
    destruct (hex4 a2 b2 c2 d2); [|done]. case_match; eapply Hc, Hs; simpl; lia.
  - destruct (c <? 32); [done|]. eapply Hc, Hs. lia.
Qed.

Lemma span_digits_length s : (length (span_digits s).1 + length (span_digits s).2 = length s)%nat.
Proof. induction s as [|c s IH]; simpl; [done|]. destruct (is_digit c); simpl; lia. Qed.

Lemma scan_fraction_length s : (length (scan_fraction s).2 <= length s)%nat.
Proof.
  unfold scan_fraction. destruct (starts 46 s) as [r|] eqn:E; [|simpl; lia]. apply starts_some in E as ->.
  pose proof (span_digits_length r). destruct (span_digits r).1; simpl; lia.
Qed.

Lemma scan_exponent_length s : (length (scan_exponent s).2 <= length s)%nat.
Proof.
  destruct s as [|e r]; simpl; [lia|]. destruct ((e =? 101) || (e =? 69)); [|simpl; lia].
  destruct r as [|c r']; [simpl; lia|]. destruct ((c =? 43) || (c =? 45)).
  - pose proof (span_digits_length r'). destruct (span_digits r').1; simpl; lia.
  - pose proof (span_digits_length (c :: r')). destruct (span_digits (c :: r')).1; simpl in *; lia.
Qed.

Lemma scan_number_length neg s v r : scan_number neg s = Ok (v, r) -> (length r < length s)%nat.
Proof.
  unfold scan_number.
  destruct (match starts 48 s with Some r0 => ([48], r0) | None => span_digits s end) as [ints r0] eqn:Ei.
  destruct ints as [|d ds]; [done|]. assert (length r0 < length s)%nat as Hr0.
  { destruct (starts 48 s) as [r'|] eqn:E; [apply starts_some in E as ->; injection Ei as _ _ <-; simpl; lia|].
    pose proof (span_digits_length s) as Hl. rewrite Ei in Hl. simpl in Hl. lia. }
  pose proof (scan_fraction_length r0) as Hf. destruct (scan_fraction r0) as [frac r1]. simpl in Hf.
  pose proof (scan_exponent_length r1) as He. destruct (scan_exponent r1) as [ex r2]. simpl in He.
  destruct frac, ex; try (intros [= <- <-]; lia). destruct (int_max_str_digits <? length (d :: ds))%nat; [done|]. intros [= <- <-]. lia.
Qed.

Lemma strip_length p s r : strip p s = Some r -> (length p + length r = length s)%nat.
Proof.
  revert s. induction p as [|c p IH]; intros [|d s]; simpl; try (by intros [= <-]); try done.
  destruct (c =? d); [|done]. intros ?%IH. lia.
Qed.

Lemma scan_literal_length ls s v r :
  Forall (fun l => l.1 <> []) ls -> scan_literal ls s = Some (v, r) -> (length r < length s)%nat.
Proof.
  induction 1 as [|l ls Hl Hls IH]; simpl; [done|]. destruct (strip l.1 s) as [r'|] eqn:E; [|done].
  intros [= _ <-]. apply strip_length in E. destruct l.1; [done|]. simpl in E. lia.
Qed.

Lemma scan_atom_length s v r : scan_atom s = Ok (v, r) -> (length r < length s)%nat.
Proof.
  unfold scan_atom. destruct (scan_literal literals s) as [[v' r']|] eqn:E.
  - intros [= <- <-]. eapply scan_literal_length; [|exact E]. repeat constructor; done.
  - destruct (starts 45 s) as [r'|] eqn:Em; [apply starts_some in Em as ->|]; intros Hn%scan_number_length; simpl; lia.
Qed.

(** With fuel above the bound a scan ends, with less input left. *)
Definition ends (o : option (res (json * pystr))) (n : nat) : Prop :=
  exists r, o = Some r /\ forall v rest, r = Ok (v, rest) -> (length rest < n)%nat.

Lemma ends_err e n : ends (Some (Err e)) n.
Proof. exists (Err e). by split. Qed.

Lemma ends_ok v r n : (length r < n)%nat -> ends (Some (Ok (v, r))) n.
Proof. intros Hr. exists (Ok (v, r)). split; [done|]. by intros ? ? [= <- <-]. Qed.

Lemma ends_mono o m n : ends o m -> (m <= n)%nat -> ends o n.
Proof. intros (r & -> & Hr) Hmn. exists r. split; [done|]. intros v rest Hv. specialize (Hr v rest Hv). lia. Qed.

#[local] Hint Resolve ends_err : core.

Lemma scan_ends fuel :
  (forall depth s, (2 * length s + 1 <= fuel)%nat -> ends (scan_value depth fuel s) (length s)) /\
  (forall depth acc s, (2 * length s + 2 <= fuel)%nat -> ends (scan_items depth fuel acc s) (length s)) /\
  (forall depth acc s, (2 * length s + 2 <= fuel)%nat -> ends (scan_members depth fuel acc s) (length s)).
Proof.
  induction fuel as [|f (IHv & IHi & IHm)]; [split_and!; intros; lia|]. split_and!.
  - intros depth [|c r] Hf; cbn [scan_value]; [auto|]. cbn [length] in Hf. pose proof (skip_space_length r) as Hs.
    destruct (c =? 34).
    { destruct (scan_string r) as [[t r']|e] eqn:E; [|auto]. apply ends_ok. apply scan_string_length in E. simpl. lia. }
    destruct (c =? 123).
    { destruct (deeper depth) as [depth'|]; [|auto]. destruct (starts 125 (skip_space r)) as [r'|] eqn:E.
      - apply starts_some in E. apply ends_ok. rewrite E in Hs. simpl in Hs |- *. lia.
      - eapply ends_mono; [apply IHm; lia|simpl; lia]. }
    destruct (c =? 91).
    { destruct (deeper depth) as [depth'|]; [|auto]. destruct (starts 93 (skip_space r)) as [r'|] eqn:E.
      - apply starts_some in E. apply ends_ok. rewrite E in Hs. simpl in Hs |- *. lia.
      - eapply ends_mono; [apply IHi; lia|simpl; lia]. }
    exists (scan_atom (c :: r)). split; [done|]. apply scan_atom_length.
  - intros depth acc s Hf. cbn [scan_items]. destruct (IHv depth s) as (res & -> & Hr); [lia|].
    destruct res as [[v r]|e]; [|auto]. specialize (Hr v r eq_refl). pose proof (skip_space_length r) as Hs.
    destruct (starts 44 (skip_space r)) as [r'|] eqn:E.
    + apply starts_some in E. rewrite E in Hs. simpl in Hs. pose proof (skip_space_length r').
      eapply ends_mono; [apply IHi; lia|lia].
    + destruct (starts 93 (skip_space r)) as [r'|] eqn:E'; [|auto]. apply starts_some in E'. rewrite E' in Hs.
      apply ends_ok. simpl in Hs. lia.
  - intros depth acc s Hf. cbn [scan_members]. destruct (starts 34 s) as [r0|] eqn:E0; [|auto]. apply starts_some in E0 as ->.
    cbn [length] in *. destruct (scan_string r0) as [[k r]|e] eqn:Ek; [|auto]. apply scan_string_length in Ek.
    pose proof (skip_space_length r) as Hs. destruct (starts 58 (skip_space r)) as [r1|] eqn:E1; [|auto].
    apply starts_some in E1. rewrite E1 in Hs. simpl in Hs. pose proof (skip_space_length r1) as Hs1.
    destruct (IHv depth (skip_space r1)) as (res & -> & Hr); [lia|]. destruct res as [[v r2]|e]; [|auto].
    specialize (Hr v r2 eq_refl). pose proof (skip_space_length r2) as Hs2.
    destruct (starts 44 (skip_space r2)) as [r3|] eqn:E.
    + apply starts_some in E. rewrite E in Hs2. simpl in Hs2. pose proof (skip_space_length r3).
      eapply ends_mono; [apply IHm; lia|lia].
    + destruct (starts 125 (skip_space r2)) as [r3|] eqn:E'; [|auto]. apply starts_some in E'. rewrite E' in Hs2.
      apply ends_ok. simpl in Hs2. lia.
Qed.

Lemma scan_value_ends depth s : exists r, scan_value depth (scan_fuel s) s = Some r.
Proof. destruct (scan_ends (scan_fuel s)) as [Hv _]. destruct (Hv depth s) as (r & -> & _); [unfold scan_fuel; lia|eauto]. Qed.

(** * The limit on nesting *)

(** The same outcome, or the scan was cut short by the limit. *)
Definition cut {A} (limited free : option (res A)) : Prop := limited = Some (Err RecursionError) \/ limited = free.

Lemma scan_cut fuel :
  (forall depth s, cut (scan_value depth fuel s) (scan_value None fuel s)) /\
  (forall depth acc s, cut (scan_items depth fuel acc s) (scan_items None fuel acc s)) /\
  (forall depth acc s, cut (scan_members depth fuel acc s) (scan_members None fuel acc s)).
Proof.
  unfold cut. induction fuel as [|f (IHv & IHi & IHm)]; [by split_and!; right|]. split_and!.
  - intros depth [|c r]; cbn [scan_value]; [by right|]. destruct (c =? 34); [by right|].
    destruct (c =? 123); [|destruct (c =? 91); [|by right]]; (destruct (deeper depth) as [depth'|]; [|by left]);
      cbn [deeper]; (case_match; [by right|auto]).
  - intros depth acc s. cbn [scan_items]. destruct (IHv depth s) as [-> | ->]; [by left|].
    destruct (scan_value None f s) as [[[v r]|e]|]; [|by right|by right].
    destruct (starts 44 (skip_space r)); [apply IHi|by right].
  - intros depth acc s. cbn [scan_members]. destruct (starts 34 s) as [r0|]; [|by right].
    destruct (scan_string r0) as [[k r]|]; [|by right]. destruct (starts 58 (skip_space r)) as [r1|]; [|by right].
    destruct (IHv depth (skip_space r1)) as [-> | ->]; [by left|].
    destruct (scan_value None f (skip_space r1)) as [[[v r2]|e]|]; [|by right|by right].
    destruct (starts 44 (skip_space r2)); [apply IHm|by right].
Qed.

Lemma json_loads_within_eq depth s :
  json_loads_within depth s = Err RecursionError \/ json_loads_within depth s = json_loads s.
Proof.
  unfold json_loads, json_loads_within. destruct (scan_cut (scan_fuel (skip_space s))) as [Hv _].
  destruct (Hv depth (skip_space s)) as [-> | ->]; [by left|by right].
Qed.

(** * Decimal integers *)

Lemma digits_of_value fuel n acc :
  0 <= n < 2 ^ Z.of_nat fuel ->
  foldl (fun v d => v * 10 + d) 0 (digits_of fuel n acc) = foldl (fun v d => v * 10 + d) n acc.
Proof.
  revert n acc. induction fuel as [|f IH]; intros n acc Hn; cbn [digits_of].
  - assert (n = 0) as -> by (simpl in Hn; lia). done.
  - destruct (Z.ltb_spec n 10); [done|]. rewrite Nat2Z.inj_succ, Z.pow_succ_r in Hn by lia.
    rewrite IH by (Z.to_euclidean_division_equations; lia). simpl. f_equal. Z.to_euclidean_division_equations. lia.
Qed.

(** Digits are below 10 and the first one is not zero, unless it is the only one. *)
Lemma digits_of_shape fuel n acc :
  0 <= n < 2 ^ Z.of_nat fuel -> (0 < fuel)%nat -> Forall (fun d => 0 <= d < 10) acc ->
  exists d ds, digits_of fuel n acc = d :: ds /\ 0 <= d < 10 /\ Forall (fun d => 0 <= d < 10) ds /\
    (d = 0 -> n = 0 /\ ds = acc).
Proof.
  revert n acc. induction fuel as [|f IH]; intros n acc Hn Hf Ha; [lia|]. cbn [digits_of].
  destruct (Z.ltb_spec n 10); [exists n, acc; split_and!; try done; lia|].
  rewrite Nat2Z.inj_succ, Z.pow_succ_r in Hn by lia.
  assert (0 < f)%nat by (destruct f; [simpl in Hn; lia|lia]).
  destruct (IH (n / 10) (n mod 10 :: acc)) as (d & ds & E & Hd & Hds & Hz0).
  - Z.to_euclidean_division_equations. lia.
  - done.
  - constructor; [Z.to_euclidean_division_equations; lia|done].
  - exists d, ds. split; [done|]. split; [done|]. split; [done|]. intros Hz; destruct (Hz0 Hz); Z.to_euclidean_division_equations; lia.
Qed.

Lemma decimal_bound n : 0 <= n -> 0 <= n < 2 ^ Z.of_nat (S (Z.to_nat (Z.log2 n))).
Proof.
  intros Hn. split; [done|]. rewrite Nat2Z.inj_succ, Z2Nat.id by apply Z.log2_nonneg.
  destruct (Z.eq_dec n 0) as [->|]; [simpl; lia|]. apply Z.log2_spec. lia.
Qed.

Lemma digits_value_decimal n : 0 <= n -> digits_value (digit_char <$> decimal n) = n.
Proof.
  intros Hn. unfold digits_value, decimal.
  assert (forall l v, foldl (fun n c => n * 10 + (c - 48)) v (digit_char <$> l) = foldl (fun v d => v * 10 + d) v l) as Hl.
  { intros l. induction l as [|d l IH]; intros v; [done|]. rewrite fmap_cons. cbn [foldl]. rewrite IH. f_equal. unfold digit_char. lia. }
  rewrite Hl, digits_of_value by (by try apply decimal_bound). done.
Qed.

(** Text after a value in compact JSON. *)
Definition delimited (rest : pystr) : Prop := match rest with [] => True | c :: _ => c = 44 \/ c = 93 \/ c = 125 end.

Lemma decimal_digits n : 0 <= n -> Forall (fun d => 0 <= d < 10) (decimal n).
Proof.
  intros Hn. destruct (digits_of_shape (S (Z.to_nat (Z.log2 n))) n []) as (d & ds & E & Hd & Hds & _);
    [by apply decimal_bound|lia|constructor|]. unfold decimal. rewrite E. by constructor.
Qed.

(** The text of an integer has only digits and a sign, and determines it. *)
Lemma int_repr_chars z t : int_repr z = Some t -> Forall (fun c => c = 45 \/ 48 <= c < 58) t.
Proof.
  unfold int_repr. case_match; [done|]. intros <-%(inj Some). apply Forall_app. split; [case_match; repeat constructor|].
  apply Forall_fmap. eapply Forall_impl; [apply (decimal_digits (Z.abs z)); lia|]. intros d Hd. cbn in *. unfold digit_char. lia.
Qed.

Lemma int_repr_inj y z t : int_repr y = Some t -> int_repr z = Some t -> y = z.
Proof.
  unfold int_repr. intros Hy Hz.
  destruct (int_max_str_digits <? length (decimal (Z.abs y)))%nat; [discriminate Hy|].
  destruct (int_max_str_digits <? length (decimal (Z.abs z)))%nat; [discriminate Hz|].
  apply (inj Some) in Hy as <-. apply (inj Some) in Hz as E.
  assert (forall x, 45 ∉ digit_char <$> decimal (Z.abs x)) as Hm.
  { intros x (d & Hd & Hin)%list_elem_of_fmap. pose proof (decimal_digits (Z.abs x) ltac:(lia)) as Hall.
    rewrite Forall_forall in Hall. specialize (Hall d Hin). unfold digit_char in Hd. lia. }
  assert (forall x, digits_value (digit_char <$> decimal (Z.abs x)) = Z.abs x) as Hv by (intros x; apply digits_value_decimal; lia).
  destruct (Z.ltb_spec y 0), (Z.ltb_spec z 0); cbn [app] in E.
  - injection E as E. apply (f_equal digits_value) in E. rewrite !Hv in E. lia.
  - destruct (Hm z). rewrite E. by left.
  - destruct (Hm y). rewrite <-E. by left.
  - apply (f_equal digits_value) in E. rewrite !Hv in E. lia.
Qed.

Lemma span_digits_app ds rest :
  Forall (fun d => 0 <= d < 10) ds -> delimited rest -> span_digits ((digit_char <$> ds) ++ rest) = (digit_char <$> ds, rest).
Proof.
  intros Hds Hr. induction Hds as [|d ds Hd Hds IH].
  - destruct rest as [|c rest]; [done|]. simpl in *. destruct Hr as [->|[->| ->]]; done.
  - rewrite fmap_cons. cbn [app span_digits]. unfold is_digit, digit_char at 1 2.
    destruct (Z.leb_spec 48 (48 + d)), (Z.leb_spec (48 + d) 57); try lia. simpl. by rewrite IH.
Qed.

Lemma delimited_number rest : delimited rest -> scan_fraction rest = ([], rest) /\ scan_exponent rest = ([], rest).
Proof. destruct rest as [|c rest]; [done|]. intros [->|[->| ->]]; done. Qed.

Lemma scan_number_decimal neg n rest :
  0 <= n -> (length (decimal n) <= int_max_str_digits)%nat -> delimited rest ->
  scan_number neg ((digit_char <$> decimal n) ++ rest) = Ok (JInt (if neg then - n else n), rest).
Proof.
  intros Hn Hl Hr. destruct (delimited_number rest Hr) as [Hf He]. unfold scan_number.
  assert (match starts 48 ((digit_char <$> decimal n) ++ rest) with
    | Some r => ([48], r) | None => span_digits ((digit_char <$> decimal n) ++ rest) end = (digit_char <$> decimal n, rest)) as ->.
  { destruct (digits_of_shape (S (Z.to_nat (Z.log2 n))) n []) as (d & ds & E & Hd & Hds & H0); [by apply decimal_bound|lia|done|].
    unfold decimal in *. rewrite E. destruct (Z.eq_dec d 0) as [->|Hd0].
    - destruct (H0 eq_refl) as [_ ->]. done.
    - rewrite fmap_cons. cbn [app starts]. destruct (Z.eqb_spec (digit_char d) 48); [unfold digit_char in *; lia|].
      change (digit_char d :: (digit_char <$> ds) ++ rest) with ((digit_char <$> d :: ds) ++ rest).
      apply span_digits_app; [by constructor|done]. }
  destruct (digit_char <$> decimal n) as [|c cs] eqn:E.
  { destruct (digits_of_shape (S (Z.to_nat (Z.log2 n))) n []) as (d & ds & E' & _); [by apply decimal_bound|lia|done|].
    unfold decimal in E. rewrite E' in E. done. }
  rewrite Hf, He. rewrite <-E, length_fmap. destruct (Nat.ltb_spec int_max_str_digits (length (decimal n))); [lia|].
  by rewrite digits_value_decimal.
Qed.

(** * Strings *)

(** Code points are not negative. *)
Definition str_ok (s : pystr) : bool := forallb (fun c => 0 <=? c) s.

Lemma hex_value_digit n : 0 <= n < 16 -> hex_value (hex_digit n) = Some n.
Proof.
  intros Hn. unfold hex_digit, hex_value. destruct (Z.ltb_spec n 10).
  - destruct (Z.leb_spec 48 (48 + n)), (Z.leb_spec (48 + n) 57); try lia. simpl. f_equal. lia.
  - destruct (Z.leb_spec 48 (87 + n)), (Z.leb_spec (87 + n) 57); try lia. simpl.
    destruct (Z.leb_spec 97 (87 + n)), (Z.leb_spec (87 + n) 102); try lia. simpl. f_equal. lia.
Qed.

Lemma hex4_low c : 0 <= c < 256 -> hex4 48 48 (hex_digit (c / 16)) (hex_digit (c mod 16)) = Some c.
Proof.
  intros Hc. unfold hex4. rewrite !hex_value_digit by (Z.to_euclidean_division_equations; lia).
  cbn. f_equal. Z.to_euclidean_division_equations. lia.
Qed.

(** Reading an escaped character gives it back. *)
Lemma scan_escape c s : 0 <= c -> scan_string (escape_char c ++ s) = cons_char c (scan_string s).
Proof.
  intros Hc. unfold escape_char.
  repeat match goal with |- context [if c =? ?k then _ else _] => destruct (Z.eqb_spec c k) as [->|]; [done|] end.
  destruct (Z.ltb_spec c 32) as [Hl|Hl].
  - cbn [app scan_string]. rewrite (hex4_low c) by lia.
    replace ((55296 <=? c) && (c <=? 56319)) with false; [done|]. symmetry. apply andb_false_intro1. apply Z.leb_gt. lia.
  - cbn [app scan_string]. destruct (Z.eqb_spec c 34), (Z.eqb_spec c 92), (Z.ltb_spec c 32); try lia. done.
Qed.

Lemma scan_quoted s rest : str_ok s = true -> scan_string ((s ≫= escape_char) ++ 34 :: rest) = Ok (s, rest).
Proof.
  induction s as [|c s IH]; intros Hs; [done|]. unfold str_ok in *. cbn [forallb] in Hs. bool_hyps.
  rewrite bind_cons, <-app_assoc, scan_escape by done. by rewrite IH.
Qed.

(** * Values *)

Section Roundtrip.
Context `{PyFloat}.

(** Values the writer accepts and the reader gives back: no floats, integers within
    the limit on digits, objects with distinct keys. *)
Fixpoint json_plain (v : json) : bool :=
  match v with
  | JNull | JBool _ => true
  | JInt z => (length (decimal (Z.abs z)) <=? int_max_str_digits)%nat
  | JFloat _ => false
  | JStr s => str_ok s
  | JArr l => forallb json_plain l
  | JObj o => bool_decide (NoDup o.*1) && forallb (fun kv => str_ok kv.1 && json_plain kv.2) o
  end.

(** Objects with their keys in order. *)
Fixpoint json_sort (v : json) : json :=
  match v with
  | JArr l => JArr (json_sort <$> l)
  | JObj o => JObj (sort_by fst ((fun kv => (kv.1, json_sort kv.2)) <$> o))
  | _ => v
  end.

(** [t] is text for [v]: it starts with no space, no closing bracket or brace, and is
    read back as [v] before any delimiter. *)
Definition reads_as (t : pystr) (v : json) : Prop :=
  (exists c t', t = c :: t' /\ is_space c = false /\ c <> 93 /\ c <> 125) /\
  forall fuel rest, delimited rest -> (2 * length (t ++ rest) + 1 <= fuel)%nat ->
    scan_value None fuel (t ++ rest) = Some (Ok (v, rest)).

Lemma reads_as_skip t v rest : reads_as t v -> skip_space (t ++ rest) = t ++ rest.
Proof. intros [(c & t' & -> & Hc & _) _]. simpl. by rewrite Hc. Qed.

Lemma skip_delimiter c rest : c = 44 \/ c = 93 \/ c = 125 -> skip_space (c :: rest) = c :: rest.
Proof. by intros [->|[->| ->]]. Qed.

Lemma join_cons p q l : join (p :: q :: l) = p ++ 44 :: join (q :: l).
Proof. done. Qed.

Lemma scan_items_join ts vs fuel acc rest :
  Forall2 reads_as ts vs -> ts <> [] -> (2 * length (join ts ++ 93%Z :: rest) + 2 <= fuel)%nat ->
  scan_items None fuel acc (join ts ++ 93 :: rest) = Some (Ok (JArr (acc ++ vs), rest)).
Proof.
  intros Hts Hne. revert fuel acc. induction Hts as [|t v ts vs Htv Hts IH]; intros fuel acc Hf; [done|].
  destruct fuel as [|f]; [lia|]. cbn [scan_items]. destruct Hts as [|t2 v2 ts vs Ht2 Hts].
  - cbn [join] in *. destruct Htv as [_ Hscan]. rewrite Hscan; [done|simpl; auto|lia].
  - rewrite join_cons in *. rewrite <-app_assoc in *. pose proof Htv as [_ Hscan]. cbn [app] in *.
    rewrite Hscan; [|simpl; auto|lia]. rewrite (skip_delimiter 44) by auto. cbn [starts Z.eqb Pos.eqb].
    assert (skip_space (join (t2 :: ts) ++ 93 :: rest) = join (t2 :: ts) ++ 93 :: rest) as ->.
    { destruct ts; [|rewrite join_cons, <-app_assoc]; by eapply reads_as_skip. }
    rewrite IH; [by rewrite <-app_assoc|done|]. rewrite length_app in Hf. cbn [length] in Hf. lia.
Qed.

Lemma obj_set_new {A} (o : list (pystr * A)) k v : k ∉ o.*1 -> obj_set o k v = o ++ [(k, v)].
Proof.
  induction o as [|kv o IH]; simpl; [done|]. intros Hk. rewrite bool_decide_eq_false_2 by set_solver.
  f_equal. apply IH. set_solver.
Qed.

(** A member's text is read as its key and value. *)
Definition member_as (kt : pystr * pystr) (kv : pystr * json) : Prop :=
  kt.1 = kv.1 /\ str_ok kt.1 = true /\ reads_as kt.2 kv.2.

Lemma delimited_skip tail : delimited tail -> skip_space tail = tail.
Proof. destruct tail as [|c tail]; [done|]. apply skip_delimiter. Qed.

Lemma member_length k t tail : length (member (k, t) ++ tail) = (3 + length (k ≫= escape_char) + length (t ++ tail))%nat.
Proof. unfold member, quote. simpl. rewrite !length_app. simpl. rewrite ?length_app. simpl. lia. Qed.

Lemma scan_member f acc kt kv tail :
  member_as kt kv -> delimited tail -> (2 * length (member kt ++ tail) + 2 <= S f)%nat ->
  scan_members None (S f) acc (member kt ++ tail) =
  match starts 44 tail, starts 125 tail with
  | Some r, _ => scan_members None f (obj_set acc kv.1 kv.2) (skip_space r)
  | None, Some r => Some (Ok (JObj (obj_set acc kv.1 kv.2), r))
  | None, None => Some (Err JSONDecodeError)
  end.
Proof.
  destruct kt as [k t], kv as [k' v]. intros (Hk & Hok & Htv) Htail Hf. simpl in Hk, Hok, Htv. subst k'.
  rewrite member_length in Hf. unfold member, quote. cbn [fst snd app]. rewrite <-!app_assoc. cbn [scan_members starts Z.eqb Pos.eqb app].
  rewrite scan_quoted by done. cbn [skip_space is_space Z.eqb Pos.eqb orb starts].
  erewrite reads_as_skip by exact Htv. destruct Htv as [_ Hscan]. rewrite Hscan by (done || lia).
  by rewrite delimited_skip.
Qed.

Lemma scan_members_join kts kvs fuel acc rest :
  Forall2 member_as kts kvs -> kts <> [] -> NoDup (acc.*1 ++ kvs.*1) ->
  (2 * length (join (member <$> kts) ++ 125%Z :: rest) + 2 <= fuel)%nat ->
  scan_members None fuel acc (join (member <$> kts) ++ 125 :: rest) = Some (Ok (JObj (acc ++ kvs), rest)).
Proof.
  intros Hts Hne. revert fuel acc. induction Hts as [|kt [k v] kts kvs Hkt Hts IH]; intros fuel acc Hnd Hf; [done|].
  assert (k ∉ acc.*1) as Hnew by (rewrite fmap_cons, NoDup_app, NoDup_cons in Hnd; set_solver).
  destruct fuel as [|f]; [lia|]. destruct Hts as [|kt2 kv2 kts kvs Hkt2 Hts].
  - rewrite list_fmap_singleton in *. cbn [join] in *. rewrite (scan_member _ _ _ (k, v)) by (done || simpl; auto || lia).
    cbn [starts Z.eqb Pos.eqb fst snd]. by rewrite obj_set_new.
  - rewrite !fmap_cons, join_cons, <-app_assoc in *. cbn [app] in *. rewrite (scan_member _ _ _ (k, v)) by (done || simpl; auto || lia).
    cbn [starts Z.eqb Pos.eqb fst snd]. rewrite obj_set_new by done.
    assert (forall tail, skip_space (join (member kt2 :: (member <$> kts)) ++ tail) = join (member kt2 :: (member <$> kts)) ++ tail) as Hskip
      by (intros tail; destruct kts; done).
    rewrite Hskip. rewrite IH; [by rewrite <-app_assoc|done| |].
    + rewrite fmap_app, <-app_assoc. done.
    + rewrite length_app in Hf. cbn [length] in Hf. lia.
Qed.

Lemma sequence_some {A} (l : list (option A)) r : sequence l = Some r <-> l = Some <$> r.
Proof.
  revert r. induction l as [|o l IH]; intros r; simpl.
  - split; [by intros [= <-]|by destruct r].
  - destruct o as [a|]; [|split; [done|by destruct r]]. destruct (sequence l) as [r'|] eqn:E.
    + split; [intros [= <-]; rewrite fmap_cons; f_equal; by apply IH|].
      destruct r as [|b r]; [done|]. rewrite fmap_cons. intros [= -> Hl]. apply IH in Hl. congruence.
    + split; [done|]. destruct r as [|b r]; [done|]. rewrite fmap_cons. intros [= -> Hl]. apply IH in Hl. done.
Qed.

Lemma sort_by_fmap {A B} (f : A -> B) (key : B -> list Z) l :
  sort_by key (f <$> l) = f <$> sort_by (fun a => key (f a)) l.
Proof.
  assert (forall x m, insert_by key (f x) (f <$> m) = f <$> insert_by (fun a => key (f a)) x m) as Hi.
  { intros x m. induction m as [|y m IH]; [done|]. rewrite fmap_cons. cbn [insert_by]. case_match; [done|].
    rewrite fmap_cons. by f_equal. }
  induction l as [|x l IH]; [done|]. rewrite fmap_cons. cbn [sort_by]. by rewrite IH, Hi.
Qed.

Lemma digit_cases d : 0 <= d < 10 -> d ∈ [0; 1; 2; 3; 4; 5; 6; 7; 8; 9].
Proof. intros Hd. rewrite !elem_of_cons. lia. Qed.

(** A digit starts a number, and so does a minus sign before one. *)
Lemma scan_digit d f s :
  0 <= d < 10 ->
  scan_value None (S f) (digit_char d :: s) = Some (scan_number false (digit_char d :: s)) /\
  scan_value None (S f) (45 :: digit_char d :: s) = Some (scan_number true (digit_char d :: s)).
Proof.
  intros Hd%digit_cases. repeat (apply elem_of_cons in Hd as [->|Hd]; [split; reflexivity|]). by apply elem_of_nil in Hd.
Qed.

Lemma decimal_reads z :
  (length (decimal (Z.abs z)) <= int_max_str_digits)%nat -> exists t, int_repr z = Some t /\ reads_as t (JInt z).
Proof.
  intros Hl. unfold int_repr. destruct (Nat.ltb_spec int_max_str_digits (length (decimal (Z.abs z)))); [lia|].
  eexists. split; [done|].
  destruct (digits_of_shape (S (Z.to_nat (Z.log2 (Z.abs z)))) (Z.abs z) []) as (d & ds & E & Hd & Hds & _);
    [apply decimal_bound; lia|lia|done|].
  assert (decimal (Z.abs z) = d :: ds) as Ed by exact E. clear E.
  assert (forall neg rest, delimited rest -> scan_number neg (digit_char d :: (digit_char <$> ds) ++ rest) =
    Ok (JInt (if neg then - Z.abs z else Z.abs z), rest)) as Hn.
  { intros neg rest Hr. rewrite <-(scan_number_decimal neg (Z.abs z) rest) by (done || lia). by rewrite Ed. }
  rewrite Ed, fmap_cons. split.
  - destruct (Z.ltb_spec z 0); eexists _, _; (split; [reflexivity|]); [done|]. unfold is_space, digit_char.
    split; [|lia]. repeat match goal with |- context [?a =? ?b] => destruct (Z.eqb_spec a b); [lia|] end. done.
  - intros [|f] rest Hr Hf; [lia|]. destruct (scan_digit d f ((digit_char <$> ds) ++ rest) Hd) as [H1 H2].
    destruct (Z.ltb_spec z 0); cbn [app]; rewrite ?H1, ?H2, Hn by done; do 4 f_equal; lia.
Qed.

Lemma literal_reads v t :
  (v, t) ∈ [(JNull, py "null"); (JBool true, py "true"); (JBool false, py "false")] -> reads_as t v.
Proof.
  intros Hv. split.
  - repeat (apply elem_of_cons in Hv as [[= -> ->]|Hv]; [by eexists _, _|]). by apply elem_of_nil in Hv.
  - intros [|f] rest _ Hf; [lia|].
    repeat (apply elem_of_cons in Hv as [[= -> ->]|Hv]; [reflexivity|]). by apply elem_of_nil in Hv.
Qed.

(** The text of a nonempty list of parts starts like its first part. *)
Lemma join_skip t v ts rest : reads_as t v -> skip_space (join (t :: ts) ++ rest) = join (t :: ts) ++ rest.
Proof. intros [(c & t' & -> & Hc & _) _]. destruct ts; simpl; by rewrite Hc. Qed.

Lemma join_starts t v ts rest c :
  reads_as t v -> c = 93 \/ c = 125 -> starts c (join (t :: ts) ++ rest) = None.
Proof.
  intros [(d & t' & -> & _ & Hd & Hd') _] Hc. assert (d <> c) as Hne by lia. apply Z.eqb_neq in Hne.
  destruct ts; simpl; by rewrite Hne.
Qed.

Lemma json_reads v : json_plain v = true -> exists t, json_dumps v = Some t /\ reads_as t (json_sort v).
Proof.
  induction v as [|[]|z|l|s|l IH|o IH] using json_ind'; cbn [json_plain json_dumps json_sort]; intros Hp.
  1-3: eexists; (split; [reflexivity|]); apply literal_reads; rewrite !elem_of_cons; auto.
  - apply Nat.leb_le in Hp. by apply decimal_reads.
  - done.
  - eexists. split; [reflexivity|]. split; [by eexists _, _|]. intros [|f] rest _ Hf; [lia|].
    unfold quote. cbn [app scan_value Z.eqb Pos.eqb]. rewrite <-app_assoc. cbn [app]. by rewrite scan_quoted.
  - assert (exists ts, json_dumps <$> l = Some <$> ts /\ Forall2 reads_as ts (json_sort <$> l)) as (ts & Hts & Hr).
    { induction IH as [|v l Hv Hl IHl]; [by exists []|]. cbn [forallb] in Hp. bool_hyps.
      destruct Hv as (t & Ht & Htv); [done|]. destruct IHl as (ts & Hts & Hall); [done|].
      exists (t :: ts). rewrite !fmap_cons, Ht, Hts. split; [done|]. by constructor. }
    apply sequence_some in Hts. rewrite Hts. eexists. split; [reflexivity|]. split; [by eexists _, _|].
    intros [|f] rest Hd Hf; [lia|]. cbn [app] in *. rewrite <-app_assoc in *. cbn [scan_value deeper Z.eqb Pos.eqb app length] in *.
    destruct Hr as [|t v ts vs Htv Hr]; [done|].
    rewrite (join_skip t v), (join_starts t v) by auto. rewrite (scan_items_join _ (v :: vs)); [done|by constructor|done|lia].
  - bool_hyps. set (o' := (fun kv => (kv.1, json_sort kv.2)) <$> o).
    assert (exists z : list (pystr * pystr * json), o' = (fun x => (x.1.1, x.2)) <$> z /\
      sequence ((fun kv => (fun t => (kv.1, t)) <$> json_dumps kv.2) <$> o) = Some (fst <$> z) /\
      Forall (fun x => member_as x.1 (x.1.1, x.2)) z) as (z & Ho' & Hseq & Hz).
    { subst o'. clear -IH H1. induction IH as [|[k v] o Hv Ho IHo]; [by exists []|]. cbn [forallb fst snd] in *. bool_hyps.
      destruct Hv as (t & Ht & Htv); [done|]. destruct IHo as (z & Ho' & Hseq & Hz); [done|].
      exists ((k, t, json_sort v) :: z). rewrite !fmap_cons, Ho'. cbn [fst snd sequence]. rewrite Ht. cbn [fmap option_fmap option_map].
      unfold fmap in Hseq |- *. rewrite Hseq. split_and!; try done. constructor; [|done]. by split_and!. }
    rewrite Hseq. eexists. split; [reflexivity|]. split; [by eexists _, _|].
    rewrite Ho', !sort_by_fmap. set (zs := sort_by (fun x => x.1.1) z).
    change (sort_by (fun a : pystr * pystr * json => (a.1.1, a.2).1) z) with zs.
    assert (Permutation z zs) as Hperm by apply sort_by_perm.
    intros [|f] rest Hd Hf; [lia|]. cbn [app] in *. rewrite <-app_assoc in *. cbn [scan_value deeper Z.eqb Pos.eqb app length] in *.
    assert (NoDup ((fun x : pystr * pystr * json => (x.1.1, x.2)) <$> zs).*1) as Hnd.
    { rewrite <-Hperm, <-Ho'. unfold o'. rewrite <-list_fmap_compose. exact H0. }
    assert (Forall2 member_as (fst <$> zs) ((fun x => (x.1.1, x.2)) <$> zs)) as Hall.
    { rewrite Hperm in Hz. clear -Hz. induction Hz; [constructor|]. rewrite !fmap_cons. by constructor. }
    clearbody zs. destruct zs as [|x zs]; [done|]. rewrite !fmap_cons in *.
    assert (forall tail, skip_space (join (member x.1 :: (member <$> (fst <$> zs))) ++ tail) =
        join (member x.1 :: (member <$> (fst <$> zs))) ++ tail /\
      starts 125 (join (member x.1 :: (member <$> (fst <$> zs))) ++ tail) = None) as Hskip by (intros; destruct zs; done).
    destruct (Hskip (125 :: rest)) as [-> ->]. rewrite <-fmap_cons in *.
    rewrite (scan_members_join _ _ f [] rest Hall); [done|done|done|lia].
Qed.

Lemma json_dumps_loads v : json_plain v = true -> exists t, json_dumps v = Some t /\ json_loads t = Ok (json_sort v).
Proof.
  intros (t & Ht & Htv)%json_reads. exists t. split; [done|]. unfold json_loads, json_loads_within.
  pose proof (reads_as_skip t _ [] Htv) as Hs. rewrite app_nil_r in Hs. rewrite Hs.
  destruct Htv as [_ Hscan]. specialize (Hscan (scan_fuel t) [] I). rewrite app_nil_r in Hscan.
  by rewrite Hscan by (unfold scan_fuel; lia).
Qed.
End Roundtrip.
