(* ===== verification/Container.v ===== *)
(** The encrypted container: typed payload values, canonical JSON, key derivation
    and sealing, and the envelope that is written to disk (container.py,
    [_validate_seed_public_key_pair] to [_build_v2_envelope], without storage). *)

From S2P Require Import Prelude PyVal Interfaces SignedUpdate Base64 Json.

Open Scope Z_scope.

(** * Third-party cryptography *)

(** [hash_secret_raw(secret, salt, ...)] of [argon2] with the wallet's fixed cost
    parameters; [None]: it raises. *)
Class Kdf := { argon2id : bytes -> bytes -> option bytes }.

Class KdfLaws `{Kdf} : Prop := {
  argon2id_length secret salt key : argon2id secret salt = Some key -> length key = 32%nat;
  argon2id_total secret salt : length salt = 16%nat -> is_Some (argon2id secret salt);
}.

(** [ChaCha20_Poly1305] of [Crypto.Cipher] with a 24-byte nonce (XChaCha20):
    [encrypt_and_digest] and [decrypt_and_verify]; [None]: it raises. *)
Class Aead := {
  aead_seal : bytes -> bytes -> bytes -> bytes -> option (bytes * bytes);     (* key nonce aad plaintext *)
  aead_open : bytes -> bytes -> bytes -> bytes -> bytes -> option bytes;      (* key nonce aad ciphertext tag *)
}.

Class AeadLaws `{Aead} : Prop := {
  aead_seal_total key nonce aad plain :
    length key = 32%nat -> length nonce = 24%nat -> is_Some (aead_seal key nonce aad plain);
  aead_seal_length key nonce aad plain ct tag :
    aead_seal key nonce aad plain = Some (ct, tag) -> length ct = length plain /\ length tag = 16%nat;
  aead_open_seal key nonce aad plain ct tag :
    aead_seal key nonce aad plain = Some (ct, tag) -> aead_open key nonce aad ct tag = Some plain;
  aead_seal_open key nonce aad plain ct tag :
    aead_open key nonce aad ct tag = Some plain -> aead_seal key nonce aad plain = Some (ct, tag);
}.

(** * Constants *)

Definition CURRENT_FORMAT_VERSION : Z := 2.
Definition _FORMAT : pystr := py "decent-wallet".
Definition _ALGORITHM : pystr := py "xchacha20-poly1305".
Definition _KDF_MEMORY_KIB : Z := 64 * 1024.
Definition _KDF_TIME_COST : Z := 3.
Definition _KDF_PARALLELISM : Z := 4.
Definition _SALT_LENGTH : nat := 16.
Definition _NONCE_LENGTH : nat := 24.
Definition _TAG_LENGTH : nat := 16.
Definition _MAX_CONTAINER_BYTES : Z := 16 * 1024 * 1024.
Definition _MIN_PASSWORD_LENGTH : nat := 16.

(** * Python dicts with string keys, read from JSON *)

(** [o.get(k)] *)
Fixpoint obj_get {A} (k : pystr) (o : list (pystr * A)) : option A :=
  match o with
  | [] => None
  | kv :: o' => if bool_decide (kv.1 = k) then Some kv.2 else obj_get k o'
  end.

(** [set(o) == set(ks)] *)
Definition obj_keys_are {A} (o : list (pystr * A)) (ks : list pystr) : bool :=
  forallb (fun kv => bool_decide (kv.1 ∈ ks)) o && forallb (fun k => bool_decide (k ∈ o.*1)) ks.

Definition is_str (v : option json) (s : pystr) : bool :=
  match v with Some (JStr t) => bool_decide (t = s) | _ => false end.

Section Codec.
Context `{PyFloat}.

(** [v == n] for an integer [n]. *)
Definition json_num_is (v : option json) (n : Z) : bool :=
  match v with
  | Some (JInt z) => z =? n
  | Some (JBool b) => (if b then 1 else 0) =? n
  | Some (JFloat l) => match float_integer l with Some z => z =? n | None => false end
  | _ => false
  end.

Definition _b64_decode (value : option json) (expected_length : option nat) : res bytes :=
  match value with
  | Some (JStr s) =>
      match b64decode s with
      | None => Err InvalidContainer
      | Some b =>
          raise_if match expected_length with Some n => negb (length b =? n)%nat | None => false end with InvalidContainer;
          Ok b
      end
  | _ => Err InvalidContainer
  end.

Definition _canonical_json (value : json) : res bytes :=
  match json_dumps value with
  | None => Err InvalidContainer
  | Some t => of_option InvalidContainer (utf8_encode t)
  end.

(** * Payload values *)

Definition typed (kind : pystr) (v : json) : json := JObj [(py "t", JStr kind); (py "v", v)].

(** The [(key, encoded value)] pair of a map item. *)
Definition pair_json (kv : pystr * json) : json := JArr [JStr kv.1; kv.2].

Section Items.
Context (encode : pyval -> res json) (decode : json -> res pyval).

(** The key and the encoded value of an item of a mapping. *)
Definition encode_item (kv : pyval * pyval) : res (pystr * json) :=
  match kv.1 with
  | PStr k => let* j := encode kv.2 in Ok (k, j)
  | _ => Err InvalidContainer
  end.

(** The previous key of a map must come before the next one. *)
Definition key_after (previous : option pystr) (key : pystr) : bool :=
  match previous with Some p => negb (lex_leb key p) | None => true end.

(** The loop over the pairs of an encoded map. *)
Fixpoint decode_items (previous : option pystr) (l : list json) : res (list (pyval * pyval)) :=
  match l with
  | [] => Ok []
  | JArr [JStr key; x] :: l' =>
      raise_if negb (key_after previous key) with InvalidContainer;
      let* v := decode x in
      let* r := decode_items (Some key) l' in
      Ok ((PStr key, v) :: r)
  | _ => Err InvalidContainer
  end.

(** The typed values other than null. *)
Definition decode_typed (kind raw : json) : res pyval :=
  match kind with
  | JStr k =>
      if bool_decide (k = py "null") then Err InvalidContainer
      else if bool_decide (k = py "bool") then match raw with JBool b => Ok (PBool b) | _ => Err InvalidContainer end
      else if bool_decide (k = py "str") then match raw with JStr s => Ok (PStr s) | _ => Err InvalidContainer end
      else if bool_decide (k = py "int") then match raw with JInt z => Ok (PInt z) | _ => Err InvalidContainer end
      else if bool_decide (k = py "bytes") then let* b := _b64_decode (Some raw) None in Ok (PBytes b)
      else if bool_decide (k = py "list") then
        match raw with JArr l => let* r := res_map decode l in Ok (PList r) | _ => Err InvalidContainer end
      else if bool_decide (k = py "map") then
        match raw with JArr l => let* r := decode_items None l in Ok (PDict r) | _ => Err InvalidContainer end
      else Err InvalidContainer
  | _ => Err InvalidContainer
  end.
End Items.

Fixpoint _encode_value (value : pyval) : res json :=
  match value with
  | PNone => Ok (JObj [(py "t", JStr (py "null"))])
  | PBool b => Ok (typed (py "bool") (JBool b))
  | PStr s => Ok (typed (py "str") (JStr s))
  | PInt z => Ok (typed (py "int") (JInt z))
  | PBytes b => Ok (typed (py "bytes") (JStr (_b64_encode b)))
  | PList l => let* items := res_map _encode_value l in Ok (typed (py "list") (JArr items))
  | PDict d =>
      let* items := res_map (encode_item _encode_value) d in
      Ok (typed (py "map") (JArr (pair_json <$> sort_by fst items)))
  | PTuple _ | POther _ _ _ => Err InvalidContainer
  end.

(** [_decode_value]; an object with distinct keys among "t" and "v" has one of the
    three shapes below. *)
Fixpoint _decode_value (value : json) : res pyval :=
  match value with
  | JObj [(k, kind)] =>
      raise_if negb (bool_decide (k = py "t")) || negb (is_str (Some kind) (py "null")) with InvalidContainer;
      Ok PNone
  | JObj [(k1, v1); (k2, v2)] =>
      if bool_decide (k1 = py "t") && bool_decide (k2 = py "v") then decode_typed _decode_value v1 v2
      else if bool_decide (k1 = py "v") && bool_decide (k2 = py "t") then decode_typed _decode_value v2 v1
      else Err InvalidContainer
  | _ => Err InvalidContainer
  end.

(** * Passwords and sealing *)

Context `{Kdf} `{Aead}.

(** [_validate_password(password, confirmation)]; [None] for an absent confirmation. *)
Definition _validate_password (password : pyval) (confirmation : option pyval) : res pystr :=
  match password with
  | PStr p =>
      raise_if (length p <? _MIN_PASSWORD_LENGTH)%nat with PasswordPolicyError;
      raise_if match confirmation with
               | None | Some PNone => false
               | Some (PStr c) => negb (bool_decide (p = c))
               | Some _ => true
               end with PasswordPolicyError;
      Ok p
  | _ => Err PasswordPolicyError
  end.

Definition _derive_kek (password : pystr) (salt : bytes) : res bytes :=
  match utf8_encode password with
  | None => Err UnlockFailed
  | Some secret => of_option UnlockFailed (argon2id secret salt)
  end.

Definition _kdf_header (salt : bytes) : json :=
  JObj [(py "algorithm", JStr (py "argon2id")); (py "memory_kib", JInt _KDF_MEMORY_KIB);
        (py "time_cost", JInt _KDF_TIME_COST); (py "parallelism", JInt _KDF_PARALLELISM);
        (py "salt", JStr (_b64_encode salt))].

Definition _wrap_aad (kdf : json) (version : Z) : res bytes :=
  _canonical_json (JObj [(py "format", JStr _FORMAT); (py "version", JInt version); (py "kdf", kdf)]).

Definition _payload_aad (payload_info : json) (version : Z) : res bytes :=
  _canonical_json (JObj [(py "format", JStr _FORMAT); (py "version", JInt version); (py "payload", payload_info)]).

(** The public part of a sealed box. *)
Definition cipher_info (nonce : pystr) : json := JObj [(py "algorithm", JStr _ALGORITHM); (py "nonce", JStr nonce)].

Definition sealed_json (nonce : pystr) (ciphertext tag : bytes) : json :=
  JObj [(py "algorithm", JStr _ALGORITHM); (py "nonce", JStr nonce); (py "ciphertext", JStr (_b64_encode ciphertext));
        (py "tag", JStr (_b64_encode tag))].

(** [_seal(key, plaintext, aad)] with the nonce drawn from [secrets.token_bytes]. *)
Definition _seal (key plaintext aad nonce : bytes) : res json :=
  match aead_seal key nonce aad plaintext with
  | None => Err StorageFailure
  | Some (ciphertext, tag) => Ok (sealed_json (_b64_encode nonce) ciphertext tag)
  end.

(** [_open(key, ciphertext, tag, info, aad)]; [info] is given by its two fields. *)
Definition _open (key ciphertext tag : bytes) (algorithm nonce : option json) (aad : res bytes) : res bytes :=
  let* aad := aad in
  raise_if negb (is_str algorithm _ALGORITHM) with InvalidContainer;
  let* nonce := _b64_decode nonce (Some _NONCE_LENGTH) in
  of_option UnlockFailed (aead_open key nonce aad ciphertext tag).

(** [_make_payload(dek, payload)] with its fresh nonce. *)
Definition _make_payload (dek : bytes) (payload : pyval) (nonce : bytes) (version : Z) : res json :=
  let* encoded := _encode_value payload in
  let* encoded := _canonical_json encoded in
  let* nonce' := _b64_decode (Some (JStr (_b64_encode nonce))) (Some _NONCE_LENGTH) in
  match _payload_aad (cipher_info (_b64_encode nonce)) version with
  | Err _ => Err StorageFailure
  | Ok aad => _seal dek encoded aad nonce'
  end.

(** [_wrap_dek(kek, dek, kdf)] with its fresh nonce. *)
Definition _wrap_dek (kek dek : bytes) (kdf : json) (nonce : bytes) (version : Z) : res json :=
  let* aad := _wrap_aad kdf version in
  _seal kek dek aad nonce.

(** * The container *)

Definition _serialize (envelope : json) : res bytes := _canonical_json envelope.

Definition check_box (decoded : list (pystr * json)) (name : pystr) : res unit :=
  match obj_get name decoded with
  | Some (JObj value) =>
      raise_if negb (obj_keys_are value [py "algorithm"; py "nonce"; py "ciphertext"; py "tag"]) with InvalidContainer;
      raise_if negb (is_str (obj_get (py "algorithm") value) _ALGORITHM) with UnsupportedFormat;
      let* _ := _b64_decode (obj_get (py "nonce") value) (Some _NONCE_LENGTH) in
      let* _ := _b64_decode (obj_get (py "ciphertext") value) None in
      let* _ := _b64_decode (obj_get (py "tag") value) (Some _TAG_LENGTH) in
      Ok tt
  | _ => Err InvalidContainer
  end.

(** The checks [_parse_container] makes of the decoded value. *)
Definition check_container (decoded : json) (expected_version : Z) : res unit :=
  match decoded with
  | JObj d =>
      raise_if negb (obj_keys_are d [py "format"; py "version"; py "kdf"; py "wrap"; py "payload"]) with InvalidContainer;
      raise_if negb (is_str (obj_get (py "format") d) _FORMAT) with InvalidContainer;
      match obj_get (py "version") d, obj_get (py "kdf") d with
      | Some (JInt version), kdf =>
          raise_if negb (version =? expected_version) with UnsupportedFormat;
          match kdf with
          | Some (JObj k) =>
              raise_if negb (obj_keys_are k [py "algorithm"; py "memory_kib"; py "time_cost"; py "parallelism"; py "salt"])
                with InvalidContainer;
              raise_if negb (is_str (obj_get (py "algorithm") k) (py "argon2id")) ||
                       negb (json_num_is (obj_get (py "memory_kib") k) _KDF_MEMORY_KIB) ||
                       negb (json_num_is (obj_get (py "time_cost") k) _KDF_TIME_COST) ||
                       negb (json_num_is (obj_get (py "parallelism") k) _KDF_PARALLELISM) with UnsupportedFormat;
              let* _ := _b64_decode (obj_get (py "salt") k) (Some _SALT_LENGTH) in
              let* _ := check_box d (py "wrap") in
              check_box d (py "payload")
          | _ => Err InvalidContainer
          end
      | _, _ => Err InvalidContainer
      end
  | _ => Err InvalidContainer
  end.

(** [json.loads] raises [JSONDecodeError] on malformed text, [ValueError] on an integer
    with too many digits and [RecursionError] on values nested beyond what the
    interpreter's stack allows; the last two are not caught. *)
Definition parse_container_within (depth : option nat) (raw : bytes) (expected_version : Z) : res json :=
  raise_if _MAX_CONTAINER_BYTES <? Z.of_nat (length raw) with InvalidContainer;
  let* decoded :=
    match utf8_decode raw with
    | None => Err InvalidContainer
    | Some t => match json_loads_within depth t with Err JSONDecodeError => Err InvalidContainer | r => r end
    end in
  let* _ := check_container decoded expected_version in
  Ok decoded.

(** The same on a stack that suffices. *)
Definition _parse_container (raw : bytes) (expected_version : Z) : res json :=
  parse_container_within None raw expected_version.

(** [value[name]] of a JSON object; the envelopes it is used on have the key. *)
Definition item (value : json) (name : pystr) : res json :=
  match value with JObj o => of_option KeyError (obj_get name o) | _ => Err TypeError end.

(** What the readers take from a sealed box: its algorithm, nonce, ciphertext and tag. *)
Definition read_box (box : json) : res (json * json * bytes * bytes) :=
  let* algorithm := item box (py "algorithm") in
  let* nonce := item box (py "nonce") in
  let* ct := item box (py "ciphertext") in
  let* ciphertext := _b64_decode (Some ct) None in
  let* tg := item box (py "tag") in
  let* tag := _b64_decode (Some tg) (Some _TAG_LENGTH) in
  Ok (algorithm, nonce, ciphertext, tag).

Definition _decode_payload (envelope : json) (dek : bytes) (version : Z) : res (list (pyval * pyval)) :=
  let* payload := item envelope (py "payload") in
  let* (algorithm, nonce, ciphertext, tag) := read_box payload in
  let info := JObj [(py "algorithm", algorithm); (py "nonce", nonce)] in
  let* plaintext := _open dek ciphertext tag (Some algorithm) (Some nonce) (_payload_aad info version) in
  let* decoded :=
    match utf8_decode plaintext with
    | None => Err UnlockFailed
    | Some t => match json_loads t with Err JSONDecodeError => Err UnlockFailed | r => r end
    end in
  let* result := _decode_value decoded in
  match result with PDict d => Ok d | _ => Err UnlockFailed end.

Definition _unlock_envelope (envelope : json) (password : pystr) (version : Z) : res (bytes * list (pyval * pyval)) :=
  let* kdf := item envelope (py "kdf") in
  let* sl := item kdf (py "salt") in
  let* salt := _b64_decode (Some sl) (Some _SALT_LENGTH) in
  let* kek := _derive_kek password salt in
  let* wrap := item envelope (py "wrap") in
  let* (algorithm, nonce, ciphertext, tag) := read_box wrap in
  let* dek := _open kek ciphertext tag (Some algorithm) (Some nonce) (_wrap_aad kdf version) in
  raise_if negb (length dek =? _KEY_LENGTH)%nat with UnlockFailed;
  let* payload := _decode_payload envelope dek version in
  Ok (dek, payload).

Definition envelope_json (kdf wrap payload : json) : json :=
  JObj [(py "format", JStr _FORMAT); (py "version", JInt CURRENT_FORMAT_VERSION); (py "kdf", kdf); (py "wrap", wrap);
        (py "payload", payload)].

(** [_build_v2_envelope] with the two nonces it draws. *)
Definition _build_v2_envelope (password : pystr) (dek : bytes) (kdf : json) (payload : pyval)
    (wrap_nonce payload_nonce : bytes) : res json :=
  let* sl := item kdf (py "salt") in
  let* salt := _b64_decode (Some sl) (Some _SALT_LENGTH) in
  let* kek := _derive_kek password salt in
  let* wrapped := _wrap_dek kek dek kdf wrap_nonce CURRENT_FORMAT_VERSION in
  let* sealed := _make_payload dek payload payload_nonce CURRENT_FORMAT_VERSION in
  Ok (envelope_json kdf wrapped sealed).
End Codec.
