(* ===== verification/ContainerFacts.v ===== *)
(** The container codec: storable values and the container as a whole survive being
    written and read back; what a parsed and unlocked container guarantees. *)

From S2P Require Import Prelude PyVal Interfaces SignedUpdate Base64 Json JsonFacts Container.

Open Scope Z_scope.

Lemma parse_container_unfold `{PyFloat} raw expected_version :
  _parse_container raw expected_version =
  (raise_if _MAX_CONTAINER_BYTES <? Z.of_nat (length raw) with InvalidContainer;
   let* decoded :=
     match utf8_decode raw with
     | None => Err InvalidContainer
     | Some t => match json_loads t with Err JSONDecodeError => Err InvalidContainer | r => r end
     end in
   let* _ := check_container decoded expected_version in
   Ok decoded).
Proof. reflexivity. Qed.

(** * Encodable text *)

Lemma utf8_encode_scalar s : forallb is_scalar s = true -> is_Some (utf8_encode s).
Proof.
  induction s as [|c s IH]; cbn [forallb utf8_encode]; intros Hs; [by eexists|]. bool_hyps.
  destruct IH as [r ->]; [done|]. unfold utf8_char. match goal with Hc : is_scalar c = true |- _ => rewrite Hc end.
  cbn [negb]. repeat case_match; eauto.
Qed.

Lemma scalar_str_ok s : forallb is_scalar s = true -> str_ok s = true.
Proof.
  unfold str_ok. rewrite !forallb_forall. intros Hs c Hc. specialize (Hs c Hc). unfold is_scalar in Hs. by bool_hyps; apply Z.leb_le.
Qed.

Lemma ascii_scalar s : forallb (fun c => (0 <=? c) && (c <? 128)) s = true -> forallb is_scalar s = true.
Proof.
  rewrite !forallb_forall. intros Hs c Hc. specialize (Hs c Hc). bool_hyps. unfold is_scalar, is_surrogate.
  destruct (Z.leb_spec 0 c), (Z.ltb_spec c 1114112), (Z.leb_spec 55296 c); try lia; done.
Qed.

Lemma b64_scalar b : forallb is_scalar (_b64_encode b) = true.
Proof. apply ascii_scalar, b64_encode_ascii. Qed.

Lemma hex_digit_scalar n : 0 <= n < 16 -> is_scalar (hex_digit n) = true.
Proof.
  intros Hn. unfold hex_digit, is_scalar, is_surrogate. destruct (Z.ltb_spec n 10).
  - destruct (Z.leb_spec 0 (48 + n)), (Z.ltb_spec (48 + n) 1114112), (Z.leb_spec 55296 (48 + n)); try lia; done.
  - destruct (Z.leb_spec 0 (87 + n)), (Z.ltb_spec (87 + n) 1114112), (Z.leb_spec 55296 (87 + n)); try lia; done.
Qed.

Lemma escape_scalar c : is_scalar c = true -> forallb is_scalar (escape_char c) = true.
Proof.
  intros Hc. assert (0 <= c) as H0. { unfold is_scalar in Hc. bool_hyps. done. }
  unfold escape_char. repeat (case_match; [done|]). cbn [forallb]. case_match; cbn [forallb]; [|by rewrite Hc].
  bool_hyps. rewrite !hex_digit_scalar by (Z.to_euclidean_division_equations; lia). done.
Qed.

Lemma quote_scalar s : forallb is_scalar s = true -> forallb is_scalar (quote s) = true.
Proof.
  intros Hs. unfold quote. cbn [forallb]. rewrite forallb_app. cbn. rewrite andb_true_r.
  induction s as [|c s IH]; [done|]. cbn [forallb] in Hs. bool_hyps. rewrite bind_cons, forallb_app, escape_scalar by done.
  by apply IH.
Qed.

Lemma join_scalar parts : Forall (fun p => forallb is_scalar p = true) parts -> forallb is_scalar (join parts) = true.
Proof.
  induction 1 as [|p [|q r] Hp Hr IH]; [done|done|]. rewrite join_cons, forallb_app, Hp. cbn [forallb]. by rewrite IH.
Qed.

(** Every string and key of the value can be encoded. *)
Fixpoint json_scalar (v : json) : bool :=
  match v with
  | JStr s => forallb is_scalar s
  | JArr l => forallb json_scalar l
  | JObj o => forallb (fun kv => forallb is_scalar kv.1 && json_scalar kv.2) o
  | _ => true
  end.

Lemma int_repr_scalar z t : int_repr z = Some t -> forallb is_scalar t = true.
Proof.
  unfold int_repr. case_match; [done|]. intros [= <-]. rewrite forallb_app.
  assert (forallb is_scalar (digit_char <$> decimal (Z.abs z)) = true) as ->; [|by case_match].
  destruct (digits_of_shape _ (Z.abs z) [] (decimal_bound (Z.abs z) (Z.abs_nonneg z))) as (d & ds & Hd & Hd10 & Hds & _); [lia|done|].
  unfold decimal. rewrite Hd. apply forallb_forall. intros c Hc. apply list_elem_of_In, list_elem_of_fmap in Hc as (e & -> & He).
  assert (0 <= e < 10) as Hr. { apply elem_of_cons in He as [->|He]; [done|]. by eapply (proj1 (Forall_forall _ _)) in Hds. }
  assert (forallb is_scalar [digit_char e] = true) as Hs; [|by cbn in Hs; rewrite andb_true_r in Hs].
  apply ascii_scalar. cbn. unfold digit_char. lia.
Qed.

Section Text.
Context `{PyFloat}.

Lemma sequence_Forall {A B} (P : B -> Prop) (f : A -> option B) l r :
  sequence (f <$> l) = Some r -> (forall x y, x ∈ l -> f x = Some y -> P y) -> Forall P r.
Proof.
  intros Hr%sequence_some HP. apply Forall_forall. intros y Hy.
  assert (Some y ∈ f <$> l) as (x & Hx & Hin)%list_elem_of_fmap by (rewrite Hr; by apply list_elem_of_fmap_2). eauto.
Qed.

Lemma json_dumps_scalar v t : json_plain v = true -> json_scalar v = true -> json_dumps v = Some t -> forallb is_scalar t = true.
Proof.
  revert t. induction v as [|[]|z|l|s|l IH|o IH] using json_ind'; cbn [json_plain json_scalar json_dumps]; intros t Hp Hs Ht.
  1-3: by injection Ht as <-.
  - by eapply int_repr_scalar.
  - done.
  - injection Ht as <-. by apply quote_scalar.
  - apply fmap_Some in Ht as (parts & Hparts & ->). cbn [forallb]. rewrite forallb_app, join_scalar; [done|].
    eapply sequence_Forall; [exact Hparts|]. intros x y Hx Hy. rewrite Forall_forall in IH.
    rewrite forallb_forall in Hp, Hs. apply (IH x Hx); [apply Hp|apply Hs|done]; by apply list_elem_of_In.
  - apply fmap_Some in Ht as (items & Hitems & ->). cbn [forallb]. rewrite forallb_app, join_scalar; [done|]. apply andb_prop in Hp as [_ Hp].
    rewrite Forall_fmap, <-sort_by_perm. eapply sequence_Forall; [exact Hitems|]. intros [k x] [k' y] Hx Hy.
    apply fmap_Some in Hy as (t & Ht & [= -> ->]). rewrite Forall_forall in IH. rewrite forallb_forall in Hp, Hs.
    apply list_elem_of_In in Hx as Hx'. specialize (Hp _ Hx'). specialize (Hs _ Hx'). cbn in *. bool_hyps.
    change (forallb is_scalar (quote k ++ 58 :: t) = true). rewrite forallb_app, quote_scalar by done. cbn [forallb]. by rewrite (IH _ Hx _).
Qed.

(** What is written as canonical JSON is read back with its keys in order. *)
Lemma canonical_json_reads v :
  json_plain v = true -> json_scalar v = true ->
  exists b t, _canonical_json v = Ok b /\ utf8_decode b = Some t /\ json_loads t = Ok (json_sort v).
Proof.
  intros Hp Hs. destruct (json_dumps_loads v Hp) as (t & Ht & Hl).
  destruct (utf8_encode_scalar t) as [b Hb]; [by eapply json_dumps_scalar|].
  exists b, t. unfold _canonical_json. rewrite Ht, Hb. split; [done|]. split; [by apply utf8_decode_encode|done].
Qed.
End Text.

(** * Payload values *)

Definition key_str (k : pyval) : pystr := match k with PStr s => s | _ => [] end.
Definition is_key (k : pyval) : bool := match k with PStr s => forallb is_scalar s | _ => false end.

(** What the container stores: nothing but null, booleans, integers within the limit on
    digits, encodable text, bytes, lists, and maps with distinct text keys. *)
Fixpoint value_ok (v : pyval) : bool :=
  match v with
  | PNone | PBool _ | PBytes _ => true
  | PInt z => (length (decimal (Z.abs z)) <=? int_max_str_digits)%nat
  | PStr s => forallb is_scalar s
  | PList l => forallb value_ok l
  | PDict d => bool_decide (NoDup (key_str <$> d.*1)) && forallb (fun kv => is_key kv.1 && value_ok kv.2) d
  | PTuple _ | POther _ _ _ => false
  end.

(** The value with the items of its maps in key order. *)
Fixpoint value_sort (v : pyval) : pyval :=
  match v with
  | PList l => PList (value_sort <$> l)
  | PDict d => PDict (sort_by (fun kv => key_str kv.1) ((fun kv => (kv.1, value_sort kv.2)) <$> d))
  | _ => v
  end.

Section Values.
Context `{PyFloat}.

Lemma decode_pairs prev items vs :
  Forall2 (fun kj kv => kv.1 = PStr kj.1 /\ _decode_value kj.2 = Ok kv.2) items vs -> StronglySorted (key_lt fst) items ->
  Forall (fun kj => key_after prev kj.1 = true) items ->
  decode_items _decode_value prev (pair_json <$> items) = Ok vs.
Proof.
  intros Hvs. revert prev. induction Hvs as [|[k j] [k' v] items vs [Hk Hj] Hvs IH]; intros prev Hs Ha; [done|].
  cbn [fst snd] in *. subst k'. inversion_clear Hs as [|? ? Hs' Hlt]. inversion_clear Ha as [|? ? Hk Ha'].
  cbn. cbn in Hk. rewrite Hk, Hj. cbn. rewrite IH; [done..|]. eapply Forall_impl; [exact Hlt|]. intros [k2 j2]. by unfold key_lt, lex_ltb.
Qed.

(** [j] is the stored form of [v]. *)
Definition stores (j : json) (v : pyval) : Prop :=
  json_plain j = true /\ json_scalar j = true /\ json_sort j = j /\ _decode_value j = Ok (value_sort v).

Lemma typed_stored kind j :
  forallb is_scalar kind = true -> json_plain j = true -> json_scalar j = true -> json_sort j = j ->
  json_plain (typed kind j) = true /\ json_scalar (typed kind j) = true /\ json_sort (typed kind j) = typed kind j.
Proof.
  intros Hk Hp Hs Hj. unfold typed. cbn [json_plain json_scalar json_sort]. rewrite bool_decide_eq_true_2 by (clear; repeat constructor; set_solver).
  rewrite !fmap_cons. cbn [forallb fst snd json_plain json_scalar json_sort]. rewrite Hj, Hp, Hs, Hk, (scalar_str_ok kind) by done.
  by repeat split.
Qed.

Lemma stored_list js vs :
  Forall2 stores js vs ->
  json_plain (JArr js) = true /\ json_scalar (JArr js) = true /\ json_sort (JArr js) = JArr js /\
  res_map _decode_value js = Ok (value_sort <$> vs).
Proof.
  induction 1 as [|j v js vs (Hp & Hs & Hj & Hd) Hjs (IHp & IHs & IHj & IHd)]; [done|].
  cbn [json_plain json_scalar json_sort forallb res_map] in *. rewrite fmap_cons. injection IHj as IHj.
  rewrite Hp, Hs, Hj, Hd, IHd, IHp, IHs, IHj. done.
Qed.

Lemma res_map_stored {A B} (f : A -> res B) (P : B -> A -> Prop) l :
  Forall (fun x => exists y, f x = Ok y /\ P y x) l -> exists r, res_map f l = Ok r /\ Forall2 P r l.
Proof.
  induction 1 as [|x l (y & Hy & HP) _ (r & Hr & IH)]; [by exists []|]. exists (y :: r). cbn. rewrite Hy, Hr. by repeat constructor.
Qed.

(** An encoded item of a mapping. *)
Definition item_stores (kj : pystr * json) (kv : pyval * pyval) : Prop :=
  kv.1 = PStr kj.1 /\ forallb is_scalar kj.1 = true /\ stores kj.2 kv.2.

Lemma stored_dict items d :
  NoDup (key_str <$> d.*1) -> Forall2 item_stores items d ->
  let j := JArr (pair_json <$> sort_by fst items) in
  json_plain j = true /\ json_scalar j = true /\ json_sort j = j /\
  decode_items _decode_value None (pair_json <$> sort_by fst items) =
    Ok (sort_by (fun kv => key_str kv.1) ((fun kv => (kv.1, value_sort kv.2)) <$> d)).
Proof.
  intros Hnd Hst j.
  assert (Forall (fun kj => forallb is_scalar kj.1 = true /\ json_plain kj.2 = true /\ json_scalar kj.2 = true /\ json_sort kj.2 = kj.2)
    (sort_by fst items)) as Hitems.
  { rewrite <-sort_by_perm. eapply Forall2_Forall_l; [exact Hst|]. apply Forall_true. intros kv kj (_ & Hk & Hp & Hs & Hj & _). done. }
  assert (NoDup items.*1) as Hkeys.
  { clear -Hnd Hst. replace (items.*1) with (key_str <$> d.*1); [done|].
    induction Hst as [|[k j] [k' v] items d (Hk & _) Hst IH]; [done|]. rewrite !fmap_cons in *. cbn in Hk. subst. f_equal. apply IH.
    by inversion Hnd. }
  repeat split.
  - apply forallb_forall. intros x Hx. apply list_elem_of_In, list_elem_of_fmap in Hx as ([k v] & -> & Hin).
    eapply Forall_forall in Hitems as (Hk & Hp & _); [|exact Hin]. cbn in Hk, Hp.
    change (str_ok k && (json_plain v && true) = true). by rewrite Hp, scalar_str_ok.
  - apply forallb_forall. intros x Hx. apply list_elem_of_In, list_elem_of_fmap in Hx as ([k v] & -> & Hin).
    eapply Forall_forall in Hitems as (Hk & _ & Hs & _); [|exact Hin]. cbn in Hk, Hs.
    change (forallb is_scalar k && (json_scalar v && true) = true). by rewrite Hs, Hk.
  - unfold j. cbn [json_sort]. f_equal. rewrite <-list_fmap_compose. apply list_fmap_ext. intros i [k v] Hi%list_elem_of_lookup_2.
    eapply Forall_forall in Hitems as (_ & _ & _ & Hj); [|exact Hi]. cbn [fst snd] in Hj.
    unfold pair_json, compose. cbn [json_sort fst snd]. by rewrite !fmap_cons, Hj.
  - apply decode_pairs.
    + eapply (sort_by_Forall2 (fun kj kv => kv.1 = PStr kj.1 /\ _decode_value kj.2 = Ok kv.2)).
      * intros kj kv [Hk _]. by rewrite Hk.
      * apply Forall2_fmap_r. eapply Forall2_impl; [exact Hst|]. intros kj kv (Hk & _ & _ & _ & _ & Hd). done.
    + apply sorted_strict; [|apply sort_by_sorted]. by rewrite <-sort_by_perm.
    + by apply Forall_true.
Qed.

(** Every storable value is encoded to JSON that decodes to the value with its maps in
    key order. *)
Lemma encode_value_stores v : value_ok v = true -> exists j, _encode_value v = Ok j /\ stores j v.
Proof.
  induction v as [|b|z|b|s|l IH|l IH|d IH|i n] using pyval_ind'; cbn [value_ok]; intros Hv; try done.
  - eexists. split; [done|]. by vm_compute.
  - eexists. split; [done|]. destruct b; by vm_compute.
  - eexists. split; [done|]. destruct (typed_stored (py "int") (JInt z)) as (? & ? & ?); done.
  - eexists. split; [done|]. destruct (typed_stored (py "bytes") (JStr (_b64_encode b))) as (? & ? & ?); [done|apply scalar_str_ok|..]; try apply b64_scalar; [done|].
    repeat split; try done. cbn. by rewrite b64decode_encode.
  - eexists. split; [done|]. destruct (typed_stored (py "str") (JStr s)) as (? & ? & ?); [done|by apply scalar_str_ok|done..].
  - destruct (res_map_stored _encode_value stores l) as (js & Hjs & Hst).
    { rewrite Forall_forall in IH |- *. intros x Hx. apply IH; [done|]. eapply forallb_forall in Hv; [done|]. by apply list_elem_of_In. }
    destruct (stored_list _ _ Hst) as (Hp & Hs & Hj & Hd). destruct (typed_stored (py "list") (JArr js)) as (? & ? & ?); [done..|].
    exists (typed (py "list") (JArr js)). cbn [_encode_value]. rewrite Hjs. split; [done|]. repeat split; try done.
    change (_decode_value (typed (py "list") (JArr js))) with (let* r := res_map _decode_value js in Ok (PList r)). by rewrite Hd.
  - apply andb_prop in Hv as [Hnd Hv]. apply bool_decide_eq_true in Hnd.
    destruct (res_map_stored (encode_item _encode_value) item_stores d) as (items & Hitems & Hst).
    { rewrite Forall_forall in IH |- *. intros [k x] Hx. apply IH in Hx as IHx. eapply forallb_forall in Hv; [|by apply list_elem_of_In].
      cbn in Hv, IHx. bool_hyps. destruct IHx as [_ (j & Hj & Hst)]; [done|]. destruct k; try done.
      exists (s, j). unfold encode_item. cbn. by rewrite Hj. }
    destruct (stored_dict _ _ Hnd Hst) as (Hp & Hs & Hj & Hd).
    destruct (typed_stored (py "map") (JArr (pair_json <$> sort_by fst items))) as (? & ? & ?); [done..|].
    eexists. cbn [_encode_value]. rewrite Hitems. split; [done|]. repeat split; try done.
    match goal with |- _decode_value (typed _ (JArr ?l)) = _ => change (_decode_value (typed (py "map") (JArr l))) with
      (let* r := decode_items _decode_value None l in Ok (PDict r)) end. by rewrite Hd.
Qed.
End Values.

(** * The container *)

Section Sealed.
Context `{PyFloat} `{KdfLaws} `{AeadLaws}.

(** The key-derivation header for a salt, as built or as read back. *)
Definition kdf_for (salt : bytes) (kdf : json) : Prop :=
  kdf = _kdf_header salt \/ kdf = json_sort (_kdf_header salt).

Lemma kdf_sorted salt kdf : kdf_for salt kdf -> json_sort kdf = json_sort (_kdf_header salt).
Proof. by intros [-> | ->]. Qed.

Lemma kdf_salt salt kdf : kdf_for salt kdf -> item kdf (py "salt") = Ok (JStr (_b64_encode salt)).
Proof. by intros [-> | ->]. Qed.

Lemma wrap_aad_sorted salt kdf version : kdf_for salt kdf -> _wrap_aad kdf version = _wrap_aad (_kdf_header salt) version.
Proof. by intros [-> | ->]. Qed.

Lemma sealed_sorted nonce ct tag :
  json_sort (sealed_json nonce ct tag) =
  JObj [(py "algorithm", JStr _ALGORITHM); (py "ciphertext", JStr (_b64_encode ct)); (py "nonce", JStr nonce); (py "tag", JStr (_b64_encode tag))].
Proof. reflexivity. Qed.

Lemma envelope_sorted kdf wrap payload :
  json_sort (envelope_json kdf wrap payload) =
  JObj [(py "format", JStr _FORMAT); (py "kdf", json_sort kdf); (py "payload", json_sort payload);
        (py "version", JInt CURRENT_FORMAT_VERSION); (py "wrap", json_sort wrap)].
Proof. reflexivity. Qed.

Lemma b64_decode_encode b n : match n with Some n => length b = n | None => True end -> _b64_decode (Some (JStr (_b64_encode b))) n = Ok b.
Proof. cbn. rewrite b64decode_encode. intros Hn. destruct n as [n|]; [|done]. by rewrite Hn, Nat.eqb_refl. Qed.

(** An object with literal keys is plain and encodable when its values are. *)
Lemma obj_text o :
  NoDup o.*1 -> Forall (fun kv => forallb is_scalar kv.1 = true /\ json_plain kv.2 = true /\ json_scalar kv.2 = true) o ->
  json_plain (JObj o) = true /\ json_scalar (JObj o) = true.
Proof.
  intros Hnd Ho. cbn [json_plain json_scalar]. rewrite bool_decide_eq_true_2 by done.
  split; [|]; apply forallb_forall; intros kv Hkv%list_elem_of_In; eapply Forall_forall in Ho as (Hk & Hp & Hs); try exact Hkv.
  - change (str_ok kv.1 && json_plain kv.2 = true). by rewrite Hp, scalar_str_ok.
  - change (forallb is_scalar kv.1 && json_scalar kv.2 = true). by rewrite Hs, Hk.
Qed.

Lemma str_text s : forallb is_scalar s = true -> json_plain (JStr s) = true /\ json_scalar (JStr s) = true.
Proof. intros Hs. split; [by apply scalar_str_ok|done]. Qed.

Ltac literal_keys := apply (bool_decide_unpack _); cbn; exact I.
Ltac obj_text := apply obj_text; [literal_keys|repeat constructor; try done].

Lemma kdf_text salt kdf : kdf_for salt kdf -> json_plain kdf = true /\ json_scalar kdf = true.
Proof. intros [-> | ->]; [unfold _kdf_header|change (json_sort (_kdf_header salt)) with
  (JObj [(py "algorithm", JStr (py "argon2id")); (py "memory_kib", JInt _KDF_MEMORY_KIB); (py "parallelism", JInt _KDF_PARALLELISM);
         (py "salt", JStr (_b64_encode salt)); (py "time_cost", JInt _KDF_TIME_COST)])]; obj_text; apply str_text, b64_scalar. Qed.

Lemma sealed_text nonce ct tag : json_plain (sealed_json (_b64_encode nonce) ct tag) = true /\ json_scalar (sealed_json (_b64_encode nonce) ct tag) = true.
Proof. unfold sealed_json. obj_text; apply str_text, b64_scalar. Qed.

Lemma envelope_text salt kdf nw cw tw np cp tp :
  kdf_for salt kdf ->
  let env := envelope_json kdf (sealed_json (_b64_encode nw) cw tw) (sealed_json (_b64_encode np) cp tp) in
  json_plain env = true /\ json_scalar env = true.
Proof.
  intros Hk env. pose proof (kdf_text _ _ Hk). pose proof (sealed_text nw cw tw). pose proof (sealed_text np cp tp).
  apply obj_text; [literal_keys|]. repeat (constructor; [split; [done|]; assumption || done|]). constructor.
Qed.

Lemma wrap_aad_ok salt kdf version :
  kdf_for salt kdf -> version = CURRENT_FORMAT_VERSION -> exists aad, _wrap_aad kdf version = Ok aad.
Proof.
  intros Hk ->. destruct (canonical_json_reads (JObj [(py "format", JStr _FORMAT); (py "version", JInt CURRENT_FORMAT_VERSION); (py "kdf", kdf)]))
    as (b & _ & Hb & _); [..|by exists b]; obj_text; by eapply kdf_text.
Qed.

Lemma payload_aad_ok nonce : exists aad, _payload_aad (cipher_info (_b64_encode nonce)) CURRENT_FORMAT_VERSION = Ok aad.
Proof.
  assert (json_plain (cipher_info (_b64_encode nonce)) = true /\ json_scalar (cipher_info (_b64_encode nonce)) = true) as [Hp Hs].
  { unfold cipher_info. obj_text; apply str_text, b64_scalar. }
  destruct (canonical_json_reads (JObj [(py "format", JStr _FORMAT); (py "version", JInt CURRENT_FORMAT_VERSION);
    (py "payload", cipher_info (_b64_encode nonce))])) as (b & _ & Hb & _); [..|by exists b]; obj_text.
Qed.

Lemma seal_ok key nonce aad plain :
  length key = 32%nat -> length nonce = 24%nat ->
  exists ct tag, aead_seal key nonce aad plain = Some (ct, tag) /\ length tag = 16%nat /\ aead_open key nonce aad ct tag = Some plain.
Proof.
  intros Hk Hn. destruct (aead_seal_total key nonce aad plain Hk Hn) as [[ct tag] Hs]. exists ct, tag.
  destruct (aead_seal_length _ _ _ _ _ _ Hs) as [_ Ht]. split; [done|]. split; [done|]. by apply aead_open_seal.
Qed.

(** The parts of a container built from a password, a data key and a payload. *)
Record sealed_parts (password : pystr) (salt dek : bytes) (payload : pyval) (wrap_nonce payload_nonce : bytes)
    (cw tw cp tp : bytes) : Prop := {
  sp_wrap : exists kek aad, _derive_kek password salt = Ok kek /\
    _wrap_aad (_kdf_header salt) CURRENT_FORMAT_VERSION = Ok aad /\ length tw = 16%nat /\ aead_open kek wrap_nonce aad cw tw = Some dek;
  sp_payload : exists aad j text b, _payload_aad (cipher_info (_b64_encode payload_nonce)) CURRENT_FORMAT_VERSION = Ok aad /\
    length tp = 16%nat /\ aead_open dek payload_nonce aad cp tp = Some b /\
    utf8_decode b = Some text /\ json_loads text = Ok j /\ _decode_value j = Ok (value_sort payload);
}.

Lemma build_sealed password secret salt kdf dek d wrap_nonce payload_nonce :
  utf8_encode password = Some secret -> length salt = 16%nat -> kdf_for salt kdf -> length dek = 32%nat ->
  length wrap_nonce = 24%nat -> length payload_nonce = 24%nat -> value_ok (PDict d) = true ->
  exists cw tw cp tp,
    _build_v2_envelope password dek kdf (PDict d) wrap_nonce payload_nonce =
      Ok (envelope_json kdf (sealed_json (_b64_encode wrap_nonce) cw tw) (sealed_json (_b64_encode payload_nonce) cp tp)) /\
    sealed_parts password salt dek (PDict d) wrap_nonce payload_nonce cw tw cp tp.
Proof.
  intros Hp Hsalt Hkdf Hdek Hnw Hnp Hd.
  destruct (argon2id_total secret salt Hsalt) as [kek Hkek]. pose proof (argon2id_length _ _ _ Hkek) as Hlk.
  assert (_derive_kek password salt = Ok kek) as Hder by (unfold _derive_kek; by rewrite Hp, Hkek).
  destruct (wrap_aad_ok salt kdf CURRENT_FORMAT_VERSION Hkdf eq_refl) as [aw Haw].
  destruct (payload_aad_ok payload_nonce) as [ap Hap].
  destruct (encode_value_stores _ Hd) as (j & Hj & Hjp & Hjs & Hjj & Hdec).
  destruct (canonical_json_reads j Hjp Hjs) as (b & text & Hb & Htext & Hload). rewrite Hjj in Hload.
  destruct (seal_ok kek wrap_nonce aw dek Hlk Hnw) as (cw & tw & Hcw & Htw & How).
  destruct (seal_ok dek payload_nonce ap b Hdek Hnp) as (cp & tp & Hcp & Htp & Hop).
  exists cw, tw, cp, tp. split.
  - unfold _build_v2_envelope. rewrite (kdf_salt _ _ Hkdf). cbn [res_bind].
    rewrite b64_decode_encode by done. cbn [res_bind]. rewrite Hder. cbn [res_bind]. unfold _wrap_dek. rewrite Haw. cbn [res_bind].
    unfold _seal at 1. rewrite Hcw. cbn [res_bind]. unfold _make_payload. rewrite Hj. cbn [res_bind]. rewrite Hb. cbn [res_bind].
    rewrite b64_decode_encode by done. cbn [res_bind]. rewrite Hap. unfold _seal. by rewrite Hcp.
  - split.
    + exists kek, aw. by rewrite <-(wrap_aad_sorted _ _ _ Hkdf).
    + by exists ap, j, text, b.
Qed.

Lemma check_box_sealed d name nonce ct tag :
  obj_get name d = Some (json_sort (sealed_json (_b64_encode nonce) ct tag)) -> length nonce = 24%nat -> length tag = 16%nat ->
  check_box d name = Ok tt.
Proof.
  intros Hd Hn Ht. unfold check_box. rewrite Hd, sealed_sorted.
  change ((let* _ := _b64_decode (Some (JStr (_b64_encode nonce))) (Some _NONCE_LENGTH) in
          let* _ := _b64_decode (Some (JStr (_b64_encode ct))) None in
          let* _ := _b64_decode (Some (JStr (_b64_encode tag))) (Some _TAG_LENGTH) in Ok tt) = Ok tt).
  by rewrite !b64_decode_encode by done.
Qed.

Lemma check_container_sealed salt kdf nw cw tw np cp tp :
  kdf_for salt kdf -> length salt = 16%nat -> length nw = 24%nat -> length tw = 16%nat -> length np = 24%nat -> length tp = 16%nat ->
  check_container (json_sort (envelope_json kdf (sealed_json (_b64_encode nw) cw tw) (sealed_json (_b64_encode np) cp tp)))
    CURRENT_FORMAT_VERSION = Ok tt.
Proof.
  intros Hkdf Hs Hnw Htw Hnp Htp. rewrite envelope_sorted, (kdf_sorted _ _ Hkdf).
  match goal with |- check_container (JObj ?d) _ = _ => change (check_container (JObj d) CURRENT_FORMAT_VERSION) with
    (let* _ := _b64_decode (Some (JStr (_b64_encode salt))) (Some _SALT_LENGTH) in
     let* _ := check_box d (py "wrap") in check_box d (py "payload")) end.
  rewrite b64_decode_encode by done. cbn [res_bind]. by rewrite (check_box_sealed _ (py "wrap") nw cw tw), (check_box_sealed _ (py "payload") np cp tp).
Qed.

Lemma read_box_sealed nonce ct tag :
  length tag = 16%nat ->
  read_box (json_sort (sealed_json (_b64_encode nonce) ct tag)) = Ok (JStr _ALGORITHM, JStr (_b64_encode nonce), ct, tag).
Proof.
  intros Ht. rewrite sealed_sorted.
  match goal with |- read_box (JObj ?o) = _ => change (read_box (JObj o)) with
    (let* ciphertext := _b64_decode (Some (JStr (_b64_encode ct))) None in
     let* tag := _b64_decode (Some (JStr (_b64_encode tag))) (Some _TAG_LENGTH) in
     Ok (JStr _ALGORITHM, JStr (_b64_encode nonce), ciphertext, tag)) end.
  by rewrite !b64_decode_encode by done.
Qed.

Lemma open_sealed key ct tag nonce aad plain :
  length nonce = 24%nat -> aead_open key nonce aad ct tag = Some plain ->
  _open key ct tag (Some (JStr _ALGORITHM)) (Some (JStr (_b64_encode nonce))) (Ok aad) = Ok plain.
Proof. intros Hn Ho. unfold _open. cbn [res_bind is_str]. rewrite bool_decide_eq_true_2, b64_decode_encode by done. cbn. by rewrite Ho. Qed.

Lemma unlock_sealed password salt dek d d' wrap_nonce payload_nonce cw tw cp tp :
  sealed_parts password salt dek (PDict d) wrap_nonce payload_nonce cw tw cp tp -> value_sort (PDict d) = PDict d' ->
  length salt = 16%nat -> length dek = 32%nat -> length wrap_nonce = 24%nat -> length payload_nonce = 24%nat ->
  _unlock_envelope (json_sort (envelope_json (_kdf_header salt) (sealed_json (_b64_encode wrap_nonce) cw tw)
    (sealed_json (_b64_encode payload_nonce) cp tp))) password CURRENT_FORMAT_VERSION = Ok (dek, d').
Proof.
  intros [(kek & aw & Hder & Haw & Htw & How) (ap & j & text & b & Hap & Htp & Hop & Htext & Hload & Hdec)] Hd' Hsalt Hdek Hnw Hnp.
  set (kdf := json_sort (_kdf_header salt)). assert (kdf_for salt kdf) as Hkdf by by right.
  rewrite envelope_sorted. unfold _unlock_envelope, _decode_payload. fold kdf.
  change (item (JObj _) (py "kdf")) with (Ok kdf). cbn [res_bind]. rewrite (kdf_salt _ _ Hkdf). cbn [res_bind].
  rewrite b64_decode_encode by done. cbn [res_bind]. rewrite Hder. cbn [res_bind].
  change (item (JObj _) (py "wrap")) with (Ok (json_sort (sealed_json (_b64_encode wrap_nonce) cw tw))). cbn [res_bind].
  rewrite read_box_sealed by done. cbn [res_bind]. rewrite (wrap_aad_sorted _ _ _ Hkdf), Haw, (open_sealed _ _ _ _ _ dek) by done.
  cbn [res_bind]. rewrite Hdek. change (negb (32 =? _KEY_LENGTH)%nat) with false. cbn [res_bind].
  change (item (JObj _) (py "payload")) with (Ok (json_sort (sealed_json (_b64_encode payload_nonce) cp tp))). cbn [res_bind].
  rewrite read_box_sealed by done. cbn [res_bind]. fold (cipher_info (_b64_encode payload_nonce)). rewrite Hap, (open_sealed _ _ _ _ _ b) by done.
  cbn [res_bind]. rewrite Htext, Hload. cbn [res_bind]. by rewrite Hdec, Hd'.
Qed.

(** What is built for a password is written as bytes that, unless they exceed the size
    limit, parse and unlock to the data key and the payload. *)
Lemma build_reopens password secret salt kdf dek d d' wrap_nonce payload_nonce :
  utf8_encode password = Some secret -> length salt = 16%nat -> kdf_for salt kdf -> length dek = 32%nat ->
  length wrap_nonce = 24%nat -> length payload_nonce = 24%nat -> value_ok (PDict d) = true -> value_sort (PDict d) = PDict d' ->
  exists envelope raw,
    _build_v2_envelope password dek kdf (PDict d) wrap_nonce payload_nonce = Ok envelope /\ _serialize envelope = Ok raw /\
    (Z.of_nat (length raw) <= _MAX_CONTAINER_BYTES ->
     exists parsed, _parse_container raw CURRENT_FORMAT_VERSION = Ok parsed /\
       _unlock_envelope parsed password CURRENT_FORMAT_VERSION = Ok (dek, d')).
Proof.
  intros Hp Hsalt Hkdf Hdek Hnw Hnp Hd Hd'.
  destruct (build_sealed _ _ _ _ _ _ _ _ Hp Hsalt Hkdf Hdek Hnw Hnp Hd) as (cw & tw & cp & tp & Hbuild & Hparts).
  destruct (envelope_text salt kdf wrap_nonce cw tw payload_nonce cp tp Hkdf) as [Hpl Hsc].
  destruct (canonical_json_reads _ Hpl Hsc) as (raw & text & Hraw & Htext & Hload).
  eexists _, raw. split; [exact Hbuild|]. split; [exact Hraw|]. intros Hsize. eexists.
  pose proof Hparts as [(? & ? & _ & _ & Htw & _) (? & ? & ? & ? & _ & Htp & _)]. split.
  - rewrite parse_container_unfold. destruct (Z.ltb_spec _MAX_CONTAINER_BYTES (Z.of_nat (length raw))); [lia|].
    rewrite Htext, Hload. cbn [res_bind]. by rewrite (check_container_sealed salt).
  - rewrite envelope_sorted, (kdf_sorted _ _ Hkdf), <-(envelope_sorted (_kdf_header salt)). by eapply unlock_sealed.
Qed.
End Sealed.
