(* ===== verification/ContainerSafety.v ===== *)
(** What reading a container promises: the round trip of a built container, the checks
    a parsed one has passed, what an unlocked one must have been sealed with, and the
    exceptions the readers raise. *)

From S2P Require Import Prelude PyVal Interfaces SignedUpdate Base64 Json JsonFacts Container ContainerFacts.

Open Scope Z_scope.

(** * Errors of the JSON reader *)

Definition json_error (e : exn) : Prop := e = JSONDecodeError \/ e = ValueError.

Definition opt_errs {A} (o : option (res A)) : Prop := match o with Some r => errs json_error r | None => True end.

Lemma scan_string_errs s : errs json_error (scan_string s).
Proof.
  assert (forall n s, (length s <= n)%nat -> errs json_error (scan_string s)) as Hall; [|by apply (Hall (length s))].
  assert (forall c r, errs json_error r -> errs json_error (cons_char c r)) as Hcons by by intros c [[]|].
  clear s. intros n. induction n as [|n IH]; intros s Hn; (destruct s as [|c s]; [by left|]); simpl in Hn; [lia|].
  assert (forall r, (length r <= length s)%nat -> errs json_error (scan_string r)) as Hs by (intros r Hr; apply IH; lia).
  cbn [scan_string]. repeat (case_match; try (by left); try done); apply Hcons, Hs; subst; simpl; lia.
Qed.

Lemma scan_number_errs neg s : errs json_error (scan_number neg s).
Proof. unfold scan_number. repeat (case_match; try done); (by left) || (by right). Qed.

Lemma scan_atom_errs s : errs json_error (scan_atom s).
Proof. unfold scan_atom. repeat case_match; try done; apply scan_number_errs. Qed.

Lemma scan_errs fuel :
  (forall s, opt_errs (scan_value None fuel s)) /\ (forall acc s, opt_errs (scan_items None fuel acc s)) /\
  (forall acc s, opt_errs (scan_members None fuel acc s)).
Proof.
  induction fuel as [|f (IHv & IHi & IHm)]; [done|]. repeat split.
  - intros [|c s]; [by left|]. cbn [scan_value deeper]. pose proof (scan_string_errs s). repeat case_match; try done; apply scan_atom_errs.
  - intros acc s. cbn [scan_items]. specialize (IHv s). repeat (case_match; try (by left); try done); apply IHi.
  - intros acc s. cbn [scan_members]. destruct (starts 34 s) as [r0|]; [|by left].
    pose proof (scan_string_errs r0). destruct (scan_string r0) as [[k r]|]; [|done]. destruct (starts 58 (skip_space r)) as [r1|]; [|by left].
    specialize (IHv (skip_space r1)). repeat (case_match; try (by left); try done); apply IHm.
Qed.

Lemma json_loads_errs s : errs json_error (json_loads s).
Proof.
  unfold json_loads, json_loads_within. destruct (scan_errs (scan_fuel (skip_space s))) as [Hv _]. specialize (Hv (skip_space s)).
  repeat case_match; try done; by left.
Qed.

Section Reading.
Context `{PyFloat}.

(** * Parsed containers *)

(** A box the readers can take apart. *)
Definition box_checked (box : json) : Prop :=
  exists nonce ciphertext tag, read_box box = Ok (JStr _ALGORITHM, nonce, ciphertext, tag) /\ length tag = _TAG_LENGTH /\
    exists n, _b64_decode (Some nonce) (Some _NONCE_LENGTH) = Ok n /\ length n = _NONCE_LENGTH.

(** A key-derivation header with the wallet's cost parameters and a full salt. *)
Definition kdf_checked (kdf : json) : Prop :=
  exists k, kdf = JObj k /\ is_str (obj_get (py "algorithm") k) (py "argon2id") = true /\
    json_num_is (obj_get (py "memory_kib") k) _KDF_MEMORY_KIB = true /\
    json_num_is (obj_get (py "time_cost") k) _KDF_TIME_COST = true /\
    json_num_is (obj_get (py "parallelism") k) _KDF_PARALLELISM = true /\
    exists s salt, item kdf (py "salt") = Ok s /\ _b64_decode (Some s) (Some _SALT_LENGTH) = Ok salt /\ length salt = _SALT_LENGTH.

Definition container_checked (version : Z) (envelope : json) : Prop :=
  item envelope (py "format") = Ok (JStr _FORMAT) /\ item envelope (py "version") = Ok (JInt version) /\
  (exists kdf, item envelope (py "kdf") = Ok kdf /\ kdf_checked kdf) /\
  (exists box, item envelope (py "wrap") = Ok box /\ box_checked box) /\
  (exists box, item envelope (py "payload") = Ok box /\ box_checked box).

Lemma b64_decode_ok v n b :
  _b64_decode v n = Ok b -> exists s, v = Some (JStr s) /\ match n with Some k => length b = k | None => True end.
Proof.
  unfold _b64_decode. destruct v as [[]|]; try done. destruct (b64decode s) as [b'|]; [|done]. intros Hb. inv_ok.
  exists s. split; [done|]. destruct n as [n|]; [|done]. bool_hyps. done.
Qed.

Lemma is_str_ok v s : is_str v s = true -> v = Some (JStr s).
Proof. destruct v as [[]|]; try done. cbn. intros. bool_hyps. by subst. Qed.

Lemma check_box_ok d name : check_box d name = Ok tt -> exists box, item (JObj d) name = Ok box /\ box_checked box.
Proof.
  unfold check_box, item. destruct (obj_get name d) as [[]|] eqn:E; try done. intros Hc. inv_ok. bool_hyps.
  apply is_str_ok in G0. eexists. split; [done|]. unfold box_checked, read_box, item. rewrite G0.
  destruct (b64_decode_ok _ _ _ H0) as (sn & Hn & Hln). destruct (b64_decode_ok _ _ _ H1) as (sc & Hct & _).
  destruct (b64_decode_ok _ _ _ H2) as (st & Ht & Hlt). rewrite Hn, Hct, Ht in *. cbn [of_option res_bind]. rewrite H1. cbn [res_bind].
  rewrite H2. cbn [res_bind]. eexists _, _, _. split; [done|]. split; [done|]. eauto.
Qed.

Lemma check_container_ok envelope version : check_container envelope version = Ok tt -> container_checked version envelope.
Proof.
  unfold check_container. destruct envelope as [| | | | | |d]; try done. intros Hc. inv_ok. bool_hyps. apply is_str_ok in G0.
  destruct (obj_get (py "version") d) as [[]|] eqn:Ev; try done. inv_ok. bool_hyps. subst.
  destruct (obj_get (py "kdf") d) as [[]|] eqn:Ek; try done. inv_ok. bool_hyps.
  unfold container_checked, item at 1 2 3. rewrite G0, Ev, Ek. destruct x0. apply check_box_ok in H1, Hc.
  split; [done|]. split; [done|]. split; [|by split]. eexists. split; [done|]. eexists. do 5 (split; [done|]).
  destruct (b64_decode_ok _ _ _ H0) as (s & Hs & Hl). unfold item. rewrite Hs in *. cbn. eauto.
Qed.

Lemma parse_container_ok raw version envelope :
  _parse_container raw version = Ok envelope ->
  Z.of_nat (length raw) <= _MAX_CONTAINER_BYTES /\ container_checked version envelope /\
  exists text, utf8_decode raw = Some text /\ json_loads text = Ok envelope.
Proof.
  rewrite parse_container_unfold. intros Hp. inv_ok. bool_hyps. split; [done|]. destruct x0.
  split; [by apply check_container_ok|]. destruct (utf8_decode raw) as [t|]; [|done]. exists t. split; [done|].
  destruct (json_loads t) as [|[]]; done.
Qed.
End Reading.

(** * Exceptions *)

(** What [_parse_container] raises; [ValueError] is the limit on the digits of an integer. *)
Definition parse_error (e : exn) : Prop := e = InvalidContainer \/ e = UnsupportedFormat \/ e = ValueError.
Definition unlock_error (e : exn) : Prop := e = InvalidContainer \/ e = UnlockFailed \/ e = ValueError.

Lemma errs_mono {A} (P Q : exn -> Prop) (m : res A) : (forall e, P e -> Q e) -> errs P m -> errs Q m.
Proof. destruct m; simpl; auto. Qed.

(** Resolve the exceptions of a reader from those of its parts. *)
Ltac container_errs leaf :=
  repeat match goal with
  | |- errs _ (Ok _) => exact I
  | |- errs _ (Err _) => cbn; unfold parse_error, unlock_error; tauto
  | |- errs _ (res_bind _ _) => apply errs_bind; [|intros ? ?]
  | |- errs _ (if _ then _ else _) => apply errs_if; intros ?
  | |- errs _ (of_option _ _) => unfold of_option
  | |- errs _ _ => leaf
  | |- errs _ (match ?x with _ => _ end) => destruct x eqn:?
  end.

Section Errors.
Context `{PyFloat} `{Kdf} `{Aead}.

Lemma b64_decode_errs v n : errs (eq InvalidContainer) (_b64_decode v n).
Proof. unfold _b64_decode. repeat case_match; done. Qed.

Lemma canonical_json_errs v : errs (eq InvalidContainer) (_canonical_json v).
Proof. unfold _canonical_json. destruct (json_dumps v); [|done]. by destruct (utf8_encode l). Qed.

Lemma res_map_errs {A B} P (f : A -> res B) l : Forall (fun x => errs P (f x)) l -> errs P (res_map f l).
Proof. induction 1 as [|x l Hx Hl IH]; [done|]. cbn. apply errs_bind; [done|]. intros y _. apply errs_bind; [done|]. done. Qed.

(** The decoder raises [InvalidContainer] on a value, and on the elements and pairs of an array. *)
Definition decodes (j : json) : Prop :=
  errs (eq InvalidContainer) (_decode_value j) /\
  match j with
  | JArr l => Forall (fun x => errs (eq InvalidContainer) (_decode_value x)) l /\
              forall prev, errs (eq InvalidContainer) (decode_items _decode_value prev l)
  | _ => True
  end.

Lemma decode_typed_errs kind raw : decodes raw -> errs (eq InvalidContainer) (decode_typed _decode_value kind raw).
Proof.
  intros [_ Hraw]. unfold decode_typed. destruct kind; try done. repeat (apply errs_if; intros _); try done.
  1-3: by destruct raw.
  - apply errs_bind; [apply b64_decode_errs|done].
  - destruct raw; try done. apply errs_bind; [|done]. by apply res_map_errs, Hraw.
  - destruct raw; try done. apply errs_bind; [|done]. apply Hraw.
Qed.

Lemma decode_errs j : decodes j.
Proof.
  induction j as [| | | | |l IH|o IH] using json_ind'; try done.
  - split; [done|]. split; [eapply Forall_impl; [exact IH|]; by intros x []|].
    induction IH as [|x l [_ Hx] Hl IHl]; intros prev; [done|]. cbn [decode_items].
    destruct x as [| | | | |[|[] [|y [|]]]|]; try done. destruct Hx as [Hx _]. inversion_clear Hx as [|? ? _ Hy]. inversion_clear Hy as [|? ? Hy' _].
    apply errs_if; [done|]. intros _. apply errs_bind; [done|]. intros v _. apply errs_bind; [apply IHl|done].
  - split; [|done]. destruct o as [|[k1 v1] [|[k2 v2] [|]]]; try done; cbn [_decode_value].
    + by apply errs_if.
    + inversion_clear IH as [|? ? Hv1 IH2]. inversion_clear IH2 as [|? ? Hv2 _].
      repeat (apply errs_if; intros _); try done; by apply decode_typed_errs.
Qed.

Lemma decode_value_errs j : errs (eq InvalidContainer) (_decode_value j).
Proof. apply decode_errs. Qed.

(** Parsing raises nothing but the two container errors and the limit on integers. *)
Lemma parse_container_errs raw version : errs parse_error (_parse_container raw version).
Proof.
  rewrite parse_container_unfold. unfold check_container, check_box.
  container_errs ltac:(eapply errs_mono; [|apply b64_decode_errs]; unfold parse_error; naive_solver).
  all: match goal with E : json_loads ?t = Err ?e |- _ => pose proof (json_loads_errs t) as Hj; rewrite E in Hj end.
  all: destruct Hj as [Hj|Hj]; try discriminate Hj; subst; cbn; unfold parse_error; tauto.
Qed.

(** A limited stack only ever turns the outcome into [RecursionError]. *)
Lemma parse_within_eq depth raw version :
  parse_container_within depth raw version = Err RecursionError \/
  parse_container_within depth raw version = _parse_container raw version.
Proof.
  rewrite parse_container_unfold. unfold parse_container_within.
  destruct (_MAX_CONTAINER_BYTES <? Z.of_nat (length raw)); [by right|].
  destruct (utf8_decode raw) as [t|]; [|by right]. destruct (json_loads_within_eq depth t) as [-> | ->]; [by left|by right].
Qed.

(** A parsed container is unlocked or refused with a wallet error: no field is missing. *)
Lemma unlock_envelope_errs version envelope password :
  container_checked version envelope -> errs unlock_error (_unlock_envelope envelope password version).
Proof.
  intros (_ & _ & (kdf & Hk & k & -> & _ & _ & _ & _ & s & salt & Hs & Hsalt & _) & (wrap & Hw & nw & cw & tw & Hbw & _) & (box & Hp & np & cp & tp & Hbp & _)).
  assert (forall v n, errs unlock_error (_b64_decode v n)) as Hb64.
  { intros v n. eapply errs_mono; [|apply b64_decode_errs]. unfold unlock_error. naive_solver. }
  assert (forall v, errs unlock_error (_canonical_json v)) as Hcan.
  { intros v. eapply errs_mono; [|apply canonical_json_errs]. unfold unlock_error. naive_solver. }
  assert (forall v, errs unlock_error (_decode_value v)) as Hdec.
  { intros v. eapply errs_mono; [|apply decode_value_errs]. unfold unlock_error. naive_solver. }
  unfold _unlock_envelope, _derive_kek, _decode_payload, _open, _wrap_aad, _payload_aad.
  rewrite Hk. cbn [res_bind]. rewrite Hs. cbn [res_bind]. rewrite Hsalt. cbn [res_bind]. rewrite Hw, Hp. cbn [res_bind]. rewrite Hbw, Hbp. cbn [res_bind].
  container_errs ltac:(apply Hb64 || apply Hcan || apply Hdec).
  all: match goal with E : json_loads ?t = Err ?e |- _ => pose proof (json_loads_errs t) as Hj; rewrite E in Hj end.
  all: destruct Hj as [Hj|Hj]; try discriminate Hj; subst; cbn; unfold unlock_error; tauto.
Qed.
End Errors.

(** * Authenticity *)

(** The items of a map: text keys in strict order, and values that are [ok]. *)
Section Ordered.
Context (ok : pyval -> bool).
Fixpoint ordered_items (previous : option pystr) (d : list (pyval * pyval)) : bool :=
  match d with
  | [] => true
  | (PStr k, x) :: d' => key_after previous k && ok x && ordered_items (Some k) d'
  | _ => false
  end.
End Ordered.

(** Values of the payload language, with the items of every map in strict key order. *)
Fixpoint typed_value (v : pyval) : bool :=
  match v with
  | PList l => forallb typed_value l
  | PDict d => ordered_items typed_value None d
  | PTuple _ | POther _ _ _ => false
  | _ => true
  end.

(** What [j] and, for an array, its elements and pairs decode to. *)
Definition decodes_typed (j : json) : Prop :=
  (forall v, _decode_value j = Ok v -> typed_value v = true) /\
  match j with
  | JArr l => Forall (fun x => forall v, _decode_value x = Ok v -> typed_value v = true) l /\
              forall prev d, decode_items _decode_value prev l = Ok d -> ordered_items typed_value prev d = true
  | _ => True
  end.

Lemma decode_typed_typed kind raw v : decodes_typed raw -> decode_typed _decode_value kind raw = Ok v -> typed_value v = true.
Proof.
  intros [_ Hraw]. unfold decode_typed. destruct kind as [| | | |k| |]; try done.
  destruct (bool_decide (k = py "null")); [done|]. do 3 (match goal with |- (if ?c then _ else _) = _ -> _ => destruct c end;
    [destruct raw; try done; by intros [= <-]|]).
  destruct (bool_decide (k = py "bytes")); [intros Hd; by inv_ok|].
  destruct (bool_decide (k = py "list")); [|destruct (bool_decide (k = py "map")); [|done]]; destruct raw; try done; intros Hd; inv_ok.
  - destruct Hraw as [Hall _]. match goal with Hm : res_map _ _ = Ok ?r |- _ => apply res_map_ok in Hm end.
    apply forallb_forall. intros y Hy. apply list_elem_of_In, list_elem_of_lookup in Hy as [i Hi].
    eapply Forall2_lookup_r in Hi as (x' & Hx & Hdec); [|done]. eapply Forall_lookup_1 in Hall; [|exact Hx]. by apply Hall.
  - destruct Hraw as [_ Hitems]. by apply Hitems.
Qed.

Lemma decode_typed_all j : decodes_typed j.
Proof.
  induction j as [| | | | |l IH|o IH] using json_ind'; try done.
  - split; [done|]. split; [eapply Forall_impl; [exact IH|]; by intros x []|].
    induction IH as [|x l [_ Hx] Hl IHl]; intros prev d; [by intros [= <-]|]. cbn [decode_items].
    destruct x as [| | | | |[|[] [|y [|]]]|]; try done. destruct Hx as [Hx _]. inversion_clear Hx as [|? ? _ Hy]. inversion_clear Hy as [|? ? Hy' _].
    intros Hd. destruct (key_after prev s) eqn:Ek; [|done]. cbn [negb] in Hd. apply res_bind_ok in Hd as (v & Hv & Hd).
    apply res_bind_ok in Hd as (r & Hr & [= <-]). cbn [ordered_items]. by rewrite Ek, (Hy' v Hv), (IHl _ _ Hr).
  - split; [|done]. intros v. destruct o as [|[k1 v1] [|[k2 v2] [|]]]; try done; cbn [_decode_value].
    + case_match; [done|]. by intros [= <-].
    + inversion_clear IH as [|? ? Hv1 IH2]. inversion_clear IH2 as [|? ? Hv2 _].
      repeat case_match; try done; by apply decode_typed_typed.
Qed.

Section Authentic.
Context `{PyFloat} `{Kdf} `{AeadLaws}.

(** [box] holds [plain], sealed with [key] and bound to [aad]. *)
Definition seals (key : bytes) (aad : bytes) (box : json) (plain : bytes) : Prop :=
  exists nonce n ciphertext tag, read_box box = Ok (JStr _ALGORITHM, nonce, ciphertext, tag) /\
    _b64_decode (Some nonce) (Some _NONCE_LENGTH) = Ok n /\ aead_seal key n aad plain = Some (ciphertext, tag).

Lemma open_ok key ct tag algorithm nonce aad plain :
  _open key ct tag (Some algorithm) (Some nonce) aad = Ok plain ->
  algorithm = JStr _ALGORITHM /\ exists a n, aad = Ok a /\ _b64_decode (Some nonce) (Some _NONCE_LENGTH) = Ok n /\
    aead_seal key n a plain = Some (ct, tag).
Proof.
  unfold _open. intros Ho. inv_ok. bool_hyps. assert (algorithm = JStr _ALGORITHM) as -> by (destruct algorithm; try done; by bool_hyps; subst). split; [done|].
  eexists _, _. split; [reflexivity|]. split; [done|]. by apply aead_seal_open.
Qed.

(** What an unlocked payload was read from. *)
Definition payload_text (plain : bytes) (d : list (pyval * pyval)) : Prop :=
  exists text j, utf8_decode plain = Some text /\ json_loads text = Ok j /\ _decode_value j = Ok (PDict d).

Lemma decode_payload_sealed envelope dek version d :
  _decode_payload envelope dek version = Ok d ->
  exists box nonce aad plain, item envelope (py "payload") = Ok box /\
    item box (py "nonce") = Ok nonce /\
    _payload_aad (JObj [(py "algorithm", JStr _ALGORITHM); (py "nonce", nonce)]) version = Ok aad /\
    seals dek aad box plain /\ payload_text plain d.
Proof.
  unfold _decode_payload. intros Hd. apply res_bind_ok in Hd as (box & Hbox & Hd).
  apply res_bind_ok in Hd as ([[[algorithm nonce] ct] tag] & Hread & Hd). apply res_bind_ok in Hd as (plain & Hopen & Hd).
  destruct (open_ok _ _ _ _ _ _ _ Hopen) as (-> & aad & n & Haad & Hn & Hseal).
  exists box, nonce, aad, plain. split; [done|]. split; [|split; [done|split]].
  - unfold read_box in Hread. inv_ok. done.
  - by exists nonce, n, ct, tag.
  - apply res_bind_ok in Hd as (j & Hj & Hd). apply res_bind_ok in Hd as (v & Hv & Hd).
    destruct (utf8_decode plain) as [text|] eqn:Et; [|done]. exists text, j. split; [done|].
    destruct v; try done. injection Hd as ->. split; [|done]. destruct (json_loads text) as [|[]]; done.
Qed.

Lemma unlock_sealed_with envelope password version dek d :
  _unlock_envelope envelope password version = Ok (dek, d) ->
  length dek = _KEY_LENGTH /\
  (exists kdf s salt kek box aad, item envelope (py "kdf") = Ok kdf /\ item kdf (py "salt") = Ok s /\
     _b64_decode (Some s) (Some _SALT_LENGTH) = Ok salt /\ _derive_kek password salt = Ok kek /\
     item envelope (py "wrap") = Ok box /\ _wrap_aad kdf version = Ok aad /\ seals kek aad box dek) /\
  _decode_payload envelope dek version = Ok d.
Proof.
  unfold _unlock_envelope. intros Hu. apply res_bind_ok in Hu as (kdf & Hkdf & Hu). apply res_bind_ok in Hu as (s & Hs & Hu).
  apply res_bind_ok in Hu as (salt & Hsalt & Hu). apply res_bind_ok in Hu as (kek & Hkek & Hu). apply res_bind_ok in Hu as (box & Hbox & Hu).
  apply res_bind_ok in Hu as ([[[algorithm nonce] ct] tag] & Hread & Hu). apply res_bind_ok in Hu as (dek' & Hopen & Hu).
  destruct (negb (length dek' =? _KEY_LENGTH)%nat) eqn:El; [done|]. apply res_bind_ok in Hu as (d' & Hd & Hu).
  injection Hu as -> ->. bool_hyps. split; [done|]. split; [|done].
  destruct (open_ok _ _ _ _ _ _ _ Hopen) as (-> & aad & n & Haad & Hn & Hseal).
  exists kdf, s, salt, kek, box, aad. repeat (split; [done|]). by exists nonce, n, ct, tag.
Qed.
End Authentic.

(** * The text that sealed boxes are bound to *)

(** The canonical text of a header: the format name, the field [field] with the text
    [inner], and the version, with their keys in order. *)
Definition header_text (field inner digits : pystr) : pystr :=
  123 :: quote (py "format") ++ 58 :: quote (py "decent-wallet") ++ 44 :: quote field ++ 58 :: inner ++
  44 :: quote (py "version") ++ 58 :: digits ++ [125].

(** [aad] is the encoding of such a header over the canonical text of [value] and the
    decimal digits of [version]. *)
Definition binds `{PyFloat} (field : pystr) (value : json) (version : Z) (aad : bytes) : Prop :=
  exists inner digits, json_dumps value = Some inner /\ int_repr version = Some digits /\
    utf8_encode (header_text field inner digits) = Some aad.

Section Headers.
Context `{PyFloat}.

Lemma canonical_json_ok v b : _canonical_json v = Ok b -> exists t, json_dumps v = Some t /\ utf8_encode t = Some b.
Proof.
  unfold _canonical_json. destruct (json_dumps v) as [t|]; [|done]. destruct (utf8_encode t) as [b'|] eqn:E; [|done].
  intros [= <-]. eauto.
Qed.

Lemma header_sorted field (a b c : pystr) :
  field ∈ [py "kdf"; py "payload"] ->
  sort_by fst [(py "format", a); (py "version", b); (field, c)] = [(py "format", a); (field, c); (py "version", b)].
Proof.
  rewrite !elem_of_cons, elem_of_nil. intros [->|[->|[]]]; vm_compute; reflexivity.
Qed.

Lemma header_dumps field value version t :
  field ∈ [py "kdf"; py "payload"] ->
  json_dumps (JObj [(py "format", JStr _FORMAT); (py "version", JInt version); (field, value)]) = Some t ->
  exists inner digits, json_dumps value = Some inner /\ int_repr version = Some digits /\ t = header_text field inner digits.
Proof.
  intros Hf. cbn [json_dumps fmap list_fmap list_fmap fst snd option_fmap option_map sequence].
  destruct (int_repr version) as [digits|]; [|done]. cbn [option_map]. destruct (json_dumps value) as [inner|]; [|done].
  cbn [option_map]. intros <-%(inj Some). exists inner, digits. split; [done|]. split; [done|].
  rewrite header_sorted by done. unfold header_text. cbn [fmap list_fmap join]. unfold member. cbn [fst snd].
  f_equal. by rewrite <-!app_assoc; cbn [app]; rewrite <-!app_assoc; cbn [app]; rewrite <-!app_assoc.
Qed.

Lemma wrap_aad_binds kdf version aad : _wrap_aad kdf version = Ok aad -> binds (py "kdf") kdf version aad.
Proof.
  intros (t & Ht & He)%canonical_json_ok. apply header_dumps in Ht as (inner & digits & Hi & Hd & ->); [|set_solver].
  by exists inner, digits.
Qed.

Lemma payload_aad_binds info version aad : _payload_aad info version = Ok aad -> binds (py "payload") info version aad.
Proof.
  intros (t & Ht & He)%canonical_json_ok. apply header_dumps in Ht as (inner & digits & Hi & Hd & ->); [|set_solver].
  by exists inner, digits.
Qed.
Lemma split_last {A} (c : A) x y d e : c ∉ d -> c ∉ e -> x ++ c :: d = y ++ c :: e -> x = y /\ d = e.
Proof.
  intros Hd He E. apply app_eq_inv in E as [(k & -> & E)|(k & -> & E)]; (destruct k as [|a k]; [injection E as E; by rewrite app_nil_r|]);
    injection E as -> ->; set_solver.
Qed.

(** A header text determines the field's text and the version. *)
Lemma binds_inj field v w version version' aad :
  binds field v version aad -> binds field w version' aad -> version = version' /\ json_dumps v = json_dumps w.
Proof.
  intros (t & ds & Hv & Hd & Ha) (t' & ds' & Hw & Hd' & Ha'). pose proof (utf8_encode_inj _ _ _ Ha Ha') as E.
  assert (forall z l, int_repr z = Some l -> 58 ∉ l ++ [125]) as Hno.
  { intros z l Hl%int_repr_chars Hin. apply elem_of_app in Hin as [Hin|Hin]; [|set_solver].
    rewrite Forall_forall in Hl. specialize (Hl _ Hin). lia. }
  assert (forall i d, header_text field i d =
    (((123 :: quote (py "format") ++ 58 :: quote (py "decent-wallet") ++ 44 :: quote field ++ [58]) ++ i) ++
     44 :: quote (py "version")) ++ 58 :: d ++ [125]) as Hsplit.
  { intros i d. unfold header_text. cbn [app]. rewrite <-!app_assoc. cbn [app]. rewrite <-!app_assoc. cbn [app]. by rewrite <-!app_assoc. }
  rewrite !Hsplit in E. apply split_last in E as [E Ed]; [|by eapply Hno..].
  apply app_inj_tail in Ed as [-> _]. apply app_inv_tail, app_inv_head in E as ->.
  split; [by eapply int_repr_inj|congruence].
Qed.
End Headers.

(** * The container's promises *)

Section Promises.
Context `{PyFloat} `{KdfLaws} `{AeadLaws}.

(** C20. What is built for a password is written as bytes that, unless they exceed the
    size limit, parse and unlock under that password to the same data key and the same
    payload, its maps in key order. *)
Theorem container_roundtrip password secret salt kdf dek d d' wrap_nonce payload_nonce :
  utf8_encode password = Some secret -> length salt = _SALT_LENGTH -> kdf_for salt kdf -> length dek = _KEY_LENGTH ->
  length wrap_nonce = _NONCE_LENGTH -> length payload_nonce = _NONCE_LENGTH ->
  value_ok (PDict d) = true -> value_sort (PDict d) = PDict d' ->
  exists envelope raw,
    _build_v2_envelope password dek kdf (PDict d) wrap_nonce payload_nonce = Ok envelope /\ _serialize envelope = Ok raw /\
    (Z.of_nat (length raw) <= _MAX_CONTAINER_BYTES ->
     exists parsed, _parse_container raw CURRENT_FORMAT_VERSION = Ok parsed /\
       _unlock_envelope parsed password CURRENT_FORMAT_VERSION = Ok (dek, d')).
Proof. intros. by eapply build_reopens. Qed.

(** C21. Whatever unlocks under a password was sealed for it.  The data key was sealed with
    the key derived from the password and the stored salt, and its associated data is the
    text of the format name, the version and the envelope's key-derivation header, a text
    that no other version or header has; the payload was sealed with the data key over the
    text of the format name, the version, the algorithm and the box's own nonce, which no other
    version or nonce has; and what it holds is a well-typed map in key order. *)
Theorem container_authentic envelope password version dek d :
  _unlock_envelope envelope password version = Ok (dek, d) ->
  typed_value (PDict d) = true /\ length dek = _KEY_LENGTH /\
  (exists kdf s salt kek box aad, item envelope (py "kdf") = Ok kdf /\ item kdf (py "salt") = Ok s /\
     _b64_decode (Some s) (Some _SALT_LENGTH) = Ok salt /\ _derive_kek password salt = Ok kek /\
     item envelope (py "wrap") = Ok box /\ seals kek aad box dek /\ binds (py "kdf") kdf version aad /\
     forall kdf' version', _wrap_aad kdf' version' = Ok aad -> version' = version /\ json_dumps kdf' = json_dumps kdf) /\
  (exists box nonce aad plain, item envelope (py "payload") = Ok box /\ item box (py "nonce") = Ok nonce /\
     seals dek aad box plain /\ payload_text plain d /\
     binds (py "payload") (JObj [(py "algorithm", JStr _ALGORITHM); (py "nonce", nonce)]) version aad /\
     forall info version', _payload_aad info version' = Ok aad ->
       version' = version /\ json_dumps info = json_dumps (JObj [(py "algorithm", JStr _ALGORITHM); (py "nonce", nonce)])).
Proof.
  intros (Hl & (kdf & s & salt & kek & box & aad & Hk & Hs & Hsalt & Hkek & Hbox & Hb%wrap_aad_binds & Hseal) & Hd)%unlock_sealed_with.
  apply decode_payload_sealed in Hd as (pbox & nonce & paad & plain & Hpb & Hn & Hpa%payload_aad_binds & Hps & Ht).
  split; [|split; [done|split]].
  - destruct Ht as (text & j & _ & _ & Hj). by apply (decode_typed_all j).
  - exists kdf, s, salt, kek, box, aad. do 7 (split; [done|]). intros kdf' version' Ha%wrap_aad_binds. by eapply binds_inj.
  - exists pbox, nonce, paad, plain. do 5 (split; [done|]). intros info version' Ha%payload_aad_binds. by eapply binds_inj.
Qed.

(** C22. Whatever the interpreter's stack allows ([depth] levels of nesting, or any number):
    a container that parses is within the size limit and has every field at its width: a
    16-byte salt, 24-byte nonces, 16-byte tags and key-derivation costs numerically equal
    to the wallet's, so a file cannot lower them.  What does not parse is refused with a
    wallet error or with one of two uncaught exceptions: [ValueError] for an integer beyond
    Python's limit on digits and [RecursionError] for values nested too deep; no [KeyError],
    [TypeError] or decoding error gets out.  And the stack has no other effect: parsing
    raises [RecursionError] or does what it does on an unlimited stack. *)
Theorem container_bounds depth raw version :
  match parse_container_within depth raw version with
  | Ok envelope => Z.of_nat (length raw) <= _MAX_CONTAINER_BYTES /\ container_checked version envelope
  | Err e => parse_error e \/ e = RecursionError /\ depth <> None
  end /\
  (parse_container_within depth raw version = Err RecursionError \/
   parse_container_within depth raw version = _parse_container raw version).
Proof.
  pose proof (parse_within_eq depth raw version) as Hw. split; [|done].
  assert (forall r, r = _parse_container raw version ->
    match r with
    | Ok envelope => Z.of_nat (length raw) <= _MAX_CONTAINER_BYTES /\ container_checked version envelope
    | Err e => parse_error e
    end) as Hfree.
  { intros r ->. pose proof (parse_container_errs raw version) as He.
    destruct (_parse_container raw version) as [envelope|e] eqn:E; [|done]. apply parse_container_ok in E as (Hl & Hc & _). done. }
  destruct depth as [depth|].
  - destruct Hw as [-> | ->]; [by right|]. specialize (Hfree _ eq_refl). destruct (_parse_container raw version); auto.
  - specialize (Hfree _ eq_refl). change (parse_container_within None raw version) with (_parse_container raw version).
    destruct (_parse_container raw version); auto.
Qed.

(** A number of 4301 digits: Python refuses it with [ValueError], which is not a
    [WalletError]. *)
Lemma oversized_integer_escapes :
  _parse_container (repeat (byte_of_Z 49) 4301) CURRENT_FORMAT_VERSION = Err ValueError.
Proof. vm_compute. reflexivity. Qed.

(** Three nested arrays where the stack allows two: [RecursionError], which is not a
    [WalletError]; with room for them the text is refused as no container. *)
Lemma deep_nesting_escapes :
  parse_container_within (Some 2%nat) (byte_of_Z <$> [91; 91; 91; 93; 93; 93]) CURRENT_FORMAT_VERSION = Err RecursionError /\
  parse_container_within (Some 3%nat) (byte_of_Z <$> [91; 91; 91; 93; 93; 93]) CURRENT_FORMAT_VERSION = Err InvalidContainer.
Proof. vm_compute. split; reflexivity. Qed.
End Promises.
