(* ===== verification/Storage.v ===== *)
(** Wallet files: staging, atomic replacement and restoration (container.py, [_fsync_directory],
    [_stage_file], [_restore_previous_after_failed_sync], [_atomic_write], [_read]).

    The file system is one directory of regular files.  A call that is not followed by a
    successful [fsync] may be lost by a crash, so the state keeps what is on disk next to
    what running programs see.  Every system call may fail with [OSError] without an effect;
    the world says which calls fail.  Other processes do not act during an operation. *)

From stdpp Require Import gmap.
From S2P Require Import Prelude Container.

Open Scope Z_scope.

(** * The file system *)

Abbreviation inode := nat.

Record fs := MkFs {
  fs_dir : gmap pystr inode;              (* the directory *)
  fs_pending : list (gmap pystr inode);   (* earlier directories a crash may still leave *)
  fs_files : gmap inode bytes;            (* contents *)
  fs_disk : gmap inode bytes;             (* contents at the last fsync of each file *)
  fs_next : inode;                        (* no file has this number or a larger one *)
}.

(** What a program reads at [name]. *)
Definition live (s : fs) (name : pystr) : option bytes := fs_dir s !! name ≫= fun i => fs_files s !! i.

(** What may be found at [name] after a crash: the file an unsynced directory change may
    or may not have put there; unsynced contents are arbitrary. *)
Definition crash_value (s : fs) (name : pystr) (v : option bytes) : Prop :=
  exists d, d ∈ fs_dir s :: fs_pending s /\
  match d !! name with
  | None => v = None
  | Some i => match fs_disk s !! i with Some b => v = Some b | None => is_Some v end
  end.

(** Every change of the directory may be undone by a crash until it is synced. *)
Definition set_dir (d : gmap pystr inode) (s : fs) : fs :=
  MkFs d (fs_dir s :: fs_pending s) (fs_files s) (fs_disk s) (fs_next s).

(** * Programs *)

(** Which calls fail, the names [mkstemp] will try, and the states after each call. *)
Record world := MkWorld {
  w_fs : fs;
  w_faults : list bool;
  w_names : list pystr;
  w_trace : list fs;
}.

Definition IO (A : Type) : Type := world -> res A * world.

Definition ret {A} (a : A) : IO A := fun w => (Ok a, w).
Definition fail {A} (e : exn) : IO A := fun w => (Err e, w).
Definition io_bind {A B} (m : IO A) (k : A -> IO B) : IO B :=
  fun w => match m w with (Ok a, w') => k a w' | (Err e, w') => (Err e, w') end.

(** The outcome of [m] as a value: [try: ... except]. *)
Definition attempt {A} (m : IO A) : IO (res A) := fun w => let r := m w in (Ok r.1, r.2).

Declare Scope io_scope.
Delimit Scope io_scope with io.
Notation "'let%' x := m 'in' k" := (io_bind m (fun x => k))
  (at level 10, x pattern, m at level 100, k at level 200) : io_scope.
Open Scope io_scope.

Definition of_res {A} (r : res A) : IO A := match r with Ok a => ret a | Err e => fail e end.

(** A system call: it fails as the world says, or acts on the file system. *)
Definition syscall {A} (f : fs -> res (A * fs)) : IO A := fun w =>
  match w_faults w with
  | true :: faults => (Err OSError, MkWorld (w_fs w) faults (w_names w) (w_trace w))
  | faults =>
      match f (w_fs w) with
      | Ok (a, s) => (Ok a, MkWorld s (tail faults) (w_names w) (w_trace w ++ [s]))
      | Err e => (Err e, MkWorld (w_fs w) (tail faults) (w_names w) (w_trace w))
      end
  end.

Definition is_OSError (e : exn) : bool := match e with OSError | FileNotFoundError => true | _ => false end.
Definition is_WalletError (e : exn) : bool :=
  match e with
  | WalletLockedError | PasswordPolicyError | UnlockFailed | InvalidContainer | UnsupportedFormat
  | StorageFailure | StorageOutcomeUnknown | RotationInProgress => true
  | _ => false
  end.

(** * System calls *)

(** A path with a NUL character is refused with [ValueError]. *)
Definition valid_name (name : pystr) : bool := negb (bool_decide (0 ∈ name)).

Definition at_name {A} (name : pystr) (f : fs -> res (A * fs)) : IO A :=
  syscall (fun s => if valid_name name then f s else Err ValueError).

Definition temp_prefix : pystr := py ".decent-wallet-".

(** The characters [tempfile] draws names from. *)
Definition is_temp_char (c : Z) : bool := ((97 <=? c) && (c <=? 122)) || ((48 <=? c) && (c <=? 57)) || (c =? 95).

(** The first name to try that is not taken, and the names after it. *)
Fixpoint pick_name (d : gmap pystr inode) (names : list pystr) : option (pystr * list pystr) :=
  match names with
  | [] => None
  | suffix :: names' =>
      let name := temp_prefix ++ suffix in
      if forallb is_temp_char suffix && bool_decide (d !! name = None) then Some (name, names') else pick_name d names'
  end.

(** [tempfile.mkstemp(prefix=".decent-wallet-", dir=directory)]; [FileExistsError] when no
    name is left. *)
Definition mkstemp : IO (inode * pystr) := fun w =>
  match pick_name (fs_dir (w_fs w)) (w_names w) with
  | None => (Err OSError, w)
  | Some (name, names) =>
      let fd := fs_next (w_fs w) in
      syscall (fun s =>
        Ok ((fd, name), MkFs (<[name := fd]> (fs_dir s)) (fs_dir s :: fs_pending s) (<[fd := []]> (fs_files s)) (fs_disk s) (S fd)))
        (MkWorld (w_fs w) (w_faults w) names (w_trace w))
  end.

(** Calls on an open file that do not change what is modelled. *)
Definition touch_fd : IO unit := syscall (fun s => Ok (tt, s)).
Definition fchmod (fd : inode) : IO unit := touch_fd.
Definition fdopen (fd : inode) : IO unit := touch_fd.
Definition flush (fd : inode) : IO unit := touch_fd.
Definition close (fd : inode) : IO unit := touch_fd.

Definition write (fd : inode) (data : bytes) : IO unit :=
  syscall (fun s => Ok (tt, MkFs (fs_dir s) (fs_pending s) (<[fd := data]> (fs_files s)) (fs_disk s) (fs_next s))).

Definition fsync (fd : inode) : IO unit :=
  syscall (fun s => Ok (tt, MkFs (fs_dir s) (fs_pending s) (fs_files s)
    (match fs_files s !! fd with Some b => <[fd := b]> (fs_disk s) | None => fs_disk s end) (fs_next s))).

(** The identity [(st_dev, st_ino)] of an open file. *)
Definition fstat (fd : inode) : IO inode := syscall (fun s => Ok (fd, s)).

Definition entry (s : fs) (name : pystr) : res inode := of_option FileNotFoundError (fs_dir s !! name).

Definition os_replace (src dst : pystr) : IO unit :=
  at_name dst (fun s => let* i := entry s src in Ok (tt, set_dir (<[dst := i]> (delete src (fs_dir s))) s)).

Definition os_link (src dst : pystr) : IO unit :=
  at_name dst (fun s =>
    let* i := entry s src in
    raise_if bool_decide (is_Some (fs_dir s !! dst)) with OSError;
    Ok (tt, set_dir (<[dst := i]> (fs_dir s)) s)).

Definition unlink (name : pystr) : IO unit :=
  at_name name (fun s => let* _ := entry s name in Ok (tt, set_dir (delete name (fs_dir s)) s)).

Definition samefile (a b : pystr) : IO bool :=
  at_name b (fun s => let* i := entry s a in let* j := entry s b in Ok (bool_decide (i = j), s)).

Definition lstat (name : pystr) : IO inode := at_name name (fun s => let* i := entry s name in Ok (i, s)).

Definition read_bytes (name : pystr) : IO bytes :=
  at_name name (fun s => let* i := entry s name in let* b := of_option OSError (fs_files s !! i) in Ok (b, s)).

(** [path.exists()]: false for a path that is not there or cannot be. *)
Definition exists_path (name : pystr) : IO bool :=
  syscall (fun s => Ok (valid_name name && bool_decide (is_Some (fs_dir s !! name)), s)).

Definition open_dir : IO unit := touch_fd.
Definition fsync_dir : IO unit := syscall (fun s => Ok (tt, MkFs (fs_dir s) [] (fs_files s) (fs_disk s) (fs_next s))).
Definition close_dir : IO unit := touch_fd.

(** * Operations *)

(** The parent directory of the wallet's path is the one directory of the model. *)
Definition _fsync_directory : IO unit :=
  let% _ := open_dir in
  let% r := attempt fsync_dir in
  let% _ := close_dir in
  of_res r.

(** [try: c except OSError: pass]; clean-up calls are made on valid names only. *)
Definition swallow {A} (c : IO A) : IO unit := let% _ := attempt c in ret tt.

(** The body of [with os.fdopen(fd, "wb") as handle]. *)
Definition write_staged (fd : inode) (data : bytes) : IO inode :=
  let% r := attempt (
    let% _ := write fd data in
    let% _ := flush fd in
    let% _ := fsync fd in
    fstat fd) in
  let% _ := close fd in
  of_res r.

(** Whether the staged file has taken the target's name, with the clean-up of the
    [finally] block on each way out. *)
Definition install_staged (name path : pystr) (replace : bool) : IO unit :=
  if replace then
    let% r := attempt (os_replace name path) in
    match r with
    | Ok _ => ret tt
    | Err e => let% _ := swallow (unlink name) in fail e
    end
  else
    let% r := attempt (os_link name path) in
    match r with
    | Err e => let% _ := swallow (unlink name) in fail e
    | Ok _ =>
        let% r := attempt (unlink name) in
        match r with
        | Ok _ => ret tt
        | Err e =>
            let% _ := swallow (let% same := samefile name path in if same then unlink path else ret tt) in
            let% _ := swallow (unlink name) in
            fail e
        end
    end.

Definition _stage_file (path : pystr) (data : bytes) (replace : bool) : IO inode :=
  let% (fd, name) := mkstemp in
  let% opened := attempt (let% _ := fchmod fd in fdopen fd) in
  match opened with
  | Err e =>
      let% _ := swallow (close fd) in
      let% _ := swallow (unlink name) in
      fail e
  | Ok _ =>
      let% staged := attempt (write_staged fd data) in
      match staged with
      | Err e => let% _ := swallow (unlink name) in fail e
      | Ok identity => let% _ := install_staged name path replace in ret identity
      end
  end.

(** [current_data] as the restoration reads it; [None]: an error other than a missing file. *)
Definition read_current (path : pystr) : IO (option (option bytes)) :=
  let% r := attempt (read_bytes path) in
  match r with
  | Ok b => ret (Some (Some b))
  | Err FileNotFoundError => ret (Some None)
  | Err e => if is_OSError e then ret None else fail e
  end.

(** The checks after the restoration: the target reads as before, on disk too. *)
Definition check_restored (path : pystr) (previous_data : option bytes) : IO bool :=
  let% current := read_current path in
  if bool_decide (current = Some previous_data) then
    let% synced := attempt _fsync_directory in
    match synced with
    | Err e => if is_OSError e then ret false else fail e
    | Ok _ =>
        let% current := read_current path in
        ret (bool_decide (current = Some previous_data))
    end
  else ret false.

Definition _restore_previous_after_failed_sync (path : pystr) (previous_data : option bytes)
    (installed_identity : inode) : IO bool :=
  let% installed := attempt (lstat path) in
  match installed with
  | Err FileNotFoundError =>
      if bool_decide (previous_data = None) then check_restored path previous_data else ret false
  | Err e => if is_OSError e then ret false else fail e
  | Ok identity =>
      if bool_decide (identity = installed_identity) then
        let% undone := attempt
          (match previous_data with
           | None => unlink path
           | Some data => let% _ := _stage_file path data true in ret tt
           end) in
        match undone with
        | Err FileNotFoundError =>
            if bool_decide (previous_data = None) then check_restored path previous_data else ret false
        | Err e =>
            if is_OSError e || is_WalletError e || bool_decide (e = ValueError)
            then check_restored path previous_data else fail e
        | Ok _ => check_restored path previous_data
        end
      else ret false
  end.

(** The outer [except] clauses of [_atomic_write]. *)
Definition as_storage_failure {A} (m : IO A) : IO A :=
  let% r := attempt m in
  match r with
  | Ok a => ret a
  | Err e => if is_OSError e || bool_decide (e = ValueError) then fail StorageFailure else fail e
  end.

Definition _atomic_write (path : pystr) (data : bytes) (replace : bool) : IO unit :=
  let% there := if replace then exists_path path else ret false in
  let% previous_data :=
    (if there then
       let% r := attempt (read_bytes path) in
       match r with
       | Ok b => ret (Some b)
       | Err e => if is_OSError e then fail StorageFailure else fail e
       end
     else ret None) in
  as_storage_failure (
    let% installed_identity := _stage_file path data replace in
    let% synced := attempt _fsync_directory in
    match synced with
    | Ok _ => ret tt
    | Err e =>
        if is_OSError e then
          let% restored := _restore_previous_after_failed_sync path previous_data installed_identity in
          if restored then fail StorageFailure else fail StorageOutcomeUnknown
        else fail e
    end).

(** [handle.read(_MAX_CONTAINER_BYTES + 1)] of the file. *)
Definition _read (path : pystr) : IO bytes :=
  let% r := attempt (read_bytes path) in
  match r with
  | Ok b => ret (take (Z.to_nat (_MAX_CONTAINER_BYTES + 1)) b)
  | Err e => if is_OSError e then fail StorageFailure else fail e
  end.
