(* ===== verification/StorageFacts.v ===== *)
(** Crash safety of [_atomic_write]: a Hoare logic in which every state between two system
    calls must satisfy a crash condition, and the outcomes of a write. *)

From stdpp Require Import gmap.
From S2P Require Import Prelude Container Storage.

Open Scope Z_scope.

(** * Weakest preconditions with a crash condition *)

Section Wp.
Context (I : fs -> Prop).

(** From [s], whatever fails, [m] ends in [Q] and [I] holds after each of its calls. *)
Definition wp {A} (m : IO A) (Q : res A -> fs -> Prop) (s : fs) : Prop :=
  forall w, w_fs w = s ->
    Q (m w).1 (w_fs (m w).2) /\ exists t, w_trace (m w).2 = w_trace w ++ t /\ Forall I t.

Lemma wp_mono {A} (m : IO A) (Q Q' : res A -> fs -> Prop) s :
  wp m Q s -> (forall r s', Q r s' -> Q' r s') -> wp m Q' s.
Proof. intros Hm HQ w Hw. destruct (Hm w Hw) as [H Ht]. auto. Qed.

Lemma wp_ret {A} (a : A) (Q : res A -> fs -> Prop) s : Q (Ok a) s -> wp (ret a) Q s.
Proof. intros HQ w <-. split; [done|]. exists []. by rewrite app_nil_r. Qed.

Lemma wp_fail {A} e (Q : res A -> fs -> Prop) s : Q (Err e) s -> wp (fail e) Q s.
Proof. intros HQ w <-. split; [done|]. exists []. by rewrite app_nil_r. Qed.

Lemma wp_of_res {A} (r : res A) (Q : res A -> fs -> Prop) s : Q r s -> wp (of_res r) Q s.
Proof. destruct r; [apply wp_ret|apply wp_fail]. Qed.

Lemma wp_bind {A B} (m : IO A) (k : A -> IO B) (Q : res B -> fs -> Prop) s :
  wp m (fun r s' => match r with Ok a => wp (k a) Q s' | Err e => Q (Err e) s' end) s -> wp (io_bind m k) Q s.
Proof.
  intros Hm w Hw. destruct (Hm w Hw) as [HQ (t & Ht & HI)]. unfold io_bind. destruct (m w) as [[a|e] w'] eqn:E; cbn in *.
  - destruct (HQ w' eq_refl) as [HQ' (t' & Ht' & HI')]. split; [done|]. exists (t ++ t'). rewrite Ht', Ht, app_assoc.
    split; [done|]. by apply Forall_app.
  - eauto.
Qed.

Lemma wp_attempt {A} (m : IO A) (Q : res (res A) -> fs -> Prop) s : wp m (fun r => Q (Ok r)) s -> wp (attempt m) Q s.
Proof. intros Hm w Hw. apply (Hm w Hw). Qed.

Lemma wp_syscall {A} (f : fs -> res (A * fs)) (Q : res A -> fs -> Prop) s :
  Q (Err OSError) s -> match f s with Ok (a, s') => Q (Ok a) s' /\ I s' | Err e => Q (Err e) s end -> wp (syscall f) Q s.
Proof.
  intros Herr Hok w <-. unfold syscall.
  assert (forall faults, let o := match f (w_fs w) with
    | Ok (a, s) => (Ok a, MkWorld s (tail faults) (w_names w) (w_trace w ++ [s]))
    | Err e => (Err e, MkWorld (w_fs w) (tail faults) (w_names w) (w_trace w)) end in
    Q o.1 (w_fs o.2) /\ exists t, w_trace o.2 = w_trace w ++ t /\ Forall I t) as Hgo.
  { intros faults. destruct (f (w_fs w)) as [[a s']|e]; cbn.
    - destruct Hok as [HQ HI]. split; [done|]. exists [s']. split; [done|]. by constructor.
    - split; [done|]. exists []. by rewrite app_nil_r. }
  destruct (w_faults w) as [|[] faults]; [apply (Hgo [])| |apply (Hgo (false :: faults))]. cbn. split; [done|]. exists []. by rewrite app_nil_r.
Qed.

(** A call that changes nothing needs the crash condition of the state it is made in. *)
Lemma wp_touch (Q : res unit -> fs -> Prop) s : I s -> Q (Err OSError) s -> Q (Ok tt) s -> wp touch_fd Q s.
Proof. intros. by apply wp_syscall. Qed.

Lemma wp_at_name {A} name (f : fs -> res (A * fs)) (Q : res A -> fs -> Prop) s :
  valid_name name = true -> Q (Err OSError) s -> match f s with Ok (a, s') => Q (Ok a) s' /\ I s' | Err e => Q (Err e) s end ->
  wp (at_name name f) Q s.
Proof. intros Hn Herr Hok. apply wp_syscall; [done|]. by rewrite Hn. Qed.

Lemma wp_swallow {A} (c : IO A) (Q : res unit -> fs -> Prop) s : wp c (fun _ => Q (Ok tt)) s -> wp (swallow c) Q s.
Proof. intros Hc. apply wp_bind, wp_attempt. eapply wp_mono; [exact Hc|]. intros r s' HQ. by apply wp_ret. Qed.
End Wp.

(** * What the target's name may read as *)

Section Target.
Context (path : pystr).

(** The directory entry [e] durably reads as [v]. *)
Definition holds (s : fs) (e : option inode) (v : option bytes) : Prop :=
  match e with
  | None => v = None
  | Some i => (i < fs_next s)%nat /\ exists b, v = Some b /\ fs_files s !! i = Some b /\ fs_disk s !! i = Some b
  end.

(** In the directory and in those a crash may leave, the target reads as a value in [V]. *)
Definition reads (V : option bytes -> Prop) (s : fs) : Prop :=
  Forall (fun d : gmap pystr inode => exists v, V v /\ holds s (d !! path) v) (fs_dir s :: fs_pending s).

(** The target reads as [v], now and after a crash. *)
Definition settled (v : option bytes) (s : fs) : Prop := reads (eq v) s.

Lemma reads_mono (V V' : option bytes -> Prop) s : reads V s -> (forall v, V v -> V' v) -> reads V' s.
Proof. intros Hr HV. eapply Forall_impl; [exact Hr|]. intros d (v & Hv & Hh). eauto. Qed.

Lemma reads_crash V s v : reads V s -> crash_value s path v -> V v.
Proof.
  intros Hr (d & Hd & Hv). unfold reads in Hr. rewrite Forall_forall in Hr. destruct (Hr d Hd) as (v' & HV & Hh).
  destruct (d !! path) as [i|]; cbn in *; [|by subst]. destruct Hh as (_ & b & -> & _ & Hb). rewrite Hb in Hv. by subst.
Qed.

Lemma reads_live V s : reads V s -> V (live s path).
Proof.
  intros Hr. inversion_clear Hr as [|? ? (v & HV & Hh) _]. unfold live. destruct (fs_dir s !! path) as [i|]; cbn in *; [|by subst].
  destruct Hh as (_ & b & -> & Hb & _). by rewrite Hb.
Qed.

Lemma settled_live v s : settled v s -> live s path = v.
Proof. intros Hs%reads_live. done. Qed.

Definition dirs (s : fs) : list (gmap pystr inode) := fs_dir s :: fs_pending s.

(** A change that leaves the target's entries and their files alone keeps what it reads as. *)
Lemma reads_frame V s s' :
  reads V s -> (forall d', d' ∈ dirs s' -> exists d, d ∈ dirs s /\ d' !! path = d !! path) ->
  (forall d i, d ∈ dirs s -> d !! path = Some i -> fs_files s' !! i = fs_files s !! i /\ fs_disk s' !! i = fs_disk s !! i) ->
  (fs_next s <= fs_next s')%nat -> reads V s'.
Proof.
  intros Hr Hd Hf Hn. unfold reads in *. rewrite Forall_forall in Hr |- *. intros d' (d & Hin & E)%Hd.
  destruct (Hr d Hin) as (v & HV & Hh). exists v. split; [done|]. rewrite E. destruct (d !! path) as [i|] eqn:Ei; cbn in *; [|done].
  destruct (Hf d i Hin Ei) as [-> ->]. destruct Hh as (Hlt & b & Hb). split; [lia|eauto].
Qed.

(** A synced file takes the target's name. *)
Lemma reads_install V s d' fd data :
  reads V s -> d' !! path = Some fd -> holds s (Some fd) (Some data) -> reads (fun v => V v \/ v = Some data) (set_dir d' s).
Proof.
  intros Hr Hd Hh. unfold reads. constructor.
  - exists (Some data). split; [by right|]. cbn [set_dir fs_dir]. by rewrite Hd.
  - eapply Forall_impl; [exact Hr|]. intros d (v & HV & Hv). eauto.
Qed.

(** Syncing the directory leaves the current reading only. *)
Lemma reads_sync V s :
  reads V s -> V (live s path) /\ settled (live s path) (MkFs (fs_dir s) [] (fs_files s) (fs_disk s) (fs_next s)).
Proof.
  intros Hr. split; [by apply reads_live|]. inversion_clear Hr as [|? ? (v & HV & Hh) _]. constructor; [|constructor].
  exists v. split; [|done]. unfold live. cbn. destruct (fs_dir s !! path) as [i|]; cbn in *; [|done].
  by destruct Hh as (_ & b & -> & -> & _).
Qed.

Lemma reads_none V s : reads V s -> fs_dir s !! path = None -> V None.
Proof. intros Hr Hn. apply reads_live in Hr. unfold live in Hr. by rewrite Hn in Hr. Qed.

(** A temporary file of ours: open as [fd], named [name], not yet the target. *)
Record staging (V : option bytes -> Prop) (fd : inode) (name : pystr) (s : fs) : Prop := {
  st_reads : reads V s;
  st_lt : (fd < fs_next s)%nat;
  st_fresh d : d ∈ dirs s -> d !! path <> Some fd;
  st_entry : fs_dir s !! name = Some fd;
  st_name : name <> path;
  st_valid : valid_name name = true;
}.

Lemma staging_frame V fd name s s' :
  staging V fd name s -> fs_dir s' = fs_dir s -> fs_pending s' = fs_pending s -> fs_next s' = fs_next s ->
  (forall i, i <> fd -> fs_files s' !! i = fs_files s !! i /\ fs_disk s' !! i = fs_disk s !! i) -> staging V fd name s'.
Proof.
  intros [Hr Hlt Hfr He Hn Hv] Hd Hp Hnx Hf. assert (dirs s' = dirs s) as Hds by (unfold dirs; congruence).
  split; rewrite ?Hds, ?Hd, ?Hnx; try done. apply (reads_frame V s); [done|rewrite Hds; eauto| |lia].
  intros d i Hin Hi. apply Hf. intros ->. by eapply Hfr.
Qed.

Lemma unlink_reads V s name : reads V s -> name <> path -> reads V (set_dir (delete name (fs_dir s)) s).
Proof.
  intros Hr Hn. apply (reads_frame V s); [done| |done|done]. intros d' [-> | Hd']%elem_of_cons.
  - exists (fs_dir s). split; [by left|]. cbn [set_dir fs_dir]. by rewrite lookup_delete_ne.
  - exists d'. split; [|done]. cbn in Hd'. done.
Qed.

Lemma pick_name_ok d names name rest :
  pick_name d names = Some (name, rest) -> d !! name = None /\ exists suffix, name = temp_prefix ++ suffix /\ forallb is_temp_char suffix = true.
Proof.
  induction names as [|x names IH]; cbn; [done|]. destruct (forallb is_temp_char x) eqn:Ex; cbn; [|done].
  case_bool_decide as Hx; [|done]. intros [= <- <-]. eauto.
Qed.

Lemma temp_valid suffix : forallb is_temp_char suffix = true -> valid_name (temp_prefix ++ suffix) = true.
Proof.
  intros Hs. unfold valid_name. apply negb_true_iff, bool_decide_eq_false. rewrite elem_of_app. intros [H0|H0].
  - assert (bool_decide (0 ∈ temp_prefix) = false) as E by reflexivity. apply bool_decide_eq_false in E. done.
  - rewrite forallb_forall in Hs. apply list_elem_of_In, Hs in H0. done.
Qed.
End Target.

(** * Staging *)

Section Stage.
Context (path : pystr) (VI : option bytes -> Prop).
Context (Hpath : ~ temp_prefix `prefix_of` path) (Hvalid : valid_name path = true).

(** The crash condition: the target reads as a value in [VI]. *)
Notation I := (reads path VI).
Notation wpI := (wp I).

Lemma temp_not_path suffix : temp_prefix ++ suffix <> path.
Proof. intros <-. apply Hpath. by exists suffix. Qed.

Lemma wp_mkstemp V s :
  reads path V s -> (forall v, V v -> VI v) ->
  wpI mkstemp (fun r s' => match r with
    | Ok (fd, name) => staging path V fd name s' /\ fs_dir s' !! path = fs_dir s !! path
    | Err e => is_OSError e = true /\ s' = s
    end) s.
Proof.
  intros Hr HV w <-. unfold mkstemp. destruct (pick_name _ _) as [[name rest]|] eqn:E.
  2: { cbn. split; [done|]. exists []. by rewrite app_nil_r. }
  apply pick_name_ok in E as (Hfree & suffix & -> & Hs).
  match goal with |- context [syscall ?f ?w'] => set (w1 := w'); set (g := f) end.
  assert (w_fs w = w_fs w1 /\ w_trace w = w_trace w1) as [Ew Et] by done. rewrite Ew in Hr, Hfree |- *. rewrite Et.
  assert (wpI (syscall g) (fun r s' => match r with
    | Ok (fd, name) => staging path V fd name s' /\ fs_dir s' !! path = fs_dir (w_fs w1) !! path
    | Err e => is_OSError e = true /\ s' = w_fs w1 end) (w_fs w1)) as Hwp; [|by apply (Hwp w1)].
  apply wp_syscall; [done|]. unfold g. set (fd := fs_next (w_fs w)). cbn.
  assert (staging path V fd (temp_prefix ++ suffix) (MkFs (<[temp_prefix ++ suffix:=fd]> (fs_dir (w_fs w1))) (fs_dir (w_fs w1) :: fs_pending (w_fs w1))
    (<[fd:=[]]> (fs_files (w_fs w1))) (fs_disk (w_fs w1)) (S fd))) as Hst.
  { assert (forall d i, d ∈ dirs (w_fs w1) -> d !! path = Some i -> (i < fd)%nat) as Hlt.
    { intros d i Hd Hi. unfold reads in Hr. rewrite Forall_forall in Hr. destruct (Hr d Hd) as (v & _ & Hh). rewrite Hi in Hh. by destruct Hh. }
    assert (forall d', d' ∈ dirs (MkFs (<[temp_prefix ++ suffix:=fd]> (fs_dir (w_fs w1))) (fs_dir (w_fs w1) :: fs_pending (w_fs w1))
      (<[fd:=[]]> (fs_files (w_fs w1))) (fs_disk (w_fs w1)) (S fd)) -> exists d, d ∈ dirs (w_fs w1) /\ d' !! path = d !! path) as Hds.
    { intros d' [->|Hd']%elem_of_cons; [|by exists d'].
      exists (fs_dir (w_fs w1)). split; [by left|]. cbn. rewrite lookup_insert_ne; [done|apply temp_not_path]. }
    split; cbn [fs_next fs_dir]; try lia.
    - apply (reads_frame path V (w_fs w1)); [done|done| |cbn; unfold fd; rewrite Ew; lia].
      intros d i Hd Hi. cbn. split; [|done]. apply lookup_insert_ne. specialize (Hlt d i Hd Hi). lia.
    - intros d' (d & Hd & ->)%Hds Hi. specialize (Hlt d fd Hd Hi). lia.
    - apply lookup_insert_eq.
    - apply temp_not_path.
    - by apply temp_valid. }
  split; [|by apply (reads_mono path V), HV; apply Hst]. split; [done|]. cbn. rewrite lookup_insert_ne; [done|apply temp_not_path].
Qed.

(** Removing a name other than the target's. *)
Lemma wp_unlink V name s :
  reads path V s -> (forall v, V v -> VI v) -> name <> path -> valid_name name = true ->
  wpI (unlink name) (fun r s' => reads path V s' /\ errs (fun e => is_OSError e = true) r /\
    fs_dir s' !! path = fs_dir s !! path /\ live s' path = live s path) s.
Proof.
  intros Hr HV Hn Hv. apply wp_at_name; [done|by split|]. unfold entry. destruct (fs_dir s !! name); cbn [of_option res_bind]; [|by split].
  apply (unlink_reads path V s name) in Hr as Hr'; [|done]. split; [|by apply (reads_mono path V)]. split; [done|]. split; [done|].
  unfold live. cbn. by rewrite lookup_delete_ne.
Qed.

(** Removing the target, where it may be absent. *)
Lemma wp_unlink_target V s :
  reads path V s -> (forall v, V v -> VI v) -> V None ->
  wpI (unlink path) (fun r s' => reads path V s' /\ errs (fun e => is_OSError e = true) r) s.
Proof.
  intros Hr HV H0. apply wp_at_name; [done|by split|]. unfold entry. destruct (fs_dir s !! path); cbn [of_option res_bind]; [|by split].
  set (s1 := set_dir _ _). assert (reads path V s1) as Hr1; [|split; [done|by apply (reads_mono path V)]].
  constructor; [|exact Hr]. exists None. split; [done|]. cbn. by rewrite lookup_delete_eq.
Qed.

Lemma wp_unlink_fail {A} V name s e (Q : res A -> fs -> Prop) :
  reads path V s -> (forall v, V v -> VI v) -> name <> path -> valid_name name = true ->
  (forall s', reads path V s' -> Q (Err e) s') -> wpI (let% _ := swallow (unlink name) in fail e) Q s.
Proof.
  intros Hr HV Hn Hv HQ. apply wp_bind, wp_swallow. eapply wp_mono; [by apply (wp_unlink V)|]. intros _ s' [Hs' _]. by apply wp_fail, HQ.
Qed.

(** The staged file is on disk when its writing succeeds. *)
Lemma wp_write_staged V fd name data s :
  staging path V fd name s -> (forall v, V v -> VI v) ->
  wpI (write_staged fd data) (fun r s' => staging path V fd name s' /\ fs_dir s' = fs_dir s /\ match r with
    | Ok i => i = fd /\ holds s' (Some fd) (Some data)
    | Err e => is_OSError e = true
    end) s.
Proof.
  intros Hst HV. unfold write_staged.
  assert (forall s', staging path V fd name s' -> I s') as HI by (intros s' Hs'; by apply (reads_mono path V), HV; apply Hs').
  apply wp_bind, wp_attempt. eapply (wp_mono _ _ (fun r s' => staging path V fd name s' /\ fs_dir s' = fs_dir s /\ match r with
    | Ok i => i = fd /\ holds s' (Some fd) (Some data) | Err e => is_OSError e = true end)).
  - apply wp_bind, wp_syscall; [done|].
    set (s1 := MkFs (fs_dir s) (fs_pending s) (<[fd:=data]> (fs_files s)) (fs_disk s) (fs_next s)).
    assert (staging path V fd name s1) as Hs1.
    { apply (staging_frame path V fd name s); try done. intros i Hi. split; [|done]. cbn. by rewrite lookup_insert_ne. }
    split; [|by apply HI]. apply wp_bind, wp_touch; [by apply HI|done|]. apply wp_bind, wp_syscall; [done|].
    cbn [fs_files s1]. rewrite lookup_insert_eq. fold s1. set (s2 := MkFs _ _ _ _ _).
    assert (staging path V fd name s2) as Hs2.
    { apply (staging_frame path V fd name s1); try done. intros i Hi. split; [done|]. cbn. by rewrite lookup_insert_ne. }
    split; [|by apply HI]. assert (holds s2 (Some fd) (Some data)) as Hh.
    { split; [apply Hs2|]. exists data. cbn. by rewrite !lookup_insert_eq. }
    apply wp_syscall; [done|]. split; [done|by apply HI].
  - intros r s' (Hs' & Hd & Hr). apply wp_bind, wp_touch; [by apply HI|done|]. by apply wp_of_res.
Qed.

(** Installing the staged file: the target then reads as the new data, or as before; only
    a link that could not be completed can leave either. *)
Lemma wp_install V fd name data replace s :
  staging path V fd name s -> (forall v, V v -> VI v) -> VI (Some data) -> holds s (Some fd) (Some data) ->
  wpI (install_staged name path replace) (fun r s' => match r with
    | Ok _ => reads path (fun v => V v \/ v = Some data) s' /\ fs_dir s' !! path = Some fd /\ live s' path = Some data /\
            (replace = true \/ fs_dir s !! path = None)
    | Err e => is_OSError e = true /\ (reads path V s' \/
        replace = false /\ fs_dir s !! path = None /\ reads path (fun v => V v \/ v = Some data) s')
    end) s.
Proof.
  intros Hst HV Hnew Hh. pose proof Hst as [Hr Hlt Hfr He Hn Hv].
  assert (forall v, V v \/ v = Some data -> VI v) as HV' by (intros v [|]; subst; auto).
  unfold install_staged. destruct replace.
  - apply wp_bind, wp_attempt, wp_at_name; [done|apply (wp_unlink_fail V); auto|]. unfold entry. rewrite He. cbn [of_option res_bind].
    set (d' := <[path:=fd]> (delete name (fs_dir s))).
    assert (reads path (fun v => V v \/ v = Some data) (set_dir d' s)) as Hr' by (apply (reads_install _ _ _ _ fd); [done|apply lookup_insert_eq|done]).
    split; [|by eapply reads_mono]. apply wp_ret. split; [done|]. split; [apply lookup_insert_eq|]. split; [|by left].
    unfold live, d'. cbn. rewrite lookup_insert_eq. by destruct Hh as (_ & b & [= <-] & Hb & _).
  - apply wp_bind, wp_attempt, wp_at_name; [done|apply (wp_unlink_fail V); auto|]. unfold entry. rewrite He. cbn [of_option res_bind].
    case_bool_decide as Hex; [apply (wp_unlink_fail V); auto|]. rewrite <-eq_None_not_Some in Hex.
    set (s1 := set_dir (<[path:=fd]> (fs_dir s)) s).
    assert (reads path (fun v => V v \/ v = Some data) s1) as Hr' by (apply (reads_install _ _ _ _ fd); [done|apply lookup_insert_eq|done]).
    split; [|by eapply reads_mono]. apply wp_bind, wp_attempt. eapply wp_mono; [by apply (wp_unlink _ name s1 Hr')|].
    intros [[]|e] s2 (Hr2 & He2 & Hd2 & Hl2).
    + apply wp_ret. split; [done|]. rewrite Hd2, Hl2. split; [apply lookup_insert_eq|]. split; [|by right].
      unfold live, s1. cbn. rewrite lookup_insert_eq. by destruct Hh as (_ & b & [= <-] & Hb & _).
    + apply wp_bind, wp_swallow. eapply (wp_mono _ _ (fun _ s3 => reads path (fun v => V v \/ v = Some data) s3)).
      2: { intros _ s3 Hr3. eapply (wp_unlink_fail _ name s3 e); [exact Hr3|done..|]. intros s4 Hr4. split; [done|]. right. done. }
      apply wp_bind, wp_at_name; [done|done|]. unfold entry.
      destruct (fs_dir s2 !! name), (fs_dir s2 !! path); cbn [of_option res_bind]; try done.
      split; [|by eapply reads_mono]. case_bool_decide; [|by apply wp_ret].
      eapply wp_mono; [apply (wp_unlink_target _ s2 Hr2 HV'); left; by apply (reads_none path V s)|]. by intros _ s3 [Hr3 _].
Qed.

(** What staging leaves at the target. *)
Definition staged_or_not (V : option bytes -> Prop) (data : bytes) (replace : bool) (r : res inode) (s s' : fs) : Prop :=
  match r with
  | Ok i => reads path (fun v => V v \/ v = Some data) s' /\ fs_dir s' !! path = Some i /\ live s' path = Some data /\
            (replace = true \/ fs_dir s !! path = None)
  | Err e => is_OSError e = true /\ (reads path V s' \/
      replace = false /\ fs_dir s !! path = None /\ reads path (fun v => V v \/ v = Some data) s')
  end.

Lemma wp_stage_file V data replace s :
  reads path V s -> (forall v, V v -> VI v) -> VI (Some data) ->
  wpI (_stage_file path data replace) (fun r s' => staged_or_not V data replace r s s') s.
Proof.
  intros Hr HV Hnew. unfold _stage_file. apply wp_bind. eapply wp_mono; [by apply (wp_mkstemp V)|].
  intros [[fd name]|e] s1; [|intros [He ->]; split; auto]. intros [Hst Hd]. pose proof Hst as [Hr1 _ _ _ Hn Hv].
  assert (I s1) as HI1 by by apply (reads_mono path V).
  apply wp_bind, wp_attempt, wp_bind. eapply (wp_mono _ _ (fun r s' => s' = s1 /\ errs (fun e => is_OSError e = true) r));
    [by apply wp_touch|]. intros [[]|e] s2 [-> He].
  2: { apply wp_bind, wp_swallow, wp_touch; [done|..]; apply (wp_unlink_fail V); auto; intros; split; auto. }
  apply wp_touch; [done|..].
  { apply wp_bind, wp_swallow, wp_touch; [done|..]; apply (wp_unlink_fail V); auto; intros; split; auto. }
  apply wp_bind, wp_attempt. eapply wp_mono; [by apply (wp_write_staged V fd name data)|]. intros [i|e] s3 (Hst3 & Hd3 & H3); cbn beta iota.
  - destruct H3 as [-> Hh]. apply wp_bind. eapply wp_mono; [by apply (wp_install V fd name data)|]. rewrite Hd3, Hd.
    intros [[]|e] s4 H4; [apply wp_ret; exact H4|exact H4].
  - apply (wp_unlink_fail V); auto; [apply Hst3|]. intros; split; auto.
Qed.

Lemma wp_fsync_directory V s :
  reads path V s -> (forall v, V v -> VI v) ->
  wpI _fsync_directory (fun r s' => reads path V s' /\ live s' path = live s path /\
    match r with Ok _ => settled path (live s path) s' | Err e => is_OSError e = true end) s.
Proof.
  intros Hr HV. assert (forall s', reads path V s' -> I s') as HI by (intros s' Hs'; by apply (reads_mono path V)).
  unfold _fsync_directory. apply wp_bind, wp_touch; [by apply HI|done|]. apply wp_bind, wp_attempt, wp_syscall.
  - apply wp_bind, wp_touch; [by apply HI|done|]. by apply wp_fail.
  - destruct (reads_sync path V s Hr) as [Hl Hs]. set (s1 := MkFs _ _ _ _ _) in *.
    assert (reads path V s1) as Hr1 by (apply (reads_mono path _ V) in Hs; [done|by intros v <-]).
    split; [|by apply HI]. apply wp_bind, wp_touch; [by apply HI|done|]. by apply wp_ret.
Qed.

Lemma wp_read_bytes s :
  I s -> wpI (read_bytes path) (fun r s' => s' = s /\ match r with
    | Ok b => live s path = Some b
    | Err e => is_OSError e = true /\ (e = FileNotFoundError -> live s path = None)
    end) s.
Proof.
  intros HI. apply wp_at_name; [done|done|]. unfold entry, live. destruct (fs_dir s !! path) as [i|]; cbn; [|done].
  by destruct (fs_files s !! i).
Qed.

Lemma wp_read_current s :
  I s -> wpI (read_current path) (fun r s' => s' = s /\ match r with
    | Ok (Some v) => live s path = v | Ok None => True | Err _ => False end) s.
Proof.
  intros HI. unfold read_current. apply wp_bind, wp_attempt. eapply wp_mono; [by apply wp_read_bytes|].
  intros [b|e] s' [-> Hb]; [by apply wp_ret|]. destruct Hb as [He Hnf]. destruct e; try done; apply wp_ret; split; auto.
Qed.

(** The restoration says so only when the target is back, on disk too. *)
Lemma wp_check_restored V previous s :
  reads path V s -> (forall v, V v -> VI v) ->
  wpI (check_restored path previous) (fun r s' => match r with
    | Ok true => settled path previous s' | Ok false => reads path V s' | Err _ => False end) s.
Proof.
  intros Hr HV. assert (forall s', reads path V s' -> I s') as HI by (intros s' Hs'; by apply (reads_mono path V)).
  unfold check_restored. apply wp_bind. eapply wp_mono; [apply wp_read_current; auto|].
  intros [c|] s1 [-> Hc]; [|done]. case_bool_decide as E; [|by apply wp_ret]. subst c. cbn in Hc.
  apply wp_bind, wp_attempt. eapply wp_mono; [by apply (wp_fsync_directory V)|]. intros [[]|e] s1 (Hr1 & Hl & Hs).
  - apply wp_bind. eapply wp_mono; [apply wp_read_current; auto|]. intros [c|] s2 [-> Hc2]; [|done]. apply wp_ret.
    case_bool_decide; [|done]. by rewrite Hc in Hs.
  - rewrite Hs. by apply wp_ret.
Qed.

Lemma wp_restore previous identity s :
  I s -> VI previous ->
  wpI (_restore_previous_after_failed_sync path previous identity) (fun r s' => match r with
    | Ok true => settled path previous s' | Ok false => I s' | Err _ => False end) s.
Proof.
  intros HI Hprev. unfold _restore_previous_after_failed_sync.
  assert (forall s', I s' -> wpI (check_restored path previous) (fun r s' => match r with
    | Ok true => settled path previous s' | Ok false => I s' | Err _ => False end) s') as Hcheck by (intros; by apply wp_check_restored).
  apply wp_bind, wp_attempt, wp_at_name; [done|by apply wp_ret|]. unfold entry. destruct (fs_dir s !! path) as [i|]; cbn [of_option res_bind].
  2: { case_bool_decide; [by apply Hcheck|by apply wp_ret]. }
  split; [|done]. case_bool_decide; [|by apply wp_ret]. apply wp_bind, wp_attempt.
  eapply (wp_mono _ _ (fun r s' => I s' /\ errs (fun e => is_OSError e = true) r)).
  - destruct previous as [data|].
    + apply wp_bind. eapply wp_mono; [by apply (wp_stage_file VI data true)|]. intros [i'|e] s1 H1.
      * apply wp_ret. split; [|done]. destruct H1 as [Hr _]. eapply reads_mono; [exact Hr|]. by intros v [|]; subst.
      * destruct H1 as [He [Hr|[? _]]]; done.
    + by apply (wp_unlink_target VI).
  - intros [[]|e] s1 [HI1 He]; [by apply Hcheck|]. destruct e; try done; cbn; [by apply Hcheck|].
    case_bool_decide; [by apply Hcheck|by apply wp_ret].
Qed.
End Stage.

(** * The atomic write *)

(** The target reads as before or as the new data. *)
Definition old_or_new (old : option bytes) (new : bytes) (v : option bytes) : Prop := v = old \/ v = Some new.

(** What each outcome of a write says about the target. *)
Definition write_outcome (path : pystr) (old : option bytes) (data : bytes) (replace : bool) (r : res unit) (s' : fs) : Prop :=
  match r with
  | Ok _ => settled path (Some data) s' /\ (replace = true \/ old = None)
  | Err StorageFailure => settled path old s' \/ (replace = false /\ old = None /\ reads path (old_or_new old data) s')
  | Err OSError => replace = true /\ settled path old s'
  | Err StorageOutcomeUnknown => reads path (old_or_new old data) s'
  | Err _ => False
  end.

Lemma wp_atomic_write path old data replace s :
  ~ temp_prefix `prefix_of` path -> valid_name path = true -> settled path old s ->
  wp (reads path (old_or_new old data)) (_atomic_write path data replace) (write_outcome path old data replace) s.
Proof.
  intros Hpath Hvalid Hs. set (VI := old_or_new old data).
  assert (forall v, old = v -> VI v) as Hold by (intros v <-; by left). assert (VI (Some data)) as Hnew by by right.
  assert (reads path VI s) as HI by by apply (reads_mono path (eq old)).
  pose proof (settled_live _ _ _ Hs) as Hlive. unfold _atomic_write. apply wp_bind.
  eapply (wp_mono _ _ (fun r s' => s' = s /\ match r with Ok b => replace = true -> b = bool_decide (is_Some (fs_dir s !! path))
    | Err e => replace = true /\ e = OSError end)).
  { destruct replace; [|by apply wp_ret]. apply wp_syscall; [done|]. by rewrite Hvalid. }
  intros [there|e] s1 [-> Hthere]; [|by destruct Hthere as [-> ->]]. apply wp_bind.
  eapply (wp_mono _ _ (fun r s' => s' = s /\ match r with
    | Ok p => (replace = true \/ old = None) -> p = old
    | Err e => e = StorageFailure end)).
  { destruct there.
    - apply wp_bind, wp_attempt. eapply wp_mono; [by apply (wp_read_bytes path VI)|]. intros [b|e] s1 [-> Hb].
      + apply wp_ret. split; [done|]. intros _. congruence.
      + destruct Hb as [-> _]. by apply wp_fail.
    - apply wp_ret. split; [done|]. intros [->|]; [|done]. specialize (Hthere eq_refl). symmetry in Hthere.
      apply bool_decide_eq_false, eq_None_not_Some in Hthere.
      unfold live in Hlive. by rewrite Hthere in Hlive. }
  intros [previous|e] s1 [-> Hp]; [|subst e; by left]. unfold as_storage_failure. apply wp_bind, wp_attempt.
  eapply (wp_mono _ _ (fun r s' => match r with
    | Err OSError | Err FileNotFoundError => write_outcome path old data replace (Err StorageFailure) s'
    | Err StorageFailure | Err StorageOutcomeUnknown | Ok _ => write_outcome path old data replace r s'
    | Err _ => False end)).
  2: { intros [[]|e] s' H'; [by apply wp_ret|]. destruct e; try done; by apply wp_fail. }
  apply wp_bind. eapply wp_mono; [by apply (wp_stage_file path VI Hpath Hvalid (eq old) data)|].
  intros [identity|e] s1 H1; cbn [staged_or_not] in H1.
  2: { destruct H1 as [He H1]. assert (write_outcome path old data replace (Err StorageFailure) s1) as Hw; [|by destruct e].
       destruct H1 as [H1|(-> & Hd & Hr)]; [by left|]. right. split; [done|]. split.
       - by unfold live in Hlive; rewrite Hd in Hlive.
       - eapply reads_mono; [exact Hr|]. intros v [Hv|Hv]; [left|right]; done. }
  destruct H1 as (Hr1 & _ & Hl1 & Hrep).
  assert (replace = true \/ old = None) as Hrep'.
  { destruct Hrep as [|Hd]; [by left|right]. by unfold live in Hlive; rewrite Hd in Hlive. }
  assert (reads path VI s1) as HI1. { eapply reads_mono; [exact Hr1|]. intros v [Hv|Hv]; [left|right]; done. }
  apply wp_bind, wp_attempt. eapply wp_mono; [by apply (wp_fsync_directory path VI VI)|]. intros [[]|e] s2 (Hr2 & Hl2 & H2).
  { apply wp_ret. rewrite Hl1 in H2. by split. }
  rewrite H2, (Hp Hrep'). apply wp_bind. eapply wp_mono; [apply (wp_restore path VI Hpath Hvalid old identity); auto|].
  intros [[]|e'] s3 H3; [apply wp_fail; by left|by apply wp_fail|done].
Qed.

(** * The promises of a write *)

(** C23. Whichever calls fail and wherever the machine stops, what is found at the target
    afterwards, or read by a running program, is what was there before or exactly the new
    data.  Success means the new data is there on disk and, without [replace], that nothing
    was overwritten; a storage failure means the old contents are back on disk, unless a
    new file was linked and could not be unlinked again; an unknown outcome means one of
    the two; no other exception gets out but that of the initial look for the file. *)
Theorem atomic_write_atomic path data replace w old :
  ~ temp_prefix `prefix_of` path -> valid_name path = true -> settled path old (w_fs w) ->
  let '(r, w') := _atomic_write path data replace w in
  write_outcome path old data replace r (w_fs w') /\
  exists t, w_trace w' = w_trace w ++ t /\
    Forall (fun s => (forall v, crash_value s path v -> v = old \/ v = Some data) /\
                     (live s path = old \/ live s path = Some data)) t.
Proof.
  intros Hp Hv Hs. pose proof (wp_atomic_write path old data replace _ Hp Hv Hs w eq_refl) as [Ho (t & Ht & HI)].
  destruct (_atomic_write path data replace w) as [r w']. split; [done|]. exists t. split; [done|].
  eapply Forall_impl; [exact HI|]. intros s Hr. split; [intros v Hc; by eapply (reads_crash path (old_or_new old data))|].
  by apply (reads_live path (old_or_new old data)).
Qed.

(** Runs without faults, one call after the other. *)
Lemma run_bind {A B} (m : IO A) (k : A -> IO B) w a w' r : m w = (Ok a, w') -> k a w' = r -> io_bind m k w = r.
Proof. intros Hm <-. unfold io_bind. by rewrite Hm. Qed.

Lemma run_attempt {A} (m : IO A) w r w' : m w = (r, w') -> attempt m w = (Ok r, w').
Proof. unfold attempt. by intros ->. Qed.

Lemma run_at_name {A} name (f : fs -> res (A * fs)) s names tr a s' :
  valid_name name = true -> f s = Ok (a, s') -> at_name name f (MkWorld s [] names tr) = (Ok a, MkWorld s' [] names (tr ++ [s'])).
Proof. intros Hn Hf. unfold at_name, syscall. cbn. by rewrite Hn, Hf. Qed.

Lemma run_syscall {A} (f : fs -> res (A * fs)) s names tr a s' :
  f s = Ok (a, s') -> syscall f (MkWorld s [] names tr) = (Ok a, MkWorld s' [] names (tr ++ [s'])).
Proof. intros Hf. unfold syscall. cbn. by rewrite Hf. Qed.

Lemma run_touch s names tr : touch_fd (MkWorld s [] names tr) = (Ok tt, MkWorld s [] names (tr ++ [s])).
Proof. by apply run_syscall. Qed.

Lemma run_write_staged fd data s names tr :
  exists s' tr', write_staged fd data (MkWorld s [] names tr) = (Ok fd, MkWorld s' [] names tr') /\
    fs_dir s' = fs_dir s /\ fs_files s' = <[fd := data]> (fs_files s).
Proof.
  eexists _, _. split.
  - unfold write_staged. eapply run_bind.
    { eapply run_attempt, run_bind; [by apply run_syscall|]. eapply run_bind; [apply run_touch|].
      eapply run_bind; [by apply run_syscall|by apply run_syscall]. }
    eapply run_bind; [apply run_touch|reflexivity].
  - done.
Qed.

Lemma run_mkstemp suffix names s tr :
  forallb is_temp_char suffix = true -> fs_dir s !! (temp_prefix ++ suffix) = None ->
  exists s' tr', mkstemp (MkWorld s [] (suffix :: names) tr) = (Ok (fs_next s, temp_prefix ++ suffix), MkWorld s' [] names tr') /\
    fs_dir s' = <[temp_prefix ++ suffix := fs_next s]> (fs_dir s).
Proof.
  intros Hs Hf. eexists _, _. unfold mkstemp. cbn [w_fs w_names w_faults w_trace pick_name]. rewrite Hs, bool_decide_eq_true_2 by done. cbn [andb].
  split; [by apply run_syscall|done].
Qed.

Lemma run_install fd name path replace s names tr :
  name <> path -> valid_name name = true -> valid_name path = true -> fs_dir s !! name = Some fd ->
  (replace = true \/ fs_dir s !! path = None) ->
  exists s' tr', install_staged name path replace (MkWorld s [] names tr) = (Ok tt, MkWorld s' [] names tr') /\
    fs_dir s' = <[path := fd]> (delete name (fs_dir s)) /\ fs_files s' = fs_files s.
Proof.
  intros Hne Hn Hp Hd Hrep. unfold install_staged. destruct replace.
  - eexists _, _. split; [eapply run_bind; [eapply run_attempt, run_at_name; [done|unfold entry; by rewrite Hd]|reflexivity]|]. done.
  - destruct Hrep as [|Hrep]; [done|]. eexists _, _. split.
    + eapply run_bind; [eapply run_attempt, run_at_name; [done|unfold entry; rewrite Hd; cbn; rewrite Hrep; reflexivity]|].
      cbn beta iota. eapply run_bind; [eapply run_attempt, run_at_name; [done|]|reflexivity].
      unfold entry. cbn. rewrite lookup_insert_ne by done. by rewrite Hd.
    + split; [|done]. cbn. by rewrite delete_insert_ne.
Qed.

Lemma run_stage path data replace s suffix names tr :
  ~ temp_prefix `prefix_of` path -> valid_name path = true -> forallb is_temp_char suffix = true ->
  fs_dir s !! (temp_prefix ++ suffix) = None -> (replace = true \/ fs_dir s !! path = None) ->
  exists s' tr', _stage_file path data replace (MkWorld s [] (suffix :: names) tr) = (Ok (fs_next s), MkWorld s' [] names tr') /\
    fs_dir s' = <[path := fs_next s]> (fs_dir s) /\ fs_files s' !! fs_next s = Some data.
Proof.
  intros Hp Hv Hsuf Hfree Hrep. pose proof (temp_not_path path Hp Hv suffix) as Hne. pose proof (temp_valid suffix Hsuf) as Hvt.
  destruct (run_mkstemp suffix names s tr Hsuf Hfree) as (s1 & tr1 & H1 & Hd1). set (name := temp_prefix ++ suffix) in *.
  destruct (run_write_staged (fs_next s) data s1 names ((tr1 ++ [s1]) ++ [s1])) as (s2 & tr2 & H2 & Hd2 & Hf2).
  destruct (run_install (fs_next s) name path replace s2 names tr2) as (s' & tr' & Hi & Hd & Hf); [done..| | |].
  - rewrite Hd2, Hd1. apply lookup_insert_eq.
  - destruct Hrep as [|Hrep]; [by left|right]. rewrite Hd2, Hd1. by rewrite lookup_insert_ne.
  - exists s', tr'. split; [|split].
    + unfold _stage_file. eapply run_bind; [exact H1|]. cbn beta iota.
      eapply run_bind; [eapply run_attempt, run_bind; apply run_touch|]. cbn beta iota.
      eapply run_bind; [eapply run_attempt; exact H2|]. cbn beta iota. eapply run_bind; [exact Hi|reflexivity].
    + rewrite Hd, Hd2, Hd1. by rewrite delete_insert_id.
    + rewrite Hf, Hf2. apply lookup_insert_eq.
Qed.

(** When no call fails and a temporary name is free, a write to a path that may be
    written succeeds and leaves no file of its own behind. *)
Lemma atomic_write_succeeds path data replace s suffix names trace :
  ~ temp_prefix `prefix_of` path -> valid_name path = true ->
  forallb is_temp_char suffix = true -> fs_dir s !! (temp_prefix ++ suffix) = None ->
  match fs_dir s !! path with Some i => replace = true /\ is_Some (fs_files s !! i) | None => True end ->
  let '(r, w') := _atomic_write path data replace (MkWorld s [] (suffix :: names) trace) in
  r = Ok tt /\ live (w_fs w') path = Some data /\ fs_dir (w_fs w') = <[path := fs_next s]> (fs_dir s).
Proof.
  intros Hp Hv Hsuf Hfree Hpath.
  assert (replace = true \/ fs_dir s !! path = None) as Hrep by (destruct (fs_dir s !! path); [left; apply Hpath|by right]).
  assert (exists there tr1, (if replace then exists_path path else ret false) (MkWorld s [] (suffix :: names) trace) =
    (Ok there, MkWorld s [] (suffix :: names) tr1) /\ (there = true -> is_Some (live s path))) as (there & tr1 & H1 & Hthere).
  { destruct replace; [|by eexists _, _]. eexists _, _. split; [reflexivity|]. rewrite Hv. cbn. intros H%bool_decide_eq_true.
    unfold live. destruct (fs_dir s !! path); [apply Hpath|by destruct H]. }
  assert (exists previous tr2, (if there then let% r := attempt (read_bytes path) in match r with Ok b => ret (Some b)
    | Err e => if is_OSError e then fail StorageFailure else fail e end else ret None) (MkWorld s [] (suffix :: names) tr1) =
    (Ok previous, MkWorld s [] (suffix :: names) tr2)) as (previous & tr2 & H2).
  { destruct there; [|by eexists _, _]. destruct Hthere as [b Hb]; [done|]. eexists _, _.
    eapply run_bind; [eapply run_attempt, run_at_name; [done|]|reflexivity]. unfold entry, live in *.
    destruct (fs_dir s !! path); [|done]. cbn in *. by rewrite Hb. }
  destruct (run_stage path data replace s suffix names tr2) as (s3 & tr3 & H3 & Hd3 & Hf3); [done..|].
  assert (exists s4 tr4, _atomic_write path data replace (MkWorld s [] (suffix :: names) trace) = (Ok tt, MkWorld s4 [] names tr4) /\
    fs_dir s4 = fs_dir s3 /\ fs_files s4 = fs_files s3) as (s4 & tr4 & -> & Hd4 & Hf4).
  { eexists _, _. split; [|split].
    - unfold _atomic_write. eapply run_bind; [exact H1|]. eapply run_bind; [exact H2|]. unfold as_storage_failure. eapply run_bind.
      { eapply run_attempt, run_bind; [exact H3|]. reflexivity. }
      reflexivity.
    - done.
    - done. }
  split; [done|]. unfold live. cbn. rewrite Hd4, Hf4, Hd3, lookup_insert_eq. done.
Qed.

(** The restoration after a failed sync touches the target only while it is the very
    file this write installed: if another file has taken its place, it reports failure
    and changes nothing. *)
Lemma restore_spares_foreign path previous identity w i :
  fs_dir (w_fs w) !! path = Some i -> i <> identity -> valid_name path = true ->
  let '(r, w') := _restore_previous_after_failed_sync path previous identity w in r = Ok false /\ w_fs w' = w_fs w.
Proof.
  intros Hi Hne Hv. unfold _restore_previous_after_failed_sync, io_bind, attempt, lstat, at_name, syscall.
  destruct (w_faults w) as [|[] faults]; cbn; rewrite ?Hv; unfold entry; rewrite ?Hi; cbn; [|done|]; by rewrite bool_decide_eq_false_2.
Qed.
