(* ===== verification/ContainerScenarios.v ===== *)
(** Concrete containers and files: instances of the container's third-party operations that
    satisfy their laws, a container built, written and unlocked, and writes with and without
    failing calls. *)

From stdpp Require Import gmap.
From S2P Require Import Prelude PyVal Interfaces SignedUpdate Base64 Json JsonFacts Container ContainerFacts ContainerSafety Storage StorageFacts.

Open Scope Z_scope.

(** * Instances *)

Definition pad_to (n : nat) (b : bytes) : bytes := take n (b ++ repeat (byte_of_Z 0) n).

Lemma pad_to_length n b : length (pad_to n b) = n.
Proof. unfold pad_to. rewrite length_take, length_app, repeat_length. lia. Qed.

#[export] Instance toy_kdf : Kdf := {| argon2id secret salt := if (length salt =? 16)%nat then Some (pad_to 32 (secret ++ salt)) else None |}.

#[export] Instance toy_kdf_laws : KdfLaws.
Proof.
  split; cbn.
  - intros secret salt key. case_match; [|done]. intros [= <-]. apply pad_to_length.
  - intros secret salt ->. by eexists.
Qed.

(** No secrecy: the tag is made of the key, the nonce and a checksum of the associated data. *)
Definition toy_tag (key nonce aad : bytes) : bytes :=
  pad_to 16 (byte_of_Z (foldr Z.add 0 (byteZ <$> aad) mod 256) :: take 8 key ++ nonce).
#[global] Arguments toy_tag : simpl never.

#[export] Instance toy_aead : Aead := {|
  aead_seal key nonce aad plain :=
    if (length key =? 32)%nat && (length nonce =? 24)%nat then Some (plain, toy_tag key nonce aad) else None;
  aead_open key nonce aad ct tag :=
    if (length key =? 32)%nat && (length nonce =? 24)%nat && bool_decide (tag = toy_tag key nonce aad) then Some ct else None;
|}.

#[export] Instance toy_aead_laws : AeadLaws.
Proof.
  split; cbn.
  - intros key nonce aad plain -> ->. by eexists.
  - intros key nonce aad plain ct tag. case_match; [|done]. intros [= <- <-]. split; [done|apply pad_to_length].
  - intros key nonce aad plain ct tag. case_match; [|done]. intros [= <- <-]. cbn. by rewrite bool_decide_eq_true_2.
  - intros key nonce aad plain ct tag. destruct (_ && (length nonce =? 24)%nat) eqn:E; cbn; [|done]. case_bool_decide; [|done]. congruence.
Qed.

#[export] Instance toy_float : PyFloat := {| float_integer l := None; float_repr l := Some l |}.

(** * A container *)

Definition demo_password : pystr := py "correct horse battery".
Definition demo_bytes (n : nat) : bytes := repeat (byte_of_Z 7) n.
Definition demo_payload : list (pyval * pyval) :=
  [(PStr (py "note"), PStr [233; 10; 128512]); (PStr (py "list"), PList [PInt (-12); PBool true; PNone; PBytes (demo_bytes 2)])].
Definition demo_sorted : list (pyval * pyval) :=
  [(PStr (py "list"), PList [PInt (-12); PBool true; PNone; PBytes (demo_bytes 2)]); (PStr (py "note"), PStr [233; 10; 128512])].
Definition demo_kdf : json := _kdf_header (demo_bytes 16).

Definition demo_envelope : res json :=
  _build_v2_envelope demo_password (demo_bytes 32) demo_kdf (PDict demo_payload) (demo_bytes 24) (demo_bytes 24).

(** The demo payload, built, written, parsed and unlocked. *)
Lemma container_roundtrip_witness :
  exists envelope raw,
    _build_v2_envelope demo_password (demo_bytes 32) demo_kdf (PDict demo_payload) (demo_bytes 24) (demo_bytes 24) = Ok envelope /\
    _serialize envelope = Ok raw /\
    (Z.of_nat (length raw) <= _MAX_CONTAINER_BYTES ->
     exists parsed, _parse_container raw CURRENT_FORMAT_VERSION = Ok parsed /\
       _unlock_envelope parsed demo_password CURRENT_FORMAT_VERSION = Ok (demo_bytes 32, demo_sorted)).
Proof.
  apply (container_roundtrip demo_password (default [] (utf8_encode demo_password)) (demo_bytes 16) demo_kdf (demo_bytes 32) demo_payload
    demo_sorted (demo_bytes 24) (demo_bytes 24)); try (vm_compute; reflexivity). by left.
Defined.

Definition demo_unlocked : res (bytes * list (pyval * pyval)) :=
  let* envelope := demo_envelope in _unlock_envelope envelope demo_password CURRENT_FORMAT_VERSION.

Lemma demo_unlocks : demo_unlocked = Ok (demo_bytes 32, demo_sorted).
Proof. vm_compute. reflexivity. Qed.

Lemma container_authentic_witness :
  exists envelope, demo_envelope = Ok envelope /\ typed_value (PDict demo_sorted) = true /\
    exists kek aad box kdf, seals kek aad box (demo_bytes 32) /\ item envelope (py "wrap") = Ok box /\
      binds (py "kdf") kdf CURRENT_FORMAT_VERSION aad.
Proof.
  destruct demo_envelope as [envelope|e] eqn:E; [|exfalso; revert E; vm_compute; discriminate].
  exists envelope. split; [reflexivity|].
  assert (_unlock_envelope envelope demo_password CURRENT_FORMAT_VERSION = Ok (demo_bytes 32, demo_sorted)) as Hu.
  { pose proof demo_unlocks as Hd. unfold demo_unlocked in Hd. rewrite E in Hd. exact Hd. }
  destruct (container_authentic envelope demo_password CURRENT_FORMAT_VERSION (demo_bytes 32) demo_sorted Hu)
    as (Ht & _ & (kdf & s & salt & kek & box & aad & _ & _ & _ & _ & Hb & Hs & Ha & _) & _).
  split; [exact Ht|]. exists kek, aad, box, kdf. split; [exact Hs|]. split; [exact Hb|exact Ha].
Defined.

(** * Files *)

Definition demo_path : pystr := py "wallet.json".
Definition demo_old : bytes := demo_bytes 3.
Definition demo_new : bytes := repeat (byte_of_Z 9) 4.
Definition demo_fs : fs := MkFs {[demo_path := 0%nat]} [] {[0%nat := demo_old]} {[0%nat := demo_old]} 1.

(** The directory cannot be synced after the file was replaced. *)
Definition demo_world : world := MkWorld demo_fs (replicate 12 false ++ [true]) [py "ab"; py "cd"] [].

Lemma demo_settled : settled demo_path (Some demo_old) demo_fs.
Proof. constructor; [|constructor]. exists (Some demo_old). split; [reflexivity|]. split; [cbn; lia|]. by exists demo_old. Qed.

(** The failed sync is undone: the write reports a failure, and the old contents are back. *)
Lemma demo_write_fails :
  (_atomic_write demo_path demo_new true demo_world).1 = Err StorageFailure /\
  live (w_fs (_atomic_write demo_path demo_new true demo_world).2) demo_path = Some demo_old.
Proof. vm_compute. split; reflexivity. Qed.

Lemma atomic_write_atomic_witness :
  let '(r, w') := _atomic_write demo_path demo_new true demo_world in
  write_outcome demo_path (Some demo_old) demo_new true r (w_fs w') /\
  exists t, w_trace w' = w_trace demo_world ++ t /\
    Forall (fun s => (forall v, crash_value s demo_path v -> v = Some demo_old \/ v = Some demo_new) /\
                     (live s demo_path = Some demo_old \/ live s demo_path = Some demo_new)) t.
Proof.
  apply (atomic_write_atomic demo_path demo_new true demo_world (Some demo_old)); [|reflexivity|exact demo_settled].
  intros [k Hk]. vm_compute in Hk. discriminate Hk.
Defined.

Lemma atomic_write_succeeds_witness :
  let '(r, w') := _atomic_write demo_path demo_new true (MkWorld demo_fs [] [py "ab"] []) in
  r = Ok tt /\ live (w_fs w') demo_path = Some demo_new /\ fs_dir (w_fs w') = <[demo_path := fs_next demo_fs]> (fs_dir demo_fs).
Proof.
  apply (atomic_write_succeeds demo_path demo_new true demo_fs (py "ab") [] []); try reflexivity.
  - intros [k Hk]. vm_compute in Hk. discriminate Hk.
  - split; [reflexivity|]. exists demo_old. reflexivity.
Defined.
