(* ===== verification/WalletState.v ===== *)
(** The state of wallet sessions, the programs that run on it, payload fields, dispatch
    intents in a payload, and the secrets a payload holds (container.py).

    A method runs on the state of one session and the process it lives in: the session's
    fields, the byte arrays that hold secrets, the signer capabilities handed out, the latch
    registry, the one-use flags, and the files.  The rotation lock makes each method atomic.
    Random bytes and readings of the monotonic clock, in milliseconds, come from the process
    state; they are arbitrary. *)

From stdpp Require Import gmap.
From S2P Require Import Prelude PyVal Sha256 Interfaces SignedUpdate Rotation Signer Json Container Storage.

Open Scope Z_scope.

(** * State *)

(** A session.  [wl_dek], [wl_secret] and [wl_pending] are byte arrays: [self._dek] and the
    entries of [_WALLET_SECRETS] and [_PENDING_WALLET_SECRETS] under the session's handle.
    A capability that has invalidated itself may still be listed; invalidating it again
    has no effect. *)
Record wallet := MkWallet {
  wl_path : pystr;
  wl_dek : option nat;
  wl_secret : option nat;
  wl_pending : option nat;
  wl_payload : gmap pystr pyval;
  wl_envelope : json;
  wl_capabilities : list nat;
  wl_inactivity_seconds : Z;
  wl_last_activity : Z;
}.

Record machine := MkMachine {
  m_self : wallet;
  m_heap : list bytes;                   (* byte arrays *)
  m_caps : list Signer.capability;
  m_latches : latches;
  m_cells : gmap Z bool;                 (* consumption flags that are set *)
  m_failures : gmap pystr Z;             (* _AUTH_FAILURES *)
  m_world : world;
  m_random : list bytes;
  m_clock : list Z;
  m_now : Z;
}.

Definition set_self (f : wallet -> wallet) (m : machine) : machine :=
  MkMachine (f (m_self m)) (m_heap m) (m_caps m) (m_latches m) (m_cells m) (m_failures m) (m_world m) (m_random m) (m_clock m) (m_now m).
Definition set_heap (f : list bytes -> list bytes) (m : machine) : machine :=
  MkMachine (m_self m) (f (m_heap m)) (m_caps m) (m_latches m) (m_cells m) (m_failures m) (m_world m) (m_random m) (m_clock m) (m_now m).
Definition set_caps (f : list Signer.capability -> list Signer.capability) (m : machine) : machine :=
  MkMachine (m_self m) (m_heap m) (f (m_caps m)) (m_latches m) (m_cells m) (m_failures m) (m_world m) (m_random m) (m_clock m) (m_now m).
Definition set_latches (l : latches) (m : machine) : machine :=
  MkMachine (m_self m) (m_heap m) (m_caps m) l (m_cells m) (m_failures m) (m_world m) (m_random m) (m_clock m) (m_now m).
Definition set_cells (f : gmap Z bool -> gmap Z bool) (m : machine) : machine :=
  MkMachine (m_self m) (m_heap m) (m_caps m) (m_latches m) (f (m_cells m)) (m_failures m) (m_world m) (m_random m) (m_clock m) (m_now m).
Definition set_failures (f : gmap pystr Z -> gmap pystr Z) (m : machine) : machine :=
  MkMachine (m_self m) (m_heap m) (m_caps m) (m_latches m) (m_cells m) (f (m_failures m)) (m_world m) (m_random m) (m_clock m) (m_now m).
Definition set_world (w : world) (m : machine) : machine :=
  MkMachine (m_self m) (m_heap m) (m_caps m) (m_latches m) (m_cells m) (m_failures m) w (m_random m) (m_clock m) (m_now m).
Definition set_random (r : list bytes) (m : machine) : machine :=
  MkMachine (m_self m) (m_heap m) (m_caps m) (m_latches m) (m_cells m) (m_failures m) (m_world m) r (m_clock m) (m_now m).
Definition set_time (c : list Z) (now : Z) (m : machine) : machine :=
  MkMachine (m_self m) (m_heap m) (m_caps m) (m_latches m) (m_cells m) (m_failures m) (m_world m) (m_random m) c now.

Definition with_secret (s : option nat) (w : wallet) : wallet :=
  MkWallet (wl_path w) (wl_dek w) s (wl_pending w) (wl_payload w) (wl_envelope w) (wl_capabilities w) (wl_inactivity_seconds w) (wl_last_activity w).
Definition with_pending (p : option nat) (w : wallet) : wallet :=
  MkWallet (wl_path w) (wl_dek w) (wl_secret w) p (wl_payload w) (wl_envelope w) (wl_capabilities w) (wl_inactivity_seconds w) (wl_last_activity w).
(** [self._payload = p; self._envelope = e] *)
Definition with_content (p : gmap pystr pyval) (e : json) (w : wallet) : wallet :=
  MkWallet (wl_path w) (wl_dek w) (wl_secret w) (wl_pending w) p e (wl_capabilities w) (wl_inactivity_seconds w) (wl_last_activity w).
Definition with_capabilities (c : list nat) (w : wallet) : wallet :=
  MkWallet (wl_path w) (wl_dek w) (wl_secret w) (wl_pending w) (wl_payload w) (wl_envelope w) c (wl_inactivity_seconds w) (wl_last_activity w).
Definition with_last_activity (t : Z) (w : wallet) : wallet :=
  MkWallet (wl_path w) (wl_dek w) (wl_secret w) (wl_pending w) (wl_payload w) (wl_envelope w) (wl_capabilities w) (wl_inactivity_seconds w) t.
(** The fields [_lock] leaves. *)
Definition locked (w : wallet) : wallet :=
  MkWallet (wl_path w) None None None ∅ (JObj []) [] (wl_inactivity_seconds w) (wl_last_activity w).

(** * Programs *)

Definition W (A : Type) : Type := machine -> res A * machine.

Definition wret {A} (a : A) : W A := fun m => (Ok a, m).
Definition wfail {A} (e : exn) : W A := fun m => (Err e, m).
Definition wbind {A B} (p : W A) (k : A -> W B) : W B :=
  fun m => match p m with (Ok a, m') => k a m' | (Err e, m') => (Err e, m') end.
Definition wattempt {A} (p : W A) : W (res A) := fun m => let r := p m in (Ok r.1, r.2).
Definition wget {A} (f : machine -> A) : W A := fun m => (Ok (f m), m).
Definition wset (f : machine -> machine) : W unit := fun m => (Ok tt, f m).
Definition wlift {A} (r : res A) : W A := fun m => (r, m).
Definition wio {A} (p : IO A) : W A := fun m => let r := p (m_world m) in (r.1, set_world r.2 m).

Declare Scope wallet_scope.
Delimit Scope wallet_scope with wallet.
Notation "'let&' x := m 'in' k" := (wbind m (fun x => k))
  (at level 10, x pattern, m at level 100, k at level 200) : wallet_scope.
Notation "'refuse_if' c 'with' e ; k" := (if c then wfail e else k)
  (at level 10, c at level 100, e at level 99, k at level 200) : wallet_scope.
Open Scope wallet_scope.

Definition self {A} (f : wallet -> A) : W A := wget (fun m => f (m_self m)).

(** [try: p finally: c] *)
Definition wfinally {A} (p : W A) (c : W unit) : W A :=
  let& r := wattempt p in
  let& _ := c in
  wlift r.

(** [time.monotonic()]: never before an earlier reading. *)
Definition monotonic : W Z := fun m =>
  match m_clock m with
  | [] => (Ok (m_now m), m)
  | t :: c => let now := Z.max (m_now m) t in (Ok now, set_time c now m)
  end.

Definition sleep (ms : Z) : W unit := wset (fun m => set_time (m_clock m) (m_now m + ms) m).

(** [secrets.token_bytes(n)] *)
Definition token_bytes (n : nat) : W bytes := fun m =>
  let fit (b : bytes) := take n (b ++ repeat (byte_of_Z 0) n) in
  match m_random m with
  | [] => (Ok (fit []), m)
  | b :: r => (Ok (fit b), set_random r m)
  end.

(** [bytearray(b)] *)
Definition new_bytearray (b : bytes) : W nat := fun m => (Ok (length (m_heap m)), set_heap (fun h => h ++ [b]) m).

(** [bytes(a)] *)
Definition bytes_of (a : nat) : W bytes := wget (fun m => default [] (m_heap m !! a)).

Definition wipe_array (a : nat) (h : list bytes) : list bytes := alter (fun b => repeat (byte_of_Z 0) (length b)) a h.

Definition _wipe (buffer : option nat) : W unit :=
  match buffer with None => wret tt | Some a => wset (set_heap (wipe_array a)) end.

(** * Payload fields *)

Definition f_private_seed : pystr := py "private_seed".
Definition f_public_key : pystr := py "public_key".
Definition _PENDING_PRIVATE_SEED : pystr := py "pending_private_seed".
Definition _PENDING_PUBLIC_KEY : pystr := py "pending_public_key".
Definition _ROTATION_DISPATCH_INTENT : pystr := py "rotation_dispatch_intent".
Definition _SIGNING_FIELDS : list pystr :=
  [f_private_seed; f_public_key; _PENDING_PRIVATE_SEED; _PENDING_PUBLIC_KEY; _ROTATION_DISPATCH_INTENT].

#[global] Arguments f_private_seed : simpl never.
#[global] Arguments f_public_key : simpl never.
#[global] Arguments _PENDING_PRIVATE_SEED : simpl never.
#[global] Arguments _PENDING_PUBLIC_KEY : simpl never.
#[global] Arguments _ROTATION_DISPATCH_INTENT : simpl never.

(** A payload as the value that is encoded, and the payload of a decoded map. *)
Definition payload_value (p : gmap pystr pyval) : pyval := PDict ((fun kv => (PStr kv.1, kv.2)) <$> map_to_list p).

Fixpoint payload_of (d : list (pyval * pyval)) : gmap pystr pyval :=
  match d with
  | [] => ∅
  | (PStr k, v) :: d' => <[k := v]> (payload_of d')
  | _ :: d' => payload_of d'
  end.

(** [p.get(k)], with [None] for an absent key. *)
Definition field (p : gmap pystr pyval) (k : pystr) : pyval := default PNone (p !! k).

(** [v is None] *)
Definition is_none (v : pyval) : bool := match v with PNone => true | _ => false end.

(** [_SIGNING_FIELDS.intersection(payload)] is not empty. *)
Definition has_signing_fields (d : list (pyval * pyval)) : bool :=
  existsb (fun kv => match kv.1 with PStr k => bool_decide (k ∈ _SIGNING_FIELDS) | _ => false end) d.

(** ** Dispatch intents in a payload *)

Definition intent_keys : list pystr :=
  [py "owner_name"; py "predecessor_owner_public_key"; py "successor_owner_public_key"; py "predecessor_state_hash";
   py "sequence"; py "envelope_hash"].

Definition _to_payload (i : rotation_binding) : pyval :=
  PDict ([(PStr (py "owner_name"), PBytes (rb_owner_name i));
          (PStr (py "predecessor_owner_public_key"), PBytes (rb_predecessor_owner_public_key i));
          (PStr (py "successor_owner_public_key"), PBytes (rb_successor_owner_public_key i));
          (PStr (py "predecessor_state_hash"), PBytes (rb_predecessor_state_hash i));
          (PStr (py "sequence"), PInt (rb_sequence i));
          (PStr (py "envelope_hash"), PBytes (rb_envelope_hash i))] ++
         match rb_environment i with Some e => [(PStr (py "environment"), PStr e)] | None => [] end).

(** The items of a dict whose keys are all text. *)
Fixpoint text_items (d : list (pyval * pyval)) : option (list (pystr * pyval)) :=
  match d with
  | [] => Some []
  | (PStr k, v) :: d' => cons (k, v) <$> text_items d'
  | _ => None
  end.

Definition _from_payload (value : pyval) : res rotation_binding :=
  match value with
  | PDict d =>
      match text_items d with
      | None => Err InvalidContainer
      | Some items =>
          raise_if negb (obj_keys_are items intent_keys || obj_keys_are items (py "environment" :: intent_keys)) with InvalidContainer;
          raise_if match obj_get (py "environment") items with
                   | Some e => negb (valid_registry_environment e) | None => false end with InvalidContainer;
          let get k := default PNone (obj_get k items) in
          RotationDispatchIntent (get (py "owner_name")) (get (py "predecessor_owner_public_key"))
            (get (py "successor_owner_public_key")) (get (py "predecessor_state_hash")) (get (py "sequence"))
            (get (py "envelope_hash")) (get (py "environment"))
      end
  | _ => Err InvalidContainer
  end.

Section Keys.
Context `{Ed25519}.

(** [_validate_seed_public_key_pair(seed, public_key)]; the two as bytes. *)
Definition _validate_seed_public_key_pair (seed public_key : pyval) : res (bytes * bytes) :=
  match seed with
  | PBytes s =>
      raise_if negb (length s =? _KEY_LENGTH)%nat with InvalidContainer;
      match public_key with
      | PBytes k =>
          raise_if negb (length k =? _KEY_LENGTH)%nat with InvalidContainer;
          match ed_public s with
          | None => Err InvalidContainer
          | Some derived => raise_if negb (bool_decide (k = derived)) with InvalidContainer; Ok (s, k)
          end
      | _ => Err InvalidContainer
      end
  | _ => Err InvalidContainer
  end.

(** [_public_key_for_secret(seed, stored_public_key)] *)
Definition _public_key_for_secret (seed : option nat) (stored_public_key : pyval) : W bytes :=
  match seed with
  | None => wfail SignerUnavailable
  | Some a =>
      let& s := bytes_of a in
      refuse_if negb (length s =? _KEY_LENGTH)%nat with SignerUnavailable;
      match stored_public_key with
      | PBytes k =>
          refuse_if negb (length k =? _KEY_LENGTH)%nat with SignerUnavailable;
          match ed_public s with
          | None => wfail SignerUnavailable
          | Some derived => refuse_if negb (bool_decide (k = derived)) with SignerUnavailable; wret derived
          end
      | _ => wfail SignerUnavailable
      end
  end.

(** The pending pair of a payload, if it has one. *)
Definition install_pending (seed key : pyval) (active_key : bytes) : res (option (bytes * bytes)) :=
  if is_none seed then raise_if negb (is_none key) with InvalidContainer; Ok None
  else
    let* (s, k) := _validate_seed_public_key_pair seed key in
    raise_if bool_decide (k = active_key) with InvalidContainer;
    Ok (Some (s, k)).

(** A stored intent is for the active and the pending key. *)
Definition check_intent (payload : gmap pystr pyval) (active_key : bytes) (pending : option (bytes * bytes)) : res unit :=
  match payload !! _ROTATION_DISPATCH_INTENT with
  | None => Ok tt
  | Some raw =>
      match pending with
      | None => Err InvalidContainer
      | Some (_, pending_key) =>
          let* intent := _from_payload raw in
          raise_if negb (bool_decide (rb_predecessor_owner_public_key intent = active_key)) ||
                   negb (bool_decide (rb_successor_owner_public_key intent = pending_key)) with InvalidContainer;
          Ok tt
      end
  end.

(** [_install_secret_material]: the payload without its seeds, and the seeds. *)
Definition _install_secret_material (payload : gmap pystr pyval)
    : res (gmap pystr pyval * option bytes * option bytes) :=
  let seed := field payload f_private_seed in
  let pending_seed := field payload _PENDING_PRIVATE_SEED in
  let rest := delete _PENDING_PRIVATE_SEED (delete f_private_seed payload) in
  let public_key := field rest f_public_key in
  let pending_public_key := field rest _PENDING_PUBLIC_KEY in
  if is_none seed then
    raise_if negb (is_none public_key) || negb (is_none pending_seed) || negb (is_none pending_public_key) ||
             bool_decide (is_Some (rest !! _ROTATION_DISPATCH_INTENT)) with InvalidContainer;
    Ok (rest, None, None)
  else
    let* (active, active_key) := _validate_seed_public_key_pair seed public_key in
    let* pending := install_pending pending_seed pending_public_key active_key in
    let* _ := check_intent rest active_key pending in
    Ok (rest, Some active, fst <$> pending).
End Keys.
