(* ===== verification/Wallet.v ===== *)
(** Wallet sessions: locking, storing, creating, opening, migrating and importing, signer
    capabilities, and the payload and password operations (container.py, [Wallet]). *)

From stdpp Require Import gmap.
From S2P Require Import Prelude PyVal Sha256 Interfaces SignedUpdate Rotation Signer Base64 Json Container Storage WalletState.

Open Scope Z_scope.

(** * Unlock failures *)

(** [_record_unlock_failure(path)]: counts the failure and waits. *)
Definition unlock_delay (count : Z) : Z := Z.min (50 * 2 ^ Z.min (count - 1) 4) 500.

Definition _record_unlock_failure (path : pystr) : W unit :=
  let& failures := wget m_failures in
  let count := default 0 (failures !! path) + 1 in
  let& _ := wset (set_failures (fun f => <[path := Z.min count 32]> f)) in
  sleep (unlock_delay count).

Definition _clear_unlock_failures (path : pystr) : W unit := wset (set_failures (fun f => delete path f)).

Definition _validate_inactivity (minutes : pyval) : res Z :=
  match minutes with
  | PInt n => raise_if negb ((1 <=? n) && (n <=? 15)) with InvalidContainer; Ok n
  | _ => Err InvalidContainer
  end.

(** * Locking *)

Definition _invalidate_capabilities : W unit :=
  let& caps := self wl_capabilities in
  let& _ := wset (set_caps (fun store => foldr (alter Signer.invalidate) store caps)) in
  wset (set_self (with_capabilities [])).

Definition _lock : W unit :=
  let& _ := _invalidate_capabilities in
  let& seed := self wl_secret in
  let& _ := _wipe seed in
  let& pending_seed := self wl_pending in
  let& _ := _wipe pending_seed in
  let& dek := self wl_dek in
  let& _ := _wipe dek in
  wset (set_self locked).

Definition lock : W unit := _lock.
Definition background : W unit := lock.

Definition is_unlocked : W bool := self (fun w => bool_decide (is_Some (wl_dek w))).

(** [check_inactivity(now=now)] *)
Definition check_inactivity (now : option Z) : W bool :=
  let& unlocked := is_unlocked in
  if negb unlocked then wret true
  else
    let& current := match now with Some t => wret t | None => monotonic end in
    let& last := self wl_last_activity in
    let& limit := self wl_inactivity_seconds in
    if limit * 1000 <=? current - last then let& _ := lock in wret true else wret false.

Definition _require_unlocked : W unit :=
  let& unlocked := is_unlocked in
  refuse_if negb unlocked with WalletLockedError;
  wret tt.

Definition _touch : W unit :=
  let& _ := _require_unlocked in
  let& expired := check_inactivity None in
  refuse_if expired : bool with WalletLockedError;
  let& now := monotonic in
  wset (set_self (with_last_activity now)).

Definition last_activity : W Z := let& _ := _require_unlocked in self wl_last_activity.

Definition _ensure_rotation_dispatch_not_latched : W unit :=
  let& payload := self wl_payload in
  refuse_if bool_decide (is_Some (payload !! _ROTATION_DISPATCH_INTENT)) with RotationInProgress;
  wret tt.

(** * Storage of the session *)

Section Session.
Context `{PyFloat} `{Kdf} `{Aead} `{Ed25519}.

Definition _persist_envelope (envelope : json) : W unit :=
  let& path := self wl_path in
  let& r := wattempt (let& raw := wlift (_serialize envelope) in wio (_atomic_write path raw true)) in
  match r with
  | Ok _ => wret tt
  | Err StorageOutcomeUnknown => let& _ := lock in wfail StorageOutcomeUnknown
  | Err e => wfail e
  end.

(** The payload with the active seed and its public key, as it is stored. *)
Definition store_active (payload : gmap pystr pyval) (active_seed_override : option nat) : W (gmap pystr pyval) :=
  let& secret := self wl_secret in
  match (match active_seed_override with Some a => Some a | None => secret end) with
  | None => wret payload
  | Some a =>
      let& seed := bytes_of a in
      let p := <[f_private_seed := PBytes seed]> payload in
      match active_seed_override with
      | Some _ => wret p
      | None =>
          let& current := self wl_payload in
          let& key := wlift (of_option KeyError (current !! f_public_key)) in
          wret (<[f_public_key := key]> p)
      end
  end.

(** The payload with the pending seed and its public key, or without them. *)
Definition store_pending (payload : gmap pystr pyval) (pending_seed_override : option nat) (include_pending : bool)
    : W (gmap pystr pyval) :=
  if include_pending then
    let& pending := self wl_pending in
    match (match pending_seed_override with Some a => Some a | None => pending end) with
    | None => wret payload
    | Some a =>
        match payload !! _PENDING_PUBLIC_KEY with
        | Some (PBytes k) =>
            refuse_if negb (length k =? _KEY_LENGTH)%nat with InvalidContainer;
            let& seed := bytes_of a in
            wret (<[_PENDING_PUBLIC_KEY := PBytes k]> (<[_PENDING_PRIVATE_SEED := PBytes seed]> payload))
        | _ => wfail InvalidContainer
        end
    end
  else wret (delete _PENDING_PUBLIC_KEY (delete _PENDING_PRIVATE_SEED payload)).

Definition _build_envelope (payload : gmap pystr pyval) (pending_seed_override active_seed_override : option nat)
    (include_pending : bool) : W json :=
  let& _ := _require_unlocked in
  let& envelope := self wl_envelope in
  let& salt := wlift (let* kdf := item envelope (py "kdf") in let* s := item kdf (py "salt") in _b64_decode (Some s) (Some _SALT_LENGTH)) in
  let kdf := _kdf_header salt in
  let& wrap := wlift (item envelope (py "wrap")) in
  let& dek := self wl_dek in
  match dek with
  | None => wfail WalletLockedError
  | Some d =>
      let& p := store_active payload active_seed_override in
      let& p := store_pending p pending_seed_override include_pending in
      let& dek := bytes_of d in
      let& nonce := token_bytes _NONCE_LENGTH in
      let& sealed := wlift (_make_payload dek (payload_value p) nonce CURRENT_FORMAT_VERSION) in
      wret (envelope_json kdf wrap sealed)
  end.

(** Build, persist, and only then adopt a new payload. *)
Definition replace_content (payload : gmap pystr pyval) (pending_seed_override active_seed_override : option nat)
    (include_pending : bool) : W json :=
  let& envelope := _build_envelope payload pending_seed_override active_seed_override include_pending in
  let& _ := _persist_envelope envelope in
  wret envelope.

Definition adopt (payload : gmap pystr pyval) (envelope : json) : W unit := wset (set_self (with_content payload envelope)).

(** * Opening and creating *)

(** [cls(path, dek, payload, envelope, inactivity_minutes)]; the new session becomes
    the current one. *)
Definition new_wallet (path : pystr) (dek : nat) (payload : gmap pystr pyval) (envelope : json) (inactivity_minutes : Z) : W unit :=
  let& (rest, seed, pending) := wlift (_install_secret_material payload) in
  let& secret := match seed with Some s => let& a := new_bytearray s in wret (Some a) | None => wret None end in
  let& pending := match pending with Some s => let& a := new_bytearray s in wret (Some a) | None => wret None end in
  let& now := monotonic in
  wset (set_self (fun _ => MkWallet path (Some dek) secret pending rest envelope [] (inactivity_minutes * 60) now)).

(** The [except] clauses around creation: the file is removed again, the key wiped. *)
Definition undo_creation {A} (target : pystr) (created : bool) (dek : option nat) (e : exn) : W A :=
  let& _ := if created then wio (swallow (unlink target)) else wret tt in
  let& _ := _wipe dek in
  wfail (if is_WalletError e then e else StorageFailure).

Definition _create_storage (path : pystr) (password confirmation payload inactivity_minutes : pyval) : W unit :=
  let& password := wlift (_validate_password password (Some confirmation)) in
  let& minutes := wlift (_validate_inactivity inactivity_minutes) in
  match payload with
  | PDict d =>
      let& key := token_bytes _KEY_LENGTH in
      let& dek := new_bytearray key in
      let& salt := token_bytes _SALT_LENGTH in
      let& wrap_nonce := token_bytes _NONCE_LENGTH in
      let& payload_nonce := token_bytes _NONCE_LENGTH in
      let& built := wattempt (
        let& envelope := wlift (_build_v2_envelope password key (_kdf_header salt) payload wrap_nonce payload_nonce) in
        let& raw := wlift (_serialize envelope) in
        let& _ := wio (_atomic_write path raw false) in
        wret envelope) in
      match built with
      | Err e => undo_creation path false (Some dek) e
      | Ok envelope =>
          let& r := wattempt (new_wallet path dek (payload_of d) envelope minutes) in
          match r with
          | Ok _ => wret tt
          | Err e => undo_creation path true (Some dek) e
          end
      end
  | _ => wfail InvalidContainer
  end.

Definition create (path : pystr) (password confirmation payload inactivity_minutes : pyval) : W unit :=
  match payload with
  | PDict d =>
      refuse_if has_signing_fields d with InvalidContainer;
      _create_storage path password confirmation payload inactivity_minutes
  | _ => wfail InvalidContainer
  end.

(** [_generate_seed()] with the approved generator. *)
Definition generate_seed : W nat :=
  let& drawn := token_bytes _KEY_LENGTH in
  let& seed := wlift (Signer._generate_seed true (Ok (PBytes drawn))) in
  new_bytearray seed.

Definition create_with_generated_key (path : pystr) (password confirmation inactivity_minutes : pyval) : W unit :=
  let& seed := generate_seed in
  wfinally (
    let& s := bytes_of seed in
    let& public_key := wlift (Signer._public_key_from_seed s) in
    _create_storage path password confirmation
      (PDict [(PStr f_private_seed, PBytes s); (PStr f_public_key, PBytes public_key)]) inactivity_minutes)
    (_wipe (Some seed)).

Definition _read_envelope (path : pystr) : W json :=
  let& raw := wio (_read path) in
  wlift (_parse_container raw CURRENT_FORMAT_VERSION).

(** Unlocking with the failure count around it; the data key in a byte array. *)
Definition unlock_counted (target : pystr) (envelope : json) (password : pystr) (version : Z) : W (nat * gmap pystr pyval) :=
  match _unlock_envelope envelope password version with
  | Ok (dek, payload) =>
      let& a := new_bytearray dek in
      let& _ := _clear_unlock_failures target in
      wret (a, payload_of payload)
  | Err UnlockFailed => let& _ := _record_unlock_failure target in wfail UnlockFailed
  | Err e => wfail e
  end.

Definition open (path : pystr) (password inactivity_minutes : pyval) : W unit :=
  let& password := wlift (_validate_password password None) in
  let& minutes := wlift (_validate_inactivity inactivity_minutes) in
  let& envelope := _read_envelope path in
  let& (dek, payload) := unlock_counted path envelope password CURRENT_FORMAT_VERSION in
  new_wallet path dek payload envelope minutes.

(** The [except Exception] clause of migration and import: a session that was made is
    locked, a key that was not handed over is wiped. *)
Definition undo_session {A} (dek : option nat) (made : bool) (e : exn) : W A :=
  let& _ := if made then lock else _wipe dek in
  wfail (if is_WalletError e then e else StorageFailure).

Definition migrate_container (path : pystr) (password inactivity_minutes : pyval) : W unit :=
  let& password := wlift (_validate_password password None) in
  let& minutes := wlift (_validate_inactivity inactivity_minutes) in
  let& raw := wio (_read path) in
  let& envelope := wlift (_parse_container raw 1) in
  let& unlocked := wattempt (unlock_counted path envelope password 1) in
  match unlocked with
  | Err e => undo_session None false e
  | Ok (dek, payload) =>
      let& made := wattempt (
        let& key := bytes_of dek in
        let& kdf := wlift (item envelope (py "kdf")) in
        let& wrap_nonce := token_bytes _NONCE_LENGTH in
        let& payload_nonce := token_bytes _NONCE_LENGTH in
        let& migrated := wlift (_build_v2_envelope password key kdf (payload_value payload) wrap_nonce payload_nonce) in
        let& _ := new_wallet path dek payload migrated minutes in
        wret migrated) in
      match made with
      | Err e => undo_session (Some dek) false e
      | Ok migrated =>
          let& r := wattempt (let& raw := wlift (_serialize migrated) in wio (_atomic_write path raw true)) in
          match r with Ok _ => wret tt | Err e => undo_session None true e end
      end
  end.

Definition import_container (path : pystr) (data password inactivity_minutes : pyval) : W unit :=
  let& password := wlift (_validate_password password None) in
  let& minutes := wlift (_validate_inactivity inactivity_minutes) in
  match data with
  | PBytes raw =>
      let& envelope := wlift (_parse_container raw CURRENT_FORMAT_VERSION) in
      let& unlocked := wattempt (unlock_counted path envelope password CURRENT_FORMAT_VERSION) in
      match unlocked with
      | Err e => undo_session None false e
      | Ok (dek, payload) =>
          let& made := wattempt (new_wallet path dek payload envelope minutes) in
          match made with
          | Err e => undo_session (Some dek) false e
          | Ok _ =>
              let& r := wattempt (wio (_atomic_write path raw false)) in
              match r with Ok _ => wret tt | Err e => undo_session None true e end
          end
      end
  | _ => wfail InvalidContainer
  end.

(** * Keys and signers *)

Definition public_key : W bytes :=
  let& _ := _touch in
  let& seed := self wl_secret in
  let& payload := self wl_payload in
  _public_key_for_secret seed (field payload f_public_key).

Definition create_signer (timeout : Z) : W nat :=
  let& _ := _touch in
  let& _ := _ensure_rotation_dispatch_not_latched in
  let& secret := self wl_secret in
  let& payload := self wl_payload in
  match secret, field payload f_public_key with
  | Some a, PBytes stored =>
      let& seed := bytes_of a in
      refuse_if negb (length seed =? _KEY_LENGTH)%nat || negb (length stored =? _KEY_LENGTH)%nat with SignerUnavailable;
      let& now := monotonic in
      let& id := wget (fun m => length (m_caps m)) in
      match Signer._create_capability_from_seed 1000 (PBytes seed) timeout (Z.of_nat id) now true ∅ with
      | Err _ => wfail SignerUnavailable
      | Ok c =>
          let& _ := wset (set_caps (fun store => store ++ [c])) in
          if negb (bool_decide (Signer.cap_public_key c = stored)) then
            let& _ := wset (set_caps (alter Signer.invalidate id)) in
            wfail SignerUnavailable
          else
            let& _ := wset (set_self (fun w => with_capabilities (id :: wl_capabilities w) w)) in
            wret id
      end
  | _, _ => wfail SignerUnavailable
  end.

Definition signing_key_rotation_dispatch_intent : W (option rotation_binding) :=
  let& _ := _touch in
  let& payload := self wl_payload in
  match payload !! _ROTATION_DISPATCH_INTENT with
  | None => wret None
  | Some raw => let& intent := wlift (_from_payload raw) in wret (Some intent)
  end.

Definition pending_signing_public_key : W (option bytes) :=
  let& _ := _touch in
  let& seed := self wl_pending in
  let& payload := self wl_payload in
  match seed, field payload _PENDING_PUBLIC_KEY with
  | None, PNone => wret None
  | None, _ => wfail SignerUnavailable
  | Some _, stored => let& k := _public_key_for_secret seed stored in wret (Some k)
  end.

(** * Payload, export and password *)

(** [updated[k] = self._payload[k]] when [c]. *)
Definition keep_field (c : bool) (k : pystr) (updated : gmap pystr pyval) : W (gmap pystr pyval) :=
  if c then
    let& payload := self wl_payload in
    let& v := wlift (of_option KeyError (payload !! k)) in
    wret (<[k := v]> updated)
  else wret updated.

(** A key that is not text is refused when the payload is encoded. *)
Definition update_payload (payload : pyval) : W unit :=
  let& _ := _touch in
  match payload with
  | PDict d =>
      refuse_if has_signing_fields d with InvalidContainer;
      let& secret := self wl_secret in
      let& pending := self wl_pending in
      let& current := self wl_payload in
      let& updated := keep_field (bool_decide (is_Some secret)) f_public_key (payload_of d) in
      let& updated := keep_field (bool_decide (is_Some pending)) _PENDING_PUBLIC_KEY updated in
      let& updated := keep_field (bool_decide (is_Some (current !! _ROTATION_DISPATCH_INTENT))) _ROTATION_DISPATCH_INTENT updated in
      refuse_if bool_decide (text_items d = None) with InvalidContainer;
      let& envelope := replace_content updated None None true in
      let& _ := adopt updated envelope in
      _invalidate_capabilities
  | _ => wfail InvalidContainer
  end.

(** Python's [==] on values read from or written as JSON. *)
Definition json_number (v : json) : option Z :=
  match v with
  | JInt z => Some z
  | JBool b => Some (if b then 1 else 0)
  | JFloat l => float_integer l
  | _ => None
  end.

Fixpoint json_eq (a b : json) : bool :=
  let fix list_eq (l m : list json) : bool :=
    match l, m with
    | [], [] => true
    | x :: l', y :: m' => json_eq x y && list_eq l' m'
    | _, _ => false
    end in
  let fix items_in (o p : list (pystr * json)) : bool :=
    match o with
    | [] => true
    | (k, v) :: o' => match obj_get k p with Some v' => json_eq v v' | None => false end && items_in o' p
    end in
  match a, b with
  | JNull, JNull => true
  | JStr s, JStr t => bool_decide (s = t)
  | JArr l, JArr m => list_eq l m
  | JObj o, JObj p => (length o =? length p)%nat && items_in o p
  | JFloat l, JFloat m =>
      match float_integer l, float_integer m with Some x, Some y => x =? y | None, None => bool_decide (l = m) | _, _ => false end
  | _, _ => match json_number a, json_number b with Some x, Some y => x =? y | _, _ => false end
  end.

Definition export_container : W bytes :=
  let& _ := _touch in
  let& path := self wl_path in
  let& raw := wio (_read path) in
  let& envelope := wlift (_parse_container raw CURRENT_FORMAT_VERSION) in
  let& current := self wl_envelope in
  refuse_if negb (json_eq envelope current) with InvalidContainer;
  wret raw.

Definition change_password (password confirmation : pyval) : W unit :=
  let& _ := _touch in
  let& password := wlift (_validate_password password (Some confirmation)) in
  let& salt := token_bytes _SALT_LENGTH in
  let kdf := _kdf_header salt in
  let& kek := wlift (_derive_kek password salt) in
  let& dek := self wl_dek in
  match dek with
  | None => wfail WalletLockedError
  | Some d =>
      let& dek := bytes_of d in
      let& nonce := token_bytes _NONCE_LENGTH in
      let& wrapped := wlift (_wrap_dek kek dek kdf nonce CURRENT_FORMAT_VERSION) in
      let& current := self wl_envelope in
      let& current_payload := wlift (item current (py "payload")) in
      let envelope := envelope_json kdf wrapped current_payload in
      let& _ := _persist_envelope envelope in
      let& payload := self wl_payload in
      adopt payload envelope
  end.
End Session.
