(* ===== verification/WalletRotation.v ===== *)
(** Rotation of a wallet's signing key: staging a successor, latching the dispatch intent
    before it is used, and promoting or dropping the successor (container.py, [Wallet];
    identity.py, the capabilities' methods the wallet calls). *)

From stdpp Require Import gmap.
From S2P Require Import Prelude PyVal Sha256 Interfaces SignedUpdate Draft Consent Rotation Adapter Dispatch Signer Base64 Json Container Storage WalletState Wallet.

Open Scope Z_scope.

Section Rotate.
Context `{PyFloat} `{Kdf} `{Aead} `{Ed25519} `{Cbor}.

(** * Rotation of the signing key *)

Definition prepare_signing_key_rotation : W bytes :=
  let& _ := _touch in
  let& _ := _ensure_rotation_dispatch_not_latched in
  let& existing_pending_seed := self wl_pending in
  match existing_pending_seed with
  | Some _ =>
      let& pending_public_key := pending_signing_public_key in
      match pending_public_key with Some k => wret k | None => wfail SignerUnavailable end
  | None =>
      let& active_seed := self wl_secret in
      let& payload := self wl_payload in
      match active_seed, field payload f_public_key with
      | Some _, PBytes active_public_key =>
          let& pending_seed := generate_seed in
          let& r := wattempt (
            let& s := bytes_of pending_seed in
            let& pending_public_key := wlift (Signer._public_key_from_seed s) in
            refuse_if bool_decide (pending_public_key = active_public_key) with KeyGenerationError;
            let updated := <[_PENDING_PUBLIC_KEY := PBytes pending_public_key]> payload in
            let& envelope := replace_content updated (Some pending_seed) None true in
            wret (pending_public_key, updated, envelope)) in
          match r with
          | Err e => let& _ := _wipe (Some pending_seed) in wfail e
          | Ok (pending_public_key, updated, envelope) =>
              let& _ := wset (set_self (with_pending (Some pending_seed))) in
              let& _ := adopt updated envelope in
              let& _ := _invalidate_capabilities in
              wret pending_public_key
          end
      | _, _ => wfail SignerUnavailable
      end
  end.

(** [draft] is [None] for an argument that is not an [IdentityDraft]. *)
Definition prove_pending_signing_key_rotation (draft : option identity_draft) : W unit :=
  let& _ := _touch in
  let& _ := _ensure_rotation_dispatch_not_latched in
  let& pending_seed := self wl_pending in
  let& active_seed := self wl_secret in
  let& payload := self wl_payload in
  match pending_seed, active_seed, field payload _PENDING_PUBLIC_KEY, field payload f_public_key with
  | Some p, Some _, PBytes pending_public_key, PBytes active_public_key =>
      match draft with
      | None => wfail InvalidIdentityRequest
      | Some d =>
          let& derived_active := _public_key_for_secret active_seed (PBytes active_public_key) in
          let& derived_pending := _public_key_for_secret pending_seed (PBytes pending_public_key) in
          let bound :=
            let* v := IdentityDraft (PBytes (draft_signed_update_bytes d)) (py_opt PBytes (draft_previous_state_envelope d))
                        (PTuple (PBytes <$> draft_previous_state_history d)) in
            let* _ := validate_owner_key_rotation_binding v (PBytes derived_active) (PBytes derived_pending) in
            Ok v in
          match bound with
          | Err _ => wfail InvalidIdentityRequest
          | Ok v =>
              let digest := sha256 (draft_signed_update_bytes v) in
              let& seed := bytes_of p in
              match ed_public seed with
              | None => wfail SignerUnavailable
              | Some _ => refuse_if negb (ed_verify derived_pending (ed_sign seed digest) digest) with SignerUnavailable; wret tt
              end
          end
      end
  | _, _, _, _ => wfail SignerUnavailable
  end.

(** ** The capabilities of the adapter, as the wallet uses them *)

(** [confirmation._matches_intent(intent)]; a confirmation carries its seal. *)
Definition confirmation_matches (c : rotation_confirmation) (intent : rotation_binding) : bool :=
  bool_decide (_rotation_binding (conf_binding c) = _rotation_binding intent).

(** [publication._matches_intent(intent)], also for a rejection, whose attributes are
    those of its publication. *)
Definition matches_publication (p : rotation_publication) (intent : rotation_binding) : bool :=
  match publication_matches p intent with Ok b => b | Err _ => false end.

(** [publication._mark_latched(intent)] *)
Definition _mark_latched (p : rotation_publication) (intent : rotation_binding) : W bool :=
  if matches_publication p intent then
    let& l := wget m_latches in
    let r := register l intent true in
    let& _ := wset (set_latches r.2) in
    wret r.1
  else wret false.

(** [_clear_latch(intent)] of a capability that matches the intent. *)
Definition _clear_latch (matches : bool) (intent : rotation_binding) : W bool :=
  if matches then
    let& l := wget m_latches in
    let r := clear l intent in
    let& _ := wset (set_latches r.2) in
    wret r.1
  else wret false.

(** [_is_latched(intent)] of a capability that matches the intent. *)
Definition _is_latched (matches : bool) (intent : rotation_binding) : W bool :=
  if matches then let& l := wget m_latches in wret (is_latched l intent) else wret false.

(** [rejection._claim()] and [rejection._release()] *)
Definition _claim (r : rotation_rejection) : W bool :=
  let& cells := wget m_cells in
  if default false (cells !! rej_cell r) then wret false
  else let& _ := wset (set_cells (fun c => <[rej_cell r := true]> c)) in wret true.

Definition _release (r : rotation_rejection) : W unit := wset (set_cells (fun c => <[rej_cell r := false]> c)).

(** ** The durable latch *)

(** [latch_signing_key_rotation_dispatch_intent(bundle, publication)] at the time
    [now] of the wall clock; [None] for arguments of another type. *)
Definition latch_signing_key_rotation_dispatch_intent (bundle : option identity_bundle)
    (publication : option rotation_publication) (now : Z) : W dispatch_permit :=
  let& _ := _touch in
  let& _ := _ensure_rotation_dispatch_not_latched in
  match bundle with
  | None => wfail InvalidIdentityRequest
  | Some b =>
      let validated :=
        let* raw := bundle_to_cbor b in
        let* v := bundle_from_cbor (PBytes raw) in
        let* envelope := finalize v in
        Ok (v, envelope) in
      match validated, publication with
      | Ok (v, finalized_envelope), Some p =>
          refuse_if (pub_expires_at p <=? now) || negb (publication_matches_bundle p v) with InvalidIdentityRequest;
          let draft := bundle_draft v in
          let& f := wlift (draft_view draft) in
          match df_authorization f with
          | Some a =>
              refuse_if negb (auth_operation a =? 5) with InvalidIdentityRequest;
              let& _ := prove_pending_signing_key_rotation (Some draft) in
              let& active_public_key := public_key in
              let& successor := pending_signing_public_key in
              match successor with
              | None => wfail SignerUnavailable
              | Some successor_public_key =>
                  let& intent := wlift (RotationDispatchIntent (PBytes (df_owner_name f)) (PBytes active_public_key)
                    (PBytes successor_public_key) (PBytes (auth_predecessor a)) (PInt (df_sequence f))
                    (PBytes (sha256 finalized_envelope)) (PStr (pub_environment p))) in
                  refuse_if negb (matches_publication p intent) with InvalidIdentityRequest;
                  let& l := wget m_latches in
                  refuse_if is_owner_latched l (rb_owner_name intent) with InvalidIdentityRequest;
                  let& _ := _invalidate_capabilities in
                  let& payload := self wl_payload in
                  let updated := <[_ROTATION_DISPATCH_INTENT := _to_payload intent]> payload in
                  let& envelope := replace_content updated None None true in
                  let& _ := adopt updated envelope in
                  let& marked := _mark_latched p intent in
                  refuse_if negb marked with InvalidIdentityRequest;
                  wret (RotationDispatchPermit intent true)
              end
          | None => wfail InvalidIdentityRequest
          end
      | _, _ => wfail InvalidIdentityRequest
      end
  end.

(** [consent] is [None] when it is not callable; it may act on the wallet. *)
Definition bind_legacy_rotation_dispatch_environment (environment : pyval)
    (consent : option (rotation_binding -> pyval -> W pyval)) : W rotation_binding :=
  let& _ := _touch in
  let& intent := signing_key_rotation_dispatch_intent in
  match intent, consent, environment with
  | Some i, Some ask, PStr e =>
      refuse_if bool_decide (is_Some (rb_environment i)) || negb (valid_registry_environment environment) with InvalidIdentityRequest;
      let& approved := wattempt (ask i environment) in
      match approved with
      | Err _ => wfail InvalidIdentityRequest
      | Ok answer =>
          let& _ := _touch in
          match answer with
          | PBool true =>
              let& intent' := signing_key_rotation_dispatch_intent in
              refuse_if negb (bool_decide (intent' = Some i)) with InvalidIdentityRequest;
              let bound := replace_environment i (Some e) in
              let& payload := self wl_payload in
              let updated := <[_ROTATION_DISPATCH_INTENT := _to_payload bound]> payload in
              let& envelope := _build_envelope updated None None true in
              let& _ := _invalidate_capabilities in
              let& _ := _persist_envelope envelope in
              let& _ := adopt updated envelope in
              wret bound
          | _ => wfail InvalidIdentityRequest
          end
      end
  | _, _, _ => wfail InvalidIdentityRequest
  end.

(** The seeds and keys of a rotation whose intent is stored, checked against it; the
    successor's key. *)
Definition check_rotation_keys (intent : rotation_binding) : W bytes :=
  let& active_seed := self wl_secret in
  let& pending_seed := self wl_pending in
  let& payload := self wl_payload in
  match active_seed, pending_seed, field payload f_public_key, field payload _PENDING_PUBLIC_KEY with
  | Some _, Some _, PBytes active_public_key, PBytes pending_public_key =>
      refuse_if negb (bool_decide (active_public_key = rb_predecessor_owner_public_key intent)) ||
                negb (bool_decide (pending_public_key = rb_successor_owner_public_key intent)) with SignerUnavailable;
      let& _ := _public_key_for_secret active_seed (PBytes active_public_key) in
      _public_key_for_secret pending_seed (PBytes pending_public_key)
  | _, _, _, _ => wfail SignerUnavailable
  end.

(** The intent stored in the payload. *)
Definition stored_intent : W rotation_binding :=
  let& payload := self wl_payload in
  match field payload _ROTATION_DISPATCH_INTENT with
  | PNone => wfail InvalidIdentityRequest
  | raw => wlift (_from_payload raw)
  end.

(** The latch is checked again under the owner's lock; the method is atomic here. *)
Definition finalize_signing_key_rotation (confirmation : option rotation_confirmation) : W bytes :=
  let& _ := _touch in
  match confirmation with
  | None => wfail InvalidIdentityRequest
  | Some c =>
      let& intent := stored_intent in
      let matches := confirmation_matches c intent in
      refuse_if negb matches with InvalidIdentityRequest;
      let& successor_public_key := check_rotation_keys intent in
      refuse_if negb (bool_decide (successor_public_key = rb_successor_owner_public_key (conf_binding c))) with SignerUnavailable;
      let& latched := _is_latched matches intent in
      refuse_if negb latched with InvalidIdentityRequest;
      let& active_seed := self wl_secret in
      let& pending_seed := self wl_pending in
      let& payload := self wl_payload in
      let updated := delete _ROTATION_DISPATCH_INTENT (delete _PENDING_PUBLIC_KEY (<[f_public_key := PBytes successor_public_key]> payload)) in
      let& _ := _invalidate_capabilities in
      let& envelope := replace_content updated None pending_seed false in
      let& _ := wset (set_self (fun w => with_pending None (with_secret pending_seed w))) in
      let& _ := adopt updated envelope in
      let& _ := _wipe active_seed in
      let& cleared := _clear_latch matches intent in
      refuse_if negb cleared with InvalidIdentityRequest;
      wret successor_public_key
  end.

Definition is_EXPIRED (s : PublishStatus) : bool := match s with st_EXPIRED => true | _ => false end.

Definition resolve_signing_key_rotation_rejection (rejection : option rotation_rejection) : W unit :=
  let& _ := _touch in
  match rejection with
  | None => wfail InvalidIdentityRequest
  | Some r =>
      refuse_if negb (is_EXPIRED (rej_status r)) with InvalidIdentityRequest;
      let& intent := stored_intent in
      let matches := matches_publication (rej_publication r) intent in
      refuse_if negb matches with InvalidIdentityRequest;
      let& _ := check_rotation_keys intent in
      let& latched := _is_latched matches intent in
      refuse_if negb latched with InvalidIdentityRequest;
      let& claimed := _claim r in
      refuse_if negb claimed with InvalidIdentityRequest;
      let& payload := self wl_payload in
      let updated := delete _ROTATION_DISPATCH_INTENT payload in
      let& stored := wattempt (replace_content updated None None true) in
      match stored with
      | Err e => let& _ := _release r in wfail e
      | Ok envelope =>
          let& _ := adopt updated envelope in
          let& _ := _invalidate_capabilities in
          let& _ := _clear_latch matches intent in
          wret tt
      end
  end.

Definition cancel_signing_key_rotation : W unit :=
  let& _ := _touch in
  let& _ := _ensure_rotation_dispatch_not_latched in
  let& pending_seed := self wl_pending in
  let& payload := self wl_payload in
  match pending_seed with
  | None => match field payload _PENDING_PUBLIC_KEY with PNone => wret tt | _ => wfail SignerUnavailable end
  | Some _ =>
      let updated := delete _PENDING_PUBLIC_KEY payload in
      let& envelope := replace_content updated None None false in
      let& _ := adopt updated envelope in
      let& _ := wset (set_self (with_pending None)) in
      let& _ := _wipe pending_seed in
      _invalidate_capabilities
  end.
End Rotate.
