(* ===== verification/WalletFacts.v ===== *)
(** Wallet sessions keep their promises: key pairs stay matched, the active key changes only
    by a confirmed rotation, and a secret that is no longer held is erased. *)

From stdpp Require Import gmap.
From S2P Require Import Prelude PyVal Sha256 Interfaces SignedUpdate Draft Consent Rotation Adapter Dispatch Signer Base64 Json Container Storage WalletState Wallet WalletRotation.

Open Scope Z_scope.

(** * Reasoning about methods *)

(** [p] run from [m] ends in [Q]. *)
Definition wwp {A} (p : W A) (Q : res A -> machine -> Prop) (m : machine) : Prop := Q (p m).1 (p m).2.

Lemma wwp_mono {A} (p : W A) (Q Q' : res A -> machine -> Prop) m :
  wwp p Q m -> (forall r m', Q r m' -> Q' r m') -> wwp p Q' m.
Proof. unfold wwp. auto. Qed.

Lemma wwp_bind {A B} (p : W A) (k : A -> W B) (Q : res B -> machine -> Prop) m :
  wwp p (fun r m' => match r with Ok a => wwp (k a) Q m' | Err e => Q (Err e) m' end) m -> wwp (wbind p k) Q m.
Proof. unfold wwp, wbind. by destruct (p m) as [[a|e] m']. Qed.

Lemma wwp_attempt {A} (p : W A) (Q : res (res A) -> machine -> Prop) m : wwp p (fun r => Q (Ok r)) m -> wwp (wattempt p) Q m.
Proof. done. Qed.

Lemma wwp_ret {A} (a : A) (Q : res A -> machine -> Prop) m : Q (Ok a) m -> wwp (wret a) Q m.
Proof. done. Qed.

Lemma wwp_fail {A} e (Q : res A -> machine -> Prop) m : Q (Err e) m -> wwp (wfail e) Q m.
Proof. done. Qed.

Lemma wwp_lift {A} (r : res A) (Q : res A -> machine -> Prop) m : Q r m -> wwp (wlift r) Q m.
Proof. done. Qed.

Lemma wwp_get {A} (f : machine -> A) (Q : res A -> machine -> Prop) m : Q (Ok (f m)) m -> wwp (wget f) Q m.
Proof. done. Qed.

Lemma wwp_self {A} (f : wallet -> A) (Q : res A -> machine -> Prop) m : Q (Ok (f (m_self m))) m -> wwp (self f) Q m.
Proof. done. Qed.

Lemma wwp_set f (Q : res unit -> machine -> Prop) m : Q (Ok tt) (f m) -> wwp (wset f) Q m.
Proof. done. Qed.

(** Look up the fields of a payload that was just changed. *)
Ltac look_fields :=
  repeat first [rewrite lookup_insert_eq|rewrite lookup_insert_ne by done|rewrite lookup_delete_eq|rewrite lookup_delete_ne by done].

(** * What a session holds *)

(** The byte arrays a session refers to. *)
Definition option_list {A} (o : option A) : list A := match o with Some a => [a] | None => [] end.
Definition secrets (w : wallet) : list nat := option_list (wl_dek w) ++ option_list (wl_secret w) ++ option_list (wl_pending w).

Definition zeroed (b : bytes) : Prop := Forall (eq (byte_of_Z 0)) b.

(** Byte arrays that no session will ever wipe: the data keys that a refused [open] left
    behind.  The invariant is stated up to them. *)
Class Lost := lost : list nat.

Definition no_lost : Lost := [].

Section Leftover.
Context {L : Lost}.

Definition spent (a : nat) (b : bytes) : Prop := zeroed b \/ a ∈ lost.

Lemma zeroed_spent a b : zeroed b -> spent a b.
Proof. by left. Qed.

(** No byte array but those of the session, and the lost ones, holds anything. *)
Definition clean (m : machine) : Prop :=
  forall a b, m_heap m !! a = Some b -> a ∈ secrets (m_self m) \/ spent a b.

Definition in_heap (h : list bytes) (o : option nat) (v : option bytes) : Prop :=
  match o, v with
  | None, None => True
  | Some a, Some b => h !! a = Some b
  | _, _ => False
  end.

Section Keys.
Context `{Ed25519}.

(** The seeds match the public keys of the payload; a successor differs from the active
    key; a stored intent is for exactly this pair; seeds are not in the payload. *)
Definition keys_ok (p : gmap pystr pyval) (seed pending : option bytes) : Prop :=
  p !! f_private_seed = None /\ p !! _PENDING_PRIVATE_SEED = None /\
  match seed with
  | None => pending = None /\ field p f_public_key = PNone /\ field p _PENDING_PUBLIC_KEY = PNone /\ p !! _ROTATION_DISPATCH_INTENT = None
  | Some s =>
      exists k, ed_public s = Some k /\ length s = _KEY_LENGTH /\ length k = _KEY_LENGTH /\ p !! f_public_key = Some (PBytes k) /\
      match pending with
      | None => field p _PENDING_PUBLIC_KEY = PNone /\ p !! _ROTATION_DISPATCH_INTENT = None
      | Some t =>
          exists k', ed_public t = Some k' /\ length t = _KEY_LENGTH /\ length k' = _KEY_LENGTH /\
          p !! _PENDING_PUBLIC_KEY = Some (PBytes k') /\ k' <> k /\
          forall raw, p !! _ROTATION_DISPATCH_INTENT = Some raw ->
            exists i, _from_payload raw = Ok i /\ rb_predecessor_owner_public_key i = k /\ rb_successor_owner_public_key i = k'
      end
  end.

(** A session is locked, with nothing left, or holds a data key and matching key pairs in
    byte arrays of their own. *)
Definition session_ok (w : wallet) (h : list bytes) : Prop :=
  match wl_dek w with
  | None => wl_secret w = None /\ wl_pending w = None /\ wl_payload w = ∅ /\ wl_envelope w = JObj []
  | Some d =>
      NoDup (secrets w) /\ (exists dek, h !! d = Some dek) /\
      exists seed pending, in_heap h (wl_secret w) seed /\ in_heap h (wl_pending w) pending /\ keys_ok (wl_payload w) seed pending
  end.

Definition machine_ok (m : machine) : Prop := session_ok (m_self m) (m_heap m) /\ clean m.

(** ** What installing secrets from a payload checks *)

Lemma validate_pair_ok seed key s k :
  _validate_seed_public_key_pair seed key = Ok (s, k) ->
  seed = PBytes s /\ key = PBytes k /\ ed_public s = Some k /\ length s = _KEY_LENGTH /\ length k = _KEY_LENGTH.
Proof.
  unfold _validate_seed_public_key_pair. destruct seed as [| | |s'| | | | |]; try done. intros Hv. inv_ok. bool_hyps.
  destruct key as [| | |k'| | | | |]; try done. inv_ok. destruct (ed_public s') as [derived|] eqn:E; [|done]. inv_ok. bool_hyps. subst. done.
Qed.

Lemma field_bytes p k b : field p k = PBytes b -> p !! k = Some (PBytes b).
Proof. unfold field. destruct (p !! k); cbn; congruence. Qed.

Lemma is_none_true v : is_none v = true -> v = PNone.
Proof. by destruct v. Qed.

Lemma install_pending_ok seed key active_key pd :
  install_pending seed key active_key = Ok pd ->
  match pd with
  | None => key = PNone
  | Some (t, k') => key = PBytes k' /\ ed_public t = Some k' /\ length t = _KEY_LENGTH /\ length k' = _KEY_LENGTH /\ k' <> active_key
  end.
Proof.
  unfold install_pending. destruct (is_none seed).
  - intros Hp. inv_ok. bool_hyps. by apply is_none_true.
  - intros Hp. apply res_bind_ok in Hp as ([t k'] & (_ & Hk & Ht & Hlt & Hlk)%validate_pair_ok & Hp). inv_ok. bool_hyps. done.
Qed.

Lemma install_ok payload rest seed pending :
  _install_secret_material payload = Ok (rest, seed, pending) -> keys_ok rest seed pending.
Proof.
  unfold _install_secret_material. set (r := delete _PENDING_PRIVATE_SEED (delete f_private_seed payload)).
  assert (r !! f_private_seed = None /\ r !! _PENDING_PRIVATE_SEED = None) as [H1 H2].
  { unfold r. split; [|apply lookup_delete_eq]. rewrite lookup_delete_ne by done. apply lookup_delete_eq. }
  destruct (is_none (field payload f_private_seed)) eqn:E; intros Hi.
  - inv_ok. bool_hyps. split; [done|]. split; [done|]. split; [done|].
    split; [by apply is_none_true|]. split; [by apply is_none_true|]. by apply eq_None_not_Some.
  - apply res_bind_ok in Hi as ([s k] & (_ & Hk & Hs & Hls & Hlk)%validate_pair_ok & Hi).
    apply res_bind_ok in Hi as (pd & Hpd & Hi). apply res_bind_ok in Hi as ([] & Hint & [= <- <- <-]).
    split; [done|]. split; [done|]. exists k. repeat (split; [done|]). split; [by apply field_bytes|].
    apply install_pending_ok in Hpd. destruct pd as [[t k']|]; cbn.
    + destruct Hpd as (Hk' & Ht & Hlt & Hlk' & Hne). exists k'. repeat (split; [done|]). split; [by apply field_bytes|]. split; [done|].
      intros raw Hraw. unfold check_intent in Hint. rewrite Hraw in Hint. apply res_bind_ok in Hint as (i & Hi & Hint).
      inv_ok. bool_hyps. eauto.
    + split; [done|]. unfold check_intent in Hint. by destruct (r !! _ROTATION_DISPATCH_INTENT).
Qed.
End Keys.

(** * Steps that keep a session or lock it *)

(** What the invariant depends on. *)
Definition core (w : wallet) := (wl_path w, wl_dek w, wl_secret w, wl_pending w, wl_payload w, wl_envelope w).

Definition kept (m m' : machine) : Prop := core (m_self m') = core (m_self m) /\ m_heap m' = m_heap m.

(** Besides the session's own, those of [xs] and the lost ones, every byte array is zeroed. *)
Definition clean_but (xs : list nat) (m : machine) : Prop :=
  forall a b, m_heap m !! a = Some b -> a ∈ secrets (m_self m) \/ a ∈ xs \/ spent a b.

Definition shut (xs : list nat) (m m' : machine) : Prop :=
  m_self m' = locked (m_self m') /\ clean_but xs m' /\ length (m_heap m') = length (m_heap m) /\
  (forall a, a ∈ xs -> a ∉ secrets (m_self m) -> m_heap m' !! a = m_heap m !! a).

(** The session is as it was, or locked. *)
Definition idle (xs : list nat) (m m' : machine) : Prop := kept m m' \/ shut xs m m'.

Lemma kept_refl m : kept m m.
Proof. done. Qed.

Lemma kept_trans m1 m2 m3 : kept m1 m2 -> kept m2 m3 -> kept m1 m3.
Proof. unfold kept. intros [] []. split; congruence. Qed.

Lemma core_secrets w w' : core w' = core w -> secrets w' = secrets w.
Proof. unfold core, secrets. intros [= _ -> -> -> _ _]. done. Qed.

Lemma kept_secrets m m' : kept m m' -> secrets (m_self m') = secrets (m_self m).
Proof. intros [Hc _]. by apply core_secrets. Qed.

Lemma kept_clean xs m m' : kept m m' -> clean_but xs m -> clean_but xs m'.
Proof. intros Hk Hc a b. rewrite (kept_secrets _ _ Hk). destruct Hk as [_ ->]. apply Hc. Qed.

Lemma kept_shut xs m1 m2 m3 : kept m1 m2 -> shut xs m2 m3 -> shut xs m1 m3.
Proof.
  intros Hk (Hl & Hc & Hh & Hx). pose proof (kept_secrets _ _ Hk) as Hs. destruct Hk as [_ Hk].
  split; [done|]. split; [done|]. rewrite <-Hk, <-Hs. done.
Qed.

Lemma kept_idle xs m1 m2 m3 : kept m1 m2 -> idle xs m2 m3 -> idle xs m1 m3.
Proof. intros Hk [Hk'|Hs]; [left; by eapply kept_trans|right; by eapply kept_shut]. Qed.

(** ** Wiping *)

Lemma zeroed_repeat n : zeroed (repeat (byte_of_Z 0) n).
Proof. unfold zeroed. induction n; constructor; done. Qed.

Lemma wipe_lookup a h c b : wipe_array a h !! c = Some b -> (c = a /\ zeroed b) \/ (c <> a /\ h !! c = Some b).
Proof.
  unfold wipe_array. destruct (decide (c = a)) as [->|Hne].
  - rewrite list_lookup_alter_eq. intros (b' & Hb & ->)%fmap_Some. left. split; [done|apply zeroed_repeat].
  - rewrite list_lookup_alter_ne by done. by right.
Qed.

(** Byte arrays after a list of them was wiped. *)
Fixpoint wiped (xs : list nat) (h : list bytes) : list bytes :=
  match xs with [] => h | a :: xs' => wiped xs' (wipe_array a h) end.

Lemma wiped_length xs h : length (wiped xs h) = length h.
Proof. revert h. induction xs as [|a xs IH]; intros h; [done|]. cbn. rewrite IH. apply length_alter. Qed.

Lemma wiped_other xs h a : a ∉ xs -> wiped xs h !! a = h !! a.
Proof.
  revert h. induction xs as [|x xs IH]; intros h Hn; [done|]. cbn. rewrite IH by set_solver. apply list_lookup_alter_ne. set_solver.
Qed.

Lemma wiped_lookup xs h c b : wiped xs h !! c = Some b -> zeroed b \/ (c ∉ xs /\ h !! c = Some b).
Proof.
  revert h. induction xs as [|x xs IH]; intros h; [right; split; [set_solver|done]|]. cbn.
  intros [Hz|[Hn [[-> Hz]|[Hne Hc]]%wipe_lookup]]%IH; [by left|by left|]. right. split; [|done]. set_solver.
Qed.

(** [_lock] clears the session and wipes exactly its byte arrays. *)
Lemma lock_wiped m :
  m_self (lock m).2 = locked (m_self m) /\
  m_heap (lock m).2 = wiped (option_list (wl_secret (m_self m)) ++ option_list (wl_pending (m_self m)) ++ option_list (wl_dek (m_self m))) (m_heap m) /\
  (lock m).1 = Ok tt.
Proof. unfold lock, _lock. destruct m as [[path [d|] [s|] [p|] ? ? ? ? ?] h]; cbn; done. Qed.

Lemma lock_shut xs m : clean_but xs m -> wwp lock (fun r m' => r = Ok tt /\ shut xs m m') m.
Proof.
  intros Hc. unfold wwp. destruct (lock_wiped m) as (Hself & Hheap & ->). split; [done|]. unfold shut. rewrite Hself, Hheap, wiped_length.
  split; [done|]. split; [|split; [done|]].
  - intros a b. rewrite Hheap. intros [Hz%(zeroed_spent a)|[Hn Hb]]%wiped_lookup; [by right; right|]. right. destruct (Hc a b Hb) as [Hs|]; [|done].
    destruct Hn. unfold secrets in Hs. set_solver.
  - intros a _ Hn. apply wiped_other. unfold secrets in Hn. set_solver.
Qed.

(** ** The steps methods are made of *)

Lemma invalidate_kept m : wwp _invalidate_capabilities (fun r m' => r = Ok tt /\ kept m m') m.
Proof. done. Qed.

Lemma monotonic_kept m : wwp monotonic (fun r m' => (exists t, r = Ok t) /\ kept m m') m.
Proof. unfold wwp, monotonic. destruct (m_clock m); cbn; (split; [eauto|by split]). Qed.

Lemma token_bytes_kept n m : wwp (token_bytes n) (fun r m' => (exists b, r = Ok b /\ length b = n) /\ kept m m') m.
Proof.
  assert (forall b : bytes, length (take n (b ++ repeat (byte_of_Z 0) n)) = n) as Hl.
  { intros b. rewrite length_take, length_app, repeat_length. lia. }
  unfold wwp, token_bytes. destruct (m_random m) as [|b r]; (split; [|by split]); eexists; (split; [reflexivity|]); [apply (Hl [])|apply (Hl b)].
Qed.

Definition unlocked (m : machine) : Prop := is_Some (wl_dek (m_self m)).

(** A method starts by failing, with the session as it was or locked, or goes on with an
    unlocked session. *)
Lemma touch_spec xs m :
  clean_but xs m ->
  wwp _touch (fun r m' => match r with Ok _ => kept m m' /\ unlocked m' | Err e => e = WalletLockedError /\ idle xs m m' end) m.
Proof.
  intros Hc. unfold _touch, _require_unlocked, check_inactivity, is_unlocked. apply wwp_bind, wwp_bind, wwp_self. cbn beta iota.
  case_bool_decide as Hu; cbn [negb]; [|apply wwp_fail; split; [done|left; apply kept_refl]].
  apply wwp_ret, wwp_bind, wwp_bind, wwp_self. cbn beta iota. rewrite bool_decide_eq_true_2 by done. cbn [negb].
  apply wwp_bind. eapply wwp_mono; [apply monotonic_kept|]. intros r m1 [[t ->] Hk1]. apply wwp_bind, wwp_self, wwp_bind, wwp_self.
  assert (unlocked m1) as Hu1 by (unfold unlocked; destruct Hk1 as [[= _ -> _ _ _ _] _]; done).
  case_match.
  - apply wwp_bind. eapply wwp_mono; [apply (lock_shut xs), (kept_clean xs m); done|]. intros r m2 [-> Hs]. apply wwp_ret.
    cbn. split; [done|]. eapply kept_idle; [done|by right].
  - apply wwp_ret. cbn. apply wwp_bind. eapply wwp_mono; [apply monotonic_kept|]. intros r m2 [[t' ->] Hk2]. apply wwp_set.
    assert (kept m m2) as Hk by by eapply kept_trans. split; [split; [|apply Hk]; apply Hk|].
    unfold unlocked. destruct Hk2 as [[= _ Hd _ _ _ _] _]. cbn. by rewrite Hd.
Qed.

(** [_touch] has nothing to do with the latch registry. *)
Lemma touch_latches m : m_latches (_touch m).2 = m_latches m.
Proof.
  assert (forall m, m_latches (monotonic m).2 = m_latches m) as Ht by (intros m'; unfold monotonic; by destruct (m_clock m')).
  assert (forall m, m_latches (lock m).2 = m_latches m) as Hl.
  { intros m'. unfold lock, _lock, _wipe. destruct m' as [[path [d|] [s|] [p|] ? ? ? ? ?]]; done. }
  change (wwp _touch (fun _ m' => m_latches m' = m_latches m) m).
  unfold _touch, check_inactivity, _require_unlocked, is_unlocked. apply wwp_bind, wwp_bind, wwp_self. cbn beta iota.
  destruct (bool_decide (is_Some (wl_dek (m_self m)))) eqn:Eu; cbn [negb]; [|done]. apply wwp_ret, wwp_bind, wwp_bind, wwp_self. cbn beta iota.
  rewrite Eu. cbn [negb]. apply wwp_bind. apply (wwp_mono _ (fun _ m' => m_latches m' = m_latches m)); [apply Ht|]. intros [t|e] m1 H1; [|done].
  apply wwp_bind, wwp_self, wwp_bind, wwp_self. destruct (_ <=? _).
  - apply wwp_bind. apply (wwp_mono _ (fun _ m' => m_latches m' = m_latches m)); [unfold wwp; by rewrite Hl|]. by intros [[]|e] m2 H2.
  - apply wwp_ret. cbn. apply wwp_bind. apply (wwp_mono _ (fun _ m' => m_latches m' = m_latches m)); [unfold wwp; by rewrite Ht|]. by intros [t'|e] m2 H2.
Qed.

Lemma not_latched_spec m :
  wwp _ensure_rotation_dispatch_not_latched (fun r m' => m' = m /\
    match r with Ok _ => wl_payload (m_self m) !! _ROTATION_DISPATCH_INTENT = None | Err e => e = RotationInProgress end) m.
Proof.
  unfold _ensure_rotation_dispatch_not_latched. apply wwp_bind, wwp_self. case_bool_decide as Hi; [by apply wwp_fail|].
  apply wwp_ret. split; [done|]. by apply eq_None_not_Some.
Qed.

Section Persist.
Context `{PyFloat} `{Kdf} `{Aead} `{Ed25519}.

Lemma persist_spec xs envelope m :
  clean_but xs m -> wwp (_persist_envelope envelope) (fun r m' => match r with Ok _ => kept m m' | Err e => idle xs m m' end) m.
Proof.
  intros Hc. unfold _persist_envelope. apply wwp_bind, wwp_self, wwp_bind, wwp_attempt.
  apply (wwp_mono _ (fun r m' => kept m m')).
  - apply wwp_bind, wwp_lift. destruct (_serialize envelope) as [raw|e]; by split.
  - intros [[]|e] m' Hk; [by apply wwp_ret|]. assert (idle xs m m') as Hi by by left.
    destruct e; try by apply wwp_fail. apply wwp_bind. eapply wwp_mono; [apply (lock_shut xs); by eapply kept_clean|].
    intros r m2 [-> Hs]. apply wwp_fail. right. by eapply kept_shut.
Qed.

Lemma store_active_spec payload o m : wwp (store_active payload o) (fun r m' => m' = m) m.
Proof.
  unfold store_active. apply wwp_bind, wwp_self. case_match; [|by apply wwp_ret]. apply wwp_bind, wwp_get.
  destruct o; [by apply wwp_ret|]. apply wwp_bind, wwp_self, wwp_bind, wwp_lift. destruct (of_option _ _); [by apply wwp_ret|done].
Qed.

Lemma store_pending_spec payload o include m : wwp (store_pending payload o include) (fun r m' => m' = m) m.
Proof.
  unfold store_pending. destruct include; [|by apply wwp_ret]. apply wwp_bind, wwp_self. cbn beta iota.
  destruct (match o with Some a => Some a | None => _ end) as [a|]; [|by apply wwp_ret].
  destruct (payload !! _PENDING_PUBLIC_KEY) as [[| | |k| | | | |]|]; try by apply wwp_fail.
  destruct (negb _); [by apply wwp_fail|]. apply wwp_bind, wwp_get. by apply wwp_ret.
Qed.

Lemma build_envelope_kept payload po ao include m :
  wwp (_build_envelope payload po ao include) (fun r m' => kept m m') m.
Proof.
  unfold _build_envelope, _require_unlocked, is_unlocked. apply wwp_bind, wwp_bind, wwp_self. cbn beta iota.
  case_bool_decide; cbn [negb]; [|apply wwp_fail, kept_refl]. apply wwp_ret, wwp_bind, wwp_self, wwp_bind, wwp_lift.
  match goal with |- match ?r with _ => _ end => destruct r as [salt|e]; [|apply kept_refl] end.
  apply wwp_bind, wwp_lift. destruct (item _ _) as [wrap|e]; [|apply kept_refl]. apply wwp_bind, wwp_self.
  destruct (wl_dek (m_self m)); [|apply kept_refl].
  apply wwp_bind. eapply wwp_mono; [apply store_active_spec|]. intros [p1|e] m1 ->; [|apply kept_refl].
  apply wwp_bind. eapply wwp_mono; [apply store_pending_spec|]. intros [p2|e] m1 ->; [|apply kept_refl].
  apply wwp_bind, wwp_get, wwp_bind. eapply wwp_mono; [apply token_bytes_kept|]. intros r m1 [(b & -> & _) Hk].
  apply wwp_bind, wwp_lift. destruct (_make_payload _ _ _ _); [by apply wwp_ret|done].
Qed.

Lemma replace_content_spec xs payload po ao include m :
  clean_but xs m ->
  wwp (replace_content payload po ao include) (fun r m' => match r with Ok _ => kept m m' | Err e => idle xs m m' end) m.
Proof.
  intros Hc. unfold replace_content. apply wwp_bind. eapply wwp_mono; [apply build_envelope_kept|].
  intros [envelope|e] m1 Hk; [|by left]. apply wwp_bind. eapply wwp_mono; [apply (persist_spec xs); by eapply kept_clean|].
  intros [[]|e] m2 Hm2; [apply wwp_ret; by eapply kept_trans|by eapply kept_idle].
Qed.
End Persist.

(** * The invariant of a session *)

Section Invariant.
Context `{Ed25519}.

Lemma clean_nil m : clean m <-> clean_but [] m.
Proof. unfold clean, clean_but. split; intros Hc a b Hb; destruct (Hc a b Hb) as [|]; set_solver. Qed.

Lemma kept_session m m' : kept m m' -> session_ok (m_self m) (m_heap m) -> session_ok (m_self m') (m_heap m').
Proof.
  intros Hk. pose proof (kept_secrets _ _ Hk) as Hs. destruct Hk as [Hc ->]. unfold session_ok. rewrite Hs.
  destruct (m_self m) as [p d s pd pl e c i l], (m_self m') as [p' d' s' pd' pl' e' c' i' l']. cbn in *. injection Hc as -> -> -> -> -> ->.
  done.
Qed.

Lemma kept_ok m m' : kept m m' -> machine_ok m -> machine_ok m'.
Proof.
  intros Hk [Hs Hc]. split; [by eapply kept_session|]. rewrite clean_nil in *. by eapply kept_clean.
Qed.

Lemma locked_session w h : w = locked w -> session_ok w h.
Proof. intros E. unfold session_ok. rewrite E. done. Qed.

Lemma shut_ok m m' : shut [] m m' -> machine_ok m'.
Proof. intros (Hl & Hc & _). split; [by apply locked_session|by apply clean_nil]. Qed.

(** The active seed and the public key stored for it. *)
Definition active (m : machine) : option bytes * pyval :=
  (wl_secret (m_self m) ≫= fun a => m_heap m !! a, field (wl_payload (m_self m)) f_public_key).

(** The invariant holds, and the active key is what it was unless the session is locked. *)
Definition stable (m m' : machine) : Prop := machine_ok m' /\ (unlocked m' -> active m' = active m).

Lemma kept_active m m' : kept m m' -> active m' = active m.
Proof. intros [[= _ _ Hs _ Hp _] Hh]. unfold active. by rewrite Hs, Hp, Hh. Qed.

Lemma idle_stable m m' : machine_ok m -> idle [] m m' -> stable m m'.
Proof.
  intros Hm [Hk|Hs]; split.
  - by eapply kept_ok.
  - intros _. by apply kept_active.
  - by eapply shut_ok.
  - destruct Hs as [E _]. unfold unlocked. rewrite E. by intros [].
Qed.

Lemma kept_stable m m' m'' : kept m m' -> stable m' m'' -> stable m m''.
Proof. intros Hk [Hm Ha]. split; [done|]. intros Hu. by rewrite (Ha Hu), (kept_active _ _ Hk). Qed.

(** What an unlocked session holds, taken apart. *)
Lemma unlocked_session m :
  machine_ok m -> unlocked m ->
  exists d seed pending, wl_dek (m_self m) = Some d /\ NoDup (secrets (m_self m)) /\ is_Some (m_heap m !! d) /\
    in_heap (m_heap m) (wl_secret (m_self m)) seed /\ in_heap (m_heap m) (wl_pending (m_self m)) pending /\
    keys_ok (wl_payload (m_self m)) seed pending.
Proof.
  intros [Hs _] [d Hd]. unfold session_ok in Hs. rewrite Hd in Hs. destruct Hs as (Hn & [dek Hdek] & seed & pending & Hs & Hp & Hk).
  exists d, seed, pending. eauto 10.
Qed.

(** The public key of a seed that is held. *)
Lemma public_key_for_secret_spec o stored m :
  wwp (_public_key_for_secret o stored) (fun r m' => m' = m /\ match r with
    | Ok k => exists a s, o = Some a /\ m_heap m !! a = Some s /\ ed_public s = Some k /\ stored = PBytes k
    | Err e => e = SignerUnavailable end) m.
Proof.
  unfold _public_key_for_secret. destruct o as [a|]; [|by apply wwp_fail]. apply wwp_bind, wwp_get. cbn beta iota.
  destruct (m_heap m !! a) as [s|] eqn:Es; [change (default [] (Some s)) with s|by apply wwp_fail].
  destruct (negb (length s =? _KEY_LENGTH)%nat); [by apply wwp_fail|]. destruct stored; try by apply wwp_fail.
  destruct (negb (length b =? _KEY_LENGTH)%nat); [by apply wwp_fail|]. destruct (ed_public s) as [k|] eqn:Ek; [|by apply wwp_fail].
  case_bool_decide; cbn [negb]; [|by apply wwp_fail]. subst. apply wwp_ret. eauto 10.
Qed.

(** A method that starts with [_touch]. *)
Lemma touched_latches {A} (k : W A) (Q : res A -> machine -> Prop) m :
  machine_ok m -> (forall e m', idle [] m m' -> Q (Err e) m') ->
  (forall m', kept m m' -> unlocked m' -> machine_ok m' -> m_latches m' = m_latches m -> wwp k Q m') -> wwp (let& _ := _touch in k) Q m.
Proof.
  intros Hm Hidle Hk. pose proof (touch_latches m) as Hl. pose proof (touch_spec [] m) as Ht. unfold wwp, wbind in *.
  destruct (_touch m) as [[[]|e] m']; cbn in *.
  - destruct Ht as [Hk' Hu]; [by apply clean_nil, Hm|]. apply Hk; [done|done|by eapply kept_ok|done].
  - apply Hidle, Ht. by apply clean_nil, Hm.
Qed.

Lemma touched {A} (k : W A) (Q : res A -> machine -> Prop) m :
  machine_ok m -> (forall e m', idle [] m m' -> Q (Err e) m') ->
  (forall m', kept m m' -> unlocked m' -> machine_ok m' -> wwp k Q m') -> wwp (let& _ := _touch in k) Q m.
Proof. intros Hm Hidle Hk. apply touched_latches; auto. Qed.

(** Adopting a payload that matches the seeds held. *)
Lemma adopt_ok m p e seed pending :
  machine_ok m -> unlocked m -> in_heap (m_heap m) (wl_secret (m_self m)) seed -> in_heap (m_heap m) (wl_pending (m_self m)) pending ->
  keys_ok p seed pending -> machine_ok (set_self (with_content p e) m).
Proof.
  intros [Hs Hc] [d Hd] H1 H2 Hk. split; [|exact Hc]. unfold session_ok in *. cbn. rewrite Hd in *. destruct Hs as (Hn & Hdek & _).
  split; [done|]. split; [done|]. eauto.
Qed.

Lemma kept_unlocked m m' : kept m m' -> unlocked m -> unlocked m'.
Proof. intros [[= _ Hd _ _ _ _] _]. unfold unlocked. by rewrite Hd. Qed.

(** ** Methods that only look *)

Lemma public_key_spec m :
  machine_ok m -> wwp public_key (fun r m' => match r with
    | Ok k => kept m m' /\ wl_payload (m_self m) !! f_public_key = Some (PBytes k)
    | Err _ => idle [] m m' end) m.
Proof.
  intros Hm. unfold public_key. apply touched; [done|done|]. intros m1 Hk _ _. apply wwp_bind, wwp_self, wwp_bind, wwp_self.
  eapply wwp_mono; [apply public_key_for_secret_spec|]. intros [k|e] m2 [-> Hr]; [|by left]. split; [done|].
  destruct Hr as (_ & _ & _ & _ & _ & Hf). apply field_bytes in Hf. by destruct Hk as [[= _ _ _ _ <- _] _].
Qed.

Lemma pending_key_spec m :
  machine_ok m -> wwp pending_signing_public_key (fun r m' => match r with
    | Ok o => kept m m' /\ forall k, o = Some k -> wl_payload (m_self m) !! _PENDING_PUBLIC_KEY = Some (PBytes k)
    | Err _ => idle [] m m' end) m.
Proof.
  intros Hm. unfold pending_signing_public_key. apply touched; [done|done|]. intros m1 Hk _ _. apply wwp_bind, wwp_self, wwp_bind, wwp_self.
  destruct (wl_pending (m_self m1)) as [a|] eqn:Ea.
  - apply wwp_bind. eapply wwp_mono; [apply public_key_for_secret_spec|]. intros [k|e] m2 [-> Hr]; [|by left]. apply wwp_ret. split; [done|].
    intros k' [= <-]. destruct Hr as (_ & _ & _ & _ & _ & Hf). apply field_bytes in Hf. by destruct Hk as [[= _ _ _ _ <- _] _].
  - destruct (field _ _); try (apply wwp_fail; by left). by apply wwp_ret.
Qed.

Lemma dispatch_intent_spec m :
  machine_ok m -> wwp signing_key_rotation_dispatch_intent (fun r m' => match r with
    | Ok o => kept m m' /\ forall i, o = Some i -> exists raw, wl_payload (m_self m) !! _ROTATION_DISPATCH_INTENT = Some raw /\ _from_payload raw = Ok i
    | Err _ => idle [] m m' end) m.
Proof.
  intros Hm. unfold signing_key_rotation_dispatch_intent. apply touched; [done|done|]. intros m1 Hk _ _. apply wwp_bind, wwp_self.
  assert (wl_payload (m_self m1) = wl_payload (m_self m)) as Hp by by destruct Hk as [[= _ _ _ _ -> _] _].
  destruct (wl_payload (m_self m1) !! _) as [raw|] eqn:Er; [|by apply wwp_ret]. apply wwp_bind, wwp_lift.
  destruct (_from_payload raw) as [i|e] eqn:Ei; [|by left]. apply wwp_ret. split; [done|]. intros i' [= <-]. rewrite <-Hp. eauto.
Qed.

Section Signers.
Context `{PyFloat} `{Kdf} `{Aead}.

Lemma create_signer_spec timeout m : machine_ok m -> wwp (create_signer timeout) (fun r m' => idle [] m m') m.
Proof.
  intros Hm. unfold create_signer. apply touched; [done|done|]. intros m1 Hk _ _. apply wwp_bind.
  eapply wwp_mono; [apply not_latched_spec|]. intros [[]|e] m2 [-> _]; [|by left].
  apply wwp_bind, wwp_self, wwp_bind, wwp_self. destruct (wl_secret (m_self m1)) as [a|]; [|by left].
  destruct (field _ _); try by left. apply wwp_bind, wwp_get. cbn beta iota. match goal with |- wwp (if ?c then _ else _) _ _ => destruct c end; [by left|].
  apply wwp_bind. eapply wwp_mono; [apply monotonic_kept|]. intros r m2 [[t ->] Hk2]. apply wwp_bind, wwp_get. cbn beta iota.
  assert (kept m m2) as Hk' by by eapply kept_trans.
  destruct (Signer._create_capability_from_seed _ _ _ _ _ _ _) as [c|e]; [|by left]. apply wwp_bind, wwp_set.
  case_bool_decide; cbn [negb]; apply wwp_bind, wwp_set; by left.
Qed.

Lemma export_spec m : machine_ok m -> wwp export_container (fun r m' => idle [] m m') m.
Proof.
  intros Hm. unfold export_container. apply touched; [done|done|]. intros m1 Hk _ _. apply wwp_bind, wwp_self, wwp_bind.
  apply (wwp_mono _ (fun r m' => kept m m')); [exact Hk|]. intros [raw|e] m2 Hk2; [|by left]. apply wwp_bind, wwp_lift.
  destruct (_parse_container _ _); [|by left]. apply wwp_bind, wwp_self. case_match; by left.
Qed.

Lemma change_password_spec password confirmation m :
  machine_ok m -> wwp (change_password password confirmation) (fun r m' => stable m m') m.
Proof.
  intros Hm. assert (forall m', idle [] m m' -> stable m m') as Hi by (intros; by apply idle_stable).
  unfold change_password. apply touched; [done|auto|]. intros m1 Hk Hu Hm1. apply wwp_bind, wwp_lift.
  destruct (_validate_password _ _) as [pw|e]; [|apply Hi; by left]. apply wwp_bind. eapply wwp_mono; [apply token_bytes_kept|].
  intros r m2 [(salt & -> & _) Hk2]. apply wwp_bind, wwp_lift. assert (kept m m2) as Hk' by by eapply kept_trans.
  destruct (_derive_kek _ _) as [kek|e]; [|apply Hi; by left]. apply wwp_bind, wwp_self. destruct (wl_dek (m_self m2)) as [d|]; [|apply Hi; by left].
  apply wwp_bind, wwp_get, wwp_bind. eapply wwp_mono; [apply token_bytes_kept|]. intros r m3 [(nonce & -> & _) Hk3].
  assert (kept m m3) as Hk'' by by eapply kept_trans. apply wwp_bind, wwp_lift. destruct (_wrap_dek _ _ _ _ _) as [wrapped|e]; [|apply Hi; by left].
  apply wwp_bind, wwp_self, wwp_bind, wwp_lift. destruct (item _ _) as [current|e]; [|apply Hi; by left].
  apply wwp_bind. eapply wwp_mono; [apply (persist_spec []), (kept_clean [] m); [done|apply clean_nil, Hm]|].
  intros [[]|e] m4 Hr; [|apply Hi; by eapply kept_idle]. assert (kept m m4) as Hk4 by by eapply kept_trans.
  apply wwp_bind, wwp_self, wwp_set. eapply kept_stable; [exact Hk4|]. split; [|done].
  pose proof (kept_ok _ _ Hk4 Hm) as Hm4. assert (unlocked m4) as Hu4.
  { apply (kept_unlocked m3); [done|]. apply (kept_unlocked m2); [done|]. by apply (kept_unlocked m1). }
  destruct (unlocked_session m4 Hm4 Hu4) as (d' & seed & pending & _ & _ & _ & H1' & H2' & Hkeys). by eapply adopt_ok.
Qed.

(** ** Replacing the payload *)

Lemma payload_of_field d k : has_signing_fields d = false -> k ∈ _SIGNING_FIELDS -> payload_of d !! k = None.
Proof.
  intros Hd Hk. induction d as [|[kd v] d IH]; [by apply lookup_empty|]. unfold has_signing_fields in Hd. cbn [existsb fst] in Hd.
  apply orb_false_elim in Hd as [Hkd Hd]. destruct kd; cbn [payload_of]; try by apply IH. bool_hyps.
  rewrite lookup_insert_ne; [by apply IH|]. by intros ->.
Qed.

Lemma keep_field_spec c k updated m :
  wwp (keep_field c k updated) (fun r m' => m' = m /\ match r with
    | Ok p => if c then exists v, wl_payload (m_self m) !! k = Some v /\ p = <[k := v]> updated else p = updated
    | Err _ => True end) m.
Proof.
  unfold keep_field. destruct c; [|by apply wwp_ret]. apply wwp_bind, wwp_self, wwp_bind, wwp_lift.
  destruct (wl_payload (m_self m) !! k) as [v|] eqn:E; cbn; [|done]. apply wwp_ret. eauto.
Qed.

(** The payload of a caller with the session's keys and intent kept. *)
Lemma update_keys d p0 seed pending p1 p2 p3 :
  has_signing_fields d = false -> keys_ok p0 seed pending ->
  (if bool_decide (is_Some seed) then exists v, p0 !! f_public_key = Some v /\ p1 = <[f_public_key := v]> (payload_of d) else p1 = payload_of d) ->
  (if bool_decide (is_Some pending) then exists v, p0 !! _PENDING_PUBLIC_KEY = Some v /\ p2 = <[_PENDING_PUBLIC_KEY := v]> p1 else p2 = p1) ->
  (if bool_decide (is_Some (p0 !! _ROTATION_DISPATCH_INTENT))
   then exists v, p0 !! _ROTATION_DISPATCH_INTENT = Some v /\ p3 = <[_ROTATION_DISPATCH_INTENT := v]> p2 else p3 = p2) ->
  keys_ok p3 seed pending /\ p3 !! f_public_key = match seed with Some _ => p0 !! f_public_key | None => None end.
Proof.
  intros Hd (_ & _ & Hk) E1 E2 E3.
  assert (forall k, k ∈ _SIGNING_FIELDS -> payload_of d !! k = None) as Hnone by (intros; by apply payload_of_field).
  assert (payload_of d !! f_private_seed = None /\ payload_of d !! f_public_key = None /\ payload_of d !! _PENDING_PRIVATE_SEED = None /\
    payload_of d !! _PENDING_PUBLIC_KEY = None /\ payload_of d !! _ROTATION_DISPATCH_INTENT = None) as (N1 & N2 & N3 & N4 & N5).
  { repeat split; apply Hnone; unfold _SIGNING_FIELDS; rewrite !elem_of_cons; auto 10. }
  destruct seed as [s|]; cbn in E1.
  - destruct E1 as (v1 & Hv1 & ->). destruct Hk as (k & Hs & Hls & Hlk & Hpk & Hpend). destruct pending as [t|]; cbn in E2.
    + destruct E2 as (v2 & Hv2 & ->). destruct Hpend as (k' & Ht & Hlt & Hlk' & Hpk' & Hne & Hint).
      rewrite Hv1 in Hpk |- *. rewrite Hv2 in Hpk'. injection Hpk as ->. injection Hpk' as ->. case_bool_decide.
      * destruct E3 as (v3 & Hv3 & ->). unfold keys_ok. look_fields. rewrite N1, N3. split; [|done]. split; [done|]. split; [done|].
        exists k. repeat (split; [done|]). exists k'. repeat (split; [done|]). intros raw [= <-]. by apply Hint.
      * subst p3. unfold keys_ok. look_fields. rewrite N1, N3, N5. split; [|done]. split; [done|]. split; [done|].
        exists k. repeat (split; [done|]). exists k'. repeat (split; [done|]). done.
    + subst p2. destruct Hpend as [Hpp Hi]. rewrite Hi in E3. cbn in E3. subst p3. rewrite Hv1 in Hpk |- *. injection Hpk as ->.
      unfold keys_ok, field. look_fields. rewrite N1, N3, N4, N5. split; [|done]. split; [done|]. split; [done|]. exists k. done.
  - destruct Hk as (-> & Hp & Hpp & Hi). cbn in E2. subst. rewrite Hi in E3. cbn in E3. subst.
    unfold keys_ok, field. rewrite N1, N2, N3, N4, N5. done.
Qed.

Lemma in_heap_some h o v : in_heap h o v -> bool_decide (is_Some o) = bool_decide (is_Some v).
Proof. by destruct o, v. Qed.

Lemma update_payload_spec payload m : machine_ok m -> wwp (update_payload payload) (fun r m' => stable m m') m.
Proof.
  intros Hm. assert (forall m', idle [] m m' -> stable m m') as Hi by (intros; by apply idle_stable).
  unfold update_payload. apply touched; [done|auto|]. intros m1 Hk Hu Hm1. destruct payload as [| | | | | | |d|]; try (apply Hi; by left).
  destruct (has_signing_fields d) eqn:Hd; [apply Hi; by left|]. do 3 apply wwp_bind, wwp_self.
  destruct (unlocked_session m1 Hm1 Hu) as (dk & seed & pending & _ & _ & _ & Hseed & Hpend & Hkeys).
  rewrite (in_heap_some _ _ _ Hseed), (in_heap_some _ _ _ Hpend).
  apply wwp_bind. eapply wwp_mono; [apply keep_field_spec|]. intros [p1|e] m2 [-> E1]; [|apply Hi; by left].
  apply wwp_bind. eapply wwp_mono; [apply keep_field_spec|]. intros [p2|e] m2 [-> E2]; [|apply Hi; by left].
  apply wwp_bind. eapply wwp_mono; [apply keep_field_spec|]. intros [p3|e] m2 [-> E3]; [|apply Hi; by left].
  destruct (bool_decide (text_items d = None)); [apply Hi; by left|]. destruct (update_keys d _ seed pending p1 p2 p3 Hd Hkeys E1 E2 E3) as [Hkeys3 Hpk].
  apply wwp_bind. eapply wwp_mono; [apply (replace_content_spec []); apply clean_nil, Hm1|].
  intros [envelope|e] m2 Hr; [|apply Hi; by eapply kept_idle].
  apply wwp_bind, wwp_set. cbn beta iota.
  assert (unlocked m2) as Hu2 by by apply (kept_unlocked m1). pose proof (kept_ok _ _ Hr Hm1) as Hm2.
  pose proof Hr as [[= _ _ Es Ep Epl _] Eh]. rewrite <-Es, <-Eh in Hseed. rewrite <-Ep, <-Eh in Hpend.
  apply (adopt_ok m2 p3 envelope seed pending) in Hm2; [|done..]. eapply wwp_mono; [apply invalidate_kept|].
  intros r m3 [-> Hk3]. apply (kept_stable m m2); [by eapply kept_trans|]. split; [by eapply kept_ok|]. intros _. rewrite (kept_active _ _ Hk3). unfold active. cbn.
  f_equal. rewrite Epl. destruct seed; [unfold field; by rewrite Hpk|]. destruct Hkeys as (_ & _ & _ & -> & _). unfold field. by rewrite Hpk.
Qed.
End Signers.
End Invariant.
End Leftover.

(** Where nothing is said of lost arrays there are none. *)
#[export] Existing Instance no_lost | 100.

Lemma spent_zeroed a b : spent a b -> zeroed b.
Proof. intros [Hz|Ha]; [done|]. by apply elem_of_nil in Ha. Qed.
