(* ===== verification/WalletRotationFacts.v ===== *)
(** Rotation of the signing key keeps the session's invariant, and the active key changes
    only when a confirmation for the stored intent promotes the staged successor. *)

From stdpp Require Import gmap.
From S2P Require Import Prelude PyVal Sha256 Interfaces SignedUpdate Draft Consent Rotation Adapter Dispatch Signer Base64 Json Container Storage WalletState Wallet WalletRotation WalletFacts.

Open Scope Z_scope.

Section Leftover.
Context {L : Lost}.

(** * Dispatch intents in a payload *)

Definition env_value (e : option pystr) : pyval := match e with Some s => PStr s | None => PNone end.

(** An intent whose constructor accepts its own fields. *)
Definition intent_wf (i : rotation_binding) : Prop :=
  RotationDispatchIntent (PBytes (rb_owner_name i)) (PBytes (rb_predecessor_owner_public_key i)) (PBytes (rb_successor_owner_public_key i))
    (PBytes (rb_predecessor_state_hash i)) (PInt (rb_sequence i)) (PBytes (rb_envelope_hash i)) (env_value (rb_environment i)) = Ok i.

Lemma require_hash_ok v b : require_hash v = Ok b -> v = PBytes b /\ length b = _KEY_LENGTH.
Proof. unfold require_hash. destruct v; try done. intros Hr. inv_ok. by bool_hyps. Qed.

Lemma intent_env_ok v e :
  (match v with PNone => Ok None | w => raise_if negb (valid_registry_environment w) with InvalidContainer;
     match w with PStr s => Ok (Some s) | _ => Err InvalidContainer end end) = Ok e -> v = env_value e.
Proof.
  destruct v; intros He; try done; [by injection He as <-|]. destruct (valid_registry_environment _); [|done]. by injection He as <-.
Qed.

Lemma intent_ok o p s h n eh env i :
  RotationDispatchIntent o p s h n eh env = Ok i ->
  intent_wf i /\ o = PBytes (rb_owner_name i) /\ p = PBytes (rb_predecessor_owner_public_key i) /\ s = PBytes (rb_successor_owner_public_key i) /\
  env = env_value (rb_environment i).
Proof.
  intros Hi. assert (exists e on pb sb hb ehb z, env = env_value e /\ o = PBytes on /\ p = PBytes pb /\ s = PBytes sb /\ h = PBytes hb /\
    eh = PBytes ehb /\ n = PInt z /\ i = RotationBinding e on pb sb hb z ehb) as (e & on & pb & sb & hb & ehb & z & -> & -> & -> & -> & -> & -> & -> & ->).
  { unfold RotationDispatchIntent in Hi. apply res_bind_ok in Hi as (e & He & Hi). apply res_bind_ok in Hi as (on & Ho & Hi).
    apply res_bind_ok in Hi as (pb & [-> _]%require_hash_ok & Hi). apply res_bind_ok in Hi as (sb & [-> _]%require_hash_ok & Hi).
    apply res_bind_ok in Hi as (hb & [-> _]%require_hash_ok & Hi). apply res_bind_ok in Hi as (ehb & [-> _]%require_hash_ok & Hi).
    destruct n as [| |z| | | | | |]; try done. inv_ok. exists e, on, pb, sb, hb, ehb, z.
    apply intent_env_ok in He as ->. split; [done|]. split; [|done]. destruct o as [| | |ob| | | | |]; try done.
    destruct (negb _); [done|]. destruct (utf8_decode ob); [|done]. by injection Ho as <-. }
  split; [exact Hi|done].
Qed.

(** What is stored of an intent reads back as the intent. *)
Lemma intent_roundtrip i : intent_wf i -> _from_payload (_to_payload i) = Ok i.
Proof.
  intros Hi. unfold intent_wf in Hi. destruct i as [[e|] o p s h n eh]; [|exact Hi].
  transitivity (raise_if negb (valid_registry_environment (PStr e)) with InvalidContainer;
    RotationDispatchIntent (PBytes o) (PBytes p) (PBytes s) (PBytes h) (PInt n) (PBytes eh) (PStr e)); [reflexivity|].
  destruct (valid_registry_environment (PStr e)) eqn:Ev; [exact Hi|]. exfalso. revert Hi. cbn [env_value rb_environment].
  unfold RotationDispatchIntent. by rewrite Ev.
Qed.

Lemma replace_environment_wf i e :
  intent_wf i -> valid_registry_environment (PStr e) = true -> intent_wf (replace_environment i (Some e)).
Proof.
  unfold intent_wf. destruct i as [e0 o p s h n eh]. intros Hi He. unfold RotationDispatchIntent in Hi |- *.
  cbn [rb_environment replace_environment env_value rb_owner_name rb_predecessor_owner_public_key rb_successor_owner_public_key
    rb_predecessor_state_hash rb_sequence rb_envelope_hash] in *.
  apply res_bind_ok in Hi as (e' & _ & Hi). rewrite He. cbn [negb res_bind].
  destruct (negb _); [done|]. destruct (utf8_decode o); [|done]. cbn [res_bind] in *.
  destruct (require_hash (PBytes p)); [|done]. destruct (require_hash (PBytes s)); [|done]. destruct (require_hash (PBytes h)); [|done].
  destruct (require_hash (PBytes eh)); [|done]. cbn [res_bind] in *. destruct (n <? 1); [done|]. by injection Hi; intros; subst.
Qed.

(** * Byte arrays that come and go *)

Section Arrays.
Context `{Ed25519}.

(** The invariant depends on the session's own byte arrays only. *)
Lemma session_heap w h h' : (forall a, a ∈ secrets w -> h' !! a = h !! a) -> session_ok w h -> session_ok w h'.
Proof.
  intros Hh. unfold session_ok, secrets in *. destruct (wl_dek w) as [d|]; [|done].
  intros (Hn & Hd & seed & pending & Hs & Hp & Hk). split; [done|]. split; [rewrite Hh; [done|set_solver]|].
  exists seed, pending. split; [|split; [|done]].
  - destruct (wl_secret w) as [a|], seed; cbn in *; try done. rewrite Hh; [done|set_solver].
  - destruct (wl_pending w) as [a|], pending; cbn in *; try done. rewrite Hh; [done|set_solver].
Qed.

(** The session's byte arrays exist. *)
Lemma secrets_exist m a : machine_ok m -> a ∈ secrets (m_self m) -> is_Some (m_heap m !! a).
Proof.
  intros [Hs _] Ha. unfold session_ok, secrets in *. destruct (wl_dek (m_self m)) as [d|].
  - destruct Hs as (_ & Hd & seed & pending & Hs & Hp & _). rewrite !elem_of_app in Ha. destruct Ha as [Ha|[Ha|Ha]].
    + apply list_elem_of_singleton in Ha as ->. destruct Hd as [dek ->]. done.
    + destruct (wl_secret (m_self m)) as [b|], seed; cbn in *; try done; try (by apply elem_of_nil in Ha). apply list_elem_of_singleton in Ha as ->. by rewrite Hs.
    + destruct (wl_pending (m_self m)) as [b|], pending; cbn in *; try done; try (by apply elem_of_nil in Ha). apply list_elem_of_singleton in Ha as ->. by rewrite Hp.
  - destruct Hs as (E1 & E2 & _). rewrite E1, E2 in Ha. set_solver.
Qed.

(** [m'] has one more byte array, holding [s]. *)
Definition grown (m m' : machine) (s : bytes) : Prop := core (m_self m') = core (m_self m) /\ m_heap m' = m_heap m ++ [s].

Lemma fresh_not_secret m : machine_ok m -> length (m_heap m) ∉ secrets (m_self m).
Proof. intros Hm Ha. destruct (secrets_exist m _ Hm Ha) as [b Hb]. apply lookup_lt_Some in Hb. lia. Qed.

Lemma grown_clean m m' s : machine_ok m -> grown m m' s -> clean_but [length (m_heap m)] m'.
Proof.
  intros [_ Hc] [Hcore Hh] a b. rewrite (core_secrets _ _ Hcore), Hh. intros Hb. apply lookup_app_Some in Hb as [Hb|[Hge Hb]].
  - destruct (Hc a b Hb); auto.
  - right. left. apply lookup_lt_Some in Hb as Hlt. cbn in Hlt. set_solver by lia.
Qed.

Lemma generate_seed_spec m :
  wwp generate_seed (fun r m' => match r with
    | Ok a => a = length (m_heap m) /\ exists s, grown m m' s /\ length s = _KEY_LENGTH
    | Err _ => kept m m' end) m.
Proof.
  unfold generate_seed. apply wwp_bind. eapply wwp_mono; [apply token_bytes_kept|]. intros r m1 [(b & -> & Hb) Hk].
  apply wwp_bind, wwp_lift. unfold Signer._generate_seed. rewrite Hb, Nat.eqb_refl. cbn [negb]. unfold wwp, new_bytearray. cbn.
  destruct Hk as [Hc Hh]. rewrite Hh. split; [done|]. exists b. split; [|done]. split; [done|]. cbn. by rewrite Hh.
Qed.

(** A seed that is given up is wiped. *)
Lemma staged_abandoned m m1 m2 s :
  machine_ok m -> grown m m1 s -> idle [length (m_heap m)] m1 m2 ->
  stable m (set_heap (wipe_array (length (m_heap m))) m2).
Proof.
  intros Hm Hg Hi. set (id := length (m_heap m)). pose proof (grown_clean m m1 s Hm Hg) as Hc1. fold id in Hc1.
  pose proof (fresh_not_secret m Hm) as Hfresh. fold id in Hfresh. destruct Hg as [Hcore Hh].
  assert (clean_but [id] m2) as Hc2 by (destruct Hi as [Hk|(_ & Hc & _)]; [by eapply kept_clean|done]).
  assert (clean (set_heap (wipe_array id) m2)) as Hclean.
  { intros a b. cbn. intros [[-> Hz%(zeroed_spent id)]|[Hne Hb]]%wipe_lookup; [by right|]. destruct (Hc2 a b Hb) as [|[Ha|]]; [by left|set_solver|by right]. }
  destruct Hi as [Hk|Hs].
  - assert (core (m_self m2) = core (m_self m)) as Hcore2 by (rewrite <-Hcore; apply Hk).
    assert (forall a, a ∈ secrets (m_self m) -> wipe_array id (m_heap m2) !! a = m_heap m !! a) as Hlook.
    { intros a Ha. unfold wipe_array. rewrite list_lookup_alter_ne by (intros ->; done). destruct Hk as [_ ->]. rewrite Hh.
      destruct (secrets_exist m a Hm Ha) as [b Hb]. by rewrite (lookup_app_l_Some _ _ _ _ Hb), Hb. }
    split; [split; [|done]|].
    + cbn. pose proof (core_secrets _ _ Hcore2) as Hsec. eapply (session_heap _ (m_heap m)); [by rewrite Hsec|].
      destruct Hm as [Hs _]. assert (kept (set_heap (fun _ => m_heap m) m2) m) as Hkm by (split; [by symmetry|done]).
      apply (kept_session m (set_heap (fun _ => m_heap m) m2)); [by split|done].
    + intros _. unfold active. cbn. injection Hcore2 as _ _ -> _ -> _. f_equal. destruct (wl_secret (m_self m)) as [a|] eqn:Ea; [|done]. cbn.
      apply Hlook. unfold secrets. rewrite Ea. set_solver.
  - destruct Hs as [E _]. split; [split; [|done]|].
    + by apply locked_session.
    + unfold unlocked. cbn. rewrite E. by intros [].
Qed.
End Arrays.

(** * Staging and dropping a successor *)

Section Stage.
Context `{PyFloat} `{Kdf} `{Aead} `{!Ed25519} `{!Ed25519Laws} `{Cbor}.

(** A staged successor beside an active key without one. *)
Lemma stage_keys p s t k :
  keys_ok p (Some s) None -> ed_public t = Some k -> field p f_public_key <> PBytes k -> length t = _KEY_LENGTH ->
  keys_ok (<[_PENDING_PUBLIC_KEY := PBytes k]> p) (Some s) (Some t).
Proof.
  intros (A1 & A2 & k0 & Hs & Hls & Hlk & Hpk & Hpp & Hi) Ht Hne Hlt. unfold keys_ok. look_fields. split; [done|]. split; [done|].
  exists k0. repeat (split; [done|]). exists k. split; [done|]. split; [done|]. split; [by eapply ed_public_length|]. split; [done|].
  split; [|by rewrite Hi]. intros ->. apply Hne. unfold field. by rewrite Hpk.
Qed.

(** What holds of a payload with a successor after the successor is dropped. *)
Lemma drop_keys p seed pending :
  keys_ok p seed pending -> p !! _ROTATION_DISPATCH_INTENT = None -> keys_ok (delete _PENDING_PUBLIC_KEY p) seed None.
Proof.
  intros (A1 & A2 & Hk) Hi. unfold keys_ok, field. look_fields. split; [done|]. split; [done|]. destruct seed as [s|].
  - destruct Hk as (k & Hs & Hls & Hlk & Hpk & _). exists k. done.
  - destruct Hk as (_ & Hf & _). done.
Qed.

(** The session with a new successor in its own byte array. *)
Lemma staged_ok m m' s t k e :
  machine_ok m -> unlocked m -> wl_pending (m_self m) = None -> in_heap (m_heap m) (wl_secret (m_self m)) (Some s) ->
  keys_ok (wl_payload (m_self m)) (Some s) None -> grown m m' t -> length t = _KEY_LENGTH -> ed_public t = Some k ->
  field (wl_payload (m_self m)) f_public_key <> PBytes k ->
  machine_ok (set_self (with_content (<[_PENDING_PUBLIC_KEY := PBytes k]> (wl_payload (m_self m))) e)
    (set_self (with_pending (Some (length (m_heap m)))) m')).
Proof.
  intros Hm [d Hd] Hnp Hs Hkeys Hg Hlt Ht Hne. pose proof (grown_clean _ _ _ Hm Hg) as Hc. pose proof (fresh_not_secret m Hm) as Hfr.
  destruct Hg as [Hcore Hh]. pose proof Hcore as [= _ Ed Es Ep Epl _]. destruct (wl_secret (m_self m)) as [a|] eqn:Ea; [|done]. cbn in Hs.
  destruct (unlocked_session m Hm (ex_intro _ d Hd)) as (d' & _ & _ & Hd' & Hnd & Hdek & _). rewrite Hd in Hd'. injection Hd' as <-.
  unfold secrets in Hnd, Hfr. rewrite Hd, Ea, Hnp in Hnd, Hfr. cbn in Hnd, Hfr.
  split.
  - unfold session_ok, secrets. cbn. rewrite Ed, Es, Hd. cbn. split; [|split].
    + rewrite NoDup_cons, NoDup_cons in Hnd |- *. rewrite NoDup_cons. set_solver.
    + rewrite Hh. destruct Hdek as [dek Hdek]. exists dek. by apply lookup_app_l_Some.
    + exists (Some s), (Some t). split; [|split].
      * cbn. rewrite Hh. by apply lookup_app_l_Some.
      * cbn. rewrite Hh, lookup_app_r by lia. by rewrite Nat.sub_diag.
      * by apply stage_keys.
  - intros x b Hb. cbn in Hb. destruct (Hc x b Hb) as [Hx|[Hx|]]; [left|left|by right].
    + rewrite (core_secrets _ _ Hcore) in Hx. unfold secrets in *. cbn. rewrite Ed, Es. rewrite Hnp in Hx. rewrite Hd, Ea in *. set_solver.
    + unfold secrets. cbn. set_solver.
Qed.

Lemma prepare_spec m : machine_ok m -> wwp prepare_signing_key_rotation (fun r m' => stable m m') m.
Proof.
  intros Hm. assert (forall m', idle [] m m' -> stable m m') as Hi by (intros; by apply idle_stable).
  unfold prepare_signing_key_rotation. apply touched; [done|auto|]. intros m1 Hk Hu Hm1. apply wwp_bind.
  eapply wwp_mono; [apply not_latched_spec|]. intros [[]|e] m2 [-> Hlatch]; [|apply Hi; by left]. apply wwp_bind, wwp_self.
  destruct (wl_pending (m_self m1)) as [p|] eqn:Ep.
  { apply wwp_bind. eapply wwp_mono; [by apply pending_key_spec|]. intros [o|e] m2 Hr; [|apply Hi; by eapply kept_idle].
    destruct Hr as [Hk2 _]. assert (kept m m2) by by eapply kept_trans. destruct o; apply Hi; by left. }
  apply wwp_bind, wwp_self, wwp_bind, wwp_self. destruct (unlocked_session m1 Hm1 Hu) as (d & seed & pending & Hd & Hnd & Hdek & Hs & Hp & Hkeys).
  rewrite Ep in Hp. destruct pending; [done|]. destruct (wl_secret (m_self m1)) as [a|] eqn:Ea; [|apply Hi; by left].
  destruct seed as [s|]; [|done]. destruct (field _ f_public_key) as [| | |k0| | | | |] eqn:Ek; try (apply Hi; by left).
  apply wwp_bind. eapply wwp_mono; [apply generate_seed_spec|]. intros [id|e] m2 Hg; [|apply Hi; left; by eapply kept_trans].
  destruct Hg as (-> & t & Hg & Hlt). apply wwp_bind, wwp_attempt.
  assert (forall m', idle [length (m_heap m1)] m2 m' -> stable m (set_heap (wipe_array (length (m_heap m1))) m')) as Hgive.
  { intros m' Hi'. eapply kept_stable; [exact Hk|]. by eapply staged_abandoned. }
  apply wwp_bind, wwp_get. cbn beta iota. destruct Hg as [Hcore Hh].
  assert (default [] (m_heap m2 !! length (m_heap m1)) = t) as -> by by rewrite Hh, lookup_app_r, Nat.sub_diag.
  apply wwp_bind, wwp_lift. unfold Signer._public_key_from_seed. destruct (ed_public t) as [k|] eqn:Et; cbn [of_option].
  2: { apply wwp_bind, wwp_set, wwp_fail, Hgive. by left. }
  case_bool_decide as Hne. { apply wwp_bind, wwp_set, wwp_fail, Hgive. by left. }
  apply wwp_bind. eapply wwp_mono; [apply (replace_content_spec [length (m_heap m1)]); by apply (grown_clean _ _ t)|].
  intros [envelope|e] m3 Hr; [|apply wwp_bind, wwp_set, wwp_fail, Hgive; exact Hr].
  apply wwp_ret. cbn beta iota. apply wwp_bind, wwp_set, wwp_bind, wwp_set. cbn beta iota.
  assert (grown m1 m3 t) as Hg3. { destruct Hr as [Hc3 Hh3]. split; [by rewrite Hc3|by rewrite Hh3]. }
  pose proof (staged_ok m1 m3 s t k envelope Hm1 Hu Ep) as Hok. rewrite Ea in Hok. specialize (Hok Hs Hkeys Hg3 Hlt Et).
  apply wwp_bind. eapply wwp_mono; [apply invalidate_kept|]. intros r m4 [-> Hk4]. apply wwp_ret. eapply kept_stable; [exact Hk|].
  split; [eapply kept_ok; [exact Hk4|]; apply Hok; rewrite Ek; congruence|]. intros _. rewrite (kept_active _ _ Hk4).
  unfold active. cbn. destruct Hg3 as [[= _ _ Es _ _ _] Hh3]. rewrite Es, Ea. cbn. f_equal.
  - cbn in Hs. rewrite Hs, Hh3. by apply lookup_app_l_Some.
  - unfold field. by look_fields.
Qed.

Lemma wipe_unheld m a :
  session_ok (m_self m) (m_heap m) -> a ∉ secrets (m_self m) -> clean_but [a] m -> machine_ok (set_heap (wipe_array a) m).
Proof.
  intros Hs Ha Hc. split.
  - cbn. eapply session_heap; [|exact Hs]. intros b Hb. unfold wipe_array. apply list_lookup_alter_ne. by intros ->.
  - intros x b. cbn. intros [[-> Hz%(zeroed_spent a)]|[Hne Hb]]%wipe_lookup; [by right|]. destruct (Hc x b Hb) as [|[Hx|]]; [by left|set_solver|by right].
Qed.

(** The session without its successor, whose byte array is wiped. *)
Lemma dropped_ok m p e b seed :
  machine_ok m -> unlocked m -> wl_pending (m_self m) = Some b -> in_heap (m_heap m) (wl_secret (m_self m)) seed -> keys_ok p seed None ->
  machine_ok (set_heap (wipe_array b) (set_self (with_pending None) (set_self (with_content p e) m))).
Proof.
  intros Hm [d Hd] Eb Hs Hk. destruct (unlocked_session m Hm (ex_intro _ d Hd)) as (d' & _ & _ & Hd' & Hnd & Hdek & _).
  rewrite Hd in Hd'. injection Hd' as <-. destruct Hm as [_ Hc]. unfold secrets in Hnd. rewrite Hd, Eb in Hnd.
  apply wipe_unheld.
  - unfold session_ok, secrets. cbn. rewrite Hd. cbn. split; [|split].
    + cbn in Hnd. rewrite app_nil_r. destruct (wl_secret (m_self m)); cbn in *; [|repeat constructor; set_solver].
      rewrite !NoDup_cons in *. set_solver.
    + destruct Hdek as [dek ->]. eauto.
    + exists seed, None. done.
  - unfold secrets. cbn. rewrite Hd. cbn in Hnd. destruct (wl_secret (m_self m)); cbn in *; rewrite !NoDup_cons in Hnd; set_solver.
  - intros x y Hy. cbn in Hy. destruct (Hc x y Hy) as [Hx|]; [|by right; right]. unfold secrets in *. cbn. rewrite Eb in Hx. rewrite Hd in *. set_solver.
Qed.

Lemma cancel_spec m : machine_ok m -> wwp cancel_signing_key_rotation (fun r m' => stable m m') m.
Proof.
  intros Hm. assert (forall m', idle [] m m' -> stable m m') as Hi by (intros; by apply idle_stable).
  unfold cancel_signing_key_rotation. apply touched; [done|auto|]. intros m1 Hk Hu Hm1. apply wwp_bind.
  eapply wwp_mono; [apply not_latched_spec|]. intros [[]|e] m2 [-> Hlatch]; [|apply Hi; by left]. apply wwp_bind, wwp_self, wwp_bind, wwp_self.
  destruct (wl_pending (m_self m1)) as [b|] eqn:Eb; [|destruct (field _ _); apply Hi; by left].
  apply wwp_bind. eapply wwp_mono; [apply (replace_content_spec []); apply clean_nil, Hm1|].
  intros [envelope|e] m2 Hr; [|apply Hi; by eapply kept_idle]. apply wwp_bind, wwp_set, wwp_bind, wwp_set, wwp_bind, wwp_set. cbn beta iota.
  assert (unlocked m2) as Hu2 by by apply (kept_unlocked m1). pose proof (kept_ok _ _ Hr Hm1) as Hm2.
  destruct (unlocked_session m2 Hm2 Hu2) as (d & seed & pending & _ & _ & _ & Hs & Hp & Hkeys). pose proof Hr as [[= _ _ Es Ep Epl _] Eh].
  eapply wwp_mono; [apply invalidate_kept|]. intros r m3 [-> Hk3]. apply (kept_stable m m2); [by eapply kept_trans|].
  assert (wl_pending (m_self m2) = Some b) as Eb2 by congruence.
  assert (keys_ok (delete _PENDING_PUBLIC_KEY (wl_payload (m_self m1))) seed None) as Hdrop.
  { rewrite <-Epl. eapply drop_keys; [exact Hkeys|]. by rewrite Epl. }
  split; [eapply kept_ok; [exact Hk3|]; by eapply dropped_ok|]. intros _. rewrite (kept_active _ _ Hk3). unfold active. cbn.
  rewrite Epl. unfold field. look_fields. f_equal. destruct (wl_secret (m_self m2)) as [a|] eqn:Ea; [|done]. cbn.
  unfold wipe_array. apply list_lookup_alter_ne. intros ->. destruct (unlocked_session m2 Hm2 Hu2) as (? & ? & ? & _ & Hnd & _).
  unfold secrets in Hnd. rewrite Ea, Eb2 in Hnd. apply NoDup_app in Hnd as (_ & _ & Hnd). cbn in Hnd. rewrite !NoDup_cons in Hnd. set_solver.
Qed.

(** * The dispatch intent *)

Lemma prove_spec draft m : machine_ok m -> wwp (prove_pending_signing_key_rotation draft) (fun r m' => match r with Ok _ => kept m m' | Err _ => idle [] m m' end) m.
Proof.
  intros Hm. unfold prove_pending_signing_key_rotation. apply touched; [done|done|]. intros m1 Hk Hu Hm1. apply wwp_bind.
  eapply wwp_mono; [apply not_latched_spec|]. intros [[]|e] m2 [-> _]; [|by left]. do 3 apply wwp_bind, wwp_self.
  destruct (wl_pending (m_self m1)) as [p|]; [|by left]. destruct (wl_secret (m_self m1)) as [a|]; [|by left].
  destruct (field _ _PENDING_PUBLIC_KEY); try by left. destruct (field _ f_public_key); try by left.
  destruct draft as [d|]; [|by left]. apply wwp_bind. eapply wwp_mono; [apply public_key_for_secret_spec|]. intros [ka|e] m2 [-> _]; [|by left].
  apply wwp_bind. eapply wwp_mono; [apply public_key_for_secret_spec|]. intros [kp|e] m2 [-> _]; [|by left].
  match goal with |- wwp (match ?b with _ => _ end) _ _ => destruct b as [v|e] end; [|by left]. apply wwp_bind, wwp_get. cbn beta iota.
  destruct (ed_public _); [|by left]. destruct (negb _); [by left|by apply wwp_ret].
Qed.

(** Storing an intent for exactly the keys held. *)
Lemma latch_keys p seed pending i :
  keys_ok p seed pending -> intent_wf i -> p !! f_public_key = Some (PBytes (rb_predecessor_owner_public_key i)) ->
  p !! _PENDING_PUBLIC_KEY = Some (PBytes (rb_successor_owner_public_key i)) ->
  keys_ok (<[_ROTATION_DISPATCH_INTENT := _to_payload i]> p) seed pending.
Proof.
  intros (A1 & A2 & Hk) Hi Hp Hs. unfold keys_ok. look_fields. split; [done|]. split; [done|]. destruct seed as [s|].
  - destruct Hk as (k & Hes & Hls & Hlk & Hpk & Hpend). rewrite Hpk in Hp. injection Hp as ->. exists (rb_predecessor_owner_public_key i).
    repeat (split; [done|]). destruct pending as [t|].
    + destruct Hpend as (k' & Ht & Hlt & Hlk' & Hpk' & Hne & _). rewrite Hpk' in Hs. injection Hs as ->. exists (rb_successor_owner_public_key i).
      repeat (split; [done|]). intros raw [= <-]. exists i. split; [by apply intent_roundtrip|done].
    + destruct Hpend as [Hf _]. unfold field in Hf. by rewrite Hs in Hf.
  - destruct Hk as (_ & Hf & _). unfold field in Hf. by rewrite Hp in Hf.
Qed.

(** Adopting a payload with another intent keeps the active key. *)
Lemma adopt_stable m p e seed pending :
  machine_ok m -> unlocked m -> in_heap (m_heap m) (wl_secret (m_self m)) seed -> in_heap (m_heap m) (wl_pending (m_self m)) pending ->
  keys_ok p seed pending -> p !! f_public_key = wl_payload (m_self m) !! f_public_key -> stable m (set_self (with_content p e) m).
Proof. intros Hm Hu Hs Hp Hk Hf. split; [by eapply adopt_ok|]. intros _. unfold active, field. cbn. by rewrite Hf. Qed.

Lemma stable_kept m m' m'' : stable m m' -> kept m' m'' -> stable m m''.
Proof.
  intros [Hm Ha] Hk. split; [by eapply kept_ok|]. intros Hu. rewrite (kept_active _ _ Hk). apply Ha.
  unfold unlocked in *. destruct Hk as [[= _ Hd _ _ _ _] _]. by rewrite <-Hd.
Qed.

Lemma mark_latched_kept p i m : wwp (_mark_latched p i) (fun r m' => (exists b, r = Ok b) /\ kept m m') m.
Proof. unfold wwp, _mark_latched. destruct (matches_publication p i); cbn; (split; [eauto|by split]). Qed.

Lemma clear_latch_kept b i m : wwp (_clear_latch b i) (fun r m' => (exists b, r = Ok b) /\ kept m m') m.
Proof. unfold wwp, _clear_latch. destruct b; cbn; (split; [eauto|by split]). Qed.

Lemma is_latched_same b i m : wwp (_is_latched b i) (fun r m' => r = Ok (b && is_latched (m_latches m) i) /\ m' = m) m.
Proof. unfold wwp, _is_latched. by destruct b. Qed.

(** Storing an intent for the keys held, durably and then in the session. *)
Lemma store_intent_spec m i :
  machine_ok m -> unlocked m -> intent_wf i -> wl_payload (m_self m) !! f_public_key = Some (PBytes (rb_predecessor_owner_public_key i)) ->
  wl_payload (m_self m) !! _PENDING_PUBLIC_KEY = Some (PBytes (rb_successor_owner_public_key i)) ->
  forall e m', kept m m' -> stable m (set_self (with_content (<[_ROTATION_DISPATCH_INTENT := _to_payload i]> (wl_payload (m_self m))) e) m').
Proof.
  intros Hm Hu Hi Hp Hs e m' Hk. pose proof (kept_ok _ _ Hk Hm) as Hm'. assert (unlocked m') as Hu' by by eapply kept_unlocked.
  destruct (unlocked_session m' Hm' Hu') as (d & seed & pending & _ & _ & _ & Hseed & Hpend & Hkeys).
  pose proof Hk as [[= _ _ _ _ Epl _] _]. eapply kept_stable; [exact Hk|]. rewrite <-Epl in *.
  eapply adopt_stable; [done|done|exact Hseed|exact Hpend|by apply latch_keys|by look_fields].
Qed.

Lemma latch_spec bundle publication now m :
  machine_ok m -> wwp (latch_signing_key_rotation_dispatch_intent bundle publication now) (fun r m' => stable m m') m.
Proof.
  intros Hm. assert (forall m', idle [] m m' -> stable m m') as Hi by (intros; by apply idle_stable).
  unfold latch_signing_key_rotation_dispatch_intent. apply touched; [done|auto|]. intros m1 Hk Hu Hm1. apply wwp_bind.
  eapply wwp_mono; [apply not_latched_spec|]. intros [[]|e] m2 [-> _]; [|apply Hi; by left]. destruct bundle as [b|]; [|apply Hi; by left].
  match goal with |- wwp (match ?x with _ => _ end) _ _ => destruct x as [[v envelope]|e]; [|apply Hi; by left] end.
  destruct publication as [p|]; [|apply Hi; by left]. destruct (_ || _); [apply Hi; by left|]. apply wwp_bind, wwp_lift.
  destruct (draft_view _) as [f|e]; [|apply Hi; by left]. destruct (df_authorization f) as [a|]; [|apply Hi; by left].
  destruct (negb _); [apply Hi; by left|]. apply wwp_bind. eapply wwp_mono; [by apply prove_spec|].
  intros [[]|e] m2 Hr; [|apply Hi; by eapply kept_idle]. assert (kept m m2) as Hk2 by by eapply kept_trans. pose proof (kept_ok _ _ Hk2 Hm) as Hm2.
  apply wwp_bind. eapply wwp_mono; [by apply public_key_spec|]. intros [ka|e] m3 Hr3; [|apply Hi; by eapply kept_idle].
  destruct Hr3 as [Hk3 Hka]. assert (kept m m3) as Hk3' by by eapply kept_trans. pose proof (kept_ok _ _ Hk3' Hm) as Hm3.
  apply wwp_bind. eapply wwp_mono; [by apply pending_key_spec|]. intros [o|e] m4 Hr4; [|apply Hi; by eapply kept_idle].
  destruct Hr4 as [Hk4 Hkp]. assert (kept m m4) as Hk4' by by eapply kept_trans. destruct o as [ks|]; [|apply Hi; by left].
  specialize (Hkp ks eq_refl). apply wwp_bind, wwp_lift. destruct (RotationDispatchIntent _ _ _ _ _ _ _) as [i|e] eqn:Ei; [|apply Hi; by left].
  apply intent_ok in Ei as (Hwf & _ & [= Epred] & [= Esucc] & _). destruct (negb _); [apply Hi; by left|]. apply wwp_bind, wwp_get. cbn beta iota.
  destruct (is_owner_latched _ _); [apply Hi; by left|]. apply wwp_bind. eapply wwp_mono; [apply invalidate_kept|]. intros r m5 [-> Hk5].
  assert (kept m m5) as Hk5' by by eapply kept_trans. pose proof (kept_ok _ _ Hk5' Hm) as Hm5.
  assert (unlocked m5) as Hu5 by (apply (kept_unlocked m); [done|]; unfold unlocked; destruct Hk as [[= _ <- _ _ _ _] _]; done).
  apply wwp_bind, wwp_self, wwp_bind. eapply wwp_mono; [apply (replace_content_spec []); apply clean_nil, Hm5|].
  intros [env|e] m6 Hr6; [|apply Hi; by eapply kept_idle]. apply wwp_bind, wwp_set, wwp_bind. cbn beta iota.
  assert (wl_payload (m_self m5) = wl_payload (m_self m2)) as E52 by (destruct (kept_trans _ _ _ Hk3 (kept_trans _ _ _ Hk4 Hk5)) as [[= _ _ _ _ -> _] _]; done).
  assert (wl_payload (m_self m5) = wl_payload (m_self m3)) as E53 by (destruct (kept_trans _ _ _ Hk4 Hk5) as [[= _ _ _ _ -> _] _]; done).
  assert (stable m (set_self (with_content (<[_ROTATION_DISPATCH_INTENT:=_to_payload i]> (wl_payload (m_self m5))) env) m6)) as Hst.
  { eapply kept_stable; [exact Hk5'|]. apply store_intent_spec; try done; [by rewrite E52, Hka, Epred|by rewrite E53, Hkp, Esucc]. }
  eapply wwp_mono; [apply mark_latched_kept|]. intros r m7 [[bm ->] Hk7]. destruct bm; (eapply stable_kept; [exact Hst|exact Hk7]).
Qed.

Lemma stable_idle m m' m'' : stable m m' -> idle [] m' m'' -> stable m m''.
Proof.
  intros Hs [Hk|Hs']; [by eapply stable_kept|]. split; [by eapply shut_ok|]. destruct Hs' as [E _]. unfold unlocked. rewrite E. by intros [].
Qed.

Lemma stable_trans m m' m'' : stable m m' -> unlocked m' -> stable m' m'' -> stable m m''.
Proof. intros [_ Ha] Hu [Hm Ha']. split; [done|]. intros Hu'. by rewrite (Ha' Hu'), (Ha Hu). Qed.

(** What asking for consent may do to the session. *)
Definition consent_stable (ask : rotation_binding -> pyval -> W pyval) : Prop :=
  forall i v m, machine_ok m -> stable m (ask i v m).2.

Lemma from_payload_wf raw i : _from_payload raw = Ok i -> intent_wf i.
Proof.
  unfold _from_payload. destruct raw as [| | | | | | |d|]; try done. destruct (text_items d) as [items|]; [|done]. intros Hi.
  do 2 (match type of Hi with (if ?c then _ else _) = _ => destruct c; [done|] end). by apply intent_ok in Hi as [Hi _].
Qed.

Lemma bind_spec environment consent m :
  machine_ok m -> (forall ask, consent = Some ask -> consent_stable ask) ->
  wwp (bind_legacy_rotation_dispatch_environment environment consent) (fun r m' => stable m m') m.
Proof.
  intros Hm Hcons. assert (forall m', idle [] m m' -> stable m m') as Hi by (intros; by apply idle_stable).
  unfold bind_legacy_rotation_dispatch_environment. apply touched; [done|auto|]. intros m1 Hk Hu Hm1. apply wwp_bind.
  eapply wwp_mono; [by apply dispatch_intent_spec|]. intros [o|e] m2 Hr; [|apply Hi; by eapply kept_idle]. destruct Hr as [Hk2 Hint].
  assert (kept m m2) as Hk2' by by eapply kept_trans. pose proof (kept_ok _ _ Hk2' Hm) as Hm2.
  destruct o as [i|]; [|apply Hi; by left]. destruct consent as [ask|]; [|apply Hi; by left]. destruct environment as [| | | |e| | | |]; try (apply Hi; by left).
  destruct (valid_registry_environment (PStr e)) eqn:Ev; [|rewrite orb_true_r; apply Hi; by left].
  destruct (_ || _); [apply Hi; by left|]. apply wwp_bind, wwp_attempt.
  apply (wwp_mono _ (fun r m' => stable m2 m')); [by apply Hcons|]. intros [answer|e'] m3 Hs3.
  2: { apply wwp_fail. by eapply kept_stable. }
  assert (stable m m3) as Hs3' by by eapply kept_stable. pose proof (proj1 Hs3) as Hm3.
  apply touched; [done|intros; by eapply stable_idle|]. intros m4 Hk4 Hu4 Hm4. assert (stable m m4) as Hs4 by by eapply stable_kept.
  destruct answer as [|[]| | | | | | |]; try exact Hs4. apply wwp_bind. eapply wwp_mono; [by apply dispatch_intent_spec|].
  intros [o'|e'] m5 Hr5; [|by eapply stable_idle]. destruct Hr5 as [Hk5 Hint5]. assert (stable m m5) as Hs5 by by eapply stable_kept.
  case_bool_decide as Eo; cbn [negb]; [|exact Hs5]. subst o'. destruct (Hint5 i eq_refl) as (raw & Hraw & Hfrom). clear Hint Hint5.
  assert (unlocked m5) as Hu5 by by eapply kept_unlocked. pose proof (kept_ok _ _ Hk5 Hm4) as Hm5.
  apply wwp_bind, wwp_self, wwp_bind. eapply wwp_mono; [apply build_envelope_kept|]. intros [env|e'] m6 Hk6; [|by eapply stable_kept].
  apply wwp_bind. eapply wwp_mono; [apply invalidate_kept|]. intros r m7 [-> Hk7]. assert (kept m5 m7) as Hk57 by by eapply kept_trans.
  apply wwp_bind. eapply wwp_mono; [apply (persist_spec []); apply clean_nil; by eapply kept_ok|].
  intros [[]|e'] m8 Hr8; [|eapply stable_idle; [exact Hs5|]; by eapply kept_idle]. apply wwp_bind, wwp_set. cbn beta iota. apply wwp_ret.
  eapply stable_trans; [exact Hs5|done|].
  destruct (unlocked_session m4 Hm4 Hu4) as (d & seed & pending & _ & _ & _ & _ & _ & Hkeys). pose proof Hk5 as [[= _ _ _ _ Epl _] _].
  rewrite <-Epl in Hkeys, Hraw. destruct Hkeys as (_ & _ & Hkeys). destruct seed as [s|]; [|destruct Hkeys as (_ & _ & _ & Hno); by rewrite Hno in Hraw].
  destruct Hkeys as (k & _ & _ & _ & Hpk & Hpend). destruct pending as [t|]; [|destruct Hpend as [_ Hno]; by rewrite Hno in Hraw].
  destruct Hpend as (k' & _ & _ & _ & Hpk' & _ & Hall). destruct (Hall raw Hraw) as (i' & Hi' & Hpred & Hsucc). rewrite Hfrom in Hi'. injection Hi' as <-.
  apply (store_intent_spec m5 (replace_environment i (Some e))); try done.
  - apply replace_environment_wf; [by eapply from_payload_wf|done].
  - by rewrite Hpk, <-Hpred.
  - by rewrite Hpk', <-Hsucc.
  - by eapply kept_trans.
Qed.

(** * Resolving a dispatched rotation *)

Lemma stored_intent_spec m :
  wwp stored_intent (fun r m' => m' = m /\ match r with
    | Ok i => exists raw, wl_payload (m_self m) !! _ROTATION_DISPATCH_INTENT = Some raw /\ _from_payload raw = Ok i
    | Err _ => True end) m.
Proof.
  unfold stored_intent. apply wwp_bind, wwp_self. unfold field. destruct (wl_payload (m_self m) !! _) as [raw|] eqn:E; [|done].
  change (default PNone (Some raw)) with raw. destruct raw as [| | | | | | |d|]; try done. apply wwp_lift. split; [done|].
  destruct (_from_payload (PDict d)) as [i|] eqn:Ei; [|done]. eauto.
Qed.

Lemma check_keys_spec i m :
  wwp (check_rotation_keys i) (fun r m' => m' = m /\ match r with
    | Ok k => exists b t, wl_pending (m_self m) = Some b /\ m_heap m !! b = Some t /\ ed_public t = Some k /\ k = rb_successor_owner_public_key i /\
        is_Some (wl_secret (m_self m))
    | Err _ => True end) m.
Proof.
  unfold check_rotation_keys. do 3 apply wwp_bind, wwp_self. destruct (wl_secret (m_self m)) as [a|]; [|done].
  destruct (wl_pending (m_self m)) as [b|]; [|done]. destruct (field _ f_public_key); try done. destruct (field _ _PENDING_PUBLIC_KEY) as [| | |kp| | | | |]; try done.
  case_bool_decide; cbn [negb orb]; [|done]. case_bool_decide as Es; cbn [negb]; [|done].
  apply wwp_bind. eapply wwp_mono; [apply public_key_for_secret_spec|]. intros [ka|e] m2 [-> _]; [|done].
  eapply wwp_mono; [apply public_key_for_secret_spec|]. intros [k|e] m2 [-> Hk]; [|done]. split; [done|].
  destruct Hk as (b' & t & [= <-] & Ht & Het & [= ->]). eauto 10.
Qed.

Lemma unlatch_keys p seed pending : keys_ok p seed pending -> keys_ok (delete _ROTATION_DISPATCH_INTENT p) seed pending.
Proof.
  intros (A1 & A2 & Hk). unfold keys_ok, field in *. look_fields. split; [done|]. split; [done|]. destruct seed as [s|].
  - destruct Hk as (k & Hs & Hls & Hlk & Hpk & Hp). exists k. repeat (split; [done|]). destruct pending as [t|]; [|by destruct Hp].
    destruct Hp as (k' & Ht & Hlt & Hlk' & Hpk' & Hne & _). exists k'. done.
  - by destruct Hk as (-> & ? & ? & _).
Qed.

Lemma resolve_spec rejection m :
  machine_ok m -> wwp (resolve_signing_key_rotation_rejection rejection) (fun r m' => stable m m') m.
Proof.
  intros Hm. assert (forall m', idle [] m m' -> stable m m') as Hi by (intros; by apply idle_stable).
  unfold resolve_signing_key_rotation_rejection. apply touched; [done|auto|]. intros m1 Hk Hu Hm1. destruct rejection as [rj|]; [|apply Hi; by left].
  destruct (negb _); [apply Hi; by left|]. apply wwp_bind. eapply wwp_mono; [apply stored_intent_spec|]. intros [i|e] m2 [-> _]; [|apply Hi; by left].
  destruct (matches_publication _ _); cbn [negb]; [|apply Hi; by left]. apply wwp_bind. eapply wwp_mono; [apply check_keys_spec|].
  intros [k|e] m2 [-> _]; [|apply Hi; by left]. apply wwp_bind. eapply wwp_mono; [apply is_latched_same|]. intros r m2 [-> ->].
  destruct (negb _); [apply Hi; by left|]. apply wwp_bind. apply (wwp_mono _ (fun r m' => (exists b, r = Ok b) /\ kept m1 m')).
  { unfold wwp, _claim, wbind, wget. destruct (default false _); cbn; (split; [eauto|by split]). }
  intros r m2 [[cl ->] Hk2]. assert (kept m m2) as Hk2' by by eapply kept_trans. destruct cl; cbn [negb]; [|apply Hi; by left].
  pose proof (kept_ok _ _ Hk2' Hm) as Hm2. assert (unlocked m2) as Hu2 by by apply (kept_unlocked m1).
  apply wwp_bind, wwp_self, wwp_bind, wwp_attempt. eapply wwp_mono; [apply (replace_content_spec []); apply clean_nil, Hm2|].
  intros [env|e] m3 Hr.
  2: { apply wwp_bind, wwp_set. cbn beta iota. apply wwp_fail. eapply stable_kept; [apply Hi; by eapply kept_idle|by split]. }
  assert (unlocked m3) as Hu3 by by eapply kept_unlocked. pose proof (kept_ok _ _ Hr Hm2) as Hm3.
  apply wwp_bind, wwp_set, wwp_bind. cbn beta iota. eapply wwp_mono; [apply invalidate_kept|]. intros r m4 [-> Hk4].
  apply wwp_bind. eapply wwp_mono; [apply clear_latch_kept|]. intros r m5 [[b ->] Hk5]. apply wwp_ret.
  eapply (kept_stable m m3); [by eapply kept_trans|]. eapply stable_kept; [eapply stable_kept; [|exact Hk4]|exact Hk5].
  destruct (unlocked_session m3 Hm3 Hu3) as (d & seed & pending & _ & _ & _ & Hseed & Hpend & Hkeys). pose proof Hr as [[= _ _ _ _ Epl _] _].
  rewrite <-Epl. eapply adopt_stable; [done|done|exact Hseed|exact Hpend|by apply unlatch_keys|by look_fields].
Qed.

(** The successor has taken the active key's place: the confirmation is for the intent that
    was stored, which is latched; the old seed is erased and nothing is pending. *)
Record promoted (c : rotation_confirmation) (m m' : machine) : Prop := {
  pr_intent : exists i raw, wl_payload (m_self m) !! _ROTATION_DISPATCH_INTENT = Some raw /\ _from_payload raw = Ok i /\
    confirmation_matches c i = true /\ is_latched (m_latches m) i = true /\
    active m' = (wl_pending (m_self m) ≫= fun b => m_heap m !! b, PBytes (rb_successor_owner_public_key i));
  pr_done : wl_pending (m_self m') = None /\ wl_payload (m_self m') !! _ROTATION_DISPATCH_INTENT = None;
  pr_erased : forall a b, wl_secret (m_self m) = Some a -> m_heap m' !! a = Some b -> zeroed b;
}.

(** The payload after the promotion. *)
Lemma promote_keys p s t k :
  keys_ok p s (Some t) -> ed_public t = Some k ->
  keys_ok (delete _ROTATION_DISPATCH_INTENT (delete _PENDING_PUBLIC_KEY (<[f_public_key := PBytes k]> p))) (Some t) None.
Proof.
  intros (A1 & A2 & Hk) Ht. unfold keys_ok, field. look_fields. split; [done|]. split; [done|]. exists k.
  destruct s as [s|]; [|by destruct Hk]. destruct Hk as (k0 & _ & _ & _ & _ & k' & _ & Hlt & _).
  split; [done|]. split; [done|]. split; [by eapply ed_public_length|]. done.
Qed.

(** The session with the successor's byte array as the active one, the old one wiped. *)
Lemma promoted_ok m p e a b t :
  machine_ok m -> unlocked m -> wl_secret (m_self m) = Some a -> wl_pending (m_self m) = Some b -> m_heap m !! b = Some t ->
  keys_ok p (Some t) None ->
  machine_ok (set_heap (wipe_array a) (set_self (with_content p e) (set_self (fun w => with_pending None (with_secret (Some b) w)) m))) /\
  wipe_array a (m_heap m) !! b = Some t.
Proof.
  intros Hm [d Hd] Ea Eb Ht Hk. destruct (unlocked_session m Hm (ex_intro _ d Hd)) as (d' & _ & _ & Hd' & Hnd & Hdek & _).
  rewrite Hd in Hd'. injection Hd' as <-. destruct Hm as [_ Hc]. unfold secrets in Hnd. rewrite Hd, Ea, Eb in Hnd. cbn in Hnd.
  rewrite !NoDup_cons in Hnd. split.
  - apply wipe_unheld.
    + unfold session_ok, secrets. cbn. rewrite Hd. cbn. split; [rewrite !NoDup_cons; set_solver|]. split; [destruct Hdek as [dek ->]; eauto|].
      exists (Some t), None. done.
    + unfold secrets. cbn. rewrite Hd. set_solver.
    + intros x y Hy. cbn in Hy. destruct (Hc x y Hy) as [Hx|]; [|by right; right]. unfold secrets in *. cbn. rewrite Ea, Eb in Hx. rewrite Hd in *. set_solver.
  - unfold wipe_array. rewrite list_lookup_alter_ne; [done|]. set_solver.
Qed.

(** What a call of [finalize_signing_key_rotation] leaves. *)
Definition finalize_outcome (c : option rotation_confirmation) (m : machine) (r : res bytes) (m' : machine) : Prop :=
  machine_ok m' /\
  match r with
  | Ok k => exists c', c = Some c' /\ promoted c' m m' /\ k = rb_successor_owner_public_key (conf_binding c')
  | Err _ => stable m m' \/ exists c', c = Some c' /\ promoted c' m m'
  end.

Lemma finalize_spec c m : machine_ok m -> wwp (finalize_signing_key_rotation c) (finalize_outcome c m) m.
Proof.
  intros Hm. assert (forall e m', idle [] m m' -> finalize_outcome c m (Err e) m') as Hi.
  { intros e m' Hi'. apply idle_stable in Hi'; [|done]. split; [apply Hi'|by left]. }
  unfold finalize_signing_key_rotation. apply touched_latches; [done|auto|]. intros m1 Hk Hu Hm1 Hlat. destruct c as [c|]; [|apply wwp_fail, Hi; by left].
  apply wwp_bind. eapply wwp_mono; [apply stored_intent_spec|]. intros [i|e] m2 [-> Hint]; [|apply Hi; by left]. destruct Hint as (raw & Hraw & Hfrom).
  destruct (confirmation_matches c i) eqn:Em; cbn [negb]; [|apply wwp_fail, Hi; by left]. apply wwp_bind. eapply wwp_mono; [apply check_keys_spec|].
  intros [k|e] m2 [-> Hkey]; [|apply Hi; by left]. destruct Hkey as (b & t & Eb & Ht & Het & Hsucc & [a Ea]).
  case_bool_decide as Ek; cbn [negb]; [|apply wwp_fail, Hi; by left].
  apply wwp_bind. eapply wwp_mono; [apply is_latched_same|]. intros r m2 [-> ->]. cbn [andb]. destruct (is_latched (m_latches m1) i) eqn:El; cbn [negb]; [|apply wwp_fail, Hi; by left].
  do 3 apply wwp_bind, wwp_self. apply wwp_bind. eapply wwp_mono; [apply invalidate_kept|]. intros r m2 [-> Hk2].
  assert (kept m m2) as Hk2' by by eapply kept_trans. pose proof (kept_ok _ _ Hk2' Hm) as Hm2.
  apply wwp_bind. eapply wwp_mono; [apply (replace_content_spec []); apply clean_nil, Hm2|].
  intros [env|e] m3 Hr; [|apply Hi; by apply (kept_idle [] m m2)]. assert (kept m1 m3) as Hk13 by by eapply kept_trans.
  apply wwp_bind, wwp_set, wwp_bind, wwp_set. cbn beta iota. rewrite Ea, Eb. apply wwp_bind, wwp_set. cbn beta iota.
  set (updated := delete _ROTATION_DISPATCH_INTENT _).
  pose proof (kept_ok _ _ Hk13 Hm1) as Hm3. pose proof Hk13 as [[= _ _ Es Ep Epl _] Eh]. assert (unlocked m3) as Hu3 by by apply (kept_unlocked m1).
  assert (keys_ok updated (Some t) None) as Hkeys.
  { destruct (unlocked_session m1 Hm1 Hu) as (d & seed & pending & _ & _ & _ & _ & Hpend & Hkeys). rewrite Eb in Hpend.
    destruct pending as [t'|]; [|done]. cbn in Hpend. rewrite Ht in Hpend. injection Hpend as <-. by eapply promote_keys. }
  destruct (promoted_ok m3 updated env a b t Hm3 Hu3) as [Hok Hlook]; [by rewrite Es|by rewrite Ep|by rewrite Eh|done|].
  match goal with |- wwp _ _ ?m => set (m4 := m) in * end.
  assert (promoted c m m4) as Hprom.
  { pose proof Hk as [[= _ _ Es1 Ep1 Epl1 _] Eh1]. split.
    - exists i, raw. rewrite <-Epl1. split; [done|]. split; [done|]. split; [done|]. split; [by rewrite <-Hlat|].
      unfold active. cbn. rewrite Hlook, <-Ep1, Eb, <-Eh1. cbn. rewrite Ht. f_equal. unfold field, updated. look_fields. cbn. by rewrite Hsucc.
    - cbn. split; [done|]. unfold updated. by look_fields.
    - intros a' y Ha'. rewrite <-Es1, Ea in Ha'. injection Ha' as <-. cbn. by intros [[_ ?]|[? _]]%wipe_lookup. }
  apply wwp_bind. eapply wwp_mono; [apply clear_latch_kept|]. intros r m5 [[cl ->] Hk5]. pose proof (kept_ok _ _ Hk5 Hok) as Hm5.
  assert (promoted c m m5) as Hprom5.
  { destruct Hprom as [(i' & raw' & Hpi & Hpf & Hpm & Hpl & Hpa) [Hd1 Hd2] He]. pose proof Hk5 as [[= _ _ _ Ep5 Epl5 _] Eh5]. split.
    - exists i', raw'. rewrite (kept_active _ _ Hk5). done.
    - by rewrite Ep5, Epl5.
    - by rewrite Eh5. }
  destruct cl; cbn [negb]; [apply wwp_ret|apply wwp_fail]; (split; [done|]).
  - exists c. split; [done|]. split; [done|]. done.
  - right. by exists c.
Qed.
End Stage.
End Leftover.
