(* ===== verification/WalletOpenFacts.v ===== *)
(** Creating, opening, migrating and importing a wallet establish the session's invariant,
    and leave no secret behind when they fail. *)

From stdpp Require Import gmap.
From S2P Require Import Prelude PyVal Sha256 Interfaces SignedUpdate Rotation Signer Base64 Json Container Storage WalletState Wallet WalletFacts WalletRotationFacts.

Open Scope Z_scope.

Section Leftover.
Context {L : Lost}.

Section Open.
Context `{PyFloat} `{Kdf} `{Aead} `{!Ed25519}.

(** No session is open; byte arrays other than those of [xs] are zeroed. *)
Definition quiet (xs : list nat) (m : machine) : Prop :=
  secrets (m_self m) = [] /\ session_ok (m_self m) (m_heap m) /\ clean_but xs m /\ Forall (fun x => (x < length (m_heap m))%nat) xs.

(** A session is open, and the byte arrays of [xs] are not its own. *)
Definition opened (xs : list nat) (m : machine) : Prop :=
  unlocked m /\ session_ok (m_self m) (m_heap m) /\ clean_but xs m /\ (forall x, x ∈ xs -> x ∉ secrets (m_self m)).

Lemma quiet_kept xs m m' : kept m m' -> quiet xs m -> quiet xs m'.
Proof.
  intros Hk (Hs & Hok & Hc & Hx). split; [by rewrite (kept_secrets _ _ Hk)|]. split; [by eapply kept_session|]. split; [by eapply kept_clean|].
  destruct Hk as [_ ->]. done.
Qed.

Lemma quiet_ok m : quiet [] m -> machine_ok m.
Proof. intros (_ & Hs & Hc & _). split; [done|by apply clean_nil]. Qed.

Lemma opened_ok m : opened [] m -> machine_ok m.
Proof. intros (_ & Hs & Hc & _). split; [done|by apply clean_nil]. Qed.

(** A new byte array. *)
Lemma new_bytearray_quiet xs b m :
  quiet xs m -> wwp (new_bytearray b) (fun r m' => r = Ok (length (m_heap m)) /\ quiet (length (m_heap m) :: xs) m' /\
    m_heap m' !! length (m_heap m) = Some b /\ length (m_heap m) ∉ xs) m.
Proof.
  intros (Hs & Hok & Hc & Hx). unfold wwp, new_bytearray. cbn. split; [done|]. split; [|split].
  - split; [done|]. split; [|split].
    + cbn. eapply session_heap; [|exact Hok]. rewrite Hs. intros a Ha. by apply elem_of_nil in Ha.
    + intros a y Hy. cbn in Hy. apply lookup_app_Some in Hy as [Hy|[Hge Hy]].
      * destruct (Hc a y Hy) as [|[|]]; [by left|right; left; by right|by right; right].
      * apply lookup_lt_Some in Hy. cbn in Hy. right. left. replace a with (length (m_heap m)) by lia. by left.
    + cbn. rewrite length_app. cbn. constructor; [lia|]. eapply Forall_impl; [exact Hx|]. cbn. lia.
  - by rewrite lookup_app_r, Nat.sub_diag.
  - intros Hin. rewrite Forall_forall in Hx. specialize (Hx _ Hin). cbn in Hx. lia.
Qed.

(** Wiping an array that the session does not own. *)
Lemma wipe_quiet xs a m : quiet (a :: xs) m -> wwp (_wipe (Some a)) (fun r m' => r = Ok tt /\ quiet xs m') m.
Proof.
  intros (Hs & Hok & Hc & Hx). unfold wwp, _wipe. cbn. split; [done|]. split; [done|]. split; [|split].
  - cbn. eapply session_heap; [|exact Hok]. rewrite Hs. intros b Hb. by apply elem_of_nil in Hb.
  - intros x y. cbn. intros [[-> Hz%(zeroed_spent a)]|[Hne Hy]]%wipe_lookup; [by right; right|]. destruct (Hc x y Hy) as [|[|]]; [by left| |by right; right].
    right. left. set_solver.
  - cbn. unfold wipe_array. rewrite length_alter. by inversion Hx.
Qed.

(** Giving a session the seeds of its payload. *)
Lemma new_wallet_spec xs path dek payload envelope minutes m :
  quiet (dek :: xs) m -> dek ∉ xs ->
  wwp (new_wallet path dek payload envelope minutes)
    (fun r m' => match r with Ok _ => opened xs m' | Err _ => quiet (dek :: xs) m' end) m.
Proof.
  intros Hq Hdx. pose proof Hq as (Hs & Hok & Hc & Hx). inversion_clear Hx as [|? ? Hlt Hx'].
  unfold new_wallet. apply wwp_bind, wwp_lift. destruct (_install_secret_material payload) as [[[rest seed] pending]|e] eqn:Ei; [|exact Hq].
  apply install_ok in Ei as Hkeys. set (h := m_heap m).
  apply wwp_bind. apply (wwp_mono _ (fun r m' => exists o, r = Ok o /\ m_self m' = m_self m /\ exists ext, m_heap m' = h ++ ext /\
    length ext = length (option_list seed) /\ o = (fun _ => length h) <$> seed /\ ext = option_list seed)).
  { destruct seed as [s|]; [apply wwp_bind; unfold wwp; cbn; eexists; split; [done|]; split; [done|]; by exists [s]|].
    apply wwp_ret. exists None. split; [done|]. split; [done|]. exists []. by rewrite app_nil_r. }
  intros r m1 (o & -> & Hself1 & ext & Hh1 & _ & -> & ->).
  apply wwp_bind. apply (wwp_mono _ (fun r m' => r = Ok ((fun _ => length (h ++ option_list seed)) <$> pending) /\ m_self m' = m_self m /\
    m_heap m' = (h ++ option_list seed) ++ option_list pending)).
  { destruct pending as [s|]; [apply wwp_bind; unfold wwp; cbn; rewrite Hh1; done|]. apply wwp_ret. by rewrite app_nil_r. }
  intros r m2 (-> & Hself2 & Hh2). apply wwp_bind. eapply wwp_mono; [apply monotonic_kept|]. intros r m3 [[t ->] [_ Hh3]].
  apply wwp_set. rewrite Hh2 in Hh3. fold h in Hlt, Hc, Hx'.
  assert (forall x b, m_heap m3 !! x = Some b -> h !! x = Some b \/ (x ∈ option_list ((fun _ => length h) <$> seed)) \/
    (x ∈ option_list ((fun _ => length (h ++ option_list seed)) <$> pending))) as Hsplit.
  { intros x b. rewrite Hh3. intros [Hb|[Hge Hb]]%lookup_app_Some.
    - apply lookup_app_Some in Hb as [Hb|[Hge Hb]]; [by left|]. right. left. apply lookup_lt_Some in Hb. destruct seed; cbn in *; [|lia].
      replace x with (length h) by lia. by left.
    - right. right. apply lookup_lt_Some in Hb. destruct pending; cbn in *; [|lia]. replace x with (length (h ++ option_list seed)) by lia. by left. }
  assert (forall x, (x < length h)%nat -> x ∉ option_list ((fun _ => length h) <$> seed) /\ x ∉ option_list ((fun _ => length (h ++ option_list seed)) <$> pending)) as Hold.
  { intros x Hxl. rewrite length_app. split; [destruct seed|destruct pending]; cbn; intros Hin; try (by apply elem_of_nil in Hin);
      apply list_elem_of_singleton in Hin; lia. }
  split; [by eexists|]. split; [|split].
  - unfold session_ok, secrets. cbn. split; [|split].
    + apply NoDup_cons. split; [rewrite not_elem_of_app; by apply Hold|]. destruct seed, pending; cbn; try (repeat constructor; set_solver).
      rewrite length_app. cbn. apply NoDup_cons. split; [intros Hin%list_elem_of_singleton; lia|apply NoDup_singleton].
    + rewrite Hh3. destruct (lookup_lt_is_Some_2 h dek Hlt) as [key Hkey]. exists key. by do 2 apply lookup_app_l_Some.
    + exists seed, pending. split; [|split; [|done]].
      * rewrite Hh3. destruct seed; [|done]. cbn. apply lookup_app_l_Some. by rewrite lookup_app_r, Nat.sub_diag.
      * rewrite Hh3. destruct pending; [|done]. cbn. by rewrite lookup_app_r, Nat.sub_diag.
  - intros x b [Hb|Hx2]%Hsplit.
    + destruct (Hc x b Hb) as [Hxs|[Hxs|]]; [by rewrite Hs in Hxs; apply elem_of_nil in Hxs| |by right; right].
      apply elem_of_cons in Hxs as [->|]; [left|by right; left]. unfold secrets. cbn. by left.
    + left. unfold secrets. cbn. right. by apply elem_of_app.
  - intros x Hin. rewrite Forall_forall in Hx'. pose proof (Hold x (Hx' x Hin)) as [Hn1 Hn2]. unfold secrets. cbn.
    rewrite not_elem_of_cons, not_elem_of_app. split; [|done]. by intros ->.
Qed.

(** A session, or none and nothing left of it. *)
Definition opened_or_quiet {A} (xs : list nat) (r : res A) (m : machine) : Prop :=
  match r with Ok _ => opened xs m | Err _ => quiet xs m end.

Lemma swallow_ok {A} (c : IO A) w : exists w', swallow c w = (Ok tt, w').
Proof. unfold swallow, io_bind, attempt, ret. eauto. Qed.

Lemma undo_creation_spec {A} xs target created dek e m :
  quiet (dek :: xs) m -> wwp (undo_creation (A:=A) target created (Some dek) e) (opened_or_quiet xs) m.
Proof.
  intros Hq. unfold undo_creation. apply wwp_bind. apply (wwp_mono _ (fun r m' => r = Ok tt /\ kept m m')).
  { destruct created; [|by split; [|split]]. unfold wwp, wio. destruct (swallow_ok (unlink target) (m_world m)) as [w' ->]. cbn. by split. }
  intros r m1 [-> Hk]. apply wwp_bind. eapply wwp_mono; [by apply (wipe_quiet xs); eapply quiet_kept|]. intros r m2 [-> Hq2]. by apply wwp_fail.
Qed.

Lemma create_storage_spec xs path password confirmation payload minutes m :
  quiet xs m -> wwp (_create_storage path password confirmation payload minutes) (opened_or_quiet xs) m.
Proof.
  intros Hq. unfold _create_storage. apply wwp_bind, wwp_lift. destruct (_validate_password _ _) as [pw|e]; [|exact Hq].
  apply wwp_bind, wwp_lift. destruct (_validate_inactivity _) as [mins|e]; [|exact Hq]. destruct payload as [| | | | | | |d|]; try exact Hq.
  apply wwp_bind. eapply wwp_mono; [apply token_bytes_kept|]. intros r m1 [(key & -> & _) Hk1].
  apply wwp_bind. eapply wwp_mono; [apply (new_bytearray_quiet xs); by eapply quiet_kept|]. intros r m2 (-> & Hq2 & _ & Hdx).
  set (dek := length (m_heap m1)) in *.
  apply wwp_bind. eapply wwp_mono; [apply token_bytes_kept|]. intros r m3 [(salt & -> & _) Hk3]. assert (quiet (dek :: xs) m3) as Hq3 by by eapply quiet_kept.
  apply wwp_bind. eapply wwp_mono; [apply token_bytes_kept|]. intros r m4 [(wn & -> & _) Hk4]. assert (quiet (dek :: xs) m4) as Hq4 by by apply (quiet_kept _ m3).
  apply wwp_bind. eapply wwp_mono; [apply token_bytes_kept|]. intros r m5 [(pn & -> & _) Hk5]. assert (quiet (dek :: xs) m5) as Hq5 by by apply (quiet_kept _ m4).
  apply wwp_bind, wwp_attempt. apply (wwp_mono _ (fun _ m' => kept m5 m')).
  { apply wwp_bind, wwp_lift. destruct (_build_v2_envelope _ _ _ _ _ _) as [env|e]; [|apply kept_refl]. apply wwp_bind, wwp_lift.
    destruct (_serialize env) as [raw|e]; [|apply kept_refl]. apply wwp_bind. apply (wwp_mono _ (fun _ m' => kept m5 m')); [by split|].
    by intros [[]|e] m6 Hk6. }
  intros [env|e] m6 Hk6; [|apply undo_creation_spec; by apply (quiet_kept _ m5)]. apply wwp_bind, wwp_attempt.
  eapply wwp_mono; [apply (new_wallet_spec xs); [by apply (quiet_kept _ m5)|done]|]. intros [[]|e] m7 Hr; [exact Hr|by apply undo_creation_spec].
Qed.

Lemma create_spec xs path password confirmation payload minutes m :
  quiet xs m -> wwp (create path password confirmation payload minutes) (opened_or_quiet xs) m.
Proof.
  intros Hq. unfold create. destruct payload as [| | | | | | |d|]; try exact Hq. destruct (has_signing_fields d); [exact Hq|]. by apply create_storage_spec.
Qed.

Lemma wipe_opened xs a m : opened (a :: xs) m -> wwp (_wipe (Some a)) (fun r m' => r = Ok tt /\ opened xs m') m.
Proof.
  intros (Hu & Hok & Hc & Hx). unfold wwp, _wipe. cbn. split; [done|]. split; [done|]. split; [|split].
  - cbn. eapply session_heap; [|exact Hok]. intros b Hb. unfold wipe_array. apply list_lookup_alter_ne. intros ->. eapply Hx; [by left|done].
  - intros x y. cbn. intros [[-> Hz%(zeroed_spent a)]|[Hne Hy]]%wipe_lookup; [by right; right|]. destruct (Hc x y Hy) as [|[|]]; [by left| |by right; right].
    right. left. set_solver.
  - intros x Hxx. apply Hx. by right.
Qed.

Lemma create_generated_spec path password confirmation minutes m :
  quiet [] m -> wwp (create_with_generated_key path password confirmation minutes) (opened_or_quiet []) m.
Proof.
  intros Hq. unfold create_with_generated_key, generate_seed. apply wwp_bind, wwp_bind. eapply wwp_mono; [apply token_bytes_kept|].
  intros r m1 [(b & -> & Hb) Hk1]. apply wwp_bind, wwp_lift. unfold Signer._generate_seed. rewrite Hb, Nat.eqb_refl. cbn [negb].
  eapply wwp_mono; [apply (new_bytearray_quiet []); by eapply quiet_kept|]. intros r m2 (-> & Hq2 & _). unfold wfinally.
  apply wwp_bind, wwp_attempt. apply (wwp_mono _ (opened_or_quiet [length (m_heap m1)])).
  { apply wwp_bind, wwp_get, wwp_bind, wwp_lift. destruct (Signer._public_key_from_seed _); [|exact Hq2]. by apply create_storage_spec. }
  intros [[]|e] m3 Hr; apply wwp_bind.
  - eapply wwp_mono; [by apply (wipe_opened [])|]. intros r m4 [-> Ho]. exact Ho.
  - eapply wwp_mono; [by apply (wipe_quiet [])|]. intros r m4 [-> Ho]. exact Ho.
Qed.

(** Unlocking puts the data key into a new byte array. *)
Lemma unlock_counted_spec xs target envelope password version m :
  quiet xs m -> wwp (unlock_counted target envelope password version) (fun r m' => match r with
    | Ok (a, p) => quiet (a :: xs) m' /\ a ∉ xs /\ exists dek d, _unlock_envelope envelope password version = Ok (dek, d) /\ p = payload_of d /\
        m_heap m' !! a = Some dek
    | Err _ => quiet xs m' end) m.
Proof.
  intros Hq. unfold unlock_counted. destruct (_unlock_envelope envelope password version) as [[dek d]|e].
  - apply wwp_bind. eapply wwp_mono; [by apply (new_bytearray_quiet xs)|]. intros r m1 (-> & Hq1 & Hd & Hx).
    apply wwp_bind, wwp_set, wwp_ret. split; [|split; [done|by exists dek, d]]. apply (quiet_kept _ m1); [by split|exact Hq1].
  - by destruct e.
Qed.

(** An open session is locked and leaves nothing. *)
Lemma lock_quiet m : opened [] m -> wwp lock (fun r m' => r = Ok tt /\ quiet [] m') m.
Proof.
  intros (_ & _ & Hc & _). eapply wwp_mono; [by apply (lock_shut [])|]. intros r m' [-> (Hl & Hc' & _)]. split; [done|].
  split; [by rewrite Hl|]. split; [by apply locked_session|]. by split.
Qed.

(** A payload that cannot be installed is an invalid container. *)
Lemma intent_errs o p s h n eh env : errs (eq InvalidContainer) (RotationDispatchIntent o p s h n eh env).
Proof.
  assert (forall v, errs (eq InvalidContainer) (require_hash v)) as Hh by (intros []; try done; by apply errs_if).
  unfold RotationDispatchIntent. apply errs_bind; [repeat case_match; done|]. intros e _.
  apply errs_bind; [repeat case_match; done|]. intros ow _. do 4 (apply errs_bind; [apply Hh|]; intros ? _). repeat case_match; done.
Qed.

Lemma install_errs payload : errs (eq InvalidContainer) (_install_secret_material payload).
Proof.
  assert (forall s k, errs (eq InvalidContainer) (_validate_seed_public_key_pair s k)) as Hv.
  { intros s k. unfold _validate_seed_public_key_pair. repeat (case_match; try done). }
  unfold _install_secret_material. apply errs_if; intros _; [by apply errs_if|].
  apply errs_bind; [apply Hv|]. intros [s k] _. apply errs_bind.
  { unfold install_pending. apply errs_if; intros _; [by apply errs_if|]. apply errs_bind; [apply Hv|]. intros [s' k'] _. by apply errs_if. }
  intros pd _. apply errs_bind; [|done]. unfold check_intent. destruct (_ !! _ROTATION_DISPATCH_INTENT) as [raw|]; [|done]. destruct pd as [[t k']|]; [|done].
  apply errs_bind; [|intros i _; by apply errs_if]. unfold _from_payload. destruct raw as [| | | | | | |d|]; try done. destruct (text_items d); [|done].
  apply errs_if; [done|]. intros _. apply errs_if; [done|]. intros _. apply intent_errs.
Qed.

Lemma new_wallet_errs path dek payload envelope minutes m e :
  (new_wallet path dek payload envelope minutes m).1 = Err e -> e = InvalidContainer.
Proof.
  change (wwp (new_wallet path dek payload envelope minutes) (fun r _ => r = Err e -> e = InvalidContainer) m). unfold new_wallet.
  apply wwp_bind, wwp_lift. pose proof (install_errs payload) as Hi. destruct (_install_secret_material payload) as [[[rest seed] pending]|e']; [|by intros [= ->]].
  assert (forall o m, wwp (match o with Some s => let& a := new_bytearray s in wret (Some a) | None => wret None end) (fun r _ => exists a, r = Ok a) m) as Ha
    by (intros [s|] m0; unfold wwp; cbn; eauto).
  apply wwp_bind. eapply wwp_mono; [apply Ha|]. intros r m1 [a ->]. apply wwp_bind. eapply wwp_mono; [apply Ha|]. intros r m2 [b ->].
  apply wwp_bind. eapply wwp_mono; [apply monotonic_kept|]. by intros r m3 [[t ->] _].
Qed.

(** A session that stays open is usable; a failure leaves at most the data key's array, when
    the payload was refused. *)
Lemma open_spec path password minutes m :
  quiet [] m -> wwp (open path password minutes) (fun r m' => match r with
    | Ok _ => opened [] m'
    | Err e => quiet [] m' \/ (e = InvalidContainer /\ exists dek, quiet [dek] m') end) m.
Proof.
  intros Hq. unfold open. apply wwp_bind, wwp_lift. destruct (_validate_password _ _) as [pw|e]; [|by left].
  apply wwp_bind, wwp_lift. destruct (_validate_inactivity _) as [mins|e]; [|by left].
  apply wwp_bind. unfold _read_envelope. apply wwp_bind. apply (wwp_mono _ (fun _ m' => kept m m')); [by split|]. intros [raw|e] m1 Hk1; [|left; by eapply quiet_kept].
  apply wwp_lift. assert (quiet [] m1) as Hq1 by by eapply quiet_kept. destruct (_parse_container _ _) as [env|e]; [|by left].
  apply wwp_bind. eapply wwp_mono; [by apply (unlock_counted_spec [])|]. intros [[dek p]|e] m2 Hr; [|by left]. destruct Hr as (Hq2 & Hd & _).
  pose proof (new_wallet_errs path dek p env mins m2) as He. pose proof (new_wallet_spec [] path dek p env mins m2 Hq2 Hd) as Hn.
  unfold wwp in *. destruct (new_wallet path dek p env mins m2) as [[[]|e] m3]; [done|]. right. split; [by apply He|by exists dek].
Qed.

Lemma undo_session_spec {A} dek (made : bool) e m :
  (if made then opened [] m else quiet (option_list dek) m) -> wwp (undo_session (A:=A) dek made e) (opened_or_quiet []) m.
Proof.
  intros Hm. unfold undo_session. apply wwp_bind. destruct made.
  - eapply wwp_mono; [by apply lock_quiet|]. intros r m' [-> Hq]. exact Hq.
  - destruct dek as [a|]; [|exact Hm]. eapply wwp_mono; [by apply (wipe_quiet [])|]. intros r m' [-> Hq]. exact Hq.
Qed.

Lemma opened_kept xs m m' : kept m m' -> opened xs m -> opened xs m'.
Proof.
  intros Hk (Hu & Hok & Hc & Hx). split; [|split; [by eapply kept_session|split; [by eapply kept_clean|by rewrite (kept_secrets _ _ Hk)]]].
  unfold unlocked. destruct Hk as [[= _ -> _ _ _ _] _]. done.
Qed.

Lemma import_spec path data password minutes m :
  quiet [] m -> wwp (import_container path data password minutes) (opened_or_quiet []) m.
Proof.
  intros Hq. unfold import_container. apply wwp_bind, wwp_lift. destruct (_validate_password _ _) as [pw|e]; [|exact Hq].
  apply wwp_bind, wwp_lift. destruct (_validate_inactivity _) as [mins|e]; [|exact Hq]. destruct data as [| | |raw| | | | |]; try exact Hq.
  apply wwp_bind, wwp_lift. destruct (_parse_container _ _) as [env|e]; [|exact Hq].
  apply wwp_bind, wwp_attempt. eapply wwp_mono; [by apply (unlock_counted_spec [])|]. intros [[dek p]|e] m1 Hr; [|by apply undo_session_spec].
  destruct Hr as (Hq1 & Hd & _). apply wwp_bind, wwp_attempt. eapply wwp_mono; [by apply (new_wallet_spec [])|].
  intros [[]|e] m2 Hr; [|by apply undo_session_spec]. apply wwp_bind, wwp_attempt. apply (wwp_mono _ (fun _ m' => kept m2 m')); [by split|].
  intros [[]|e] m3 Hk3; [by eapply opened_kept|]. apply undo_session_spec. by eapply opened_kept.
Qed.

Lemma migrate_spec path password minutes m :
  quiet [] m -> wwp (migrate_container path password minutes) (opened_or_quiet []) m.
Proof.
  intros Hq. unfold migrate_container. apply wwp_bind, wwp_lift. destruct (_validate_password _ _) as [pw|e]; [|exact Hq].
  apply wwp_bind, wwp_lift. destruct (_validate_inactivity _) as [mins|e]; [|exact Hq].
  apply wwp_bind. apply (wwp_mono _ (fun _ m' => kept m m')); [by split|]. intros [raw|e] m0 Hk0; [|by eapply quiet_kept].
  assert (quiet [] m0) as Hq0 by by eapply quiet_kept. apply wwp_bind, wwp_lift. destruct (_parse_container _ _) as [env|e]; [|exact Hq0].
  apply wwp_bind, wwp_attempt. eapply wwp_mono; [by apply (unlock_counted_spec [])|]. intros [[dek p]|e] m1 Hr; [|by apply undo_session_spec].
  destruct Hr as (Hq1 & Hd & _). apply wwp_bind, wwp_attempt.
  apply (wwp_mono _ (fun r m' => match r with Ok _ => opened [] m' | Err _ => quiet [dek] m' end)).
  { apply wwp_bind, wwp_get, wwp_bind, wwp_lift. destruct (item _ _) as [kdf|e]; [|exact Hq1].
    apply wwp_bind. eapply wwp_mono; [apply token_bytes_kept|]. intros r m2 [(wn & -> & _) Hk2]. assert (quiet [dek] m2) as Hq2 by by eapply quiet_kept.
    apply wwp_bind. eapply wwp_mono; [apply token_bytes_kept|]. intros r m3 [(pn & -> & _) Hk3]. assert (quiet [dek] m3) as Hq3 by by apply (quiet_kept _ m2).
    apply wwp_bind, wwp_lift. destruct (_build_v2_envelope _ _ _ _ _ _) as [mig|e]; [|exact Hq3].
    apply wwp_bind. eapply wwp_mono; [by apply (new_wallet_spec [])|]. intros [[]|e] m4 Hr; exact Hr. }
  intros [mig|e] m2 Hr; [|by apply undo_session_spec]. apply wwp_bind, wwp_attempt. apply (wwp_mono _ (fun _ m' => kept m2 m')).
  { apply wwp_bind, wwp_lift. destruct (_serialize mig); by split. }
  intros [[]|e] m3 Hk3; [by eapply opened_kept|]. apply undo_session_spec. by eapply opened_kept.
Qed.
End Open.
End Leftover.
