(* ===== verification/WalletClaims.v ===== *)
(** The methods of a wallet as one family of steps, sessions reachable by them, and what
    holds of every such session. *)

From stdpp Require Import gmap.
From S2P Require Import Prelude PyVal Sha256 Interfaces SignedUpdate Draft Consent Rotation Adapter Dispatch Signer Base64 Json Container Storage WalletState Wallet WalletRotation WalletFacts WalletRotationFacts WalletOpenFacts.

Open Scope Z_scope.

(** * Steps *)

(** The class methods that make a session. *)
Inductive factory :=
  | Create (path : pystr) (password confirmation payload inactivity_minutes : pyval)
  | CreateWithGeneratedKey (path : pystr) (password confirmation inactivity_minutes : pyval)
  | Open (path : pystr) (password inactivity_minutes : pyval)
  | MigrateContainer (path : pystr) (password inactivity_minutes : pyval)
  | ImportContainer (path : pystr) (data password inactivity_minutes : pyval).

(** The public methods and properties of a session. *)
Inductive method :=
  | IsUnlocked
  | LastActivity
  | CheckInactivity (now : option Z)
  | Lock
  | Background
  | PublicKey
  | CreateSigner (timeout : Z)
  | DispatchIntent
  | PendingPublicKey
  | Prepare
  | Prove (draft : option identity_draft)
  | Latch (bundle : option identity_bundle) (publication : option rotation_publication) (now : Z)
  | BindEnvironment (environment : pyval) (consent : option (rotation_binding -> pyval -> W pyval))
  | Finalize (confirmation : option rotation_confirmation)
  | Resolve (rejection : option rotation_rejection)
  | Cancel
  | UpdatePayload (payload : pyval)
  | Export
  | ChangePassword (password confirmation : pyval).

Definition forget {A} (p : W A) : W unit := let& _ := p in wret tt.

Section Steps.
Context `{PyFloat} `{Kdf} `{Aead} `{Ed25519} `{Cbor}.

Definition run_factory (f : factory) : W unit :=
  match f with
  | Create path password confirmation payload minutes => create path password confirmation payload minutes
  | CreateWithGeneratedKey path password confirmation minutes => create_with_generated_key path password confirmation minutes
  | Open path password minutes => open path password minutes
  | MigrateContainer path password minutes => migrate_container path password minutes
  | ImportContainer path data password minutes => import_container path data password minutes
  end.

Definition run_method (x : method) : W unit :=
  match x with
  | IsUnlocked => forget is_unlocked
  | LastActivity => forget last_activity
  | CheckInactivity now => forget (check_inactivity now)
  | Lock => lock
  | Background => background
  | PublicKey => forget public_key
  | CreateSigner timeout => forget (create_signer timeout)
  | DispatchIntent => forget signing_key_rotation_dispatch_intent
  | PendingPublicKey => forget pending_signing_public_key
  | Prepare => forget prepare_signing_key_rotation
  | Prove draft => prove_pending_signing_key_rotation draft
  | Latch bundle publication now => forget (latch_signing_key_rotation_dispatch_intent bundle publication now)
  | BindEnvironment environment consent => forget (bind_legacy_rotation_dispatch_environment environment consent)
  | Finalize confirmation => forget (finalize_signing_key_rotation confirmation)
  | Resolve rejection => resolve_signing_key_rotation_rejection rejection
  | Cancel => cancel_signing_key_rotation
  | UpdatePayload payload => update_payload payload
  | Export => forget export_container
  | ChangePassword password confirmation => change_password password confirmation
  end.

(** A consent callback may use the wallet, but not to change its active key. *)
Definition callback_ok {L : Lost} (x : method) : Prop :=
  match x with BindEnvironment _ (Some ask) => consent_stable ask | _ => True end.

(** How many data keys a factory can leave behind: an [open] refused with
    [InvalidContainer] may have one. *)
Definition refused (f : factory) (m : machine) : nat :=
  match f, (run_factory f m).1 with Open _ _ _, Err InvalidContainer => 1 | _, _ => 0 end.

(** A process starts with no session.  A session is made when there is none, or the last one
    is locked; then its methods run.  [reachable n m]: along the way [n] calls of [open]
    were refused with [InvalidContainer]. *)
Inductive reachable : nat -> machine -> Prop :=
  | reach_start m : m_self m = locked (m_self m) -> m_heap m = [] -> reachable 0 m
  | reach_factory f n m :
      reachable n m -> wl_dek (m_self m) = None -> reachable (refused f m + n) (run_factory f m).2
  | reach_method x n m : reachable n m -> (forall L : Lost, callback_ok x) -> reachable n (run_method x m).2.

Section Leftover.
Context {L : Lost}.

(** * Every method keeps the invariant *)

Lemma wwp_forget {A} (p : W A) (P : machine -> Prop) m : wwp p (fun _ m' => P m') m -> P (forget p m).2.
Proof. unfold wwp, forget, wbind. by destruct (p m) as [[a|e] m']. Qed.

Lemma wwp_state {A} (p : W A) (P : machine -> Prop) m : wwp p (fun _ m' => P m') m -> P (p m).2.
Proof. done. Qed.

Lemma check_inactivity_spec now m : machine_ok m -> wwp (check_inactivity now) (fun _ m' => idle [] m m') m.
Proof.
  intros Hm. unfold check_inactivity, is_unlocked. apply wwp_bind, wwp_self. cbn beta iota.
  case_bool_decide; cbn [negb]; [|apply wwp_ret; left; apply kept_refl]. apply wwp_bind.
  apply (wwp_mono _ (fun r m' => (exists t, r = Ok t) /\ kept m m')); [destruct now; [split; [by eexists|apply kept_refl]|apply monotonic_kept]|].
  intros r m1 [[t ->] Hk]. apply wwp_bind, wwp_self, wwp_bind, wwp_self. case_match; [|by left]. apply wwp_bind.
  eapply wwp_mono; [apply (lock_shut []), (kept_clean [] m); [done|apply clean_nil, Hm]|]. intros r m2 [-> Hs]. apply wwp_ret. right. by eapply kept_shut.
Qed.

Lemma last_activity_same m : (last_activity m).2 = m.
Proof. unfold last_activity, _require_unlocked, is_unlocked, wbind, self, wget. cbn. by case_bool_decide. Qed.

Lemma lock_stable m : machine_ok m -> stable m (lock m).2.
Proof.
  intros Hm. apply (wwp_state lock). eapply wwp_mono; [apply (lock_shut []), clean_nil, Hm|]. intros r m' [_ Hs].
  apply idle_stable; [done|by right].
Qed.

(** Where a method can lead: the active key is what it was, or the session is locked, or
    the successor is promoted. *)
Lemma method_spec `{!Ed25519Laws} x m :
  machine_ok m -> callback_ok x ->
  stable m (run_method x m).2 \/
  exists c, x = Finalize (Some c) /\ machine_ok (run_method x m).2 /\ promoted c m (run_method x m).2.
Proof.
  intros Hm Hcb.
  assert (forall m', idle [] m m' -> stable m m') as Hi by (intros; by apply idle_stable).
  assert (stable m m) as Hself by (apply Hi; left; apply kept_refl).
  destruct x; cbn [run_method];
    try (left; first [done | by apply lock_stable]);
    try (left; apply wwp_forget; eapply wwp_mono;
         [first [by apply check_inactivity_spec | by apply create_signer_spec | by apply export_spec | by apply public_key_spec
                | by apply pending_key_spec | by apply dispatch_intent_spec | by apply prepare_spec | by apply latch_spec]|
          intros [?|?] m' Hr; try done; apply Hi; first [done | by left; apply Hr]]);
    try (left; apply wwp_state; eapply wwp_mono;
         [first [by apply prove_spec | by apply resolve_spec | by apply cancel_spec | by apply update_payload_spec | by apply change_password_spec]|
          intros [?|?] m' Hr; try done; apply Hi; first [done | by left]]).
  - left. unfold forget, wbind. pose proof (last_activity_same m) as Hl. by destruct (last_activity m) as [[?|?] ?]; cbn in *; subst.
  - left. apply wwp_forget. apply bind_spec; [done|]. intros ask ->. exact Hcb.
  - assert (finalize_outcome confirmation m (finalize_signing_key_rotation confirmation m).1 (finalize_signing_key_rotation confirmation m).2) as [Hok Hr]
      by by apply finalize_spec.
    unfold forget, wbind. destruct (finalize_signing_key_rotation confirmation m) as [[k|e] m']; cbn in *.
    + right. destruct Hr as (c & -> & Hp & _). by exists c.
    + destruct Hr as [Hs|(c & -> & Hp)]; [by left|right; by exists c].
Qed.

(** ** Sessions are made well *)

Lemma locked_quiet m : machine_ok m -> wl_dek (m_self m) = None -> quiet [] m.
Proof.
  intros [Hs Hc] Hd. pose proof Hs as Hs'. unfold session_ok in Hs'. rewrite Hd in Hs'. destruct Hs' as (E1 & E2 & _ & _).
  split; [unfold secrets; by rewrite Hd, E1, E2|]. split; [done|]. split; [by apply clean_nil|constructor].
Qed.

Lemma opened_or_quiet_ok {A} (r : res A) m : opened_or_quiet [] r m -> machine_ok m.
Proof. destruct r; [apply opened_ok|apply quiet_ok]. Qed.

(** A factory that is not so refused makes a session or leaves nothing. *)
Lemma factory_spec f m :
  machine_ok m -> wl_dek (m_self m) = None -> refused f m = 0%nat -> machine_ok (run_factory f m).2.
Proof.
  intros Hm Hd Hopen. pose proof (locked_quiet m Hm Hd) as Hq. destruct f; cbn [run_factory] in *;
    try (apply wwp_state; eapply wwp_mono;
      [first [by apply create_spec | by apply create_generated_spec | by apply migrate_spec | by apply import_spec]|]; by apply @opened_or_quiet_ok).
  pose proof (open_spec path password inactivity_minutes m Hq) as Ho. unfold wwp, refused in *. cbn [run_factory] in *.
  destruct (open path password inactivity_minutes m) as [[[]|e] m']; cbn in *; [by apply opened_ok|].
  destruct Ho as [Ho|(-> & dek & Ho)]; [by apply quiet_ok|done].
Qed.
End Leftover.

(** An array to be wiped later is one that is lost if it never is. *)
Lemma quiet_lost (L : Lost) xs m : quiet (L := L) xs m -> quiet (L := xs ++ L) [] m.
Proof.
  intros (Hs & Hok & Hc & _). split; [done|]. split; [done|]. split; [|constructor]. intros a b Hb. unfold spent, lost in *.
  destruct (Hc a b Hb) as [|[Ha|[Hz|Hl]]]; [by left|..]; right; right; [right; by apply elem_of_app; left|by left|right; by apply elem_of_app; right].
Qed.

Lemma refused_spec (L : Lost) f m :
  machine_ok (L := L) m -> wl_dek (m_self m) = None -> refused f m = 1%nat ->
  exists L' : Lost, (length L' <= 1 + length L)%nat /\ machine_ok (L := L') (run_factory f m).2.
Proof.
  intros Hm Hd Hr. pose proof (locked_quiet m Hm Hd) as Hq. destruct f; unfold refused in Hr; try done. cbn [run_factory] in *.
  pose proof (open_spec path password inactivity_minutes m Hq) as Ho. unfold wwp in Ho.
  destruct (open path password inactivity_minutes m) as [[[]|e] m']; cbn in *; [done|].
  destruct Ho as [Ho|(_ & dek & Ho)]; [exists L; split; [lia|by apply quiet_ok]|].
  exists (dek :: L : Lost). split; [cbn; lia|]. by apply quiet_ok, (quiet_lost L [dek]).
Qed.

(** C24. Every session that can be reached, by creating, opening, migrating or importing a
    wallet and any sequence of its methods, failing calls included, satisfies the session
    invariant: it is locked with nothing left, or the seeds it holds match the public keys of
    its payload, the pending successor differs from the active key, a stored dispatch intent
    is for exactly this pair of keys, no seed is in the payload; and every byte array that held
    a secret and is not the session's own is zeroed, except at most one for each [open] that was
    refused with [InvalidContainer], whose data key is left behind. *)
Theorem reachable_sessions_ok `{!Ed25519Laws} n m :
  reachable n m -> exists L : Lost, (length L <= n)%nat /\ machine_ok (L := L) m.
Proof.
  induction 1 as [m Hl Hh|f n m _ (L & HL & IH) Hd|x n m _ (L & HL & IH) Hcb].
  - exists no_lost. split; [done|]. split; [by apply locked_session|]. intros a b. by rewrite Hh.
  - destruct (refused f m) as [|[|k]] eqn:Er.
    + exists L. split; [done|]. by apply factory_spec.
    + destruct (refused_spec L f m IH Hd Er) as (L' & HL' & Hok). exists L'. split; [lia|done].
    + exfalso. unfold refused in Er. by repeat case_match.
  - exists L. split; [done|]. destruct (method_spec x m IH (Hcb L)) as [[Hok _]|(c & _ & Hok & _)]; done.
Qed.

(** * The end of a session *)

(** The next reading of the monotonic clock. *)
Definition reading (m : machine) : Z := match m_clock m with [] => m_now m | t :: _ => Z.max (m_now m) t end.

(** The session has been left alone for its whole inactivity period. *)
Definition expired_at (now : Z) (m : machine) : Prop :=
  unlocked m /\ wl_inactivity_seconds (m_self m) * 1000 <= now - wl_last_activity (m_self m).

(** Calls that end a session: locking it, and, once it has expired, every call but the two
    that only read a field. *)
Definition ends_session (x : method) (m : machine) : Prop :=
  match x with
  | Lock | Background => True
  | IsUnlocked | LastActivity => False
  | CheckInactivity (Some t) => expired_at t m
  | _ => expired_at (reading m) m
  end.

(** Methods that start with [_touch]. *)
Definition touches (x : method) : bool :=
  match x with Lock | Background | IsUnlocked | LastActivity | CheckInactivity _ => false | _ => true end.

Definition dead (c : Signer.capability) : Prop := Signer.cap_active c = false /\ Signer.cap_handle c = None.

(** The fields are cleared, the byte arrays zeroed, the signers that were handed out dead. *)
Record erased (m m' : machine) : Prop := {
  er_self : m_self m' = locked (m_self m);
  er_heap : Forall zeroed (m_heap m');
  er_caps : forall id c, id ∈ wl_capabilities (m_self m) -> m_caps m' !! id = Some c -> dead c;
}.

Lemma invalidate_dead c : dead (Signer.invalidate c).
Proof.
  unfold Signer.invalidate, Signer._invalidate_unlocked. destruct (_ && _) eqn:E; [|done]. bool_hyps.
  by split; [destruct (Signer.cap_active c)|].
Qed.

Lemma invalidate_all (ids : list nat) (store : list Signer.capability) id c : id ∈ ids -> foldr (alter Signer.invalidate) store ids !! id = Some c -> dead c.
Proof.
  induction ids as [|i ids IH]; intros Hin; [by apply elem_of_nil in Hin|]. cbn. destruct (decide (i = id)) as [->|Hne].
  - rewrite list_lookup_alter_eq. intros (c0 & _ & ->)%fmap_Some. apply invalidate_dead.
  - rewrite list_lookup_alter_ne by done. apply IH. by apply elem_of_cons in Hin as [->|].
Qed.

Lemma lock_caps m : m_caps (lock m).2 = foldr (alter Signer.invalidate) (m_caps m) (wl_capabilities (m_self m)).
Proof. unfold lock, _lock, _wipe. destruct m as [[path [d|] [s|] [p|] ? ? ? ? ?] h]; done. Qed.

Lemma lock_erased m : machine_ok m -> erased m (lock m).2.
Proof.
  intros [_ Hc]. destruct (lock_wiped m) as (Hself & Hheap & _). split; [done| |].
  - apply Forall_lookup. intros a b. rewrite Hheap. intros [|[Hn Hb]]%wiped_lookup; [done|]. destruct (Hc a b Hb) as [Hs|Hz%spent_zeroed]; [|done].
    destruct Hn. unfold secrets in Hs. set_solver.
  - intros id c Hid. rewrite lock_caps. by apply invalidate_all.
Qed.

(** Reading the clock before. *)
Lemma tick_erased m m' : machine_ok m -> m_self m' = m_self m -> m_heap m' = m_heap m -> m_caps m' = m_caps m -> erased m (lock m').2.
Proof.
  intros Hm Es Eh Ec. assert (machine_ok m') as Hm' by (apply (kept_ok m); [split; by rewrite ?Es|done]).
  destruct (lock_erased m' Hm') as [E1 E2 E3]. split; [by rewrite E1, Es|done|]. by rewrite <-Es.
Qed.

Lemma monotonic_reads m :
  (monotonic m).1 = Ok (reading m) /\ m_self (monotonic m).2 = m_self m /\ m_heap (monotonic m).2 = m_heap m /\ m_caps (monotonic m).2 = m_caps m.
Proof. unfold monotonic, reading. by destruct (m_clock m). Qed.

(** An expired session is locked by looking at it. *)
Lemma expired_check now m :
  machine_ok m -> expired_at (default (reading m) now) m ->
  wwp (check_inactivity now) (fun r m' => r = Ok true /\ erased m m') m.
Proof.
  intros Hm [Hu Hx]. unfold check_inactivity, is_unlocked. apply wwp_bind, wwp_self. cbn beta iota. rewrite bool_decide_eq_true_2 by done. cbn [negb].
  assert (forall m', m_self m' = m_self m -> m_heap m' = m_heap m -> m_caps m' = m_caps m ->
    wwp (let& _ := lock in wret true) (fun r m'' => r = Ok true /\ erased m m'') m') as Hlock.
  { intros m' Es Eh Ec. apply wwp_bind. unfold wwp at 1. destruct (lock_wiped m') as (_ & _ & ->). split; [done|by apply tick_erased]. }
  apply wwp_bind. unfold wwp at 1. destruct now as [t|]; cbn in Hx.
  - do 2 apply wwp_bind, wwp_self. rewrite (proj2 (Z.leb_le _ _)) by done. by apply Hlock.
  - destruct (monotonic_reads m) as (-> & Es & Eh & Ec). do 2 apply wwp_bind, wwp_self. rewrite Es, (proj2 (Z.leb_le _ _)) by done. by apply Hlock.
Qed.

Lemma expired_touch {A} (k : W A) m :
  machine_ok m -> expired_at (reading m) m -> wwp (let& _ := _touch in k) (fun r m' => r = Err WalletLockedError /\ erased m m') m.
Proof.
  intros Hm Hx. unfold _touch, _require_unlocked, is_unlocked. do 3 apply wwp_bind. apply wwp_self. cbn beta iota.
  rewrite bool_decide_eq_true_2 by apply Hx. apply wwp_ret, wwp_bind. eapply wwp_mono; [by apply (expired_check None)|].
  intros r m' [-> He]. by apply wwp_fail.
Qed.

Lemma wwp_err (p : W unit) e (P : machine -> Prop) m :
  wwp p (fun r m' => r = Err e /\ P m') m -> P (p m).2 /\ (true = true -> (p m).1 = Err e).
Proof. unfold wwp. by intros [-> HP]. Qed.

Lemma forget_err {A} (p : W A) e (P : machine -> Prop) m :
  wwp p (fun r m' => r = Err e /\ P m') m -> P (forget p m).2 /\ (true = true -> (forget p m).1 = Err e).
Proof. unfold wwp, forget, wbind. destruct (p m) as [r m']. cbn. by intros [-> HP]. Qed.

(** C25. Ending a session erases it.  After [lock] or [background], after [check_inactivity]
    once the inactivity period is over, and after any other method called then, the session's
    fields are cleared, every byte array that held a data key or a seed is zeroed, and every
    signer capability the session handed out is inactive; a method that needs the session
    reports [WalletLockedError]. *)
Theorem ended_session_erased x m :
  machine_ok m -> ends_session x m -> erased m (run_method x m).2 /\ (touches x = true -> (run_method x m).1 = Err WalletLockedError).
Proof.
  intros Hm Hx. destruct x; cbn [ends_session] in Hx; try done; cbn [run_method touches];
    try (first [apply forget_err|apply wwp_err]; by apply expired_touch).
  - split; [|done]. apply wwp_forget. eapply wwp_mono; [apply (expired_check now); [done|by destruct now]|]. by intros r m' [_ He].
  - split; [by apply lock_erased|done].
  - split; [by apply lock_erased|done].
Qed.

(** C26. The active signing key changes only by a confirmed rotation.  Whatever method is
    called, with whatever arguments and whatever storage does: the invariant holds again, and
    a session that is still unlocked has the active seed and public key it had, unless the
    call was [finalize_signing_key_rotation] with a confirmation that matches the dispatch
    intent stored in the wallet, and that intent is latched; then the active seed is the one
    that was pending, its public key is the successor's of the intent, nothing is pending any
    more, the intent is gone, and the old seed is zeroed. *)
Theorem active_key_protected `{!Ed25519Laws} x m :
  machine_ok m -> callback_ok x ->
  machine_ok (run_method x m).2 /\
  ((unlocked (run_method x m).2 -> active (run_method x m).2 = active m) \/
   exists c, x = Finalize (Some c) /\ promoted c m (run_method x m).2).
Proof.
  intros Hm Hcb. destruct (method_spec x m Hm Hcb) as [[Hok Ha]|(c & -> & Hok & Hp)]; [by split; [|left]|]. split; [done|right; by exists c].
Qed.
End Steps.
