(* ===== verification/Vault.v ===== *)
(** Payload values as the container keeps them (what can be written is what can be read again,
    up to the order of a map's items), and a wallet's file with the session it belongs to: what
    the file holds under a password, and how replacing the payload or the password changes it. *)

From stdpp Require Import gmap.
From S2P Require Import Prelude PyVal Interfaces SignedUpdate Base64 Json JsonFacts Container ContainerFacts Storage StorageFacts WalletState.

Open Scope Z_scope.

(** * Values a program can hold *)

Definition text_keys (d : list (pyval * pyval)) : list pystr :=
  omap (fun kv => match kv.1 with PStr s => Some s | _ => None end) d.

(** Text is made of code points, and no two items of a dict have the same text as a key. *)
Fixpoint py_value (v : pyval) : bool :=
  match v with
  | PStr s => str_ok s
  | PList l => forallb py_value l
  | PDict d =>
      bool_decide (NoDup (text_keys d)) &&
      forallb (fun kv => match kv.1 with PStr s => str_ok s | _ => true end && py_value kv.2) d
  | _ => true
  end.

Lemma value_ok_py v : value_ok v = true -> py_value v = true.
Proof.
  induction v as [|b|z|b|s|l IH|l IH|d IH|i n] using pyval_ind'; cbn [value_ok py_value]; intros Hv; try done.
  - by apply scalar_str_ok.
  - rewrite forallb_forall in Hv |- *. intros x Hx. rewrite Forall_forall in IH. apply IH; [by apply list_elem_of_In|auto].
  - bool_hyps. rewrite forallb_forall in *. rewrite Forall_forall in IH.
    assert (forall kv, kv ∈ d -> exists s, kv.1 = PStr s /\ forallb is_scalar s = true /\ value_ok kv.2 = true) as Hd.
    { intros [k x] Hin. match goal with H : forall x, In x d -> _ |- _ => specialize (H _ (proj1 (list_elem_of_In _ _) Hin)) end.
      cbn in *. bool_hyps. destruct k; try done. eauto. }
    assert (text_keys d = key_str <$> d.*1) as ->.
    { clear -Hd. induction d as [|[k x] d IH]; [done|]. cbn. destruct (Hd (k, x)) as (s & Hk & _); [by left|]. cbn in Hk. subst k.
      cbn. f_equal. apply IH. intros kv Hin. apply Hd. by right. }
    rewrite bool_decide_eq_true_2 by done. cbn. apply forallb_forall. intros kv Hin%list_elem_of_In.
    destruct (Hd kv Hin) as (s & Hk & Hs & Hx). rewrite Hk, (scalar_str_ok s) by done. by apply (IH kv).
Qed.

(** * What is written can be read *)

Lemma utf8_encode_is_scalar s b : utf8_encode s = Some b -> forallb is_scalar s = true.
Proof.
  revert b. induction s as [|c s IH]; [done|]. cbn [utf8_encode forallb]. intros b Hb. unfold utf8_char in Hb.
  destruct (is_scalar c); [|done]. cbn [negb] in Hb. destruct (utf8_encode s); [by eapply IH|]. by repeat case_match.
Qed.

Lemma escape_is_scalar c : 0 <= c -> forallb is_scalar (escape_char c) = true -> is_scalar c = true.
Proof.
  intros H0. unfold escape_char. repeat match goal with |- context [if ?x =? ?y then _ else _] => destruct (Z.eqb_spec x y) as [->|]; [done|] end.
  destruct (Z.ltb_spec c 32); [|cbn; by rewrite andb_true_r]. intros _. unfold is_scalar, is_surrogate.
  destruct (Z.leb_spec 0 c), (Z.ltb_spec c 1114112), (Z.leb_spec 55296 c); try lia; done.
Qed.

Lemma quote_is_scalar s : str_ok s = true -> forallb is_scalar (quote s) = true -> forallb is_scalar s = true.
Proof.
  intros Hs. unfold quote. cbn [forallb]. rewrite forallb_app. intros [_ [Hq _]%andb_prop]%andb_prop. revert Hq.
  induction s as [|c s IH]; [done|]. cbn [str_ok forallb] in *. rewrite bind_cons, forallb_app. intros Hb. unfold str_ok in *. cbn [forallb] in Hs. bool_hyps.
  rewrite escape_is_scalar by (done || lia). by apply IH.
Qed.

Lemma join_is_scalar parts : forallb is_scalar (join parts) = true -> Forall (fun p => forallb is_scalar p = true) parts.
Proof.
  induction parts as [|p [|q r] IH]; [done|by repeat constructor|]. rewrite join_cons, forallb_app. cbn [forallb]. intros Hp. bool_hyps. auto.
Qed.

Section Written.
Context `{PyFloat}.

(** The text of a value, if it has one, can be encoded. *)
Definition writable (j : json) : Prop := exists t, json_dumps j = Some t /\ forallb is_scalar t = true.

Lemma writable_arr l : writable (JArr l) -> Forall writable l.
Proof.
  intros (t & Ht & Hs). cbn [json_dumps] in Ht. apply fmap_Some in Ht as (parts & Hparts & ->).
  apply sequence_some in Hparts. cbn [forallb] in Hs. bool_hyps. rewrite forallb_app in *. bool_hyps.
  match goal with Hj : forallb is_scalar (join parts) = true |- _ => apply join_is_scalar in Hj as Hall end.
  clear -Hparts Hall. revert l Hparts. induction Hall as [|p parts Hp Hall IH]; intros [|j l] Hl; try done.
  injection Hl as Hj Hl. constructor; [by exists p|auto].
Qed.

Lemma writable_typed kind j : writable (typed kind j) -> writable j.
Proof.
  intros (t & Ht & Hs). cbn [typed json_dumps] in Ht. rewrite !fmap_cons in Ht. cbn [fst snd json_dumps fmap option_fmap option_map sequence] in Ht.
  destruct (json_dumps j) as [tj|] eqn:Ej; [|done]. exists tj. split; [done|]. cbn in Ht. injection Ht as <-.
  cbn [forallb] in Hs. rewrite !forallb_app in Hs. cbn [forallb] in Hs. unfold member in Hs. cbn [fst snd] in Hs.
  rewrite !forallb_app in Hs. cbn [forallb] in Hs. by bool_hyps.
Qed.

Lemma writable_str s : str_ok s = true -> writable (JStr s) -> forallb is_scalar s = true.
Proof. intros Hs (t & [= <-] & Ht). by apply quote_is_scalar. Qed.

Lemma writable_int z : writable (JInt z) -> (length (decimal (Z.abs z)) <=? int_max_str_digits)%nat = true.
Proof.
  intros (t & Ht & _). cbn in Ht. unfold int_repr in Ht. destruct (Nat.ltb_spec int_max_str_digits (length (decimal (Z.abs z)))); [done|].
  by apply Nat.leb_le.
Qed.

Lemma Forall2_In_l {A B} (R : A -> B -> Prop) l m x : Forall2 R l m -> In x l -> exists y, y ∈ m /\ R x y.
Proof. induction 1 as [|a b l m Hab Hlm IH]; [done|]. intros [->|Hx]; [exists b; by split; [left|]|]. destruct (IH Hx) as (y & Hy & Hr). exists y. by split; [right|]. Qed.

(** Whatever is encoded and written is a storable value. *)
Lemma encode_writable v j : py_value v = true -> _encode_value v = Ok j -> writable j -> value_ok v = true.
Proof.
  revert j. induction v as [|b|z|b|s|l IH|l IH|d IH|i n] using pyval_ind'; cbn [py_value value_ok _encode_value]; intros j Hp He Hw; try done.
  - injection He as <-. by eapply writable_int, writable_typed.
  - injection He as <-. by eapply writable_str, writable_typed.
  - apply res_bind_ok in He as (js & Hjs & [= <-]). apply writable_typed, writable_arr in Hw. apply res_map_ok in Hjs.
    rewrite Forall_forall in IH. rewrite Forall_forall in Hw. rewrite forallb_forall in Hp |- *. intros x Hx.
    destruct (Forall2_In_l _ _ _ _ Hjs Hx) as (y & Hy & Hxy). apply (IH x) with y; [by apply list_elem_of_In|auto..].
  - apply res_bind_ok in He as (items & Hitems & [= <-]). apply writable_typed, writable_arr in Hw. apply res_map_ok in Hitems.
    apply andb_prop in Hp as [Hnd Hp]. apply bool_decide_eq_true in Hnd. rewrite forallb_forall in Hp. rewrite Forall_forall in IH. rewrite Forall_forall in Hw.
    assert (forall kv, In kv d -> exists s, kv.1 = PStr s /\ forallb is_scalar s = true /\ value_ok kv.2 = true) as Hd.
    { intros kv Hkv. destruct (Forall2_In_l _ _ _ _ Hitems Hkv) as ([k jx] & Hy & Hxy). unfold encode_item in Hxy.
      specialize (Hp kv Hkv). destruct (IH kv) as [_ IHx]; [by apply list_elem_of_In|]. destruct (kv.1) as [| | | |s| | | |]; try done.
      apply res_bind_ok in Hxy as (j' & Hj' & [= <- <-]). apply andb_prop in Hp as [Hs Hpx].
      assert (writable (pair_json (s, j'))) as Hpw. { apply Hw, list_elem_of_fmap. exists (s, j'). split; [done|]. by rewrite <-sort_by_perm. }
      apply writable_arr in Hpw. inversion_clear Hpw as [|? ? Hk Hr]. inversion_clear Hr as [|? ? Hj _].
      exists s. split; [done|]. split; [by apply writable_str|by eapply IHx]. }
    apply andb_true_intro. split.
    + apply bool_decide_eq_true. replace (key_str <$> d.*1) with (text_keys d); [done|]. clear -Hd. induction d as [|kv d IH]; [done|].
      destruct (Hd kv) as (s & Hk & _); [by left|]. cbn. rewrite Hk. cbn. f_equal. apply IH. intros kv' Hin. apply Hd. by right.
    + apply forallb_forall. intros kv Hkv. destruct (Hd kv Hkv) as (s & Hk & Hs & Hv). rewrite Hk, Hv. cbn. by rewrite Hs.
Qed.
End Written.

(** * The order of items *)

Lemma sort_by_map {A B} (keyA : A -> list Z) (keyB : B -> list Z) (f : A -> B) l :
  (forall x, keyB (f x) = keyA x) -> sort_by keyB (f <$> l) = f <$> sort_by keyA l.
Proof.
  intros Hk. assert (forall x l, insert_by keyB (f x) (f <$> l) = f <$> insert_by keyA x l) as Hi.
  { intros x l'. induction l' as [|y l' IH]; [done|]. cbn. rewrite !Hk. case_match; [done|]. cbn. by f_equal. }
  induction l as [|x l IH]; [done|]. rewrite fmap_cons. cbn. by rewrite IH, Hi.
Qed.

Definition sort_item (kv : pyval * pyval) : pyval * pyval := (kv.1, value_sort kv.2).
Definition item_key (kv : pyval * pyval) : pystr := key_str kv.1.

Lemma value_sort_dict d : value_sort (PDict d) = PDict (sort_by item_key (sort_item <$> d)).
Proof. done. Qed.

Lemma value_sort_idem v : value_sort (value_sort v) = value_sort v.
Proof.
  induction v as [|b|z|b|s|l IH|l IH|d IH|i n] using pyval_ind'; try done.
  - cbn [value_sort]. f_equal. rewrite <-list_fmap_compose. apply list_fmap_ext. intros i x Hx%list_elem_of_lookup_2. rewrite Forall_forall in IH. by apply IH.
  - rewrite !value_sort_dict. f_equal. rewrite (sort_by_map item_key) by done. rewrite (sort_by_id item_key (sort_by _ _)) by apply sort_by_sorted.
    rewrite <-(sort_by_map item_key item_key sort_item) by done. f_equal. rewrite <-list_fmap_compose. apply list_fmap_ext.
    intros i [k x] Hx%list_elem_of_lookup_2. rewrite Forall_forall in IH. unfold compose, sort_item. cbn. f_equal. by apply (IH (k, x)).
Qed.

Lemma forallb_perm {A} (f : A -> bool) l m : Permutation l m -> forallb f l = forallb f m.
Proof. induction 1 as [|x l m _ IH|x y l|l m n _ IH1 _ IH2]; cbn; [done|by rewrite IH|by destruct (f x), (f y)|congruence]. Qed.

Lemma value_ok_sort v : value_ok v = true -> value_ok (value_sort v) = true.
Proof.
  induction v as [|b|z|b|s|l IH|l IH|d IH|i n] using pyval_ind'; try done.
  - cbn [value_ok value_sort]. rewrite !forallb_forall. intros Hv x Hx. apply list_elem_of_In, list_elem_of_fmap in Hx as (y & -> & Hy).
    rewrite Forall_forall in IH. apply IH; [done|]. by apply Hv, list_elem_of_In.
  - rewrite value_sort_dict. cbn [value_ok]. intros [Hn Hv]%andb_prop. rewrite <-(forallb_perm _ _ _ (sort_by_perm item_key (sort_item <$> d))).
    apply bool_decide_eq_true in Hn. apply andb_true_intro. split.
    + apply bool_decide_eq_true. rewrite <-(sort_by_perm item_key). replace ((sort_item <$> d).*1) with (d.*1); [done|]. by rewrite <-list_fmap_compose.
    + rewrite forallb_forall in Hv |- *. intros x Hx. apply list_elem_of_In, list_elem_of_fmap in Hx as (kv & -> & Hkv). cbn.
      specialize (Hv kv (proj1 (list_elem_of_In _ _) Hkv)). bool_hyps. rewrite Forall_forall in IH. destruct (IH kv Hkv) as [_ IHx].
      rewrite IHx by done. match goal with H : is_key _ = true |- _ => by rewrite H end.
Qed.

Lemma text_keys_sort_item d : text_keys (sort_item <$> d) = text_keys d.
Proof. induction d as [|[k v] d IH]; [done|]. rewrite fmap_cons. destruct k; try exact IH. exact (f_equal (cons s) IH). Qed.

Lemma py_value_sort v : py_value v = true -> py_value (value_sort v) = true.
Proof.
  induction v as [|b|z|b|s|l IH|l IH|d IH|i n] using pyval_ind'; try done.
  - cbn [py_value value_sort]. rewrite !forallb_forall. intros Hv x Hx. apply list_elem_of_In, list_elem_of_fmap in Hx as (y & -> & Hy).
    rewrite Forall_forall in IH. apply IH; [done|]. by apply Hv, list_elem_of_In.
  - rewrite value_sort_dict. cbn [py_value]. intros [Hn Hv]%andb_prop. rewrite <-(forallb_perm _ _ _ (sort_by_perm item_key (sort_item <$> d))).
    apply bool_decide_eq_true in Hn. apply andb_true_intro. split.
    + apply bool_decide_eq_true. unfold text_keys. rewrite <-(sort_by_perm item_key). fold (text_keys (sort_item <$> d)). by rewrite text_keys_sort_item.
    + rewrite forallb_forall in Hv |- *. intros x Hx. apply list_elem_of_In, list_elem_of_fmap in Hx as (kv & -> & Hkv).
      specialize (Hv kv (proj1 (list_elem_of_In _ _) Hkv)). apply andb_prop in Hv as [Hk Hx]. rewrite Forall_forall in IH. destruct (IH kv Hkv) as [_ IHx].
      unfold sort_item. cbn [fst snd]. by rewrite Hk, IHx.
Qed.

(** * A payload and its items *)

Lemma text_keys_lookup d k : k ∉ text_keys d -> payload_of d !! k = None.
Proof.
  induction d as [|[kd v] d IH]; [done|]. cbn [payload_of text_keys omap list_omap fst].
  destruct kd; cbn; try apply IH. rewrite not_elem_of_cons. intros [Hne Hk]. rewrite lookup_insert_ne by done. by apply IH.
Qed.

Lemma payload_of_perm d d' : NoDup (text_keys d) -> Permutation d d' -> payload_of d = payload_of d'.
Proof.
  intros Hnd Hd. revert Hnd. induction Hd as [|[k v] d d' Hd IH|[k1 v1] [k2 v2] d|d1 d2 d3 H1 IH1 H2 IH2]; [done| | |].
  - cbn. destruct k; cbn; try done. rewrite NoDup_cons. intros [_ Hnd]. by rewrite IH.
  - cbn. destruct k1, k2; cbn; try done. rewrite !NoDup_cons, not_elem_of_cons. intros [[Hne _] _]. by apply insert_insert_ne.
  - intros Hnd. rewrite IH1 by done. apply IH2. unfold text_keys in *. by rewrite <-H1.
Qed.

Lemma payload_of_sort_item d : payload_of (sort_item <$> d) = value_sort <$> payload_of d.
Proof.
  induction d as [|[k v] d IH]; [cbn; by rewrite fmap_empty|]. rewrite fmap_cons. unfold sort_item at 1. cbn [payload_of fst snd].
  destruct k; try done. by rewrite fmap_insert, IH.
Qed.

(** The items of a map as they are read again. *)
Lemma payload_of_sorted d d' :
  NoDup (text_keys d) -> value_sort (PDict d) = PDict d' -> payload_of d' = value_sort <$> payload_of d.
Proof.
  intros Hnd. rewrite value_sort_dict. intros [= <-]. rewrite <-payload_of_sort_item. symmetry. apply payload_of_perm; [|apply sort_by_perm].
  by rewrite text_keys_sort_item.
Qed.

Lemma text_keys_payload p : text_keys ((fun kv : pystr * pyval => (PStr kv.1, kv.2)) <$> map_to_list p) = (map_to_list p).*1.
Proof. induction (map_to_list p) as [|kv l IH]; [done|]. cbn. by f_equal. Qed.

(** The items a payload is encoded from. *)
Definition items_of (p : gmap pystr pyval) : list (pyval * pyval) := (fun kv => (PStr kv.1, kv.2)) <$> map_to_list p.

Lemma payload_of_items p : payload_of (items_of p) = p.
Proof.
  unfold items_of. rewrite <-(list_to_map_to_list p) at 2. induction (map_to_list p) as [|[k v] l IH]; [done|]. cbn. by rewrite IH.
Qed.

Lemma text_keys_items p : NoDup (text_keys (items_of p)).
Proof. unfold items_of. rewrite text_keys_payload. apply NoDup_fst_map_to_list. Qed.

(** A payload whose values a program can hold. *)
Definition py_payload (p : gmap pystr pyval) : Prop := map_Forall (fun k v => str_ok k = true /\ py_value v = true) p.

Lemma py_payload_value p : py_payload p -> py_value (payload_value p) = true.
Proof.
  intros Hp. unfold payload_value. cbn [py_value]. fold (items_of p). rewrite bool_decide_eq_true_2 by apply text_keys_items. cbn.
  apply forallb_forall. intros x Hx. apply list_elem_of_In, list_elem_of_fmap in Hx as ([k v] & -> & Hkv). apply elem_of_map_to_list in Hkv.
  destruct (Hp k v Hkv) as [Hk Hv]. change (str_ok k && py_value v = true). by rewrite Hk, Hv.
Qed.

Lemma value_ok_payload d : value_ok (PDict d) = true -> NoDup (text_keys d) /\ py_payload (payload_of d).
Proof.
  intros Hv%value_ok_py. cbn [py_value] in Hv. apply andb_prop in Hv as [Hn Hv]. apply bool_decide_eq_true in Hn. split; [done|]. clear Hn.
  induction d as [|[k v] d IH]; [apply map_Forall_empty|]. cbn in Hv. bool_hyps. cbn [payload_of]. destruct k; try by apply IH.
  apply map_Forall_insert_2; [done|by apply IH].
Qed.

(** Objects with literal keys are plain and encodable when their values are. *)
Ltac plain_object := apply obj_text; [apply (bool_decide_unpack _); cbn; exact I|repeat constructor; try done].

Section Vault.
Context `{PyFloat} `{KdfLaws} `{AeadLaws}.

(** * Envelopes *)

(** The parts of an envelope that differ between wallets and writes. *)
Record parts := MkParts {
  pt_salt : bytes;
  pt_wrap_nonce : bytes;
  pt_wrap_ct : bytes;
  pt_wrap_tag : bytes;
  pt_nonce : bytes;
  pt_ct : bytes;
  pt_tag : bytes;
}.

(** A sealed box as it is built, or as it is read again. *)
Definition box_for (nonce ct tag : bytes) (box : json) : Prop :=
  box = sealed_json (_b64_encode nonce) ct tag \/ box = json_sort (sealed_json (_b64_encode nonce) ct tag).

Definition built_from (pt : parts) : json :=
  envelope_json (_kdf_header (pt_salt pt)) (sealed_json (_b64_encode (pt_wrap_nonce pt)) (pt_wrap_ct pt) (pt_wrap_tag pt))
    (sealed_json (_b64_encode (pt_nonce pt)) (pt_ct pt) (pt_tag pt)).

(** An envelope of these parts, as a session may hold it: put together from new and old
    boxes, or read from a file. *)
Definition envelope_for (pt : parts) (env : json) : Prop :=
  (exists kdf wrap payload, kdf_for (pt_salt pt) kdf /\ box_for (pt_wrap_nonce pt) (pt_wrap_ct pt) (pt_wrap_tag pt) wrap /\
     box_for (pt_nonce pt) (pt_ct pt) (pt_tag pt) payload /\ env = envelope_json kdf wrap payload) \/
  env = json_sort (built_from pt).

Lemma box_sorted nonce ct tag box : box_for nonce ct tag box -> json_sort box = json_sort (sealed_json (_b64_encode nonce) ct tag).
Proof. by intros [-> | ->]. Qed.

Lemma box_text nonce ct tag box : box_for nonce ct tag box -> json_plain box = true /\ json_scalar box = true.
Proof.
  intros [-> | ->]; [apply sealed_text|]. rewrite sealed_sorted. plain_object; apply str_text, b64_scalar.
Qed.

Lemma envelope_for_text pt env : envelope_for pt env -> json_plain env = true /\ json_scalar env = true.
Proof.
  assert (forall kdf wrap payload, (json_plain kdf = true /\ json_scalar kdf = true) -> (json_plain wrap = true /\ json_scalar wrap = true) ->
    (json_plain payload = true /\ json_scalar payload = true) ->
    json_plain (envelope_json kdf wrap payload) = true /\ json_scalar (envelope_json kdf wrap payload) = true /\
    json_plain (JObj [(py "format", JStr _FORMAT); (py "kdf", kdf); (py "payload", payload); (py "version", JInt CURRENT_FORMAT_VERSION); (py "wrap", wrap)]) = true /\
    json_scalar (JObj [(py "format", JStr _FORMAT); (py "kdf", kdf); (py "payload", payload); (py "version", JInt CURRENT_FORMAT_VERSION); (py "wrap", wrap)]) = true) as Htext.
  { intros kdf wrap payload Hk Hw Hp. apply and_assoc. split; (plain_object; intuition). }
  intros [(kdf & wrap & payload & Hk & Hw & Hp & ->)| ->].
  - destruct (Htext kdf wrap payload) as (? & ? & _); [by eapply kdf_text|by eapply box_text|by eapply box_text|done].
  - unfold built_from. rewrite envelope_sorted. destruct (Htext (json_sort (_kdf_header (pt_salt pt)))
      (json_sort (sealed_json (_b64_encode (pt_wrap_nonce pt)) (pt_wrap_ct pt) (pt_wrap_tag pt)))
      (json_sort (sealed_json (_b64_encode (pt_nonce pt)) (pt_ct pt) (pt_tag pt)))) as (_ & _ & ?); [|by eapply box_text; right..|done].
    eapply kdf_text. by right.
Qed.

Lemma envelope_for_sorted pt env : envelope_for pt env -> json_sort env = json_sort (built_from pt).
Proof.
  intros [(kdf & wrap & payload & Hk & Hw & Hp & ->)| ->].
  - unfold built_from. by rewrite !envelope_sorted, (kdf_sorted _ _ Hk), (box_sorted _ _ _ _ Hw), (box_sorted _ _ _ _ Hp).
  - unfold built_from. by rewrite envelope_sorted.
Qed.

(** The file of an envelope of these parts. *)
Definition written (pt : parts) (raw : bytes) : Prop :=
  exists t, utf8_decode raw = Some t /\ json_loads t = Ok (json_sort (built_from pt)).

Lemma envelope_serialized pt env raw : envelope_for pt env -> _serialize env = Ok raw -> written pt raw.
Proof.
  intros He Hr. destruct (envelope_for_text pt env He) as [Hp Hs]. destruct (canonical_json_reads env Hp Hs) as (b & t & Hb & Ht & Hl).
  unfold _serialize in Hr. rewrite Hb in Hr. injection Hr as <-. exists t. by rewrite <-(envelope_for_sorted pt env He).
Qed.

(** What the methods take from the envelope of a session. *)
Lemma envelope_items pt env :
  envelope_for pt env ->
  exists kdf wrap payload, item env (py "kdf") = Ok kdf /\ item env (py "wrap") = Ok wrap /\ item env (py "payload") = Ok payload /\
    kdf_for (pt_salt pt) kdf /\ box_for (pt_wrap_nonce pt) (pt_wrap_ct pt) (pt_wrap_tag pt) wrap /\ box_for (pt_nonce pt) (pt_ct pt) (pt_tag pt) payload.
Proof.
  intros [(kdf & wrap & payload & Hk & Hw & Hp & ->)| ->]; [by exists kdf, wrap, payload|].
  eexists _, _, _. unfold built_from. rewrite envelope_sorted. repeat (split; [reflexivity|]). split; [by right|]. split; by right.
Qed.

(** * What an envelope holds *)

(** The parts seal the items [d] and the data key [dek] under the password. *)
Record seals (password : pystr) (dek : bytes) (d : list (pyval * pyval)) (pt : parts) : Prop := {
  sl_salt : length (pt_salt pt) = 16%nat;
  sl_wrap_nonce : length (pt_wrap_nonce pt) = 24%nat;
  sl_nonce : length (pt_nonce pt) = 24%nat;
  sl_dek : length dek = 32%nat;
  sl_value : value_ok (PDict d) = true;
  sl_parts : sealed_parts password (pt_salt pt) dek (PDict d) (pt_wrap_nonce pt) (pt_nonce pt) (pt_wrap_ct pt) (pt_wrap_tag pt) (pt_ct pt) (pt_tag pt);
}.

Lemma written_opens password dek d pt raw :
  seals password dek d pt -> written pt raw -> Z.of_nat (length raw) <= _MAX_CONTAINER_BYTES ->
  exists d', _parse_container raw CURRENT_FORMAT_VERSION = Ok (json_sort (built_from pt)) /\
    _unlock_envelope (json_sort (built_from pt)) password CURRENT_FORMAT_VERSION = Ok (dek, d') /\ payload_of d' = value_sort <$> payload_of d.
Proof.
  intros [Hs Hwn Hn Hd Hv Hp] (t & Ht & Hl) Hsize. destruct (value_ok_payload d Hv) as [Hnd _].
  destruct (value_sort (PDict d)) as [| | | | | | |d'|] eqn:Ed; try by rewrite value_sort_dict in Ed.
  exists d'. pose proof Hp as [(? & ? & _ & _ & Htw & _) (? & ? & ? & ? & _ & Htp & _)]. split; [|split].
  - rewrite parse_container_unfold. destruct (Z.ltb_spec _MAX_CONTAINER_BYTES (Z.of_nat (length raw))); [lia|].
    rewrite Ht, Hl. cbn [res_bind]. unfold built_from. rewrite (check_container_sealed (pt_salt pt)) by (done || by left). done.
  - by eapply unlock_sealed.
  - by apply payload_of_sorted.
Qed.

(** Sealing a payload that is accepted. *)
Lemma make_payload_sealed dek v nonce box :
  py_value v = true -> length dek = 32%nat -> length nonce = 24%nat -> _make_payload dek v nonce CURRENT_FORMAT_VERSION = Ok box ->
  value_ok v = true /\ exists ct tag, box = sealed_json (_b64_encode nonce) ct tag /\
    exists aad j text b, _payload_aad (cipher_info (_b64_encode nonce)) CURRENT_FORMAT_VERSION = Ok aad /\
      length tag = 16%nat /\ aead_open dek nonce aad ct tag = Some b /\
      utf8_decode b = Some text /\ json_loads text = Ok j /\ _decode_value j = Ok (value_sort v).
Proof.
  intros Hv Hd Hn Hm. unfold _make_payload in Hm. apply res_bind_ok in Hm as (j & Hj & Hm). apply res_bind_ok in Hm as (b & Hb & Hm).
  assert (value_ok v = true) as Hok.
  { apply (encode_writable v j Hv Hj). unfold _canonical_json in Hb. destruct (json_dumps j) as [t|] eqn:Et; [|done].
    destruct (utf8_encode t) as [b'|] eqn:Eb; [|done]. exists t. split; [done|]. by eapply utf8_encode_is_scalar. }
  split; [done|]. rewrite b64_decode_encode in Hm by done. cbn [res_bind] in Hm. destruct (payload_aad_ok nonce) as [aad Haad]. rewrite Haad in Hm.
  destruct (encode_value_stores v Hok) as (j' & Hj' & Hjp & Hjs & Hjj & Hdec). rewrite Hj in Hj'. injection Hj' as <-.
  destruct (canonical_json_reads j Hjp Hjs) as (b' & text & Hb' & Htext & Hload). rewrite Hb in Hb'. injection Hb' as <-. rewrite Hjj in Hload.
  destruct (seal_ok dek nonce aad b Hd Hn) as (ct & tag & Hct & Htag & Hop). unfold _seal in Hm. rewrite Hct in Hm. injection Hm as <-.
  exists ct, tag. split; [done|]. by exists aad, j, text, b.
Qed.

(** * The file of a session *)

(** The file at [path] holds the payload [p] and the data key [dek] under the password, now
    and after a crash, in an envelope the session has as [env]. *)
Definition vault (password path : pystr) (dek : bytes) (p : gmap pystr pyval) (env : json) (s : fs) : Prop :=
  exists pt d, seals password dek d pt /\ value_sort <$> payload_of d = value_sort <$> p /\ envelope_for pt env /\
  exists raw, written pt raw /\ settled path (Some raw) s.
End Vault.
