(* ===== verification/WalletDurable.v ===== *)
(** The file of an unlocked session holds what the session holds: every method that returns
    or fails keeps the two in step, unless it locks the session. *)

From stdpp Require Import gmap.
From S2P Require Import Prelude PyVal Sha256 Interfaces SignedUpdate Draft Consent Rotation Adapter Dispatch Signer Base64 Json JsonFacts Container ContainerFacts Storage StorageFacts WalletState Wallet WalletRotation WalletFacts WalletRotationFacts WalletOpenFacts WalletClaims Vault.

Open Scope Z_scope.

(** * Steps that do not touch files *)

Definition files (m : machine) : fs := w_fs (m_world m).

Definition still {A} (p : W A) : Prop := forall m, files (p m).2 = files m.

Lemma still_ret {A} (a : A) : still (wret a).
Proof. done. Qed.

Lemma still_fail {A} e : still (A:=A) (wfail e).
Proof. done. Qed.

Lemma still_get {A} (f : machine -> A) : still (wget f).
Proof. done. Qed.

Lemma still_self {A} (f : wallet -> A) : still (self f).
Proof. done. Qed.

Lemma still_lift {A} (r : res A) : still (wlift r).
Proof. done. Qed.

Lemma still_set f : (forall m, files (f m) = files m) -> still (wset f).
Proof. intros Hf m. apply Hf. Qed.

Lemma still_bind {A B} (p : W A) (k : A -> W B) : still p -> (forall a, still (k a)) -> still (wbind p k).
Proof. intros Hp Hk m. specialize (Hp m). unfold wbind. destruct (p m) as [[a|e] m']; cbn in *; [by rewrite Hk|done]. Qed.

Lemma still_attempt {A} (p : W A) : still p -> still (wattempt p).
Proof. intros Hp m. apply Hp. Qed.

Lemma still_monotonic : still monotonic.
Proof. intros m. unfold monotonic. by destruct (m_clock m). Qed.

Lemma still_token_bytes n : still (token_bytes n).
Proof. intros m. unfold token_bytes. by destruct (m_random m). Qed.

Lemma still_new_bytearray b : still (new_bytearray b).
Proof. done. Qed.

Lemma still_wipe o : still (_wipe o).
Proof. by destruct o. Qed.

(** Programs made of such steps. *)
Create HintDb still.
#[export] Hint Resolve still_ret still_fail still_get still_self still_lift still_monotonic still_token_bytes still_new_bytearray still_wipe : still.

Ltac still_step :=
  match goal with
  | |- still (wbind _ _) => apply still_bind; [|intros]
  | |- still (wattempt _) => apply still_attempt
  | |- still (wset _) => apply still_set; done
  | |- still (match _ with _ => _ end) => case_match
  | |- still _ => solve [auto with still]
  end.
Ltac still := repeat still_step.

Lemma still_lock : still lock.
Proof. unfold lock, _lock, _invalidate_capabilities. still. Qed.
#[export] Hint Resolve still_lock : still.

Lemma still_check_inactivity now : still (check_inactivity now).
Proof. unfold check_inactivity, is_unlocked. still. Qed.
#[export] Hint Resolve still_check_inactivity : still.

Lemma still_touch : still _touch.
Proof. unfold _touch, _require_unlocked, is_unlocked. still. Qed.
#[export] Hint Resolve still_touch : still.

Lemma wwp_still {A} (p : W A) (Q : res A -> machine -> Prop) m :
  still p -> wwp p Q m -> wwp p (fun r m' => Q r m' /\ files m' = files m) m.
Proof. intros Hs HQ. split; [done|apply Hs]. Qed.

(** * A session and its file *)

(** The payload that is stored for a session with these seeds. *)
Definition with_seeds (p : gmap pystr pyval) (seed pending : option bytes) : gmap pystr pyval :=
  let p := match seed with Some s => <[f_private_seed := PBytes s]> p | None => p end in
  match pending with Some t => <[_PENDING_PRIVATE_SEED := PBytes t]> p | None => p end.

(** A path that is not one of the wallet's temporary names. *)
Definition path_ok (path : pystr) : Prop := ~ temp_prefix `prefix_of` path /\ valid_name path = true.

Lemma in_heap_unique h o v v' : in_heap h o v -> in_heap h o v' -> v' = v.
Proof. destruct o, v, v'; cbn; try done; congruence. Qed.

Section Durable.
Context `{PyFloat} `{KdfLaws} `{AeadLaws} `{Ed25519} `{Cbor}.

(** The file of an unlocked session holds its data key, payload and seeds under the
    password. *)
Definition durable (password : pystr) (m : machine) : Prop :=
  forall d, wl_dek (m_self m) = Some d ->
  exists dek seed pending, m_heap m !! d = Some dek /\ in_heap (m_heap m) (wl_secret (m_self m)) seed /\
    in_heap (m_heap m) (wl_pending (m_self m)) pending /\ py_payload (wl_payload (m_self m)) /\ path_ok (wl_path (m_self m)) /\
    vault password (wl_path (m_self m)) dek (with_seeds (wl_payload (m_self m)) seed pending) (wl_envelope (m_self m)) (files m).

Lemma durable_locked password m : wl_dek (m_self m) = None -> durable password m.
Proof. intros E d. by rewrite E. Qed.

Lemma durable_kept password m m' : kept m m' -> files m' = files m -> durable password m -> durable password m'.
Proof.
  intros [Hc Hh] Hf Hd d. unfold core in Hc. injection Hc as -> -> -> -> -> ->. rewrite Hh, Hf. apply Hd.
Qed.

Lemma durable_idle password m m' : idle [] m m' -> files m' = files m -> durable password m -> durable password m'.
Proof. intros [Hk|[E _]] Hf Hd; [by eapply durable_kept|]. apply durable_locked. by rewrite E. Qed.

(** ** Writing an envelope *)

Lemma persist_durable pt env old m :
  path_ok (wl_path (m_self m)) -> settled (wl_path (m_self m)) (Some old) (files m) -> envelope_for pt env ->
  wwp (_persist_envelope env) (fun r m' => match r with
    | Ok _ => kept m m' /\ exists raw, written pt raw /\ settled (wl_path (m_self m)) (Some raw) (files m')
    | Err _ => wl_dek (m_self m') = None \/ (kept m m' /\ settled (wl_path (m_self m)) (Some old) (files m')) end) m.
Proof.
  intros [Hp Hv] Hold Henv. unfold _persist_envelope. apply wwp_bind, wwp_self. cbn beta iota. set (path := wl_path (m_self m)) in *.
  apply wwp_bind, wwp_attempt.
  apply (wwp_mono _ (fun r m' => kept m m' /\ match r with
    | Ok _ => exists raw, written pt raw /\ settled path (Some raw) (files m')
    | Err e => e = StorageOutcomeUnknown \/ settled path (Some old) (files m') end)).
  - apply wwp_bind, wwp_lift. destruct (_serialize env) as [raw|e] eqn:Er; [|by split; [|right]].
    pose proof (wp_atomic_write path (Some old) raw true (files m) Hp Hv Hold (m_world m) eq_refl) as [Hw _].
    unfold wwp, wio, files in *. destruct (_atomic_write path raw true (m_world m)) as [[[]|e] w]; cbn [fst snd] in Hw |- *; (split; [by split|]).
    + exists raw. split; [by eapply envelope_serialized|]. apply Hw.
    + destruct e; try done; first [by left|by right; apply Hw|right; by destruct Hw as [|[]]].
  - intros [[]|e] m' [Hk Hr]; [by apply wwp_ret|]. destruct e; try (apply wwp_fail; right; split; [done|]; by destruct Hr as [Hr|Hr]; [discriminate Hr|]).
    apply wwp_bind. apply (wwp_mono _ (fun r m2 => r = Ok tt /\ wl_dek (m_self m2) = None)).
    { unfold wwp. destruct (lock_wiped m') as (-> & _ & ->). done. }
    intros r m2 [-> Hn]. apply wwp_fail. by left.
Qed.

(** ** Replacing the payload *)

(** The payload that [_build_envelope] seals. *)
Definition stores_as (m : machine) (payload : gmap pystr pyval) (po ao : option nat) (include : bool) (q : gmap pystr pyval) : Prop :=
  forall p1 p, (store_active payload ao m).1 = Ok p1 -> (store_pending p1 po include m).1 = Ok p -> p = q.

Lemma build_durable password m payload po ao include q d dek p0 :
  wl_dek (m_self m) = Some d -> m_heap m !! d = Some dek -> stores_as m payload po ao include q -> py_payload q ->
  vault password (wl_path (m_self m)) dek p0 (wl_envelope (m_self m)) (files m) ->
  wwp (_build_envelope payload po ao include) (fun r m' => (kept m m' /\ files m' = files m) /\ match r with
    | Ok env => exists pt, seals password dek (items_of q) pt /\ envelope_for pt env | Err _ => True end) m.
Proof.
  intros Hd Hdek Hst Hq (pt0 & d0 & [Hs Hwn _ Hl Hv [Hwrap _]] & _ & Henv & _).
  destruct (envelope_items _ _ Henv) as (kdf & wrap & box & Ek & Ew & _ & Hkdf & Hbw & _).
  assert (kept m m /\ files m = files m) as Hm by (split; [apply kept_refl|done]).
  unfold _build_envelope, _require_unlocked, is_unlocked. apply wwp_bind, wwp_bind, wwp_self. cbn beta iota. rewrite Hd. rewrite bool_decide_eq_true_2 by done. apply wwp_ret, wwp_bind, wwp_self, wwp_bind, wwp_lift. rewrite Ek. cbn [res_bind].
  rewrite (kdf_salt _ _ Hkdf). cbn [res_bind]. rewrite b64_decode_encode by done. apply wwp_bind, wwp_lift. rewrite Ew. apply wwp_bind, wwp_self. rewrite Hd.
  apply wwp_bind. unfold wwp at 1. pose proof (store_active_spec payload ao m) as Ha. unfold wwp in Ha. rewrite Ha.
  destruct (store_active payload ao m).1 as [p1|e] eqn:E1; [|done].
  apply wwp_bind. unfold wwp at 1. pose proof (store_pending_spec p1 po include m) as Hb. unfold wwp in Hb. rewrite Hb.
  destruct (store_pending p1 po include m).1 as [p|e] eqn:E2; [|done]. specialize (Hst p1 p E1 E2). subst p.
  apply wwp_bind, wwp_get. rewrite Hdek. change (default [] (Some dek)) with dek. apply wwp_bind.
  eapply wwp_mono; [eapply wwp_still; [apply still_token_bytes|apply token_bytes_kept]|]. intros r m1 [[(nonce & -> & Hn) Hk] Hf].
  apply wwp_bind, wwp_lift. destruct (_make_payload dek (payload_value q) nonce CURRENT_FORMAT_VERSION) as [sealed|e] eqn:Em; [|done].
  apply wwp_ret. split; [done|]. destruct (make_payload_sealed _ _ _ _ (py_payload_value q Hq) Hl Hn Em) as (Hok & ct & tag & -> & Hparts).
  exists (MkParts (pt_salt pt0) (pt_wrap_nonce pt0) (pt_wrap_ct pt0) (pt_wrap_tag pt0) nonce ct tag). split.
  - by split.
  - left. eexists _, _, _. split; [by left|]. split; [exact Hbw|]. split; [by left|done].
Qed.

(** Whatever replaces the payload leaves the new one in the file, or the old one, or a
    locked session. *)
Definition replaced (password : pystr) (m : machine) (dek : bytes) (p0 q : gmap pystr pyval) (r : res json) (m' : machine) : Prop :=
  match r with
  | Ok env => kept m m' /\ vault password (wl_path (m_self m)) dek q env (files m')
  | Err _ => wl_dek (m_self m') = None \/
      (kept m m' /\ vault password (wl_path (m_self m)) dek p0 (wl_envelope (m_self m)) (files m'))
  end.

Lemma persist_replaced password m dek p0 q env pt :
  path_ok (wl_path (m_self m)) -> vault password (wl_path (m_self m)) dek p0 (wl_envelope (m_self m)) (files m) ->
  seals password dek (items_of q) pt -> envelope_for pt env ->
  wwp (_persist_envelope env) (fun r m' => replaced password m dek p0 q (let* _ := r in Ok env) m') m.
Proof.
  intros Hp (pt0 & d0 & Hs0 & Hc0 & He0 & raw & Hw & Hraw) Hs He. eapply wwp_mono; [by apply (persist_durable pt env raw)|].
  intros [[]|e] m' Hr; cbn [res_bind replaced].
  - destruct Hr as (Hk & raw' & Hw' & Hraw'). split; [done|]. exists pt, (items_of q). rewrite payload_of_items. repeat (split; [done|]). by exists raw'.
  - destruct Hr as [Hn|[Hk Hold]]; [by left|]. right. split; [done|]. exists pt0, d0. repeat (split; [done|]). by exists raw.
Qed.

Lemma replace_durable password m payload po ao include q d dek p0 :
  wl_dek (m_self m) = Some d -> m_heap m !! d = Some dek -> stores_as m payload po ao include q -> py_payload q -> path_ok (wl_path (m_self m)) ->
  vault password (wl_path (m_self m)) dek p0 (wl_envelope (m_self m)) (files m) ->
  wwp (replace_content payload po ao include) (replaced password m dek p0 q) m.
Proof.
  intros Hd Hdek Hst Hq Hp Hv. unfold replace_content. apply wwp_bind.
  eapply wwp_mono; [by eapply build_durable|]. intros [env|e] m1 [[Hk Hf] Hr].
  2: { right. split; [done|]. by rewrite Hf. }
  destruct Hr as (pt & Hs & He). apply wwp_bind. pose proof Hk as [[= Epath _ _ _ _ Eenv] _].
  eapply wwp_mono; [apply (persist_replaced password m1 dek p0 q env pt); rewrite ?Epath, ?Eenv, ?Hf; done|].
  intros [[]|e] m2 Hr; cbn [res_bind replaced] in Hr; rewrite Epath, ?Eenv in Hr.
  - apply wwp_ret. destruct Hr as [Hk2 Hv2]. split; [by eapply kept_trans|done].
  - destruct Hr as [|[Hk2 Hv2]]; [by left|]. right. split; [by eapply kept_trans|done].
Qed.

(** The stored payload is that of the new session. *)
Lemma store_spec m payload po ao (include : bool) seed pending :
  in_heap (m_heap m) (match ao with Some a => Some a | None => wl_secret (m_self m) end) seed ->
  in_heap (m_heap m) (if include then match po with Some a => Some a | None => wl_pending (m_self m) end else None) pending ->
  keys_ok payload seed pending ->
  (ao = None -> is_Some seed -> wl_payload (m_self m) !! f_public_key = payload !! f_public_key) ->
  (include = false -> payload !! _PENDING_PUBLIC_KEY = None) ->
  stores_as m payload po ao include (with_seeds payload seed pending).
Proof.
  intros Hs Hp (Hno & Hno' & Hk) Hpk Hdrop p1 p E1 E2.
  assert (p1 = with_seeds payload seed None) as ->.
  { unfold store_active, wbind, self, wget, wret in E1. cbn in E1. destruct ao as [a|]; cbn in E1.
    - destruct seed as [s|]; [|done]. cbn in Hs. rewrite Hs in E1. by injection E1 as <-.
    - destruct (wl_secret (m_self m)) as [a|], seed as [s|]; try done; [|by injection E1 as <-]. cbn in Hs, E1. rewrite Hs in E1.
      rewrite Hpk in E1 by done. destruct Hk as (k & _ & _ & _ & Hlook & _). rewrite Hlook in E1. cbn in E1. injection E1 as <-. cbn.
      apply insert_id. by rewrite lookup_insert_ne. }
  unfold store_pending, wbind, self, wget, wret in E2. destruct include; cbn in E2.
  - destruct (match po with Some a => Some a | None => wl_pending (m_self m) end) as [a|], pending as [t|]; try done; [|by injection E2 as <-].
    cbn in Hp. destruct seed as [s|]; [|by destruct Hk]. destruct Hk as (k & _ & _ & _ & _ & k' & _ & _ & Hlk & Hlook & _). unfold with_seeds in E2.
    rewrite lookup_insert_ne, Hlook in E2 by done. rewrite Hlk, Nat.eqb_refl in E2. cbn in E2. rewrite Hp in E2. injection E2 as <-. cbn.
    apply insert_id. look_fields. done.
  - destruct pending; [done|]. injection E2 as <-. unfold with_seeds. destruct seed as [s|].
    + rewrite !delete_insert_ne by done. f_equal. rewrite delete_id; [by apply delete_id|]. rewrite lookup_delete_ne by done. by apply Hdrop.
    + rewrite delete_id; [by apply delete_id|]. rewrite lookup_delete_ne by done. by apply Hdrop.
Qed.

Lemma py_with_seeds p seed pending : py_payload p -> py_payload (with_seeds p seed pending).
Proof.
  intros Hp. unfold with_seeds. destruct pending, seed; repeat apply map_Forall_insert_2; done.
Qed.

Lemma replaced_failed password m d dek seed pending q e m' :
  wl_dek (m_self m) = Some d -> m_heap m !! d = Some dek -> in_heap (m_heap m) (wl_secret (m_self m)) seed ->
  in_heap (m_heap m) (wl_pending (m_self m)) pending -> py_payload (wl_payload (m_self m)) -> path_ok (wl_path (m_self m)) ->
  replaced password m dek (with_seeds (wl_payload (m_self m)) seed pending) q (Err e) m' -> durable password m'.
Proof.
  intros Hd Hdek Hs Hp Hpy Hpath [Hn|[[Hc Hh] Hv]]; [by apply durable_locked|]. unfold core in Hc. injection Hc as Ep Ed Es Epd Epl Ee.
  intros d' Hd'. rewrite Ed, Hd in Hd'. injection Hd' as <-. exists dek, seed, pending. by rewrite Ep, Es, Epd, Epl, Ee, Hh.
Qed.

(** A new payload, with the seeds the session has from now on. *)
Lemma durable_new password m d dek seed pending :
  wl_dek (m_self m) = Some d -> m_heap m !! d = Some dek -> in_heap (m_heap m) (wl_secret (m_self m)) seed ->
  in_heap (m_heap m) (wl_pending (m_self m)) pending -> py_payload (wl_payload (m_self m)) -> path_ok (wl_path (m_self m)) ->
  vault password (wl_path (m_self m)) dek (with_seeds (wl_payload (m_self m)) seed pending) (wl_envelope (m_self m)) (files m) ->
  durable password m.
Proof. intros Hd Hdek Hs Hp Hpy Hpath Hv d' Hd'. exists dek, seed, pending. naive_solver. Qed.

(** ** Methods, step by step *)

Section Methods.
Context (password : pystr).

Abbreviation keeps p := (wwp p (fun _ m' => durable password m')).

Lemma step_keeps {A B} (p : W A) (k : A -> W B) (R : A -> Prop) m :
  still p -> machine_ok m -> durable password m ->
  wwp p (fun r m' => match r with Ok a => kept m m' /\ R a | Err _ => idle [] m m' end) m ->
  (forall a m', kept m m' -> R a -> machine_ok m' -> durable password m' -> keeps (k a) m') -> keeps (let& x := p in k x) m.
Proof.
  intros Hs Hm Hd Hp Hk. apply wwp_bind. eapply wwp_mono; [apply (wwp_still _ _ _ Hs Hp)|]. intros [a|e] m' [Hr Hf].
  - destruct Hr as [Hkm HR]. apply Hk; [done|done|by eapply kept_ok|by eapply durable_kept].
  - by eapply durable_idle.
Qed.

Lemma touch_keeps {B} (k : W B) m :
  machine_ok m -> durable password m ->
  (forall m', kept m m' -> unlocked m' -> machine_ok m' -> durable password m' -> keeps k m') -> keeps (let& _ := _touch in k) m.
Proof.
  intros Hm Hd Hk. apply wwp_bind. eapply wwp_mono; [eapply wwp_still; [apply still_touch|apply (touch_spec []), clean_nil, Hm]|].
  intros [[]|e] m' [Hr Hf].
  - destruct Hr as [Hkm Hu]. apply Hk; [done|done|by eapply kept_ok|by eapply durable_kept].
  - destruct Hr as [_ Hi]. by eapply durable_idle.
Qed.

(** What an unlocked session and its file hold, taken apart. *)
Lemma durable_session m :
  machine_ok m -> unlocked m -> durable password m ->
  exists d dek seed pending, wl_dek (m_self m) = Some d /\ m_heap m !! d = Some dek /\ in_heap (m_heap m) (wl_secret (m_self m)) seed /\
    in_heap (m_heap m) (wl_pending (m_self m)) pending /\ py_payload (wl_payload (m_self m)) /\ path_ok (wl_path (m_self m)) /\
    vault password (wl_path (m_self m)) dek (with_seeds (wl_payload (m_self m)) seed pending) (wl_envelope (m_self m)) (files m) /\
    keys_ok (wl_payload (m_self m)) seed pending.
Proof.
  intros Hm Hu Hd. destruct (unlocked_session m Hm Hu) as (d & seed & pending & Ed & _ & _ & Hs & Hp & Hk).
  destruct (Hd d Ed) as (dek & seed' & pending' & Hdek & Hs' & Hp' & Hpy & Hpath & Hv).
  rewrite (in_heap_unique _ _ _ _ Hs Hs'), (in_heap_unique _ _ _ _ Hp Hp') in Hv. by exists d, dek, seed, pending.
Qed.

(** Replacing the payload without changing the seeds. *)
Lemma replace_keeps payload m :
  machine_ok m -> unlocked m -> durable password m -> py_payload payload ->
  (forall seed pending, in_heap (m_heap m) (wl_secret (m_self m)) seed -> in_heap (m_heap m) (wl_pending (m_self m)) pending ->
     keys_ok (wl_payload (m_self m)) seed pending -> keys_ok payload seed pending /\
     (is_Some seed -> wl_payload (m_self m) !! f_public_key = payload !! f_public_key)) ->
  wwp (replace_content payload None None true) (fun r m' => match r with
    | Ok env => kept m m' /\ durable password (set_self (with_content payload env) m')
    | Err _ => durable password m' end) m.
Proof.
  intros Hm Hu Hd Hpy Hkeys. destruct (durable_session m Hm Hu Hd) as (d & dek & seed & pending & Ed & Hdek & Hs & Hp & Hpy0 & Hpath & Hv & Hk0).
  destruct (Hkeys seed pending Hs Hp Hk0) as [Hk1 Hpk].
  eapply wwp_mono; [eapply (replace_durable password m payload None None true (with_seeds payload seed pending)); try done|].
  - by apply store_spec.
  - by apply py_with_seeds.
  - intros [env|e] m' Hr; [|by eapply replaced_failed]. destruct Hr as [Hkm Hv']. split; [done|].
    pose proof Hkm as [[= Ep Ed' Es Epd Epl Ee] Eh]. eapply durable_new; cbn; rewrite ?Ed', ?Es, ?Epd, ?Ep, ?Eh; try done.
Qed.
End Methods.
End Durable.
