(* ===== verification/Durability.v ===== *)
(** Methods of a wallet and its file: whatever a method does, the file of a session that is
    still unlocked holds what the session holds, under its password; opening it again gives
    that session back. *)

From stdpp Require Import gmap.
From S2P Require Import Prelude PyVal Sha256 Interfaces SignedUpdate Draft Consent Rotation Adapter Dispatch Signer Base64 Json JsonFacts Container ContainerFacts Storage StorageFacts WalletState Wallet WalletRotation WalletFacts WalletRotationFacts WalletOpenFacts WalletClaims Vault WalletDurable.

Open Scope Z_scope.

Section Methods.
Context `{PyFloat} `{KdfLaws} `{AeadLaws} `{!Ed25519} `{!Ed25519Laws} `{Cbor}.

(** * Methods that only look *)

Lemma still_public_key_for_secret o v : still (_public_key_for_secret o v).
Proof. unfold _public_key_for_secret, bytes_of. still. Qed.
#[local] Hint Resolve still_public_key_for_secret : still.

Lemma still_not_latched : still _ensure_rotation_dispatch_not_latched.
Proof. unfold _ensure_rotation_dispatch_not_latched. still. Qed.
#[local] Hint Resolve still_not_latched : still.

Lemma still_public_key : still public_key.
Proof. unfold public_key. still. Qed.

Lemma still_pending_key : still pending_signing_public_key.
Proof. unfold pending_signing_public_key. still. Qed.

Lemma still_dispatch_intent : still signing_key_rotation_dispatch_intent.
Proof. unfold signing_key_rotation_dispatch_intent. still. Qed.

Lemma still_create_signer timeout : still (create_signer timeout).
Proof. unfold create_signer, bytes_of. still. Qed.

Lemma still_prove draft : still (prove_pending_signing_key_rotation draft).
Proof. unfold prove_pending_signing_key_rotation, bytes_of. still. Qed.

Lemma syscall_files {A} (f : fs -> res (A * fs)) w : (forall s a s', f s = Ok (a, s') -> s' = s) -> w_fs (syscall f w).2 = w_fs w.
Proof.
  intros Hf. unfold syscall. destruct (f (w_fs w)) as [[a s']|e] eqn:Ef; [apply Hf in Ef as ->|]; by destruct (w_faults w) as [|[] ?].
Qed.

Lemma read_files path w : w_fs (_read path w).2 = w_fs w.
Proof.
  assert (w_fs (read_bytes path w).2 = w_fs w) as Hr.
  { apply syscall_files. intros s a s'. destruct (valid_name path); [|done]. intros (i & _ & Hi)%res_bind_ok. by apply res_bind_ok in Hi as (b & _ & [= _ <-]). }
  unfold _read, io_bind, attempt. destruct (read_bytes path w) as [[b|e] w']; [done|]. cbn in *. by destruct (is_OSError e).
Qed.

Lemma still_export : still export_container.
Proof. unfold export_container. still. intros m. unfold wio, files. cbn. apply read_files. Qed.

Section Keeps.
Context (password : pystr).

Abbreviation keeps p := (wwp p (fun _ m' => durable password m')).

(** A method that leaves files alone and its session as it was, or locked. *)
Lemma idle_keeps {A} (p : W A) m : still p -> durable password m -> wwp p (fun _ m' => idle [] m m') m -> keeps p m.
Proof. intros Hs Hd Hp. eapply wwp_mono; [apply (wwp_still _ _ _ Hs Hp)|]. intros r m' [Hi Hf]. by eapply durable_idle. Qed.

(** Steps after the file is written that change neither it nor the session. *)
Lemma kept_keeps {A} (p : W A) m : still p -> durable password m -> wwp p (fun _ m' => kept m m') m -> keeps p m.
Proof. intros Hs Hd Hp. apply idle_keeps; [done|done|]. eapply wwp_mono; [exact Hp|]. intros r m' Hk. by left. Qed.

Lemma still_invalidate : still _invalidate_capabilities.
Proof. unfold _invalidate_capabilities. still. Qed.
#[local] Hint Resolve still_invalidate : still.

Lemma still_stored_intent : still stored_intent.
Proof. unfold stored_intent. still. Qed.

Lemma still_check_keys i : still (check_rotation_keys i).
Proof. unfold check_rotation_keys. still. Qed.

Lemma still_is_latched b i : still (_is_latched b i).
Proof. unfold _is_latched. still. Qed.

Lemma still_clear_latch b i : still (_clear_latch b i).
Proof. unfold _clear_latch. still. Qed.

Lemma still_mark_latched p i : still (_mark_latched p i).
Proof. unfold _mark_latched. still. Qed.

Lemma still_claim r : still (_claim r).
Proof. unfold _claim. still. Qed.

(** A step that returns a value and leaves the machine alone. *)
Lemma look_keeps {A B} (p : W A) (k : A -> W B) (R : res A -> Prop) m :
  durable password m -> wwp p (fun r m' => m' = m /\ R r) m -> (forall a, R (Ok a) -> keeps (k a) m) -> keeps (let& x := p in k x) m.
Proof. intros Hd Hp Hk. apply wwp_bind. eapply wwp_mono; [exact Hp|]. intros [a|e] m' [-> HR]; [by apply Hk|exact Hd]. Qed.

(** * Methods that store *)

Lemma py_payload_of d : py_value (PDict d) = true -> py_payload (payload_of d).
Proof.
  cbn [py_value]. intros [_ Hv]%andb_prop. induction d as [|[k v] d IH]; [apply map_Forall_empty|]. cbn in Hv. bool_hyps. cbn [payload_of].
  destruct k; try by apply IH. apply map_Forall_insert_2; [done|by apply IH].
Qed.

Lemma py_payload_kept p k v q : py_payload p -> p !! k = Some v -> py_payload q -> py_payload (<[k := v]> q).
Proof. intros Hp Hk Hq. apply map_Forall_insert_2; [by apply Hp|done]. Qed.

Lemma update_payload_keeps payload m :
  py_value payload = true -> machine_ok m -> durable password m -> keeps (update_payload payload) m.
Proof.
  intros Hv Hm Hd. unfold update_payload. apply touch_keeps; [done|done|]. intros m1 _ Hu Hm1 Hd1. destruct payload as [| | | | | | |d|]; try exact Hd1.
  destruct (has_signing_fields d) eqn:Ed; [exact Hd1|]. do 3 apply wwp_bind, wwp_self.
  destruct (durable_session password m1 Hm1 Hu Hd1) as (dk & dek & seed & pending & _ & _ & Hs & Hp & Hpy & _ & _ & Hkeys).
  rewrite (in_heap_some _ _ _ Hs), (in_heap_some _ _ _ Hp).
  apply wwp_bind. eapply wwp_mono; [apply keep_field_spec|]. intros [p1|e] m2 [-> E1]; [|exact Hd1].
  apply wwp_bind. eapply wwp_mono; [apply keep_field_spec|]. intros [p2|e] m2 [-> E2]; [|exact Hd1].
  apply wwp_bind. eapply wwp_mono; [apply keep_field_spec|]. intros [p3|e] m2 [-> E3]; [|exact Hd1].
  destruct (bool_decide (text_items d = None)); [exact Hd1|]. destruct (update_keys d _ seed pending p1 p2 p3 Ed Hkeys E1 E2 E3) as [Hk3 Hpk].
  assert (forall (c : bool) k q q', (if c then exists v, wl_payload (m_self m1) !! k = Some v /\ q' = <[k := v]> q else q' = q) -> py_payload q -> py_payload q') as Hpyk.
  { intros [] k q q' Hq Hpq; [|by subst]. destruct Hq as (v & Hlk & ->). by apply (py_payload_kept (wl_payload (m_self m1))). }
  apply wwp_bind. eapply wwp_mono; [apply (replace_keeps password p3 m1); [done|done|done|..]|].
  - eapply Hpyk; [exact E3|]. eapply Hpyk; [exact E2|]. eapply Hpyk; [exact E1|]. by apply py_payload_of.
  - intros seed' pending' Hs' Hp' _. rewrite (in_heap_unique _ _ _ _ Hs Hs'), (in_heap_unique _ _ _ _ Hp Hp'). split; [done|].
    intros [s ->]. by rewrite Hpk.
  - intros [env|e] m' Hr; [|exact Hr]. destruct Hr as [_ Hd']. apply wwp_bind, wwp_set. cbn beta iota.
    apply kept_keeps; [apply still_invalidate|done|]. eapply wwp_mono; [apply invalidate_kept|]. by intros r m2 [_ Hk].
Qed.

(** A step that always returns and changes neither. *)
Lemma then_keeps {A B} (p : W A) (k : A -> W B) m :
  still p -> durable password m -> wwp p (fun r m' => (exists a, r = Ok a) /\ kept m m') m ->
  (forall a m', durable password m' -> keeps (k a) m') -> keeps (let& x := p in k x) m.
Proof.
  intros Hs Hd Hp Hk. apply wwp_bind. eapply wwp_mono; [apply (wwp_still _ _ _ Hs Hp)|]. intros r m' [[[a ->] Hkm] Hf]. apply Hk. by eapply durable_kept.
Qed.

Lemma invalidate_kept' m : wwp _invalidate_capabilities (fun r m' => (exists a, r = Ok a) /\ kept m m') m.
Proof. eapply wwp_mono; [apply invalidate_kept|]. intros r m' [-> Hk]. split; [by eexists|done]. Qed.

Lemma durable_py m : unlocked m -> durable password m -> py_payload (wl_payload (m_self m)).
Proof. intros [d Ed] Hd. by destruct (Hd d Ed) as (? & ? & ? & _ & _ & _ & ? & _). Qed.

Lemma resolve_keeps rejection m : machine_ok m -> durable password m -> keeps (resolve_signing_key_rotation_rejection rejection) m.
Proof.
  intros Hm Hd. unfold resolve_signing_key_rotation_rejection. apply touch_keeps; [done|done|]. intros m1 _ Hu Hm1 Hd1.
  destruct rejection as [rj|]; [|exact Hd1]. destruct (negb _); [exact Hd1|].
  eapply look_keeps; [done|apply stored_intent_spec|]. intros i _. destruct (matches_publication _ _); cbn [negb]; [|exact Hd1].
  eapply look_keeps; [done|apply check_keys_spec|]. intros k _. apply wwp_bind. eapply wwp_mono; [apply is_latched_same|]. intros r m2 [-> ->].
  destruct (negb _); [exact Hd1|]. apply (step_keeps password (_claim rj) _ (fun _ => True)); [apply still_claim|done|done| |].
  { unfold wwp, _claim, wbind, wget. destruct (default false _); cbn; by repeat split. }
  intros cl m2 Hk2 _ Hm2 Hd2. destruct cl; cbn [negb]; [|exact Hd2]. assert (unlocked m2) as Hu2 by by apply (kept_unlocked m1).
  apply wwp_bind, wwp_self, wwp_bind, wwp_attempt.
  eapply wwp_mono; [apply (replace_keeps password); [done|done|done|..]|].
  - apply map_Forall_delete. by eapply durable_py.
  - intros seed pending _ _ Hk. split; [by apply unlatch_keys|]. intros _. by look_fields.
  - intros [env|e] m3 Hr.
    + destruct Hr as [_ Hd3]. apply wwp_bind, wwp_set. cbn beta iota. apply (then_keeps _invalidate_capabilities); [apply still_invalidate|done|by apply invalidate_kept'|].
      intros _ m4 Hd4. apply (then_keeps (_clear_latch _ _)); [apply still_clear_latch|done|apply clear_latch_kept|]. intros _ m5 Hd5. exact Hd5.
    + apply wwp_bind, wwp_set. cbn beta iota. apply wwp_fail. by apply (durable_kept password m3).
Qed.

(** ** Intents *)

Lemma environment_str_ok e : valid_registry_environment (PStr e) = true -> str_ok e = true.
Proof.
  unfold valid_registry_environment. destruct (utf16_units e) as [n|] eqn:En; [|done]. intros _. apply scalar_str_ok. revert n En.
  induction e as [|c e IH]; [done|]. cbn [utf16_units forallb]. intros n. destruct (is_scalar c); [|done]. destruct (utf16_units e); [|done]. intros _. by eapply IH.
Qed.

Lemma intent_py i : intent_wf i -> py_value (_to_payload i) = true.
Proof.
  intros Hi. assert (match rb_environment i with Some e => str_ok e = true | None => True end) as He.
  { destruct (rb_environment i) as [e|] eqn:Ee; [|done]. apply environment_str_ok. unfold intent_wf, RotationDispatchIntent in Hi. rewrite Ee in Hi. cbn [env_value] in Hi.
    by destruct (valid_registry_environment (PStr e)). }
  unfold _to_payload. destruct (rb_environment i) as [e|]; cbn [app py_value forallb fst snd]; rewrite bool_decide_eq_true_2 by (apply (bool_decide_unpack _); done).
  - by rewrite He.
  - done.
Qed.

Lemma intent_keeps i m :
  machine_ok m -> unlocked m -> durable password m -> intent_wf i ->
  wl_payload (m_self m) !! f_public_key = Some (PBytes (rb_predecessor_owner_public_key i)) ->
  wl_payload (m_self m) !! _PENDING_PUBLIC_KEY = Some (PBytes (rb_successor_owner_public_key i)) ->
  let payload := <[_ROTATION_DISPATCH_INTENT := _to_payload i]> (wl_payload (m_self m)) in
  py_payload payload /\ forall seed pending, in_heap (m_heap m) (wl_secret (m_self m)) seed -> in_heap (m_heap m) (wl_pending (m_self m)) pending ->
     keys_ok (wl_payload (m_self m)) seed pending -> keys_ok payload seed pending /\
     (is_Some seed -> wl_payload (m_self m) !! f_public_key = payload !! f_public_key).
Proof.
  intros Hm Hu Hd Hi Hpk Hpp payload. split.
  - apply map_Forall_insert_2; [split; [done|by apply intent_py]|by apply durable_py].
  - intros seed pending _ _ Hk. split; [by apply latch_keys|]. intros _. unfold payload. by look_fields.
Qed.

Lemma latch_keeps bundle publication now m :
  machine_ok m -> durable password m -> keeps (latch_signing_key_rotation_dispatch_intent bundle publication now) m.
Proof.
  intros Hm Hd. unfold latch_signing_key_rotation_dispatch_intent. apply touch_keeps; [done|done|]. intros m1 _ Hu Hm1 Hd1.
  eapply look_keeps; [done|apply not_latched_spec|]. intros _ _. destruct bundle as [b|]; [|exact Hd1].
  match goal with |- wwp (match ?x with _ => _ end) _ _ => destruct x as [[v envelope]|e]; [|exact Hd1] end.
  destruct publication as [p|]; [|exact Hd1]. destruct (_ || _); [exact Hd1|]. apply wwp_bind, wwp_lift.
  destruct (draft_view _) as [f|e]; [|exact Hd1]. destruct (df_authorization f) as [a|]; [|exact Hd1]. destruct (negb _); [exact Hd1|].
  apply (step_keeps password (prove_pending_signing_key_rotation _) _ (fun _ => True)); [apply still_prove|done|done| |].
  { eapply wwp_mono; [by apply prove_spec|]. by intros [[]|e] m2 Hr. }
  intros _ m2 Hk2 _ Hm2 Hd2. apply (step_keeps password public_key _ (fun k => wl_payload (m_self m2) !! f_public_key = Some (PBytes k)));
    [apply still_public_key|done|done|by apply public_key_spec|]. intros ka m3 Hk3 Hka Hm3 Hd3.
  apply (step_keeps password pending_signing_public_key _ (fun o => forall k, o = Some k -> wl_payload (m_self m3) !! _PENDING_PUBLIC_KEY = Some (PBytes k)));
    [apply still_pending_key|done|done|by apply pending_key_spec|]. intros o m4 Hk4 Hkp Hm4 Hd4. destruct o as [ks|]; [|exact Hd4].
  specialize (Hkp ks eq_refl). apply wwp_bind, wwp_lift. destruct (RotationDispatchIntent _ _ _ _ _ _ _) as [i|e] eqn:Ei; [|exact Hd4].
  apply intent_ok in Ei as (Hwf & _ & [= Epred] & [= Esucc] & _). destruct (negb _); [exact Hd4|]. apply wwp_bind, wwp_get. cbn beta iota.
  destruct (is_owner_latched _ _); [exact Hd4|].
  apply (step_keeps password _invalidate_capabilities _ (fun _ => True)); [apply still_invalidate|done|done|by split; [apply invalidate_kept|]|].
  intros _ m5 Hk5 _ Hm5 Hd5. assert (unlocked m5) as Hu5 by (do 4 (eapply kept_unlocked; [eassumption|]); done).
  destruct (kept_trans _ _ _ Hk4 Hk5) as [[= _ _ _ _ E53 _] _]. destruct (kept_trans _ _ _ Hk3 (kept_trans _ _ _ Hk4 Hk5)) as [[= _ _ _ _ E52 _] _].
  apply wwp_bind, wwp_self, wwp_bind. destruct (intent_keeps i m5) as [Hpy Hkeys]; [done..|by rewrite E52, Hka, Epred|by rewrite E53, Hkp, Esucc|].
  eapply wwp_mono; [by apply (replace_keeps password)|]. intros [env|e] m6 Hr; [|exact Hr]. destruct Hr as [_ Hd6].
  apply wwp_bind, wwp_set. cbn beta iota. apply (then_keeps (_mark_latched _ _)); [apply still_mark_latched|done|apply mark_latched_kept|].
  intros bm m7 Hd7. by destruct bm.
Qed.

(** Asking for consent may use the wallet, but leaves its file and session in step. *)
Definition consent_durable (ask : rotation_binding -> pyval -> W pyval) : Prop :=
  forall i v m, machine_ok m -> durable password m -> durable password (ask i v m).2.

Lemma bind_keeps environment consent m :
  machine_ok m -> (forall ask, consent = Some ask -> consent_stable ask /\ consent_durable ask) -> durable password m ->
  keeps (bind_legacy_rotation_dispatch_environment environment consent) m.
Proof.
  intros Hm Hcons Hd. unfold bind_legacy_rotation_dispatch_environment. apply touch_keeps; [done|done|]. intros m1 _ Hu Hm1 Hd1.
  set (R m := fun o => forall i, o = Some i -> exists raw, wl_payload (m_self m) !! _ROTATION_DISPATCH_INTENT = Some raw /\ _from_payload raw = Ok i).
  apply (step_keeps password signing_key_rotation_dispatch_intent _ (R m1)); [apply still_dispatch_intent|done|done|by apply dispatch_intent_spec|].
  intros o m2 _ _ Hm2 Hd2. destruct o as [i|]; [|exact Hd2]. destruct consent as [ask|]; [|exact Hd2]. destruct environment as [| | | |e| | | |]; try exact Hd2.
  destruct (valid_registry_environment (PStr e)) eqn:Ev; [|rewrite orb_true_r; exact Hd2]. destruct (_ || _); [exact Hd2|].
  destruct (Hcons ask eq_refl) as [Hst Hdur]. apply wwp_bind, wwp_attempt.
  apply (wwp_mono _ (fun r m' => machine_ok m' /\ durable password m')); [split; [by apply Hst|by apply Hdur]|]. intros [answer|e'] m3 [Hm3 Hd3]; [|exact Hd3].
  apply touch_keeps; [done|done|]. intros m4 _ Hu4 Hm4 Hd4. destruct answer as [|[]| | | | | | |]; try exact Hd4.
  apply (step_keeps password signing_key_rotation_dispatch_intent _ (R m4)); [apply still_dispatch_intent|done|done|by apply dispatch_intent_spec|].
  intros o' m5 Hk5 Hint Hm5 Hd5. case_bool_decide as Eo; cbn [negb]; [|exact Hd5]. subst o'. destruct (Hint i eq_refl) as (raw & Hraw & Hfrom).
  assert (unlocked m5) as Hu5 by by eapply kept_unlocked. destruct (unlocked_session m5 Hm5 Hu5) as (d & seed & pending & _ & _ & _ & _ & _ & Hkeys).
  pose proof Hk5 as [[= _ _ _ _ Epl _] _]. rewrite <-Epl in Hraw. destruct Hkeys as (_ & _ & Hkeys).
  destruct seed as [s|]; [|destruct Hkeys as (_ & _ & _ & Hno); by rewrite Hno in Hraw].
  destruct Hkeys as (k & _ & _ & _ & Hpk & Hpend). destruct pending as [t|]; [|destruct Hpend as [_ Hno]; by rewrite Hno in Hraw].
  destruct Hpend as (k' & _ & _ & _ & Hpk' & _ & Hall). destruct (Hall raw Hraw) as (i' & Hi' & Hpred & Hsucc). rewrite Hfrom in Hi'. injection Hi' as <-.
  destruct (intent_keeps (replace_environment i (Some e)) m5) as [Hpy Hkeys]; [done..|apply replace_environment_wf; [by eapply from_payload_wf|done]|
    by rewrite Hpk, <-Hpred|by rewrite Hpk', <-Hsucc|].
  destruct (durable_session password m5 Hm5 Hu5 Hd5) as (dk & dek & seed & pending & Edk & Hdek & Hs & Hp & Hpy0 & Hpath & Hv & Hk0).
  destruct (Hkeys seed pending Hs Hp Hk0) as [Hk1 Hf1]. apply wwp_bind, wwp_self, wwp_bind. set (payload := <[_ROTATION_DISPATCH_INTENT := _]> _) in *.
  eapply wwp_mono; [eapply (build_durable password m5 payload None None true (with_seeds payload seed pending)); [done|done|by apply store_spec|by apply py_with_seeds|exact Hv]|].
  intros [env|e'] m6 [[Hk6 Hf6] Hr]; [|by eapply durable_kept]. destruct Hr as (pt & Hseal & Henv). apply wwp_bind.
  eapply wwp_mono; [eapply wwp_still; [apply still_invalidate|apply invalidate_kept]|]. intros r m7 [[-> Hk7] Hf7].
  assert (kept m5 m7) as Hk57 by by eapply kept_trans. assert (files m7 = files m5) as Hf57 by congruence.
  pose proof Hk57 as [[= Ep Ed Es Epd Epl' Ee] Eh]. apply wwp_bind.
  eapply wwp_mono; [apply (persist_replaced password m7 dek (with_seeds (wl_payload (m_self m7)) seed pending) (with_seeds payload seed pending) env pt);
    rewrite ?Ep, ?Ee, ?Epl', ?Hf57; done|].
  intros [[]|e'] m8 Hr.
  - cbn [res_bind replaced] in Hr. destruct Hr as [Hk8 Hv8]. pose proof Hk8 as [[= Ep8 Ed8 Es8 Epd8 _ _] Eh8].
    apply wwp_bind, wwp_set. cbn beta iota. apply wwp_ret.
    eapply durable_new; cbn; rewrite ?Ep8, ?Ed8, ?Es8, ?Epd8, ?Eh8, ?Ed, ?Es, ?Epd, ?Eh, ?Ep; try done. by rewrite <-Ep.
  - eapply (replaced_failed password m7); [..|exact Hr]; rewrite ?Ed, ?Es, ?Epd, ?Eh, ?Ep, ?Epl'; done.
Qed.

(** ** Successors *)

Lemma durable_frame m m' :
  core (m_self m') = core (m_self m) -> files m' = files m -> (forall a, a ∈ secrets (m_self m) -> m_heap m' !! a = m_heap m !! a) ->
  durable password m -> durable password m'.
Proof.
  intros Hc Hf Hh Hd d. pose proof Hc as [= -> -> -> -> -> ->]. rewrite Hf. intros Ed. destruct (Hd d Ed) as (dek & seed & pending & Hdek & Hs & Hp & Hrest).
  assert (forall o v, option_list o ⊆ secrets (m_self m) -> in_heap (m_heap m) o v -> in_heap (m_heap m') o v) as Hin.
  { intros [a|] [v|] Ho; cbn; try done. by rewrite Hh by (apply Ho; left). }
  exists dek, seed, pending. split; [|split; [|split; [|done]]].
  - rewrite Hh; [done|]. unfold secrets. rewrite Ed. by left.
  - apply Hin; [|done]. unfold secrets. set_solver.
  - apply Hin; [|done]. unfold secrets. set_solver.
Qed.

Lemma durable_wipe a m : durable password m -> a ∉ secrets (m_self m) -> durable password (set_heap (wipe_array a) m).
Proof.
  intros Hd Ha. apply (durable_frame m); [done|done| |done]. intros b Hb. cbn. unfold wipe_array. apply list_lookup_alter_ne. by intros ->.
Qed.

Lemma durable_grown m m' t : machine_ok m -> grown m m' t -> files m' = files m -> durable password m -> durable password m'.
Proof.
  intros Hm [Hc Hh] Hf. apply durable_frame; [done|done|]. intros a Ha. rewrite Hh. destruct (secrets_exist m a Hm Ha) as [b Hb].
  by rewrite (lookup_app_l_Some _ _ _ _ Hb), Hb.
Qed.

Lemma still_generate_seed : still generate_seed.
Proof. unfold generate_seed. still. Qed.

(** A successor that is given up again. *)
Lemma abandoned_keeps m m' id (e : exn) : durable password m' -> (wl_dek (m_self m') = None \/ kept m m') -> id ∉ secrets (m_self m) ->
  wwp (let& _ := _wipe (Some id) in wfail (A:=bytes) e) (fun _ m' => durable password m') m'.
Proof.
  intros Hd Hk Hid. apply wwp_bind, wwp_set. cbn beta iota. apply wwp_fail. destruct Hk as [Hn|Hk]; [by apply durable_locked|].
  apply durable_wipe; [done|]. by rewrite (kept_secrets _ _ Hk).
Qed.

Lemma prepare_keeps m : machine_ok m -> durable password m -> keeps prepare_signing_key_rotation m.
Proof.
  intros Hm Hd. unfold prepare_signing_key_rotation. apply touch_keeps; [done|done|]. intros m1 _ Hu Hm1 Hd1.
  eapply look_keeps; [done|apply not_latched_spec|]. intros [] _. apply wwp_bind, wwp_self. destruct (wl_pending (m_self m1)) as [p|] eqn:Ep.
  { apply (step_keeps password pending_signing_public_key _ (fun _ => True)); [apply still_pending_key|done|done| |].
    - eapply wwp_mono; [by apply pending_key_spec|]. intros [o|e] m2 Hr; [|done]. by destruct Hr.
    - intros [k|] m2 _ _ _ Hd2; exact Hd2. }
  apply wwp_bind, wwp_self, wwp_bind, wwp_self.
  destruct (durable_session password m1 Hm1 Hu Hd1) as (dk & dek & seed & pending & Edk & Hdek & Hs & Hp & Hpy & Hpath & Hv & Hk).
  rewrite Ep in Hp. destruct pending; [done|]. destruct (wl_secret (m_self m1)) as [a|] eqn:Ea; [|exact Hd1]. destruct seed as [s|]; [|done].
  destruct (field _ f_public_key) as [| | |k0| | | | |] eqn:Ek; try exact Hd1. apply wwp_bind.
  eapply wwp_mono; [eapply wwp_still; [apply still_generate_seed|apply generate_seed_spec]|]. intros [id|e] m2 [Hg Hf2]; [|by eapply durable_kept].
  destruct Hg as (-> & t & Hg & Hlt). set (id := length (m_heap m1)). pose proof (fresh_not_secret m1 Hm1) as Hfresh. fold id in Hfresh.
  pose proof (durable_grown m1 m2 t Hm1 Hg Hf2 Hd1) as Hd2. destruct Hg as [Hc2 Hh2]. pose proof (core_secrets _ _ Hc2) as Hsec.
  assert (m_heap m2 !! id = Some t) as Hid by (unfold id; by rewrite Hh2, lookup_app_r, Nat.sub_diag).
  apply wwp_bind, wwp_attempt, wwp_bind, wwp_get. rewrite Hid. change (default [] (Some t)) with t. apply wwp_bind, wwp_lift.
  unfold Signer._public_key_from_seed. assert (forall (e : exn) m3, durable password m3 -> (wl_dek (m_self m3) = None \/ kept m2 m3) ->
    wwp (let& _ := _wipe (Some id) in wfail (A:=bytes) e) (fun _ m' => durable password m') m3) as Habandon.
  { intros e m3 Hd3 Hk3. by apply (abandoned_keeps m2); rewrite ?Hsec. }
  destruct (ed_public t) as [k|] eqn:Et; cbn [of_option]; [|apply Habandon; [done|right; apply kept_refl]].
  case_bool_decide as Hne; [apply Habandon; [done|right; apply kept_refl]|].
  assert (keys_ok (<[_PENDING_PUBLIC_KEY := PBytes k]> (wl_payload (m_self m1))) (Some s) (Some t)) as Hk' by (apply stage_keys; try done; rewrite Ek; congruence).
  set (payload := <[_PENDING_PUBLIC_KEY := _]> _) in *. pose proof Hc2 as [= Epath Ed2 Es2 Ep2 Epl2 Ee2].
  assert (forall x b, m_heap m1 !! x = Some b -> m_heap m2 !! x = Some b) as Hold by (intros x b Hb; rewrite Hh2; by apply lookup_app_l_Some).
  apply wwp_bind. eapply wwp_mono; [eapply (replace_durable password m2 payload (Some id) None true (with_seeds payload (Some s) (Some t)) dk dek);
    rewrite ?Epath, ?Ed2, ?Ee2, ?Hf2; auto|].
  - apply store_spec; rewrite ?Es2, ?Ea, ?Epl2; try done; [by apply Hold|]. intros _ _. unfold payload. by look_fields.
  - apply py_with_seeds. by apply map_Forall_insert_2.
  - exact Hv.
  - intros [env|e] m3 Hr.
    + destruct Hr as [Hk3 Hv3]. apply wwp_ret. cbn beta iota. apply wwp_bind, wwp_set, wwp_bind, wwp_set. cbn beta iota.
      pose proof Hk3 as [[= Ep3 Ed3 Es3 Epd3 Epl3 Ee3] Eh3].
      apply (then_keeps _invalidate_capabilities); [apply still_invalidate| |apply invalidate_kept'|intros _ m4 Hd4; exact Hd4].
      eapply (durable_new password _ dk dek (Some s) (Some t)); cbn; rewrite ?Ep3, ?Ed3, ?Es3, ?Eh3, ?Epath, ?Ed2, ?Es2, ?Ea; try done.
      * by apply Hold.
      * by apply Hold.
      * by apply map_Forall_insert_2.
      * by rewrite <-Epath.
    + apply Habandon.
      * eapply (replaced_failed password m2 dk dek (Some s) None); rewrite ?Ed2, ?Es2, ?Ea, ?Ep2, ?Ep, ?Epl2, ?Epath; try done; first [by apply Hold|exact Hr].
      * destruct Hr as [|[? _]]; auto.
Qed.

Lemma cancel_keeps m : machine_ok m -> durable password m -> keeps cancel_signing_key_rotation m.
Proof.
  intros Hm Hd. unfold cancel_signing_key_rotation. apply touch_keeps; [done|done|]. intros m1 _ Hu Hm1 Hd1.
  eapply look_keeps; [done|apply not_latched_spec|]. intros [] Hno. cbn beta iota in Hno. apply wwp_bind, wwp_self, wwp_bind, wwp_self.
  destruct (wl_pending (m_self m1)) as [b|] eqn:Eb; [|by destruct (field _ _)].
  destruct (durable_session password m1 Hm1 Hu Hd1) as (dk & dek & seed & pending & Edk & Hdek & Hs & Hp & Hpy & Hpath & Hv & Hk).
  set (payload := delete _PENDING_PUBLIC_KEY _). apply wwp_bind.
  assert (keys_ok payload seed None) as Hk' by by eapply drop_keys.
  eapply wwp_mono; [eapply (replace_durable password m1 payload None None false (with_seeds payload seed None)); try done|].
  - apply store_spec; try done; unfold payload; by look_fields.
  - by apply py_with_seeds, map_Forall_delete.
  - intros [env|e] m2 Hr; [|by eapply replaced_failed]. destruct Hr as [Hk2 Hv2]. pose proof Hk2 as [[= Ep Ed Es Epd _ _] Eh].
    apply wwp_bind, wwp_set, wwp_bind, wwp_set, wwp_bind, wwp_set. cbn beta iota.
    apply kept_keeps; [apply still_invalidate| |eapply wwp_mono; [apply invalidate_kept|]; by intros r m3 [_ ?]].
    destruct (unlocked_session m1 Hm1 Hu) as (dk' & _ & _ & Edk' & Hnd & _). rewrite Edk in Edk'. injection Edk' as <-.
    unfold secrets in Hnd. rewrite Edk, Eb in Hnd.
    assert (forall a v, in_heap (m_heap m1) a v -> (forall x, a = Some x -> x <> b) -> in_heap (wipe_array b (m_heap m2)) a v) as Hkeep.
    { intros [a|] [v|]; cbn; try done. intros Ha Hne. unfold wipe_array. rewrite list_lookup_alter_ne by (intros ->; by eapply Hne). by rewrite Eh. }
    eapply (durable_new password _ dk dek seed None); cbn; rewrite ?Ep, ?Ed, ?Es; try done.
    + apply (Hkeep (Some dk) (Some dek)); [done|]. intros x [= <-] ->. cbn in Hnd. rewrite NoDup_cons in Hnd. set_solver.
    + apply Hkeep; [done|]. intros x Ex ->. rewrite Ex in Hnd. cbn in Hnd. rewrite !NoDup_cons in Hnd. set_solver.
    + by apply map_Forall_delete.
Qed.

Lemma finalize_keeps c m : machine_ok m -> durable password m -> keeps (finalize_signing_key_rotation c) m.
Proof.
  intros Hm Hd. unfold finalize_signing_key_rotation. apply touch_keeps; [done|done|]. intros m1 _ Hu Hm1 Hd1. destruct c as [c|]; [|exact Hd1].
  eapply look_keeps; [done|apply stored_intent_spec|]. intros i _. destruct (confirmation_matches c i); cbn [negb]; [|exact Hd1].
  eapply look_keeps; [done|apply check_keys_spec|]. intros k Hkey. destruct Hkey as (b & t & Eb & Ht & Het & _ & [a Ea]).
  case_bool_decide; cbn [negb]; [|exact Hd1]. apply wwp_bind. eapply wwp_mono; [apply is_latched_same|]. intros r m2 [-> ->].
  destruct (negb _); [exact Hd1|]. do 3 apply wwp_bind, wwp_self.
  apply (step_keeps password _invalidate_capabilities _ (fun _ => True)); [apply still_invalidate|done|done|by split; [apply invalidate_kept|]|].
  intros _ m2 Hk2 _ Hm2 Hd2. assert (unlocked m2) as Hu2 by by apply (kept_unlocked m1). pose proof Hk2 as [[= _ _ Es2 Ep2 Epl2 _] Eh2].
  rewrite <-Es2 in Ea. rewrite <-Ep2 in Eb. rewrite <-Eh2 in Ht. rewrite <-Epl2, <-Ep2, <-Es2, Ea, Eb.
  destruct (durable_session password m2 Hm2 Hu2 Hd2) as (dk & dek & seed & pending & Edk & Hdek & Hs & Hp & Hpy & Hpath & Hv & Hk).
  assert (pending = Some t) as ->. { rewrite Eb in Hp. destruct pending; cbn in Hp; [congruence|done]. }
  set (payload := delete _ROTATION_DISPATCH_INTENT _). assert (keys_ok payload (Some t) None) as Hk' by by eapply promote_keys.
  assert (py_payload payload) as Hpy' by (do 2 apply map_Forall_delete; by apply map_Forall_insert_2). apply wwp_bind.
  eapply wwp_mono; [eapply (replace_durable password m2 payload None (Some b) false (with_seeds payload (Some t) None)); try done|].
  - apply store_spec; try done; unfold payload; by look_fields.
  - by apply py_with_seeds.
  - intros [env|e] m3 Hr; [|by eapply replaced_failed]. destruct Hr as [Hk3 Hv3]. pose proof Hk3 as [[= Ep3 Ed3 Es3 Epd3 _ _] Eh3].
    apply wwp_bind, wwp_set, wwp_bind, wwp_set, wwp_bind, wwp_set. cbn beta iota.
    apply (then_keeps (_clear_latch _ _)); [apply still_clear_latch| |apply clear_latch_kept|intros cl m5 Hd5; by destruct cl].
    destruct (unlocked_session m2 Hm2 Hu2) as (dk' & _ & _ & Edk' & Hnd & _). rewrite Edk in Edk'. injection Edk' as <-.
    unfold secrets in Hnd. rewrite Edk, Ea, Eb in Hnd. cbn in Hnd. rewrite !NoDup_cons in Hnd.
    assert (forall x v, x <> a -> m_heap m2 !! x = Some v -> wipe_array a (m_heap m3) !! x = Some v) as Hkeep.
    { intros x v Hne Hx. unfold wipe_array. rewrite list_lookup_alter_ne by done. by rewrite Eh3. }
    eapply (durable_new password _ dk dek (Some t) None); cbn; rewrite ?Ep3, ?Ed3; try done; apply Hkeep; try done; set_solver.
Qed.

(** ** The password *)

Lemma change_password_keeps new confirmation m :
  machine_ok m -> durable password m ->
  wwp (change_password new confirmation) (fun r m' => match r with
    | Ok _ => exists password', new = PStr password' /\ _validate_password (PStr password') None = Ok password' /\ durable password' m'
    | Err _ => durable password m' end) m.
Proof.
  intros Hm Hd. unfold change_password. apply wwp_bind. eapply wwp_mono; [eapply wwp_still; [apply still_touch|apply (touch_spec []), clean_nil, Hm]|].
  intros [[]|e] m1 [Hr Hf1]; [|destruct Hr as [_ Hi]; by eapply durable_idle]. destruct Hr as [Hk1 Hu].
  pose proof (kept_ok _ _ Hk1 Hm) as Hm1. pose proof (durable_kept password _ _ Hk1 Hf1 Hd) as Hd1.
  apply wwp_bind, wwp_lift. destruct (_validate_password new (Some confirmation)) as [pw|e] eqn:Epw; [|exact Hd1].
  assert (new = PStr pw /\ _validate_password (PStr pw) None = Ok pw) as [-> Hstrong].
  { unfold _validate_password in Epw. destruct new as [| | | |np| | | |]; try done. destruct (length np <? _MIN_PASSWORD_LENGTH)%nat eqn:El; [done|].
    inv_ok. split; [done|]. unfold _validate_password. by rewrite El. }
  apply wwp_bind. eapply wwp_mono; [eapply wwp_still; [apply still_token_bytes|apply token_bytes_kept]|]. intros r m2 [[(salt & -> & Hsalt) Hk2] Hf2].
  apply wwp_bind, wwp_lift. assert (durable password m2) as Hd2 by by eapply durable_kept. destruct (_derive_kek pw salt) as [kek|e] eqn:Ekek; [|exact Hd2].
  pose proof (kept_ok _ _ Hk2 Hm1) as Hm2. assert (unlocked m2) as Hu2 by by eapply kept_unlocked.
  destruct (durable_session password m2 Hm2 Hu2 Hd2) as (dk & dek & seed & pending & Edk & Hdek & Hs & Hp & Hpy & Hpath & Hv & Hk).
  apply wwp_bind, wwp_self. rewrite Edk. apply wwp_bind, wwp_get. rewrite Hdek. change (default [] (Some dek)) with dek.
  apply wwp_bind. eapply wwp_mono; [eapply wwp_still; [apply still_token_bytes|apply token_bytes_kept]|]. intros r m3 [[(nonce & -> & Hnonce) Hk3] Hf3].
  assert (durable password m3) as Hd3 by by eapply durable_kept. apply wwp_bind, wwp_lift.
  destruct Hv as (pt & d & [Hls Hlw Hln Hld Hval [Hwrap Hpayload]] & Hcont & Henv & raw & Hraw & Hset).
  assert (length kek = 32%nat) as Hlk. { unfold _derive_kek in Ekek. destruct (utf8_encode pw) as [secret|]; [|done]. destruct (argon2id secret salt) eqn:Ea; [|done]. injection Ekek as <-. by eapply argon2id_length. }
  destruct (wrap_aad_ok salt (_kdf_header salt) CURRENT_FORMAT_VERSION (or_introl eq_refl) eq_refl) as [aad Haad]. unfold _wrap_dek. rewrite Haad. cbn [res_bind].
  destruct (seal_ok kek nonce aad dek Hlk Hnonce) as (ct & tag & Hseal & Htag & Hopen). unfold _seal. rewrite Hseal.
  apply wwp_bind, wwp_self, wwp_bind, wwp_lift. pose proof Hk3 as [[= Ep3 Ed3 Es3 Epd3 Epl3 Ee3] Eh3]. rewrite Ee3.
  destruct (envelope_items _ _ Henv) as (kdf & wrap & box & _ & _ & -> & _ & _ & Hbox).
  set (pt' := MkParts salt nonce ct tag (pt_nonce pt) (pt_ct pt) (pt_tag pt)). set (env := envelope_json _ _ _).
  assert (envelope_for pt' env) as Henv'. { left. eexists _, _, _. split; [by left|]. split; [by left|]. split; [exact Hbox|done]. }
  apply wwp_bind. eapply wwp_mono; [apply (persist_durable pt' env raw); rewrite ?Ep3, ?Hf3; done|]. rewrite Ep3. intros [[]|e] m4 Hr.
  - destruct Hr as (Hk4 & raw' & Hraw' & Hset'). apply wwp_bind, wwp_self, wwp_set. exists pw. split; [done|]. split; [done|].
    destruct (kept_trans _ _ _ Hk3 Hk4) as [[= Ep Ed Es Epd Epl Ee] Eh].
    eapply (durable_new pw _ dk dek seed pending); cbn; rewrite ?Ep, ?Ed, ?Es, ?Epd, ?Epl, ?Eh; try done.
    exists pt', d. split; [|split; [done|split; [done|by exists raw']]]. split; try done. split; [by exists kek, aad|done].
  - destruct Hr as [Hn|[Hk4 Hset']]; [by apply durable_locked|]. destruct (kept_trans _ _ _ Hk3 Hk4) as [[= Ep Ed Es Epd Epl Ee] Eh].
    eapply (durable_new password _ dk dek seed pending); rewrite ?Ep, ?Ed, ?Es, ?Epd, ?Epl, ?Eh, ?Ee; try done.
    exists pt, d. split; [|split; [done|split; [done|by exists raw]]]. by split.
Qed.
End Keeps.
End Methods.
