(* ===== verification/Reopening.v ===== *)
(** A wallet's whole life: created, used, locked, opened again.  At any time the file gives
    back the session as it was, also after a crash. *)

From stdpp Require Import gmap.
From S2P Require Import Prelude PyVal Sha256 Interfaces SignedUpdate Draft Consent Rotation Adapter Dispatch Signer Base64 Json JsonFacts Container ContainerFacts Storage StorageFacts WalletState Wallet WalletRotation WalletFacts WalletRotationFacts WalletOpenFacts WalletClaims Vault WalletDurable Durability.

Open Scope Z_scope.

(** * Intents and the order of their fields *)

Lemma text_items_map d items : text_items d = Some items -> d = (fun kv => (PStr kv.1, kv.2)) <$> items.
Proof.
  revert items. induction d as [|[k v] d IH]; intros items; [by intros [= <-]|]. cbn. destruct k; try done.
  intros (items' & Hi & ->)%fmap_Some. by rewrite (IH items' Hi).
Qed.

Lemma map_text_items (items : list (pystr * pyval)) : text_items ((fun kv => (PStr kv.1, kv.2)) <$> items) = Some items.
Proof. induction items as [|[k v] items IH]; [done|]. cbn. by rewrite IH. Qed.

Lemma obj_get_perm {A} k (o o' : list (pystr * A)) : NoDup o.*1 -> Permutation o o' -> obj_get k o = obj_get k o'.
Proof.
  intros Hnd Ho. revert Hnd. induction Ho as [|kv o o' Ho IH|kv1 kv2 o|o1 o2 o3 H1 IH1 H2 IH2]; [done| | |].
  - rewrite fmap_cons, NoDup_cons. intros [_ Hnd]. cbn. by rewrite IH.
  - rewrite !fmap_cons, !NoDup_cons, not_elem_of_cons. intros [[Hne _] _]. cbn. do 2 case_bool_decide; congruence.
  - intros Hnd. rewrite IH1 by done. apply IH2. by rewrite <-H1.
Qed.

Lemma obj_get_fmap {A B} k (f : A -> B) (o : list (pystr * A)) : obj_get k ((fun kv => (kv.1, f kv.2)) <$> o) = f <$> obj_get k o.
Proof. induction o as [|[k' v] o IH]; [done|]. cbn. case_bool_decide; [done|apply IH]. Qed.

Lemma obj_keys_are_keys {A B} (o : list (pystr * A)) (o' : list (pystr * B)) ks : Permutation o.*1 o'.*1 -> obj_keys_are o ks = obj_keys_are o' ks.
Proof.
  intros Hp. unfold obj_keys_are. f_equal.
  - assert (forall C (l : list (pystr * C)), forallb (fun kv => bool_decide (kv.1 ∈ ks)) l = forallb (fun k => bool_decide (k ∈ ks)) l.*1) as Hm
      by (intros C l; induction l as [|kv l IH]; [done|]; cbn; by rewrite IH).
    rewrite !Hm. by apply forallb_perm.
  - induction ks as [|k ks IH]; [done|]. cbn. rewrite IH. f_equal. apply bool_decide_ext. by rewrite Hp.
Qed.

(** The fields of an intent are not containers. *)
Lemma intent_atoms o p s h n eh env i :
  RotationDispatchIntent o p s h n eh env = Ok i ->
  value_sort o = o /\ value_sort p = p /\ value_sort s = s /\ value_sort h = h /\ value_sort n = n /\ value_sort eh = eh /\ value_sort env = env.
Proof.
  unfold RotationDispatchIntent. intros (e & He & Hi)%res_bind_ok. apply res_bind_ok in Hi as (on & Ho & Hi).
  apply res_bind_ok in Hi as (pb & [-> _]%require_hash_ok & Hi). apply res_bind_ok in Hi as (sb & [-> _]%require_hash_ok & Hi).
  apply res_bind_ok in Hi as (hb & [-> _]%require_hash_ok & Hi). apply res_bind_ok in Hi as (ehb & [-> _]%require_hash_ok & Hi).
  apply intent_env_ok in He as ->. destruct n; try done. destruct o; try done. by destruct e.
Qed.

Lemma from_payload_sorted v i : py_value v = true -> _from_payload v = Ok i -> _from_payload (value_sort v) = Ok i.
Proof.
  intros Hv Hi. destruct v as [| | | | | | |d|]; try done. unfold _from_payload in Hi. destruct (text_items d) as [items|] eqn:Et; [|done].
  apply text_items_map in Et as Ed. cbn [py_value] in Hv. apply andb_prop in Hv as [Hnd _]. apply bool_decide_eq_true in Hnd.
  assert (NoDup items.*1) as Hitems.
  { replace (items.*1) with (text_keys d); [done|]. rewrite Ed. clear. induction items as [|kv items IH]; [done|]. cbn. by f_equal. }
  set (sorted := sort_by fst ((fun kv => (kv.1, value_sort kv.2)) <$> items)).
  assert (value_sort (PDict d) = PDict ((fun kv => (PStr kv.1, kv.2)) <$> sorted)) as ->.
  { rewrite value_sort_dict, Ed. f_equal. unfold sorted. rewrite <-(sort_by_map fst item_key (fun kv => (PStr kv.1, kv.2))) by done.
    f_equal. by rewrite <-!list_fmap_compose. }
  assert (Permutation items.*1 sorted.*1) as Hkeys. { unfold sorted. rewrite <-(sort_by_perm fst). by rewrite <-list_fmap_compose. }
  assert (forall k, obj_get k sorted = value_sort <$> obj_get k items) as Hget.
  { intros k. rewrite <-(obj_get_fmap k value_sort). symmetry. apply obj_get_perm; [|apply sort_by_perm]. by rewrite <-list_fmap_compose. }
  unfold _from_payload. rewrite map_text_items, <-!(obj_keys_are_keys items sorted) by done. rewrite !Hget.
  destruct (negb _) eqn:Ek; [done|].
  assert (forall k, default PNone (value_sort <$> obj_get k items) = value_sort (default PNone (obj_get k items))) as Hdef by (intros k; by destruct (obj_get k items)).
  rewrite !Hdef. destruct (match obj_get (py "environment") items with Some e => negb (valid_registry_environment e) | None => false end) eqn:Ev; [done|].
  apply intent_atoms in Hi as Ha. destruct Ha as (-> & -> & -> & -> & -> & -> & Henv). rewrite Henv.
  destruct (obj_get (py "environment") items) as [e|]; [|done]. change (value_sort e = e) in Henv.
  cbn [fmap option_fmap option_map]. rewrite Henv. by rewrite Ev.
Qed.

(** * What is installed from a stored payload *)

Section Reopen.
Context `{PyFloat} `{KdfLaws} `{AeadLaws} `{!Ed25519} `{!Ed25519Laws} `{Cbor}.

Lemma keys_ok_sorted p seed pending : py_payload p -> keys_ok p seed pending -> keys_ok (value_sort <$> p) seed pending.
Proof.
  intros Hpy (A1 & A2 & Hk). unfold keys_ok, field in *. rewrite !lookup_fmap, A1, A2. split; [done|]. split; [done|].
  assert (forall k, default PNone (p !! k) = PNone -> default PNone (value_sort <$> p !! k) = PNone) as Hnone.
  { intros k. destruct (p !! k); cbn; [by intros ->|done]. }
  destruct seed as [s|].
  - destruct Hk as (k & Hs & Hls & Hlk & Hpk & Hp). exists k. rewrite Hpk. repeat (split; [done|]). destruct pending as [t|].
    + destruct Hp as (k' & Ht & Hlt & Hlk' & Hpk' & Hne & Hi). exists k'. rewrite Hpk'. repeat (split; [done|]). intros raw Hraw.
      apply fmap_Some in Hraw as (v & Hv & ->). destruct (Hi v Hv) as (i & Hf & Hr). exists i. split; [|done].
      apply from_payload_sorted; [by eapply Hpy|done].
    + destruct Hp as [Hp ->]. split; [by apply Hnone|done].
  - destruct Hk as (-> & H1' & H2' & ->). repeat split; by apply Hnone.
Qed.

Lemma with_seeds_sorted p seed pending : value_sort <$> with_seeds p seed pending = with_seeds (value_sort <$> p) seed pending.
Proof. unfold with_seeds. destruct seed, pending; by rewrite ?fmap_insert. Qed.

(** A session's stored payload is taken apart into its payload and its seeds. *)
Lemma install_stored p seed pending : keys_ok p seed pending -> _install_secret_material (with_seeds p seed pending) = Ok (p, seed, pending).
Proof.
  intros (A1 & A2 & Hk). unfold _install_secret_material.
  assert (delete _PENDING_PRIVATE_SEED (delete f_private_seed (with_seeds p seed pending)) = p) as ->.
  { unfold with_seeds. destruct seed, pending; rewrite ?delete_insert_ne, ?delete_insert_eq, ?delete_insert_ne, ?delete_insert_eq by done;
      rewrite ?(delete_id p f_private_seed), ?(delete_id p _PENDING_PRIVATE_SEED) by done; done. }
  destruct seed as [s|].
  - destruct Hk as (k & Hs & Hls & Hlk & Hpk & Hp).
    assert (field (with_seeds p (Some s) pending) f_private_seed = PBytes s) as -> by (unfold field, with_seeds; destruct pending; by look_fields).
    assert (field p f_public_key = PBytes k) as -> by (unfold field; by rewrite Hpk).
    assert (forall x y, ed_public x = Some y -> length x = _KEY_LENGTH -> length y = _KEY_LENGTH ->
      _validate_seed_public_key_pair (PBytes x) (PBytes y) = Ok (x, y)) as Hpair.
    { intros x y Hx Hlx Hly. unfold _validate_seed_public_key_pair. rewrite Hlx, Hly, Nat.eqb_refl, Hx. cbn [negb]. by rewrite bool_decide_eq_true_2. }
    cbn [is_none]. rewrite Hpair by done. cbn [res_bind]. destruct pending as [t|].
    + destruct Hp as (k' & Ht & Hlt & Hlk' & Hpk' & Hne & Hi).
      assert (field (with_seeds p (Some s) (Some t)) _PENDING_PRIVATE_SEED = PBytes t) as -> by (unfold field, with_seeds; by look_fields).
      assert (field p _PENDING_PUBLIC_KEY = PBytes k') as -> by (unfold field; by rewrite Hpk').
      unfold install_pending. cbn [is_none]. rewrite Hpair by done. cbn [res_bind]. rewrite bool_decide_eq_false_2 by done. cbn [res_bind].
      unfold check_intent. destruct (p !! _ROTATION_DISPATCH_INTENT) as [raw|]; [|done]. destruct (Hi raw eq_refl) as (i & -> & Hpred & Hsucc). cbn [res_bind]. rewrite Hpred, Hsucc.
      by rewrite !bool_decide_eq_true_2.
    + destruct Hp as [Hp Hi]. assert (field (with_seeds p (Some s) None) _PENDING_PRIVATE_SEED = PNone) as -> by (unfold field, with_seeds; look_fields; by rewrite A2).
      unfold install_pending. rewrite Hp. cbn [is_none negb res_bind]. unfold check_intent. by rewrite Hi.
  - destruct Hk as (-> & H1' & H2' & Hi). unfold with_seeds. unfold field in *. rewrite A1, A2, H1', H2', Hi. done.
Qed.

(** * Making a session *)

(** A session made for a payload: its fields, its byte arrays, its file untouched. *)
Lemma new_wallet_fields path dek payload envelope minutes m :
  wwp (new_wallet path dek payload envelope minutes) (fun r m' => match r with
    | Ok _ => exists rest seed pending, _install_secret_material payload = Ok (rest, seed, pending) /\
        core (m_self m') = (path, Some dek, wl_secret (m_self m'), wl_pending (m_self m'), rest, envelope) /\
        in_heap (m_heap m') (wl_secret (m_self m')) seed /\ in_heap (m_heap m') (wl_pending (m_self m')) pending /\
        (forall a b, m_heap m !! a = Some b -> m_heap m' !! a = Some b) /\ files m' = files m
    | Err e => exists e', _install_secret_material payload = Err e' end) m.
Proof.
  unfold new_wallet. apply wwp_bind, wwp_lift. destruct (_install_secret_material payload) as [[[rest seed] pending]|e]; [|by eexists].
  assert (forall (o : option bytes) m, wwp (match o with Some s => let& a := new_bytearray s in wret (Some a) | None => wret None end)
    (fun r m' => exists x, r = Ok x /\ in_heap (m_heap m') x o /\ (forall a b, m_heap m !! a = Some b -> m_heap m' !! a = Some b) /\ files m' = files m) m) as Hnew.
  { intros [s|] m0; [|by exists None]. apply wwp_bind. unfold wwp. cbn. eexists. split; [done|]. cbn. rewrite lookup_app_r, Nat.sub_diag by lia. split; [done|].
    split; [|done]. intros a b Hb. by apply lookup_app_l_Some. }
  apply wwp_bind. eapply wwp_mono; [apply (Hnew seed)|]. intros r m1 (x & -> & Hx & Hold1 & Hf1).
  apply wwp_bind. eapply wwp_mono; [apply (Hnew pending)|]. intros r m2 (y & -> & Hy & Hold2 & Hf2).
  apply wwp_bind. eapply wwp_mono; [eapply wwp_still; [apply still_monotonic|apply monotonic_kept]|]. intros r m3 [[[t ->] [_ Hh3]] Hf3]. apply wwp_set.
  exists rest, seed, pending. cbn. rewrite Hh3. repeat (split; [done|]). split; [|split; [done|split; [auto|]]].
  - destruct x, seed; cbn in *; auto.
  - unfold files in *. cbn. congruence.
Qed.

(** An envelope that was built seals what it was built from. *)
Lemma build_seals password dek salt d wrap_nonce nonce env :
  _build_v2_envelope password dek (_kdf_header salt) (PDict d) wrap_nonce nonce = Ok env -> py_value (PDict d) = true ->
  length dek = 32%nat -> length salt = 16%nat -> length wrap_nonce = 24%nat -> length nonce = 24%nat ->
  exists pt, seals password dek d pt /\ envelope_for pt env.
Proof.
  intros Hb Hv Hd Hs Hw Hn. unfold _build_v2_envelope in Hb. rewrite (kdf_salt salt _ (or_introl eq_refl)) in Hb. cbn [res_bind] in Hb.
  rewrite b64_decode_encode in Hb by done. cbn [res_bind] in Hb. apply res_bind_ok in Hb as (kek & Hkek & Hb).
  destruct (wrap_aad_ok salt (_kdf_header salt) CURRENT_FORMAT_VERSION (or_introl eq_refl) eq_refl) as [aad Haad].
  unfold _wrap_dek in Hb. rewrite Haad in Hb. cbn [res_bind] in Hb.
  assert (length kek = 32%nat) as Hlk.
  { unfold _derive_kek in Hkek. destruct (utf8_encode password) as [secret|]; [|done]. destruct (argon2id secret salt) eqn:Ea; [|done]. injection Hkek as <-. by eapply argon2id_length. }
  destruct (seal_ok kek wrap_nonce aad dek Hlk Hw) as (ct & tag & Hseal & Htag & Hopen). unfold _seal in Hb. rewrite Hseal in Hb. cbn [res_bind] in Hb.
  apply res_bind_ok in Hb as (box & Hbox & [= <-]). destruct (make_payload_sealed _ _ _ _ Hv Hd Hn Hbox) as (Hok & ct' & tag' & -> & Hparts).
  exists (MkParts salt wrap_nonce ct tag nonce ct' tag'). split.
  - split; try done. split; [by exists kek, aad|done].
  - left. eexists _, _, _. split; [by left|]. split; [by left|]. split; [by left|done].
Qed.

(** The seeds of a payload are not null. *)
Definition seeds_stored (p : gmap pystr pyval) : Prop := p !! f_private_seed <> Some PNone /\ p !! _PENDING_PRIVATE_SEED <> Some PNone.

Lemma install_with_seeds p rest seed pending :
  seeds_stored p -> _install_secret_material p = Ok (rest, seed, pending) -> with_seeds rest seed pending = p.
Proof.
  intros [H1' H2']. unfold _install_secret_material. set (r := delete _PENDING_PRIVATE_SEED (delete f_private_seed p)).
  assert (forall k, is_none (field p k) = true -> p !! k <> Some PNone -> p !! k = None) as Hnone.
  { intros k Hk Hne. unfold field in Hk. destruct (p !! k) as [v|] eqn:Ev; [|done]. apply is_none_true in Hk. cbn in Hk. by subst. }
  destruct (is_none (field p f_private_seed)) eqn:Es.
  - intros Hi. inv_ok. bool_hyps. unfold with_seeds, r. apply Hnone in Es; [|done].
    assert (p !! _PENDING_PRIVATE_SEED = None) as Ep by by apply Hnone. rewrite (delete_id p f_private_seed) by done. by apply delete_id.
  - intros Hi. apply res_bind_ok in Hi as ([s k] & (Hseed & _)%validate_pair_ok & Hi).
    apply res_bind_ok in Hi as (pd & Hpd & Hi). apply res_bind_ok in Hi as ([] & _ & [= <- <- <-]).
    apply field_bytes in Hseed. unfold install_pending in Hpd. destruct (is_none (field p _PENDING_PRIVATE_SEED)) eqn:Et.
    + inv_ok. cbn. unfold r. apply Hnone in Et; [|done]. rewrite delete_id by (by rewrite lookup_delete_ne). by rewrite insert_delete_eq, insert_id.
    + apply res_bind_ok in Hpd as ([t k'] & (Hpend & _)%validate_pair_ok & Hpd). inv_ok. cbn. unfold r. apply field_bytes in Hpend.
      apply map_eq. intros x. destruct (decide (x = _PENDING_PRIVATE_SEED)) as [->|]; [by rewrite lookup_insert_eq|]. rewrite lookup_insert_ne by done.
      destruct (decide (x = f_private_seed)) as [->|]; [by rewrite lookup_insert_eq|]. by rewrite lookup_insert_ne, !lookup_delete_ne.
Qed.

(** A password that satisfies the policy. *)
Definition strong (password : pystr) : Prop := _validate_password (PStr password) None = Ok password.

Lemma validate_strong password confirmation pw : _validate_password password confirmation = Ok pw -> password = PStr pw /\ strong pw.
Proof.
  unfold strong, _validate_password. destruct password as [| | | |p| | | |]; try done. destruct (length p <? _MIN_PASSWORD_LENGTH)%nat eqn:El; [done|].
  intros Hv. inv_ok. by rewrite El.
Qed.

Definition durable_as (password : pyval) (m : machine) : Prop := exists pw, password = PStr pw /\ strong pw /\ durable pw m.

Lemma create_storage_durable path password confirmation d minutes m :
  path_ok path -> settled path None (files m) -> py_value (PDict d) = true -> seeds_stored (payload_of d) ->
  wwp (_create_storage path password confirmation (PDict d) minutes) (fun r m' => match r with Ok _ => durable_as password m' | Err _ => True end) m.
Proof.
  intros Hpath Hset Hv Hseeds. unfold _create_storage. apply wwp_bind, wwp_lift. destruct (_validate_password _ _) as [pw|e] eqn:Epw; [|done].
  apply validate_strong in Epw as [-> Hstrong]. apply wwp_bind, wwp_lift. destruct (_validate_inactivity _) as [mins|e]; [|done].
  apply wwp_bind. eapply wwp_mono; [eapply wwp_still; [apply still_token_bytes|apply token_bytes_kept]|]. intros r m1 [[(key & -> & Hkey) _] Hf1].
  apply wwp_bind. eapply (wwp_mono _ (fun r m' => r = Ok (length (m_heap m1)) /\ m_heap m' !! length (m_heap m1) = Some key /\ files m' = files m1)).
  { unfold wwp, new_bytearray. cbn. by rewrite lookup_app_r, Nat.sub_diag. }
  intros r m2 (-> & Hdek2 & Hf2). set (dek := length (m_heap m1)) in *.
  apply wwp_bind. eapply wwp_mono; [eapply wwp_still; [apply still_token_bytes|apply token_bytes_kept]|]. intros r m3 [[(salt & -> & Hsalt) [_ Hh3]] Hf3].
  apply wwp_bind. eapply wwp_mono; [eapply wwp_still; [apply still_token_bytes|apply token_bytes_kept]|]. intros r m4 [[(wn & -> & Hwn) [_ Hh4]] Hf4].
  apply wwp_bind. eapply wwp_mono; [eapply wwp_still; [apply still_token_bytes|apply token_bytes_kept]|]. intros r m5 [[(pn & -> & Hpn) [_ Hh5]] Hf5].
  apply wwp_bind, wwp_attempt.
  apply (wwp_mono _ (fun r m' => match r with
    | Ok env => m_heap m' = m_heap m5 /\ exists pt raw, seals pw key d pt /\ envelope_for pt env /\ written pt raw /\ settled path (Some raw) (files m')
    | Err _ => True end)).
  { apply wwp_bind, wwp_lift. destruct (_build_v2_envelope _ _ _ _ _ _) as [env|e] eqn:Eb; [|done]. apply wwp_bind, wwp_lift.
    destruct (_serialize env) as [raw|e] eqn:Er; [|done]. apply wwp_bind.
    destruct (build_seals _ _ _ _ _ _ _ Eb Hv Hkey Hsalt Hwn Hpn) as (pt & Hseals & Henv).
    assert (settled path None (files m5)) as Hset5 by by rewrite Hf5, Hf4, Hf3, Hf2, Hf1.
    destruct Hpath as [Hp Hvn]. pose proof (wp_atomic_write path None raw false (files m5) Hp Hvn Hset5 (m_world m5) eq_refl) as [Hw _].
    unfold wwp at 1, wio. destruct (_atomic_write path raw false (m_world m5)) as [[[]|e] w]; cbn [fst snd] in Hw |- *; [|done].
    apply wwp_ret. split; [done|]. exists pt, raw. split; [done|]. split; [done|]. split; [by eapply envelope_serialized|apply Hw]. }
  intros [env|e] m6 Hr.
  2: { unfold undo_creation. apply wwp_bind, wwp_bind, wwp_set. done. }
  destruct Hr as (Hh6 & pt & raw & Hseals & Henv & Hw & Hset6). apply wwp_bind, wwp_attempt.
  eapply wwp_mono; [apply new_wallet_fields|]. intros [[]|e] m7 Hr.
  2: { unfold undo_creation, wwp, wbind, wfail. by destruct (wio _ _) as [[]]. }
  apply wwp_ret. exists pw. split; [done|]. split; [done|]. destruct Hr as (rest & seed & pending & Hinst & Hcore & Hs & Hp & Hold & Hf7).
  apply install_with_seeds in Hinst as Hrest; [|done]. pose proof Hcore as [= Epath Ed Epl Ee].
  destruct (value_ok_payload d (sl_value _ _ _ _ Hseals)) as [_ Hpy].
  eapply (durable_new pw m7 dek key seed pending); rewrite ?Epath, ?Ed, ?Epl, ?Ee, ?Hf7; try done.
  - apply Hold. by rewrite Hh6, Hh5, Hh4, Hh3.
  - assert (rest = delete _PENDING_PRIVATE_SEED (delete f_private_seed (payload_of d))) as ->.
    { clear -Hinst. unfold _install_secret_material in Hinst. destruct (is_none _); [by inv_ok|].
      apply res_bind_ok in Hinst as ([s k] & _ & Hinst). apply res_bind_ok in Hinst as (pd & _ & Hinst). by apply res_bind_ok in Hinst as ([] & _ & [= <- _ _]). }
    by do 2 apply map_Forall_delete.
  - rewrite Hrest. exists pt, d. split; [done|]. split; [done|]. split; [done|]. by exists raw.
Qed.

Lemma create_durable path password confirmation payload minutes m :
  path_ok path -> settled path None (files m) -> py_value payload = true ->
  wwp (create path password confirmation payload minutes) (fun r m' => match r with Ok _ => durable_as password m' | Err _ => True end) m.
Proof.
  intros Hpath Hset Hv. unfold create. destruct payload as [| | | | | | |d|]; try done. destruct (has_signing_fields d) eqn:Ed; [done|].
  apply create_storage_durable; try done. split; rewrite (payload_of_field d) by (done || unfold _SIGNING_FIELDS; rewrite !elem_of_cons; auto 10); done.
Qed.

Lemma create_generated_durable path password confirmation minutes m :
  quiet [] m -> path_ok path -> settled path None (files m) ->
  wwp (create_with_generated_key path password confirmation minutes) (fun r m' => match r with Ok _ => durable_as password m' | Err _ => True end) m.
Proof.
  intros Hq Hpath Hset. unfold create_with_generated_key, generate_seed. apply wwp_bind, wwp_bind.
  eapply wwp_mono; [eapply wwp_still; [apply still_token_bytes|apply token_bytes_kept]|]. intros r m1 [[(b & -> & Hb) Hk1] Hf1].
  apply wwp_bind, wwp_lift. unfold Signer._generate_seed. rewrite Hb, Nat.eqb_refl. cbn [negb].
  eapply wwp_mono; [eapply wwp_still; [apply still_new_bytearray|apply (new_bytearray_quiet []); by eapply quiet_kept]|].
  intros r m2 [(-> & Hq2 & _) Hf2]. set (id := length (m_heap m1)) in *. unfold wfinally. apply wwp_bind, wwp_attempt.
  apply (wwp_mono _ (fun r m' => match r with Ok _ => durable_as password m' /\ id ∉ secrets (m_self m') | Err _ => True end)).
  { apply wwp_bind, wwp_get, wwp_bind, wwp_lift. destruct (Signer._public_key_from_seed _) as [k|e]; [|done].
    set (d := [_; _]). pose proof (create_storage_durable path password confirmation d minutes m2 Hpath) as Hc.
    pose proof (create_storage_spec [id] path password confirmation (PDict d) minutes m2 Hq2) as Ho.
    unfold wwp in *. destruct (_create_storage _ _ _ _ _ m2) as [[[]|e] m3]; cbn [fst snd] in *; [|done]. split.
    - apply Hc; [by rewrite Hf2, Hf1| |].
      + cbn. by rewrite bool_decide_eq_true_2 by (apply (bool_decide_unpack _); done).
      + split; unfold d; cbn [payload_of]; by look_fields.
    - apply Ho. by left. }
  intros [[]|e] m3 Hr; apply wwp_bind, wwp_set; cbn beta iota; [|done]. destruct Hr as [(pw & -> & Hs & Hd) Hid].
  exists pw. split; [done|]. split; [done|]. by apply durable_wipe.
Qed.

(** * Opening the file again *)

Definition held (m : machine) (o : option nat) : option bytes := o ≫= fun a => m_heap m !! a.

(** [m'] has the session of [m], its payload with the items of every map in key order. *)
Record restored (m m' : machine) : Prop := {
  rs_path : wl_path (m_self m') = wl_path (m_self m);
  rs_unlocked : unlocked m';
  rs_dek : held m' (wl_dek (m_self m')) = held m (wl_dek (m_self m));
  rs_secret : held m' (wl_secret (m_self m')) = held m (wl_secret (m_self m));
  rs_pending : held m' (wl_pending (m_self m')) = held m (wl_pending (m_self m));
  rs_payload : wl_payload (m_self m') = value_sort <$> wl_payload (m_self m);
}.

Lemma in_heap_held m o v : in_heap (m_heap m) o v -> held m o = v.
Proof. unfold held. destruct o, v; cbn; try done. Qed.

Lemma reopen_read_spec path m :
  wwp (wio (_read path)) (fun r m' => (m_self m' = m_self m /\ m_heap m' = m_heap m /\ files m' = files m) /\
    match r with
    | Ok b => exists raw, live (files m) path = Some raw /\ b = take (Z.to_nat (_MAX_CONTAINER_BYTES + 1)) raw
    | Err _ => w_faults (m_world m) <> [] \/ live (files m) path = None \/ valid_name path = false end) m.
Proof.
  unfold wwp, wio. pose proof (read_files path (m_world m)) as Hf. unfold files. cbn. split; [done|]. clear Hf.
  unfold _read, io_bind, attempt, read_bytes, at_name, syscall, live, entry.
  destruct (w_faults (m_world m)) as [|[] ?]; cbn; try (left; done).
  all: destruct (valid_name path); cbn; [|by right; right].
  all: destruct (fs_dir (w_fs (m_world m)) !! path) as [i|]; cbn; [|by right; left].
  all: destruct (fs_files (w_fs (m_world m)) !! i) as [b|]; cbn; [by exists b|by right; left].
Qed.

(** The file of a session, read by any process, gives the session back. *)
Lemma open_restores password m m1 minutes :
  machine_ok m -> unlocked m -> strong password -> durable password m -> quiet [] m1 ->
  live (files m1) (wl_path (m_self m)) = live (files m) (wl_path (m_self m)) ->
  wwp (open (wl_path (m_self m)) (PStr password) minutes) (fun r m' => match r with
    | Ok _ => restored m m' /\ (files m1 = files m -> durable password m')
    | Err _ => w_faults (m_world m1) <> [] \/ (forall n, _validate_inactivity minutes <> Ok n) \/
        exists raw, live (files m) (wl_path (m_self m)) = Some raw /\ _MAX_CONTAINER_BYTES < Z.of_nat (length raw) end) m1.
Proof.
  intros Hm Hu Hstrong Hd Hq Hlive. destruct (durable_session password m Hm Hu Hd) as (dk & dek & seed & pending & Edk & Hdek & Hs & Hp & Hpy & Hpath & Hv & Hk).
  destruct Hv as (pt & d & Hseals & Hcont & Henv & raw & Hraw & Hset). apply settled_live in Hset as Hliv. rewrite Hliv in Hlive |- *.
  unfold open. apply wwp_bind, wwp_lift. rewrite Hstrong. apply wwp_bind, wwp_lift.
  destruct (_validate_inactivity minutes) as [mins|e]; [|by right; left]. apply wwp_bind. unfold _read_envelope. apply wwp_bind.
  eapply wwp_mono; [apply reopen_read_spec|]. rewrite Hlive. intros [b|e] m2 [(Eself2 & Eheap2 & Ef2) Hr].
  2: { destruct Hr as [|[|Hn]]; [by left|done|]. destruct Hpath as [_ Hvn]. by rewrite Hvn in Hn. }
  destruct Hr as (raw' & [= <-] & ->). apply wwp_lift. destruct (Z.ltb_spec _MAX_CONTAINER_BYTES (Z.of_nat (length raw))) as [Hbig|Hsmall].
  { replace (_parse_container _ _) with (Err (A:=json) InvalidContainer); [right; right; by exists raw|].
    rewrite parse_container_unfold. rewrite length_take. destruct (Z.ltb_spec _MAX_CONTAINER_BYTES (Z.of_nat (Z.to_nat (_MAX_CONTAINER_BYTES + 1) `min` length raw))); [done|lia]. }
  rewrite take_ge by lia. destruct (written_opens password dek d pt raw Hseals Hraw Hsmall) as (d' & -> & Hunlock & Hd').
  assert (payload_of d' = with_seeds (value_sort <$> wl_payload (m_self m)) seed pending) as Hpd by by rewrite Hd', Hcont, with_seeds_sorted.
  pose proof (keys_ok_sorted _ _ _ Hpy Hk) as Hks. apply wwp_bind. unfold unlock_counted. rewrite Hunlock. apply wwp_bind.
  apply (wwp_mono _ (fun r m' => exists a, r = Ok a /\ m_heap m' !! a = Some dek /\ files m' = files m2)).
  { unfold wwp, new_bytearray. cbn. eexists. split; [done|]. by rewrite lookup_app_r, Nat.sub_diag. }
  intros r m3 (a & -> & Ha & Ef3). apply wwp_bind, wwp_set, wwp_ret. cbn beta iota. eapply wwp_mono; [apply new_wallet_fields|].
  intros [[]|e] m4 Hr; [|destruct Hr as [e' He]; rewrite Hpd, install_stored in He by done; done].
  destruct Hr as (rest & seed' & pending' & Hinst & Hcore & Hs4 & Hp4 & Hold & Hf4). rewrite Hpd, install_stored in Hinst by done. injection Hinst as <- <- <-.
  pose proof Hcore as [= Epath Ed Epl Ee]. assert (m_heap m4 !! a = Some dek) as Ha4 by by apply Hold. split.
  - split; [done|unfold unlocked; by rewrite Ed| | | |done].
    + rewrite Ed, Edk. unfold held. cbn. congruence.
    + by rewrite (in_heap_held _ _ _ Hs4), (in_heap_held _ _ _ Hs).
    + by rewrite (in_heap_held _ _ _ Hp4), (in_heap_held _ _ _ Hp).
  - intros Ef1. eapply (durable_new password m4 a dek seed pending); rewrite ?Epath, ?Ed, ?Epl, ?Ee; try done.
    + intros k v. rewrite lookup_fmap. intros (v0 & Hv0 & ->)%fmap_Some. destruct (Hpy k v0 Hv0) as [Hk0 _]. split; [done|].
      apply py_value_sort. by eapply Hpy.
    + assert (value_sort <$> with_seeds (value_sort <$> wl_payload (m_self m)) seed pending = value_sort <$> payload_of d) as Heq.
      { rewrite Hcont, <-with_seeds_sorted, <-map_fmap_compose. apply map_fmap_ext. intros k v _. apply value_sort_idem. }
      exists pt, d. split; [done|]. split; [done|]. split; [by right|]. exists raw. split; [done|].
      rewrite Hf4. unfold files in *. cbn. by rewrite Ef3, Ef2, Ef1.
Qed.

(** * A wallet's life *)

(** The password of the file after a call. *)
Definition next_password (x : method) (r : res unit) (password : pystr) : pystr :=
  match x, r with ChangePassword (PStr new) _, Ok _ => new | _, _ => password end.

(** Arguments are Python values; a consent callback leaves file and session in step. *)
Definition call_ok (x : method) : Prop :=
  match x with
  | BindEnvironment _ (Some ask) => consent_stable ask /\ forall password, consent_durable password ask
  | UpdatePayload payload => py_value payload = true
  | _ => True
  end.

Lemma call_callback x : call_ok x -> callback_ok x.
Proof. destruct x; try done. cbn. destruct consent; [|done]. by intros []. Qed.

Lemma method_durable x m password :
  machine_ok m -> call_ok x -> strong password -> durable password m ->
  let r := run_method x m in strong (next_password x r.1 password) /\ durable (next_password x r.1 password) r.2.
Proof.
  intros Hm Hx Hstrong Hd. assert (forall m', idle [] m m' -> files m' = files m -> durable password m') as Hidle by (intros; by eapply durable_idle).
  destruct x; cbn [run_method next_password]; try (split; [exact Hstrong|]); try exact Hd.
  all: try (apply wwp_forget; apply idle_keeps; [first [apply still_check_inactivity|apply still_public_key|apply still_create_signer|apply still_dispatch_intent|apply still_pending_key|apply still_export]|done|];
    eapply wwp_mono; [first [by apply check_inactivity_spec|by apply public_key_spec|by apply create_signer_spec|by apply dispatch_intent_spec|by apply pending_key_spec|by apply export_spec]|];
    intros [?|?] m' Hr; try exact Hr; left; apply Hr).
  all: try (apply wwp_forget; first [by apply prepare_keeps|by apply latch_keeps|by apply finalize_keeps]).
  all: try (apply wwp_state; first [by apply resolve_keeps|by apply cancel_keeps|by apply update_payload_keeps]).
  - pose proof (last_activity_same m) as Hl. unfold forget, wbind. destruct (last_activity m) as [[?|?] ?]; cbn in *; by subst.
  - apply durable_locked. by destruct (lock_wiped m) as (-> & _).
  - apply durable_locked. unfold background. by destruct (lock_wiped m) as (-> & _).
  - apply wwp_state, idle_keeps; [apply still_prove|done|]. eapply wwp_mono; [by apply prove_spec|]. intros [?|?] m' Hr; [by left|exact Hr].
  - apply wwp_forget. apply bind_keeps; [done| |done]. intros ask ->. destruct Hx as [Hs Hc]. split; [done|apply Hc].
  - pose proof (change_password_keeps password password0 confirmation m Hm Hd) as Hc. unfold wwp in Hc.
    destruct (change_password password0 confirmation m) as [[[]|e] m']; cbn [fst snd] in *; [|by destruct password0].
    destruct Hc as (new & -> & Hs & Hd'). done.
Qed.

(** Sessions of a wallet whose file has the given password: it was created where no file
    was; its methods were called; or its file was opened again. *)
Inductive lineage : pystr -> machine -> Prop :=
  | lin_create path password confirmation payload minutes m m' :
      machine_ok m -> wl_dek (m_self m) = None -> path_ok path -> settled path None (files m) -> py_value payload = true ->
      run_factory (Create path (PStr password) confirmation payload minutes) m = (Ok tt, m') -> lineage password m'
  | lin_generate path password confirmation minutes m m' :
      machine_ok m -> wl_dek (m_self m) = None -> path_ok path -> settled path None (files m) ->
      run_factory (CreateWithGeneratedKey path (PStr password) confirmation minutes) m = (Ok tt, m') -> lineage password m'
  | lin_method x password m :
      lineage password m -> call_ok x -> lineage (next_password x (run_method x m).1 password) (run_method x m).2
  | lin_open password minutes m m1 m' :
      lineage password m -> unlocked m -> machine_ok m1 -> wl_dek (m_self m1) = None -> files m1 = files m ->
      run_factory (Open (wl_path (m_self m)) (PStr password) minutes) m1 = (Ok tt, m') -> lineage password m'.

Lemma lineage_durable password m : lineage password m -> machine_ok m /\ strong password /\ durable password m.
Proof.
  induction 1 as [path password confirmation payload minutes m m' Hm Hn Hpath Hset Hv Hrun|path password confirmation minutes m m' Hm Hn Hpath Hset Hrun|
    x password m _ (Hm & Hs & Hd) Hx|password minutes m m1 m' _ (Hm & Hs & Hd) Hu Hm1 Hn Hf Hrun].
  - pose proof (locked_quiet m Hm Hn) as Hq. cbn [run_factory] in Hrun.
    pose proof (create_durable path (PStr password) confirmation payload minutes m Hpath Hset Hv) as Hc.
    pose proof (create_spec [] path (PStr password) confirmation payload minutes m Hq) as Ho. unfold wwp in Hc, Ho. rewrite Hrun in Hc, Ho.
    destruct Hc as (pw & [= <-] & Hs & Hd). split; [by apply opened_ok|done].
  - pose proof (locked_quiet m Hm Hn) as Hq. cbn [run_factory] in Hrun.
    pose proof (create_generated_durable path (PStr password) confirmation minutes m Hq Hpath Hset) as Hc.
    pose proof (create_generated_spec path (PStr password) confirmation minutes m Hq) as Ho. unfold wwp in Hc, Ho. rewrite Hrun in Hc, Ho.
    destruct Hc as (pw & [= <-] & Hs & Hd). split; [by apply opened_ok|done].
  - split; [|by apply method_durable]. destruct (method_spec x m Hm (call_callback x Hx)) as [[Hok _]|(c & _ & Hok & _)]; done.
  - pose proof (locked_quiet m1 Hm1 Hn) as Hq. cbn [run_factory] in Hrun. assert (live (files m1) (wl_path (m_self m)) = live (files m) (wl_path (m_self m))) as Hl by by rewrite Hf.
    pose proof (open_restores password m m1 minutes Hm Hu Hs Hd Hq Hl) as Hc. pose proof (open_spec (wl_path (m_self m)) (PStr password) minutes m1 Hq) as Ho.
    unfold wwp in Hc, Ho. rewrite Hrun in Hc, Ho. split; [by apply opened_ok|]. split; [done|]. by apply Hc.
Qed.

(** C27. What a session holds survives it.  Take a wallet that was created, and any sequence
    of calls of its methods, failing ones included, and of openings of its file.  Whenever the
    session is unlocked, opening its file with the current password, in a process of the
    machine as it is or after a crash, succeeds when the file can be read and is within the
    size limit, and gives back the session: the same data key, the same active and pending
    seeds, and the same payload up to the order of items in maps. *)
Theorem reopening_restores password m m1 minutes :
  lineage password m -> unlocked m -> machine_ok m1 -> wl_dek (m_self m1) = None -> w_faults (m_world m1) = [] ->
  (files m1 = files m \/ crash_value (files m) (wl_path (m_self m)) (live (files m1) (wl_path (m_self m)))) ->
  (forall raw, live (files m1) (wl_path (m_self m)) = Some raw -> Z.of_nat (length raw) <= _MAX_CONTAINER_BYTES) -> 1 <= minutes <= 15 ->
  let r := run_factory (Open (wl_path (m_self m)) (PStr password) (PInt minutes)) m1 in r.1 = Ok tt /\ restored m r.2.
Proof.
  intros (Hm & Hs & Hd)%lineage_durable Hu Hm1 Hn Hfaults Hcrash Hsize Hmin. pose proof (locked_quiet m1 Hm1 Hn) as Hq.
  assert (live (files m1) (wl_path (m_self m)) = live (files m) (wl_path (m_self m))) as Hl.
  { destruct Hcrash as [->|Hc]; [done|]. destruct Hu as [d Ed]. destruct (Hd d Ed) as (dek & seed & pending & _ & _ & _ & _ & _ & pt & dd & _ & _ & _ & raw & _ & Hset).
    rewrite (settled_live _ _ _ Hset). symmetry. exact (reads_crash _ _ _ _ Hset Hc). }
  pose proof (open_restores password m m1 (PInt minutes) Hm Hu Hs Hd Hq Hl) as Hc. unfold wwp in Hc. cbn [run_factory].
  destruct (open (wl_path (m_self m)) (PStr password) (PInt minutes) m1) as [[[]|e] m']; cbn [fst snd] in *; [split; [done|apply Hc]|].
  destruct Hc as [Hc|[Hc|(raw & Hraw & Hbig)]]; [done| |].
  - destruct (Hc minutes). unfold _validate_inactivity. by rewrite (proj2 (Z.leb_le 1 minutes)), (proj2 (Z.leb_le minutes 15)) by lia.
  - rewrite <-Hl in Hraw. apply Hsize in Hraw. lia.
Qed.
End Reopen.
