(* ===== verification/DesktopCli.v ===== *)
(** The desktop command line (desktop_cli.py): passwords from a terminal, backups from
    files, one wallet operation per run, and what is printed.

    The command that [argparse] recognises is an argument of [main]. *)

From stdpp Require Import gmap.
From S2P Require Import Prelude PyVal Sha256 Interfaces SignedUpdate Rotation Signer Base64 Json Container Storage WalletState Wallet.

Open Scope Z_scope.

(** * A process with a terminal *)

(** [c_typed] is what is typed at the prompts, [None] for a prompt that fails; [c_faults]
    says which calls of [print] fail. *)
Record console := MkConsole {
  c_machine : machine;
  c_isatty : bool;
  c_typed : list (option pystr);
  c_stdout : list pystr;
  c_stderr : list pystr;
  c_faults : list bool;
}.

Definition set_machine (m : machine) (c : console) : console :=
  MkConsole m (c_isatty c) (c_typed c) (c_stdout c) (c_stderr c) (c_faults c).

(** [_CliInputError], or an exception of the code below. *)
Inductive cli_exn :=
  | _CliInputError (message : pystr)
  | Raised (e : exn).

Inductive cli_res (A : Type) :=
  | Done (a : A)
  | Failed (e : cli_exn).
Arguments Done {A} a.
Arguments Failed {A} e.

Definition C (A : Type) : Type := console -> cli_res A * console.

Definition cret {A} (a : A) : C A := fun c => (Done a, c).
Definition cfail {A} (e : cli_exn) : C A := fun c => (Failed e, c).
Definition cbind {A B} (p : C A) (k : A -> C B) : C B :=
  fun c => match p c with (Done a, c') => k a c' | (Failed e, c') => (Failed e, c') end.
Definition cattempt {A} (p : C A) : C (cli_res A) := fun c => let r := p c in (Done r.1, r.2).

Definition raised {A} (r : res A) : cli_res A := match r with Ok a => Done a | Err e => Failed (Raised e) end.

(** A call into the wallet, and into the file system. *)
Definition call_wallet {A} (p : W A) : C A := fun c => let r := p (c_machine c) in (raised r.1, set_machine r.2 c).

Declare Scope cli_scope.
Delimit Scope cli_scope with cli.
Notation "'let$' x := m 'in' k" := (cbind m (fun x => k))
  (at level 10, x pattern, m at level 100, k at level 200) : cli_scope.
Open Scope cli_scope.

Definition cfinally {A} (p : C A) (q : C unit) : C A :=
  let$ r := cattempt p in
  let$ _ := q in
  fun c => (r, c).

Definition put_line (error : bool) (line : pystr) (c : console) : console :=
  MkConsole (c_machine c) (c_isatty c) (c_typed c)
    (if error then c_stdout c else c_stdout c ++ [line]) (if error then c_stderr c ++ [line] else c_stderr c) (tail (c_faults c)).

(** [print(line)] and [print(line, file=sys.stderr)] *)
Definition print (error : bool) (line : pystr) : C unit := fun c =>
  match c_faults c with
  | true :: faults => (Failed (Raised OSError), MkConsole (c_machine c) (c_isatty c) (c_typed c) (c_stdout c) (c_stderr c) faults)
  | _ => (Done tt, put_line error line c)
  end.

(** [getpass.getpass(...)]; [None] when it raises what the caller catches. *)
Definition getpass : C (option pystr) := fun c =>
  let rest := MkConsole (c_machine c) (c_isatty c) (tail (c_typed c)) (c_stdout c) (c_stderr c) (c_faults c) in
  (Done (match c_typed c with Some line :: _ => Some line | _ => None end), rest).

(** * Input *)

Definition _read_password : C pystr :=
  let$ tty := fun c => (Done (c_isatty c), c) in
  if negb (tty : bool) then cfail (_CliInputError (py "password input requires an interactive terminal"))
  else
    let$ line := getpass in
    match line with
    | Some password => cret password
    | None => cfail (_CliInputError (py "password input requires a secure terminal"))
    end.

(** The commands, as they are parsed. *)
Inductive command :=
  | CmdCreate (wallet : pystr)
  | CmdImport (wallet backup : pystr)
  | CmdExport (wallet backup : pystr)
  | CmdMigrate (wallet : pystr).

(** * Commands *)

Section Commands.
Context `{PyFloat} `{Kdf} `{Aead} `{Ed25519}.

(** Whether a path names a regular file. *)
Variable is_regular : pystr -> bool.

(** [path.stat()]: whether the file is regular, and its size. *)
Definition stat (path : pystr) : IO (bool * Z) :=
  at_name path (fun s =>
    let* i := entry s path in
    let* b := of_option OSError (fs_files s !! i) in
    Ok ((is_regular path, Z.of_nat (length b)), s)).

(** The [try] block reports every [OSError] alike. *)
Definition could_not_read {A} (r : cli_res A) : cli_res A :=
  match r with
  | Failed (Raised e) => if is_OSError e then Failed (_CliInputError (py "backup could not be read")) else r
  | _ => r
  end.

Definition _read_backup (path : pystr) : C bytes :=
  let$ r := cattempt (
    let$ (regular, size) := call_wallet (wio (stat path)) in
    if negb regular || (_MAX_CONTAINER_BYTES <? size) then cfail (_CliInputError (py "backup is not a supported regular file"))
    else
      let$ data := call_wallet (wio (read_bytes path)) in
      cret (take (Z.to_nat (_MAX_CONTAINER_BYTES + 1)) data)) in
  let$ data := fun c => (could_not_read r, c) in
  if _MAX_CONTAINER_BYTES <? Z.of_nat (length data) then cfail (_CliInputError (py "backup exceeds the supported size")) else cret data.

Definition _with_locked_session (message : pystr) (action : C unit) : C unit :=
  cfinally (let$ _ := action in print false message) (call_wallet lock).

Definition default_minutes : pyval := PInt 5.

Definition _run_create (wallet_path : pystr) : C unit :=
  let$ password := _read_password in
  let$ confirmation := _read_password in
  let$ _ := call_wallet (create_with_generated_key wallet_path (PStr password) (PStr confirmation) default_minutes) in
  _with_locked_session (py "wallet created") (cret tt).

Definition _run_import (wallet_path backup_path : pystr) : C unit :=
  let$ backup := _read_backup backup_path in
  let$ password := _read_password in
  let$ _ := call_wallet (import_container wallet_path (PBytes backup) (PStr password) default_minutes) in
  _with_locked_session (py "wallet imported") (cret tt).

Definition write_export (backup_path : pystr) : C unit :=
  let$ data := call_wallet export_container in
  call_wallet (wio (_atomic_write backup_path data false)).

Definition _run_export (wallet_path backup_path : pystr) : C unit :=
  let$ password := _read_password in
  let$ _ := call_wallet (open wallet_path (PStr password) default_minutes) in
  _with_locked_session (py "encrypted backup exported") (write_export backup_path).

Definition _run_migrate (wallet_path : pystr) : C unit :=
  let$ password := _read_password in
  let$ _ := call_wallet (migrate_container wallet_path (PStr password) default_minutes) in
  _with_locked_session (py "wallet migrated to v2") (cret tt).

Definition error_message (error : cli_exn) : pystr :=
  match error with
  | _CliInputError message => message
  | Raised UnlockFailed => py "wallet unlock failed"
  | Raised UnsupportedFormat => py "unsupported wallet-container format"
  | Raised InvalidContainer => py "invalid wallet container"
  | Raised PasswordPolicyError => py "password rejected by wallet policy"
  | Raised StorageOutcomeUnknown => py "wallet storage outcome is unknown; stop and inspect before continuing"
  | Raised StorageFailure => py "wallet storage operation failed"
  | Raised e => if is_WalletError e then py "wallet operation failed" else py "desktop wallet operation failed"
  end.

Definition _report_error (error : cli_exn) : C Z :=
  let$ _ := print true (error_message error) in
  cret 1.

Definition run_command (args : command) : C unit :=
  match args with
  | CmdCreate wallet => _run_create wallet
  | CmdImport wallet backup => _run_import wallet backup
  | CmdExport wallet backup => _run_export wallet backup
  | CmdMigrate wallet => _run_migrate wallet
  end.

Definition main (args : command) : C Z :=
  let$ r := cattempt (run_command args) in
  match r with
  | Done _ => cret 0
  | Failed error => _report_error error
  end.
End Commands.
