(* ===== verification/CliFacts.v ===== *)
(** What a run of the command line leaves: one report, no open session and no secret in
    memory, and an export that is exactly the wallet's file. *)

From stdpp Require Import gmap.
From S2P Require Import Prelude PyVal Sha256 Interfaces SignedUpdate Rotation Signer Base64 Json Container ContainerSafety Storage StorageFacts WalletState Wallet WalletFacts WalletRotationFacts WalletOpenFacts DesktopCli.

Open Scope Z_scope.

(** * Reasoning about commands *)

Definition cwp {A} (p : C A) (Q : cli_res A -> console -> Prop) (c : console) : Prop := Q (p c).1 (p c).2.

Lemma cwp_mono {A} (p : C A) (Q Q' : cli_res A -> console -> Prop) c : cwp p Q c -> (forall r c', Q r c' -> Q' r c') -> cwp p Q' c.
Proof. unfold cwp. auto. Qed.

Lemma cwp_bind {A B} (p : C A) (k : A -> C B) (Q : cli_res B -> console -> Prop) c :
  cwp p (fun r c' => match r with Done a => cwp (k a) Q c' | Failed e => Q (Failed e) c' end) c -> cwp (cbind p k) Q c.
Proof. unfold cwp, cbind. by destruct (p c) as [[a|e] c']. Qed.

Lemma cwp_attempt {A} (p : C A) (Q : cli_res (cli_res A) -> console -> Prop) c : cwp p (fun r => Q (Done r)) c -> cwp (cattempt p) Q c.
Proof. done. Qed.

Lemma cwp_wallet {A} (p : W A) (Q : cli_res A -> console -> Prop) c :
  wwp p (fun r m' => Q (raised r) (set_machine m' c)) (c_machine c) -> cwp (call_wallet p) Q c.
Proof. done. Qed.

(** Nothing was printed. *)
Definition silent (c c' : console) : Prop := c_stdout c' = c_stdout c /\ c_stderr c' = c_stderr c.

Lemma set_machine_silent m c : silent c (set_machine m c).
Proof. done. Qed.

Lemma silent_trans c1 c2 c3 : silent c1 c2 -> silent c2 c3 -> silent c1 c3.
Proof. unfold silent. intros [] []. split; congruence. Qed.

Lemma read_password_spec c : cwp _read_password (fun r c' => silent c c' /\ c_machine c' = c_machine c) c.
Proof.
  unfold _read_password, cwp, cbind, getpass. destruct (c_isatty c); cbn; [|done]. destruct (c_typed c) as [|[line|] typed]; done.
Qed.

Section Facts.
Context `{PyFloat} `{Kdf} `{Aead} `{!Ed25519} `{!Ed25519Laws}.
Variable is_regular : pystr -> bool.

Lemma wio_kept {A} (p : IO A) m : wwp (wio p) (fun _ m' => kept m m') m.
Proof. by split. Qed.

Lemma read_backup_spec path c : cwp (_read_backup is_regular path) (fun r c' => silent c c' /\ kept (c_machine c) (c_machine c')) c.
Proof.
  unfold _read_backup. apply cwp_bind, cwp_attempt. apply (cwp_mono _ (fun r c' => silent c c' /\ kept (c_machine c) (c_machine c'))).
  - apply cwp_bind, cwp_wallet. eapply wwp_mono; [apply wio_kept|]. intros [[regular size]|e] m1 Hk1; [|by split]. cbn [raised].
    destruct (_ || _); [by split|]. apply cwp_bind, cwp_wallet. eapply wwp_mono; [apply wio_kept|]. intros r m2 Hk2.
    assert (kept (c_machine c) m2) as Hk by by eapply kept_trans. by destruct r.
  - intros r c' Hr. apply cwp_bind. unfold cwp at 1. cbn. destruct (could_not_read r); [|done]. by destruct (_ <? _).
Qed.

(** The [finally] of a session: the session is locked whatever happens. *)
Lemma lock_from_ok m : machine_ok m -> wwp lock (fun r m' => r = Ok tt /\ quiet [] m') m.
Proof.
  intros [_ Hc]. eapply wwp_mono; [by apply (lock_shut []), clean_nil|]. intros r m' [-> (Hl & Hc' & _)]. split; [done|].
  split; [by rewrite Hl|]. split; [by apply locked_session|]. by split.
Qed.

(** The session was closed and, when nothing failed, the message printed. *)
Definition session_closed (message : pystr) (c : console) (r : cli_res unit) (c' : console) : Prop :=
  quiet [] (c_machine c') /\ c_stderr c' = c_stderr c /\
  c_stdout c' = c_stdout c ++ match r with Done _ => [message] | Failed _ => [] end.

Lemma with_locked_session_spec message action c0 c :
  silent c0 c -> cwp action (fun r c' => silent c c' /\ machine_ok (c_machine c')) c ->
  cwp (_with_locked_session message action) (session_closed message c0) c.
Proof.
  intros [Ho0 He0] Ha. unfold _with_locked_session, cfinally. apply cwp_bind, cwp_attempt.
  apply (cwp_mono _ (fun r c' => machine_ok (c_machine c') /\ c_stderr c' = c_stderr c /\
    c_stdout c' = c_stdout c ++ match r with Done _ => [message] | Failed _ => [] end)).
  - apply cwp_bind. eapply cwp_mono; [exact Ha|]. intros [[]|e] c1 [[Ho He] Hok]; [|by rewrite app_nil_r]. unfold cwp, print.
    destruct (c_faults c1) as [|[] faults]; cbn; rewrite ?Ho, ?app_nil_r; done.
  - intros r c1 (Hok & Herr & Hout). apply cwp_bind, cwp_wallet. eapply wwp_mono; [by apply lock_from_ok|]. intros r' m' [-> Hq].
    unfold cwp, session_closed. cbn. by rewrite Herr, Hout, Ho0, He0.
Qed.

(** A command that made a session, or failed to and left nothing. *)
Lemma made_session_spec (p : W unit) message c0 c :
  silent c0 c -> wwp p (opened_or_quiet []) (c_machine c) ->
  cwp (let$ _ := call_wallet p in _with_locked_session message (cret tt)) (session_closed message c0) c.
Proof.
  intros Hs Hp. apply cwp_bind, cwp_wallet. eapply wwp_mono; [exact Hp|]. intros [[]|e] m' Hr; cbn [raised].
  - apply with_locked_session_spec; [exact Hs|]. split; [done|by apply opened_ok].
  - destruct Hs. split; [done|]. cbn. by rewrite app_nil_r.
Qed.

(** A prompt before the rest of a command. *)
Lemma prompted_spec (k : pystr -> C unit) (Q : cli_res unit -> console -> Prop) c0 c :
  silent c0 c -> (forall e c', silent c0 c' -> c_machine c' = c_machine c -> Q (Failed e) c') ->
  (forall password c', silent c0 c' -> c_machine c' = c_machine c -> cwp (k password) Q c') -> cwp (let$ x := _read_password in k x) Q c.
Proof.
  intros Hs He Hk. apply cwp_bind. eapply cwp_mono; [apply read_password_spec|]. intros [pw|e] c' [Hs' Hm].
  - apply Hk; [by eapply silent_trans|done].
  - apply He; [by eapply silent_trans|done].
Qed.

Definition success_message (args : command) : pystr :=
  match args with
  | CmdCreate _ => py "wallet created"
  | CmdImport _ _ => py "wallet imported"
  | CmdExport _ _ => py "encrypted backup exported"
  | CmdMigrate _ => py "wallet migrated to v2"
  end.

(** What a command leaves: nothing, or, when an export refuses the container, one key. *)
Definition command_outcome (args : command) (c : console) (r : cli_res unit) (c' : console) : Prop :=
  session_closed (success_message args) c r c' \/
  (exists wallet backup dek, args = CmdExport wallet backup /\ r = Failed (Raised InvalidContainer) /\ quiet [dek] (c_machine c') /\ silent c c').

Lemma failed_closed message e c c' :
  silent c c' -> quiet [] (c_machine c') -> session_closed message c (Failed e) c'.
Proof. intros [Ho He] Hq. split; [done|]. by rewrite app_nil_r. Qed.

Lemma write_export_spec backup c :
  machine_ok (c_machine c) -> cwp (write_export backup) (fun _ c' => silent c c' /\ machine_ok (c_machine c')) c.
Proof.
  intros Hok. unfold write_export. apply cwp_bind, cwp_wallet. eapply wwp_mono; [by apply export_spec|]. intros r m1 Hi.
  apply idle_stable in Hi as [Hm1 _]; [|done]. destruct r as [raw|e]; cbn [raised]; [|by split].
  apply cwp_wallet. eapply wwp_mono; [apply wio_kept|]. intros r m2 Hk. split; [done|]. by apply (kept_ok m1).
Qed.

Lemma run_command_spec args c : quiet [] (c_machine c) -> cwp (run_command is_regular args) (command_outcome args c) c.
Proof.
  intros Hq. assert (silent c c) as Hs0 by done.
  assert (forall e c', silent c c' -> c_machine c' = c_machine c -> command_outcome args c (Failed e) c') as Hfail.
  { intros e c' Hs Hm. left. apply failed_closed; [done|by rewrite Hm]. }
  destruct args as [w|w b|w b|w]; cbn [run_command].
  - apply (prompted_spec _ _ c); [done|done|]. intros pw c1 Hs1 Hm1. apply (prompted_spec _ _ c); [done|intros; apply Hfail; congruence|].
    intros conf c2 Hs2 Hm2. eapply cwp_mono; [apply (made_session_spec _ _ c); [done|]|by left]. apply create_generated_spec. by rewrite Hm2, Hm1.
  - apply cwp_bind. eapply cwp_mono; [apply read_backup_spec|]. intros [data|e] c1 [Hs1 Hk1].
    + assert (quiet [] (c_machine c1)) as Hq1 by by eapply quiet_kept. apply (prompted_spec _ _ c); [done| |].
      * intros e c' Hs Hm. left. apply failed_closed; [done|by rewrite Hm].
      * intros pw c2 Hs2 Hm2. eapply cwp_mono; [apply (made_session_spec _ _ c); [done|]|by left]. apply import_spec. by rewrite Hm2.
    + left. apply failed_closed; [done|by eapply quiet_kept].
  - apply (prompted_spec _ _ c); [done|done|]. intros pw c1 Hs1 Hm1. apply cwp_bind, cwp_wallet.
    eapply wwp_mono; [apply open_spec; by rewrite Hm1|]. intros [[]|e] m' Hr; cbn [raised].
    + eapply cwp_mono; [apply (with_locked_session_spec _ _ c); [exact Hs1|]|by left]. apply write_export_spec. by apply opened_ok.
    + destruct Hr as [Hr|(-> & dek & Hr)]; [left; by apply failed_closed|]. right. by exists w, b, dek.
  - apply (prompted_spec _ _ c); [done|done|]. intros pw c1 Hs1 Hm1. eapply cwp_mono; [apply (made_session_spec _ _ c); [done|]|by left].
    apply migrate_spec. by rewrite Hm1.
Qed.

(** * What an export writes *)

Definition files (m : machine) : fs := w_fs (m_world m).

Lemma monotonic_files m : files (monotonic m).2 = files m.
Proof. unfold monotonic. by destruct (m_clock m). Qed.

Lemma lock_files m : files (lock m).2 = files m.
Proof. unfold lock, _lock, _wipe. by destruct m as [[path [d|] [s|] [p|] ? ? ? ? ?] h]. Qed.

Lemma wwp_files {A} (p : W A) m : files (p m).2 = files m -> wwp p (fun _ m' => files m' = files m) m.
Proof. done. Qed.

(** [_touch] is about the session only. *)
Lemma touch_files m : files (_touch m).2 = files m.
Proof.
  change (wwp _touch (fun _ m' => files m' = files m) m). unfold _touch, check_inactivity, _require_unlocked, is_unlocked.
  apply wwp_bind, wwp_bind, wwp_self. cbn beta iota. destruct (bool_decide (is_Some (wl_dek (m_self m)))) eqn:Eu; cbn [negb]; [|done].
  apply wwp_ret, wwp_bind, wwp_bind, wwp_self. cbn beta iota. rewrite Eu. cbn [negb]. apply wwp_bind.
  eapply wwp_mono; [apply wwp_files, monotonic_files|]. intros [t|e] m1 E1; [|done]. apply wwp_bind, wwp_self, wwp_bind, wwp_self. destruct (_ <=? _).
  - apply wwp_bind. eapply wwp_mono; [apply wwp_files, lock_files|]. intros [[]|e] m2 E2; cbn; unfold wwp; cbn; congruence.
  - apply wwp_ret. cbn. apply wwp_bind. eapply wwp_mono; [apply wwp_files, monotonic_files|]. intros [t'|e] m2 E2; [|congruence]. apply wwp_set. cbn. unfold files in *. cbn. congruence.
Qed.

(** A container that was read is the file's contents. *)
Definition read_from (m : machine) (path : pystr) (raw : bytes) : Prop :=
  exists b, live (files m) path = Some b /\ raw = take (Z.to_nat (_MAX_CONTAINER_BYTES + 1)) b.

Lemma read_spec path m :
  wwp (wio (_read path)) (fun r m' => kept m m' /\ files m' = files m /\ forall raw, r = Ok raw -> read_from m path raw) m.
Proof.
  unfold wwp, wio, read_from, files. cbn [m_world set_world]. split; [by split|]. unfold _read, io_bind, attempt, read_bytes, at_name, syscall.
  destruct (w_faults (m_world m)) as [|[] faults]; [|cbn; done|]; cbn; destruct (valid_name path); cbn; try done;
    unfold entry, live; destruct (fs_dir _ !! path) as [i|]; cbn; try done; destruct (fs_files _ !! i) as [b|]; cbn; try done;
    (split; [done|]); intros raw [= <-]; by exists b.
Qed.

(** All of the file, since a container that parses is not too long. *)
Lemma read_parsed m path raw envelope :
  read_from m path raw -> _parse_container raw CURRENT_FORMAT_VERSION = Ok envelope -> live (files m) path = Some raw.
Proof.
  intros (b & Hb & ->) Hp. apply parse_container_ok in Hp as (Hlen & _). rewrite length_take in Hlen. rewrite take_ge; [done|].
  unfold _MAX_CONTAINER_BYTES in *. lia.
Qed.

Lemma open_files path password minutes m :
  wwp (open path password minutes) (fun r m' => files m' = files m /\ (r = Ok tt -> wl_path (m_self m') = path)) m.
Proof.
  unfold open. apply wwp_bind, wwp_lift. destruct (_validate_password _ _) as [pw|e]; [|done].
  apply wwp_bind, wwp_lift. destruct (_validate_inactivity _) as [mins|e]; [|done]. apply wwp_bind. unfold _read_envelope. apply wwp_bind.
  eapply wwp_mono; [apply read_spec|]. intros [raw|e] m1 (_ & E1 & _); [|done]. apply wwp_lift. destruct (_parse_container _ _) as [env|e]; [|done].
  apply wwp_bind. apply (wwp_mono _ (fun _ m' => files m' = files m)).
  { unfold unlock_counted. destruct (_unlock_envelope env pw CURRENT_FORMAT_VERSION) as [[dek d]|e]; [done|by destruct e]. }
  intros [[dek p]|e] m2 E2; [|done]. unfold new_wallet. apply wwp_bind, wwp_lift. destruct (_install_secret_material p) as [[[rest seed] pending]|e]; [|done].
  assert (forall o m, wwp (match o with Some s => let& a := new_bytearray s in wret (Some a) | None => wret None end)
    (fun _ m' => files m' = files m) m) as Ha by by intros [s|] m0.
  apply wwp_bind. eapply wwp_mono; [apply Ha|]. intros [a|e] m3 E3; [|split; [congruence|done]]. apply wwp_bind. eapply wwp_mono; [apply Ha|].
  intros [b|e] m4 E4; [|split; [congruence|done]]. apply wwp_bind. eapply wwp_mono; [apply wwp_files, monotonic_files|]. intros [t|e] m5 E5; [|split; [congruence|done]].
  apply wwp_set. cbn. split; [|done]. unfold files in *. cbn. congruence.
Qed.

Lemma export_files m :
  machine_ok m -> wwp export_container (fun r m' => files m' = files m /\
    forall raw, r = Ok raw -> live (files m) (wl_path (m_self m)) = Some raw /\ exists envelope, _parse_container raw CURRENT_FORMAT_VERSION = Ok envelope) m.
Proof.
  intros Hm. unfold export_container. apply wwp_bind. pose proof (touch_files m) as Hf. pose proof (touch_spec [] m) as Ht. unfold wwp at 1. unfold wwp in Ht.
  destruct (_touch m) as [[[]|e] m1]; cbn in *; [|done]. destruct Ht as [[Hc _] _]; [by apply clean_nil, Hm|]. apply wwp_bind, wwp_self.
  apply wwp_bind. eapply wwp_mono; [apply read_spec|]. intros [raw|e] m2 (_ & E2 & Hr); [|split; [congruence|done]]. apply wwp_bind, wwp_lift.
  destruct (_parse_container raw CURRENT_FORMAT_VERSION) as [env|e] eqn:Ep; [|split; [congruence|done]]. apply wwp_bind, wwp_self.
  destruct (negb _); [apply wwp_fail; split; [congruence|done]|]. apply wwp_ret. split; [congruence|]. intros raw' [= <-].
  split; [|by exists env]. injection Hc as Hpath _ _ _ _ _. rewrite <-Hpath, <-Hf. by apply (read_parsed m1 _ raw env); [apply Hr|].
Qed.

Lemma closing_files message action (P : fs -> Prop) c :
  cwp action (fun r c' => r = Done tt -> P (files (c_machine c'))) c ->
  cwp (_with_locked_session message action) (fun r c' => r = Done tt -> P (files (c_machine c'))) c.
Proof.
  intros Ha. unfold _with_locked_session, cfinally. apply cwp_bind, cwp_attempt.
  apply (cwp_mono _ (fun r c' => r = Done tt -> P (files (c_machine c')))).
  - apply cwp_bind. eapply cwp_mono; [exact Ha|]. intros [[]|e] c1 HP; [|done]. unfold cwp, print. destruct (c_faults c1) as [|[] faults]; cbn; auto.
  - intros r c1 HP. apply cwp_bind, cwp_wallet. unfold wwp. destruct (lock_wiped (c_machine c1)) as (_ & _ & ->). cbn [raised].
    change (r = Done tt -> P (files (lock (c_machine c1)).2)). rewrite lock_files. exact HP.
Qed.

(** The backup is the wallet's file, a container, under a name that was free. *)
Definition exported (wallet backup : pystr) (s s' : fs) : Prop :=
  exists raw envelope, live s wallet = Some raw /\ _parse_container raw CURRENT_FORMAT_VERSION = Ok envelope /\
  forall old, ~ temp_prefix `prefix_of` backup -> valid_name backup = true -> settled backup old s -> old = None /\ settled backup (Some raw) s'.

Lemma run_export_exact wallet backup c :
  quiet [] (c_machine c) ->
  cwp (_run_export wallet backup) (fun r c' => r = Done tt -> exported wallet backup (files (c_machine c)) (files (c_machine c'))) c.
Proof.
  intros Hq. unfold _run_export. apply (prompted_spec _ _ c); [done|done|]. intros pw c1 _ Hm1. apply cwp_bind, cwp_wallet. rewrite Hm1.
  pose proof (open_spec wallet (PStr pw) default_minutes _ Hq) as Ho. pose proof (open_files wallet (PStr pw) default_minutes (c_machine c)) as [Ef Hpath].
  unfold wwp in Ho |- *. destruct (open wallet (PStr pw) default_minutes (c_machine c)) as [[[]|e] m']; cbn [raised fst snd] in *; [|done].
  specialize (Hpath eq_refl). apply (closing_files _ _ (exported wallet backup (files (c_machine c)))). unfold write_export. apply cwp_bind, cwp_wallet.
  eapply wwp_mono; [apply export_files; by apply opened_ok|]. intros [raw|e] m2 [E2 Hr]; [|done]. cbn [raised].
  destruct (Hr raw eq_refl) as [Hlive [env Hp]]. cbn [c_machine set_machine] in *. rewrite Hpath, Ef in Hlive. apply cwp_wallet. unfold wwp, wio. cbn [fst snd].
  intros Hok. exists raw, env. split; [done|]. split; [done|]. intros old Htemp Hvalid Hset.
  destruct (wp_atomic_write backup old raw false (files m2) Htemp Hvalid) with (w := m_world m2) as [Hout _]; [by rewrite E2, Ef|done|].
  cbn [c_machine set_machine] in *. destruct (_atomic_write backup raw false (m_world m2)) as [[[]|e] w']; [|done]. cbn in Hout |- *.
  destruct Hout as [Hs [|Hold]]; [done|]. split; [done|exact Hs].
Qed.

(** * What is printed *)

(** Every line the command line can print for a failure. *)
Definition failure_lines : list pystr :=
  [py "password input requires an interactive terminal"; py "password input requires a secure terminal";
   py "backup is not a supported regular file"; py "backup could not be read"; py "backup exceeds the supported size";
   py "wallet unlock failed"; py "unsupported wallet-container format"; py "invalid wallet container";
   py "password rejected by wallet policy"; py "wallet storage outcome is unknown; stop and inspect before continuing";
   py "wallet storage operation failed"; py "wallet operation failed"; py "desktop wallet operation failed"].

Definition plain {A} (r : cli_res A) : Prop := match r with Failed e => error_message e ∈ failure_lines | Done _ => True end.

Lemma raised_plain {A} (r : res A) : plain (raised r).
Proof. destruct r as [a|e]; [done|]. cbn [raised plain]. refine (bool_decide_eq_true_1 _ _). destruct e; vm_compute; reflexivity. Qed.

Lemma plain_bind {A B} (p : C A) (k : A -> C B) c :
  plain (p c).1 -> (forall a c', plain (k a c').1) -> plain (cbind p k c).1.
Proof. unfold cbind. intros Hp Hk. destruct (p c) as [[a|e] c']; [apply Hk|exact Hp]. Qed.

Lemma plain_wallet {A} (p : W A) c : plain (call_wallet p c).1.
Proof. apply raised_plain. Qed.

Lemma plain_print error line c : plain (print error line c).1.
Proof. unfold print. destruct (c_faults c) as [|[] faults]; try done. by apply (raised_plain (A:=unit) (Err OSError)). Qed.

Lemma plain_failed {A} line (c : console) : line ∈ failure_lines -> plain (cfail (A:=A) (_CliInputError line) c).1.
Proof. done. Qed.

Ltac line := refine (bool_decide_eq_true_1 _ _); vm_compute; reflexivity.

Lemma plain_password c : plain (_read_password c).1.
Proof.
  unfold _read_password. apply plain_bind; [done|]. intros tty c1. destruct (negb tty); [apply plain_failed; line|].
  apply plain_bind; [done|]. intros [pw|] c2; [done|apply plain_failed; line].
Qed.

Lemma plain_backup path c : plain (_read_backup is_regular path c).1.
Proof.
  unfold _read_backup. match goal with |- context [cattempt ?p] => assert (forall c, plain (p c).1) as Hp end.
  { intros c1. apply plain_bind; [apply plain_wallet|]. intros [regular size] c2. destruct (_ || _); [apply plain_failed; line|].
    apply plain_bind; [apply plain_wallet|]. done. }
  unfold cbind at 1. cbn [cattempt fst snd]. apply plain_bind.
  - match goal with |- context [could_not_read (?p ?x).1] => specialize (Hp x); destruct (p x) as [[a|[line|e]] c'] end; try exact Hp.
    cbn in *. destruct (is_OSError e); [|exact Hp]. cbn. line.
  - intros data c2. destruct (_ <? _); [apply plain_failed; line|done].
Qed.

Lemma plain_session message action c : (forall c, plain (action c).1) -> plain (_with_locked_session message action c).1.
Proof.
  intros Ha. unfold _with_locked_session, cfinally, cattempt. unfold cbind at 1.
  assert (plain ((let$ _ := action in print false message) c).1) as Hp by (apply plain_bind; [apply Ha|intros; apply plain_print]).
  apply plain_bind; [apply plain_wallet|]. intros _ c2. exact Hp.
Qed.

Lemma plain_export backup c : plain (write_export backup c).1.
Proof. apply plain_bind; [apply plain_wallet|]. intros data c1. apply plain_wallet. Qed.

Lemma plain_command args c : plain (run_command is_regular args c).1.
Proof.
  assert (forall (p : W unit) message c, plain ((let$ _ := call_wallet p in _with_locked_session message (cret tt)) c).1) as Hmade.
  { intros p message c0. apply plain_bind; [apply plain_wallet|]. intros [] c1. by apply plain_session. }
  destruct args; cbn [run_command].
  - apply plain_bind; [apply plain_password|]. intros pw c1. apply plain_bind; [apply plain_password|]. intros conf c2. apply Hmade.
  - apply plain_bind; [apply plain_backup|]. intros data c1. apply plain_bind; [apply plain_password|]. intros pw c2. apply Hmade.
  - apply plain_bind; [apply plain_password|]. intros pw c1. apply plain_bind; [apply plain_wallet|]. intros [] c2. apply plain_session, plain_export.
  - apply plain_bind; [apply plain_password|]. intros pw c1. apply Hmade.
Qed.

(** ** Failures of printing *)

(** [p] only ever uses up calls of [print]. *)
Definition drains {A} (p : C A) : Prop := forall c, exists k, c_faults c = k ++ c_faults (p c).2.

Lemma drains_same {A} (p : C A) : (forall c, c_faults (p c).2 = c_faults c) -> drains p.
Proof. intros Hp c. exists []. by rewrite Hp. Qed.

Lemma drains_bind {A B} (p : C A) (k : A -> C B) : drains p -> (forall a, drains (k a)) -> drains (cbind p k).
Proof.
  intros Hp Hk c. unfold cbind. destruct (Hp c) as [l Hl]. destruct (p c) as [[a|e] c']; cbn in *; [|by exists l].
  destruct (Hk a c') as [l' Hl']. exists (l ++ l'). by rewrite Hl, Hl', app_assoc.
Qed.

Lemma drains_wallet {A} (p : W A) : drains (call_wallet p).
Proof. by apply drains_same. Qed.

Lemma drains_print error line : drains (print error line).
Proof. intros c. unfold print. destruct (c_faults c) as [|[] faults] eqn:E; cbn; rewrite ?E; [by exists []|by exists [true]|by exists [false]]. Qed.

Lemma drains_attempt {A} (p : C A) : drains p -> drains (cattempt p).
Proof. intros Hp c. apply Hp. Qed.

Lemma drains_password : drains _read_password.
Proof. apply drains_same. intros c. unfold _read_password, cbind. cbn. destruct (c_isatty c); cbn; [|done]. by destruct (c_typed c) as [|[]]. Qed.

Lemma drains_session message action : drains action -> drains (_with_locked_session message action).
Proof.
  intros Ha. unfold _with_locked_session, cfinally. apply drains_bind.
  - apply drains_attempt, drains_bind; [done|]. intros _. apply drains_print.
  - intros r. apply drains_bind; [apply drains_wallet|]. intros _. by apply drains_same.
Qed.

Lemma drains_backup path : drains (_read_backup is_regular path).
Proof.
  unfold _read_backup. apply drains_bind.
  - apply drains_attempt, drains_bind; [apply drains_wallet|]. intros [regular size]. case_match; [by apply drains_same|].
    apply drains_bind; [apply drains_wallet|]. intros data. by apply drains_same.
  - intros r. apply drains_bind; [by apply drains_same|]. intros data. case_match; by apply drains_same.
Qed.

Lemma drains_command args : drains (run_command is_regular args).
Proof.
  destruct args; cbn [run_command].
  - apply drains_bind; [apply drains_password|]. intros pw. apply drains_bind; [apply drains_password|]. intros conf.
    apply drains_bind; [apply drains_wallet|]. intros _. by apply drains_session, drains_same.
  - apply drains_bind; [apply drains_backup|]. intros data. apply drains_bind; [apply drains_password|]. intros pw.
    apply drains_bind; [apply drains_wallet|]. intros _. by apply drains_session, drains_same.
  - apply drains_bind; [apply drains_password|]. intros pw. apply drains_bind; [apply drains_wallet|]. intros _.
    apply drains_session, drains_bind; [apply drains_wallet|]. intros data. apply drains_wallet.
  - apply drains_bind; [apply drains_password|]. intros pw. apply drains_bind; [apply drains_wallet|]. intros _.
    by apply drains_session, drains_same.
Qed.

(** * A run of the command line *)

(** One line is printed: the command's own on success, with exit code 0, or one of a fixed
    list on failure, with exit code 1; or nothing, when printing failed. *)
Inductive report (args : command) (c : console) : cli_res Z -> console -> Prop :=
  | report_success c' :
      c_stdout c' = c_stdout c ++ [success_message args] -> c_stderr c' = c_stderr c -> report args c (Done 0) c'
  | report_failure line c' :
      line ∈ failure_lines -> c_stdout c' = c_stdout c -> c_stderr c' = c_stderr c ++ [line] -> report args c (Done 1) c'
  | report_lost c' : silent c c' -> true ∈ c_faults c -> report args c (Failed (Raised OSError)) c'.

(** The line for a container that is refused. *)
Definition refusal_line : pystr := py "invalid wallet container".

(** C28. Every run of the desktop command line, from a process with no session, whatever is
    typed, whatever the files hold and whichever calls fail: it prints one line of a fixed
    set (so no secret and no untrusted text) and exits with 0 or 1 accordingly, or, only when a
    call of [print] failed, it prints nothing and raises [OSError]; the session it made is
    closed and every byte array that held a secret is zeroed, except that an export that
    refuses the container as invalid, and says so unless printing failed, may leave the data
    key; and an export that exits with 0 has written, under a name that was free, exactly the
    bytes of the wallet's file, which are a container, and they are on disk. *)
Theorem main_outcome args c :
  quiet [] (c_machine c) ->
  let '(r, c') := main is_regular args c in
  report args c r c' /\
  (quiet [] (c_machine c') \/
   exists wallet backup dek, args = CmdExport wallet backup /\ quiet [dek] (c_machine c') /\
     (r = Done 1 /\ c_stderr c' = c_stderr c ++ [refusal_line] \/ r = Failed (Raised OSError) /\ true ∈ c_faults c)) /\
  (forall wallet backup, args = CmdExport wallet backup -> r = Done 0 ->
     exported wallet backup (files (c_machine c)) (files (c_machine c'))).
Proof.
  intros Hq. pose proof (run_command_spec args c Hq) as Ho. pose proof (plain_command args c) as Hp.
  destruct (drains_command args c) as [k Hk].
  assert (forall wallet backup, args = CmdExport wallet backup -> (run_command is_regular args c).1 = Done tt ->
    exported wallet backup (files (c_machine c)) (files (c_machine (run_command is_regular args c).2))) as Hx.
  { intros wallet backup ->. by apply run_export_exact. }
  unfold cwp in Ho. unfold main, cbind, cattempt. destruct (run_command is_regular args c) as [[[]|e] c1]; cbn in *.
  - destruct Ho as [(Hq1 & He & Hout)|(? & ? & ? & _ & ? & _)]; [|done]. split; [by apply report_success|]. split; [by left|]. eauto.
  - assert (silent c c1 /\ (quiet [] (c_machine c1) \/
      exists wallet backup dek, args = CmdExport wallet backup /\ e = Raised InvalidContainer /\ quiet [dek] (c_machine c1))) as [[Hso Hse] Hm].
    { destruct Ho as [(Hq1 & He & Hout)|(w & b & dek & Ea & [= ->] & Hd & Hs)]; [|split; [done|right; by exists w, b, dek]].
      rewrite app_nil_r in Hout. split; [done|by left]. }
    unfold _report_error, cbind, print. destruct (c_faults c1) as [|[] faults] eqn:Ef; cbn.
    2: { assert (true ∈ c_faults c) as Ht by (rewrite Hk; set_solver). split; [by apply report_lost|]. split; [|by intros].
      destruct Hm as [|(w & b & dek & Ea & _ & Hd)]; [by left|]. right. exists w, b, dek. auto. }
    all: (split; [apply (report_failure _ _ (error_message e)); cbn; congruence|split; [|by intros]]);
      destruct Hm as [|(w & b & dek & Ea & -> & Hd)]; [by left|]; right; exists w, b, dek; (split; [done|]); (split; [done|]); left; cbn; by rewrite Hse.
Qed.
End Facts.
