(* ===== verification/RegistryTransport.v ===== *)
(** The transport over the Registry's DHT interface (registry_transport.py).

    The Registry package and libp2p are not part of the program: each use of them is a call
    whose answer is an arbitrary function of the calls so far, and the two exception classes
    the transport knows are predicates. *)

From S2P Require Import Prelude PyVal Sha256 SignedUpdate Rotation Effects Json.

Open Scope Z_scope.

(** * Multiaddrs *)

(** What follows the last occurrence of [pat]: [s[s.rfind(pat) + len(pat):]]. *)
Fixpoint after_last (pat s : pystr) : option pystr :=
  match s with
  | [] => strip pat []
  | _ :: s' => match after_last pat s' with Some r => Some r | None => strip pat s end
  end.

(** [s.split("/", 1)[0]] *)
Fixpoint until_slash (s : pystr) : pystr :=
  match s with
  | [] => []
  | c :: s' => if c =? 47 then [] else c :: until_slash s'
  end.

Definition p2p : pystr := py "/p2p/".

(** ["/p2p/" in peer] *)
Definition has_p2p (peer : pystr) : bool := bool_decide (is_Some (after_last p2p peer)).

Definition _pinned_peer_id (peer : pystr) : option pystr :=
  match after_last p2p peer with
  | None => None
  | Some rest => match until_slash rest with [] => None | peer_id => Some peer_id end
  end.

(** * The constructor *)

Definition ConnectionError : exn := Exc 101.
Definition ImportError : exn := Exc 102.

Record transport := MkTransport {
  _registry_environment : option pystr;
  supports_owner_key_rotation : bool;
  _bootstrap_peers : list pystr;
  _readback_peer : option pystr;
  _store_path : pystr;
}.

(** [tuple(v)]; text and bytes are refused with the same exception as what is not iterable.
    [iterate id]: what iterating the value [id] of another type (a set, a generator) gives,
    its items or the exception it raises. *)
Definition to_tuple (iterate : Z -> res (list pyval)) (v : pyval) : res (list pyval) :=
  match v with
  | PList l | PTuple l => Ok l
  | PDict d => Ok (fst <$> d)
  | POther id _ _ => iterate id
  | _ => Err TypeError
  end.

(** Every peer is non-empty text. *)
Fixpoint text_peers (l : list pyval) : res (list pystr) :=
  match l with
  | [] => Ok []
  | PStr (c :: s) :: l' => let* peers := text_peers l' in Ok ((c :: s) :: peers)
  | _ => Err ValueError
  end.

Definition check_environment (v : pyval) : res (option pystr) :=
  match v with
  | PNone => Ok None
  | PStr s => raise_if negb (valid_registry_environment v) with ValueError; Ok (Some s)
  | _ => Err ValueError
  end.

Definition check_readback (v : pyval) (peers : list pystr) : res (option pystr) :=
  match v with
  | PNone => Ok None
  | PStr (c :: s) =>
      match _pinned_peer_id (c :: s) with
      | None => Err ValueError
      | Some readback_peer_id =>
          raise_if bool_decide (Some readback_peer_id ∈ (_pinned_peer_id <$> peers)) with ValueError;
          Ok (Some (c :: s))
      end
  | _ => Err ValueError
  end.

(** The checks on the peers and the store path, and the fields.  [available]: the Registry
    package can be imported. *)
Definition configure (available : bool) (peer_values : list pyval) (store_path readback_peer : pyval) (supports : bool)
    (environment : option pystr) : res transport :=
  raise_if bool_decide (peer_values = []) with ValueError;
  let* peers := text_peers peer_values in
  raise_if negb (forallb has_p2p peers) with ValueError;
  let* readback := check_readback readback_peer peers in
  match store_path with
  | PNone | PStr [] => Err ValueError
  | PStr path => raise_if negb available with ImportError; Ok (MkTransport environment supports peers readback path)
  | _ => raise_if negb available with ImportError; Err TypeError
  end.

Definition RegistryTransport (iterate : Z -> res (list pyval)) (available : bool) (bootstrap_peers store_path readback_peer supports registry_environment : pyval)
    : res transport :=
  let* environment := check_environment registry_environment in
  match supports with
  | PBool supports =>
      let* peer_values := to_tuple iterate bootstrap_peers in
      configure available peer_values store_path readback_peer supports environment
  | _ => Err TypeError
  end.

(** * Sessions with the Registry *)

(** Uses of the Registry package. *)
Inductive sdk_call :=
  | OpenStore (path : pystr)                                       (* LMDBDatastore(path=path) *)
  | EnterDHT (durable_store : bool)                                (* async with Libp2pKadDHT(...) *)
  | Bootstrap (peer : pystr)                                       (* dht.bootstrap(peer) *)
  | MakeService                                                    (* RegistryService(dht) *)
  | ServiceGet (owner_name_hex : pystr)
  | ServiceGetByHash (owner_name_hex : pystr) (state_hash : bytes)
  | ReadRemote (object_key_hex : pystr)                            (* dht.read_remote_identity_envelope *)
  | ServicePut (owner_name_hex : pystr) (envelope_cbor expected_state_hash : bytes) (expires_at : Z)
  | ExitDHT.

#[global] Instance sdk_call_eq_decision : EqDecision sdk_call.
Proof. solve_decision. Defined.

(** The calls made, each with its answer. *)
Definition history : Type := list (sdk_call * res pyval).

Definition T (A : Type) : Type := history -> res A * history.

Definition tret {A} (a : A) : T A := fun h => (Ok a, h).
Definition tfail {A} (e : exn) : T A := fun h => (Err e, h).
Definition tbind {A B} (p : T A) (k : A -> T B) : T B :=
  fun h => match p h with (Ok a, h') => k a h' | (Err e, h') => (Err e, h') end.
Definition tattempt {A} (p : T A) : T (res A) := fun h => let r := p h in (Ok r.1, r.2).

Declare Scope transport_scope.
Delimit Scope transport_scope with transport.
Notation "'let~' x := m 'in' k" := (tbind m (fun x => k))
  (at level 10, x pattern, m at level 100, k at level 200) : transport_scope.
Open Scope transport_scope.

Definition is_hex_space (c : Z) : bool := (c =? 32) || ((9 <=? c) && (c <=? 13)).

(** [bytes.fromhex(s)] *)
Fixpoint fromhex (s : pystr) : option bytes :=
  match s with
  | [] => Some []
  | c :: s' =>
      if is_hex_space c then fromhex s'
      else
        match hex_value c, s' with
        | Some hi, d :: s'' =>
            match hex_value d with
            | Some lo => cons (byte_of_Z (hi * 16 + lo)) <$> fromhex s''
            | None => None
            end
        | _, _ => None
        end
  end.

Section Registry.
(** How the Registry answers, and its two exception classes. *)
Variable answer : history -> sdk_call -> res pyval.
Variable is_precondition_failed is_publication_expired : exn -> bool.

Definition use (c : sdk_call) : T pyval := fun h => let r := answer h c in (r, h ++ [(c, r)]).

(** The loop over the peers; whether one of them was reached. *)
Fixpoint dial (peers : list pystr) (connected : bool) : T bool :=
  match peers with
  | [] => tret connected
  | peer :: peers' =>
      let~ r := tattempt (use (Bootstrap peer)) in
      dial peers' (match r with Ok _ => true | Err _ => connected end)
  end.

Definition _execute (t : transport) (operation : T pyval) (bootstrap_peers : option (list pystr)) (use_durable_store : bool) : T pyval :=
  let~ _ := if use_durable_store then use (OpenStore (_store_path t)) else tret PNone in
  let peers := match bootstrap_peers with None => _bootstrap_peers t | Some l => l end in
  let~ _ := use (EnterDHT use_durable_store) in
  let~ r := tattempt (
    let~ connected := dial peers false in
    if negb connected then tfail ConnectionError
    else
      let~ _ := use MakeService in
      operation) in
  let~ _ := use ExitDHT in
  fun h => (r, h).

Definition _run (t : transport) (operation : T pyval) (bootstrap_peers : option (list pystr)) (use_durable_store : bool) : T pyval :=
  _execute t operation bootstrap_peers use_durable_store.

Definition get_identity_envelope (t : transport) (owner_name_hex : pystr) : T pyval :=
  _run t (use (ServiceGet owner_name_hex)) None true.

Definition get_identity_envelope_by_hash (t : transport) (owner_name_hex : pystr) (state_hash : bytes) : T pyval :=
  _run t (use (ServiceGetByHash owner_name_hex state_hash)) None true.

Definition read_remote (owner_name_hex : pystr) : T pyval :=
  match fromhex owner_name_hex with
  | None => tfail ValueError
  | Some owner_name => use (ReadRemote (hex (sha256 owner_name)))
  end.

Definition get_remote_identity_envelope (t : transport) (owner_name_hex : pystr) : T pyval :=
  match _readback_peer t with
  | None => _run t (read_remote owner_name_hex) None true
  | Some peer => _run t (read_remote owner_name_hex) (Some [peer]) false
  end.

Definition put_identity_envelope (t : transport) (owner_name_hex : pystr) (envelope_cbor : bytes)
    (expected_state_hash : option bytes) (expires_at : Z) : T unit :=
  match expected_state_hash with
  | None => tfail StalePublication
  | Some expected =>
      let~ r := tattempt (_run t (use (ServicePut owner_name_hex envelope_cbor expected expires_at)) None true) in
      match r with
      | Ok _ => tret tt
      | Err e =>
          if is_precondition_failed e then tfail StalePublication
          else if is_publication_expired e then tfail ExpiredPublication
          else tfail e
      end
  end.
End Registry.
