(* ===== verification/TransportFacts.v ===== *)
(** What the transport asks of the Registry: which peers it dials, which request it makes,
    and what its answers and errors come from. *)

From S2P Require Import Prelude PyVal Sha256 Interfaces SignedUpdate Rotation Effects Json JsonFacts RegistryTransport.

Open Scope Z_scope.

(** * Multiaddrs and hexadecimal text *)

Lemma strip_some pat s r : strip pat s = Some r -> s = pat ++ r.
Proof.
  revert s. induction pat as [|x pat IH]; intros s; cbn; [by intros [= ->]|]. destruct s as [|y s]; [done|].
  destruct (Z.eqb_spec x y) as [->|]; [|done]. by intros ->%IH.
Qed.

Lemma after_last_some pat s r : after_last pat s = Some r -> exists a, s = a ++ pat ++ r.
Proof.
  revert r. induction s as [|c s IH]; intros r; cbn [after_last]; [intros Hr; exists []; exact (strip_some _ _ _ Hr)|].
  destruct (after_last pat s) as [r'|]; [intros [= <-]; destruct (IH r' eq_refl) as [a ->]; by exists (c :: a)|].
  intros Hr. exists []. exact (strip_some _ _ _ Hr).
Qed.

Lemma until_slash_prefix s : exists rest, s = until_slash s ++ rest /\ 47 ∉ until_slash s.
Proof.
  induction s as [|c s [rest [IH Hn]]]; cbn; [exists []; split; [done|apply not_elem_of_nil]|].
  destruct (Z.eqb_spec c 47); [exists (c :: s); split; [done|apply not_elem_of_nil]|].
  exists rest. split; [by rewrite IH at 1|]. by apply not_elem_of_cons.
Qed.

(** A pinned peer id is what stands between a ["/p2p/"] and the next slash. *)
Lemma pinned_peer_id_some peer id :
  _pinned_peer_id peer = Some id -> id <> [] /\ 47 ∉ id /\ exists a rest, peer = a ++ p2p ++ id ++ rest.
Proof.
  unfold _pinned_peer_id. destruct (after_last p2p peer) as [r|] eqn:E; [|done]. destruct (after_last_some _ _ _ E) as [a ->].
  destruct (until_slash_prefix r) as (rest & Hr & Hn). destruct (until_slash r) as [|c l] eqn:El; [done|]. intros [= <-].
  split; [done|]. split; [done|]. exists a, rest. by rewrite <-Hr.
Qed.

Lemma hex_digit_not_space n : 0 <= n < 16 -> is_hex_space (hex_digit n) = false.
Proof. intros Hn. unfold is_hex_space, hex_digit. destruct (Z.ltb_spec n 10); lia. Qed.

Lemma fromhex_hex b : fromhex (hex b) = Some b.
Proof.
  induction b as [|x b IH]; [done|]. unfold hex in *. cbn [mbind list_bind app fromhex]. pose proof (byteZ_range x).
  assert (0 <= byteZ x / 16 < 16) by (split; [apply Z.div_pos; lia|apply Z.div_lt_upper_bound; lia]).
  assert (0 <= byteZ x mod 16 < 16) by (apply Z.mod_pos_bound; lia).
  rewrite hex_digit_not_space, !hex_value_digit by done. setoid_rewrite IH. cbn.
  replace (byteZ x / 16 * 16 + byteZ x mod 16) with (byteZ x) by (pose proof (Z_div_mod_eq_full (byteZ x) 16); lia).
  by rewrite byte_of_Z_byteZ.
Qed.

(** * What the constructor accepts *)

(** A transport has peers that name an id marker, and a readback peer whose id is none of
    theirs. *)
Record transport_ok (t : transport) : Prop := {
  tk_peers : _bootstrap_peers t <> [] /\ Forall (fun p => has_p2p p = true) (_bootstrap_peers t);
  tk_readback : forall p, _readback_peer t = Some p ->
    exists id, _pinned_peer_id p = Some id /\ Forall (fun q => _pinned_peer_id q <> Some id) (_bootstrap_peers t);
  tk_store : _store_path t <> [];
  tk_environment : forall e, _registry_environment t = Some e -> valid_registry_environment (PStr e) = true;
}.

Lemma text_peers_length l peers : text_peers l = Ok peers -> length peers = length l.
Proof.
  revert peers. induction l as [|v l IH]; intros peers; cbn; [by intros [= <-]|]. destruct v as [| | | |[|c s]| | | |]; try done.
  intros Hp. apply res_bind_ok in Hp as (ps & Hps & [= <-]). cbn. by rewrite (IH _ Hps).
Qed.

Lemma check_readback_ok v peers o :
  check_readback v peers = Ok o ->
  forall p, o = Some p -> exists id, _pinned_peer_id p = Some id /\ Forall (fun q => _pinned_peer_id q <> Some id) peers.
Proof.
  unfold check_readback. destruct v as [| | | |[|c s]| | | |]; try done; [by intros [= <-]|].
  destruct (_pinned_peer_id (c :: s)) as [id|] eqn:Eid; [|done]. case_bool_decide as Hin; [done|]. intros [= <-] p [= <-].
  exists id. split; [done|]. apply Forall_forall. intros q Hq Hid. apply Hin. apply list_elem_of_fmap. by exists q.
Qed.

Lemma check_environment_ok v o : check_environment v = Ok o -> forall e, o = Some e -> valid_registry_environment (PStr e) = true.
Proof. destruct v; try done; cbn [check_environment]; intros Hv; inv_ok; [done|]. bool_hyps. by intros e [= <-]. Qed.

Lemma transport_accepted iterate available peers store readback supports environment t :
  RegistryTransport iterate available peers store readback supports environment = Ok t -> transport_ok t.
Proof.
  unfold RegistryTransport. intros Ht. apply res_bind_ok in Ht as (env & Henv & Ht). destruct supports; try done.
  apply res_bind_ok in Ht as (items & _ & Ht). unfold configure in Ht. case_bool_decide as Hne; [done|].
  apply res_bind_ok in Ht as (ps & Hps & Ht). destruct (forallb has_p2p ps) eqn:Hall; [|done]. cbn [negb] in Ht.
  apply res_bind_ok in Ht as (rb & Hrb & Ht). destruct store as [| | | |[|c s]| | | |]; try done; try (by destruct (negb available)).
  destruct (negb available); [done|]. injection Ht as <-. split; cbn.
  - split; [|by apply Forall_forall; intros p Hp; rewrite forallb_forall in Hall; apply Hall, list_elem_of_In].
    intros ->. apply text_peers_length in Hps. by destruct items.
  - by apply (check_readback_ok readback).
  - done.
  - by apply (check_environment_ok environment).
Qed.

(** * Sessions *)

(** [p] run after [h] makes the calls [log] and ends in [Q]. *)
Definition twp {A} (p : T A) (Q : res A -> history -> Prop) (h : history) : Prop :=
  exists log, (p h).2 = h ++ log /\ Q (p h).1 log.

Lemma twp_mono {A} (p : T A) (Q Q' : res A -> history -> Prop) h : twp p Q h -> (forall r log, Q r log -> Q' r log) -> twp p Q' h.
Proof. intros (log & E & HQ) HQ'. exists log. auto. Qed.

Lemma twp_ret {A} (a : A) (Q : res A -> history -> Prop) h : Q (Ok a) [] -> twp (tret a) Q h.
Proof. intros HQ. exists []. by rewrite app_nil_r. Qed.

Lemma twp_fail {A} e (Q : res A -> history -> Prop) h : Q (Err e) [] -> twp (tfail e) Q h.
Proof. intros HQ. exists []. by rewrite app_nil_r. Qed.

Lemma twp_attempt {A} (p : T A) (Q : res (res A) -> history -> Prop) h : twp p (fun r => Q (Ok r)) h -> twp (tattempt p) Q h.
Proof. done. Qed.

Lemma twp_bind {A B} (p : T A) (k : A -> T B) (Q : res B -> history -> Prop) h :
  twp p (fun r log => match r with Ok a => forall h', twp (k a) (fun r' log' => Q r' (log ++ log')) h' | Err e => Q (Err e) log end) h ->
  twp (tbind p k) Q h.
Proof.
  intros (log & E & HQ). unfold twp, tbind. destruct (p h) as [[a|e] h1]; cbn in *; [|by exists log]. subst h1.
  destruct (HQ (h ++ log)) as (log' & E' & HQ'). exists (log ++ log'). by rewrite E', app_assoc.
Qed.

(** Requests to the Registry, as opposed to the calls that set a session up. *)
Definition is_request (c : sdk_call) : bool :=
  match c with ServiceGet _ | ServiceGetByHash _ _ | ReadRemote _ | ServicePut _ _ _ _ => true | _ => false end.

Definition requests (log : history) : history := List.filter (fun e => is_request e.1) log.

Definition answered_ok (log : history) (peers : list pystr) : Prop := exists p v, p ∈ peers /\ (Bootstrap p, Ok v) ∈ log.

(** An exception that came from the Registry, or from finding no peer. *)
Definition came_from (log : history) (e : exn) : Prop := e = ConnectionError \/ exists c, (c, Err e) ∈ log.

Section Sessions.
Variable answer : history -> sdk_call -> res pyval.
Notation use := (RegistryTransport.use answer).

Lemma use_spec c (Q : res pyval -> history -> Prop) h : (forall r, Q r [(c, r)]) -> twp (use c) Q h.
Proof. intros HQ. exists [(c, answer h c)]. split; [done|apply HQ]. Qed.

(** Every peer is dialled, and nothing else is done. *)
Lemma dial_spec peers connected h :
  twp (dial answer peers connected) (fun r log => log.*1 = Bootstrap <$> peers /\
    exists b, r = Ok b /\ (b = true -> connected = true \/ answered_ok log peers)) h.
Proof.
  revert connected h. induction peers as [|p peers IH]; intros connected h; cbn [dial]; [apply twp_ret; split; [done|]; exists connected; auto|].
  apply twp_bind, twp_attempt, use_spec. intros r h'. eapply twp_mono; [apply IH|]. cbn. intros r' log [Hl (b & -> & Hb)].
  split; [by rewrite Hl|]. exists b. split; [done|]. intros Hbt.
  destruct (Hb Hbt) as [Hc|(q & v & Hq & Hin)]; [|right; exists q, v; split; by right].
  destruct r as [v|e]; [|by left]. right. exists p, v. split; by left.
Qed.

(** Calls that set a session up or close it. *)
Definition setup_call (t : transport) (peers : list pystr) (durable : bool) (c : sdk_call) : Prop :=
  match c with
  | OpenStore p => p = _store_path t /\ durable = true
  | Bootstrap p => p ∈ peers
  | EnterDHT _ | MakeService | ExitDHT => True
  | _ => False
  end.

Section Execute.
Context (t : transport) (peers : list pystr) (durable : bool) (operation : T pyval) (Qop : res pyval -> history -> Prop).
Hypothesis operation_spec : forall h, twp operation Qop h.
Abbreviation setup log := (Forall (fun e : sdk_call * res pyval => setup_call t peers durable e.1) log).

(** Between entering and leaving the DHT: no peer, or a peer and then the operation. *)
Definition inside (r : res pyval) (log : history) : Prop :=
  exists before body, log = before ++ body /\ setup before /\
  ((body = [] /\ exists e, r = Err e /\ came_from before e) \/ (answered_ok before peers /\ Qop r body)).

Lemma inside_spec h :
  twp (let~ connected := dial answer peers false in
       if negb connected then tfail ConnectionError else let~ _ := use MakeService in operation) inside h.
Proof.
  apply twp_bind. eapply twp_mono; [apply dial_spec|]. intros r dials [Hd (b & -> & Hb)] h1.
  assert (setup dials) as Hs.
  { apply Forall_forall. intros [c a] Hin. assert (c ∈ dials.*1) as Hc by (apply list_elem_of_fmap; by exists (c, a)).
    rewrite Hd in Hc. by apply list_elem_of_fmap in Hc as (p & -> & Hp). }
  destruct b; cbn [negb].
  - destruct (Hb eq_refl) as [|Hans]; [done|]. apply twp_bind, use_spec. intros [v|e].
    + intros h2. eapply twp_mono; [apply operation_spec|]. intros r body Hop. exists (dials ++ [(MakeService, Ok v)]), body.
      split; [by rewrite <-app_assoc|]. split; [apply Forall_app; split; [done|by constructor]|]. right. split; [|done].
      destruct Hans as (p & w & Hp & Hin). exists p, w. split; [done|]. apply elem_of_app. by left.
    + exists (dials ++ [(MakeService, Err e)]), []. rewrite app_nil_r. split; [done|]. split; [apply Forall_app; split; [done|by constructor]|].
      left. split; [done|]. exists e. split; [done|]. right. exists MakeService. apply elem_of_app. right. by left.
  - apply twp_fail. exists dials, []. rewrite app_nil_r. split; [done|]. split; [done|]. left. split; [done|]. exists ConnectionError. split; [done|by left].
Qed.

(** A whole session: nothing was asked, or, after a peer answered, the operation was run. *)
Definition session (r : res pyval) (log : history) : Prop :=
  exists before body after, log = before ++ body ++ after /\ setup before /\ setup after /\
  ((body = [] /\ exists e, r = Err e /\ came_from log e) \/
   (answered_ok before peers /\ exists r', Qop r' body /\ (r = r' \/ exists e, r = Err e /\ came_from log e))).

Lemma session_stopped e log : setup log -> came_from log e -> session (Err e) log.
Proof.
  intros Hs Hc. exists log, [], []. rewrite !app_nil_r. split; [done|]. split; [done|]. split; [constructor|]. left. split; [done|by exists e].
Qed.

(** The inside of a session with what was done before and after it. *)
Lemma inside_session r r' l1 l2 l3 :
  setup l1 -> setup l3 -> inside r l2 -> (r' = r \/ exists e, r' = Err e /\ came_from l3 e) -> session r' (l1 ++ l2 ++ l3).
Proof.
  intros Hs1 Hs3 (before & body & -> & Hsb & Hb) Hr. exists (l1 ++ before), body, l3. rewrite <-!app_assoc.
  split; [done|]. split; [by apply Forall_app|]. split; [done|].
  assert (forall e l, came_from l e -> l ⊆ l1 ++ before ++ body ++ l3 -> came_from (l1 ++ before ++ body ++ l3) e) as Hcf.
  { intros e l [|[c Hc]] Hsub; [by left|]. right. exists c. by apply Hsub. }
  assert (forall e, r' = Err e -> came_from l3 e -> came_from (l1 ++ before ++ body ++ l3) e) as H3.
  { intros e _ Hc. apply (Hcf e l3 Hc). set_solver. }
  destruct Hb as [(-> & e & -> & Hc)|[Hans Hop]].
  - left. split; [done|]. destruct Hr as [->|(e' & -> & Hc')].
    + exists e. split; [done|]. apply (Hcf e before Hc). set_solver.
    + exists e'. split; [done|by apply H3].
  - right. split.
    + destruct Hans as (p & v & Hp & Hin). exists p, v. split; [done|]. apply elem_of_app. by right.
    + exists r. split; [done|]. destruct Hr as [->|(e' & -> & Hc')]; [by left|right]. exists e'. split; [done|by apply H3].
Qed.

Lemma execute_spec bootstrap_peers h :
  peers = (match bootstrap_peers with None => _bootstrap_peers t | Some l => l end) ->
  twp (_execute answer t operation bootstrap_peers durable) session h.
Proof.
  intros Hp. unfold _execute. apply twp_bind.
  apply (twp_mono _ (fun r l => setup l /\ match r with Err e => exists c, (c, Err e) ∈ l | Ok _ => True end)).
  { destruct durable eqn:Ed; [|by apply twp_ret]. apply use_spec. intros r. split; [by constructor|]. destruct r as [v|e]; [done|].
    exists (OpenStore (_store_path t)). by left. }
  intros [v|e] l1 [Hs1 He1]; [|apply session_stopped; [done|by right]]. intros h1. rewrite <-Hp. apply twp_bind, use_spec. intros [v2|e].
  2: { apply session_stopped; [apply Forall_app; split; [done|by constructor]|]. right. exists (EnterDHT durable). apply elem_of_app. right. by left. }
  intros h2. apply twp_bind, twp_attempt. eapply twp_mono; [apply inside_spec|]. intros r l3 Hin h3.
  assert (setup (l1 ++ [(EnterDHT durable, Ok v2)])) as Hs by (apply Forall_app; split; [done|by constructor]).
  apply twp_bind, use_spec. intros [v4|e].
  - intros h4. exists []. rewrite app_nil_r. split; [done|]. rewrite app_nil_r, app_assoc. apply (inside_session r); [done|by constructor|done|by left].
  - rewrite app_assoc. apply (inside_session r); [done|by constructor|done|]. right. exists e. split; [done|]. right. exists ExitDHT. by left.
Qed.
End Execute.
End Sessions.

(** * The promises of the transport *)

Inductive query :=
  | QGet (owner_name_hex : pystr)
  | QGetByHash (owner_name_hex : pystr) (state_hash : bytes)
  | QGetRemote (owner_name_hex : pystr)
  | QPut (owner_name_hex : pystr) (envelope_cbor : bytes) (expected_state_hash : option bytes) (expires_at : Z).

(** The one request a query makes of the Registry. *)
Definition wire (q : query) : option sdk_call :=
  match q with
  | QGet o => Some (ServiceGet o)
  | QGetByHash o s => Some (ServiceGetByHash o s)
  | QGetRemote o => (fun owner => ReadRemote (hex (sha256 owner))) <$> fromhex o
  | QPut o e s x => (fun expected => ServicePut o e expected x) <$> s
  end.

(** A confirmation read of a transport with a readback peer. *)
Definition isolated (t : transport) (q : query) : option pystr := match q with QGetRemote _ => _readback_peer t | _ => None end.

Definition dialled (t : transport) (q : query) : list pystr :=
  match isolated t q with Some p => [p] | None => _bootstrap_peers t end.

Section Promises.
Variable answer : history -> sdk_call -> res pyval.
Variable is_precondition_failed is_publication_expired : exn -> bool.

Definition perform (t : transport) (q : query) : T pyval :=
  match q with
  | QGet o => get_identity_envelope answer t o
  | QGetByHash o s => get_identity_envelope_by_hash answer t o s
  | QGetRemote o => get_remote_identity_envelope answer t o
  | QPut o e s x =>
      let~ _ := put_identity_envelope answer is_precondition_failed is_publication_expired t o e s x in
      tret PNone
  end.

(** What the caller sees of an exception [e] of the session. *)
Definition translated (q : query) (e : exn) : exn :=
  match q with
  | QPut _ _ _ _ => if is_precondition_failed e then StalePublication else if is_publication_expired e then ExpiredPublication else e
  | _ => e
  end.

Record disciplined (t : transport) (q : query) (r : res pyval) (log : history) : Prop := {
  di_dials : forall p a, (Bootstrap p, a) ∈ log -> p ∈ dialled t q;
  di_isolated : forall p, isolated t q = Some p ->
    (exists id, _pinned_peer_id p = Some id /\ Forall (fun b => _pinned_peer_id b <> Some id) (_bootstrap_peers t)) /\
    forall s a, (OpenStore s, a) ∉ log;
  di_request : requests log = [] \/ exists c a, wire q = Some c /\ requests log = [(c, a)] /\ answered_ok log (dialled t q);
  di_result : forall v, r = Ok v -> exists c w, wire q = Some c /\ (c, Ok w) ∈ log /\ match q with QPut _ _ _ _ => True | _ => v = w end;
  di_error : forall e, r = Err e ->
    match q with
    | QPut _ _ None _ => e = StalePublication /\ log = []
    | _ => exists e0, e = translated q e0 /\ (came_from log e0 \/ (wire q = None /\ e0 = ValueError))
    end;
}.

(** The calls of a query's own operation. *)
Definition operation_of (q : query) (r : res pyval) (body : history) : Prop :=
  match wire q with Some c => body = [(c, r)] | None => body = [] /\ r = Err ValueError end.

Lemma wire_request q c : wire q = Some c -> is_request c = true.
Proof.
  destruct q as [o|o s|o|o e [s|] x]; cbn; intros Hw; try done; try by injection Hw as <-.
  destruct (fromhex o); cbn in Hw; [by injection Hw as <-|done].
Qed.

Lemma requests_setup t peers durable (log : history) : Forall (fun e => setup_call t peers durable e.1) log -> requests log = [].
Proof.
  intros Hs. unfold requests. induction Hs as [|[c a] log Hc _ IH]; [done|]. cbn. by destruct c.
Qed.

Lemma setup_no_dial t peers durable (log : history) p a :
  Forall (fun e => setup_call t peers durable e.1) log -> (Bootstrap p, a) ∈ log -> p ∈ peers.
Proof. intros Hs Hin. rewrite Forall_forall in Hs. exact (Hs _ Hin). Qed.

(** A session for a query keeps the query's promises. *)
Lemma session_disciplined t q durable r log :
  transport_ok t -> (durable = true -> isolated t q = None) -> (match q with QPut _ _ None _ => False | _ => True end) ->
  session t (dialled t q) durable (operation_of q) r log ->
  disciplined t q (match r with Ok v => Ok (match q with QPut _ _ _ _ => PNone | _ => v end) | Err e => Err (translated q e) end) log.
Proof.
  intros Hok Hdur Hput (before & body & after & -> & Hs1 & Hs3 & Hb).
  assert (forall c a, (c, a) ∈ body -> wire q = Some c /\ body = [(c, a)]) as Hbody.
  { intros c a Hin. destruct Hb as [[-> _]|(_ & r' & Hop & _)]; [by apply elem_of_nil in Hin|]. unfold operation_of in Hop.
    destruct (wire q) as [c'|]; [|destruct Hop as [-> _]; by apply elem_of_nil in Hin]. subst body. apply list_elem_of_singleton in Hin as [= -> ->]. done. }
  assert (requests (before ++ body ++ after) = requests body) as Hreq.
  { unfold requests. rewrite !List.filter_app. fold (requests before) (requests after). by rewrite (requests_setup _ _ _ _ Hs1), (requests_setup _ _ _ _ Hs3), app_nil_r. }
  split.
  - intros p a. rewrite !elem_of_app. intros [Hin|[Hin|Hin]]; [exact (setup_no_dial _ _ _ _ _ _ Hs1 Hin)| |exact (setup_no_dial _ _ _ _ _ _ Hs3 Hin)].
    apply Hbody in Hin as [Hw%wire_request _]. done.
  - intros p Hp. split.
    + unfold isolated in Hp. destruct q; try done. by apply (tk_readback t).
    + assert (durable = false) as -> by (destruct durable; [by rewrite Hdur in Hp|done]).
      intros s a. rewrite !elem_of_app. rewrite Forall_forall in Hs1, Hs3. intros [Hin|[Hin|Hin]].
      * by destruct (Hs1 _ Hin).
      * by apply Hbody in Hin as [Hw%wire_request _].
      * by destruct (Hs3 _ Hin).
  - rewrite Hreq. destruct Hb as [[-> _]|(Hans & r' & Hop & _)]; [by left|]. unfold operation_of in Hop.
    destruct (wire q) as [c|] eqn:Ew; [|destruct Hop as [-> _]; by left]. right. exists c, r'. subst body. split; [done|]. split.
    + cbn. by rewrite (wire_request q c Ew).
    + destruct Hans as (p & v & Hp & Hin). exists p, v. split; [done|]. apply elem_of_app. by left.
  - intros v Hv. destruct r as [v0|e]; [|done]. destruct Hb as [(_ & e & ? & _)|(_ & r' & Hop & Hr)]; [done|].
    destruct Hr as [<-|(e & ? & _)]; [|done]. unfold operation_of in Hop. destruct (wire q) as [c|]; [|by destruct Hop]. subst body.
    exists c, v0. split; [done|]. split; [rewrite !elem_of_app; right; left; by left|]. destruct q; try done; by injection Hv as <-.
  - intros e He. destruct r as [v0|e0]; [done|]. injection He as <-.
    assert (exists e1, translated q e0 = translated q e1 /\ (came_from (before ++ body ++ after) e1 \/ (wire q = None /\ e1 = ValueError))) as Hgoal.
    { exists e0. split; [done|]. destruct Hb as [(_ & e & [= ->] & Hc)|(_ & r' & Hop & Hr)]; [by left|].
      destruct Hr as [<-|(e & [= ->] & Hc)]; [|by left]. unfold operation_of in Hop. destruct (wire q) as [c|] eqn:Ew.
      - left. right. exists c. subst body. rewrite !elem_of_app. right. left. by left.
      - right. by destruct Hop as [_ [= ->]]. }
    destruct q as [| | |o ev [s|] x]; try exact Hgoal. done.
Qed.

(** The owner's key under which the adapter's confirmation reads look. *)
Lemma remote_read_of_owner owner : wire (QGetRemote (hex owner)) = Some (ReadRemote (hex (sha256 owner))).
Proof. cbn. by rewrite fromhex_hex. Qed.

Lemma read_remote_spec o h : twp (read_remote answer o) (operation_of (QGetRemote o)) h.
Proof.
  unfold read_remote, operation_of. cbn. destruct (fromhex o); [by apply use_spec|by apply twp_fail].
Qed.

Lemma perform_session t q h :
  transport_ok t -> (match q with QPut _ _ None _ => False | _ => True end) -> twp (perform t q) (disciplined t q) h.
Proof.
  intros Hok Hput.
  assert (forall operation, (forall h, twp operation (operation_of q) h) ->
    forall bp durable h, dialled t q = (match bp with None => _bootstrap_peers t | Some l => l end) -> (durable = true -> isolated t q = None) ->
    twp (_execute answer t operation bp durable) (fun r log =>
      disciplined t q (match r with Ok v => Ok (match q with QPut _ _ _ _ => PNone | _ => v end) | Err e => Err (translated q e) end) log) h) as Hexec.
  { intros operation Hop bp durable h' Hpeers Hdur. eapply twp_mono; [by apply (execute_spec answer t (dialled t q) durable operation (operation_of q) Hop)|].
    intros r log Hs. by apply (session_disciplined t q durable). }
  destruct q as [o|o s|o|o e [s|] x]; try done; cbn [perform].
  - eapply twp_mono; [apply Hexec; [intros; by apply use_spec|done|done]|]. by intros [v|e] log.
  - eapply twp_mono; [apply Hexec; [intros; by apply use_spec|done|done]|]. by intros [v|e] log.
  - unfold get_remote_identity_envelope. destruct (_readback_peer t) as [rb|] eqn:Erb.
    + eapply twp_mono; [apply Hexec; [apply read_remote_spec| |done]; unfold dialled, isolated; by rewrite Erb|]. by intros [v|e] log.
    + eapply twp_mono; [apply Hexec; [apply read_remote_spec| |done]; unfold dialled, isolated; by rewrite Erb|]. by intros [v|e] log.
  - apply twp_bind. cbn [put_identity_envelope]. apply twp_bind, twp_attempt.
    eapply twp_mono; [apply Hexec; [intros; by apply use_spec|done|done]|]. intros [v|e0] log Hd h1; cbn [translated] in Hd.
    + apply twp_ret. rewrite app_nil_r. intros h2. apply twp_ret. by rewrite app_nil_r.
    + destruct (is_precondition_failed e0); [|destruct (is_publication_expired e0)]; apply twp_fail; by rewrite app_nil_r.
Qed.

(** C29. Whatever the Registry answers, a transport the constructor accepted keeps to its
    configuration.  It dials only its bootstrap peers, or, for a confirmation read when a
    readback peer is configured, only that peer, whose pinned id differs from that of every
    bootstrap peer, and then it does not open the local store.  It makes at most one request,
    the one that was asked for (the owner's hashed name for a confirmation read), and only
    after a peer it dialled answered.  A result is that request's answer.  An unconditional
    write is refused with [StalePublication] before any call; the Registry's failed
    precondition and expiry are reported as [StalePublication] and [ExpiredPublication], and
    every other exception is one the Registry raised, or [ConnectionError] when no peer
    answered, or [ValueError] for an owner name that is not hexadecimal. *)
Theorem transport_discipline iterate available peers store readback supports environment t q h :
  RegistryTransport iterate available peers store readback supports environment = Ok t ->
  exists log, (perform t q h).2 = h ++ log /\ disciplined t q (perform t q h).1 log.
Proof.
  intros Ht. apply transport_accepted in Ht as Hok. destruct q as [o|o s|o|o e [s|] x]; try by apply perform_session.
  exists []. split; [by rewrite app_nil_r|]. split; cbn; try done; [|by left|by intros e0 [= <-]].
  intros p a Hin. by apply elem_of_nil in Hin.
Qed.
End Promises.
