(* ===== verification/Regex.v ===== *)
(** Text of the acceptance scripts: the regular expressions handed to [re.fullmatch], and the
    methods of [str] that are used on code points.

    The patterns have no back references and no assertions, so that [re.fullmatch] returns a
    match exactly for the words of the pattern's language.  [fullmatch] decides it by
    derivatives; [lang] is the language. *)

From S2P Require Import Prelude.

Open Scope Z_scope.

(** * Patterns *)

(** [RRep r lo hi] is [r{lo,hi}]; [hi] is [None] for an open end. *)
Inductive regex :=
  | RNone
  | REmpty
  | RClass (ranges : list (Z * Z))
  | RSeq (r s : regex)
  | RAlt (r s : regex)
  | RRep (r : regex) (lo : nat) (hi : option nat).

Definition in_class (ranges : list (Z * Z)) (c : Z) : bool := existsb (fun p => (p.1 <=? c) && (c <=? p.2)) ranges.

Definition within (hi : option nat) (n : nat) : Prop := match hi with Some h => (n <= h)%nat | None => True end.

(** The words of a pattern. *)
Fixpoint lang (r : regex) (s : pystr) : Prop :=
  match r with
  | RNone => False
  | REmpty => s = []
  | RClass ranges => exists c, s = [c] /\ in_class ranges c = true
  | RSeq r1 r2 => exists s1 s2, s = s1 ++ s2 /\ lang r1 s1 /\ lang r2 s2
  | RAlt r1 r2 => lang r1 s \/ lang r2 s
  | RRep r1 lo hi =>
      exists parts, s = concat parts /\ (lo <= length parts)%nat /\ within hi (length parts) /\ Forall (lang r1) parts
  end.

(** Whether the empty word matches. *)
Fixpoint nullable (r : regex) : bool :=
  match r with
  | RNone | RClass _ => false
  | REmpty => true
  | RSeq r1 r2 => nullable r1 && nullable r2
  | RAlt r1 r2 => nullable r1 || nullable r2
  | RRep r1 lo hi =>
      (lo =? 0)%nat || (nullable r1 && match hi with Some h => (lo <=? h)%nat | None => true end)
  end.

(** Concatenation and alternative, without the parts that match nothing. *)
Definition mk_seq (r s : regex) : regex :=
  match r, s with
  | RNone, _ | _, RNone => RNone
  | REmpty, _ => s
  | _, REmpty => r
  | _, _ => RSeq r s
  end.

Definition mk_alt (r s : regex) : regex :=
  match r, s with
  | RNone, _ => s
  | _, RNone => r
  | _, _ => RAlt r s
  end.

(** What may follow [c] in a word of [r]. *)
Fixpoint deriv (c : Z) (r : regex) : regex :=
  match r with
  | RNone | REmpty => RNone
  | RClass ranges => if in_class ranges c then REmpty else RNone
  | RSeq r1 r2 =>
      mk_alt (mk_seq (deriv c r1) r2) (if nullable r1 then deriv c r2 else RNone)
  | RAlt r1 r2 => mk_alt (deriv c r1) (deriv c r2)
  | RRep r1 lo hi =>
      match hi with
      | Some O => RNone
      | Some (S h) => if (lo <=? S h)%nat then mk_seq (deriv c r1) (RRep r1 (pred lo) (Some h)) else RNone
      | None => mk_seq (deriv c r1) (RRep r1 (pred lo) None)
      end
  end.

(** [re.fullmatch(r, s) is not None] *)
Fixpoint fullmatch (r : regex) (s : pystr) : bool :=
  match s with
  | [] => nullable r
  | c :: s' => fullmatch (deriv c r) s'
  end.

(** Constructions of the patterns' texts. *)
Definition RLit (s : pystr) : regex := foldr (fun c r => mk_seq (RClass [(c, c)]) r) REmpty s.
Definition RTimes (n : nat) (r : regex) : regex := RRep r n (Some n).
Definition RPlus (r : regex) : regex := RRep r 1 None.
Definition RStar (r : regex) : regex := RRep r 0 None.

Definition cls_digit : list (Z * Z) := [(48, 57)].
Definition cls_lower : list (Z * Z) := [(97, 122)].
Definition cls_upper : list (Z * Z) := [(65, 90)].
Definition chr (c : string) : list (Z * Z) := (fun x => (x, x)) <$> py c.

(** * Correctness of the matcher *)

Lemma mk_seq_lang r s w : lang (mk_seq r s) w <-> lang (RSeq r s) w.
Proof.
  assert (forall t, lang t w <-> lang (RSeq REmpty t) w) as Hl.
  { intros t. split; [intros H; exists [], w; split_and!; [done|done|exact H]|]. by intros (s1 & s2 & -> & -> & H). }
  assert (forall t, lang t w <-> lang (RSeq t REmpty) w) as Hr.
  { intros t. split; [intros H; exists w, []; rewrite app_nil_r; split_and!; [done|exact H|done]|].
    intros (s1 & s2 & -> & H & ->). by rewrite app_nil_r. }
  assert (forall t, lang RNone w <-> lang (RSeq t RNone) w) as Hn.
  { intros t. split; [done|]. by intros (s1 & s2 & _ & _ & []). }
  assert (forall t, lang RNone w <-> lang (RSeq RNone t) w) as Hm.
  { intros t. split; [done|]. by intros (s1 & s2 & _ & [] & _). }
  destruct r, s; cbn [mk_seq]; auto; reflexivity.
Qed.

Lemma mk_alt_lang r s w : lang (mk_alt r s) w <-> lang (RAlt r s) w.
Proof. destruct r, s; cbn [mk_alt lang]; tauto. Qed.

Lemma concat_empty {A} (parts : list (list A)) : concat parts = [] -> Forall (eq []) parts.
Proof.
  induction parts as [|p parts IH]; simpl; [constructor|]. intros [-> H]%app_nil. constructor; auto.
Qed.

Lemma nullable_spec r : nullable r = true <-> lang r [].
Proof.
  induction r as [| |ranges|r1 IH1 r2 IH2|r1 IH1 r2 IH2|r IH lo hi]; cbn [nullable lang].
  - done.
  - done.
  - split; [done|]. by intros (c & [=] & _).
  - rewrite andb_true_iff, IH1, IH2. split.
    + intros [H1 H2]. by exists [], [].
    + intros (s1 & s2 & E & H1 & H2). symmetry in E. by apply app_nil in E as [-> ->].
  - by rewrite orb_true_iff, IH1, IH2.
  - rewrite orb_true_iff, andb_true_iff, IH, Nat.eqb_eq. split.
    + intros [->|[Hr Hhi]].
      * exists []. destruct hi; simpl; repeat split; auto; lia.
      * exists (replicate lo []). rewrite length_replicate.
        repeat split; [|lia| |by apply Forall_replicate].
        -- clear. induction lo; simpl; congruence.
        -- destruct hi; simpl; [|done]. by apply Nat.leb_le.
    + intros (parts & E & Hlo & Hhi & Hp). destruct lo as [|lo]; [auto|]. right.
      destruct parts as [|p parts]; simpl in Hlo; [lia|].
      symmetry in E. apply concat_empty in E. apply Forall_cons in E as [<- _].
      apply Forall_cons in Hp as [Hp _]. split; [done|].
      destruct hi as [h|]; [|done]. simpl in Hhi. apply Nat.leb_le. lia.
Qed.

(** The first part that is not empty, if the parts before it are dropped. *)
Lemma concat_cons_split {A} (c : A) w parts :
  concat parts = c :: w ->
  exists pre p post, parts = pre ++ (c :: p) :: post /\ Forall (eq []) pre /\ w = p ++ concat post.
Proof.
  induction parts as [|q parts IH]; simpl; [done|]. destruct q as [|x q]; simpl.
  - intros (pre & p & post & -> & Hpre & ->)%IH. exists ([] :: pre), p, post. split_and!; [done| |done]. by constructor.
  - intros [= -> <-]. exists [], q, parts. split_and!; [done|constructor|done].
Qed.

Lemma rep_deriv r c w lo hi :
  (exists p q, w = p ++ q /\ lang r (c :: p) /\ lang (RRep r (pred lo) (pred <$> hi)) q) /\
    match hi with Some h => (0 < h)%nat /\ (lo <= h)%nat | None => True end <->
  lang (RRep r lo hi) (c :: w).
Proof.
  cbn [lang]. split.
  - intros [(p & q & -> & Hp & parts & -> & Hlo & Hhi & Hparts) Hb].
    exists ((c :: p) :: parts). simpl. repeat split; [lia| |by constructor].
    destruct hi; simpl in *; lia.
  - intros (parts & E & Hlo & Hhi & Hparts).
    destruct (concat_cons_split c w parts (eq_sym E)) as (pre & p & post & -> & Hpre & ->).
    rewrite Forall_app, Forall_cons in Hparts. destruct Hparts as (Hr & Hp & Hpost).
    rewrite length_app in Hlo, Hhi. simpl in Hlo, Hhi.
    split; [|destruct hi; simpl in Hhi; [lia|done]].
    exists p, (concat post). split; [done|]. split; [done|].
    exists (pre ++ post). rewrite concat_app.
    assert (concat pre = []) as ->.
    { clear -Hpre. induction Hpre; simpl; [done|]. by subst. }
    rewrite length_app. repeat split; [lia| |by apply Forall_app].
    destruct hi; simpl in *; lia.
Qed.

Lemma deriv_spec r c w : lang (deriv c r) w <-> lang r (c :: w).
Proof.
  revert w. induction r as [| |ranges|r1 IH1 r2 IH2|r1 IH1 r2 IH2|r IH lo hi]; intros w; cbn [deriv].
  - done.
  - by cbn.
  - destruct (in_class ranges c) eqn:E; cbn.
    + split; [intros ->; eauto|]. by intros (c' & [= <- ->] & _).
    + split; [done|]. intros (c' & [= <- ->] & H). congruence.
  - rewrite mk_alt_lang. cbn [lang]. rewrite mk_seq_lang. cbn [lang]. split.
    + intros [(p & q & -> & H1 & H2)|H].
      * exists (c :: p), q. rewrite <-IH1. done.
      * destruct (nullable r1) eqn:E; [|done]. exists [], (c :: w).
        rewrite <-nullable_spec. rewrite <-IH2. done.
    + intros (s1 & s2 & E & H1 & H2). destruct s1 as [|x s1]; simpl in E.
      * subst s2. right. apply nullable_spec in H1. rewrite H1. by apply IH2.
      * injection E as <- ->. left. exists s1, s2. rewrite IH1. done.
  - rewrite mk_alt_lang. cbn [lang]. by rewrite IH1, IH2.
  - assert (forall lo' hi', lang (mk_seq (deriv c r) (RRep r lo' hi')) w <->
      exists p q, w = p ++ q /\ lang r (c :: p) /\ lang (RRep r lo' hi') q) as Hseq.
    { intros lo' hi'. rewrite mk_seq_lang. cbn [lang].
      split; intros (p & q & ? & Hp & ?); exists p, q; apply IH in Hp; auto. }
    rewrite <-rep_deriv. destruct hi as [[|h]|]; cbn [fmap option_fmap option_map].
    + simpl. split; [done|]. lia.
    + destruct (Nat.leb_spec lo (S h)); [|split; [done|lia]]. rewrite Hseq. simpl. intuition lia.
    + rewrite Hseq. tauto.
Qed.

(** The matcher decides the language. *)
Lemma fullmatch_spec r s : fullmatch r s = true <-> lang r s.
Proof.
  revert r. induction s as [|c s IH]; intros r; cbn [fullmatch]; [apply nullable_spec|].
  by rewrite IH, deriv_spec.
Qed.

(** A repeated class: a bounded word over its characters. *)
Lemma rep_class ranges lo hi s :
  fullmatch (RRep (RClass ranges) lo hi) s = true <->
  (lo <= length s)%nat /\ within hi (length s) /\ Forall (fun c => in_class ranges c = true) s.
Proof.
  rewrite fullmatch_spec. cbn [lang]. split.
  - intros (parts & -> & Hlo & Hhi & Hp).
    assert (length (concat parts) = length parts /\ Forall (fun c => in_class ranges c = true) (concat parts)) as [-> ?]; [|done].
    clear -Hp. induction Hp as [|p parts (c & -> & Hc) _ [IHl IHf]]; simpl; [by split|].
    split; [lia|]. by constructor.
  - intros (Hlo & Hhi & Hs). exists ((fun c => [c]) <$> s). rewrite length_fmap.
    repeat split; [|done|done|].
    + clear. induction s as [|c s IH]; [done|]. rewrite fmap_cons. simpl. by f_equal.
    + rewrite Forall_fmap. eapply Forall_impl; [exact Hs|]. intros c Hc. exists c. done.
Qed.

(** A class followed by a repeated class. *)
Lemma head_rep_class head ranges lo hi s :
  fullmatch (RSeq (RClass head) (RRep (RClass ranges) lo hi)) s = true <->
  exists c t, s = c :: t /\ in_class head c = true /\
  (lo <= length t)%nat /\ within hi (length t) /\ Forall (fun c => in_class ranges c = true) t.
Proof.
  rewrite fullmatch_spec. cbn [lang]. split.
  - intros (s1 & t & -> & (c & -> & Hc) & Ht). exists c, t.
    split; [done|]. split; [done|]. by apply rep_class, fullmatch_spec.
  - intros (c & t & -> & Hc & Ht). exists [c], t. split; [done|]. split; [eauto|].
    apply rep_class in Ht. by apply (proj1 (fullmatch_spec (RRep (RClass ranges) lo hi) t)).
Qed.

(** * Strings *)

Fixpoint starts_with (p s : pystr) : bool :=
  match p, s with
  | [], _ => true
  | x :: p', y :: s' => (x =? y) && starts_with p' s'
  | _, _ => false
  end.

(** [needle in s] *)
Fixpoint contains (needle s : pystr) : bool :=
  starts_with needle s || match s with [] => false | _ :: s' => contains needle s' end.

(** [s.replace(old, new)] for an [old] that is not empty; [skip] counts the characters of
    the current occurrence still to be dropped. *)
Fixpoint replace_from (old new : pystr) (skip : nat) (s : pystr) : pystr :=
  match s with
  | [] => []
  | c :: s' =>
      match skip with
      | S k => replace_from old new k s'
      | O => if starts_with old s then new ++ replace_from old new (pred (length old)) s' else c :: replace_from old new O s'
      end
  end.

Definition str_replace (old new s : pystr) : pystr := replace_from old new O s.

(** [s.split(sep, 1)] when [sep] occurs: the text before the first occurrence and after it. *)
Fixpoint cut (sep s : pystr) : option (pystr * pystr) :=
  if starts_with sep s then Some ([], drop (length sep) s)
  else match s with
       | [] => None
       | c :: s' => (fun p => (c :: p.1, p.2)) <$> cut sep s'
       end.

(** The text after the last occurrence of a character: [s.rsplit(c, 1)[-1]]. *)
Definition after_last (c : Z) (s : pystr) : pystr :=
  foldl (fun acc x => if x =? c then [] else acc ++ [x]) [] s.

(** The characters [str.strip] removes: Unicode white space. *)
Definition is_white (c : Z) : bool :=
  in_class [(9, 13); (28, 32); (133, 133); (160, 160); (5760, 5760); (8192, 8202); (8232, 8233); (8239, 8239); (8287, 8287); (12288, 12288)] c.

Fixpoint drop_white (s : pystr) : pystr :=
  match s with
  | c :: s' => if is_white c then drop_white s' else s
  | [] => []
  end.

Definition strip (s : pystr) : pystr := rev (drop_white (rev (drop_white s))).

Lemma starts_with_app p s : starts_with p (p ++ s) = true.
Proof. induction p as [|x p IH]; simpl; [done|]. by rewrite Z.eqb_refl. Qed.

Lemma starts_with_spec p s : starts_with p s = true <-> exists t, s = p ++ t.
Proof.
  revert s. induction p as [|x p IH]; intros s; simpl; [split; eauto|].
  destruct s as [|y s]; [split; [done|by intros (t & [=])]|].
  rewrite andb_true_iff, Z.eqb_eq, IH. split.
  - intros [-> (t & ->)]. by exists t.
  - intros (t & [= -> ->]). eauto.
Qed.

Lemma RLit_lang l s : lang (RLit l) s <-> s = l.
Proof.
  revert s. induction l as [|c l IH]; intros s; [done|]. change (RLit (c :: l)) with (mk_seq (RClass [(c, c)]) (RLit l)).
  rewrite mk_seq_lang. cbn [lang]. split.
  - intros (s1 & s2 & -> & (x & -> & Hx) & H2). apply IH in H2 as ->. unfold in_class in Hx. simpl in Hx.
    rewrite orb_false_r in Hx. bool_hyps. simpl. f_equal. lia.
  - intros ->. exists [c], l. rewrite IH. split_and!; [done| |done]. exists c. split; [done|].
    unfold in_class. simpl. by rewrite Z.leb_refl.
Qed.
