(* ===== verification/DateTime.v ===== *)
(** [datetime.fromisoformat] and [datetime.isoformat] of the Python standard library, as far as
    the acceptance receipt needs them: which texts are accepted, and whether the result has a
    time zone.  Transcribed from CPython's C implementation, which works on the UTF-8 text
    followed by a zero.

    At the end: a time that [isoformat] writes in UTC is read back with its time zone. *)

From S2P Require Import Prelude Regex.

Open Scope Z_scope.

(** The byte at a position; zero after the end. *)
Definition at_ (s : list Z) (i : nat) : Z := default 0 (s !! i).

Definition digit (c : Z) : bool := (48 <=? c) && (c <=? 57).

(** [parse_digits]: the value of [n] digits at position [p]. *)
Fixpoint parse_digits (s : list Z) (p n : nat) (acc : Z) : option Z :=
  match n with
  | O => Some acc
  | S n' => if digit (at_ s p) then parse_digits s (S p) n' (acc * 10 + (at_ s p - 48)) else None
  end.

(** * Dates *)

(** The first position from [p] on, below the length, that has no digit. *)
Fixpoint digits_end (fuel : nat) (s : list Z) (p : nat) : nat :=
  match fuel with
  | O => p
  | S fuel' => if (p <? length s)%nat && digit (at_ s p) then digits_end fuel' s (S p) else p
  end.

(** [_find_isoformat_datetime_separator]: where the date ends. *)
Definition find_separator (s : list Z) : option nat :=
  let n := length s in
  if (n =? 7)%nat then Some 7%nat
  else if at_ s 4 =? 45 then
    if at_ s 5 =? 87 then
      if (n <? 8)%nat then None
      else if (8 <? n)%nat && (at_ s 8 =? 45) then
        if (n =? 9)%nat then None
        else if (10 <? n)%nat && digit (at_ s 10) then Some 8%nat
        else Some 10%nat
      else Some 8%nat
    else Some 10%nat
  else if at_ s 4 =? 87 then
    let pos := digits_end n s 7 in
    if (pos <? 9)%nat then Some pos
    else if Nat.even pos then Some 7%nat else Some 8%nat
  else Some 8%nat.

Definition is_leap (y : Z) : bool := (y mod 4 =? 0) && (negb (y mod 100 =? 0) || (y mod 400 =? 0)).

Definition days_in_month (y m : Z) : Z :=
  if m =? 2 then (if is_leap y then 29 else 28)
  else if (m =? 4) || (m =? 6) || (m =? 9) || (m =? 11) then 30 else 31.

(** Days before January 1st of a year, counted from January 1st of year 1. *)
Definition days_before_year (y : Z) : Z := (y - 1) * 365 + (y - 1) / 4 - (y - 1) / 100 + (y - 1) / 400.

(** The largest day number, of 9999-12-31. *)
Definition max_ordinal : Z := 3652059.

Definition valid_date (y m d : Z) : bool :=
  (1 <=? y) && (y <=? 9999) && (1 <=? m) && (m <=? 12) && (1 <=? d) && (d <=? days_in_month y m).

(** [iso_to_ymd]: whether year, week and day of week name a day that exists. *)
Definition valid_iso_week (y w d : Z) : bool :=
  let first_day := days_before_year y + 1 in
  let first_weekday := (first_day + 6) mod 7 in
  let week1_monday := first_day - first_weekday + (if 3 <? first_weekday then 7 else 0) in
  let ordinal := week1_monday + (w - 1) * 7 + d - 1 in
  (1 <=? y) &&
  (((1 <=? w) && (w <=? 52)) || ((w =? 53) && ((first_weekday =? 3) || ((first_weekday =? 2) && is_leap y)))) &&
  (1 <=? d) && (d <=? 7) && (1 <=? ordinal) && (ordinal <=? max_ordinal).

(** [parse_isoformat_date] on the first [n] bytes, with the checks of the constructor. *)
Definition parse_date (s : list Z) (n : nat) : option unit :=
  y ← parse_digits s 0 4 0;
  let uses_separator := at_ s 4 =? 45 in
  let p := if uses_separator then 5%nat else 4%nat in
  let skip q := if uses_separator then (if at_ s q =? 45 then Some (S q) else None) else Some q in
  if at_ s p =? 87 then
    w ← parse_digits s (p + 1) 2 0;
    d ← (if (p + 3 <? n)%nat then q ← skip (p + 3)%nat; parse_digits s q 1 0 else Some 1);
    if valid_iso_week y w d then Some tt else None
  else
    m ← parse_digits s p 2 0;
    q ← skip (p + 2)%nat;
    d ← parse_digits s q 2 0;
    if (q + 2 =? n)%nat && valid_date y m d then Some tt else None.

(** * Times *)

Record time_fields := MkTime { t_hour : Z; t_minute : Z; t_second : Z; t_micro : Z }.

Definition set_field (i : nat) (v : Z) (t : time_fields) : time_fields :=
  match i with
  | O => MkTime v (t_minute t) (t_second t) (t_micro t)
  | S O => MkTime (t_hour t) v (t_second t) (t_micro t)
  | _ => MkTime (t_hour t) (t_minute t) v (t_micro t)
  end.

Definition correction (digits : nat) : Z := 10 ^ (6 - Z.of_nat digits).

(** The fraction of a second from [p] to [e]; the flag tells that text is left. *)
Definition parse_fraction (s : list Z) (p e : nat) (t : time_fields) : option (time_fields * bool) :=
  let to_parse := Nat.min (e - p) 6 in
  u ← parse_digits s p to_parse 0;
  let q := digits_end (length s) s (p + to_parse) in
  Some (MkTime (t_hour t) (t_minute t) (t_second t) (u * correction to_parse), negb (at_ s q =? 0)).

(** [parse_hh_mm_ss_ff] from field [i] on; [fields] counts the fields left. *)
Fixpoint parse_fields (s : list Z) (fields i p e : nat) (has_separator : bool) (t : time_fields)
    : option (time_fields * bool) :=
  match fields with
  | O => parse_fraction s p e t
  | S fields' =>
      v ← parse_digits s p 2 0;
      let t := set_field i v t in
      let c := at_ s (p + 2) in
      let has_separator := if (i =? 0)%nat then c =? 58 else has_separator in
      if (e <=? p + 3)%nat then Some (t, negb (c =? 0))
      else if has_separator && (c =? 58) then parse_fields s fields' (S i) (p + 3) e has_separator t
      else if (c =? 46) || (c =? 44) then parse_fraction s (p + 3) e t
      else if negb has_separator then parse_fields s fields' (S i) (p + 2) e has_separator t
      else None
  end.

Definition parse_hh_mm_ss_ff (s : list Z) (p e : nat) : option (time_fields * bool) :=
  parse_fields s 3 0 p e true (MkTime 0 0 0 0).

Definition valid_time (t : time_fields) : bool := (t_hour t <? 24) && (t_minute t <? 60) && (t_second t <? 60).

(** The first position from [p] on with a sign or a [Z]; at least one position is passed. *)
Fixpoint zone_position (fuel : nat) (s : list Z) (p : nat) : nat :=
  let c := at_ s p in
  if (c =? 43) || (c =? 45) || (c =? 90) then p
  else match fuel with
       | O => S p
       | S fuel' => if (S p <? length s)%nat then zone_position fuel' s (S p) else S p
       end.

(** The offset of a zone is less than a day. *)
Definition valid_offset (t : time_fields) : bool :=
  let offset := t_hour t * 3600 + t_minute t * 60 + t_second t in
  (offset =? 0) || (offset * 1000000 + t_micro t <? 86400 * 1000000).

(** [parse_isoformat_time]: whether there is a time zone. *)
Definition parse_time (s : list Z) (p : nat) : option bool :=
  let e := length s in
  let z := zone_position e s p in
  tm ← parse_hh_mm_ss_ff s p z;
  if (z =? e)%nat then (if tm.2 || negb (valid_time tm.1) then None else Some false)
  else if at_ s z =? 90 then
    if negb (at_ s (S z) =? 0) || negb (valid_time tm.1) then None else Some true
  else
    zone ← parse_hh_mm_ss_ff s (S z) e;
    if zone.2 || negb (valid_offset zone.1) || negb (valid_time tm.1) then None else Some true.

(** * Texts *)

(** A surrogate in the place of the separator is read as a [T]. *)
Definition sanitize (s : pystr) : pystr :=
  match list_find (fun i => is_surrogate (default 0 (s !! i)) = true) [7; 8; 10]%nat with
  | Some (_, i) => <[i := 84]> s
  | None => s
  end.

(** The length in bytes of the character with this first byte. *)
Definition char_width (c : Z) : nat := if c <? 128 then 1 else if 240 <=? c then 4 else if 224 <=? c then 3 else 2.

(** [datetime.fromisoformat(text)]: [None] is [ValueError], [Some b] tells whether the
    result's [tzinfo] is set. *)
Definition fromisoformat (text : pystr) : option bool :=
  if (length text <? 7)%nat then None
  else
    b ← utf8_encode (sanitize text);
    let s := byteZ <$> b in
    loc ← find_separator s;
    _ ← parse_date s loc;
    if (loc <? length s)%nat then parse_time s (loc + char_width (at_ s loc))%nat else Some false.

(** [datetime.now(timezone.utc)]; the clock gives the fields of a date that exists. *)
Record utc_time := MkUtc { u_year : Z; u_month : Z; u_day : Z; u_time : time_fields }.

Definition valid_utc (u : utc_time) : bool :=
  valid_date (u_year u) (u_month u) (u_day u) && valid_time (u_time u) &&
  (0 <=? t_hour (u_time u)) && (0 <=? t_minute (u_time u)) && (0 <=? t_second (u_time u)) &&
  (0 <=? t_micro (u_time u)) && (t_micro (u_time u) <? 1000000).

(** [n] in decimal with leading zeros, in [width] digits. *)
Fixpoint zero_padded (width : nat) (n : Z) : pystr :=
  match width with O => [] | S w => zero_padded w (n / 10) ++ [48 + n mod 10] end.

(** [u.isoformat()] of a time in UTC. *)
Definition isoformat (u : utc_time) : pystr :=
  let t := u_time u in
  zero_padded 4 (u_year u) ++ [45] ++ zero_padded 2 (u_month u) ++ [45] ++ zero_padded 2 (u_day u) ++ [84] ++
  zero_padded 2 (t_hour t) ++ [58] ++ zero_padded 2 (t_minute t) ++ [58] ++ zero_padded 2 (t_second t) ++
  (if t_micro t =? 0 then [] else [46] ++ zero_padded 6 (t_micro t)) ++ py "+00:00".

Example iso_aware :
  fromisoformat (py "2026-01-02T03:04:05.678901+00:00") = Some true /\
  fromisoformat (py "2026-01-02T03:04:05") = Some false /\
  fromisoformat (py "2025-02-29T03:04:05+00:00") = None /\
  fromisoformat (py "20260102T0304-0530") = Some true /\
  fromisoformat (py "2020-W53-5") = Some false /\
  fromisoformat (py "2024-02-29T12:30+24:00") = None /\
  isoformat (MkUtc 2026 1 2 (MkTime 3 4 5 0)) = py "2026-01-02T03:04:05+00:00".
Proof. vm_compute. done. Qed.

Definition all_digits (l : list Z) : Prop := Forall (fun c => 48 <= c <= 57) l.

Lemma zero_padded_digits w n : length (zero_padded w n) = w /\ all_digits (zero_padded w n).
Proof.
  revert n. induction w as [|w IH]; intros n; simpl; [split; [done|constructor]|].
  destruct (IH (n / 10)) as [Hl Hd]. rewrite length_app, Hl. split; [simpl; lia|].
  apply Forall_app. split; [done|]. pose proof (Z.mod_pos_bound n 10 ltac:(lia)). repeat constructor; lia.
Qed.

Lemma at_app_r (pre post : list Z) i : at_ (pre ++ post) (length pre + i) = at_ post i.
Proof. unfold at_. by rewrite lookup_app_r, Nat.add_comm, Nat.add_sub by lia. Qed.

Lemma parse_app (pre post : list Z) p n acc : parse_digits (pre ++ post) (length pre + p) n acc = parse_digits post p n acc.
Proof.
  revert p acc. induction n as [|n IH]; intros p acc; cbn [parse_digits]; [done|].
  by rewrite at_app_r, <-Nat.add_succ_r, IH.
Qed.

Lemma digit_true c : 48 <= c <= 57 -> digit c = true.
Proof. unfold digit. lia. Qed.

(** The digits of a list, as a number after [acc]. *)
Definition value_from (acc : Z) (l : list Z) : Z := foldl (fun a c => a * 10 + (c - 48)) acc l.

Lemma parse_digits_list l post acc : all_digits l -> parse_digits (l ++ post) 0 (length l) acc = Some (value_from acc l).
Proof.
  revert acc. induction l as [|c l IH]; intros acc; [done|]. intros [Hc Hl]%Forall_cons. cbn [length parse_digits].
  change (at_ ((c :: l) ++ post) 0) with c. rewrite digit_true by done.
  change ((c :: l) ++ post) with ([c] ++ (l ++ post)). change 1%nat with (length [c] + 0)%nat. rewrite parse_app. by apply IH.
Qed.

Lemma value_zero_padded w n acc : 0 <= n < 10 ^ Z.of_nat w -> value_from acc (zero_padded w n) = acc * 10 ^ Z.of_nat w + n.
Proof.
  revert n. induction w as [|w IH]; intros n Hn; cbn [zero_padded].
  - change (10 ^ Z.of_nat 0) with 1 in Hn. cbn. lia.
  - rewrite Nat2Z.inj_succ, Z.pow_succ_r in * by lia. unfold value_from. rewrite foldl_app.
    change (foldl _ acc (zero_padded w (n / 10))) with (value_from acc (zero_padded w (n / 10))). cbn [foldl].
    rewrite IH.
    + pose proof (Z_div_mod_eq_full n 10). lia.
    + split; [apply Z.div_pos; lia|apply Z.div_lt_upper_bound; lia].
Qed.

(** Reading the number written after [pre]. *)
Lemma parse_padded pre w n post :
  0 <= n < 10 ^ Z.of_nat w -> parse_digits (pre ++ zero_padded w n ++ post) (length pre) w 0 = Some n.
Proof.
  intros Hn. rewrite <-(Nat.add_0_r (length pre)), parse_app. destruct (zero_padded_digits w n) as [Hl Hd].
  rewrite <-Hl at 2. rewrite parse_digits_list by done. by rewrite value_zero_padded.
Qed.

(** * The text of a time *)

(** Everything before the zone. *)
Definition iso_body (u : utc_time) : pystr :=
  let t := u_time u in
  zero_padded 4 (u_year u) ++ [45] ++ zero_padded 2 (u_month u) ++ [45] ++ zero_padded 2 (u_day u) ++ [84] ++
  zero_padded 2 (t_hour t) ++ [58] ++ zero_padded 2 (t_minute t) ++ [58] ++ zero_padded 2 (t_second t) ++
  (if t_micro t =? 0 then [] else [46] ++ zero_padded 6 (t_micro t)).

Lemma isoformat_body u : isoformat u = iso_body u ++ py "+00:00".
Proof. unfold isoformat, iso_body. cbv zeta. by rewrite <-!app_assoc. Qed.

(** The characters of the body: no [Z], no plus sign, no surrogate. *)
Definition iso_char (c : Z) : Prop := 45 <= c <= 84.

Lemma iso_body_chars u : Forall iso_char (iso_body u).
Proof.
  assert (forall w n, Forall iso_char (zero_padded w n)) as Hz.
  { intros w n. destruct (zero_padded_digits w n) as [_ H]. eapply Forall_impl; [exact H|]. unfold iso_char. lia. }
  assert (forall c, 45 <= c <= 84 -> Forall iso_char [c]) as H1 by (intros; by apply Forall_singleton).
  unfold iso_body. cbv zeta. destruct (t_micro (u_time u) =? 0); rewrite !Forall_app; split_and!;
    first [apply Hz | apply H1; lia | apply Forall_nil_2].
Qed.

Lemma replace_absent old new l post c :
  hd_error old = Some c -> Forall (fun x => x <> c) l -> replace_from old new O (l ++ post) = l ++ replace_from old new O post.
Proof.
  intros Ho. destruct old as [|c' old]; [done|]. injection Ho as ->. induction 1 as [|x l Hx Hl IH]; [done|].
  cbn [replace_from app starts_with]. rewrite (proj2 (Z.eqb_neq c x)) by congruence. cbn [andb]. by rewrite IH.
Qed.

(** [replace("+00:00", "Z")] and [replace("Z", "+00:00")] undo each other on such a text. *)
Lemma zone_replaced u :
  str_replace (py "Z") (py "+00:00") (str_replace (py "+00:00") (py "Z") (isoformat u)) = isoformat u.
Proof.
  rewrite isoformat_body. pose proof (iso_body_chars u) as Hc. unfold str_replace.
  assert (forall c, c = 43 \/ c = 90 -> Forall (fun x => x <> c) (iso_body u)) as Ha.
  { intros c H. eapply Forall_impl; [exact Hc|]. unfold iso_char. lia. }
  rewrite (replace_absent (py "+00:00") (py "Z") (iso_body u) _ 43 eq_refl (Ha 43 ltac:(auto))).
  change (replace_from (py "+00:00") (py "Z") 0 (py "+00:00")) with (py "Z").
  by rewrite (replace_absent (py "Z") (py "+00:00") (iso_body u) _ 90 eq_refl (Ha 90 ltac:(auto))).
Qed.

Lemma utf8_ascii s : Forall (fun c => 0 <= c < 128) s -> utf8_encode s = Some (byte_of_Z <$> s) /\ (byteZ <$> (byte_of_Z <$> s)) = s.
Proof.
  induction 1 as [|c s Hc _ [IH1 IH2]]; [done|]. cbn [utf8_encode]. rewrite IH1. split.
  - unfold utf8_char. assert (is_scalar c = true) as ->. { unfold is_scalar, is_surrogate. lia. }
    simpl. destruct (Z.ltb_spec c 128); [done|lia].
  - rewrite !fmap_cons, IH2. f_equal. apply byteZ_byte_of_Z. lia.
Qed.

Lemma sanitize_id s : Forall (fun c => 0 <= c < 128) s -> sanitize s = s.
Proof.
  intros Hs. unfold sanitize. assert (forall i, is_surrogate (default 0 (s !! i)) = false) as H.
  { intros i. destruct (s !! i) as [c|] eqn:E; [|done]. pose proof (Forall_lookup_1 _ _ _ _ Hs E) as Hc. cbv beta in Hc. cbn. unfold is_surrogate. lia. }
  destruct (list_find _ _) as [[j i]|] eqn:E; [|done]. apply list_find_Some in E as (_ & E & _). congruence.
Qed.

(** * Reading the text back *)

Lemma two_digits n : 0 <= n < 100 ->
  exists a b, zero_padded 2 n = [a; b] /\ digit a = true /\ digit b = true /\ (0 * 10 + (a - 48)) * 10 + (b - 48) = n.
Proof.
  intros Hn. pose proof (value_zero_padded 2 n 0 Hn) as Hv. destruct (zero_padded_digits 2 n) as [Hl Hd].
  destruct (zero_padded 2 n) as [|a [|b [|]]]; try done. exists a, b. unfold all_digits in Hd. rewrite !Forall_cons in Hd.
  split; [done|]. rewrite !digit_true by tauto. split_and!; try done.
Qed.

Lemma four_digits n : 0 <= n < 10000 ->
  exists a b c d, zero_padded 4 n = [a; b; c; d] /\ digit a = true /\ digit b = true /\ digit c = true /\ digit d = true /\
  (((0 * 10 + (a - 48)) * 10 + (b - 48)) * 10 + (c - 48)) * 10 + (d - 48) = n.
Proof.
  intros Hn. pose proof (value_zero_padded 4 n 0 Hn) as Hv. destruct (zero_padded_digits 4 n) as [Hl Hd].
  destruct (zero_padded 4 n) as [|a [|b [|c [|d [|]]]]]; try done. exists a, b, c, d. unfold all_digits in Hd. rewrite !Forall_cons in Hd.
  split; [done|]. rewrite !digit_true by tauto. split_and!; try done.
Qed.

Lemma six_digits n : exists a b c d e f, zero_padded 6 n = [a; b; c; d; e; f] /\
  digit a = true /\ digit b = true /\ digit c = true /\ digit d = true /\ digit e = true /\ digit f = true.
Proof.
  destruct (zero_padded_digits 6 n) as [Hl Hd]. destruct (zero_padded 6 n) as [|a [|b [|c [|d [|e [|f [|]]]]]]]; try done.
  exists a, b, c, d, e, f. unfold all_digits in Hd. rewrite !Forall_cons in Hd. split; [done|]. rewrite !digit_true by tauto. done.
Qed.

Lemma digit_not c x : digit c = true -> x < 48 \/ 57 < x -> (c =? x) = false.
Proof. unfold digit. intros H Hx. apply Z.eqb_neq. lia. Qed.

Section Read.
Context (y m d h mi sec : Z).
Context (Hdate : valid_date y m d = true) (Htime : h <? 24 = true /\ mi <? 60 = true /\ sec <? 60 = true).
Context (y1 y2 y3 y4 m1 m2 d1 d2 h1 h2 i1 i2 s1 s2 : Z).
Context (Hy : digit y1 = true /\ digit y2 = true /\ digit y3 = true /\ digit y4 = true).
Context (Hm : digit m1 = true /\ digit m2 = true) (Hd : digit d1 = true /\ digit d2 = true).
Context (Hh : digit h1 = true /\ digit h2 = true) (Hi : digit i1 = true /\ digit i2 = true) (Hs : digit s1 = true /\ digit s2 = true).
Context (Ey : (((0 * 10 + (y1 - 48)) * 10 + (y2 - 48)) * 10 + (y3 - 48)) * 10 + (y4 - 48) = y).
Context (Em : (0 * 10 + (m1 - 48)) * 10 + (m2 - 48) = m) (Ed : (0 * 10 + (d1 - 48)) * 10 + (d2 - 48) = d).
Context (Eh : (0 * 10 + (h1 - 48)) * 10 + (h2 - 48) = h) (Ei : (0 * 10 + (i1 - 48)) * 10 + (i2 - 48) = mi).
Context (Es : (0 * 10 + (s1 - 48)) * 10 + (s2 - 48) = sec).

Definition stem : list Z := [y1; y2; y3; y4; 45; m1; m2; 45; d1; d2; 84; h1; h2; 58; i1; i2; 58; s1; s2].

Lemma stem_date rest : find_separator (stem ++ rest) = Some 10%nat /\ parse_date (stem ++ rest) 10 = Some tt.
Proof.
  split.
  - unfold find_separator. cbn [length app stem at_ lookup list_lookup]. unfold at_. cbn. rewrite digit_not by (tauto || lia). done.
  - unfold parse_date. unfold stem. cbn. unfold at_. cbn.
    destruct Hy as (-> & -> & -> & ->). cbn. rewrite (digit_not m1 87) by (tauto || lia). destruct Hm as (-> & ->), Hd as (-> & ->). cbn.
    match goal with |- context [valid_date ?a ?b ?c] => replace (valid_date a b c) with true; [done|] end.
    rewrite <-Hdate. f_equal; lia.
Qed.

(** The time up to the zone, with or without a fraction. *)
Definition zone : list Z := py "+00:00".

Lemma stem_time fraction :
  fraction = [] \/ (exists a b c d' e f, fraction = [46; a; b; c; d'; e; f] /\
    digit a = true /\ digit b = true /\ digit c = true /\ digit d' = true /\ digit e = true /\ digit f = true) ->
  parse_time (stem ++ fraction ++ zone) 11 = Some true.
Proof.
  assert (forall t n, digit t = true -> n = 43 \/ n = 45 \/ n = 90 -> (t =? n) = false) as Hn by (intros; apply digit_not; [done|lia]).
  assert (valid_time (MkTime h mi sec 0) = true /\ forall us, valid_time (MkTime h mi sec us) = true) as [Hv0 Hv].
  { unfold valid_time. simpl. destruct Htime as (-> & -> & ->). done. }
  destruct Hh as (Hh1 & Hh2), Hi as (Hi1 & Hi2), Hs as (Hs1 & Hs2).
  intros [->|(a & b & c & d' & e & f & -> & Ha & Hb & Hc & Hd' & He & Hf)].
  - unfold parse_time. assert (zone_position (length (stem ++ [] ++ zone)) (stem ++ [] ++ zone) 11 = 19%nat) as ->.
    { unfold stem, zone. cbn. unfold at_. cbn.
      repeat (rewrite (Hn _ 43), (Hn _ 45), (Hn _ 90) by auto; cbn). done. }
    unfold parse_hh_mm_ss_ff, stem, zone. cbn. unfold at_. cbn.
    rewrite Hh1, Hh2. cbn. rewrite Hi1, Hi2. cbn. rewrite Hs1, Hs2. cbn.
    match goal with |- context [valid_time ?t] => replace (valid_time t) with true; [done|] end.
    rewrite <-Hv0. f_equal. f_equal; lia.
  - unfold parse_time.
    assert (zone_position (length (stem ++ [46; a; b; c; d'; e; f] ++ zone)) (stem ++ [46; a; b; c; d'; e; f] ++ zone) 11 = 26%nat) as ->.
    { unfold stem, zone. cbn. unfold at_. cbn.
      repeat (rewrite (Hn _ 43), (Hn _ 45), (Hn _ 90) by auto; cbn). done. }
    unfold parse_hh_mm_ss_ff, stem, zone. cbn. unfold at_. cbn.
    rewrite Hh1, Hh2. cbn. rewrite Hi1, Hi2. cbn. rewrite Hs1, Hs2. cbn. unfold parse_fraction. cbn. unfold at_. cbn.
    rewrite Ha, Hb, Hc, Hd', He, Hf. cbn.
    match goal with |- context [valid_time (MkTime ?x ?y ?z ?us)] => replace (valid_time (MkTime x y z us)) with true; [done|] end.
    rewrite <-(Hv 0). unfold valid_time. cbn. repeat f_equal; lia.
Qed.
End Read.

Lemma isoformat_read u : valid_utc u = true -> fromisoformat (isoformat u) = Some true.
Proof.
  intros Hu.
  assert (Forall (fun c => 0 <= c < 128) (isoformat u)) as Hascii.
  { rewrite isoformat_body. apply Forall_app. split; [|by repeat constructor].
    eapply Forall_impl; [apply iso_body_chars|]. unfold iso_char. lia. }
  unfold fromisoformat. rewrite sanitize_id by done. destruct (utf8_ascii _ Hascii) as [-> Eb]. cbn [mbind option_bind]. rewrite Eb. clear Eb Hascii.
  unfold valid_utc in Hu. destruct u as [y m d [h mi sec us]]. cbn [u_year u_month u_day u_time t_hour t_minute t_second t_micro] in Hu.
  bool_hyps. match goal with H : valid_date _ _ _ = true |- _ => rename H into Hdate end.
  match goal with H : valid_time _ = true |- _ => rename H into Ht end. unfold valid_time in Ht. cbn in Ht. bool_hyps.
  assert (0 <= y < 10000 /\ 0 <= m < 100 /\ 0 <= d < 100) as (Ry & Rm & Rd).
  { unfold valid_date in Hdate. bool_hyps. assert (days_in_month y m <= 31); [|lia]. unfold days_in_month. repeat case_match; lia. }
  destruct (four_digits y Ry) as (y1 & y2 & y3 & y4 & Ey & Hy1 & Hy2 & Hy3 & Hy4 & Vy).
  destruct (two_digits m Rm) as (m1 & m2 & Em & Hm1 & Hm2 & Vm). destruct (two_digits d Rd) as (d1 & d2 & Ed & Hd1 & Hd2 & Vd).
  destruct (two_digits h ltac:(lia)) as (h1 & h2 & Eh & Hh1 & Hh2 & Vh). destruct (two_digits mi ltac:(lia)) as (i1 & i2 & Ei & Hi1 & Hi2 & Vi).
  destruct (two_digits sec ltac:(lia)) as (s1 & s2 & Es & Hs1 & Hs2 & Vs).
  assert (exists fraction, isoformat (MkUtc y m d (MkTime h mi sec us)) = stem y1 y2 y3 y4 m1 m2 d1 d2 h1 h2 i1 i2 s1 s2 ++ fraction ++ zone /\
    (fraction = [] \/ (exists a b c d' e f, fraction = [46; a; b; c; d'; e; f] /\
    digit a = true /\ digit b = true /\ digit c = true /\ digit d' = true /\ digit e = true /\ digit f = true))) as (fraction & -> & Hfr).
  { unfold isoformat. cbn [u_year u_month u_day u_time t_hour t_minute t_second t_micro]. rewrite Ey, Em, Ed, Eh, Ei, Es.
    destruct (us =? 0); [by exists []; split; [|left]|].
    destruct (six_digits us) as (a & b & c & d' & e & f & E & Hf). rewrite E. exists [46; a; b; c; d'; e; f]. split; [done|]. right. eauto 10. }
  assert (find_separator (stem y1 y2 y3 y4 m1 m2 d1 d2 h1 h2 i1 i2 s1 s2 ++ fraction ++ zone) = Some 10%nat /\
    parse_date (stem y1 y2 y3 y4 m1 m2 d1 d2 h1 h2 i1 i2 s1 s2 ++ fraction ++ zone) 10 = Some tt) as [Hsep Hpd].
  { eapply (stem_date y m d h mi sec); try done. split_and!; by apply Z.ltb_lt. }
  rewrite Hsep. cbn [mbind option_bind]. rewrite Hpd. cbn [mbind option_bind].
  assert (parse_time (stem y1 y2 y3 y4 m1 m2 d1 d2 h1 h2 i1 i2 s1 s2 ++ fraction ++ zone) 11 = Some true) as Hp.
  { eapply (stem_time h mi sec); try done. split_and!; by apply Z.ltb_lt. }
  rewrite length_app. exact Hp.
Qed.
