(* ===== verification/Receipt.v ===== *)
(** Acceptance receipts (security_acceptance.py): the constants of the contract, [_exact_keys],
    [_is_digest] and [validate_receipt], on dynamically typed values.

    [_fail] raises [ReceiptValidationError] with a fixed message. *)

From S2P Require Import Prelude PyVal Sha256 Json Regex DateTime.

Open Scope Z_scope.

(** * Outcomes *)

(** A value, a [ReceiptValidationError], or another exception. *)
Inductive outcome (A : Type) :=
  | Valid (a : A)
  | Blocked (message : pystr)
  | Raise (e : exn).
Arguments Valid {A} a.
Arguments Blocked {A} message.
Arguments Raise {A} e.

Definition obind {A B} (m : outcome A) (k : A -> outcome B) : outcome B :=
  match m with Valid a => k a | Blocked t => Blocked t | Raise e => Raise e end.

Declare Scope receipt_scope.
Delimit Scope receipt_scope with receipt.
Notation "'let^' x := m 'in' k" := (obind m (fun x => k))
  (at level 10, x pattern, m at level 100, k at level 200) : receipt_scope.
(** [if c: _fail(t)] *)
Notation "'block_if' c 'with' t ; k" := (if c then Blocked t else k)
  (at level 10, c at level 100, t at level 99, k at level 200) : receipt_scope.
Open Scope receipt_scope.

Definition _fail {A} (message : pystr) : outcome A := Blocked message.

(** Membership and inclusion of strings in a set, which is kept as a list. *)
Definition mem (x : pystr) (l : list pystr) : bool := bool_decide (x ∈ l).
Definition incl_set (l m : list pystr) : bool := forallb (fun x => mem x m) l.
Definition same_set (l m : list pystr) : bool := incl_set l m && incl_set m l.
Definition distinct (l : list pystr) : bool := bool_decide (NoDup l).

(** [str(n)] *)
Definition show (n : Z) : pystr := digit_char <$> decimal n.

(** * Constants *)

(** [b.hex()] *)
Definition hexdigest (b : bytes) : pystr := b ≫= fun x => [hex_digit (byteZ x / 16); hex_digit (byteZ x mod 16)].

(** [hashlib.sha256(name.encode("utf-8")).hexdigest()[:12]] *)
Definition case_digest (name : pystr) : pystr := take 12 (hexdigest (sha256 (default [] (utf8_encode name)))).

Definition RECEIPT_SCHEMA : pystr := py "decent-wallet-security-acceptance-receipt-v1".

Definition android_optional_class : pystr := py "org.decentwallet.wallet.android.AndroidDirectDhtRegistryInteropTest".

Definition ANDROID_OPTIONAL_SKIPS : list pystr :=
  [android_optional_class ++ py "::readsHistoryPublishesAndFreshReadsAgainstPythonRegistryPeer"].

Definition OPTIONAL_SKIPS : list pystr :=
  [py "tests.test_android_lan_host_harness::test_device_driver_archives_consumed_owned_helper_before_launch";
   py "tests.test_portable_latch::test_actual_kotlin_authored_ciphertext_through_python_public_reader[kotlin-bound.dw-False]";
   py "tests.test_portable_latch::test_actual_kotlin_authored_ciphertext_through_python_public_reader[kotlin-legacy.dw-True]";
   py "tests.test_portable_latch::test_large_positive_integer_real_encrypted_public_readers[kotlin]"].

Definition OPTIONAL_PASSED_CASES : list pystr :=
  [py "tests.test_portable_latch::test_concrete_transport_has_explicit_environment_configuration"].

Definition PYTHON_OPTIONAL_CASES : list pystr := OPTIONAL_SKIPS ++ OPTIONAL_PASSED_CASES.

(** The names with their digests, computed once. *)
Definition python_optional_digests : list (pystr * pystr) :=
  Eval vm_compute in (fun name => (case_digest name, name)) <$> PYTHON_OPTIONAL_CASES.

Definition android_optional_digest : pystr :=
  Eval vm_compute in case_digest (hd [] ANDROID_OPTIONAL_SKIPS).

Definition optional_case (status digest : pystr) : pystr := py "optional-case-" ++ status ++ [45] ++ digest.
Definition optional_live_peer_case (status digest : pystr) : pystr := py "optional-live-peer-case-" ++ status ++ [45] ++ digest.

Definition passed : pystr := py "passed".
Definition skipped : pystr := py "skipped".
Definition mandatory_cases_passed : pystr := py "mandatory-cases-passed".
Definition android_jvm_cases_passed : pystr := py "android-jvm-cases-passed".
Definition receipt_emitted : pystr := py "receipt-emitted".

Definition python_security_matrix : pystr := py "python-security-matrix".
Definition android_wallet_jvm_security : pystr := py "android-wallet-jvm-security".
Definition local_registry_integration : pystr := py "local-registry-integration".

(** * Patterns *)

Definition hexadecimal (n : nat) : regex := RTimes n (RClass [(48, 57); (97, 102)]).
(** [[a-z0-9][a-z0-9-]{0,79}] *)
Definition identifier : regex :=
  RSeq (RClass (cls_lower ++ cls_digit)) (RRep (RClass (cls_lower ++ cls_digit ++ chr "-")) 0 (Some 79%nat)).
(** Three numbers with dots between them, then letters, digits, dots, plus and minus signs. *)
Definition python_version_pattern : regex :=
  RSeq (RPlus (RClass cls_digit)) (RSeq (RClass (chr ".")) (RSeq (RPlus (RClass cls_digit)) (RSeq (RClass (chr "."))
    (RSeq (RPlus (RClass cls_digit)) (RRep (RStar (RClass (cls_upper ++ cls_lower ++ cls_digit ++ chr ".+-"))) 0 (Some 1%nat)))))).
(** [[A-Za-z0-9_.-]{1,n}] *)
Definition word_pattern (n : nat) : regex := RRep (RClass (cls_upper ++ cls_lower ++ cls_digit ++ chr "_.-")) 1 (Some n).
(** [optional-case-(passed|skipped)-([0-9a-f]{12})] *)
Definition optional_case_pattern : regex :=
  mk_seq (RLit (py "optional-case-")) (RSeq (RAlt (RLit passed) (RLit skipped)) (RSeq (RClass (chr "-")) (hexadecimal 12))).

(** * Objects *)

(** [value[key]] of a dict with [str] keys. *)
Fixpoint str_get (key : pystr) (d : pydict) : option pyval :=
  match d with
  | [] => None
  | (k, v) :: d' => match k with PStr s => if bool_decide (s = key) then Some v else str_get key d' | _ => str_get key d' end
  end.

Definition item (d : pydict) (key : string) : outcome pyval :=
  match str_get (py key) d with Some v => Valid v | None => Raise KeyError end.

Definition str_keys (d : pydict) : list pystr := omap (fun kv => match kv.1 with PStr s => Some s | _ => None end) d.

Definition _exact_keys (value : pyval) (expected : list string) (field : pystr) : outcome pydict :=
  match value with
  | PDict d =>
      block_if negb (forallb (fun kv => match kv.1 with PStr _ => true | _ => false end) d) with field ++ py " must be an object";
      block_if negb (incl_set (str_keys d) (py <$> expected)) with field ++ py " contains an unapproved field";
      block_if negb (incl_set (py <$> expected) (str_keys d)) with field ++ py " is missing a required field";
      Valid d
  | _ => Blocked (field ++ py " must be an object")
  end.

(** A [str] that matches a pattern. *)
Definition str_matching (r : regex) (v : pyval) : option pystr :=
  match v with PStr s => if fullmatch r s then Some s else None | _ => None end.

Definition _is_digest (value : pyval) : bool := match str_matching (hexadecimal 64) value with Some _ => true | None => false end.

(** [v == s] for a [str] constant. *)
Definition is_str (v : pyval) (s : pystr) : bool := py_eq v (PStr s).

(** * Profiles *)

Inductive profile := Core | AndroidJvm | Full.

Definition profile_name (p : profile) : pystr :=
  match p with Core => py "core" | AndroidJvm => py "android-jvm" | Full => py "full" end.

(** [profile not in {...}]: an unhashable value raises [TypeError]. *)
Definition read_profile (v : pyval) : outcome profile :=
  if negb (hashable v) then Raise TypeError
  else if is_str v (profile_name Core) then Valid Core
  else if is_str v (profile_name AndroidJvm) then Valid AndroidJvm
  else if is_str v (profile_name Full) then Valid Full
  else Blocked (py "receipt profile is invalid").

Definition required_suites (p : profile) : list pystr :=
  match p with
  | Core => [python_security_matrix]
  | AndroidJvm => [android_wallet_jvm_security]
  | Full => [python_security_matrix; android_wallet_jvm_security; local_registry_integration]
  end.

Definition wallet_container_known_answer : pystr := py "wallet-container-known-answer".
Definition kotlin_artifacts : list pystr := [py "kotlin-bound"; py "kotlin-legacy"; py "kotlin-bignum"].

Definition required_artifacts (p : profile) : list pystr :=
  match p with
  | Core => [wallet_container_known_answer]
  | AndroidJvm => kotlin_artifacts
  | Full => wallet_container_known_answer :: kotlin_artifacts
  end.

Definition identity_artifacts : list pystr :=
  [py "identity-owner-key-rotation-legacy-candidate-envelope";
   py "identity-owner-key-rotation-versioned-history-candidate-envelope"].

Definition allowed_artifacts (p : profile) : list pystr :=
  required_artifacts p ++ identity_artifacts ++ (match p with AndroidJvm => [wallet_container_known_answer] | _ => [] end).

(** * Suites *)

(** A count: an [int] that is not a [bool] and not negative. *)
Definition read_count (message : pystr) (v : pyval) : outcome Z :=
  match v with
  | PInt z => if z <? 0 then Blocked message else Valid z
  | _ => Blocked message
  end.

Fixpoint str_list (r : regex) (l : list pyval) : option (list pystr) :=
  match l with
  | [] => Some []
  | v :: l' => match str_matching r v, str_list r l' with Some s, Some t => Some (s :: t) | _, _ => None end
  end.

(** The transitions: distinct identifiers, at least one. *)
Definition read_transitions (v : pyval) : option (list pystr) :=
  match v with
  | PList ((_ :: _) as l) =>
      match str_list identifier l with Some t => if distinct t then Some t else None | None => None end
  | _ => None
  end.

(** The groups of a match of [optional_case_pattern]: digest and status. *)
Definition match_optional_case (state : pystr) : option (pystr * pystr) :=
  if fullmatch optional_case_pattern state then
    let n := length state in
    Some (drop (n - 12) state, take (n - 27) (drop 14 state))
  else None.

(** The dict [disclosed]: for each digest the status disclosed last. *)
Definition disclosed_cases (transitions : list pystr) : list (pystr * pystr) :=
  foldl (fun d state => match match_optional_case state with Some (digest, status) => obj_set d digest status | None => d end)
    [] transitions.

Definition lookup_status (digest : pystr) (d : list (pystr * pystr)) : option pystr :=
  snd <$> List.find (fun p => bool_decide (p.1 = digest)) d.

(** The transitions are distinct, so the list stands for its set. *)
Definition check_python_suite (transitions : list pystr) (tests skips : Z) : outcome unit :=
  let disclosed := disclosed_cases transitions in
  block_if negb (mem mandatory_cases_passed transitions) with py "Python receipt is missing the mandatory-pass transition";
  block_if negb (same_set (List.filter (fun state => negb (bool_decide (state = mandatory_cases_passed))) transitions)
                          ((fun p => optional_case p.2 p.1) <$> disclosed))
           || negb (same_set disclosed.*1 python_optional_digests.*1)
    with py "Python receipt has unexpected optional-case transitions";
  block_if existsb (fun p => bool_decide (lookup_status p.1 disclosed = Some skipped) && negb (mem p.2 PYTHON_OPTIONAL_CASES))
             python_optional_digests
    with py "Python receipt optional-case status is inconsistent";
  block_if negb (skips =? 0) with py "Python receipt suite counts may not include accepted optional skips";
  block_if tests <? 1 with py "Python receipt mandatory-case count is invalid";
  Valid tt.

Definition check_android_suite (transitions : list pystr) (tests skips : Z) : outcome unit :=
  block_if negb (mem android_jvm_cases_passed transitions) with py "Android receipt is missing the mandatory-pass transition";
  let skipped_case := optional_live_peer_case skipped android_optional_digest in
  let outcomes := List.filter (fun state => mem state [optional_live_peer_case passed android_optional_digest; skipped_case]) transitions in
  block_if negb (length transitions =? 2)%nat
           || existsb (fun state => negb (bool_decide (state = android_jvm_cases_passed)) && negb (mem state outcomes)) transitions
           || negb (length outcomes =? 1)%nat
           || negb (skips =? (if mem skipped_case outcomes then 1 else 0))
           || (tests <? 1)
    with py "Android receipt live-peer disclosure or mandatory-case counts are invalid";
  Valid tt.

Definition check_registry_suite (transitions : list pystr) (skips : Z) : outcome unit :=
  block_if negb (skips =? 0) with py "Registry integration suite skipped a mandatory test";
  block_if negb (same_set transitions [mandatory_cases_passed; receipt_emitted])
    with py "Registry receipt has unexpected state transitions";
  Valid tt.

Definition suite_field (index : nat) : pystr := py "suite[" ++ show (Z.of_nat index) ++ py "]".

(** One round of the loop over the suites. *)
Definition check_suite (suite_ids : list pystr) (index : nat) (raw_suite : pyval) : outcome (list pystr) :=
  let^ suite := _exact_keys raw_suite
    ["id"; "status"; "tests"; "failures"; "errors"; "skipped"; "state_transitions"]%string (suite_field index) in
  let^ raw_id := item suite "id" in
  match str_matching identifier raw_id with
  | None => Blocked (suite_field index ++ py " identifier is invalid")
  | Some suite_id =>
      block_if mem suite_id suite_ids with py "receipt contains duplicate suite identifiers";
      let^ raw_transitions := item suite "state_transitions" in
      match read_transitions raw_transitions with
      | None => Blocked (suite_field index ++ py " state transitions are invalid")
      | Some transitions =>
          let count key := let^ v := item suite key in read_count (suite_field index ++ py " counts are invalid") v in
          let^ tests := count "tests"%string in
          let^ failures := count "failures"%string in
          let^ errors := count "errors"%string in
          let^ skips := count "skipped"%string in
          block_if (tests <? 1) || (tests <? failures + errors + skips) with suite_field index ++ py " counts are inconsistent";
          let optional_skip_allowed :=
            bool_decide (suite_id = android_wallet_jvm_security) && (skips =? 1) &&
            existsb (starts_with (py "optional-live-peer-case-skipped-")) transitions in
          let^ status := item suite "status" in
          block_if negb (is_str status passed) || negb (failures =? 0) || negb (errors =? 0)
                   || (negb (skips =? 0) && negb optional_skip_allowed)
            with suite_field index ++ py " did not pass without unapproved skips";
          let^ _ :=
            if bool_decide (suite_id = python_security_matrix) then check_python_suite transitions tests skips
            else if bool_decide (suite_id = android_wallet_jvm_security) then check_android_suite transitions tests skips
            else if bool_decide (suite_id = local_registry_integration) then check_registry_suite transitions skips
            else Blocked (py "receipt contains an unrecognized test suite") in
          Valid (suite_id :: suite_ids)
      end
  end.

Fixpoint check_suites (suite_ids : list pystr) (index : nat) (raw_suites : list pyval) : outcome (list pystr) :=
  match raw_suites with
  | [] => Valid suite_ids
  | raw :: rest => let^ suite_ids := check_suite suite_ids index raw in check_suites suite_ids (S index) rest
  end.

(** * Artifacts *)

Definition artifact_field (index : nat) : pystr := py "artifact[" ++ show (Z.of_nat index) ++ py "]".

Definition check_artifact (artifact_ids : list pystr) (index : nat) (raw_artifact : pyval) : outcome (list pystr) :=
  let^ artifact := _exact_keys raw_artifact ["id"; "sha256"]%string (artifact_field index) in
  let^ raw_id := item artifact "id" in
  match str_matching identifier raw_id with
  | None => Blocked (artifact_field index ++ py " identifier is invalid")
  | Some artifact_id =>
      let^ digest := item artifact "sha256" in
      block_if negb (_is_digest digest) with artifact_field index ++ py " digest is invalid";
      block_if mem artifact_id artifact_ids with py "receipt has duplicate artifact identifiers";
      Valid (artifact_id :: artifact_ids)
  end.

Fixpoint check_artifacts (artifact_ids : list pystr) (index : nat) (raw_artifacts : list pyval) : outcome (list pystr) :=
  match raw_artifacts with
  | [] => Valid artifact_ids
  | raw :: rest => let^ artifact_ids := check_artifact artifact_ids index raw in check_artifacts artifact_ids (S index) rest
  end.

(** * Receipts *)

Definition check_timestamp (v : pyval) : outcome unit :=
  match v with
  | PStr s =>
      match fromisoformat (str_replace (py "Z") (py "+00:00") s) with
      | None => Blocked (py "receipt timestamp is invalid")
      | Some aware => block_if negb aware with py "receipt timestamp requires a timezone"; Valid tt
      end
  | _ => Blocked (py "receipt timestamp is invalid")
  end.

Definition require_match (r : regex) (message : string) (v : pyval) : outcome unit :=
  match str_matching r v with Some _ => Valid tt | None => Blocked (py message) end.

Definition is_core (p : profile) : bool := match p with Core => true | _ => false end.

Definition check_environment (p : profile) (raw_environment : pyval) : outcome unit :=
  let^ environment := _exact_keys raw_environment
    ["python"; "platform"; "implementation"; "android_test_artifacts"]%string (py "environment") in
  let^ python := item environment "python" in
  let^ _ := require_match python_version_pattern "receipt Python version metadata is invalid" python in
  let^ platform := item environment "platform" in
  let^ _ := require_match (word_pattern 160) "receipt platform metadata is invalid" platform in
  let^ implementation := item environment "implementation" in
  let^ _ := require_match (word_pattern 32) "receipt implementation metadata is invalid" implementation in
  let^ android := item environment "android_test_artifacts" in
  match android with
  | PBool b =>
      block_if negb (Bool.eqb b (negb (is_core p))) with py "receipt Android-artifact metadata disagrees with its profile";
      Valid tt
  | _ => Blocked (py "receipt Android-artifact metadata is invalid")
  end.

(** The part of [validate_receipt] that reads the lists of suites and artifacts. *)
Definition check_suite_set (p : profile) (raw_suites : pyval) : outcome unit :=
  match raw_suites with
  | PList ((_ :: _) as l) =>
      let^ suite_ids := check_suites [] 0 l in
      block_if negb (same_set suite_ids (required_suites p)) with py "receipt suite set does not match the selected profile";
      Valid tt
  | _ => Blocked (py "receipt contains no test suites")
  end.

Definition check_artifact_set (p : profile) (raw_artifacts : pyval) : outcome unit :=
  match raw_artifacts with
  | PList l =>
      let^ artifact_ids := check_artifacts [] 0 l in
      block_if negb (incl_set (required_artifacts p) artifact_ids) || negb (incl_set artifact_ids (allowed_artifacts p))
        with py "receipt artifact set does not match the selected profile";
      Valid tt
  | _ => Blocked (py "receipt artifacts must be a list")
  end.

Definition validate_receipt (value : pyval) : outcome pyval :=
  let^ receipt := _exact_keys value
    ["schema"; "created_at"; "profile"; "verdict"; "commit"; "environment"; "suites"; "artifacts"]%string (py "receipt") in
  let^ schema := item receipt "schema" in
  block_if negb (is_str schema RECEIPT_SCHEMA) with py "receipt schema is unsupported";
  let^ created_at := item receipt "created_at" in
  let^ _ := check_timestamp created_at in
  let^ raw_profile := item receipt "profile" in
  let^ p := read_profile raw_profile in
  let^ verdict := item receipt "verdict" in
  block_if negb (is_str verdict passed) with py "receipt verdict is not passing";
  let^ commit := item receipt "commit" in
  let^ _ := require_match (hexadecimal 40) "receipt commit identifier is invalid" commit in
  let^ environment := item receipt "environment" in
  let^ _ := check_environment p environment in
  let^ raw_suites := item receipt "suites" in
  let^ _ := check_suite_set p raw_suites in
  let^ raw_artifacts := item receipt "artifacts" in
  let^ _ := check_artifact_set p raw_artifacts in
  Valid (PDict receipt).
