(* ===== verification/ReceiptFacts.v ===== *)
(** What [validate_receipt] accepts: a declarative contract of receipts, and its equivalence
    with the code. *)

From S2P Require Import Prelude PyVal Sha256 Json Regex DateTime Receipt.

Open Scope Z_scope.

(** * Inversion *)

Lemma obind_valid {A B} (m : outcome A) (k : A -> outcome B) b :
  obind m k = Valid b <-> exists a, m = Valid a /\ k a = Valid b.
Proof. destruct m; simpl; split; [eauto|by intros (? & [= <-] & ?)|done|by intros (? & [=] & _)|done|by intros (? & [=] & _)]. Qed.

Lemma obind_raise {A B} (m : outcome A) (k : A -> outcome B) e :
  obind m k = Raise e <-> m = Raise e \/ exists a, m = Valid a /\ k a = Raise e.
Proof. destruct m; simpl; split; naive_solver. Qed.

Lemma block_valid {A} (c : bool) t (k : outcome A) a : (if c then Blocked t else k) = Valid a <-> c = false /\ k = Valid a.
Proof. destruct c; naive_solver. Qed.

Lemma mem_true x l : mem x l = true <-> x ∈ l.
Proof. apply bool_decide_eq_true. Qed.

Lemma incl_set_true l m : incl_set l m = true <-> forall x, x ∈ l -> x ∈ m.
Proof.
  unfold incl_set. rewrite forallb_forall. split.
  - intros H x Hx. apply mem_true, H. by apply list_elem_of_In.
  - intros H x Hx. apply mem_true, H. by apply list_elem_of_In.
Qed.

Lemma same_set_true l m : same_set l m = true <-> forall x, x ∈ l <-> x ∈ m.
Proof. unfold same_set. rewrite andb_true_iff, !incl_set_true. naive_solver. Qed.

Lemma same_set_perm l m : NoDup l -> NoDup m -> same_set l m = true <-> l ≡ₚ m.
Proof.
  intros Hl Hm. rewrite same_set_true. split; [by apply NoDup_Permutation|].
  intros Hp x. by rewrite Hp.
Qed.

(** * Objects *)

(** [v] is a dict with exactly the given keys, all of them strings. *)
Definition exact_object (v : pyval) (expected : list string) (d : pydict) : Prop :=
  v = PDict d /\ Forall (fun kv => exists s, kv.1 = PStr s) d /\ forall k, k ∈ str_keys d <-> k ∈ py <$> expected.

Definition has (d : pydict) (key : string) (v : pyval) : Prop := str_get (py key) d = Some v.

Lemma exact_keys_valid v expected field d : _exact_keys v expected field = Valid d <-> exact_object v expected d.
Proof.
  unfold _exact_keys, exact_object. destruct v; try (split; [done|by intros ([=] & _)]).
  rewrite !block_valid, !negb_false_iff, forallb_forall, !incl_set_true.
  assert ((forall x, In x d0 -> match x.1 with PStr _ => true | _ => false end = true) <->
    Forall (fun kv => exists s, kv.1 = PStr s) d0) as ->.
  { rewrite List.Forall_forall. split; intros H x Hx; specialize (H x Hx).
    - destruct (x.1); try done. eauto.
    - by destruct H as (s & ->). }
  split.
  - intros (H1 & H2 & H3 & [= <-]). naive_solver.
  - intros ([= <-] & H1 & H2). naive_solver.
Qed.

Lemma exact_keys_raise v expected field e : _exact_keys v expected field <> Raise e.
Proof. unfold _exact_keys. destruct v; try done. repeat case_match; done. Qed.

Lemma item_valid d key v : item d key = Valid v <-> has d key v.
Proof. unfold item, has. destruct (str_get (py key) d); naive_solver. Qed.

Lemma str_get_some k d : k ∈ str_keys d -> is_Some (str_get k d).
Proof.
  induction d as [|[key v] d IH]; simpl; [by rewrite list_elem_of_In|]. unfold str_keys in *. simpl.
  destruct key; simpl; auto. rewrite list_elem_of_In. simpl. rewrite <-list_elem_of_In.
  intros [->|H]; [by rewrite bool_decide_eq_true_2|]. case_bool_decide; eauto.
Qed.

(** A key that is expected is there. *)
Lemma item_present v expected d key e : exact_object v expected d -> key ∈ expected -> item d key <> Raise e.
Proof.
  intros (_ & _ & H) Hk. unfold item. destruct (str_get_some (py key) d) as [x ->]; [|done].
  apply H. by apply list_elem_of_fmap_2.
Qed.

Lemma str_matching_some r v s : str_matching r v = Some s <-> v = PStr s /\ lang r s.
Proof.
  unfold str_matching. destruct v; try (split; [done|by intros [[=] _]]).
  rewrite <-fullmatch_spec. destruct (fullmatch r s0) eqn:E; split; [intros [= <-]; done|intros [[= <-] _]; done|done|intros [[= <-] ?]; congruence].
Qed.

Lemma is_str_true v s : is_str v s = true <-> v = PStr s.
Proof.
  unfold is_str. destruct v as [| | |x|x| | | |i [n|]]; cbn; try (split; intros; congruence).
  rewrite bool_decide_eq_true. split; congruence.
Qed.

Lemma require_match_valid r m v u : require_match r m v = Valid u <-> exists s, v = PStr s /\ lang r s.
Proof.
  unfold require_match. destruct (str_matching r v) as [s|] eqn:E.
  - destruct u. split; [|done]. intros _. exists s. by apply str_matching_some.
  - split; [done|]. intros (s & Hs). apply str_matching_some in Hs. congruence.
Qed.

(** * The contract *)

Section Contract.

(** What a suite must disclose: every optional case with one status, and nothing else. *)
Definition python_rule (transitions : list pystr) (skips : Z) : Prop :=
  skips = 0 /\ exists status : pystr -> pystr,
  (forall name, status name = passed \/ status name = skipped) /\
  forall t, t ∈ transitions <->
    t = mandatory_cases_passed \/
    exists name, name ∈ PYTHON_OPTIONAL_CASES /\ t = optional_case (status name) (case_digest name).

(** A skip of the live-peer case is counted and disclosed, or it passed. *)
Definition android_rule (transitions : list pystr) (skips : Z) : Prop :=
  exists status, (status = passed /\ skips = 0 \/ status = skipped /\ skips = 1) /\
  forall t, t ∈ transitions <->
    t = android_jvm_cases_passed \/
    exists name, name ∈ ANDROID_OPTIONAL_SKIPS /\ t = optional_live_peer_case status (case_digest name).

Definition registry_rule (transitions : list pystr) (skips : Z) : Prop :=
  skips = 0 /\ forall t, t ∈ transitions <-> t = mandatory_cases_passed \/ t = receipt_emitted.

Definition suite_rule (id : pystr) : list pystr -> Z -> Prop :=
  if bool_decide (id = python_security_matrix) then python_rule
  else if bool_decide (id = android_wallet_jvm_security) then android_rule
  else if bool_decide (id = local_registry_integration) then registry_rule
  else fun _ _ => False.

(** A suite that passed: at least one test, no failure, no error, and skips only as disclosed. *)
Definition suite_ok (raw : pyval) (id : pystr) : Prop :=
  exists suite transitions tests skips,
  exact_object raw ["id"; "status"; "tests"; "failures"; "errors"; "skipped"; "state_transitions"]%string suite /\
  has suite "id" (PStr id) /\ has suite "status" (PStr passed) /\
  has suite "tests" (PInt tests) /\ has suite "failures" (PInt 0) /\ has suite "errors" (PInt 0) /\
  has suite "skipped" (PInt skips) /\ has suite "state_transitions" (PList (PStr <$> transitions)) /\
  NoDup transitions /\ 1 <= tests /\ skips <= tests /\ suite_rule id transitions skips.

Definition artifact_ok (raw : pyval) (id : pystr) : Prop :=
  exists artifact digest,
  exact_object raw ["id"; "sha256"]%string artifact /\
  has artifact "id" (PStr id) /\ lang identifier id /\ has artifact "sha256" (PStr digest) /\ lang (hexadecimal 64) digest.

Definition environment_ok (p : profile) (raw : pyval) : Prop :=
  exists environment python platform implementation,
  exact_object raw ["python"; "platform"; "implementation"; "android_test_artifacts"]%string environment /\
  has environment "python" (PStr python) /\ lang python_version_pattern python /\
  has environment "platform" (PStr platform) /\ lang (word_pattern 160) platform /\
  has environment "implementation" (PStr implementation) /\ lang (word_pattern 32) implementation /\
  has environment "android_test_artifacts" (PBool (negb (is_core p))).

(** The receipts of a profile. *)
Definition acceptable (p : profile) (v : pyval) : Prop :=
  exists receipt created_at commit environment suites suite_ids artifacts artifact_ids,
  exact_object v ["schema"; "created_at"; "profile"; "verdict"; "commit"; "environment"; "suites"; "artifacts"]%string receipt /\
  has receipt "schema" (PStr RECEIPT_SCHEMA) /\ has receipt "verdict" (PStr passed) /\ has receipt "profile" (PStr (profile_name p)) /\
  has receipt "created_at" (PStr created_at) /\ fromisoformat (str_replace (py "Z") (py "+00:00") created_at) = Some true /\
  has receipt "commit" (PStr commit) /\ lang (hexadecimal 40) commit /\
  has receipt "environment" environment /\ environment_ok p environment /\
  has receipt "suites" (PList suites) /\ Forall2 suite_ok suites suite_ids /\ suite_ids ≡ₚ required_suites p /\
  has receipt "artifacts" (PList artifacts) /\ Forall2 artifact_ok artifacts artifact_ids /\ NoDup artifact_ids /\
  (forall id, id ∈ required_artifacts p -> id ∈ artifact_ids) /\ (forall id, id ∈ artifact_ids -> id ∈ allowed_artifacts p).
End Contract.

(** * Digests and transitions *)

Lemma python_digests_eq : python_optional_digests = (fun name => (case_digest name, name)) <$> PYTHON_OPTIONAL_CASES.
Proof. vm_compute. reflexivity. Qed.

Lemma android_digest_eq : ANDROID_OPTIONAL_SKIPS = [hd [] ANDROID_OPTIONAL_SKIPS] /\ android_optional_digest = case_digest (hd [] ANDROID_OPTIONAL_SKIPS).
Proof. split; vm_compute; reflexivity. Qed.

Lemma python_digests_nodup : NoDup (case_digest <$> PYTHON_OPTIONAL_CASES).
Proof.
  replace (case_digest <$> PYTHON_OPTIONAL_CASES) with python_optional_digests.*1.
  - apply (bool_decide_unpack _). vm_compute. exact I.
  - rewrite python_digests_eq, <-list_fmap_compose. apply list_fmap_ext. done.
Qed.

Lemma digests_inj n m :
  n ∈ PYTHON_OPTIONAL_CASES -> m ∈ PYTHON_OPTIONAL_CASES -> case_digest n = case_digest m -> n = m.
Proof.
  intros Hn Hm E. apply list_elem_of_lookup in Hn as (i & Hi). apply list_elem_of_lookup in Hm as (j & Hj).
  assert (i = j) as ->; [|congruence].
  eapply (NoDup_lookup (case_digest <$> PYTHON_OPTIONAL_CASES)).
  - apply python_digests_nodup.
  - rewrite list_lookup_fmap, Hi. done.
  - rewrite list_lookup_fmap, Hj. simpl. by rewrite E.
Qed.

(** What the disclosure of a known case parses to. *)
Lemma match_known_case name status :
  name ∈ PYTHON_OPTIONAL_CASES -> status = passed \/ status = skipped ->
  match_optional_case (optional_case status (case_digest name)) = Some (case_digest name, status).
Proof.
  intros Hn Hs.
  assert (forall d s, In d python_optional_digests -> In s [passed; skipped] -> match_optional_case (optional_case s d.1) = Some (d.1, s)) as H.
  { assert (forallb (fun d => forallb (fun s => bool_decide (match_optional_case (optional_case s d.1) = Some (d.1, s))) [passed; skipped])
      python_optional_digests = true) as E by (vm_compute; reflexivity).
    rewrite forallb_forall in E. intros d s Hd Hs'. specialize (E d Hd). rewrite forallb_forall in E.
    specialize (E s Hs'). by apply bool_decide_eq_true in E. }
  apply (H (case_digest name, name)); [|naive_solver].
  rewrite python_digests_eq. apply list_elem_of_In, list_elem_of_fmap. eauto.
Qed.

Lemma match_mandatory : match_optional_case mandatory_cases_passed = None.
Proof. vm_compute. reflexivity. Qed.

Lemma match_status state digest status : match_optional_case state = Some (digest, status) -> status = passed \/ status = skipped.
Proof.
  unfold match_optional_case. destruct (fullmatch optional_case_pattern state) eqn:E; [|done]. intros [= _ <-].
  apply fullmatch_spec in E. unfold optional_case_pattern in E. apply mk_seq_lang in E.
  destruct E as (s1 & s2 & -> & H1 & s3 & s4 & -> & H3 & s5 & s6 & -> & H5 & H6).
  apply RLit_lang in H1 as ->. destruct H5 as (c & -> & _).
  apply (fullmatch_spec (hexadecimal 12)) in H6. apply rep_class in H6 as (L1 & L2 & _). simpl in L2.
  rewrite !length_app. cbn [length]. change (length (py "optional-case-")) with 14%nat.
  rewrite (drop_app_length' (py "optional-case-")) by done.
  rewrite take_app_length' by lia.
  cbn [lang] in H3. rewrite !RLit_lang in H3. done.
Qed.

(** * The dict of disclosed cases *)

Lemma obj_set_elem {A} (o : list (pystr * A)) k v p :
  p ∈ obj_set o k v -> p = (k, v) \/ p ∈ o.
Proof.
  induction o as [|[k' v'] o IH]; simpl; [rewrite list_elem_of_singleton; auto|].
  case_bool_decide; rewrite !elem_of_cons; [naive_solver|]. intros [->|H']; [auto|]. destruct (IH H'); auto.
Qed.

Lemma obj_set_keys {A} (o : list (pystr * A)) k v x : x ∈ (obj_set o k v).*1 <-> x = k \/ x ∈ o.*1.
Proof.
  induction o as [|[k' v'] o IH]; simpl; [rewrite list_elem_of_singleton, elem_of_nil; tauto|].
  case_bool_decide; simpl in *; rewrite !elem_of_cons, ?IH; subst; tauto.
Qed.

Lemma obj_set_nodup {A} (o : list (pystr * A)) k v : NoDup o.*1 -> NoDup (obj_set o k v).*1.
Proof.
  induction o as [|[k' v'] o IH]; simpl; [intros _; apply NoDup_singleton|]. rewrite NoDup_cons. intros [H1 H2].
  case_bool_decide; simpl in *; rewrite NoDup_cons; subst; [done|]. split; [|auto].
  rewrite obj_set_keys. naive_solver.
Qed.

Lemma disclosed_nodup ts : NoDup (disclosed_cases ts).*1.
Proof.
  unfold disclosed_cases. generalize (NoDup_nil_2 (A := pystr)). change (@nil pystr) with (@nil (pystr * pystr)).*1 at 1.
  generalize (@nil (pystr * pystr)). induction ts as [|t ts IH]; intros d Hd; simpl; [done|]. apply IH.
  destruct (match_optional_case t) as [[]|]; [by apply obj_set_nodup|done].
Qed.

(** Every entry was disclosed by some transition, and every disclosure has an entry. *)
Lemma disclosed_elem ts digest status :
  (digest, status) ∈ disclosed_cases ts -> exists t, t ∈ ts /\ match_optional_case t = Some (digest, status).
Proof.
  assert (forall d, (digest, status) ∈ foldl (fun d state => match match_optional_case state with
    Some (digest, status) => obj_set d digest status | None => d end) d ts ->
    (digest, status) ∈ d \/ exists t, t ∈ ts /\ match_optional_case t = Some (digest, status)) as H.
  { induction ts as [|t ts IH]; intros d; simpl; [auto|]. intros [H|(t' & Ht & H)]%IH.
    - destruct (match_optional_case t) as [[g st]|] eqn:E; [|auto].
      apply obj_set_elem in H as [[= -> ->]|H]; [|auto]. right. exists t. split; [left|done].
    - right. exists t'. split; [by right|done]. }
  intros [H'|H']%H; [|done]. by apply elem_of_nil in H'.
Qed.

Lemma disclosed_keys ts t digest status :
  t ∈ ts -> match_optional_case t = Some (digest, status) -> digest ∈ (disclosed_cases ts).*1.
Proof.
  unfold disclosed_cases. generalize (@nil (pystr * pystr)). induction ts as [|t' ts IH]; intros d Ht E; simpl; [by apply elem_of_nil in Ht|].
  apply elem_of_cons in Ht as [<-|Ht]; [|by apply IH].
  rewrite E. assert (digest ∈ (obj_set d digest status).*1) as H by (apply obj_set_keys; auto).
  revert H. generalize (obj_set d digest status). clear. induction ts as [|t ts IH]; intros d H; simpl; [done|].
  apply IH. destruct (match_optional_case t) as [[]|]; [|done]. apply obj_set_keys. auto.
Qed.

Lemma lookup_status_elem d digest status : NoDup d.*1 -> (digest, status) ∈ d -> lookup_status digest d = Some status.
Proof.
  unfold lookup_status. induction d as [|[g st] d IH]; simpl; [intros _ H; by apply elem_of_nil in H|].
  rewrite NoDup_cons, elem_of_cons. intros [H1 H2] [[= -> ->]|H]; [by rewrite bool_decide_eq_true_2|].
  rewrite bool_decide_eq_false_2; [auto|]. intros ->. apply H1. by apply (list_elem_of_fmap_2 fst) in H.
Qed.

(** * The rules of the suites *)

Lemma existsb_false {A} (f : A -> bool) l : existsb f l = false <-> forall x, x ∈ l -> f x = false.
Proof.
  rewrite <-not_true_iff_false, existsb_exists. split.
  - intros H x Hx. apply not_true_iff_false. intros E. apply H. exists x. by rewrite <-list_elem_of_In.
  - intros H (x & Hx & E). rewrite H in E; [done|]. by rewrite list_elem_of_In.
Qed.

Lemma filter_elem {A} (f : A -> bool) l x : x ∈ List.filter f l <-> x ∈ l /\ f x = true.
Proof. by rewrite !list_elem_of_In, filter_In. Qed.

Lemma digest_keys d : d ∈ python_optional_digests.*1 <-> exists name, name ∈ PYTHON_OPTIONAL_CASES /\ d = case_digest name.
Proof.
  rewrite python_digests_eq, <-list_fmap_compose, list_elem_of_fmap. split; intros (n & H1 & H2); exists n; by split.
Qed.

(** No optional case is outside the set that may be skipped, so the status check never fires. *)
Lemma status_check_passes disclosed :
  existsb (fun p => bool_decide (lookup_status p.1 disclosed = Some skipped) && negb (mem p.2 PYTHON_OPTIONAL_CASES))
    python_optional_digests = false.
Proof.
  apply existsb_false. intros p. rewrite python_digests_eq, list_elem_of_fmap. intros (n & -> & Hn).
  apply andb_false_iff. right. apply negb_false_iff. by apply mem_true.
Qed.

Lemma python_disclosures_forward ts :
  mandatory_cases_passed ∈ ts ->
  (forall t, t ∈ List.filter (fun t => negb (bool_decide (t = mandatory_cases_passed))) ts <-> t ∈ (fun p => optional_case p.2 p.1) <$> disclosed_cases ts) ->
  (forall d, d ∈ (disclosed_cases ts).*1 <-> d ∈ python_optional_digests.*1) ->
  exists status : pystr -> pystr, (forall name, status name = passed \/ status name = skipped) /\
  forall t, t ∈ ts <-> t = mandatory_cases_passed \/
    exists name, name ∈ PYTHON_OPTIONAL_CASES /\ t = optional_case (status name) (case_digest name).
Proof.
  intros Hm Hset Hkeys.
  assert (forall g st, (g, st) ∈ disclosed_cases ts -> lookup_status g (disclosed_cases ts) = Some st /\ (st = passed \/ st = skipped)) as Hdisc.
  { intros g st H. split; [apply lookup_status_elem; [apply disclosed_nodup|done]|].
    apply disclosed_elem in H as (t & _ & H). by eapply match_status. }
  exists (fun name => default passed (lookup_status (case_digest name) (disclosed_cases ts))). split.
  - intros name. destruct (lookup_status _ _) as [st|] eqn:E; [|by left]. simpl.
    unfold lookup_status in E. destruct (List.find _ _) as [[g st']|] eqn:F; [|done]. injection E as <-.
    apply find_some in F as [F _]. apply list_elem_of_In in F. by eapply Hdisc.
  - intros t. transitivity (t = mandatory_cases_passed \/ t ∈ (fun p => optional_case p.2 p.1) <$> disclosed_cases ts).
    { rewrite <-Hset, filter_elem, negb_true_iff, bool_decide_eq_false.
      destruct (decide (t = mandatory_cases_passed)) as [->|]; tauto. }
    apply or_iff_compat_l. rewrite list_elem_of_fmap. split.
    + intros ([g st] & -> & H). assert (g ∈ (disclosed_cases ts).*1) as Hg by (by apply (list_elem_of_fmap_2 fst) in H).
      apply Hkeys, digest_keys in Hg as (name & Hn & ->). exists name. split; [done|].
      apply Hdisc in H as [-> _]. done.
    + intros (name & Hn & ->). assert (case_digest name ∈ (disclosed_cases ts).*1) as Hg by (apply Hkeys, digest_keys; eauto).
      apply list_elem_of_fmap in Hg as ([g st] & Eg & H). simpl in Eg. subst g. exists (case_digest name, st). split; [|done].
      apply Hdisc in H as [-> _]. done.
Qed.

Lemma python_disclosures_backward ts (status : pystr -> pystr) :
  (forall name, status name = passed \/ status name = skipped) ->
  (forall t, t ∈ ts <-> t = mandatory_cases_passed \/
    exists name, name ∈ PYTHON_OPTIONAL_CASES /\ t = optional_case (status name) (case_digest name)) ->
  mandatory_cases_passed ∈ ts /\
  (forall t, t ∈ List.filter (fun t => negb (bool_decide (t = mandatory_cases_passed))) ts <-> t ∈ (fun p => optional_case p.2 p.1) <$> disclosed_cases ts) /\
  (forall d, d ∈ (disclosed_cases ts).*1 <-> d ∈ python_optional_digests.*1).
Proof.
  intros Hst Hts.
  assert (forall t, t ∈ ts -> forall g st, match_optional_case t = Some (g, st) ->
    exists name, name ∈ PYTHON_OPTIONAL_CASES /\ g = case_digest name /\ st = status name) as Hmatch.
  { intros t [->|(name & Hn & ->)]%Hts g st; [by rewrite match_mandatory|].
    rewrite match_known_case by auto. intros [= <- <-]. eauto. }
  assert (forall name, name ∈ PYTHON_OPTIONAL_CASES -> (case_digest name, status name) ∈ disclosed_cases ts) as Hin.
  { intros name Hn. assert (case_digest name ∈ (disclosed_cases ts).*1) as Hk.
    { eapply disclosed_keys; [|by apply (match_known_case name (status name))]. apply Hts. eauto. }
    apply list_elem_of_fmap in Hk as ([g st] & Eg & H). simpl in Eg. subst g.
    destruct (disclosed_elem _ _ _ H) as (t & Ht & E). destruct (Hmatch _ Ht _ _ E) as (m & Hm & Ed & ->).
    apply digests_inj in Ed as <-; done. }
  assert (forall g st, (g, st) ∈ disclosed_cases ts -> exists name, name ∈ PYTHON_OPTIONAL_CASES /\ g = case_digest name /\ st = status name) as Hout.
  { intros g st (t & Ht & E)%disclosed_elem. eauto. }
  split; [by apply Hts; left|]. split.
  - intros t. rewrite filter_elem, negb_true_iff, bool_decide_eq_false, Hts, list_elem_of_fmap. split.
    + intros [[->|(name & Hn & ->)] Hne]; [done|]. exists (case_digest name, status name). auto.
    + intros ([g st] & -> & (name & Hn & -> & ->)%Hout). simpl. split; [eauto|].
      intros E. pose proof (match_known_case name (status name) Hn (Hst name)) as E'. by rewrite E, match_mandatory in E'.
  - intros d. rewrite digest_keys, list_elem_of_fmap. split.
    + intros ([g st] & -> & (name & Hn & -> & ->)%Hout). eauto.
    + intros (name & Hn & ->). exists (case_digest name, status name). auto.
Qed.

Lemma python_suite_valid ts tests skips : 1 <= tests -> check_python_suite ts tests skips = Valid tt <-> python_rule ts skips.
Proof.
  intros Ht. unfold check_python_suite, python_rule. rewrite !block_valid, status_check_passes.
  rewrite orb_false_iff, !negb_false_iff, Z.eqb_eq, mem_true, !same_set_true.
  split.
  - intros (Hm & [H1 H2] & _ & Hs & _). split; [done|]. by apply python_disclosures_forward.
  - intros (Hs & status & H1 & H2). destruct (python_disclosures_backward ts status H1 H2) as (? & ? & ?).
    split_and!; try done. by apply Z.ltb_ge.
Qed.

Lemma android_names : android_jvm_cases_passed <> optional_live_peer_case passed android_optional_digest /\
  android_jvm_cases_passed <> optional_live_peer_case skipped android_optional_digest /\
  optional_live_peer_case passed android_optional_digest <> optional_live_peer_case skipped android_optional_digest.
Proof. split_and!; vm_compute; done. Qed.

Lemma pair_elements (x y a b : pystr) : x <> y -> a <> b ->
  (forall t, t ∈ [x; y] <-> t = a \/ t = b) <-> (x = a /\ y = b \/ x = b /\ y = a).
Proof.
  intros Hxy Hab. split.
  - intros H. assert (x = a \/ x = b) as Hx by (apply H; left).
    assert (y = a \/ y = b) as Hy by (apply H; right; left). naive_solver.
  - intros [[-> ->]|[-> ->]] t; rewrite !elem_of_cons, elem_of_nil; tauto.
Qed.

Lemma android_rule_digest ts skips :
  android_rule ts skips <->
  exists status, (status = passed /\ skips = 0 \/ status = skipped /\ skips = 1) /\
  forall t, t ∈ ts <-> t = android_jvm_cases_passed \/ t = optional_live_peer_case status android_optional_digest.
Proof.
  unfold android_rule. destruct android_digest_eq as [-> ->].
  assert (forall status t, (exists name, name ∈ [hd [] ANDROID_OPTIONAL_SKIPS] /\ t = optional_live_peer_case status (case_digest name)) <->
    t = optional_live_peer_case status (case_digest (hd [] ANDROID_OPTIONAL_SKIPS))) as E.
  { intros status t. split; [intros (name & ->%list_elem_of_singleton & ->); done|].
    intros ->. eexists. split; [apply list_elem_of_singleton|]; done. }
  split; intros (status & H1 & H2); exists status; (split; [done|]); intros t; rewrite H2, E; done.
Qed.

(** The live-peer check on three distinct names: [a] is mandatory, [p] and [s] are the two outcomes. *)
Lemma live_peer_check (a p s : pystr) ts skips tests :
  a <> p -> a <> s -> p <> s -> NoDup ts -> 1 <= tests ->
  let outcomes := List.filter (fun state => mem state [p; s]) ts in
  mem a ts = true /\
  negb (length ts =? 2)%nat || existsb (fun state => negb (bool_decide (state = a)) && negb (mem state outcomes)) ts
    || negb (length outcomes =? 1)%nat || negb (skips =? (if mem s outcomes then 1 else 0)) || (tests <? 1) = false <->
  exists o, (o = p /\ skips = 0 \/ o = s /\ skips = 1) /\ forall t, t ∈ ts <-> t = a \/ t = o.
Proof.
  intros Hap Has Hps Hnd Ht outcomes.
  assert (mem p [p; s] = true /\ mem s [p; s] = true /\ mem a [p; s] = false) as (Mp & Ms & Ma).
  { unfold mem. split_and!; [apply bool_decide_eq_true_2|apply bool_decide_eq_true_2|apply bool_decide_eq_false_2];
      rewrite !elem_of_cons, elem_of_nil; naive_solver. }
  assert (mem s [s] = true /\ mem p [p] = true /\ mem s [p] = false) as (Mss & Mpp & Msp).
  { unfold mem. split_and!; [apply bool_decide_eq_true_2|apply bool_decide_eq_true_2|apply bool_decide_eq_false_2];
      rewrite list_elem_of_singleton; congruence. }
  split.
  - intros [Hm H]. apply mem_true in Hm. bool_hyps.
    destruct ts as [|x [|y [|]]]; try (simpl in *; lia). assert (x <> y) as Hxy.
    { apply NoDup_cons in Hnd as [Hnd _]. rewrite list_elem_of_singleton in Hnd. done. }
    assert (exists o, (x = a /\ y = o \/ x = o /\ y = a) /\ (o = p \/ o = s)) as (o & Ho & Hos).
    { match goal with H : existsb _ _ = false |- _ => rewrite existsb_false in H; rename H into He end.
      rewrite !elem_of_cons, elem_of_nil in Hm. destruct Hm as [->|[->|[]]].
      - exists y. split; [auto|]. specialize (He y ltac:(right; left)).
        rewrite bool_decide_eq_false_2 in He by done. simpl in He. apply negb_false_iff, mem_true, filter_elem in He as [_ He].
        apply mem_true in He. rewrite !elem_of_cons, elem_of_nil in He. tauto.
      - exists x. split; [auto|]. specialize (He x ltac:(left)).
        rewrite bool_decide_eq_false_2 in He by done. simpl in He. apply negb_false_iff, mem_true, filter_elem in He as [_ He].
        apply mem_true in He. rewrite !elem_of_cons, elem_of_nil in He. tauto. }
    exists o. split.
    + unfold outcomes in *. destruct Ho as [[-> ->]|[-> ->]], Hos as [-> | ->]; simpl in *;
        rewrite ?Ma, ?Mp, ?Ms in *; simpl in *; rewrite ?Ma, ?Mp, ?Ms, ?Mss, ?Msp in *; auto.
    + apply pair_elements; [done|naive_solver|tauto].
  - intros (o & Ho & Hts).
    assert (ts ≡ₚ [a; o]) as Hperm.
    { apply NoDup_Permutation; [done| |].
      - repeat constructor; rewrite ?list_elem_of_singleton, ?elem_of_nil; naive_solver.
      - intros t. rewrite Hts, !elem_of_cons, elem_of_nil. tauto. }
    symmetry in Hperm. apply Permutation_length_2_inv in Hperm.
    split; [apply mem_true; apply Hts; by left|]. unfold outcomes.
    destruct Ho as [[-> ->]|[-> ->]], Hperm as [-> | ->]; simpl; rewrite ?Ma, ?Mp, ?Ms; simpl; rewrite ?Ma, ?Mp, ?Ms; simpl;
      rewrite ?Mss, ?Mpp, ?Msp, ?(bool_decide_eq_true_2 (a = a)) by done; simpl;
      rewrite ?andb_false_r; simpl; by apply Z.ltb_ge.
Qed.

Lemma android_suite_valid ts tests skips :
  NoDup ts -> 1 <= tests -> check_android_suite ts tests skips = Valid tt <-> android_rule ts skips.
Proof.
  intros Hnd Ht. rewrite android_rule_digest. unfold check_android_suite. rewrite !block_valid, negb_false_iff.
  destruct android_names as (N1 & N2 & N3).
  pose proof (live_peer_check _ _ _ ts skips tests N1 N2 N3 Hnd Ht) as L. cbv zeta in L.
  split.
  - intros (H1 & H2 & _). destruct (proj1 L (conj H1 H2)) as (o & Ho & Hts).
    destruct Ho as [[-> ->]|[-> ->]]; [exists passed|exists skipped]; auto.
  - intros (status & Hs & Hts). assert (exists o, (o = optional_live_peer_case passed android_optional_digest /\ skips = 0 \/
      o = optional_live_peer_case skipped android_optional_digest /\ skips = 1) /\ forall t, t ∈ ts <-> t = android_jvm_cases_passed \/ t = o) as H.
    { exists (optional_live_peer_case status android_optional_digest). split; [|done]. destruct Hs as [[-> ->]|[-> ->]]; auto. }
    apply L in H as [H1 H2]. done.
Qed.

Lemma registry_suite_valid ts skips : check_registry_suite ts skips = Valid tt <-> registry_rule ts skips.
Proof.
  unfold check_registry_suite, registry_rule. rewrite !block_valid, !negb_false_iff, Z.eqb_eq, same_set_true.
  assert (forall t, t ∈ [mandatory_cases_passed; receipt_emitted] <-> t = mandatory_cases_passed \/ t = receipt_emitted) as E.
  { intros t. rewrite !elem_of_cons, elem_of_nil. tauto. }
  split.
  - intros (H1 & H2 & _). split; [done|]. intros t. by rewrite H2, E.
  - intros (H1 & H2). split_and!; try done. intros t. by rewrite H2, E.
Qed.

Definition check_rule (id : pystr) (ts : list pystr) (tests skips : Z) : outcome unit :=
  if bool_decide (id = python_security_matrix) then check_python_suite ts tests skips
  else if bool_decide (id = android_wallet_jvm_security) then check_android_suite ts tests skips
  else if bool_decide (id = local_registry_integration) then check_registry_suite ts skips
  else Blocked (py "receipt contains an unrecognized test suite").

Lemma check_rule_valid id ts tests skips :
  NoDup ts -> 1 <= tests -> check_rule id ts tests skips = Valid tt <-> suite_rule id ts skips.
Proof.
  intros. unfold check_rule, suite_rule.
  case_bool_decide; [by apply python_suite_valid|]. case_bool_decide; [by apply android_suite_valid|].
  case_bool_decide; [by apply registry_suite_valid|]. done.
Qed.

(** A skip that a rule lets through is the one the general check allows. *)
Lemma rule_skips id ts skips : suite_rule id ts skips ->
  skips = 0 \/ skips = 1 /\ id = android_wallet_jvm_security /\ optional_live_peer_case skipped android_optional_digest ∈ ts.
Proof.
  unfold suite_rule. case_bool_decide; [by intros [? _]; auto|]. case_bool_decide as Ha.
  - rewrite android_rule_digest. intros (status & [[-> ->]|[-> ->]] & Hts); [auto|]. right. split_and!; try done. apply Hts. by right.
  - case_bool_decide; [by intros [? _]; auto|done].
Qed.

Lemma rule_identifiers id ts skips : suite_rule id ts skips -> lang identifier id /\ Forall (lang identifier) ts /\ ts <> [].
Proof.
  assert (forallb (fullmatch identifier) ([python_security_matrix; android_wallet_jvm_security; local_registry_integration;
    mandatory_cases_passed; android_jvm_cases_passed; receipt_emitted;
    optional_live_peer_case passed android_optional_digest; optional_live_peer_case skipped android_optional_digest] ++
    (python_optional_digests ≫= fun p => [optional_case passed p.1; optional_case skipped p.1])) = true) as E by (vm_compute; reflexivity).
  rewrite forallb_forall in E.
  assert (forall x, In x _ -> lang identifier x) as E' by (intros x Hx; by apply fullmatch_spec, E). clear E.
  assert (forall (P : pystr -> Prop) a, (forall t, t ∈ ts <-> P t) -> P a -> (forall t, P t -> lang identifier t) -> Forall (lang identifier) ts /\ ts <> []) as Hall.
  { intros P a Hts Ha HP. split; [apply Forall_forall; intros t Ht; by apply HP, Hts|]. intros ->. apply Hts in Ha. by apply elem_of_nil in Ha. }
  unfold suite_rule. case_bool_decide as H1; [|case_bool_decide as H2; [|case_bool_decide as H3; [|done]]].
  - intros (_ & status & Hst & Hts). subst id. split; [apply E'; simpl; tauto|].
    eapply Hall; [exact Hts|by left|]. intros t [->|(name & Hn & ->)]; [apply E'; simpl; tauto|].
    apply E', in_or_app. right. apply list_elem_of_In, list_elem_of_bind. exists (case_digest name, name).
    rewrite !elem_of_cons, elem_of_nil, python_digests_eq, list_elem_of_fmap. cbn [fst].
    split; [destruct (Hst name) as [-> | ->]; auto|eauto].
  - rewrite android_rule_digest. intros (status & Hst & Hts). subst id. split; [apply E'; simpl; tauto|].
    eapply Hall; [exact Hts|by left|]. intros t [->| ->]; [apply E'; simpl; tauto|].
    destruct Hst as [[-> _]|[-> _]]; apply E'; simpl; tauto.
  - intros (_ & Hts). subst id. split; [apply E'; simpl; tauto|].
    eapply Hall; [exact Hts|by left|]. intros t [->| ->]; apply E'; simpl; tauto.
Qed.

(** * Suites and artifacts *)

Lemma str_list_some r l t : str_list r l = Some t <-> l = PStr <$> t /\ Forall (lang r) t.
Proof.
  revert t. induction l as [|v l IH]; intros t; simpl.
  - split; [intros [= <-]; split; [done|constructor]|]. intros [H _]. by destruct t.
  - destruct (str_matching r v) as [s|] eqn:E.
    + apply str_matching_some in E as [-> Hs]. destruct (str_list r l) as [t'|].
      * destruct (proj1 (IH t') eq_refl) as [-> Ht']. split; [intros [= <-]; split; [done|by constructor]|].
        intros [H1 H2]. destruct t as [|s2 t]; [done|]. injection H1 as <- H1. apply Forall_cons in H2 as [_ H2].
        assert (Some t' = Some t) as [= ->] by (by apply IH). done.
      * split; [done|]. intros [H1 H2]. destruct t as [|s2 t]; [done|]. injection H1 as <- H1. apply Forall_cons in H2 as [_ H2].
        assert (None = Some t) by (by apply IH). done.
    + split; [done|]. intros [H1 H2]. destruct t as [|s2 t]; [done|]. injection H1 as -> H1. apply Forall_cons in H2 as [H2 _].
      assert (str_matching r (PStr s2) = Some s2) by (by apply str_matching_some). congruence.
Qed.

Lemma read_transitions_some v t :
  read_transitions v = Some t <-> v = PList (PStr <$> t) /\ t <> [] /\ Forall (lang identifier) t /\ NoDup t.
Proof.
  unfold read_transitions. destruct v as [| | | | |l| | |]; try (split; [done|by intros ([=] & _)]).
  destruct l as [|v l]; [split; [done|]; intros ([= H] & Hne & _); by destruct t|].
  lazy beta iota. destruct (str_list identifier (v :: l)) as [t'|] eqn:E.
  - apply str_list_some in E as [E Ht']. rewrite E.
    destruct (distinct t') eqn:Hd; unfold distinct in Hd; [apply bool_decide_eq_true in Hd|apply bool_decide_eq_false in Hd]; lazy beta iota; split.
    + intros [= <-]. split_and!; try done. by intros ->.
    + intros ([= H] & _). apply list_fmap_eq_inj in H; [by subst|by intros ?? [=]].
    + done.
    + intros ([= H] & _ & _ & Hn). apply list_fmap_eq_inj in H; [by subst|by intros ?? [=]].
  - split; [done|]. intros ([= H] & _ & Ht & _).
    assert (str_list identifier (v :: l) = Some t) by (by apply str_list_some). congruence.
Qed.

Lemma read_count_valid m v z : read_count m v = Valid z <-> v = PInt z /\ 0 <= z.
Proof.
  unfold read_count. destruct v; try (split; [done|by intros [[=] _]]).
  destruct (Z.ltb_spec z0 0); split; [done|intros [[= <-] ?]; lia|intros [= <-]; done|intros [[= <-] ?]; done].
Qed.

Lemma count_valid d key m z : (let^ v := item d key in read_count m v) = Valid z <-> has d key (PInt z) /\ 0 <= z.
Proof.
  rewrite obind_valid. split.
  - intros (v & H1 & [-> H2]%read_count_valid). by apply item_valid in H1.
  - intros [H1 H2]. exists (PInt z). by rewrite item_valid, read_count_valid.
Qed.

Lemma starts_skipped ts : optional_live_peer_case skipped android_optional_digest ∈ ts ->
  existsb (starts_with (py "optional-live-peer-case-skipped-")) ts = true.
Proof.
  intros H. apply existsb_exists. exists (optional_live_peer_case skipped android_optional_digest).
  split; [by apply list_elem_of_In|]. vm_compute. reflexivity.
Qed.

(** The checks of a round that come after the identifier and the transitions. *)
Definition check_counts (suite : pydict) (index : nat) (suite_ids : list pystr) (suite_id : pystr) (transitions : list pystr)
    : outcome (list pystr) :=
  let count key := let^ v := item suite key in read_count (suite_field index ++ py " counts are invalid") v in
  let^ tests := count "tests"%string in
  let^ failures := count "failures"%string in
  let^ errors := count "errors"%string in
  let^ skips := count "skipped"%string in
  block_if (tests <? 1) || (tests <? failures + errors + skips) with suite_field index ++ py " counts are inconsistent";
  let optional_skip_allowed :=
    bool_decide (suite_id = android_wallet_jvm_security) && (skips =? 1) &&
    existsb (starts_with (py "optional-live-peer-case-skipped-")) transitions in
  let^ status := item suite "status" in
  block_if negb (is_str status passed) || negb (failures =? 0) || negb (errors =? 0)
           || (negb (skips =? 0) && negb optional_skip_allowed)
    with suite_field index ++ py " did not pass without unapproved skips";
  let^ _ := check_rule suite_id transitions tests skips in
  Valid (suite_id :: suite_ids).

Lemma check_counts_valid suite index suite_ids id ts ids' :
  NoDup ts ->
  check_counts suite index suite_ids id ts = Valid ids' <->
  ids' = id :: suite_ids /\ exists tests skips,
  has suite "status" (PStr passed) /\ has suite "tests" (PInt tests) /\ has suite "failures" (PInt 0) /\
  has suite "errors" (PInt 0) /\ has suite "skipped" (PInt skips) /\ 1 <= tests /\ skips <= tests /\ suite_rule id ts skips.
Proof.
  intros Hnd. unfold check_counts. split.
  - rewrite obind_valid. intros (tests & [Ht Ht0]%count_valid & H). rewrite obind_valid in H.
    destruct H as (failures & [Hf Hf0]%count_valid & H). rewrite obind_valid in H.
    destruct H as (errors & [He He0]%count_valid & H). rewrite obind_valid in H.
    destruct H as (skips & [Hs Hs0]%count_valid & H). rewrite block_valid, obind_valid in H.
    destruct H as (Hc & status & Hst%item_valid & H). rewrite block_valid, obind_valid in H.
    destruct H as (Hg & [] & Hr & [= <-]). bool_hyps. subst failures errors.
    rewrite check_rule_valid in Hr by (done || lia).
    match goal with H : is_str _ _ = true |- _ => apply is_str_true in H; subst status end.
    split; [done|]. exists tests, skips. split_and!; try done; lia.
  - intros (-> & tests & skips & Hst & Ht & Hf & He & Hs & Ht1 & Hts & Hr).
    assert (0 <= skips) as Hs0 by (destruct (rule_skips _ _ _ Hr) as [->|[-> _]]; lia).
    rewrite obind_valid. exists tests. split; [by apply count_valid; split; [done|lia]|].
    rewrite obind_valid. exists 0. split; [by apply count_valid|].
    rewrite obind_valid. exists 0. split; [by apply count_valid|].
    rewrite obind_valid. exists skips. split; [by apply count_valid|].
    rewrite block_valid. split; [apply orb_false_iff; lia|].
    rewrite obind_valid. exists (PStr passed). split; [by apply item_valid|].
    rewrite block_valid. split.
    + rewrite (proj2 (is_str_true (PStr passed) passed)) by done. simpl.
      destruct (rule_skips _ _ _ Hr) as [->|(-> & -> & Hin)]; [done|]. rewrite starts_skipped by done.
      by rewrite bool_decide_eq_true_2.
    + rewrite obind_valid. exists tt. split; [by apply check_rule_valid|done].
Qed.

Lemma check_suite_valid suite_ids index raw ids' :
  check_suite suite_ids index raw = Valid ids' <->
  exists id, suite_ok raw id /\ id ∉ suite_ids /\ ids' = id :: suite_ids.
Proof.
  unfold check_suite, suite_ok. rewrite obind_valid. split.
  - intros (suite & Hx%exact_keys_valid & H). rewrite obind_valid in H. destruct H as (raw_id & Hid%item_valid & H).
    destruct (str_matching identifier raw_id) as [id|] eqn:E; [|done]. apply str_matching_some in E as [-> Hl].
    rewrite block_valid, obind_valid in H. destruct H as (Hnew & raw_ts & Hts%item_valid & H).
    destruct (read_transitions raw_ts) as [ts|] eqn:E; [|done]. apply read_transitions_some in E as (-> & Hne & Hl' & Hnd).
    apply (check_counts_valid suite index suite_ids id ts ids' Hnd) in H as (-> & tests & skips & H).
    exists id. split; [|split; [|done]].
    + exists suite, ts, tests, skips. naive_solver.
    + apply not_true_iff_false in Hnew. by rewrite mem_true in Hnew.
  - intros (id & (suite & ts & tests & skips & Hx & Hid & Hst & Ht & Hf & He & Hs & Hts & Hnd & Ht1 & Hst1 & Hr) & Hnew & ->).
    destruct (rule_identifiers _ _ _ Hr) as (Hl & Hl' & Hne).
    exists suite. split; [by apply exact_keys_valid|]. rewrite obind_valid. exists (PStr id). split; [by apply item_valid|].
    rewrite (proj2 (str_matching_some identifier (PStr id) id)) by done.
    rewrite block_valid, obind_valid. split; [apply not_true_iff_false; by rewrite mem_true|].
    exists (PList (PStr <$> ts)). split; [by apply item_valid|].
    rewrite (proj2 (read_transitions_some (PList (PStr <$> ts)) ts)) by done.
    apply (check_counts_valid suite index suite_ids id ts (id :: suite_ids) Hnd). split; [done|].
    exists tests, skips. done.
Qed.

(** A loop that adds one fresh identifier per element. *)
Lemma fresh_loop (f : list pystr -> nat -> pyval -> outcome (list pystr)) (g : list pystr -> nat -> list pyval -> outcome (list pystr))
    (P : pyval -> pystr -> Prop) :
  (forall ids i, g ids i [] = Valid ids) ->
  (forall ids i raw rest, g ids i (raw :: rest) = let^ ids := f ids i raw in g ids (S i) rest) ->
  (forall ids i raw ids', f ids i raw = Valid ids' <-> exists id, P raw id /\ id ∉ ids /\ ids' = id :: ids) ->
  forall raws i ids0 ids, NoDup ids0 ->
  g ids0 i raws = Valid ids <-> exists new, Forall2 P raws new /\ NoDup (rev new ++ ids0) /\ ids = rev new ++ ids0.
Proof.
  intros Hnil Hcons Hf raws. induction raws as [|raw raws IH]; intros i ids0 ids Hnd.
  - rewrite Hnil. split; [intros [= <-]; exists []; by repeat constructor|]. intros (new & H & _ & ->). by inversion H.
  - rewrite Hcons, obind_valid. split.
    + intros (ids1 & (id & Hid & Hni & ->)%Hf & H). apply IH in H as (new & Hnew & Hnd' & ->); [|by apply NoDup_cons].
      exists (id :: new). simpl. rewrite <-app_assoc. split; [by constructor|]. by split.
    + intros (new & Hnew & Hnd' & ->). inversion Hnew as [|? id ? new' Hid Hnew']; subst. simpl in *. rewrite <-app_assoc in *. simpl in *.
      assert (id ∉ ids0) as Hni.
      { apply NoDup_app in Hnd' as (_ & _ & Hnd'). by apply NoDup_cons in Hnd' as [? _]. }
      exists (id :: ids0). split; [apply Hf; eauto|]. apply IH; [by apply NoDup_cons|]. by exists new'.
Qed.

Lemma check_suites_valid raws ids :
  check_suites [] 0 raws = Valid ids <-> exists new, Forall2 suite_ok raws new /\ NoDup new /\ ids = rev new.
Proof.
  rewrite (fresh_loop check_suite check_suites suite_ok (fun _ _ => eq_refl) (fun _ _ _ _ => eq_refl) check_suite_valid) by constructor.
  split; intros (new & H1 & H2 & H3); exists new; rewrite app_nil_r, ?reverse_Permutation in *; split_and!; try done.
  all: revert H2; rewrite <-?Permutation_rev; done.
Qed.

Lemma check_artifact_valid ids index raw ids' :
  check_artifact ids index raw = Valid ids' <-> exists id, artifact_ok raw id /\ id ∉ ids /\ ids' = id :: ids.
Proof.
  unfold check_artifact, artifact_ok. rewrite obind_valid. split.
  - intros (d & Hx%exact_keys_valid & H). rewrite obind_valid in H. destruct H as (raw_id & Hid%item_valid & H).
    destruct (str_matching identifier raw_id) as [id|] eqn:E; [|done]. apply str_matching_some in E as [-> Hl].
    rewrite obind_valid in H. destruct H as (digest & Hd%item_valid & H). rewrite !block_valid in H.
    destruct H as (Hg & Hnew & [= <-]). apply negb_false_iff in Hg. unfold _is_digest in Hg.
    destruct (str_matching (hexadecimal 64) digest) as [s|] eqn:E; [|done]. apply str_matching_some in E as [-> Hs].
    exists id. split; [by exists d, s|]. split; [|done]. apply not_true_iff_false in Hnew. by rewrite mem_true in Hnew.
  - intros (id & (d & digest & Hx & Hid & Hl & Hd & Hs) & Hnew & ->).
    exists d. split; [by apply exact_keys_valid|]. rewrite obind_valid. exists (PStr id). split; [by apply item_valid|].
    rewrite (proj2 (str_matching_some identifier (PStr id) id)) by done.
    rewrite obind_valid. exists (PStr digest). split; [by apply item_valid|]. rewrite !block_valid. split_and!; [| |done].
    + unfold _is_digest. by rewrite (proj2 (str_matching_some (hexadecimal 64) (PStr digest) digest)).
    + apply not_true_iff_false. by rewrite mem_true.
Qed.

Lemma check_artifacts_valid raws ids :
  check_artifacts [] 0 raws = Valid ids <-> exists new, Forall2 artifact_ok raws new /\ NoDup new /\ ids = rev new.
Proof.
  rewrite (fresh_loop check_artifact check_artifacts artifact_ok (fun _ _ => eq_refl) (fun _ _ _ _ => eq_refl) check_artifact_valid) by constructor.
  split; intros (new & H1 & H2 & H3); exists new; rewrite app_nil_r in *; split_and!; try done.
  all: revert H2; rewrite <-?Permutation_rev; done.
Qed.

(** * Receipts *)

Lemma timestamp_valid v u : check_timestamp v = Valid u <->
  exists s, v = PStr s /\ fromisoformat (str_replace (py "Z") (py "+00:00") s) = Some true.
Proof.
  unfold check_timestamp. destruct v; try (split; [done|by intros (? & [=] & _)]).
  destruct (fromisoformat _) as [[]|] eqn:E; destruct u; split; try done; eauto.
  all: intros (s' & [= <-] & H); congruence.
Qed.

Lemma read_profile_valid v p : read_profile v = Valid p <-> v = PStr (profile_name p).
Proof.
  unfold read_profile. split.
  - destruct (hashable v); cbn [negb]; [|done].
    destruct (is_str v (profile_name Core)) eqn:E1; [intros [= <-]; by apply is_str_true|].
    destruct (is_str v (profile_name AndroidJvm)) eqn:E2; [intros [= <-]; by apply is_str_true|].
    destruct (is_str v (profile_name Full)) eqn:E3; [intros [= <-]; by apply is_str_true|done].
  - intros ->. destruct p; reflexivity.
Qed.

Lemma environment_valid p raw u : check_environment p raw = Valid u <-> environment_ok p raw.
Proof.
  unfold check_environment, environment_ok. rewrite obind_valid. split.
  - intros (d & Hx%exact_keys_valid & H). rewrite obind_valid in H. destruct H as (v1 & H1%item_valid & H).
    rewrite obind_valid in H. destruct H as (? & (s1 & -> & L1)%require_match_valid & H). rewrite obind_valid in H.
    destruct H as (v2 & H2%item_valid & H). rewrite obind_valid in H. destruct H as (? & (s2 & -> & L2)%require_match_valid & H).
    rewrite obind_valid in H. destruct H as (v3 & H3%item_valid & H). rewrite obind_valid in H.
    destruct H as (? & (s3 & -> & L3)%require_match_valid & H). rewrite obind_valid in H. destruct H as (v4 & H4%item_valid & H).
    destruct v4; try done. rewrite block_valid, negb_false_iff in H. destruct H as [->%eqb_prop _].
    exists d, s1, s2, s3. done.
  - intros (d & s1 & s2 & s3 & Hx & H1 & L1 & H2 & L2 & H3 & L3 & H4). destruct u.
    exists d. split; [by apply exact_keys_valid|]. rewrite obind_valid. exists (PStr s1). split; [by apply item_valid|].
    rewrite obind_valid. exists tt. split; [apply require_match_valid; eauto|].
    rewrite obind_valid. exists (PStr s2). split; [by apply item_valid|].
    rewrite obind_valid. exists tt. split; [apply require_match_valid; eauto|].
    rewrite obind_valid. exists (PStr s3). split; [by apply item_valid|].
    rewrite obind_valid. exists tt. split; [apply require_match_valid; eauto|].
    rewrite obind_valid. exists (PBool (negb (is_core p))). split; [by apply item_valid|].
    rewrite block_valid, negb_false_iff. split; [by destruct p|done].
Qed.

Lemma required_suites_nodup p : NoDup (required_suites p).
Proof. apply (bool_decide_unpack _). by destruct p; vm_compute. Qed.

Lemma suite_set_valid p raw u : check_suite_set p raw = Valid u <->
  exists suites suite_ids, raw = PList suites /\ Forall2 suite_ok suites suite_ids /\ suite_ids ≡ₚ required_suites p.
Proof.
  unfold check_suite_set. split.
  - destruct raw as [| | | | |[|v l]| | |]; try done. lazy beta iota. rewrite obind_valid.
    intros (ids & (new & H1 & H2 & ->)%check_suites_valid & Hs). rewrite block_valid in Hs. destruct Hs as [Hs _]. exists (v :: l), new. split_and!; [done|done|].
    apply negb_false_iff in Hs. rewrite same_set_true in Hs.
    apply NoDup_Permutation; [done|apply required_suites_nodup|]. intros x. rewrite <-Hs. by rewrite !list_elem_of_In, <-in_rev.
  - intros (suites & ids & -> & H1 & H2). destruct suites as [|v l].
    + inversion H1; subst. apply Permutation_nil in H2. by destruct p.
    + lazy beta iota. rewrite obind_valid. exists (rev ids). rewrite block_valid. split.
      { apply check_suites_valid. exists ids. split_and!; try done. rewrite H2. apply required_suites_nodup. }
      destruct u. split; [|done]. apply negb_false_iff, same_set_true. intros x. rewrite <-H2. by rewrite !list_elem_of_In, <-in_rev.
Qed.

Lemma artifact_set_valid p raw u : check_artifact_set p raw = Valid u <->
  exists artifacts ids, raw = PList artifacts /\ Forall2 artifact_ok artifacts ids /\ NoDup ids /\
  (forall id, id ∈ required_artifacts p -> id ∈ ids) /\ (forall id, id ∈ ids -> id ∈ allowed_artifacts p).
Proof.
  unfold check_artifact_set. split.
  - destruct raw; try done. rewrite obind_valid. intros (ids & (new & H1 & H2 & ->)%check_artifacts_valid & H).
    rewrite block_valid, orb_false_iff, !negb_false_iff, !incl_set_true in H. destruct H as [[H3 H4] _].
    exists l, new. split_and!; try done; intros x Hx.
    + apply H3 in Hx. by rewrite list_elem_of_In, <-in_rev, <-list_elem_of_In in Hx.
    + apply H4. by rewrite list_elem_of_In, <-in_rev, <-list_elem_of_In.
  - intros (l & ids & -> & H1 & H2 & H3 & H4). rewrite obind_valid. exists (rev ids). split; [apply check_artifacts_valid; eauto|].
    rewrite block_valid, orb_false_iff, !negb_false_iff, !incl_set_true. destruct u. split_and!; [| |done]; intros x Hx.
    + rewrite list_elem_of_In, <-in_rev, <-list_elem_of_In. auto.
    + apply H4. by rewrite list_elem_of_In, <-in_rev, <-list_elem_of_In in Hx.
Qed.

Lemma validate_receipt_valid v r : validate_receipt v = Valid r <-> r = v /\ exists p, acceptable p v.
Proof.
  unfold validate_receipt, acceptable. rewrite obind_valid. split.
  - intros (d & Hx%exact_keys_valid & H). rewrite obind_valid in H. destruct H as (v1 & H1%item_valid & H).
    rewrite block_valid, obind_valid, negb_false_iff, is_str_true in H. destruct H as (-> & v2 & H2%item_valid & H).
    rewrite obind_valid in H. destruct H as (? & (created & -> & Hc)%timestamp_valid & H). rewrite obind_valid in H.
    destruct H as (v3 & H3%item_valid & H). rewrite obind_valid in H. destruct H as (p & ->%read_profile_valid & H).
    rewrite obind_valid in H. destruct H as (v4 & H4%item_valid & H). rewrite block_valid, obind_valid, negb_false_iff, is_str_true in H.
    destruct H as (-> & v5 & H5%item_valid & H). rewrite obind_valid in H. destruct H as (? & (commit & -> & L5)%require_match_valid & H).
    rewrite obind_valid in H. destruct H as (v6 & H6%item_valid & H). rewrite obind_valid in H. destruct H as (? & He%environment_valid & H).
    rewrite obind_valid in H. destruct H as (v7 & H7%item_valid & H). rewrite obind_valid in H.
    destruct H as (? & (suites & sids & -> & Hs1 & Hs2)%suite_set_valid & H). rewrite obind_valid in H. destruct H as (v8 & H8%item_valid & H).
    rewrite obind_valid in H. destruct H as (? & (arts & aids & -> & Ha)%artifact_set_valid & [= <-]).
    split; [by destruct Hx as (-> & _)|]. exists p, d, created, commit, v6, suites, sids, arts, aids. naive_solver.
  - intros (-> & p & d & created & commit & env & suites & sids & arts & aids & Hx & H1 & H4 & H3 & H2 & Hc & H5 & L5 & H6 & He & H7 & Hs1 & Hs2 & H8 & Ha).
    exists d. split; [by apply exact_keys_valid|]. rewrite obind_valid. exists (PStr RECEIPT_SCHEMA). split; [by apply item_valid|].
    rewrite block_valid, obind_valid, negb_false_iff, is_str_true. split; [done|]. exists (PStr created). split; [by apply item_valid|].
    rewrite obind_valid. exists tt. split; [apply timestamp_valid; eauto|].
    rewrite obind_valid. exists (PStr (profile_name p)). split; [by apply item_valid|].
    rewrite obind_valid. exists p. split; [by apply read_profile_valid|].
    rewrite obind_valid. exists (PStr passed). split; [by apply item_valid|]. rewrite block_valid, negb_false_iff, is_str_true. split; [done|].
    rewrite obind_valid. exists (PStr commit). split; [by apply item_valid|].
    rewrite obind_valid. exists tt. split; [apply require_match_valid; eauto|].
    rewrite obind_valid. exists env. split; [by apply item_valid|]. rewrite obind_valid. exists tt. split; [by apply environment_valid|].
    rewrite obind_valid. exists (PList suites). split; [by apply item_valid|].
    rewrite obind_valid. exists tt. split; [apply suite_set_valid; eauto|].
    rewrite obind_valid. exists (PList arts). split; [by apply item_valid|].
    rewrite obind_valid. exists tt. split; [apply artifact_set_valid; eauto 10|]. by destruct Hx as (-> & _).
Qed.

(** * Exceptions *)

(** The outcome is a value or a [ReceiptValidationError]. *)
Definition quiet {A} (m : outcome A) : Prop := match m with Raise _ => False | _ => True end.

Lemma quiet_bind {A B} (m : outcome A) (k : A -> outcome B) :
  quiet m -> (forall a, m = Valid a -> quiet (k a)) -> quiet (obind m k).
Proof. destruct m; simpl; auto. Qed.

Lemma quiet_block {A} (c : bool) t (k : outcome A) : quiet k -> quiet (if c then Blocked t else k).
Proof. by destruct c. Qed.

Lemma quiet_if {A} (c : bool) (m k : outcome A) : quiet m -> quiet k -> quiet (if c then m else k).
Proof. by destruct c. Qed.

Lemma quiet_exact_keys v expected field : quiet (_exact_keys v expected field).
Proof. destruct (_exact_keys v expected field) eqn:E; [done..|]. by apply exact_keys_raise in E. Qed.

Lemma quiet_item v expected d key : exact_object v expected d -> key ∈ expected -> quiet (item d key).
Proof. intros H Hk. destruct (item d key) eqn:E; [done..|]. by eapply item_present in E. Qed.

Lemma quiet_match r m v : quiet (require_match r m v).
Proof. unfold require_match. by case_match. Qed.

Lemma quiet_count m v : quiet (read_count m v).
Proof. unfold read_count. by repeat case_match. Qed.

Lemma quiet_rule id ts tests skips : quiet (check_rule id ts tests skips).
Proof. unfold check_rule, check_python_suite, check_android_suite, check_registry_suite. cbv zeta. by repeat first [apply quiet_if | apply quiet_block]. Qed.

Create HintDb quiet.
#[export] Hint Resolve quiet_exact_keys quiet_match quiet_count quiet_rule quiet_block quiet_if : quiet.

(** One step through a validator: a key of an object whose keys were checked is present. *)
Ltac quiet_step :=
  match goal with
  | |- quiet (obind (item _ _) _) =>
      apply quiet_bind; [eapply quiet_item; [eassumption|apply list_elem_of_In; simpl; tauto]|intros ? _]
  | |- quiet (obind (_exact_keys _ _ _) _) =>
      let Hx := fresh "Hx" in apply quiet_bind; [auto with quiet|intros ? Hx%exact_keys_valid]
  | |- quiet (obind _ _) => apply quiet_bind; [auto with quiet|intros ? _]
  | |- quiet (if _ then Blocked _ else _) => apply quiet_block
  | |- quiet (Valid _) => exact I
  | |- quiet (Blocked _) => exact I
  | |- quiet (match ?x with _ => _ end) => destruct x
  end.

Lemma quiet_counts v expected suite index ids id ts :
  exact_object v expected suite ->
  (forall k, k ∈ ["status"; "tests"; "failures"; "errors"; "skipped"]%string -> k ∈ expected) ->
  quiet (check_counts suite index ids id ts).
Proof.
  intros Hx Hin. unfold check_counts.
  assert (forall key, key ∈ ["status"; "tests"; "failures"; "errors"; "skipped"]%string -> quiet (item suite key)) as Hi.
  { intros key Hk. eapply quiet_item; eauto. }
  assert (forall key m, key ∈ ["status"; "tests"; "failures"; "errors"; "skipped"]%string ->
    quiet (let^ v := item suite key in read_count m v)) as Hc.
  { intros key m Hk. apply quiet_bind; [by apply Hi|auto with quiet]. }
  do 4 (apply quiet_bind; [apply Hc, list_elem_of_In; simpl; tauto|intros ? _]). apply quiet_block.
  apply quiet_bind; [apply Hi, list_elem_of_In; simpl; tauto|intros ? _]. repeat quiet_step.
Qed.

Lemma quiet_suite ids index raw : quiet (check_suite ids index raw).
Proof.
  unfold check_suite. quiet_step. quiet_step. destruct (str_matching _ _) as [id|]; [|exact I]. quiet_step. quiet_step.
  destruct (read_transitions _) as [ts|]; [|exact I]. eapply (quiet_counts _ _ a index ids id ts Hx).
  intros k. rewrite !list_elem_of_In. simpl. tauto.
Qed.

Lemma quiet_suites ids index raws : quiet (check_suites ids index raws).
Proof.
  revert ids index. induction raws as [|raw raws IH]; intros ids index; simpl; [done|].
  apply quiet_bind; [apply quiet_suite|auto].
Qed.

Lemma quiet_artifacts ids index raws : quiet (check_artifacts ids index raws).
Proof.
  revert ids index. induction raws as [|raw raws IH]; intros ids index; simpl; [done|].
  apply quiet_bind; [|auto]. unfold check_artifact. repeat quiet_step.
Qed.

#[export] Hint Resolve quiet_suites quiet_artifacts : quiet.

Lemma quiet_timestamp v : quiet (check_timestamp v).
Proof. unfold check_timestamp. repeat quiet_step. Qed.

Lemma quiet_environment p v : quiet (check_environment p v).
Proof. unfold check_environment. repeat quiet_step. Qed.

Lemma quiet_suite_set p v : quiet (check_suite_set p v).
Proof. unfold check_suite_set. repeat quiet_step. Qed.

Lemma quiet_artifact_set p v : quiet (check_artifact_set p v).
Proof. unfold check_artifact_set. repeat quiet_step. Qed.

#[export] Hint Resolve quiet_timestamp quiet_environment quiet_suite_set quiet_artifact_set : quiet.

Lemma quiet_raise {A} (m : outcome A) e : quiet m -> m <> Raise e.
Proof. by intros H ->. Qed.

Lemma validate_receipt_raise v e :
  validate_receipt v = Raise e -> e = TypeError /\ exists d raw, v = PDict d /\ has d "profile" raw /\ hashable raw = false.
Proof.
  unfold validate_receipt. rewrite obind_raise. intros [H|(d & Hx%exact_keys_valid & H)]; [by apply exact_keys_raise in H|].
  assert (forall key, key ∈ ["schema"; "created_at"; "profile"; "verdict"; "commit"; "environment"; "suites"; "artifacts"]%string ->
    item d key <> Raise e) as Hi by (intros key Hk; by eapply item_present).
  rewrite obind_raise in H. destruct H as [H|(v1 & _ & H)]; [by apply Hi in H; [|apply list_elem_of_In; simpl; tauto]|].
  destruct (negb _); [done|]. rewrite obind_raise in H.
  destruct H as [H|(v2 & _ & H)]; [by apply Hi in H; [|apply list_elem_of_In; simpl; tauto]|]. rewrite obind_raise in H.
  destruct H as [H|(u & _ & H)]; [by apply quiet_raise in H; auto with quiet|]. rewrite obind_raise in H.
  destruct H as [H|(raw & Hp%item_valid & H)]; [by apply Hi in H; [|apply list_elem_of_In; simpl; tauto]|]. rewrite obind_raise in H.
  destruct H as [H|(p & _ & H)].
  - unfold read_profile in H. destruct (hashable raw) eqn:E; cbn [negb] in H; [repeat case_match; done|].
    injection H as <-. split; [done|]. exists d, raw. split; [|done]. by destruct Hx as (-> & _).
  - exfalso. revert H. apply quiet_raise. repeat quiet_step.
Qed.
