(* ===== verification/NativeReport.v ===== *)
(** Native test reports (security_acceptance.py, [_native_report]): the element trees of JUnit
    files, their cases, and the counts they declare.

    A report is visited after [ET.parse] has made a tree of it; comments and processing
    instructions are not part of the tree.

    Then what is accepted: reports whose declared counts are those of their cases, each case
    with one identity and at most one outcome; and the equivalence with the code. *)

From S2P Require Import Prelude PyVal Json Regex Receipt ReceiptFacts.

Open Scope Z_scope.

(** [ET.Element]: tag, attributes and children. *)
Inductive element := Element (tag : pystr) (attrib : list (pystr * pystr)) (children : list element).

Definition e_tag (e : element) : pystr := match e with Element t _ _ => t end.
Definition e_attrib (e : element) : list (pystr * pystr) := match e with Element _ a _ => a end.
Definition e_children (e : element) : list element := match e with Element _ _ c => c end.

Section ElementInd.
Context (P : element -> Prop).
Context (H : forall t a c, Forall P c -> P (Element t a c)).

Fixpoint element_ind' (e : element) : P e :=
  let fix all (l : list element) : Forall P l :=
    match l with [] => List.Forall_nil _ | x :: l' => List.Forall_cons _ x l' (element_ind' x) (all l') end in
  match e with Element t a c => H t a c (all c) end.
End ElementInd.

(** [node.get(key)] *)
Definition get (key : string) (e : element) : option pystr :=
  snd <$> List.find (fun kv => bool_decide (kv.1 = py key)) (e_attrib e).

(** [SuiteResult], and the dict of counts that becomes one. *)
Record SuiteResult := MkCounts { r_tests : Z; r_failures : Z; r_errors : Z; r_skipped : Z }.

Definition no_counts : SuiteResult := MkCounts 0 0 0 0.

Definition add_counts (a b : SuiteResult) : SuiteResult :=
  MkCounts (r_tests a + r_tests b) (r_failures a + r_failures b) (r_errors a + r_errors b) (r_skipped a + r_skipped b).

(** A case: identity, status and reason. *)
Abbreviation case := (pystr * pystr * pystr)%type.
Definition case_name (c : case) : pystr := c.1.1.
Definition case_status (c : case) : pystr := c.1.2.
Definition case_reason (c : case) : pystr := c.2.

Definition failed : pystr := py "failed".

Definition is_suite_tag (t : pystr) : bool := mem t [py "testsuite"; py "testsuites"].
Definition is_outcome_tag (t : pystr) : bool := mem t [py "failure"; py "error"; py "skipped"].
Definition is_ignored_tag (t : pystr) : bool := mem t [py "properties"; py "system-out"; py "system-err"].

(** [int(raw)] of decimal digits: more than 4300 of them raise [ValueError]. *)
Definition int_of_digits (raw : pystr) : outcome Z :=
  if (int_max_str_digits <? length raw)%nat then Raise ValueError else Valid (digits_value raw).

Definition check_count (node : element) (required : bool) (key : string) (count : Z) : outcome unit :=
  match get key node with
  | None => if required then Blocked (py "mandatory test report has invalid counts") else Valid tt
  | Some raw =>
      block_if negb (fullmatch (RPlus (RClass cls_digit)) raw) with py "mandatory test report has invalid counts";
      let^ n := int_of_digits raw in
      block_if negb (n =? count) with py "mandatory test report summary is inconsistent";
      Valid tt
  end.

Definition check_node_counts (node : element) (counts : SuiteResult) (required : bool) : outcome unit :=
  let^ _ := check_count node required "tests" (r_tests counts) in
  let^ _ := check_count node required "failures" (r_failures counts) in
  let^ _ := check_count node required "errors" (r_errors counts) in
  check_count node required "skipped" (r_skipped counts).

(** One [testcase] element: its case and what it adds to the counts.  [seen] is the set of
    the identities of the cases found so far. *)
Definition read_case (seen : list pystr) (child : element) : outcome (case * SuiteResult) :=
  match get "classname" child, get "name" child with
  | Some ((_ :: _) as classname), Some ((_ :: _) as name) =>
      let identity := classname ++ py "::" ++ name in
      block_if mem identity seen with py "mandatory test report contains duplicate case identities";
      let outcomes := List.filter (fun i => is_outcome_tag (e_tag i)) (e_children child) in
      block_if (1 <? length outcomes)%nat with py "mandatory test report contains contradictory case outcomes";
      match outcomes with
      | [] => Valid ((identity, passed, []), MkCounts 1 0 0 0)
      | outcome :: _ =>
          if bool_decide (e_tag outcome = py "failure") then Valid ((identity, failed, []), MkCounts 1 1 0 0)
          else if bool_decide (e_tag outcome = py "error") then Valid ((identity, failed, []), MkCounts 1 0 1 0)
          else Valid ((identity, skipped, default [] (get "message" outcome)), MkCounts 1 0 0 1)
      end
  | _, _ => Blocked (py "mandatory test report has invalid case identities")
  end.

(** The loop over the children of a node with tag [tag]; [visit] is the recursive call. *)
Definition visit_children (visit : element -> list case -> outcome (SuiteResult * list case)) (tag : pystr) :=
  fix loop (children : list element) (counts : SuiteResult) (cases : list case) : outcome (SuiteResult * list case) :=
    match children with
    | [] => Valid (counts, cases)
    | child :: rest =>
        if is_suite_tag (e_tag child) then
          let^ (nested, cases) := visit child cases in
          loop rest (add_counts counts nested) cases
        else if bool_decide (e_tag child = py "testcase") && bool_decide (tag = py "testsuite") then
          let^ (c, n) := read_case (case_name <$> cases) child in
          loop rest (add_counts counts n) (cases ++ [c])
        else if negb (is_ignored_tag (e_tag child)) then Blocked (py "mandatory test report has an unexpected format")
        else loop rest counts cases
    end.

(** [visit]: the counts of a node, and the cases found so far with its own appended; the set
    [seen] holds their identities. *)
Fixpoint visit (node : element) (cases : list case) : outcome (SuiteResult * list case) :=
  match node with
  | Element tag attrib children =>
      block_if negb (is_suite_tag tag) with py "mandatory test report has an unexpected format";
      let^ (counts, cases) := visit_children visit tag children no_counts cases in
      let^ _ := check_node_counts (Element tag attrib children) counts (bool_decide (tag = py "testsuite")) in
      Valid (counts, cases)
  end.

(** * The contract of a report *)

(** The case a [testcase] element stands for. *)
Inductive case_of (child : element) : case -> SuiteResult -> Prop :=
  | CaseOf classname name outcomes status reason counts :
      get "classname" child = Some classname -> classname <> [] ->
      get "name" child = Some name -> name <> [] ->
      outcomes = List.filter (fun i => is_outcome_tag (e_tag i)) (e_children child) ->
      (outcomes = [] /\ status = passed /\ reason = [] /\ counts = MkCounts 1 0 0 0 \/
       (exists o, outcomes = [o] /\ e_tag o = py "failure" /\ status = failed /\ reason = [] /\ counts = MkCounts 1 1 0 0) \/
       (exists o, outcomes = [o] /\ e_tag o = py "error" /\ status = failed /\ reason = [] /\ counts = MkCounts 1 0 1 0) \/
       (exists o, outcomes = [o] /\ e_tag o = py "skipped" /\ status = skipped /\ reason = default [] (get "message" o) /\
          counts = MkCounts 1 0 0 1)) ->
      case_of child (classname ++ py "::" ++ name, status, reason) counts.

(** The declared count of a node, when there is one or it is required, is the actual one. *)
Definition declares (node : element) (required : bool) (key : string) (n : Z) : Prop :=
  match get key node with
  | None => required = false
  | Some raw => fullmatch (RPlus (RClass cls_digit)) raw = true /\ (length raw <= int_max_str_digits)%nat /\ digits_value raw = n
  end.

(** A node with the cases of its subtree in document order, and its counts; every suite below
    it declares its own counts. *)
Inductive report_node : element -> list case -> SuiteResult -> Prop :=
  | ReportNode tag attrib children cases counts :
      is_suite_tag tag = true ->
      report_children tag children cases counts ->
      let node := Element tag attrib children in
      let required := bool_decide (tag = py "testsuite") in
      declares node required "tests" (r_tests counts) ->
      declares node required "failures" (r_failures counts) ->
      declares node required "errors" (r_errors counts) ->
      declares node required "skipped" (r_skipped counts) ->
      report_node node cases counts
with report_children : pystr -> list element -> list case -> SuiteResult -> Prop :=
  | ChildrenNil tag : report_children tag [] [] no_counts
  | ChildrenSuite tag child rest cases counts cases' counts' :
      report_node child cases counts -> report_children tag rest cases' counts' ->
      report_children tag (child :: rest) (cases ++ cases') (add_counts counts counts')
  | ChildrenCase tag child rest c counts cases' counts' :
      tag = py "testsuite" -> e_tag child = py "testcase" -> case_of child c counts ->
      report_children tag rest cases' counts' ->
      report_children tag (child :: rest) (c :: cases') (add_counts counts counts')
  | ChildrenIgnored tag child rest cases counts :
      is_ignored_tag (e_tag child) = true -> report_children tag rest cases counts ->
      report_children tag (child :: rest) cases counts.

(** * The code accepts exactly the reports of the contract *)

Lemma is_outcome_tag_true t : is_outcome_tag t = true <-> t = py "failure" \/ t = py "error" \/ t = py "skipped".
Proof. unfold is_outcome_tag. rewrite mem_true, !elem_of_cons, elem_of_nil. tauto. Qed.

Lemma tags_distinct : py "failure" <> py "error" /\ py "failure" <> py "skipped" /\ py "error" <> py "skipped".
Proof. split_and!; vm_compute; done. Qed.

Lemma read_case_valid seen child c n :
  read_case seen child = Valid (c, n) <-> case_of child c n /\ case_name c ∉ seen.
Proof.
  destruct tags_distinct as (N1 & N2 & N3). unfold read_case. split.
  - destruct (get "classname" child) as [[|c0 cs]|] eqn:Ec; try done.
    destruct (get "name" child) as [[|n0 ns]|] eqn:En; try done. lazy beta iota zeta.
    rewrite block_valid. intros [Hm H]. apply not_true_iff_false in Hm. rewrite mem_true in Hm. rewrite block_valid in H.
    destruct H as [Hl H].
    destruct (List.filter _ _) as [|o [|]] eqn:Ef; [| |done].
    + injection H as <- <-. split; [|done]. eapply (CaseOf child (c0 :: cs) (n0 :: ns)); eauto; done.
    + assert (is_outcome_tag (e_tag o) = true) as Ho.
      { assert (o ∈ List.filter (fun i => is_outcome_tag (e_tag i)) (e_children child)) as Hin by (rewrite Ef; left).
        by apply filter_elem in Hin as [_ ?]. }
      apply is_outcome_tag_true in Ho. lazy iota in H.
      destruct (decide (e_tag o = py "failure")) as [E1|E1]; [rewrite (bool_decide_eq_true_2 _ E1) in H|rewrite (bool_decide_eq_false_2 _ E1) in H].
      * injection H as <- <-. split; [|done]. eapply (CaseOf child (c0 :: cs) (n0 :: ns)); eauto 10; done.
      * destruct (decide (e_tag o = py "error")) as [E2|E2]; [rewrite (bool_decide_eq_true_2 _ E2) in H|rewrite (bool_decide_eq_false_2 _ E2) in H].
        -- injection H as <- <-. split; [|done]. eapply (CaseOf child (c0 :: cs) (n0 :: ns)); eauto 10; done.
        -- injection H as <- <-. split; [|done]. eapply (CaseOf child (c0 :: cs) (n0 :: ns)); eauto; try done.
           right; right; right. exists o. naive_solver.
  - intros [[classname name outcomes status reason counts Hc Hcn Hn Hnn Ho Hcases] Hni].
    rewrite Hc, Hn. destruct classname as [|c0 cs]; [done|]. destruct name as [|n0 ns]; [done|]. lazy beta iota zeta.
    rewrite block_valid. split; [apply not_true_iff_false; by rewrite mem_true|]. rewrite <-Ho, block_valid.
    destruct Hcases as [(-> & -> & -> & ->)|[(o & -> & E & -> & -> & ->)|[(o & -> & E & -> & -> & ->)|(o & -> & E & -> & -> & ->)]]];
      (split; [done|]); [done| | |]; rewrite E; lazy iota.
    + by rewrite bool_decide_eq_true_2.
    + by rewrite bool_decide_eq_false_2, bool_decide_eq_true_2 by congruence.
    + by rewrite !bool_decide_eq_false_2 by congruence.
Qed.

Lemma check_count_valid node required key n u : check_count node required key n = Valid u <-> declares node required key n.
Proof.
  unfold check_count, declares. destruct u, (get key node) as [raw|]; [|by destruct required].
  rewrite block_valid, negb_false_iff, obind_valid. apply and_iff_compat_l. unfold int_of_digits.
  destruct (Nat.ltb_spec int_max_str_digits (length raw)); split.
  - by intros (? & [=] & _).
  - intros [? _]. lia.
  - intros (z & [= <-] & H'). rewrite block_valid, negb_false_iff, Z.eqb_eq in H'. naive_solver.
  - intros [_ <-]. eexists. split; [done|]. by rewrite Z.eqb_refl.
Qed.

Lemma check_node_counts_valid node counts required u :
  check_node_counts node counts required = Valid u <->
  declares node required "tests" (r_tests counts) /\ declares node required "failures" (r_failures counts) /\
  declares node required "errors" (r_errors counts) /\ declares node required "skipped" (r_skipped counts).
Proof.
  unfold check_node_counts. rewrite <-!(check_count_valid _ _ _ _ tt). split.
  - rewrite obind_valid. intros ([] & H1 & H). rewrite obind_valid in H. destruct H as ([] & H2 & H).
    rewrite obind_valid in H. destruct H as ([] & H3 & H). by destruct u.
  - intros (H1 & H2 & H3 & H4). rewrite H1. simpl. rewrite H2. simpl. rewrite H3. simpl. by destruct u.
Qed.

Lemma add_counts_assoc a b c : add_counts a (add_counts b c) = add_counts (add_counts a b) c.
Proof. unfold add_counts. simpl. f_equal; lia. Qed.

Lemma add_no_counts a : add_counts a no_counts = a /\ add_counts no_counts a = a.
Proof. destruct a. unfold add_counts. simpl. split; f_equal; lia. Qed.

Abbreviation names := (fmap (M := list) case_name).

(** The classes of tags do not overlap. *)
Lemma tag_classes t :
  (is_suite_tag t = true -> t <> py "testcase" /\ is_ignored_tag t = false) /\
  (is_ignored_tag t = true -> t <> py "testcase" /\ is_suite_tag t = false) /\
  (t = py "testcase" -> is_suite_tag t = false /\ is_ignored_tag t = false).
Proof.
  unfold is_suite_tag, is_ignored_tag. rewrite !mem_true, !elem_of_cons, !elem_of_nil.
  split_and!; [intros [->|[->|[]]]|intros [->|[->|[->|[]]]]|intros ->]; split;
    solve [vm_compute; reflexivity | intros E; vm_compute in E; discriminate E].
Qed.

Section Visit.
Context (rec : element -> list case -> outcome (SuiteResult * list case)).

(** What the induction gives for a child. *)
Definition visits (e : element) : Prop :=
  forall before counts after, NoDup (names before) ->
  rec e before = Valid (counts, after) <->
  exists cases, report_node e cases counts /\ after = before ++ cases /\ NoDup (names after).

Lemma visit_children_valid tag children :
  Forall visits children -> forall counts0 before counts after, NoDup (names before) ->
  visit_children rec tag children counts0 before = Valid (counts, after) <->
  exists cases n, report_children tag children cases n /\ counts = add_counts counts0 n /\
    after = before ++ cases /\ NoDup (names after).
Proof.
  induction 1 as [|child rest Hchild Hrest IH]; intros counts0 before counts after Hnd.
  - simpl. split.
    + intros [= <- <-]. exists [], no_counts. rewrite app_nil_r. split_and!; [constructor|by rewrite (proj1 (add_no_counts _))|done|done].
    + intros (cases & n & H & -> & -> & _). inversion H; subst. by rewrite app_nil_r, (proj1 (add_no_counts _)).
  - cbn [visit_children]. destruct (tag_classes (e_tag child)) as (T1 & T2 & T3).
    destruct (is_suite_tag (e_tag child)) eqn:Es; [|destruct (bool_decide _ && bool_decide _) eqn:Et].
    + rewrite obind_valid. split.
      * intros ([nested mid] & (cases & Hc & -> & Hm)%Hchild & H); [|done]. apply IH in H as (cases' & n & Hr & -> & -> & Ha); [|done].
        exists (cases ++ cases'), (add_counts nested n). split_and!; [by constructor|by rewrite add_counts_assoc|by rewrite app_assoc|done].
      * intros (cases & n & H & -> & -> & Ha). destruct (T1 eq_refl) as [T4 T5].
        inversion H as [|? ? ? c1 n1 c2 n2 Hn Hr| |]; subst; [|congruence|congruence].
        rewrite app_assoc in Ha. assert (NoDup (names (before ++ c1))) as Hm.
        { rewrite (fmap_app case_name (before ++ c1)) in Ha. by apply NoDup_app in Ha as [? _]. }
        exists (n1, before ++ c1). split; [apply Hchild; [done|]; eauto|]. apply IH; [done|].
        exists c2, n2. rewrite app_assoc, add_counts_assoc. done.
    + apply andb_true_iff in Et as [E1 E2]. apply bool_decide_eq_true in E1, E2. rewrite obind_valid. split.
      * intros ([c nc] & [Hc Hni]%read_case_valid & H).
        assert (NoDup (names (before ++ [c]))) as Hm.
        { rewrite fmap_app. apply NoDup_app. split_and!; [done| |apply NoDup_singleton]. intros x Hx ->%list_elem_of_singleton. done. }
        apply IH in H as (cases' & n & Hr & -> & -> & Ha); [|done].
        exists (c :: cases'), (add_counts nc n). split_and!; [by constructor|by rewrite add_counts_assoc|by rewrite <-app_assoc|done].
      * intros (cases & n & H & -> & -> & Ha). inversion H as [|? ? ? c1 n1 c2 n2 Hn Hr|? ? ? c n1 c2 n2 _ _ Hc Hr|? ? ? ? ? Hi]; subst.
        { inversion Hn; subst. simpl in Es. congruence. } 2: { destruct (T2 Hi). congruence. }
        replace (before ++ c :: c2) with ((before ++ [c]) ++ c2) in * by (by rewrite <-app_assoc).
        assert (NoDup (names (before ++ [c]))) as Hm.
        { rewrite (fmap_app case_name (before ++ [c])) in Ha. by apply NoDup_app in Ha as [? _]. }
        exists (c, n1). split.
        -- apply read_case_valid. split; [done|]. rewrite fmap_app in Hm. apply NoDup_app in Hm as (_ & Hm & _).
           intros Hx. apply (Hm _ Hx). by apply list_elem_of_singleton.
        -- apply IH; [done|]. exists c2, n2. rewrite add_counts_assoc. done.
    + apply andb_false_iff in Et. destruct (is_ignored_tag (e_tag child)) eqn:Ei; cbn [negb].
      * rewrite IH by done. split; intros (cases & n & H & Hrest'); exists cases, n; (split; [|done]); [by constructor|].
        inversion H as [|? ? ? c1 n1 c2 n2 Hn Hr|? ? ? c n1 c2 n2 Htag Hct Hc Hr|]; subst; [inversion Hn; subst; simpl in Es; congruence| |done].
        destruct (T2 eq_refl). congruence.
      * split; [done|]. intros (cases & n & H & _).
        inversion H as [|? ? ? c1 n1 c2 n2 Hn Hr|? ? ? c n1 c2 n2 Htag Hct Hc Hr|]; subst; [inversion Hn; subst; simpl in Es; congruence| |congruence].
        destruct Et as [Et|Et]; apply bool_decide_eq_false in Et; done.
Qed.
End Visit.

Lemma visit_valid e : visits visit e.
Proof.
  induction e as [tag attrib children IH] using element_ind'. intros before counts after Hnd. cbn [visit].
  rewrite block_valid, negb_false_iff, obind_valid. split.
  - intros (Hs & [counts' after'] & H & H'). rewrite obind_valid in H'.
    destruct H' as (u & (H1 & H2 & H3 & H4)%check_node_counts_valid & [= -> ->]).
    apply visit_children_valid in H as (cases & n & Hr & -> & -> & Ha); [|done|done].
    rewrite (proj2 (add_no_counts _)) in *. exists cases. split_and!; [by constructor|done|done].
  - intros (cases & H & -> & Ha). inversion H as [? ? ? ? ? Hs Hr node required H1 H2 H3 H4]; subst. split; [done|].
    exists (counts, before ++ cases). split.
    + apply visit_children_valid; [done|done|]. exists cases, counts. by rewrite (proj2 (add_no_counts _)).
    + rewrite obind_valid. exists tt. split; [|done]. by apply check_node_counts_valid.
Qed.

(** * Counts and cases *)

Definition with_status (status : pystr) (cases : list case) : nat := length (List.filter (fun c => bool_decide (case_status c = status)) cases).

(** The counts are those of the cases, and every case has one of three statuses. *)
Definition counts_of (cases : list case) (n : SuiteResult) : Prop :=
  r_tests n = Z.of_nat (length cases) /\
  0 <= r_failures n /\ 0 <= r_errors n /\ r_failures n + r_errors n = Z.of_nat (with_status failed cases) /\
  r_skipped n = Z.of_nat (with_status skipped cases) /\
  Forall (fun c => case_status c = passed \/ case_status c = failed \/ case_status c = skipped) cases.

Lemma with_status_app st a b : with_status st (a ++ b) = (with_status st a + with_status st b)%nat.
Proof. unfold with_status. by rewrite List.filter_app, length_app. Qed.

Lemma counts_of_app a b m n : counts_of a m -> counts_of b n -> counts_of (a ++ b) (add_counts m n).
Proof.
  unfold counts_of. rewrite !with_status_app, length_app, Forall_app. simpl. intros (?&?&?&?&?&?) (?&?&?&?&?&?). split_and!; try done; lia.
Qed.

Lemma statuses_distinct : passed <> failed /\ passed <> skipped /\ failed <> skipped.
Proof. split_and!; vm_compute; done. Qed.

Lemma case_of_counts child c n : case_of child c n -> counts_of [c] n.
Proof.
  destruct statuses_distinct as (N1 & N2 & N3).
  intros [classname name outcomes status reason counts _ _ _ _ _ H]. unfold counts_of, with_status, case_status. simpl.
  destruct H as [(_ & -> & -> & ->)|[(o & _ & _ & -> & -> & ->)|[(o & _ & _ & -> & -> & ->)|(o & _ & _ & -> & -> & ->)]]]; simpl;
    repeat (rewrite bool_decide_eq_true_2 by done || rewrite bool_decide_eq_false_2 by congruence); simpl;
    split_and!; try lia; apply Forall_singleton; simpl; auto.
Qed.

Scheme report_node_mut := Minimality for report_node Sort Prop
  with report_children_mut := Minimality for report_children Sort Prop.

Lemma report_node_counts e cases n : report_node e cases n -> counts_of cases n.
Proof.
  apply (report_node_mut (fun _ cases n => counts_of cases n) (fun _ _ cases n => counts_of cases n)); try done.
  - intros. by apply counts_of_app.
  - intros tag child rest c counts cases' counts' _ _ Hc _ Hr. apply (counts_of_app [c]); [by eapply case_of_counts|done].
Qed.
