(* ===== verification/Acceptance.v ===== *)
(** The acceptance run (security_acceptance.py): inventories, commands, vectors, the three
    profiles, the assembly of a receipt, and its file.

    Everything a run asks of its environment is a request with an arbitrary answer, given by
    an oracle that may look at all that happened before; the requests and answers are kept as
    a trace.  Only the directory of the receipt is modelled further, with the calls of
    [Storage].  A path is its text; [ROOT] is absolute and does not end in a slash. *)

From stdpp Require Import gmap.
From S2P Require Import Prelude PyVal Sha256 Base64 Json Container Storage Regex DateTime Receipt NativeReport.

Open Scope Z_scope.

(** * Requests *)

(** The answer to a call in a [try] block: a value, an exception the handler names, or
    another one. *)
Inductive answer (A : Type) :=
  | Got (a : A)
  | Caught
  | Threw (e : exn).
Arguments Got {A} a.
Arguments Caught {A}.
Arguments Threw {A} e.

Abbreviation environ := (gmap pystr pystr).

Inductive request : Type -> Type :=
  | ParseReport (path : pystr) : request (answer element)       (* ET.parse(path).getroot() *)
  | ReadText (path : pystr) : request (answer pystr)            (* path.read_text(encoding="utf-8") *)
  | ReadBytes (path : pystr) : request (answer bytes)           (* the blocks of an open file *)
  | LoadToml (path : pystr) : request (answer pydict)           (* tomllib.loads(path.read_text(...)) *)
  | Run (command : list pystr) (cwd : pystr) (env : option environ) (timeout : Z) : request (answer (Z * pystr))
  | IsFile (path : pystr) : request (res bool)
  | FileSize (path : pystr) : request (res Z)
  | Glob (directory pattern : pystr) : request (res (list pystr)) (* the names of the matches *)
  | Mkdir (path : pystr) : request (res unit)
  | Unlink (path : pystr) : request (res unit)
  | Resolve (path : pystr) : request (res pystr)
  | MakeTemp : request (res pystr)                              (* TemporaryDirectory(...) *)
  | RemoveTree (path : pystr) : request (res unit)              (* its clean-up *)
  | Environ : request environ                                   (* os.environ *)
  | ImportPytest : request (answer unit)
  | PythonVersion : request pystr
  | Platform : request pystr                                    (* platform.platform(terse=True) *)
  | Implementation : request pystr
  | Now : request utc_time
  | Print (error : bool) (line : pystr) : request (res unit).

Inductive event :=
  | Event {R : Type} (q : request R) (a : R).

Abbreviation oracle := (forall R, list event -> request R -> R).

Record proc := MkProc { p_trace : list event; p_world : world }.

Definition P (A : Type) : Type := proc -> outcome A * proc.

Definition pret {A} (a : A) : P A := fun s => (Valid a, s).
Definition pbind {A B} (m : P A) (k : A -> P B) : P B :=
  fun s => match m s with (Valid a, s') => k a s' | (Blocked t, s') => (Blocked t, s') | (Raise e, s') => (Raise e, s') end.
Definition lift {A} (m : outcome A) : P A := fun s => (m, s).
Definition pattempt {A} (m : P A) : P (outcome A) := fun s => let r := m s in (Valid r.1, r.2).

Declare Scope acceptance_scope.
Delimit Scope acceptance_scope with acceptance.
Notation "'let?' x := m 'in' k" := (pbind m (fun x => k))
  (at level 10, x pattern, m at level 100, k at level 200) : acceptance_scope.
Notation "'stop_if' c 'with' t ; k" := (if c then lift (Blocked t) else k)
  (at level 10, c at level 100, t at level 99, k at level 200) : acceptance_scope.
Open Scope acceptance_scope.

(** A call on the file system of the receipt. *)
Definition io {A} (m : IO A) : P A := fun s =>
  let r := m (p_world s) in
  (match r.1 with Ok a => Valid a | Err e => Raise e end, MkProc (p_trace s) r.2).

(** [for x in l: f(x)] with the results collected. *)
Fixpoint pmap {A B} (f : A -> P B) (l : list A) : P (list B) :=
  match l with
  | [] => pret []
  | x :: l' => let? y := f x in let? r := pmap f l' in pret (y :: r)
  end.

Section Acceptance.
Context (o : oracle).

Definition ask {R} (q : request R) : P R := fun s =>
  let a := o R (p_trace s) q in (Valid a, MkProc (p_trace s ++ [Event q a]) (p_world s)).

(** A call whose exceptions nobody handles. *)
Definition demand {A} (q : request (res A)) : P A :=
  let? r := ask q in lift (match r with Ok a => Valid a | Err e => Raise e end).

(** A call in [try: ... except ...: _fail(message)]. *)
Definition guarded {A} (q : request (answer A)) (message : string) : P A :=
  let? r := ask q in
  lift (match r with Got a => Valid a | Caught => Blocked (py message) | Threw e => Raise e end).

(** * Paths and objects *)

Context (ROOT : pystr).

Definition under (directory name : pystr) : pystr := directory ++ [47] ++ name.

(** The text before the last occurrence of a character, and the whole text without one. *)
Definition before_last (c : Z) (s : pystr) : pystr :=
  if mem [c] ((fun x => [x]) <$> s) then take (length s - length (after_last c s) - 1) s else s.

(** [Path(s).name] and [Path(s).stem] of a name that does not start with a dot. *)
Definition path_name (s : pystr) : pystr := after_last 47 s.
Definition path_stem (s : pystr) : pystr := before_last 46 (path_name s).

Definition INVENTORY_PATH : pystr := under ROOT (py "scripts/security-acceptance-inventory.json").
Definition ANDROID_RESULTS : pystr := under ROOT (py "platforms/android-wallet/build/test-results/testDebugUnitTest").
Definition ANDROID_COMMAND : list pystr :=
  [py "./gradlew"; py "--no-daemon"; py "--dependency-verification=strict";
   py ":platforms:android-wallet:testDebugUnitTest"; py "--rerun-tasks"].
Definition ARTIFACT_ENV : pystr := py "PORTABLE_LATCH_ARTIFACT_DIR".
Definition VECTORS : list pystr :=
  [py "tests/vectors/wallet-container-v2.json";
   py "tests/vectors/identity-owner-key-rotation-legacy.json";
   py "tests/vectors/identity-owner-key-rotation-versioned-history.json";
   py "tests/vectors/wallet-v2-portable-rotation-latch.json"].

(** A dict display with [str] keys. *)
Definition obj (items : list (string * pyval)) : pyval := PDict ((fun kv => (PStr (py kv.1), kv.2)) <$> items).

(** What [json.loads] returns, as a value; floats are not compared with numbers here. *)
Fixpoint py_of_json (j : json) : pyval :=
  match j with
  | JNull => PNone
  | JBool b => PBool b
  | JInt z => PInt z
  | JFloat _ => POther 0 None true
  | JStr s => PStr s
  | JArr l => PList (py_of_json <$> l)
  | JObj items => PDict ((fun kv => (PStr kv.1, py_of_json kv.2)) <$> items)
  end.

(** [json.loads(path.read_text(encoding="utf-8"))] in a [try] block that names [OSError],
    [UnicodeError] and [JSONDecodeError]. *)
Definition read_json (path : pystr) (message : string) : P pyval :=
  let? text := guarded (ReadText path) message in
  lift (match json_loads text with
        | Ok j => Valid (py_of_json j)
        | Err JSONDecodeError => Blocked (py message)
        | Err e => Raise e
        end).

(** * Reports *)

Fixpoint visit_reports (paths : list pystr) (totals : SuiteResult) (cases : list case) : P (SuiteResult * list case) :=
  match paths with
  | [] => pret (totals, cases)
  | path :: rest =>
      let? root := guarded (ParseReport path) "mandatory test report is unreadable" in
      let? (counts, cases) := lift (visit root cases) in
      visit_reports rest (add_counts totals counts) cases
  end.

Definition _native_report (report_paths : list pystr) : P (SuiteResult * list case) :=
  stop_if bool_decide (report_paths = []) with py "mandatory test report is missing";
  let? (totals, cases) := visit_reports report_paths no_counts [] in
  stop_if bool_decide (cases = []) with py "mandatory test report contains no cases";
  pret (totals, cases).

Definition junit_result (report_paths : list pystr) : P SuiteResult :=
  let? (result, _) := _native_report report_paths in
  stop_if negb (r_failures result =? 0) || negb (r_errors result =? 0) || negb (r_skipped result =? 0)
    with py "mandatory suite failed or skipped a test";
  pret result.

Definition _junit_cases (report_paths : list pystr) : P (list case) :=
  let? (_, cases) := _native_report report_paths in pret cases.

(** * The reviewed inventory *)

(** An identity: two texts that are not empty around the first [::]. *)
Definition valid_identity (v : pyval) : option pystr :=
  match v with
  | PStr s => match cut (py "::") s with Some (_ :: _, _ :: _) => Some s | _ => None end
  | _ => None
  end.

Fixpoint identities (l : list pyval) : option (list pystr) :=
  match l with
  | [] => Some []
  | v :: l' => match valid_identity v, identities l' with Some s, Some t => Some (s :: t) | _, _ => None end
  end.

Definition check_identities (value : pyval) : outcome (list pystr) :=
  match value with
  | PList ((_ :: _) as l) =>
      match identities l with
      | Some ids => block_if negb (distinct ids) with py "reviewed mandatory inventory has invalid identities"; Valid ids
      | None => Blocked (py "reviewed mandatory inventory has invalid identities")
      end
  | _ => Blocked (py "reviewed mandatory inventory has invalid identities")
  end.

(** [for x in v]; a value that cannot be iterated raises [TypeError]. *)
Definition py_iter (v : pyval) : outcome (list pyval) :=
  match v with
  | PList l | PTuple l => Valid l
  | PDict d => Valid d.*1
  | PStr s => Valid ((fun c => PStr [c]) <$> s)
  | PBytes b => Valid ((fun c => PInt (byteZ c)) <$> b)
  | _ => Raise TypeError
  end.

Fixpoint flatten (l : list pyval) : outcome (list pyval) :=
  match l with
  | [] => Valid []
  | v :: l' => let^ xs := py_iter v in let^ ys := flatten l' in Valid (xs ++ ys)
  end.

Definition registry_job_files : list string :=
  ["tests/test_android_registry_peer.py"; "tests/test_registry_transport_integration.py";
   "tests/test_portable_latch_registry_integration.py"]%string.

(** The suites of the inventory, by their keys. *)
Inductive suite_key := PythonMatrix | AndroidJvmSecurity | LocalRegistry.

Definition suite_name (k : suite_key) : string :=
  match k with
  | PythonMatrix => "python-security-matrix"
  | AndroidJvmSecurity => "android-wallet-jvm-security"
  | LocalRegistry => "local-registry-integration"
  end.

Definition select_inventory (manifest : pyval) (suite_id : suite_key) (test_file : option string) : outcome (list pystr) :=
  let^ d := _exact_keys manifest
    ["schema"; "python-security-matrix"; "android-wallet-jvm-security"; "local-registry-integration"]%string (py "inventory") in
  let^ schema := item d "schema" in
  block_if negb (is_str schema (py "decent-wallet-security-acceptance-inventory-v1"))
    with py "reviewed mandatory inventory schema is invalid";
  let^ value := item d (suite_name suite_id) in
  let^ value :=
    match suite_id with
    | LocalRegistry =>
        let^ jobs := _exact_keys value registry_job_files (py "Registry inventory") in
        match test_file with
        | Some file => Valid (default PNone (str_get (py file) jobs))
        | None => let^ l := flatten jobs.*2 in Valid (PList l)
        end
    | _ => Valid value
    end in
  check_identities value.

Definition _expected_inventory (suite_id : suite_key) (test_file : option string) : P (list pystr) :=
  let? manifest := read_json INVENTORY_PATH "reviewed mandatory inventory is missing or unreadable" in
  lift (select_inventory manifest suite_id test_file).

Definition _require_inventory (suite_id : suite_key) (cases : list case) (optional : list pystr) (test_file : option string) : P unit :=
  let? expected := _expected_inventory suite_id test_file in
  stop_if existsb (fun x => mem x optional) expected || negb (same_set (case_name <$> cases) (expected ++ optional))
    with py "mandatory case inventory does not match the reviewed manifest";
  pret tt.

(** * Files and commands *)

Definition _hash_file (path : pystr) : P pystr :=
  let? data := guarded (ReadBytes path) "required acceptance artifact is unreadable" in
  pret (hexdigest (sha256 data)).

Definition suite_object (id : pystr) (result : SuiteResult) (transitions : list pystr) : pyval :=
  obj [("id", PStr id); ("status", PStr passed); ("tests", PInt (r_tests result)); ("failures", PInt (r_failures result));
       ("errors", PInt (r_errors result)); ("skipped", PInt (r_skipped result)); ("state_transitions", PList (PStr <$> transitions))]%string.

Definition _suite (suite_id : pystr) (reports : list pystr) (cases : list case) : P pyval :=
  let? result := junit_result reports in
  stop_if negb (r_tests result =? Z.of_nat (length cases)) with py "mandatory report summary is inconsistent";
  pret (suite_object suite_id result [mandatory_cases_passed; receipt_emitted]).

Definition actual_command (command : list pystr) : list pystr :=
  match command with
  | c :: rest => if bool_decide (c = py "./gradlew") then under ROOT (py "gradlew") :: rest else command
  | [] => []
  end.

Definition _run (command : list pystr) (env : environ) (timeout : Z) : P unit :=
  let command := actual_command command in
  let? (returncode, _) := guarded (Run command ROOT (Some env) timeout) "mandatory acceptance command could not complete" in
  if negb (returncode =? 0) then
    let? _ := demand (Print true (if contains (py "gradlew") (hd [] command)
      then py "Android Gradle acceptance task failed." else py "Python acceptance test command failed.")) in
    lift (Blocked (py "mandatory acceptance command failed"))
  else pret tt.

(** * Public vectors *)

(** [bytes.fromhex(s)]; [None] is [ValueError]. *)
Definition is_hex_space (c : Z) : bool := (c =? 32) || ((9 <=? c) && (c <=? 13)).

Fixpoint fromhex (s : pystr) : option bytes :=
  match s with
  | [] => Some []
  | c :: s' =>
      if is_hex_space c then fromhex s'
      else match s' with
           | d :: s'' =>
               match hex_value c, hex_value d, fromhex s'' with
               | Some h, Some l, Some r => Some (byte_of_Z (16 * h + l) :: r)
               | _, _, _ => None
               end
           | [] => None
           end
  end.

Definition artifact_object (id digest : pystr) : pyval := obj [("id", PStr id); ("sha256", PStr digest)]%string.

(** The fields of the portable-latch vector decode as Base64. *)
Definition check_base64 (d : pydict) (field : string) : outcome unit :=
  match str_get (py field) d with
  | Some (PStr s) => match b64decode s with Some _ => Valid tt | None => Blocked (py "portable-latch vector is malformed") end
  | _ => Blocked (py "portable-latch vector is malformed")
  end.

(** One round of the loop over [VECTORS]: the artifacts it appends. *)
Definition read_vector (include_identity_vectors : bool) (relative : pystr) : P (list pyval) :=
  let path := under ROOT relative in
  let? fixture := read_json path "required public test vector is missing or unreadable" in
  match fixture with
  | PDict d =>
      if bool_decide (path_name path = py "wallet-container-v2.json") then
        let marked := match str_get (py "test_only") d, str_get (py "notice") d with
                      | Some (PBool true), Some (PStr notice) => contains (py "Never use with a real wallet") notice
                      | _, _ => false
                      end in
        stop_if negb marked with py "wallet-container vector is not marked synthetic test-only";
        let? digest := _hash_file path in
        pret [artifact_object wallet_container_known_answer digest]
      else if bool_decide (path_name path = py "wallet-v2-portable-rotation-latch.json") then
        stop_if negb (is_str (default PNone (str_get (py "identity_vector") d)) (py "identity-owner-key-rotation-legacy.json"))
          with py "portable-latch vector references an unexpected Identity vector";
        let? _ := lift (check_base64 d "python_bound_container_base64") in
        let? _ := lift (check_base64 d "legacy_unbound_container_base64") in
        let? _ := lift (check_base64 d "python_bignum_container_base64") in
        pret []
      else if negb include_identity_vectors then pret []
      else
        match str_get (py "candidate_envelope_cbor_hex") d with
        | Some (PStr text) =>
            match fromhex text with
            | Some raw =>
                pret [artifact_object (str_replace (py "_") (py "-") (path_stem relative) ++ py "-candidate-envelope") (hexdigest (sha256 raw))]
            | None => lift (Blocked (py "Identity candidate vector is malformed"))
            end
        | _ => lift (Blocked (py "Identity candidate vector is malformed"))
        end
  | _ => lift (Blocked (py "required public test vector is malformed"))
  end.

Definition _test_only_artifacts (include_identity_vectors : bool) : P (list pyval) :=
  let? parts := pmap (read_vector include_identity_vectors) VECTORS in
  pret (concat parts).

(** * The Registry checkout *)

(** [bool(v)]; values of other types are true unless they equal zero. *)
Definition truthy (v : pyval) : bool :=
  match v with
  | PNone => false
  | PBool b => b
  | PInt z => negb (z =? 0)
  | PBytes b => negb (bool_decide (b = []))
  | PStr s => negb (bool_decide (s = []))
  | PList l | PTuple l => match l with [] => false | _ => true end
  | PDict d => match d with [] => false | _ => true end
  | POther _ n _ => negb (bool_decide (n = Some 0))
  end.

(** [v.get(key, missing)] *)
Definition get_attr (key : string) (missing : pyval) (v : pyval) : outcome pyval :=
  match v with
  | PDict d => Valid (default missing (str_get (py key) d))
  | _ => Raise AttributeError
  end.

(** The first package whose name is [decent-registry]. *)
Fixpoint find_package (l : list pyval) : outcome pyval :=
  match l with
  | [] => Valid PNone
  | package :: l' =>
      let^ name := get_attr "name" PNone package in
      if is_str name (py "decent-registry") then Valid package else find_package l'
  end.

Definition locked_revision (lock_data : pydict) : outcome pystr :=
  let^ packages := py_iter (default (PList []) (str_get (py "package") lock_data)) in
  let^ package := find_package packages in
  let^ source := match package with PDict _ => get_attr "source" (PDict []) package | _ => Valid (PDict []) end in
  let^ rev := get_attr "rev" PNone source in
  let^ revision :=
    if truthy rev then Valid rev
    else
      let^ git := get_attr "git" (PStr []) source in
      match git with PStr s => Valid (PStr (after_last 35 s)) | _ => Raise AttributeError end in
  match str_matching (hexadecimal 40) revision with
  | Some r => Valid r
  | None => Blocked (py "uv.lock does not pin a valid Registry revision")
  end.

Definition git_head : list pystr := [py "git"; py "rev-parse"; py "HEAD"].
Definition git_status : list pystr := [py "git"; py "status"; py "--porcelain"; py "--untracked-files=all"].

(** The parent of [ROOT]. *)
Definition parent (path : pystr) : pystr := before_last 47 path.

Definition _pinned_provider_path (environ : environ) : P pystr :=
  let given := default (under (parent ROOT) (py "decent-registry")) (environ !! py "DECENT_REGISTRY_PATH") in
  let? provider := if starts_with [47] given then pret given else demand (Resolve (under ROOT given)) in
  let? lock_data := guarded (LoadToml (under ROOT (py "uv.lock"))) "locked Registry revision could not be verified" in
  let? revision := lift (locked_revision lock_data) in
  let? present := demand (IsFile (under provider (py "pyproject.toml"))) in
  stop_if negb present with py "full profile requires the pinned local Registry checkout";
  let? (head_code, head) := guarded (Run git_head provider None 10) "local Registry revision could not be identified" in
  let? (status_code, status) := guarded (Run git_status provider None 10) "local Registry revision could not be identified" in
  stop_if negb (head_code =? 0) || negb (bool_decide (strip head = revision)) || negb (status_code =? 0) || negb (bool_decide (strip status = []))
    with py "local Registry checkout does not match the uv.lock revision";
  pret provider.

Definition _commit : P pystr :=
  let? (returncode, out) := guarded (Run git_head ROOT None 10) "source revision could not be identified" in
  let value := strip out in
  stop_if negb (returncode =? 0) || negb (fullmatch (hexadecimal 40) value) with py "source revision could not be identified";
  pret value.

(** * Profiles *)

(** [s.lower()], as far as it is searched for: no other character's lower case has an ASCII
    letter of the texts looked for. *)
Definition lower (s : pystr) : pystr := (fun c => if (65 <=? c) && (c <=? 90) then c + 32 else c) <$> s.

Definition registry_module_exclusions : list pystr :=
  [py "test_android_registry_peer.py"; py "test_remote_registry_acceptance.py"; py "test_podman_registry_deployment.py"].

(** The names of the cases with a status. *)
Definition named (status : pystr) (cases : list case) : list pystr :=
  case_name <$> List.filter (fun c => bool_decide (case_status c = status)) cases.

(** The checks of [_python_profile] on the cases before the inventory is read. *)
Definition check_python_cases (cases : list case) : outcome unit :=
  block_if negb (incl_set (named skipped cases) PYTHON_OPTIONAL_CASES) with py "Python suite skipped an unapproved mandatory case";
  block_if negb (incl_set PYTHON_OPTIONAL_CASES (case_name <$> cases)) with py "an approved environmental test was not collected";
  block_if negb (bool_decide (named failed cases = [])) with py "Python suite reported a failed mandatory case";
  Valid tt.

Definition deselected (c : case) : bool :=
  bool_decide (case_status c = skipped) &&
  (contains (py "deselected") (lower (case_reason c)) || contains (py "not run") (lower (case_reason c))).

(** The cases that passed and are not optional. *)
Definition mandatory_passing (optional : list pystr) (cases : list case) : list case :=
  List.filter (fun c => bool_decide (case_status c = passed) && negb (mem (case_name c) optional)) cases.

Definition python_transitions (cases : list case) : list pystr :=
  mandatory_cases_passed ::
  ((fun name => optional_case (if mem name (named skipped cases) then skipped else passed) (case_digest name)) <$>
     sort_by (fun x => x) PYTHON_OPTIONAL_CASES).

Definition python_command (python report : pystr) (names : list pystr) : list pystr :=
  [python; py "-m"; py "pytest"; py "-q"; py "--junitxml"; report] ++
  sort_by (fun x => x) (under (py "tests") <$> List.filter (fun n => negb (mem n registry_module_exclusions)) names).

Definition _python_profile (python : pystr) (env : environ) (report : pystr) : P (pyval * list pystr) :=
  let? names := demand (Glob (under ROOT (py "tests")) (py "test_*.py")) in
  let? _ := _run (python_command python report names) (delete (py "PYTEST_ADDOPTS") env) 1800 in
  let? cases := _junit_cases [report] in
  let? _ := lift (check_python_cases cases) in
  let? _ := _require_inventory PythonMatrix cases PYTHON_OPTIONAL_CASES None in
  stop_if existsb deselected cases with py "Python suite reported unapproved deselection metadata";
  let counts := MkCounts (Z.of_nat (length (mandatory_passing PYTHON_OPTIONAL_CASES cases))) (Z.of_nat (length (named failed cases))) 0 0 in
  pret (suite_object python_security_matrix counts (python_transitions cases), sort_by (fun x => x) (named skipped cases)).

(** The Kotlin artifacts and the tests that write them. *)
Definition producers : list (pystr * pystr) :=
  [(py "kotlin-bound.dw", py "actualKotlinPublicAuthoringExportsBoundAndLegacyCiphertext");
   (py "kotlin-legacy.dw", py "actualKotlinPublicAuthoringExportsBoundAndLegacyCiphertext");
   (py "kotlin-bignum.dw", py "largePositiveIntegerRealEncryptedPublicReadersAndWriter")].

(** One round of the loop over [producers]. *)
Definition produce (artifacts_dir : pystr) (cases : list case) (p : pystr * pystr) : P pyval :=
  let path := under artifacts_dir p.1 in
  let? present := demand (IsFile path) in
  let? size := if present : bool then demand (FileSize path) else pret 0 in
  stop_if negb present || (size =? 0) with py "Android tests did not produce a required Kotlin artifact";
  stop_if negb (existsb (fun c => contains (py "PortableLatchTest") (case_name c) && contains p.2 (case_name c) &&
                                  bool_decide (case_status c = passed)) cases)
    with py "Kotlin artifact producer test did not pass";
  let? digest := _hash_file path in
  pret (artifact_object (str_replace (py "_") (py "-") (path_stem p.1)) digest).

Definition check_android_cases (cases : list case) : outcome unit :=
  block_if negb (bool_decide (named failed cases = [])) with py "Android JVM suite reported a failed mandatory test";
  block_if negb (incl_set (named skipped cases) ANDROID_OPTIONAL_SKIPS) with py "Android JVM suite skipped an unapproved mandatory case";
  block_if negb (incl_set ANDROID_OPTIONAL_SKIPS (case_name <$> cases)) with py "Android live-peer optional case was not collected";
  Valid tt.

Definition android_optional_name : pystr := hd [] ANDROID_OPTIONAL_SKIPS.

(** [next(status for name, status, _ in cases if name == android_optional_name)] *)
Definition android_optional_state (cases : list case) : outcome pystr :=
  match List.find (fun c => bool_decide (case_name c = android_optional_name)) cases with
  | Some c => Valid (case_status c)
  | None => Raise (Exc 0)
  end.

Definition android_suite (cases : list case) (state : pystr) : pyval :=
  suite_object android_wallet_jvm_security
    (MkCounts (Z.of_nat (length (mandatory_passing ANDROID_OPTIONAL_SKIPS cases))) 0 0 (if bool_decide (state = skipped) then 1 else 0))
    [android_jvm_cases_passed; optional_live_peer_case state (case_digest android_optional_name)].

(** The class of every optional case is the live-peer test. *)
Definition optional_classes_valid : bool :=
  forallb (fun name => bool_decide (from_option fst name (cut (py "::") name) = android_optional_class)) ANDROID_OPTIONAL_SKIPS.

Definition android_command (gradle : pystr) : list pystr :=
  if bool_decide (gradle = under ROOT (py "gradlew")) then ANDROID_COMMAND else gradle :: tl ANDROID_COMMAND.

Definition _android_profile (gradle : pystr) (env : environ) (scratch : pystr) : P (pyval * list pyval) :=
  let? wrapper := demand (IsFile (under ROOT (py "gradlew"))) in
  stop_if negb wrapper with py "Gradle Wrapper is required for Android JVM acceptance";
  let artifacts_dir := under scratch (py "kotlin-artifacts") in
  let? _ := demand (Mkdir artifacts_dir) in
  let? _ := demand (Mkdir ANDROID_RESULTS) in
  let? old := demand (Glob ANDROID_RESULTS (py "TEST-*.xml")) in
  let? _ := pmap (fun name => demand (Unlink (under ANDROID_RESULTS name))) old in
  stop_if negb optional_classes_valid with py "Android optional-case allowlist is invalid";
  let? _ := _run (android_command gradle) (<[ARTIFACT_ENV := artifacts_dir]> env) 1800 in
  let? names := demand (Glob ANDROID_RESULTS (py "TEST-*.xml")) in
  let reports := under ANDROID_RESULTS <$> sort_by (fun x => x) names in
  let? cases := _junit_cases reports in
  let? _ := lift (check_android_cases cases) in
  let? _ := _require_inventory AndroidJvmSecurity cases ANDROID_OPTIONAL_SKIPS None in
  let? state := lift (android_optional_state cases) in
  let? artifacts := pmap (produce artifacts_dir cases) producers in
  pret (android_suite cases state, artifacts).

(** The integration jobs: test file and marker. *)
Definition integration_jobs : list (string * option string) :=
  [("tests/test_android_registry_peer.py", None);
   ("tests/test_registry_transport_integration.py", Some "registry_integration");
   ("tests/test_portable_latch_registry_integration.py", Some "registry_integration")]%string.

(** [report.with_name(f"{report.stem}-{index}.xml")] *)
Definition job_report (scratch stem : pystr) (index : nat) : pystr :=
  under scratch (stem ++ [45] ++ show (Z.of_nat index) ++ py ".xml").

Definition job_command (provider report : pystr) (job : string * option string) : list pystr :=
  [py "uv"; py "run"; py "--locked"; py "--extra"; py "test"; py "--extra"; py "registry"; py "--with-editable"; provider;
   py "python"; py "-m"; py "pytest"; py "-q"; py "--junitxml"; report] ++
  match job.2 with Some marker => [py "-m"; py marker] | None => [] end ++ [py job.1].

(** The jobs with the paths of their reports. *)
Definition registry_jobs (scratch : pystr) : list (string * option string * pystr) :=
  imap (fun index job => (job, job_report scratch (py "registry-integration") index)) integration_jobs.

Definition registry_environment (env : environ) (provider : pystr) : environ :=
  <[py "DECENT_REGISTRY_PATH" := provider]> (delete (py "DECENT_REGISTRY_TEST_READBACK_PEER") (delete (py "DECENT_REGISTRY_TEST_PEER")
    (delete (py "PYTEST_ADDOPTS") env))).

Definition _registry_profile (environ : environ) (env : gmap pystr pystr) (scratch : pystr) : P pyval :=
  let? provider := _pinned_provider_path environ in
  let jobs := registry_jobs scratch in
  let? _ := pmap (fun j => _run (job_command provider j.2 j.1) (registry_environment env provider) 2400) jobs in
  let reports := jobs.*2 in
  let? cases := _junit_cases reports in
  let? _ := pmap (fun j => let? own := _junit_cases [j.2] in _require_inventory LocalRegistry own [] (Some j.1.1)) jobs in
  stop_if negb (bool_decide (named skipped cases = [])) with py "Registry integration suite skipped a mandatory test";
  _suite local_registry_integration reports cases.

(** * The run *)

(** The parsed arguments. *)
Record arguments := MkArguments {
  arg_profile : profile;
  arg_android_jvm_only : bool;
  arg_receipt : pystr;
  arg_python : option pystr;
  arg_gradle : option pystr;
}.

Context (sys_executable : pystr).

(** [x or y] for an optional text. *)
Definition or_else (x : option pystr) (y : pystr) : pystr := match x with Some ((_ :: _) as s) => s | _ => y end.

Definition keep_variable (environ : environ) (env : gmap pystr pystr) (name : pystr) : gmap pystr pystr :=
  match environ !! name with Some v => <[name := v]> env | None => env end.

Definition toolchain_variables : list pystr := [py "ANDROID_HOME"; py "ANDROID_SDK_ROOT"; py "JAVA_HOME"].

(** The environment of the commands; the toolchain variables are set twice. *)
Definition command_environment (environ : environ) : gmap pystr pystr :=
  let env := delete (py "DECENT_REGISTRY_TEST_READBACK_PEER") (delete (py "DECENT_REGISTRY_TEST_PEER") (delete ARTIFACT_ENV environ)) in
  foldl (keep_variable environ) (foldl (keep_variable environ) env toolchain_variables) toolchain_variables.

Definition artifact_id (v : pyval) : pystr :=
  match v with PDict d => match str_get (py "id") d with Some (PStr s) => s | _ => [] end | _ => [] end.

(** The public vectors a profile lists. *)
Definition profile_artifacts (p : profile) (artifacts : list pyval) : list pyval :=
  match p with
  | Core => List.filter (fun v => bool_decide (artifact_id v = wallet_container_known_answer)) artifacts
  | AndroidJvm => List.filter (fun v => negb (bool_decide (artifact_id v = wallet_container_known_answer))) artifacts
  | Full => artifacts
  end.

Definition environment_object (python platform implementation : pystr) (android : bool) : pyval :=
  obj [("python", PStr python); ("platform", PStr platform); ("implementation", PStr implementation);
       ("android_test_artifacts", PBool android)]%string.

Definition receipt_object (p : profile) (created_at commit : pystr) (environment : pyval) (suites artifacts : list pyval) : pyval :=
  obj [("schema", PStr RECEIPT_SCHEMA); ("created_at", PStr created_at); ("profile", PStr (profile_name p)); ("verdict", PStr passed);
       ("commit", PStr commit); ("environment", environment); ("suites", PList suites); ("artifacts", PList artifacts)]%string.

(** The metadata and the receipt at the end of a run. *)
Definition assemble (p : profile) (suites artifacts : list pyval) : P pyval :=
  let? python := ask PythonVersion in
  let? platform := ask Platform in
  let? implementation := ask Implementation in
  let? now := ask Now in
  let? commit := _commit in
  lift (validate_receipt (receipt_object p (str_replace (py "+00:00") (py "Z") (isoformat now)) commit
    (environment_object python (take 160 platform) implementation (negb (is_core p))) suites artifacts)).

(** The suites and artifacts of a profile, in the order they are appended. *)
Definition gather (args : arguments) (p : profile) (environ : environ) (vectors : list pyval) (scratch : pystr) : P (list pyval * list pyval) :=
  let env := command_environment environ in
  let python := or_else (arg_python args) sys_executable in
  let? python_suites :=
    match p with
    | AndroidJvm => pret []
    | _ => let? (suite, _) := _python_profile python env (under scratch (py "python-security.xml")) in pret [suite]
    end in
  let? (android_suites, kotlin) :=
    match p with
    | Core => pret ([], [])
    | _ => let? (suite, kotlin) := _android_profile (or_else (arg_gradle args) (under ROOT (py "gradlew"))) env scratch in pret ([suite], kotlin)
    end in
  let? registry_suites :=
    match p with
    | Full =>
        let? suite := _registry_profile environ (<[ARTIFACT_ENV := under scratch (py "kotlin-artifacts")]> env) scratch in
        pret [suite]
    | _ => pret []
    end in
  pret (python_suites ++ android_suites ++ registry_suites, vectors ++ kotlin).

(** The body of [with tempfile.TemporaryDirectory(...)]. *)
Definition run_profile (args : arguments) (p : profile) (environ : environ) (vectors : list pyval) (scratch : pystr) : P pyval :=
  let? (suites, artifacts) := gather args p environ vectors scratch in
  assemble p suites artifacts.

(** [with tempfile.TemporaryDirectory(...) as directory: body]; the clean-up runs on every way
    out, and its own exception wins. *)
Definition with_scratch {A} (body : pystr -> P A) : P A :=
  let? directory := demand MakeTemp in
  let? r := pattempt (body directory) in
  let? _ := demand (RemoveTree directory) in
  lift r.

Definition selected_profile (args : arguments) : profile := if arg_android_jvm_only args then AndroidJvm else arg_profile args.

Definition run_acceptance (args : arguments) : P pyval :=
  let? environ := ask Environ in
  let? _ := guarded ImportPytest "locked pytest dependency is required" in
  let p := selected_profile args in
  let? artifacts := _test_only_artifacts (negb (is_core p)) in
  with_scratch (run_profile args p environ (profile_artifacts p artifacts)).
End Acceptance.

(** * The receipt's file *)

(** [\uXXXX] *)
Definition unicode_escape (c : Z) : pystr :=
  [92; 117; hex_digit (c / 4096); hex_digit (c / 256 mod 16); hex_digit (c / 16 mod 16); hex_digit (c mod 16)].

(** A character of a JSON string with [ensure_ascii]. *)
Definition ascii_char (c : Z) : pystr :=
  if c =? 34 then [92; 34] else if c =? 92 then [92; 92]
  else if c =? 8 then [92; 98] else if c =? 12 then [92; 102] else if c =? 10 then [92; 110]
  else if c =? 13 then [92; 114] else if c =? 9 then [92; 116]
  else if (32 <=? c) && (c <=? 126) then [c]
  else if c <? 65536 then unicode_escape c
  else unicode_escape (55296 + (c - 65536) / 1024) ++ unicode_escape (56320 + (c - 65536) mod 1024).

Definition ascii_quote (s : pystr) : pystr := 34 :: (s ≫= ascii_char) ++ [34].

Definition newline_indent (level : nat) : pystr := 10 :: replicate (2 * level) 32.

(** The parts between brackets, one to a line. *)
Fixpoint join_lines (sep : pystr) (parts : list pystr) : pystr :=
  match parts with
  | [] => []
  | [p] => p
  | p :: rest => p ++ [44] ++ sep ++ join_lines sep rest
  end.

Definition bracket (l r : Z) (level : nat) (parts : list pystr) : pystr :=
  match parts with
  | [] => [l; r]
  | _ => [l] ++ newline_indent (S level) ++ join_lines (newline_indent (S level)) parts ++ newline_indent level ++ [r]
  end.

(** [json.dumps(v, sort_keys=True, indent=2)] of values with [str] keys and without floats. *)
Fixpoint json_dumps_indent (level : nat) (v : pyval) : res pystr :=
  match v with
  | PNone => Ok (py "null")
  | PBool b => Ok (if b then py "true" else py "false")
  | PInt z => of_option ValueError (int_repr z)
  | PStr s => Ok (ascii_quote s)
  | PList l | PTuple l => let* parts := res_map id (json_dumps_indent (S level) <$> l) in Ok (bracket 91 93 level parts)
  | PDict d =>
      let* items := res_map id ((fun kv => let* t := json_dumps_indent (S level) kv.2 in
        match kv.1 with PStr k => Ok (k, t) | _ => Err TypeError end) <$> d) in
      Ok (bracket 123 125 level ((fun kt => ascii_quote kt.1 ++ [58; 32] ++ kt.2) <$> sort_by fst items))
  | PBytes _ | POther _ _ _ => Err TypeError
  end.

(** [path.open("xb")] *)
Definition open_exclusive (name : pystr) : IO inode :=
  at_name name (fun s =>
    let fd := fs_next s in
    raise_if bool_decide (is_Some (fs_dir s !! name)) with OSError;
    Ok (fd, MkFs (<[name := fd]> (fs_dir s)) (fs_dir s :: fs_pending s) (<[fd := []]> (fs_files s)) (fs_disk s) (S fd))).

Definition temporary_name (destination : pystr) : pystr := [46] ++ destination ++ py ".tmp".

(** The body of the [try] block. *)
Definition install_receipt (destination : pystr) (payload : bytes) : IO unit :=
  let% fd := open_exclusive (temporary_name destination) in
  let% r := attempt (let% _ := write fd payload in let% _ := flush fd in fsync fd) in
  let% _ := close fd in
  let% _ := of_res r in
  os_replace (temporary_name destination) destination.

(** The [try] statement with its clean-up: whether the receipt was installed. *)
Definition store_receipt (destination : pystr) (payload : bytes) : IO bool :=
  let% r := attempt (install_receipt destination payload) in
  match r with
  | Ok _ => ret true
  | Err e =>
      if is_OSError e then
        let% _ := swallow (unlink (temporary_name destination)) in ret false
      else fail e
  end.

Definition receipt_payload (receipt : pyval) : outcome bytes :=
  let^ valid := validate_receipt receipt in
  match json_dumps_indent 0 valid with
  | Ok text => Valid (byte_of_Z <$> (text ++ [10]))
  | Err e => Raise e
  end.

Section Main.
Context (o : oracle) (ROOT sys_executable : pystr).

(** The receipt's directory and its name in it. *)
Definition receipt_directory (path : pystr) : pystr := if contains [47] path then before_last 47 path else py ".".

Definition write_receipt (receipt : pyval) (destination : pystr) : P unit :=
  let? payload := lift (receipt_payload receipt) in
  let? _ := demand o (Mkdir (receipt_directory destination)) in
  let? installed := io (store_receipt (path_name destination) payload) in
  stop_if negb installed with py "receipt could not be written safely";
  pret tt.

(** [_hash_file] of the receipt. *)
Definition hash_receipt (path : pystr) : P pystr :=
  let? r := pattempt (io (read_bytes (path_name path))) in
  match r with
  | Valid data => pret (hexdigest (sha256 data))
  | Raise e => lift (if is_OSError e then Blocked (py "required acceptance artifact is unreadable") else Raise e)
  | Blocked t => lift (Blocked t)
  end.

Definition receipt_suites (receipt : pyval) : Z :=
  match receipt with PDict d => match str_get (py "suites") d with Some (PList l) => Z.of_nat (length l) | _ => 0 end | _ => 0 end.

(** The profile a receipt names, as it is printed. *)
Definition receipt_profile (receipt : pyval) : pystr :=
  match receipt with PDict d => match str_get (py "profile") d with Some (PStr s) => s | _ => [] end | _ => [] end.

Definition main (args : arguments) : P Z :=
  let? r := pattempt (
    let? receipt := run_acceptance o ROOT sys_executable args in
    let? _ := write_receipt receipt (arg_receipt args) in
    pret receipt) in
  match r with
  | Valid receipt =>
      let? digest := hash_receipt (arg_receipt args) in
      let? _ := demand o (Print false (py "Security acceptance passed: profile=" ++ receipt_profile receipt ++ py " suites=" ++
        show (receipt_suites receipt) ++ py " receipt_sha256=" ++ digest)) in
      pret 0
  | Blocked message =>
      let? _ := demand o (Print true (py "Security acceptance blocked: " ++ message)) in
      pret 1
  | Raise e => lift (Raise e)
  end.
End Main.
