(* ===== verification/AcceptanceRuns.v ===== *)
(** What an acceptance run shows: traces of the calls that returned, the reports behind the
    suites, and the receipts they give; then the three profiles: which commands ran, what the
    reports and the inventory they were compared with contain, and the suites that result. *)

From stdpp Require Import gmap.
From S2P Require Import Prelude PyVal Sha256 Json Storage Regex DateTime Receipt ReceiptFacts NativeReport Acceptance.

Open Scope Z_scope.

(** * Runs that return *)

(** Whatever [m] returns, it leaves the receipt's directory alone and extends the trace by
    events that satisfy [Q]. *)
Definition ends {A} (m : P A) (Q : A -> list event -> Prop) : Prop :=
  forall s a s', m s = (Valid a, s') -> exists evs, s' = MkProc (p_trace s ++ evs) (p_world s) /\ Q a evs.

Lemma ends_weaken {A} (m : P A) (Q R : A -> list event -> Prop) : ends m Q -> (forall a evs, Q a evs -> R a evs) -> ends m R.
Proof. intros H HQ s a s' E. destruct (H _ _ _ E) as (evs & -> & Hq). eauto. Qed.

Lemma ends_pret {A} (a : A) (Q : A -> list event -> Prop) : Q a [] -> ends (pret a) Q.
Proof. intros HQ s a' s' [= <- <-]. exists []. rewrite app_nil_r. by destruct s. Qed.

Lemma ends_lift {A} (m : outcome A) (Q : A -> list event -> Prop) : (forall a, m = Valid a -> Q a []) -> ends (lift m) Q.
Proof. intros HQ s a' s' [= -> <-]. exists []. rewrite app_nil_r. destruct s. auto. Qed.

Lemma ends_bind {A B} (m : P A) (k : A -> P B) (Q1 : A -> list event -> Prop) (Q : B -> list event -> Prop) :
  ends m Q1 -> (forall a e1, Q1 a e1 -> ends (k a) (fun b e2 => Q b (e1 ++ e2))) -> ends (pbind m k) Q.
Proof.
  intros Hm Hk s b s' E. unfold pbind in E. destruct (m s) as [[a|t|e] s1] eqn:E1; try discriminate.
  destruct (Hm _ _ _ E1) as (e1 & -> & H1). destruct (Hk _ _ H1 _ _ _ E) as (e2 & -> & H2).
  exists (e1 ++ e2). simpl. by rewrite app_assoc.
Qed.

Lemma ends_stop {A} (c : bool) t (m : P A) (Q : A -> list event -> Prop) :
  (c = false -> ends m Q) -> ends (if c then lift (Blocked t) else m) Q.
Proof. destruct c; intros H; [by intros s a s' [=]|auto]. Qed.

Lemma ends_if {A} (c : bool) (m k : P A) (Q : A -> list event -> Prop) :
  (c = true -> ends m Q) -> (c = false -> ends k Q) -> ends (if c then m else k) Q.
Proof. by destruct c; auto. Qed.

Section Ends.
Context (o : oracle).

Lemma ends_ask {R} (q : request R) : ends (ask o q) (fun a evs => evs = [Event q a]).
Proof. intros s a s' [= <- <-]. eauto. Qed.

Lemma ends_demand {A} (q : request (res A)) : ends (demand o q) (fun a evs => evs = [Event q (Ok a)]).
Proof.
  apply (ends_bind _ _ _ _ (ends_ask q)). intros r e1 ->. apply ends_lift. intros a E. destruct r; [|done]. by injection E as <-.
Qed.

Lemma ends_guarded {A} (q : request (answer A)) t : ends (guarded o q t) (fun a evs => evs = [Event q (Got a)]).
Proof.
  apply (ends_bind _ _ _ _ (ends_ask q)). intros r e1 ->. apply ends_lift. intros a E. destruct r; [|done..]. by injection E as <-.
Qed.

(** Each element contributes its own events. *)
Lemma ends_pmap {A B} (f : A -> P B) (Q : A -> B -> list event -> Prop) l :
  (forall x, x ∈ l -> ends (f x) (Q x)) ->
  ends (pmap f l) (fun r evs => exists parts, evs = concat parts /\ Forall2 (fun xy e => Q xy.1 xy.2 e) (zip l r) parts /\ length r = length l).
Proof.
  induction l as [|x l IH]; intros H; cbn [pmap].
  - apply ends_pret. exists []. split_and!; [done|constructor|done].
  - eapply ends_bind; [apply H; left|]. intros y e1 Hy. eapply ends_bind; [apply IH; intros; apply H; by right|].
    intros r e2 (parts & -> & Hp & Hl). apply ends_pret. exists (e1 :: parts). simpl. rewrite app_nil_r.
    split_and!; [done|by constructor|by rewrite Hl].
Qed.

(** * Reports *)

(** Several reports: their cases and counts together. *)
Inductive reports : list element -> list case -> SuiteResult -> Prop :=
  | ReportsNil : reports [] [] no_counts
  | ReportsCons root rest cases n cases' n' :
      report_node root cases n -> reports rest cases' n' -> reports (root :: rest) (cases ++ cases') (add_counts n n').

Lemma reports_counts roots cases n : reports roots cases n -> counts_of cases n.
Proof.
  induction 1 as [|root rest cases n cases' n' H _ IH]; [by unfold counts_of, with_status|].
  apply counts_of_app; [by eapply report_node_counts|done].
Qed.

Definition parsed (paths : list pystr) (roots : list element) : list event :=
  zip_with (fun p r => Event (ParseReport p) (Got r)) paths roots.

Lemma visit_reports_ends paths totals before :
  NoDup (names before) ->
  ends (visit_reports o paths totals before) (fun r evs => exists roots cases n,
    length roots = length paths /\ evs = parsed paths roots /\ reports roots cases n /\
    r = (add_counts totals n, before ++ cases) /\ NoDup (names r.2)).
Proof.
  revert totals before. induction paths as [|path paths IH]; intros totals before Hnd; cbn [visit_reports].
  - apply ends_pret. exists [], [], no_counts. rewrite app_nil_r, (proj1 (add_no_counts _)). split_and!; try done. constructor.
  - eapply ends_bind; [apply ends_guarded|]. intros root e1 ->.
    eapply (ends_bind _ _ (fun r evs => evs = [] /\ visit root before = Valid r)); [by apply ends_lift|].
    intros [n mid] e2 [-> (cases & Hn & -> & Hm)%visit_valid]; [|done].
    eapply ends_weaken; [by apply IH|]. intros r evs (roots & cases' & n' & Hl & -> & Hr & -> & Ha).
    exists (root :: roots), (cases ++ cases'), (add_counts n n'). simpl. rewrite Hl, app_assoc, add_counts_assoc.
    split_and!; try done. by constructor.
Qed.

Lemma native_report_ends paths :
  ends (_native_report o paths) (fun r evs => exists roots,
    length roots = length paths /\ evs = parsed paths roots /\ reports roots r.2 r.1 /\ NoDup (names r.2) /\ r.2 <> [] /\ paths <> []).
Proof.
  unfold _native_report. apply ends_stop. intros Hp. apply bool_decide_eq_false in Hp.
  eapply ends_bind; [apply visit_reports_ends, NoDup_nil_2|]. intros [n' cs] e1 (roots & cases & n & Hl & -> & Hr & [= -> ->] & Hnd).
  apply ends_stop. intros Hc. apply bool_decide_eq_false in Hc. apply ends_pret. rewrite app_nil_r, (proj2 (add_no_counts _)). eauto 10.
Qed.

Lemma junit_cases_ends paths :
  ends (_junit_cases o paths) (fun cases evs => exists roots n,
    length roots = length paths /\ evs = parsed paths roots /\ reports roots cases n /\ NoDup (names cases) /\ cases <> []).
Proof.
  eapply ends_bind; [apply native_report_ends|]. intros [n cases] e1 (roots & Hl & -> & Hr & Hnd & Hc & _).
  apply ends_pret. rewrite app_nil_r. eauto 10.
Qed.

(** * Reports that do not change while they are read *)

Section Stable.
Context (files : pystr -> element).
Context (Hfiles : forall tr path, o _ tr (ParseReport path) = Got (files path)).

Lemma visit_reports_stable paths totals before s t after :
  NoDup (names before) ->
  (exists s', visit_reports o paths totals before s = (Valid (t, after), s')) <->
  exists cases n, reports (files <$> paths) cases n /\ t = add_counts totals n /\ after = before ++ cases /\ NoDup (names after).
Proof.
  revert totals before s. induction paths as [|path paths IH]; intros totals before s Hnd; cbn [visit_reports].
  - split.
    + intros (s' & [= <- <- _]). exists [], no_counts. rewrite app_nil_r, (proj1 (add_no_counts _)). split_and!; try done. constructor.
    + intros (cases & n & Hr & -> & -> & _). inversion Hr; subst. rewrite app_nil_r, (proj1 (add_no_counts _)). by eexists.
  - unfold guarded, ask, pbind, lift. simpl. rewrite Hfiles.
    destruct (visit (files path) before) as [[n1 mid]|m|e] eqn:Ev.
    + apply visit_valid in Ev as (c1 & Hn & -> & Hm); [|done]. rewrite IH by done. split.
      * intros (c2 & n2 & Hr & -> & -> & Ha). exists (c1 ++ c2), (add_counts n1 n2).
        rewrite app_assoc, add_counts_assoc. split_and!; try done. by constructor.
      * intros (cases & n & Hr & -> & -> & Ha). inversion Hr as [|? ? c1' n1' c2 n2 Hn' Hr']; subst.
        assert (visit (files path) before = Valid (n1', before ++ c1')) as Ev'.
        { apply visit_valid; [done|]. exists c1'. split_and!; try done.
          rewrite app_assoc, (fmap_app case_name (before ++ c1')) in Ha. by apply NoDup_app in Ha as [? _]. }
        rewrite (proj2 (visit_valid (files path) before n1 (before ++ c1) Hnd)) in Ev' by eauto.
        injection Ev' as <- <-%app_inv_head. exists c2, n2. rewrite <-app_assoc, add_counts_assoc. done.
    + split; [by intros (s' & [=])|]. intros (cases & n & Hr & -> & -> & Ha). inversion Hr as [|? ? c1 n1 c2 n2 Hn Hr']; subst.
      exfalso. rewrite (proj2 (visit_valid (files path) before n1 (before ++ c1) Hnd)) in Ev; [done|]. exists c1. split_and!; try done.
      rewrite app_assoc, (fmap_app case_name (before ++ c1)) in Ha. by apply NoDup_app in Ha as [? _].
    + split; [by intros (s' & [=])|]. intros (cases & n & Hr & -> & -> & Ha). inversion Hr as [|? ? c1 n1 c2 n2 Hn Hr']; subst.
      exfalso. rewrite (proj2 (visit_valid (files path) before n1 (before ++ c1) Hnd)) in Ev; [done|]. exists c1. split_and!; try done.
      rewrite app_assoc, (fmap_app case_name (before ++ c1)) in Ha. by apply NoDup_app in Ha as [? _].
Qed.

(** The reports at [paths] are well formed together, with these cases and counts. *)
Definition well_reported (paths : list pystr) (n : SuiteResult) (cases : list case) : Prop :=
  paths <> [] /\ cases <> [] /\ NoDup (names cases) /\ reports (files <$> paths) cases n.

Lemma native_report_stable paths s n cases :
  (exists s', _native_report o paths s = (Valid (n, cases), s')) <-> well_reported paths n cases.
Proof.
  unfold _native_report, well_reported. destruct (decide (paths = [])) as [->|Hp].
  { rewrite bool_decide_eq_true_2 by done. split; [by intros (s' & [=])|by intros [? _]]. }
  rewrite bool_decide_eq_false_2 by done. unfold pbind at 1.
  pose proof (fun t after => visit_reports_stable paths no_counts [] s t after NoDup_nil_2) as V.
  destruct (visit_reports o paths no_counts [] s) as [[[t after]|m|e] s1] eqn:E.
  - destruct (proj1 (V t after) (ex_intro _ s1 eq_refl)) as (c & n' & Hr & -> & -> & Ha). simpl in *.
    rewrite (proj2 (add_no_counts _)) in *. destruct (decide (c = [])) as [->|Hc].
    + rewrite bool_decide_eq_true_2 by done. split; [by intros (s' & [=])|]. intros (_ & Hc & Hnd & Hr').
      destruct (proj2 (V n cases)) as [s' [= _ <- _]]; [|done]. exists cases, n. rewrite (proj2 (add_no_counts _)). done.
    + rewrite bool_decide_eq_false_2 by done. split.
      * intros (s' & [= <- <- _]). done.
      * intros (_ & _ & Hnd & Hr'). destruct (proj2 (V n cases)) as [s' [= -> -> _]]; [|by eexists].
        exists cases, n. rewrite (proj2 (add_no_counts _)). done.
  - split; [by intros (s' & [=])|]. intros (_ & _ & Hnd & Hr'). destruct (proj2 (V n cases)) as [s' [=]].
    exists cases, n. rewrite (proj2 (add_no_counts _)). done.
  - split; [by intros (s' & [=])|]. intros (_ & _ & Hnd & Hr'). destruct (proj2 (V n cases)) as [s' [=]].
    exists cases, n. rewrite (proj2 (add_no_counts _)). done.
Qed.

Lemma with_status_zero st cases : with_status st cases = 0%nat <-> Forall (fun c => case_status c <> st) cases.
Proof.
  unfold with_status. induction cases as [|c cases IH]; simpl; [split; [constructor|done]|].
  rewrite Forall_cons. case_bool_decide; simpl; naive_solver.
Qed.

Lemma junit_result_stable paths s n :
  (exists s', junit_result o paths s = (Valid n, s')) <->
  exists cases, well_reported paths n cases /\ Forall (fun c => case_status c = passed) cases.
Proof.
  unfold junit_result, pbind. pose proof (fun n c => native_report_stable paths s n c) as V.
  destruct statuses_distinct as (N1 & N2 & N3).
  destruct (_native_report o paths s) as [[[n' cases']|m|e] s1] eqn:E.
  - destruct (proj1 (V n' cases') (ex_intro _ s1 eq_refl)) as (Hp & Hc & Hnd & Hr).
    destruct (reports_counts _ _ _ Hr) as (_ & F0 & E0 & Ff & Fs & Hst).
    assert ((r_failures n' = 0 /\ r_errors n' = 0 /\ r_skipped n' = 0) <-> Forall (fun c => case_status c = passed) cases') as Hz.
    { transitivity (with_status failed cases' = 0%nat /\ with_status skipped cases' = 0%nat); [lia|].
      rewrite !with_status_zero, !Forall_forall. rewrite Forall_forall in Hst. split.
      - intros [H1 H2] c Hin. destruct (Hst c Hin) as [|[|]]; [done| |]; [by apply H1 in Hin|by apply H2 in Hin].
      - intros H. split; intros c Hin; rewrite (H c Hin); congruence. }
    destruct (negb _ || negb _ || negb _) eqn:G.
    + split; [by intros (s' & [=])|]. intros (cases & Hw & Hall). destruct (proj2 (V n cases) Hw) as [s' [= -> -> _]].
      destruct (proj2 Hz Hall) as (E1 & E2 & E3). rewrite E1, E2, E3 in G. done.
    + bool_hyps. split.
      * intros (s' & [= <- _]). exists cases'. split; [done|]. apply Hz. lia.
      * intros (cases & Hw & Hall). destruct (proj2 (V n cases) Hw) as [s' [= -> -> _]]. by eexists.
  - split; [by intros (s' & [=])|]. intros (cases & Hw & _). by destruct (proj2 (V n cases) Hw) as [s' [=]].
  - split; [by intros (s' & [=])|]. intros (cases & Hw & _). by destruct (proj2 (V n cases) Hw) as [s' [=]].
Qed.

End Stable.
End Ends.

(** * Objects that are built *)

Lemma obj_keys items : str_keys ((fun kv : string * pyval => (PStr (py kv.1), kv.2)) <$> items) = py <$> items.*1.
Proof. unfold str_keys. induction items as [|[k v] items IH]; [done|]. rewrite !fmap_cons. simpl. by rewrite <-IH. Qed.

Lemma obj_exact items keys : items.*1 = keys -> exact_object (obj items) keys ((fun kv => (PStr (py kv.1), kv.2)) <$> items).
Proof.
  intros <-. split_and!; [done| |intros k; by rewrite obj_keys].
  rewrite Forall_fmap. apply Forall_forall. intros x _. simpl. eauto.
Qed.

Lemma suite_object_ok id counts ts :
  NoDup ts -> 1 <= r_tests counts -> r_failures counts = 0 -> r_errors counts = 0 -> r_skipped counts <= r_tests counts ->
  suite_rule id ts (r_skipped counts) -> suite_ok (suite_object id counts ts) id.
Proof.
  intros Hnd Ht Hf He Hs Hr. eexists _, ts, (r_tests counts), (r_skipped counts).
  split; [by apply obj_exact|]. rewrite <-Hf at 1. rewrite <-He. split_and!; try done.
Qed.

Lemma hex_digits_match b : fullmatch (hexadecimal (2 * length b)) (hexdigest b) = true.
Proof.
  apply rep_class. assert (length (hexdigest b) = (2 * length b)%nat) as ->.
  { unfold hexdigest. induction b as [|x b IH]; [done|]. cbn [mbind list_bind] in *. rewrite length_app, IH. simpl. lia. }
  split_and!; [lia|simpl; lia|]. unfold hexdigest. apply Forall_bind, Forall_true. intros x.
  pose proof (byteZ_range x).
  assert (forall n, 0 <= n < 16 -> in_class [(48, 57); (97, 102)] (hex_digit n) = true) as Hd.
  { intros n Hn. unfold in_class, hex_digit. simpl. destruct (Z.ltb_spec n 10); lia. }
  repeat constructor; apply Hd; [|apply Z.mod_pos_bound; lia].
  split; [apply Z.div_pos; lia|apply Z.div_lt_upper_bound; lia].
Qed.

Lemma digest_match data : lang (hexadecimal 64) (hexdigest (sha256 data)).
Proof. apply fullmatch_spec. rewrite <-(hex_digits_match (sha256 data)). by rewrite sha256_length. Qed.

Lemma artifact_object_ok id data : lang identifier id -> artifact_ok (artifact_object id (hexdigest (sha256 data))) id.
Proof.
  intros Hid. eexists _, (hexdigest (sha256 data)). split; [by apply obj_exact|]. split_and!; try done. apply digest_match.
Qed.

(** * The inventory *)

Definition inventory_text (text : pystr) (k : suite_key) (file : option string) (ids : list pystr) : Prop :=
  exists j, json_loads text = Ok j /\ select_inventory (py_of_json j) k file = Valid ids.

Lemma check_identities_ok v ids : check_identities v = Valid ids -> NoDup ids /\ ids <> [].
Proof.
  unfold check_identities. destruct v as [| | | | |[|v l]| | |]; try done. lazy beta iota.
  destruct (identities (v :: l)) as [ids'|] eqn:E; [|done]. rewrite block_valid. intros [Hd [= <-]].
  unfold distinct in Hd. apply negb_false_iff, bool_decide_eq_true in Hd. split; [done|]. intros ->. simpl in E.
  destruct (valid_identity v), (identities l); done.
Qed.

Lemma inventory_ok text k file ids : inventory_text text k file ids -> NoDup ids /\ ids <> [].
Proof.
  intros (j & _ & H). unfold select_inventory in H. rewrite obind_valid in H. destruct H as (d & _ & H).
  rewrite obind_valid in H. destruct H as (v & _ & H). rewrite block_valid, obind_valid in H.
  destruct H as (_ & v' & _ & H). rewrite obind_valid in H. destruct H as (v'' & _ & H). by eapply check_identities_ok.
Qed.

Section Runs.
Context (o : oracle) (ROOT : pystr).

Lemma read_json_ends path t :
  ends (read_json o path t) (fun v evs => exists text j,
    evs = [Event (ReadText path) (Got text)] /\ json_loads text = Ok j /\ v = py_of_json j).
Proof.
  eapply ends_bind; [apply ends_guarded|]. intros text e1 ->. apply ends_lift. intros a E.
  destruct (json_loads text) as [j|e] eqn:Ej; [|by destruct e]. injection E as <-. eauto.
Qed.

(** The cases are those of the inventory and the optional ones. *)
Definition inventoried (cases : list case) (ids optional : list pystr) : Prop :=
  (forall x, x ∈ ids -> x ∉ optional) /\ forall x, x ∈ names cases <-> x ∈ ids \/ x ∈ optional.

Lemma expected_inventory_ends k file :
  ends (_expected_inventory o ROOT k file) (fun ids evs => exists text,
    evs = [Event (ReadText (INVENTORY_PATH ROOT)) (Got text)] /\ inventory_text text k file ids).
Proof.
  eapply ends_bind; [apply read_json_ends|]. intros v e1 (text & j & -> & Hj & ->). apply ends_lift.
  intros ids E. exists text. split; [done|]. by exists j.
Qed.

Lemma require_inventory_ends k cases optional file :
  ends (_require_inventory o ROOT k cases optional file) (fun _ evs => exists text ids,
    evs = [Event (ReadText (INVENTORY_PATH ROOT)) (Got text)] /\ inventory_text text k file ids /\ inventoried cases ids optional).
Proof.
  eapply ends_bind; [apply expected_inventory_ends|]. intros ids e1 (text & -> & Hi). apply ends_stop. intros Hg.
  apply orb_false_iff in Hg as [H1 H2]. apply negb_false_iff in H2. rewrite same_set_true in H2. rewrite existsb_false in H1.
  apply ends_pret. exists text, ids. split_and!; [done|done|split].
  - intros x Hx. apply H1 in Hx. apply not_true_iff_false in Hx. by rewrite mem_true in Hx.
  - intros x. by rewrite H2, elem_of_app.
Qed.

Lemma run_ends command env timeout :
  ends (_run o ROOT command env timeout) (fun _ evs => exists out,
    evs = [Event (Run (actual_command ROOT command) ROOT (Some env) timeout) (Got (0, out))]).
Proof.
  unfold _run. eapply ends_bind; [apply ends_guarded|]. intros [code out] e1 ->. apply ends_if.
  - intros _. eapply ends_bind; [apply ends_demand|]. intros u e2 _. by apply ends_lift.
  - intros Hc. apply negb_false_iff, Z.eqb_eq in Hc as ->. apply ends_pret. by exists out.
Qed.

Lemma hash_file_ends path :
  ends (_hash_file o path) (fun digest evs => exists data,
    evs = [Event (ReadBytes path) (Got data)] /\ digest = hexdigest (sha256 data)).
Proof. eapply ends_bind; [apply ends_guarded|]. intros data e1 ->. apply ends_pret. by exists data. Qed.

(** * Mandatory cases *)

Definition mandatory_passed (ids : list pystr) (cases : list case) : Prop :=
  forall id, id ∈ ids -> exists reason, (id, passed, reason) ∈ cases.

Lemma named_elem st cases x : x ∈ named st cases <-> exists reason, (x, st, reason) ∈ cases.
Proof.
  unfold named. rewrite list_elem_of_fmap. split.
  - intros ([[n s] r] & -> & [Hc Hs]%filter_elem). apply bool_decide_eq_true in Hs. unfold case_status in Hs. simpl in Hs. subst s. eauto.
  - intros (r & H). exists (x, st, r). split; [done|]. apply filter_elem. split; [done|]. by apply bool_decide_eq_true.
Qed.

(** With no failure and every skip optional, the mandatory cases that passed are the inventory. *)
Lemma mandatory_all cases ids optional n roots :
  reports roots cases n -> NoDup (names cases) -> NoDup ids -> inventoried cases ids optional ->
  named failed cases = [] -> incl_set (named skipped cases) optional = true ->
  names (mandatory_passing optional cases) ≡ₚ ids /\ mandatory_passed ids cases.
Proof.
  intros Hr Hnd Hids [Hdis Hnames] Hf Hs. rewrite incl_set_true in Hs.
  destruct (reports_counts _ _ _ Hr) as (_ & _ & _ & _ & _ & Hst). rewrite Forall_forall in Hst.
  assert (mandatory_passed ids cases) as Hpass.
  { intros id Hid. assert (id ∈ names cases) as Hn by (apply Hnames; auto).
    apply list_elem_of_fmap in Hn as ([[m st] reason] & -> & Hc). exists reason.
    destruct (Hst _ Hc) as [E|[E|E]]; unfold case_status in E; simpl in E; subst st; [done| |].
    - assert (m ∈ named failed cases) as Hm by (apply named_elem; eauto). rewrite Hf in Hm. by apply elem_of_nil in Hm.
    - exfalso. apply (Hdis m Hid). apply Hs, named_elem. eauto. }
  split; [|done]. unfold mandatory_passing. apply NoDup_Permutation; [|done|].
  - clear -Hnd. induction cases as [|c cases IH]; simpl; [constructor|]. rewrite fmap_cons, NoDup_cons in Hnd. destruct Hnd as [H1 H2].
    destruct (_ && _); [|by apply IH]. rewrite fmap_cons, NoDup_cons. split; [|by apply IH].
    intros H. apply H1. apply list_elem_of_fmap in H as (c' & -> & [H _]%filter_elem). by apply list_elem_of_fmap_2.
  - intros x. rewrite list_elem_of_fmap. split.
    + intros (c & -> & [Hc Hg]%filter_elem). bool_hyps.
      assert (case_name c ∈ names cases) as Hn by (by apply list_elem_of_fmap_2). apply Hnames in Hn as [|Hn]; [done|].
      exfalso. match goal with H : mem _ _ = false |- _ => apply not_true_iff_false in H; by rewrite mem_true in H end.
    + intros Hx. destruct (Hpass x Hx) as [r Hc]. exists (x, passed, r). split; [done|]. apply filter_elem. split; [done|].
      apply andb_true_iff. split; [by apply bool_decide_eq_true|]. apply negb_true_iff, not_true_iff_false. rewrite mem_true. by apply Hdis.
Qed.

(** * The Python profile *)

Definition python_status (cases : list case) (name : pystr) : pystr := if mem name (named skipped cases) then skipped else passed.

(** The command succeeded, and its report has no failed case, exactly the reviewed cases and
    the optional ones, and skips only among the latter; the suite counts the former. *)
Definition python_evidence (python : pystr) (env : gmap pystr pystr) (report : pystr) (evs : list event) (suite : pyval) : Prop :=
  exists files out root cases n text ids,
  evs = [Event (Glob (under ROOT (py "tests")) (py "test_*.py")) (Ok files);
         Event (Run (actual_command ROOT (python_command python report files)) ROOT (Some (delete (py "PYTEST_ADDOPTS") env)) 1800) (Got (0, out));
         Event (ParseReport report) (Got root);
         Event (ReadText (INVENTORY_PATH ROOT)) (Got text)] /\
  report_node root cases n /\ NoDup (names cases) /\ inventory_text text PythonMatrix None ids /\
  inventoried cases ids PYTHON_OPTIONAL_CASES /\ mandatory_passed ids cases /\
  (forall c, c ∈ cases -> case_status c = passed \/ case_status c = skipped /\ case_name c ∈ PYTHON_OPTIONAL_CASES) /\
  suite = suite_object python_security_matrix (MkCounts (Z.of_nat (length ids)) 0 0 0) (python_transitions cases).

Lemma no_failure cases n roots optional :
  reports roots cases n -> named failed cases = [] -> incl_set (named skipped cases) optional = true ->
  forall c, c ∈ cases -> case_status c = passed \/ case_status c = skipped /\ case_name c ∈ optional.
Proof.
  intros Hr Hf Hs c Hc. rewrite incl_set_true in Hs. destruct (reports_counts _ _ _ Hr) as (_ & _ & _ & _ & _ & Hst).
  rewrite Forall_forall in Hst. destruct c as [[m st] reason]. destruct (Hst _ Hc) as [E|[E|E]]; [auto| |]; unfold case_status in E; simpl in E; subst st.
  - assert (m ∈ named failed cases) as Hm by (apply named_elem; eauto). rewrite Hf in Hm. by apply elem_of_nil in Hm.
  - right. split; [done|]. apply Hs, named_elem. eauto.
Qed.

Lemma check_python_cases_valid cases : check_python_cases cases = Valid tt ->
  incl_set (named skipped cases) PYTHON_OPTIONAL_CASES = true /\ named failed cases = [].
Proof.
  unfold check_python_cases. rewrite !block_valid, !negb_false_iff. intros (H1 & _ & H3 & _). split; [done|]. by apply bool_decide_eq_true in H3.
Qed.

Lemma report_one root cases n : reports [root] cases n -> report_node root cases n.
Proof.
  inversion 1 as [|? ? c1 n1 c2 n2 Hn Hr]; subst. inversion Hr; subst. by rewrite app_nil_r, (proj1 (add_no_counts _)).
Qed.

Lemma python_profile_ends python env report :
  ends (_python_profile o ROOT python env report) (fun r evs => python_evidence python env report evs r.1).
Proof.
  unfold _python_profile. eapply ends_bind; [apply ends_demand|]. intros files e1 ->.
  eapply ends_bind; [apply run_ends|]. intros _ e2 (out & ->).
  eapply ends_bind; [apply junit_cases_ends|]. intros cases e3 (roots & n & Hl & -> & Hr & Hnd & Hne).
  destruct roots as [|root [|]]; try done.
  eapply (ends_bind _ _ (fun _ evs => evs = [] /\ check_python_cases cases = Valid tt)); [by apply ends_lift; intros []|].
  intros [] e4 [-> [Hs Hf]%check_python_cases_valid].
  eapply ends_bind; [apply require_inventory_ends|]. intros [] e5 (text & ids & -> & Hi & Hinv). apply ends_stop. intros _. apply ends_pret.
  destruct (inventory_ok _ _ _ _ Hi) as [Hids _].
  destruct (mandatory_all _ _ _ _ _ Hr Hnd Hids Hinv Hf Hs) as [Hperm Hpass].
  exists files, out, root, cases, n, text, ids. split_and!; try done.
  - by apply report_one.
  - by eapply no_failure.
  - cbn [fst]. rewrite Hf. apply Permutation_length in Hperm. rewrite length_fmap in Hperm. by rewrite Hperm.
Qed.

Lemma python_transitions_rule cases : python_rule (python_transitions cases) 0 /\ NoDup (python_transitions cases).
Proof.
  assert (forall name, python_status cases name = passed \/ python_status cases name = skipped) as Hst.
  { intros name. unfold python_status. case_match; auto. }
  split.
  - split; [done|]. exists (python_status cases). split; [done|]. intros t. unfold python_transitions.
    rewrite elem_of_cons, list_elem_of_fmap. apply or_iff_compat_l.
    split; intros (name & H1 & H2); exists name; [rewrite <-(sort_by_perm (fun x => x)) in H2|rewrite <-(sort_by_perm (fun x => x))]; done.
  - unfold python_transitions. apply NoDup_cons. split.
    + rewrite list_elem_of_fmap. intros (name & E & Hn). rewrite <-(sort_by_perm (fun x => x)) in Hn.
      pose proof (match_known_case name (python_status cases name) Hn (Hst name)) as M. unfold python_status in M.
      by rewrite <-E, match_mandatory in M.
    + rewrite <-(sort_by_perm (fun x => x) PYTHON_OPTIONAL_CASES). apply NoDup_fmap_2_strong.
      * intros x y Hx Hy E. pose proof (match_known_case x (python_status cases x) Hx (Hst x)) as Mx.
        pose proof (match_known_case y (python_status cases y) Hy (Hst y)) as My. unfold python_status in *.
        rewrite E, My in Mx. assert (case_digest y = case_digest x) as Ed by congruence. symmetry. by apply digests_inj.
      * apply (NoDup_fmap_1 case_digest), python_digests_nodup.
Qed.

Lemma python_evidence_ok python env report evs suite :
  python_evidence python env report evs suite -> suite_ok suite python_security_matrix.
Proof.
  intros (files & out & root & cases & n & text & ids & _ & _ & _ & Hi & _ & _ & _ & ->).
  destruct (inventory_ok _ _ _ _ Hi) as [_ Hne]. destruct (python_transitions_rule cases) as [Hr Hnd].
  assert (1 <= Z.of_nat (length ids)) by (by destruct ids; [|simpl; lia]).
  apply suite_object_ok; cbn [r_tests r_failures r_errors r_skipped]; [done|lia|done|done|lia|].
  unfold suite_rule. by rewrite bool_decide_eq_true_2.
Qed.

(** * The Android profile *)

(** The artifact of one producer: its file was there, with the contents that were hashed, and
    the test that writes it passed. *)
Definition kotlin_evidence (artifacts_dir : pystr) (cases : list case) (p : pystr * pystr) (artifact : pyval) (evs : list event) : Prop :=
  exists size data, let path := under artifacts_dir p.1 in
  evs = [Event (IsFile path) (Ok true); Event (FileSize path) (Ok size); Event (ReadBytes path) (Got data)] /\ size <> 0 /\
  (exists c, c ∈ cases /\ case_status c = passed /\ contains (py "PortableLatchTest") (case_name c) = true /\ contains p.2 (case_name c) = true) /\
  artifact = artifact_object (str_replace (py "_") (py "-") (path_stem p.1)) (hexdigest (sha256 data)).

Lemma produce_ends artifacts_dir cases p :
  ends (produce o artifacts_dir cases p) (fun artifact evs => kotlin_evidence artifacts_dir cases p artifact evs).
Proof.
  unfold produce. eapply ends_bind; [apply ends_demand|]. intros present e1 ->.
  eapply (ends_bind _ _ (fun size evs => present = true -> evs = [Event (FileSize (under artifacts_dir p.1)) (Ok size)])).
  { destruct present; [eapply ends_weaken; [apply ends_demand|]; auto|by apply ends_pret]. }
  intros size e2 Hsize. apply ends_stop. intros Hg. apply orb_false_iff in Hg as [Hp Hz]. apply negb_false_iff in Hp. subst present.
  specialize (Hsize eq_refl). subst e2. apply ends_stop. intros Hc. apply negb_false_iff, existsb_exists in Hc as (c & Hc & H).
  eapply ends_bind; [apply hash_file_ends|]. intros digest e3 (data & -> & ->). apply ends_pret.
  exists size, data. bool_hyps. split_and!; try done. exists c. rewrite list_elem_of_In. done.
Qed.

(** Results of an earlier run were removed before the command ran; its reports have no failed
    case, exactly the reviewed cases and the live-peer case, and no other skip. *)
Definition android_evidence (gradle : pystr) (env : gmap pystr pystr) (scratch : pystr) (evs : list event) (suite : pyval) (artifacts : list pyval) : Prop :=
  exists before unlinked out reports_found roots cases n text ids status parts,
  let artifacts_dir := under scratch (py "kotlin-artifacts") in
  let paths := under (ANDROID_RESULTS ROOT) <$> sort_by (fun x => x) reports_found in
  evs = [Event (IsFile (under ROOT (py "gradlew"))) (Ok true); Event (Mkdir artifacts_dir) (Ok tt); Event (Mkdir (ANDROID_RESULTS ROOT)) (Ok tt);
         Event (Glob (ANDROID_RESULTS ROOT) (py "TEST-*.xml")) (Ok before)] ++
        ((fun name => Event (Unlink (under (ANDROID_RESULTS ROOT) name)) (Ok tt)) <$> before) ++
        [Event (Run (actual_command ROOT (android_command ROOT gradle)) ROOT (Some (<[ARTIFACT_ENV := artifacts_dir]> env)) 1800) (Got (0, out));
         Event (Glob (ANDROID_RESULTS ROOT) (py "TEST-*.xml")) (Ok reports_found)] ++
        parsed paths roots ++ [Event (ReadText (INVENTORY_PATH ROOT)) (Got text)] ++ concat parts /\
  length roots = length paths /\ unlinked = length before /\
  reports roots cases n /\ NoDup (names cases) /\ inventory_text text AndroidJvmSecurity None ids /\
  inventoried cases ids ANDROID_OPTIONAL_SKIPS /\ mandatory_passed ids cases /\
  (forall c, c ∈ cases -> case_status c = passed \/ case_status c = skipped /\ case_name c ∈ ANDROID_OPTIONAL_SKIPS) /\
  (status = passed \/ status = skipped) /\ (exists reason, (android_optional_name, status, reason) ∈ cases) /\
  suite = suite_object android_wallet_jvm_security
    (MkCounts (Z.of_nat (length ids)) 0 0 (if bool_decide (status = skipped) then 1 else 0))
    [android_jvm_cases_passed; optional_live_peer_case status (case_digest android_optional_name)] /\
  Forall2 (fun pa e => kotlin_evidence artifacts_dir cases pa.1 pa.2 e) (zip producers artifacts) parts /\ length artifacts = length producers.

Lemma check_android_cases_valid cases : check_android_cases cases = Valid tt ->
  named failed cases = [] /\ incl_set (named skipped cases) ANDROID_OPTIONAL_SKIPS = true.
Proof.
  unfold check_android_cases. rewrite !block_valid, !negb_false_iff. intros (H1 & H2 & _). split; [|done]. by apply bool_decide_eq_true in H1.
Qed.

Lemma android_state_valid cases status : android_optional_state cases = Valid status ->
  exists reason, (android_optional_name, status, reason) ∈ cases.
Proof.
  unfold android_optional_state. destruct (List.find _ cases) as [[[m st] reason]|] eqn:E; [|done]. intros [= <-].
  apply find_some in E as [E Hn]. apply bool_decide_eq_true in Hn. unfold case_name in Hn. simpl in Hn. subst m.
  exists reason. by apply list_elem_of_In.
Qed.

Lemma unlink_all (names : list pystr) :
  ends (pmap (fun name => demand o (Unlink (under (ANDROID_RESULTS ROOT) name))) names)
    (fun _ evs => evs = (fun name => Event (Unlink (under (ANDROID_RESULTS ROOT) name)) (Ok tt)) <$> names).
Proof.
  induction names as [|x l IH]; cbn [pmap]; [by apply ends_pret|]. eapply ends_bind; [apply ends_demand|]. intros [] e1 ->.
  eapply ends_bind; [apply IH|]. intros r e2 ->. apply ends_pret. by rewrite app_nil_r.
Qed.

Lemma android_profile_ends gradle env scratch :
  ends (_android_profile o ROOT gradle env scratch) (fun r evs => android_evidence gradle env scratch evs r.1 r.2).
Proof.
  unfold _android_profile. eapply ends_bind; [apply ends_demand|]. intros wrapper e1 ->. apply ends_stop. intros Hw.
  apply negb_false_iff in Hw. subst wrapper.
  eapply ends_bind; [apply ends_demand|]. intros [] e2 ->. eapply ends_bind; [apply ends_demand|]. intros [] e3 ->.
  eapply ends_bind; [apply ends_demand|]. intros before e4 ->. eapply ends_bind; [apply unlink_all|]. intros _ e5 ->.
  apply ends_stop. intros _. eapply ends_bind; [apply run_ends|]. intros _ e6 (out & ->).
  eapply ends_bind; [apply ends_demand|]. intros found e7 ->.
  eapply ends_bind; [apply junit_cases_ends|]. intros cases e8 (roots & n & Hl & -> & Hr & Hnd & Hne).
  eapply (ends_bind _ _ (fun _ evs => evs = [] /\ check_android_cases cases = Valid tt)); [by apply ends_lift; intros []|].
  intros [] e9 [-> [Hf Hs]%check_android_cases_valid].
  eapply ends_bind; [apply require_inventory_ends|]. intros [] e10 (text & ids & -> & Hi & Hinv).
  eapply (ends_bind _ _ (fun status evs => evs = [] /\ android_optional_state cases = Valid status)); [by apply ends_lift|].
  intros status e11 [-> (reason & Hopt)%android_state_valid].
  eapply ends_bind; [apply ends_pmap; intros; apply produce_ends|]. intros artifacts e12 (parts & -> & Hparts & Hlen). apply ends_pret.
  destruct (inventory_ok _ _ _ _ Hi) as [Hids _]. pose proof (no_failure _ _ _ _ Hr Hf Hs) as Hno.
  destruct (mandatory_all _ _ _ _ _ Hr Hnd Hids Hinv Hf Hs) as [Hperm Hpass]. apply Permutation_length in Hperm. rewrite length_fmap in Hperm.
  exists before, (length before), out, found, roots, cases, n, text, ids, status, parts. cbn zeta.
  split; [by rewrite !app_nil_l, !app_nil_r|]. split_and!; try done.
  - destruct (Hno _ Hopt) as [|[? _]]; auto.
  - eauto.
  - cbn [fst]. unfold android_suite. by rewrite Hperm.
Qed.

Lemma android_evidence_ok gradle env scratch evs suite artifacts :
  android_evidence gradle env scratch evs suite artifacts ->
  suite_ok suite android_wallet_jvm_security /\ Forall2 artifact_ok artifacts kotlin_artifacts.
Proof.
  intros (before & u & out & found & roots & cases & n & text & ids & status & parts & _ & _ & _ & _ & _ & Hi & _ & _ & _ & Hst & _ & -> & Hparts & Hlen).
  destruct (inventory_ok _ _ _ _ Hi) as [_ Hne]. assert (1 <= Z.of_nat (length ids)) as Hpos by (by destruct ids; [|simpl; lia]).
  destruct statuses_distinct as (_ & Nps & _). split.
  - apply suite_object_ok; cbn [r_tests r_failures r_errors r_skipped]; [|lia|done|done|case_bool_decide; lia|].
    + apply NoDup_cons. split; [|apply NoDup_singleton]. rewrite list_elem_of_singleton.
      destruct android_digest_eq as [_ Ed]. unfold android_optional_name. rewrite <-Ed.
      destruct android_names as (N1 & N2 & _), Hst as [-> | ->]; done.
    + unfold suite_rule. rewrite bool_decide_eq_false_2 by (vm_compute; done). rewrite bool_decide_eq_true_2 by done.
      apply android_rule_digest. destruct android_digest_eq as [_ Ed]. unfold android_optional_name. rewrite <-Ed.
      exists status. split.
      * destruct Hst as [-> | ->]; [left; rewrite bool_decide_eq_false_2 by exact Nps|right; rewrite bool_decide_eq_true_2 by reflexivity]; split; reflexivity.
      * intros t. rewrite !elem_of_cons, elem_of_nil. tauto.
  - destruct artifacts as [|a1 [|a2 [|a3 [|]]]]; try done. simpl in Hparts.
    inversion Hparts as [|? ? ? ? (s1 & d1 & _ & _ & _ & E1) Hp1]; subst. inversion Hp1 as [|? ? ? ? (s2 & d2 & _ & _ & _ & E2) Hp2]; subst.
    inversion Hp2 as [|? ? ? ? (s3 & d3 & _ & _ & _ & E3) _]; subst. simpl in E1, E2, E3. subst.
    repeat constructor; apply artifact_object_ok, fullmatch_spec; vm_compute; reflexivity.
Qed.

(** * The Registry profile *)

(** The checkout is clean and at the revision the lock file pins. *)
Definition provider_evidence (provider : pystr) (evs : list event) : Prop :=
  exists before lock head status revision,
  evs = before ++ [Event (LoadToml (under ROOT (py "uv.lock"))) (Got lock); Event (IsFile (under provider (py "pyproject.toml"))) (Ok true);
                   Event (Run git_head provider None 10) (Got (0, head)); Event (Run git_status provider None 10) (Got (0, status))] /\
  locked_revision lock = Valid revision /\ strip head = revision /\ strip status = [].

Lemma provider_ends environ : ends (_pinned_provider_path o ROOT environ) provider_evidence.
Proof.
  unfold _pinned_provider_path. eapply (ends_bind _ _ (fun _ _ => True)).
  { case_match; [by apply ends_pret|eapply ends_weaken; [apply ends_demand|done]]. }
  intros provider before _. eapply ends_bind; [apply ends_guarded|]. intros lock e2 ->.
  eapply (ends_bind _ _ (fun r evs => evs = [] /\ locked_revision lock = Valid r)); [by apply ends_lift|]. intros revision e3 [-> Hrev].
  eapply ends_bind; [apply ends_demand|]. intros present e4 ->. apply ends_stop. intros Hp. apply negb_false_iff in Hp. subst present.
  eapply ends_bind; [apply ends_guarded|]. intros [c1 head] e5 ->. eapply ends_bind; [apply ends_guarded|]. intros [c2 status] e6 ->.
  apply ends_stop. intros Hg. bool_hyps. subst c1 c2. apply ends_pret. exists before, lock, head, status, revision. done.
Qed.

(** A job's own report has exactly the reviewed cases of its file. *)
Definition job_evidence (j : string * option string * pystr) (evs : list event) : Prop :=
  exists root cases n text ids,
  evs = [Event (ParseReport j.2) (Got root); Event (ReadText (INVENTORY_PATH ROOT)) (Got text)] /\ report_node root cases n /\
  inventory_text text LocalRegistry (Some j.1.1) ids /\ inventoried cases ids [].

Definition registry_evidence (env : gmap pystr pystr) (scratch : pystr) (evs : list event) (suite : pyval) : Prop :=
  exists eprov provider outs roots cases n parts roots' cases' n',
  let jobs := registry_jobs scratch in
  evs = eprov ++
    zip_with (fun j out => Event (Run (actual_command ROOT (job_command provider j.2 j.1)) ROOT (Some (registry_environment env provider)) 2400) (Got (0, out)))
      jobs outs ++ parsed jobs.*2 roots ++ concat parts ++ parsed jobs.*2 roots' /\
  provider_evidence provider eprov /\ length outs = length jobs /\
  length roots = length jobs /\ reports roots cases n /\ NoDup (names cases) /\ (forall c, c ∈ cases -> case_status c <> skipped) /\
  Forall2 job_evidence jobs parts /\
  length roots' = length jobs /\ reports roots' cases' n' /\ length cases' = length cases /\ cases <> [] /\ (forall c, c ∈ cases' -> case_status c = passed) /\
  suite = suite_object local_registry_integration (MkCounts (Z.of_nat (length cases)) 0 0 0) [mandatory_cases_passed; receipt_emitted].

Lemma runs_ends (command : string * option string * pystr -> list pystr) env (jobs : list (string * option string * pystr)) :
  ends (pmap (fun j => _run o ROOT (command j) env 2400) jobs) (fun _ evs => exists outs, length outs = length jobs /\
    evs = zip_with (fun j out => Event (Run (actual_command ROOT (command j)) ROOT (Some env) 2400) (Got (0, out))) jobs outs).
Proof.
  induction jobs as [|j jobs IH]; cbn [pmap]; [apply ends_pret; by exists []|]. eapply ends_bind; [apply run_ends|]. intros [] e1 (out & ->).
  eapply ends_bind; [apply IH|]. intros r e2 (outs & Hl & ->). apply ends_pret. exists (out :: outs). simpl. by rewrite Hl, app_nil_r.
Qed.

Lemma jobs_ends (jobs : list (string * option string * pystr)) :
  ends (pmap (fun j => let? own := _junit_cases o [j.2] in _require_inventory o ROOT LocalRegistry own [] (Some j.1.1)) jobs)
    (fun _ evs => exists parts, evs = concat parts /\ Forall2 job_evidence jobs parts).
Proof.
  induction jobs as [|j jobs IH]; cbn [pmap]; [apply ends_pret; exists []; split; [done|constructor]|].
  eapply (ends_bind _ _ (fun _ evs => job_evidence j evs)).
  { eapply ends_bind; [apply junit_cases_ends|]. intros cases e1 (roots & n & Hl & -> & Hr & _). destruct roots as [|root [|]]; try done.
    eapply ends_weaken; [apply require_inventory_ends|]. intros _ evs (text & ids & -> & Hi & Hinv).
    exists root, cases, n, text, ids. split_and!; try done. by apply report_one. }
  intros [] e1 H1. eapply ends_bind; [apply IH|]. intros r e2 (parts & -> & Hp). apply ends_pret. exists (e1 :: parts).
  simpl. rewrite app_nil_r. split; [done|by constructor].
Qed.

Lemma junit_result_ends paths :
  ends (junit_result o paths) (fun n evs => exists roots cases, length roots = length paths /\ evs = parsed paths roots /\
    reports roots cases n /\ r_failures n = 0 /\ r_errors n = 0 /\ r_skipped n = 0 /\ forall c, c ∈ cases -> case_status c = passed).
Proof.
  unfold junit_result. eapply ends_bind; [apply native_report_ends|]. intros [n cases] e1 (roots & Hl & -> & Hr & _). simpl in Hr.
  apply ends_stop. intros Hg. bool_hyps. apply ends_pret. rewrite app_nil_r. exists roots, cases. split_and!; try done.
  destruct (reports_counts _ _ _ Hr) as (_ & _ & _ & Hf & Hs & Hst).
  assert (with_status failed cases = 0%nat /\ with_status skipped cases = 0%nat) as [F S] by lia.
  apply with_status_zero in F, S. rewrite Forall_forall in F, S, Hst. intros c Hc.
  destruct (Hst c Hc) as [|[|]]; [done| |]; [by apply F in Hc|by apply S in Hc].
Qed.

Lemma named_nil st cases : named st cases = [] -> forall c, c ∈ cases -> case_status c <> st.
Proof.
  intros H [[m s] r] Hc E. unfold case_status in E. simpl in E. subst s.
  assert (m ∈ named st cases) as Hm by (apply named_elem; eauto). rewrite H in Hm. by apply elem_of_nil in Hm.
Qed.

Lemma registry_profile_ends environ env scratch :
  ends (_registry_profile o ROOT environ env scratch) (fun suite evs => registry_evidence env scratch evs suite).
Proof.
  unfold _registry_profile. eapply ends_bind; [apply provider_ends|]. intros provider eprov Hprov.
  eapply ends_bind; [apply runs_ends|]. intros _ e1 (outs & Ho & ->).
  eapply ends_bind; [apply junit_cases_ends|]. intros cases e2 (roots & n & Hl & -> & Hr & Hnd & Hne).
  eapply ends_bind; [apply jobs_ends|]. intros _ e3 (parts & -> & Hp). apply ends_stop. intros Hs.
  apply negb_false_iff, bool_decide_eq_true in Hs. unfold _suite. eapply ends_bind; [apply junit_result_ends|].
  intros n' e4 (roots' & cases' & Hl' & -> & Hr' & Hf' & He' & Hs' & Hall). apply ends_stop. intros Ht.
  apply negb_false_iff, Z.eqb_eq in Ht. apply ends_pret. rewrite length_fmap in Hl, Hl'.
  exists eprov, provider, outs, roots, cases, n, parts, roots', cases', n'. cbn zeta. rewrite app_nil_r. split_and!; try done.
  - by apply named_nil.
  - destruct (reports_counts _ _ _ Hr') as (Hc & _). lia.
  - unfold suite_object. by rewrite Ht, Hf', He', Hs'.
Qed.

Lemma registry_evidence_ok env scratch evs suite :
  registry_evidence env scratch evs suite -> suite_ok suite local_registry_integration.
Proof.
  intros (ep & pr & outs & roots & cases & n & parts & roots' & cases' & n' & _ & _ & _ & _ & _ & _ & _ & _ & _ & _ & _ & Hne & _ & ->).
  assert (1 <= Z.of_nat (length cases)) as Hpos by (by destruct cases; [|simpl; lia]).
  apply suite_object_ok; cbn [r_tests r_failures r_errors r_skipped]; [|lia|done|done|lia|].
  - apply (bool_decide_unpack _). vm_compute. exact I.
  - unfold suite_rule. rewrite bool_decide_eq_false_2 by (vm_compute; done). rewrite bool_decide_eq_false_2 by (vm_compute; done).
    rewrite bool_decide_eq_true_2 by reflexivity. split; [done|]. intros t. rewrite !elem_of_cons, elem_of_nil. tauto.
Qed.
End Runs.
