(* ===== verification/AcceptanceClaims.v ===== *)
(** The claims about acceptance: what reports and receipts mean, what a run must have seen
    before it hands out a receipt, and that it never refuses the receipt it assembled. *)

From stdpp Require Import gmap.
From S2P Require Import Prelude PyVal Sha256 Json Storage Regex DateTime Receipt ReceiptFacts NativeReport Acceptance AcceptanceRuns.

Open Scope Z_scope.

(** * The public vectors *)

Lemma after_last_app c a b : after_last c (a ++ [c] ++ b) = after_last c b.
Proof. unfold after_last. rewrite !foldl_app. cbn [foldl]. by rewrite Z.eqb_refl. Qed.

Lemma path_name_under d n : path_name (under d n) = path_name n.
Proof. apply after_last_app. Qed.

(** The artifacts a vector contributes. *)
Definition vector_ids (include : bool) (relative : pystr) : list pystr :=
  if bool_decide (path_name relative = py "wallet-container-v2.json") then [wallet_container_known_answer]
  else if bool_decide (path_name relative = py "wallet-v2-portable-rotation-latch.json") then []
  else if include then [str_replace (py "_") (py "-") (path_stem relative) ++ py "-candidate-envelope"] else [].

Lemma vector_ids_all : mjoin (vector_ids true <$> VECTORS) = wallet_container_known_answer :: identity_artifacts /\
  mjoin (vector_ids false <$> VECTORS) = [wallet_container_known_answer] /\
  forallb (fun relative => forallb (fullmatch identifier) (vector_ids true relative)) VECTORS = true.
Proof. split_and!; vm_compute; reflexivity. Qed.

Section Vectors.
Context (o : oracle) (ROOT : pystr).

(** What one public vector contributes, and the reads behind it: its JSON text was read and is
    an object; the container vector is marked as synthetic, its file was read again and its artifact
    is the digest of those bytes; the portable latch is checked and contributes nothing; the
    artifact of an Identity vector, when they are included, is the digest of the envelope
    spelled out in it. *)
Definition vector_evidence (include : bool) (relative : pystr) (artifacts : list pyval) (evs : list event) : Prop :=
  exists text j d, let path := under ROOT relative in
  json_loads text = Ok j /\ py_of_json j = PDict d /\
  if bool_decide (path_name relative = py "wallet-container-v2.json") then
    exists data notice, evs = [Event (ReadText path) (Got text); Event (ReadBytes path) (Got data)] /\
      str_get (py "test_only") d = Some (PBool true) /\ str_get (py "notice") d = Some (PStr notice) /\
      contains (py "Never use with a real wallet") notice = true /\
      artifacts = [artifact_object wallet_container_known_answer (hexdigest (sha256 data))]
  else evs = [Event (ReadText path) (Got text)] /\
    if bool_decide (path_name relative = py "wallet-v2-portable-rotation-latch.json") then
      artifacts = [] /\ str_get (py "identity_vector") d = Some (PStr (py "identity-owner-key-rotation-legacy.json"))
    else if include then
      exists hex raw, str_get (py "candidate_envelope_cbor_hex") d = Some (PStr hex) /\ fromhex hex = Some raw /\
        artifacts = [artifact_object (str_replace (py "_") (py "-") (path_stem relative) ++ py "-candidate-envelope")
                       (hexdigest (sha256 raw))]
    else artifacts = [].

(** The vectors one after the other. *)
Definition vectors_evidence (include : bool) (artifacts : list pyval) (evs : list event) : Prop :=
  exists parts eparts, artifacts = concat parts /\ evs = concat eparts /\ length parts = length VECTORS /\
    Forall2 (fun xy e => vector_evidence include xy.1 xy.2 e) (zip VECTORS parts) eparts.

Lemma is_str_pystr v t : is_str (default PNone v) t = true -> v = Some (PStr t).
Proof. destruct v as [[| | | |x| | | |i [n|]]|]; cbn; try done. intros Hx. apply bool_decide_eq_true in Hx. by subst. Qed.

Lemma read_vector_ends include relative :
  forallb (fullmatch identifier) (vector_ids true relative) = true ->
  ends (read_vector o ROOT include relative) (fun artifacts evs =>
    Forall2 artifact_ok artifacts (vector_ids include relative) /\ vector_evidence include relative artifacts evs).
Proof.
  intros Hid. rewrite forallb_forall in Hid. unfold read_vector. rewrite path_name_under. unfold vector_ids, vector_evidence in *.
  eapply ends_bind; [apply read_json_ends|]. intros v e1 (text & j & -> & Hj & ->).
  destruct (py_of_json j) as [| | | | | | |d|] eqn:Ed; try (by apply ends_lift).
  destruct (bool_decide (path_name relative = py "wallet-container-v2.json")).
  { apply ends_stop. intros Hg. eapply ends_bind; [apply hash_file_ends|]. intros digest e2 (data & -> & ->). apply ends_pret. split.
    - constructor; [|constructor]. apply artifact_object_ok, fullmatch_spec, Hid. by left.
    - exists text, j, d. split; [done|]. split; [done|]. apply negb_false_iff in Hg.
      destruct (str_get (py "test_only") d) as [[|[]| | | | | | |]|]; try done.
      destruct (str_get (py "notice") d) as [[| | | |notice| | | |]|]; try done. by exists data, notice. }
  destruct (bool_decide (path_name relative = py "wallet-v2-portable-rotation-latch.json")).
  { apply ends_stop. intros Hg%negb_false_iff%is_str_pystr.
    do 3 (eapply (ends_bind _ _ (fun _ e => e = [])); [by apply ends_lift|intros ? ? ->]). apply ends_pret. split; [constructor|].
    by exists text, j, d. }
  destruct include; cbn [negb].
  2: { apply ends_pret. split; [constructor|]. by exists text, j, d. }
  destruct (str_get _ _) as [[| | | |hex| | | |]|] eqn:Eh; try (by apply ends_lift).
  destruct (fromhex hex) as [raw|] eqn:Er; [|by apply ends_lift]. apply ends_pret. split.
  - constructor; [|constructor]. apply artifact_object_ok, fullmatch_spec, Hid. by left.
  - exists text, j, d. split; [done|]. split; [done|]. split; [done|]. by exists hex, raw.
Qed.

Lemma vectors_ends include :
  ends (_test_only_artifacts o ROOT include) (fun artifacts evs =>
    Forall2 artifact_ok artifacts (wallet_container_known_answer :: if include then identity_artifacts else []) /\
    vectors_evidence include artifacts evs).
Proof.
  destruct vector_ids_all as (E1 & E2 & E3). rewrite forallb_forall in E3.
  assert (mjoin (vector_ids include <$> VECTORS) = wallet_container_known_answer :: if include then identity_artifacts else []) as <- by (by destruct include).
  unfold _test_only_artifacts. eapply ends_bind.
  - apply ends_pmap. intros relative Hr. apply read_vector_ends, E3. by apply list_elem_of_In.
  - intros parts e1 (es & -> & Hall & Hlen). apply ends_pret. split.
    + clear -Hall Hlen. revert parts es Hall Hlen.
      induction VECTORS as [|x l IH]; intros [|r parts] es Hall Hlen; try done.
      inversion Hall as [|? ? ? ? [Hx _] Hrest]; subst. rewrite fmap_cons. cbn. apply Forall2_app; [done|]. eapply IH; [done|]. by injection Hlen.
    + exists parts, es. split; [done|]. split; [by rewrite app_nil_r|]. split; [done|]. eapply Forall2_impl; [exact Hall|]. by intros [] ? [].
Qed.
End Vectors.

(** * A run *)

Section Run.
Context (o : oracle) (ROOT sys_executable : pystr).

(** The evidence for the suites of a profile, in the order of the run. *)
Definition run_evidence (args : arguments) (p : profile) (environ : gmap pystr pystr) (scratch : pystr) (evs : list event)
    (suites kotlin : list pyval) : Prop :=
  exists ep ea er ps sa rs, let env := command_environment environ in
  evs = ep ++ ea ++ er /\ suites = ps ++ sa ++ rs /\
  match p with
  | AndroidJvm => ps = []
  | _ => exists suite, ps = [suite] /\
      python_evidence ROOT (or_else (arg_python args) sys_executable) env (under scratch (py "python-security.xml")) ep suite
  end /\
  match p with
  | Core => sa = [] /\ kotlin = []
  | _ => exists suite, sa = [suite] /\ android_evidence ROOT (or_else (arg_gradle args) (under ROOT (py "gradlew"))) env scratch ea suite kotlin
  end /\
  match p with
  | Full => exists suite, rs = [suite] /\ registry_evidence ROOT (<[ARTIFACT_ENV := under scratch (py "kotlin-artifacts")]> env) scratch er suite
  | _ => rs = []
  end.

Lemma gather_ends args p environ vectors scratch :
  ends (gather o ROOT sys_executable args p environ vectors scratch) (fun r evs => exists kotlin,
    r.2 = vectors ++ kotlin /\ run_evidence args p environ scratch evs r.1 kotlin).
Proof.
  unfold gather.
  eapply (ends_bind _ _ (fun ps ep => match p with AndroidJvm => ps = [] | _ => exists suite, ps = [suite] /\
    python_evidence ROOT (or_else (arg_python args) sys_executable) (command_environment environ) (under scratch (py "python-security.xml")) ep suite end)).
  { destruct p; [|by apply ends_pret|]; (eapply ends_bind; [apply python_profile_ends|]; intros [suite sk] e1 H; apply ends_pret; rewrite app_nil_r; eauto). }
  intros ps ep Hp.
  eapply (ends_bind _ _ (fun r ea => match p with Core => r.1 = [] /\ r.2 = [] | _ => exists suite, r.1 = [suite] /\
    android_evidence ROOT (or_else (arg_gradle args) (under ROOT (py "gradlew"))) (command_environment environ) scratch ea suite r.2 end)).
  { destruct p; [by apply ends_pret| |]; (eapply ends_bind; [apply android_profile_ends|]; intros [suite k] e1 H; apply ends_pret; rewrite app_nil_r; eauto). }
  intros [sa kotlin] ea Ha.
  eapply (ends_bind _ _ (fun rs er => match p with Full => exists suite, rs = [suite] /\
    registry_evidence ROOT (<[ARTIFACT_ENV := under scratch (py "kotlin-artifacts")]> (command_environment environ)) scratch er suite | _ => rs = [] end)).
  { destruct p; [by apply ends_pret..|]. eapply ends_bind; [apply registry_profile_ends|]. intros suite e1 H. apply ends_pret. rewrite app_nil_r. eauto. }
  intros rs er Hr. apply ends_pret. exists kotlin. split; [done|]. exists ep, ea, er, ps, sa, rs. cbn zeta. rewrite app_nil_r. split_and!; done.
Qed.

Lemma commit_ends : ends (_commit o ROOT) (fun value evs => exists out,
  evs = [Event (Run git_head ROOT None 10) (Got (0, out))] /\ value = strip out /\ lang (hexadecimal 40) value).
Proof.
  unfold _commit. eapply ends_bind; [apply ends_guarded|]. intros [code out] e1 ->. apply ends_stop. intros Hg.
  apply orb_false_iff in Hg as [H1 H2]. apply negb_false_iff in H1, H2. apply Z.eqb_eq in H1 as ->. apply ends_pret. exists out.
  split_and!; try done. by apply fullmatch_spec.
Qed.

Lemma assemble_ends p suites artifacts :
  ends (assemble o ROOT p suites artifacts) (fun receipt evs => exists python platform implementation now out,
    evs = [Event PythonVersion python; Event Platform platform; Event Implementation implementation; Event Now now;
           Event (Run git_head ROOT None 10) (Got (0, out))] /\
    receipt = receipt_object p (str_replace (py "+00:00") (py "Z") (isoformat now)) (strip out)
      (environment_object python (take 160 platform) implementation (negb (is_core p))) suites artifacts /\
    validate_receipt receipt = Valid receipt).
Proof.
  unfold assemble. eapply ends_bind; [apply ends_ask|]. intros python e1 ->. eapply ends_bind; [apply ends_ask|]. intros platform e2 ->.
  eapply ends_bind; [apply ends_ask|]. intros impl e3 ->. eapply ends_bind; [apply ends_ask|]. intros now e4 ->.
  eapply ends_bind; [apply commit_ends|]. intros commit e5 (out & -> & -> & _). apply ends_lift. intros receipt E.
  exists python, platform, impl, now, out. split; [done|]. pose proof E as E'. apply validate_receipt_valid in E' as [-> _]. done.
Qed.

Lemma with_scratch_ends {A} (body : pystr -> P A) (Q : pystr -> A -> list event -> Prop) :
  (forall d, ends (body d) (Q d)) ->
  ends (with_scratch o body) (fun a evs => exists d e, evs = [Event MakeTemp (Ok d)] ++ e ++ [Event (RemoveTree d) (Ok tt)] /\ Q d a e).
Proof.
  intros Hb. unfold with_scratch. eapply ends_bind; [apply ends_demand|]. intros d e1 ->.
  intros s a s' E. unfold pbind at 1, pattempt in E. destruct (body d s) as [r s1] eqn:Eb. cbn [fst snd] in E.
  unfold pbind, demand, ask, lift in E. cbn in E. destruct (o _ (p_trace s1) (RemoveTree d)) as [[]|] eqn:Er; [|done]. cbn in E.
  injection E as -> <-. destruct (Hb _ _ _ _ Eb) as (e & -> & Hq). exists (e ++ [Event (RemoveTree d) (Ok tt)]).
  cbn in *. split; [by rewrite app_assoc|]. exists d, e. done.
Qed.

(** Everything a receipt stands for. *)
Definition receipt_evidence (args : arguments) (receipt : pyval) (evs : list event) : Prop :=
  exists environ evec d erun python platform implementation now out suites kotlin vectors,
  let p := selected_profile args in
  evs = [Event Environ environ; Event ImportPytest (Got tt)] ++ evec ++ [Event MakeTemp (Ok d)] ++ erun ++
    [Event PythonVersion python; Event Platform platform; Event Implementation implementation; Event Now now;
     Event (Run git_head ROOT None 10) (Got (0, out)); Event (RemoveTree d) (Ok tt)] /\
  run_evidence args p environ d erun suites kotlin /\
  vectors_evidence ROOT (negb (is_core p)) vectors evec /\
  receipt = receipt_object p (str_replace (py "+00:00") (py "Z") (isoformat now)) (strip out)
    (environment_object python (take 160 platform) implementation (negb (is_core p))) suites (profile_artifacts p vectors ++ kotlin).

Lemma run_acceptance_ends args :
  ends (run_acceptance o ROOT sys_executable args) (fun receipt evs => receipt_evidence args receipt evs /\ validate_receipt receipt = Valid receipt).
Proof.
  unfold run_acceptance. eapply ends_bind; [apply ends_ask|]. intros environ e1 ->. eapply ends_bind; [apply ends_guarded|]. intros [] e2 ->.
  eapply ends_bind; [apply vectors_ends|]. intros vectors evec [_ Hv]. eapply ends_weaken.
  - apply with_scratch_ends. intros d. unfold run_profile. eapply ends_bind; [apply gather_ends|].
    intros [suites artifacts] erun (kotlin & Ek & Hrun). cbn [snd fst] in *. eapply ends_weaken; [apply assemble_ends|].
    intros receipt evs H. instantiate (1 := fun d receipt e => exists erun suites kotlin python platform implementation now out,
      e = erun ++ [Event PythonVersion python; Event Platform platform; Event Implementation implementation; Event Now now;
        Event (Run git_head ROOT None 10) (Got (0, out))] /\ run_evidence args (selected_profile args) environ d erun suites kotlin /\
      receipt = receipt_object (selected_profile args) (str_replace (py "+00:00") (py "Z") (isoformat now)) (strip out)
        (environment_object python (take 160 platform) implementation (negb (is_core (selected_profile args)))) suites
        (profile_artifacts (selected_profile args) vectors ++ kotlin) /\ validate_receipt receipt = Valid receipt).
    destruct H as (python & platform & impl & now & out & -> & Er & Hval). exists erun, suites, kotlin, python, platform, impl, now, out.
    rewrite Ek in Er. done.
  - intros receipt evs (d & e & -> & erun & suites & kotlin & python & platform & impl & now & out & -> & Hrun & -> & Hval). split; [|done].
    exists environ, evec, d, erun, python, platform, impl, now, out, suites, kotlin, vectors. cbn zeta. split; [|done].
    by rewrite <-!app_assoc.
Qed.
End Run.

(** * The receipt a run assembles is acceptable *)

Lemma artifact_ok_id raw id : artifact_ok raw id -> artifact_id raw = id.
Proof. intros (d & digest & (-> & _) & H & _). unfold artifact_id. unfold has in H. by rewrite H. Qed.

Lemma filter_artifacts (f : pystr -> bool) l ids :
  Forall2 artifact_ok l ids -> Forall2 artifact_ok (List.filter (fun v => f (artifact_id v)) l) (List.filter f ids).
Proof.
  induction 1 as [|v id l ids Hv Hl IH]; simpl; [constructor|]. rewrite (artifact_ok_id _ _ Hv). destruct (f id); [by constructor|done].
Qed.

(** The artifacts a profile lists, in order. *)
Definition listed_artifacts (p : profile) : list pystr :=
  match p with
  | Core => [wallet_container_known_answer]
  | AndroidJvm => identity_artifacts ++ kotlin_artifacts
  | Full => (wallet_container_known_answer :: identity_artifacts) ++ kotlin_artifacts
  end.

Lemma listed_ok p : NoDup (listed_artifacts p) /\ (forall id, id ∈ required_artifacts p -> id ∈ listed_artifacts p) /\
  (forall id, id ∈ listed_artifacts p -> id ∈ allowed_artifacts p).
Proof.
  split; [apply (bool_decide_unpack _); by destruct p; vm_compute|]. rewrite <-!incl_set_true. by destruct p; vm_compute.
Qed.

Lemma profile_artifacts_ok p vectors kotlin :
  Forall2 artifact_ok vectors (wallet_container_known_answer :: if is_core p then [] else identity_artifacts) ->
  match p with Core => kotlin = [] | _ => Forall2 artifact_ok kotlin kotlin_artifacts end ->
  Forall2 artifact_ok (profile_artifacts p vectors ++ kotlin) (listed_artifacts p).
Proof.
  intros Hv Hk. destruct p; cbn [profile_artifacts listed_artifacts is_core] in *.
  - subst kotlin. rewrite app_nil_r. by apply (filter_artifacts (fun id => bool_decide (id = wallet_container_known_answer))) in Hv.
  - apply Forall2_app; [|done].
    apply (filter_artifacts (fun id => negb (bool_decide (id = wallet_container_known_answer)))) in Hv.
    replace identity_artifacts with (List.filter (fun id => negb (bool_decide (id = wallet_container_known_answer))) (wallet_container_known_answer :: identity_artifacts)); [done|].
    vm_compute. reflexivity.
  - by apply Forall2_app.
Qed.

Lemma run_evidence_suites ROOT sys_executable args p environ scratch evs suites kotlin :
  run_evidence ROOT sys_executable args p environ scratch evs suites kotlin ->
  Forall2 suite_ok suites (required_suites p) /\ match p with Core => kotlin = [] | _ => Forall2 artifact_ok kotlin kotlin_artifacts end.
Proof.
  intros (ep & ea & er & ps & sa & rs & _ & -> & Hp & Ha & Hr). destruct p; cbn [required_suites].
  - destruct Hp as (suite & -> & Hp), Ha as [-> ->]. subst rs. split; [|done]. constructor; [by eapply python_evidence_ok|constructor].
  - destruct Ha as (suite & -> & Ha). subst ps rs. destruct (android_evidence_ok _ _ _ _ _ _ _ Ha) as [H1 H2].
    split; [|done]. by constructor.
  - destruct Hp as (suite1 & -> & Hp), Ha as (suite2 & -> & Ha), Hr as (suite3 & -> & Hr).
    destruct (android_evidence_ok _ _ _ _ _ _ _ Ha) as [H1 H2]. split; [|done].
    repeat constructor; [by eapply python_evidence_ok|done|by eapply registry_evidence_ok].
Qed.

Lemma receipt_object_acceptable p now commit python platform implementation suites artifacts :
  valid_utc now = true -> lang (hexadecimal 40) commit -> lang python_version_pattern python -> lang (word_pattern 160) platform ->
  lang (word_pattern 32) implementation -> Forall2 suite_ok suites (required_suites p) -> Forall2 artifact_ok artifacts (listed_artifacts p) ->
  acceptable p (receipt_object p (str_replace (py "+00:00") (py "Z") (isoformat now)) commit
    (environment_object python platform implementation (negb (is_core p))) suites artifacts).
Proof.
  intros Hnow Hc Hpy Hpl Hi Hs Ha. destruct (listed_ok p) as (L1 & L2 & L3).
  eexists _, (str_replace (py "+00:00") (py "Z") (isoformat now)), commit, _, suites, (required_suites p), artifacts, (listed_artifacts p).
  split; [by apply obj_exact|]. split_and!; try done.
  - rewrite zone_replaced. by apply isoformat_read.
  - eexists _, python, platform, implementation. split; [by apply obj_exact|]. done.
Qed.

(** The machine's metadata has the form a receipt may carry. *)
Record metadata_ok (o : oracle) : Prop := {
  meta_python tr : fullmatch python_version_pattern (o _ tr PythonVersion) = true;
  meta_platform tr : fullmatch (word_pattern 160) (take 160 (o _ tr Platform)) = true;
  meta_implementation tr : fullmatch (word_pattern 32) (o _ tr Implementation) = true;
  meta_now tr : valid_utc (o _ tr Now) = true;
}.

(** The process after the metadata was asked for. *)
Definition after_metadata (o : oracle) (s : proc) : proc :=
  ((let? _ := ask o PythonVersion in let? _ := ask o Platform in let? _ := ask o Implementation in ask o Now) s).2.

Lemma assemble_accepted o ROOT p suites artifacts s :
  metadata_ok o -> Forall2 suite_ok suites (required_suites p) -> Forall2 artifact_ok artifacts (listed_artifacts p) ->
  match _commit o ROOT (after_metadata o s) with
  | (Valid _, s') => exists receipt, assemble o ROOT p suites artifacts s = (Valid receipt, s') /\ acceptable p receipt
  | (Blocked m, s') => assemble o ROOT p suites artifacts s = (Blocked m, s')
  | (Raise e, s') => assemble o ROOT p suites artifacts s = (Raise e, s')
  end.
Proof.
  intros [M1 M2 M3 M4] Hs Ha. unfold assemble, after_metadata, pbind, ask. cbn [fst snd p_trace p_world].
  destruct (_commit _ _ _) as [[commit|m|e] s'] eqn:E; [|done..].
  destruct (commit_ends _ _ _ _ _ E) as (evs & _ & out & _ & _ & Hc).
  set (receipt := receipt_object _ _ _ _ _ _).
  assert (acceptable p receipt) as Hok.
  { unfold receipt. apply receipt_object_acceptable;
      [apply M4|done|apply fullmatch_spec, M1|apply fullmatch_spec, M2|apply fullmatch_spec, M3|done|done]. }
  exists receipt. split; [|done]. unfold lift. f_equal. apply validate_receipt_valid. eauto.
Qed.

(** * Claims *)

(** C30. Receipts are accepted exactly when they satisfy the declarative contract of some profile:
    the profile's suites and no others, each with at least one test, no failure, no error, and
    skips only where a disclosed optional case allows one; the required artifacts and only
    allowed ones, with SHA-256 digests and distinct names; a commit identifier, a time with a
    time zone and well-formed metadata.  The validator returns the receipt it was given, and
    its only exception other than a [ReceiptValidationError] is the [TypeError] of a profile
    that cannot be hashed. *)
Theorem receipt_contract v :
  (forall r, validate_receipt v = Valid r <-> r = v /\ exists p, acceptable p v) /\
  (forall e, validate_receipt v = Raise e -> e = TypeError /\ exists d raw, v = PDict d /\ has d "profile" raw /\ hashable raw = false).
Proof. split; [intros r; apply validate_receipt_valid|apply validate_receipt_raise]. Qed.

(** C31. On reports that do not change while they are read, [_native_report] returns exactly the
    cases in the trees, in document order, when every [testsuite] declares the counts of its own
    subtree, no identity occurs twice, no case has two outcomes and there is at least one case;
    the totals then are the numbers of cases, failures and skips.  [junit_result] returns them
    exactly when moreover every case passed. *)
Theorem native_report_exact (o : oracle) (files : pystr -> element) :
  (forall tr path, o _ tr (ParseReport path) = Got (files path)) ->
  forall paths s,
  (forall n cases, (exists s', _native_report o paths s = (Valid (n, cases), s')) <-> well_reported files paths n cases) /\
  (forall n cases, well_reported files paths n cases -> counts_of cases n) /\
  (forall n, (exists s', junit_result o paths s = (Valid n, s')) <->
    exists cases, well_reported files paths n cases /\ Forall (fun c => case_status c = passed) cases).
Proof.
  intros Hfiles paths s. split_and!.
  - intros n cases. by apply native_report_stable.
  - intros n cases (_ & _ & _ & H). by eapply reports_counts.
  - intros n. by apply junit_result_stable.
Qed.

(** C32. A run of the acceptance command returns a receipt only after every mandatory command of
    its profile exited with status 0, its reports had no failed case, exactly the cases of the
    reviewed inventory and the optional ones, and skips only among the latter, and (for the
    full profile) the Registry checkout was clean and at the locked revision; the counts in the
    receipt are the sizes of the inventories; each artifact is the SHA-256 digest of bytes this
    run read: the container vector's file, which is marked as synthetic, the envelope spelled
    out in each Identity vector, and the nonempty files the Android tests wrote into the run's
    scratch directory; stale reports were removed before the Android tests ran, and the scratch
    directory is removed at the end.  The receipt passes its own validation, and the receipt's directory
    has not been touched. *)
Theorem run_acceptance_sound o ROOT sys_executable args s receipt s' :
  run_acceptance o ROOT sys_executable args s = (Valid receipt, s') ->
  p_world s' = p_world s /\ validate_receipt receipt = Valid receipt /\
  exists evs, p_trace s' = p_trace s ++ evs /\ receipt_evidence ROOT sys_executable args receipt evs.
Proof.
  intros H. destruct (run_acceptance_ends _ _ _ _ _ _ _ H) as (evs & -> & He & Hv). split_and!; try done. by exists evs.
Qed.

(** C33. A run never refuses the receipt it has assembled: on a machine whose metadata has the
    permitted form, once the suites and artifacts of a profile were gathered the run returns an
    acceptable receipt unless the source revision cannot be identified, and any failure of the
    gathering or of that last command is the run's own. *)
Theorem assembled_receipt_accepted o ROOT sys_executable args p environ vectors scratch s0 s0' s :
  metadata_ok o ->
  _test_only_artifacts o ROOT (negb (is_core p)) s0 = (Valid vectors, s0') ->
  let run := run_profile o ROOT sys_executable args p environ (profile_artifacts p vectors) scratch s in
  match gather o ROOT sys_executable args p environ (profile_artifacts p vectors) scratch s with
  | (Valid _, s1) =>
      match _commit o ROOT (after_metadata o s1) with
      | (Valid _, s2) => exists receipt, run = (Valid receipt, s2) /\ acceptable p receipt
      | (Blocked m, s2) => run = (Blocked m, s2)
      | (Raise e, s2) => run = (Raise e, s2)
      end
  | (Blocked m, s1) => run = (Blocked m, s1)
  | (Raise e, s1) => run = (Raise e, s1)
  end.
Proof.
  intros Hmeta Hvec run. unfold run, run_profile, pbind. destruct (vectors_ends _ _ _ _ _ _ Hvec) as (evec & _ & Hv & _).
  destruct (gather _ _ _ _ _ _ _ _ _) as [[[suites artifacts]|m|e] s1] eqn:Eg; [|done..].
  destruct (gather_ends _ _ _ _ _ _ _ _ _ _ _ Eg) as (evs & _ & kotlin & Ea & Hrun). cbn [fst snd] in *. subst artifacts.
  destruct (run_evidence_suites _ _ _ _ _ _ _ _ _ Hrun) as [Hs Hk]. apply assemble_accepted; [done|done|].
  apply profile_artifacts_ok; [|done]. by destruct (is_core p).
Qed.
