(* ===== verification/ReceiptStore.v ===== *)
(** The receipt's file (security_acceptance.py, [write_receipt], [main]): atomic installation
    under any failures, and what the exit status of the command means. *)

From stdpp Require Import gmap.
From S2P Require Import Prelude PyVal Sha256 Json Storage StorageFacts Regex DateTime Receipt ReceiptFacts NativeReport Acceptance AcceptanceRuns AcceptanceClaims.

Open Scope Z_scope.

Lemma temporary_valid destination : valid_name destination = true -> valid_name (temporary_name destination) = true.
Proof.
  unfold valid_name, temporary_name. rewrite !negb_true_iff, !bool_decide_eq_false, !elem_of_app. intros H [H'|[H'|H']]; [|done|].
  - apply list_elem_of_singleton in H'. done.
  - assert (bool_decide (0 ∈ py ".tmp") = false) as E by reflexivity. by apply bool_decide_eq_false in E.
Qed.

Lemma temporary_other destination : temporary_name destination <> destination.
Proof. intros E. apply (f_equal length) in E. unfold temporary_name in E. rewrite !length_app in E. simpl in E. lia. Qed.

Section Store.
Context (destination : pystr) (old : option bytes) (payload : bytes).
Context (Hvalid : valid_name destination = true).

Notation old_new := (old_or_new old payload).
Notation I := (reads destination old_new).
Notation wpI := (wp I).
Notation temp := (temporary_name destination).

Lemma old_in v : old = v -> old_new v.
Proof. intros <-. by left. Qed.

Lemma wp_open_exclusive s :
  settled destination old s ->
  wpI (open_exclusive temp) (fun r s' => match r with
    | Ok fd => staging destination (eq old) fd temp s'
    | Err e => is_OSError e = true /\ s' = s
    end) s.
Proof.
  intros Hs. apply wp_at_name; [by apply temporary_valid|done|]. case_bool_decide as Hex; [done|].
  rewrite <-eq_None_not_Some in Hex. set (fd := fs_next s).
  set (s1 := MkFs (<[temp:=fd]> (fs_dir s)) (fs_dir s :: fs_pending s) (<[fd:=[]]> (fs_files s)) (fs_disk s) (S fd)).
  assert (forall d i, d ∈ dirs s -> d !! destination = Some i -> (i < fd)%nat) as Hlt.
  { intros d i Hd Hi. unfold settled, reads in Hs. rewrite Forall_forall in Hs. destruct (Hs d Hd) as (v & _ & Hh). rewrite Hi in Hh. by destruct Hh. }
  assert (forall d', d' ∈ dirs s1 -> exists d, d ∈ dirs s /\ d' !! destination = d !! destination) as Hds.
  { intros d' [->|Hd']%elem_of_cons; [|by exists d']. exists (fs_dir s). split; [by left|]. cbn. rewrite lookup_insert_ne; [done|apply temporary_other]. }
  assert (staging destination (eq old) fd temp s1) as Hst.
  { split.
    - apply (reads_frame destination (eq old) s); [done|done| |cbn; lia].
      intros d i Hd Hi. cbn. split; [|done]. apply lookup_insert_ne. specialize (Hlt d i Hd Hi). unfold fd in Hlt. lia.
    - cbn. lia.
    - intros d' (d & Hd & ->)%Hds Hi. specialize (Hlt d fd Hd Hi). lia.
    - apply lookup_insert_eq.
    - apply temporary_other.
    - by apply temporary_valid. }
  split; [done|]. apply (reads_mono destination (eq old)); [apply Hst|apply old_in].
Qed.

(** The bytes are on disk when the block that writes them ends. *)
Lemma wp_write_payload fd s :
  staging destination (eq old) fd temp s ->
  wpI (attempt (let% _ := write fd payload in let% _ := flush fd in fsync fd)) (fun r s' => staging destination (eq old) fd temp s' /\
    match r with Ok (Ok _) => holds s' (Some fd) (Some payload) | Ok (Err e) => is_OSError e = true | Err _ => False end) s.
Proof.
  intros Hst. assert (forall s', staging destination (eq old) fd temp s' -> I s') as HI.
  { intros s' Hs'. apply (reads_mono destination (eq old)); [apply Hs'|apply old_in]. }
  apply wp_attempt, wp_bind, wp_syscall; [done|].
  set (s1 := MkFs (fs_dir s) (fs_pending s) (<[fd:=payload]> (fs_files s)) (fs_disk s) (fs_next s)).
  assert (staging destination (eq old) fd temp s1) as Hs1.
  { apply (staging_frame destination (eq old) fd temp s); try done. intros i Hi. split; [|done]. cbn. by rewrite lookup_insert_ne. }
  split; [|by apply HI]. apply wp_bind, wp_touch; [by apply HI|done|]. apply wp_syscall; [done|].
  cbn [fs_files s1]. rewrite lookup_insert_eq. fold s1. set (s2 := MkFs _ _ _ _ _).
  assert (staging destination (eq old) fd temp s2) as Hs2.
  { apply (staging_frame destination (eq old) fd temp s1); try done. intros i Hi. split; [done|]. cbn. by rewrite lookup_insert_ne. }
  split; [|by apply HI]. split; [done|]. split; [apply Hs2|]. exists payload. cbn. by rewrite !lookup_insert_eq.
Qed.

Lemma wp_install_receipt s :
  settled destination old s ->
  wpI (install_receipt destination payload) (fun r s' => match r with
    | Ok _ => I s' /\ live s' destination = Some payload
    | Err e => is_OSError e = true /\ settled destination old s'
    end) s.
Proof.
  intros Hs. unfold install_receipt. apply wp_bind. eapply wp_mono; [by apply wp_open_exclusive|].
  intros [fd|e] s1 H1; [|destruct H1 as [He ->]; by split]. apply wp_bind. eapply wp_mono; [by apply wp_write_payload|].
  intros [r|e] s2 [Hst H2]; [|done]. assert (I s2) as HI by (apply (reads_mono destination (eq old)); [apply Hst|apply old_in]).
  apply wp_bind, wp_touch; [done|split; [done|apply Hst]|]. apply wp_bind, wp_of_res.
  destruct r as [[]|e]; [|split; [done|apply Hst]]. pose proof Hst as [Hr Hlt Hfr He Hn Hv].
  apply wp_at_name; [done|split; [done|apply Hst]|]. unfold entry. rewrite He. cbn [of_option res_bind].
  set (d' := <[destination:=fd]> (delete temp (fs_dir s2))).
  assert (reads destination (fun v => old = v \/ v = Some payload) (set_dir d' s2)) as Hr'.
  { apply (reads_install destination (eq old) s2 d' fd); [done|apply lookup_insert_eq|done]. }
  assert (I (set_dir d' s2)) as HI'.
  { eapply reads_mono; [exact Hr'|]. intros v [<-| ->]; [by left|by right]. }
  split; [|done]. split; [done|]. unfold live, d'. cbn. rewrite lookup_insert_eq. by destruct H2 as (_ & b & [= <-] & Hb & _).
Qed.

Lemma wp_store_receipt s :
  settled destination old s ->
  wpI (store_receipt destination payload) (fun r s' => match r with
    | Ok true => I s' /\ live s' destination = Some payload
    | Ok false => settled destination old s'
    | Err _ => False
    end) s.
Proof.
  intros Hs. unfold store_receipt. apply wp_bind, wp_attempt. eapply wp_mono; [by apply wp_install_receipt|].
  intros [[]|e] s1 H1; [by apply wp_ret|]. destruct H1 as [-> H1]. apply wp_bind, wp_swallow.
  eapply wp_mono; [apply (wp_unlink destination _ (eq old) temp s1 H1 old_in); [apply temporary_other|by apply temporary_valid]|].
  intros _ s2 [H2 _]. by apply wp_ret.
Qed.
End Store.

(** The same for a path with a NUL character: the exclusive open is refused, and nothing changes. *)
Lemma store_receipt_invalid destination payload w :
  valid_name destination = false ->
  w_fs (store_receipt destination payload w).2 = w_fs w /\ (store_receipt destination payload w).1 <> Ok true.
Proof.
  intros Hv. assert (valid_name (temporary_name destination) = false) as Ht.
  { unfold valid_name, temporary_name in *. apply negb_false_iff, bool_decide_eq_true. apply negb_false_iff, bool_decide_eq_true in Hv.
    rewrite !elem_of_app. auto. }
  unfold store_receipt, install_receipt, open_exclusive, swallow, unlink, attempt, io_bind, at_name, syscall, ret, fail. rewrite Ht.
  destruct (w_faults w) as [|[] faults]; cbn; [done| |done]. destruct faults as [|[] faults]; cbn; done.
Qed.

(** * A run does not touch the receipt's directory *)

Definition keeps {A} (m : P A) : Prop := forall s, p_world (m s).2 = p_world s /\ exists evs, p_trace (m s).2 = p_trace s ++ evs.

Create HintDb keeps.

Lemma keeps_pret {A} (a : A) : keeps (pret a).
Proof. intros s. split; [done|]. exists []. by rewrite app_nil_r. Qed.

Lemma keeps_lift {A} (m : outcome A) : keeps (lift m).
Proof. intros s. split; [done|]. exists []. by rewrite app_nil_r. Qed.

Lemma keeps_bind {A B} (m : P A) (k : A -> P B) : keeps m -> (forall a, keeps (k a)) -> keeps (pbind m k).
Proof.
  intros Hm Hk s. unfold pbind. destruct (Hm s) as [Hw (e1 & Ht)]. destruct (m s) as [[a|t|e] s1]; cbn in *; eauto.
  destruct (Hk a s1) as [-> (e2 & ->)]. rewrite Ht. split; [done|]. exists (e1 ++ e2). by rewrite app_assoc.
Qed.

Lemma keeps_attempt {A} (m : P A) : keeps m -> keeps (pattempt m).
Proof. intros Hm s. apply (Hm s). Qed.

Lemma keeps_if {A} (c : bool) (m k : P A) : keeps m -> keeps k -> keeps (if c then m else k).
Proof. by destruct c. Qed.

Lemma keeps_pmap {A B} (f : A -> P B) l : (forall x, keeps (f x)) -> keeps (pmap f l).
Proof. intros Hf. induction l; cbn [pmap]; [apply keeps_pret|]. apply keeps_bind; [done|intros]. apply keeps_bind; [done|intros]. apply keeps_pret. Qed.

Section Keeps.
Context (o : oracle) (ROOT sys_executable : pystr).

Lemma keeps_ask {R} (q : request R) : keeps (ask o q).
Proof. intros s. split; [done|]. by eexists. Qed.

Lemma keeps_demand {A} (q : request (res A)) : keeps (demand o q).
Proof. apply keeps_bind; [apply keeps_ask|intros]. apply keeps_lift. Qed.

Lemma keeps_guarded {A} (q : request (answer A)) t : keeps (guarded o q t).
Proof. apply keeps_bind; [apply keeps_ask|intros]. apply keeps_lift. Qed.

#[local] Hint Resolve keeps_pret keeps_lift keeps_bind keeps_attempt keeps_if keeps_pmap keeps_ask keeps_demand keeps_guarded : keeps.

Ltac keeps_step :=
  match goal with
  | |- keeps (pbind _ _) => apply keeps_bind; [|intros ?]
  | |- keeps (if _ then _ else _) => apply keeps_if
  | |- keeps (let '(_, _) := ?x in _) => destruct x
  | |- keeps (match ?x with _ => _ end) => destruct x
  | |- keeps (pmap _ _) => apply keeps_pmap; intros ?
  | |- keeps (pattempt _) => apply keeps_attempt
  | |- _ => solve [auto with keeps]
  end.

Lemma keeps_native paths : keeps (_native_report o paths).
Proof.
  assert (forall totals cases, keeps (visit_reports o paths totals cases)) as H.
  { induction paths as [|p l IH]; intros; cbn [visit_reports]; [apply keeps_pret|]. repeat keeps_step. }
  unfold _native_report. repeat keeps_step.
Qed.

Lemma keeps_cases paths : keeps (_junit_cases o paths).
Proof. pose proof keeps_native. unfold _junit_cases. repeat keeps_step. Qed.

Lemma keeps_result paths : keeps (junit_result o paths).
Proof. pose proof keeps_native. unfold junit_result. repeat keeps_step. Qed.

Lemma keeps_inventory k cases optional file : keeps (_require_inventory o ROOT k cases optional file).
Proof. unfold _require_inventory, _expected_inventory, read_json. repeat keeps_step. Qed.

Lemma keeps_run command env timeout : keeps (_run o ROOT command env timeout).
Proof. unfold _run. repeat keeps_step. Qed.

#[local] Hint Resolve keeps_cases keeps_result keeps_inventory keeps_run : keeps.

Lemma keeps_vectors include : keeps (_test_only_artifacts o ROOT include).
Proof. unfold _test_only_artifacts, read_vector, read_json, _hash_file. repeat keeps_step. Qed.

Lemma keeps_python python env report : keeps (_python_profile o ROOT python env report).
Proof. unfold _python_profile. repeat keeps_step. Qed.

Lemma keeps_android gradle env scratch : keeps (_android_profile o ROOT gradle env scratch).
Proof. unfold _android_profile, produce, _hash_file. repeat keeps_step. Qed.

Lemma keeps_registry environ env scratch : keeps (_registry_profile o ROOT environ env scratch).
Proof. unfold _registry_profile, _pinned_provider_path, _suite. repeat keeps_step. Qed.

#[local] Hint Resolve keeps_vectors keeps_python keeps_android keeps_registry : keeps.

Lemma keeps_run_acceptance args : keeps (run_acceptance o ROOT sys_executable args).
Proof. unfold run_acceptance, with_scratch, run_profile, gather, assemble, _commit. repeat keeps_step. Qed.
End Keeps.

(** * Writing the receipt *)

Section Exit.
Context (o : oracle) (ROOT sys_executable : pystr).

(** The file system of a process. *)
Definition disk (s : proc) : fs := w_fs (p_world s).

Lemma write_receipt_outcome receipt path s old r s' :
  settled (path_name path) old (disk s) -> write_receipt o receipt path s = (r, s') ->
  (exists evs, p_trace s' = p_trace s ++ evs) /\
  match r with
  | Valid _ => exists payload, receipt_payload receipt = Valid payload /\ live (disk s') (path_name path) = Some payload
  | _ => settled (path_name path) old (disk s')
  end.
Proof.
  intros Hs. unfold write_receipt, pbind at 1, lift at 1. destruct (receipt_payload receipt) as [payload|m|e];
    [|intros [= <- <-]; split; [exists []; by rewrite app_nil_r|done]..].
  unfold pbind at 1. destruct (keeps_demand o (Mkdir (receipt_directory path)) s) as [Hw (e1 & Ht)].
  destruct (demand o _ s) as [[u|m|e] s1]; cbn in Hw, Ht; [|intros [= <- <-]; split; [eauto|]; unfold disk; by rewrite Hw..].
  unfold pbind, io. cbv zeta. unfold disk in Hs. rewrite <-Hw in Hs.
  destruct (valid_name (path_name path)) eqn:Ev.
  - pose proof (wp_store_receipt (path_name path) old payload Ev _ Hs (p_world s1) eq_refl) as [Ho _].
    destruct (store_receipt (path_name path) payload (p_world s1)) as [r1 w'] eqn:E. cbn [fst snd] in Ho.
    destruct r1 as [[]|e]; [| |done]; cbn [fst snd negb]; unfold lift, pret; intros Er; injection Er as <- <-; (split; [by exists e1|]).
    + exists payload. split; [done|]. apply Ho.
    + exact Ho.
  - destruct (store_receipt_invalid (path_name path) payload (p_world s1) Ev) as [Hf Hne].
    destruct (store_receipt (path_name path) payload (p_world s1)) as [r1 w'] eqn:E. cbn [fst snd] in Hf, Hne.
    destruct r1 as [[]|e]; [done| |]; cbn [fst snd negb]; unfold lift, pret; intros Er; injection Er as <- <-; (split; [by exists e1|]); unfold disk; cbn; by rewrite Hf.
Qed.

Lemma profile_name_inj p q : profile_name p = profile_name q -> p = q.
Proof. by destruct p, q. Qed.

Lemma acceptable_profile p q created commit env suites artifacts :
  acceptable q (receipt_object p created commit env suites artifacts) -> q = p.
Proof.
  intros (d & cr & cm & en & su & si & ar & ai & ([= <-] & _) & _ & _ & Hp & _). unfold has in Hp. vm_compute in Hp.
  symmetry. apply profile_name_inj. vm_compute. congruence.
Qed.
End Exit.

(** A receipt of the selected profile with its evidence, and its file. *)
Definition issued (ROOT sys_executable : pystr) (args : arguments) (receipt : pyval) (evs : list event) (s' : proc) : Prop :=
  acceptable (selected_profile args) receipt /\ receipt_evidence ROOT sys_executable args receipt evs /\
  exists payload, receipt_payload receipt = Valid payload /\ live (disk s') (path_name (arg_receipt args)) = Some payload.

(** The part of [main] in its [try] block. *)
Lemma issue_outcome o ROOT sys_executable args s old r s' :
  settled (path_name (arg_receipt args)) old (disk s) ->
  (let? receipt := run_acceptance o ROOT sys_executable args in
   let? _ := write_receipt o receipt (arg_receipt args) in pret receipt) s = (r, s') ->
  match r with
  | Valid receipt => exists evs rest, p_trace s' = p_trace s ++ evs ++ rest /\ issued ROOT sys_executable args receipt evs s'
  | _ => settled (path_name (arg_receipt args)) old (disk s')
  end.
Proof.
  intros Hs. unfold pbind at 1. destruct (keeps_run_acceptance o ROOT sys_executable args s) as [Hw _].
  destruct (run_acceptance o ROOT sys_executable args s) as [[receipt|m|e] s1] eqn:E; cbn [fst snd] in Hw;
    [|intros [= <- <-]; unfold disk; by rewrite Hw..].
  destruct (run_acceptance_ends _ _ _ _ _ _ _ E) as (evs & Es1 & He & Hv). unfold disk in Hs. rewrite <-Hw in Hs.
  unfold pbind. destruct (write_receipt o receipt (arg_receipt args) s1) as [r2 s2] eqn:E2.
  destruct (write_receipt_outcome o receipt (arg_receipt args) s1 old r2 s2 Hs E2) as [(e2 & Ht) H2].
  destruct r2 as [u|m|e]; [|by intros [= <- <-]..]. intros [= <- <-]. exists evs, e2.
  split; [by rewrite Ht, Es1, app_assoc|]. split; [|done].
  apply validate_receipt_valid in Hv as [_ (q & Hq)]. pose proof He as (environ & evec & d & erun & python & platform & impl & now & out & suites & kotlin & vectors & _ & _ & _ & Er).
  rewrite Er in Hq |- *. pose proof (acceptable_profile _ _ _ _ _ _ _ Hq) as Eq. by rewrite Eq in Hq.
Qed.

(** Reading the receipt again changes nothing on disk. *)
Lemma hash_receipt_outcome path s r s' :
  valid_name (path_name path) = true -> hash_receipt path s = (r, s') ->
  disk s' = disk s /\ p_trace s' = p_trace s /\
  match r with Blocked m => m = py "required acceptance artifact is unreadable" | Raise _ => False | Valid _ => True end.
Proof.
  intros Hv. unfold hash_receipt, pbind, pattempt, io. cbv zeta.
  pose proof (wp_at_name (fun _ => True) (path_name path) (fun s => let* i := entry s (path_name path) in let* b := of_option OSError (fs_files s !! i) in Ok (b, s))
    (fun r s2 => s2 = disk s /\ match r with Err e => is_OSError e = true | _ => True end) (disk s) Hv) as H.
  destruct (H ltac:(done)) with (w := p_world s) as [[H1 H2] _]; [|done|].
  { unfold entry. destruct (fs_dir (disk s) !! path_name path) as [i|]; cbn; [|done]. by destruct (fs_files (disk s) !! i). }
  change (at_name (path_name path) _ (p_world s)) with (read_bytes (path_name path) (p_world s)) in H1, H2.
  destruct (read_bytes (path_name path) (p_world s)) as [[b|e] w']; cbn [fst snd] in *.
  - unfold pret. intros [= <- <-]. done.
  - rewrite H2. unfold lift. intros [= <- <-]. done.
Qed.

(** A path that may be written is the name of a file. *)
Lemma installed_valid o receipt path s u s' : write_receipt o receipt path s = (Valid u, s') -> valid_name (path_name path) = true.
Proof.
  unfold write_receipt, pbind, lift at 1. destruct (receipt_payload receipt); [|done..].
  destruct (demand o _ s) as [[]s1]; [|done..]. unfold io. cbv zeta.
  destruct (valid_name (path_name path)) eqn:Ev; [done|].
  destruct (store_receipt_invalid (path_name path) a (p_world s1) Ev) as [_ Hne].
  destruct (store_receipt (path_name path) a (p_world s1)) as [[[]|] w']; by cbn [fst snd negb] in *.
Qed.

(** C34. Exit status 0 of the acceptance command means that a receipt of the selected profile was
    issued with all its evidence and that its file holds the receipt's text; status 1 means that
    the file is what it was before.  There is no other status.  An exception that gets out leaves
    the file as it was, or with the text of a receipt that was issued, and a
    [ReceiptValidationError] gets out only when the installed receipt cannot be read again. *)
Theorem acceptance_exit o ROOT sys_executable args s old r s' :
  settled (path_name (arg_receipt args)) old (disk s) -> main o ROOT sys_executable args s = (r, s') ->
  let kept := settled (path_name (arg_receipt args)) old (disk s') in
  let done := exists receipt evs rest, p_trace s' = p_trace s ++ evs ++ rest /\ issued ROOT sys_executable args receipt evs s' in
  match r with
  | Valid code => code = 0 /\ done \/ code = 1 /\ kept
  | Blocked message => message = py "required acceptance artifact is unreadable" /\ done
  | Raise _ => kept \/ done
  end.
Proof.
  intros Hs Hmain kept done. unfold main, pbind at 1, pattempt at 1 in Hmain.
  destruct ((let? receipt := run_acceptance o ROOT sys_executable args in
    let? _ := write_receipt o receipt (arg_receipt args) in pret receipt) s) as [r1 s1] eqn:E1.
  pose proof (issue_outcome _ _ _ _ _ _ _ _ Hs E1) as H1. cbn [fst snd] in Hmain. destruct r1 as [receipt|m|e].
  - destruct H1 as (evs & rest & Ht & Hi).
    assert (disk s' = disk s1 -> (exists more, p_trace s' = p_trace s1 ++ more) -> done) as Hdone.
    { intros Hd (more & Hm). exists receipt, evs, (rest ++ more). split; [by rewrite Hm, Ht, <-!app_assoc|].
      destruct Hi as (Ha & He & payload & Hp & Hl). split; [done|]. split; [done|]. exists payload. by rewrite Hd. }
    assert (valid_name (path_name (arg_receipt args)) = true) as Hv.
    { unfold pbind in E1. destruct (run_acceptance o ROOT sys_executable args s) as [[]sa]; [|done..].
      destruct (write_receipt o a (arg_receipt args) sa) as [[]sb] eqn:E2; [|done..]. by eapply installed_valid. }
    unfold pbind at 1 in Hmain. destruct (hash_receipt (arg_receipt args) s1) as [rh s2] eqn:Eh.
    destruct (hash_receipt_outcome _ _ _ _ Hv Eh) as (Hd & Htr & Hrh). destruct rh as [digest|m|e]; [| |done].
    + match type of Hmain with pbind (demand o ?q) _ _ = _ => destruct (keeps_demand o q s2) as [Hw (more & Hm)];
        unfold pbind in Hmain; destruct (demand o q s2) as [rp s3] eqn:Ep end. cbn [snd] in Hw, Hm.
      assert (s3 = s') as -> by (unfold pret in Hmain; destruct rp; congruence).
      assert done as Hok. { apply Hdone; [unfold disk; rewrite Hw; exact Hd|]. rewrite Hm, Htr. eauto. }
      destruct rp as [u|m|e]; unfold pret in Hmain; injection Hmain as <-; [by left| |by right].
      exfalso. revert Ep. unfold demand, pbind, ask, lift. cbn. by destruct (o _ _ _).
    + injection Hmain as <- <-. split; [done|]. apply Hdone; [done|]. exists []. by rewrite app_nil_r.
  - unfold pbind in Hmain. match type of Hmain with context [demand o ?q s1] => destruct (keeps_demand o q s1) as [Hw _];
      destruct (demand o q s1) as [rp s3] eqn:Ep end. cbn [snd] in Hw.
    assert (s3 = s') as -> by (unfold pret in Hmain; destruct rp; congruence). assert kept as Hkept by (unfold kept, disk; by rewrite Hw).
    destruct rp as [u|m'|e]; unfold pret in Hmain; injection Hmain as <-; [by right| |by left].
    exfalso. revert Ep. unfold demand, pbind, ask, lift. cbn. by destruct (o _ _ _).
  - injection Hmain as <- <-. by left.
Qed.
