(* ===== verification/Harness.v ===== *)
(** Programs of the acceptance harnesses: scripts that start processes, read their output and
    clean up after them.

    Everything a script asks of its environment is a request with an arbitrary answer, given by
    an oracle that may look at all that happened before; requests and answers are kept as a
    trace.  A program also has a state of its own, the fields of the fixture object.  [Stuck] is
    the outcome of a loop whose bound was exceeded. *)

From S2P Require Import Prelude.

Open Scope Z_scope.

(** * Exceptions *)

(** The classes the handlers distinguish.  [HarnessError] is a [RuntimeError];
    [TimeoutError], [ProcessLookupError] and [PermissionError] are [OSError]s; [ValueError]
    includes decoding errors. *)
Inductive exc_class :=
  | RuntimeError | HarnessError | TimeoutError | TimeoutExpired | CalledProcessError
  | ProcessLookupError | PermissionError | ParseError | SystemExit
  | OS_Error | Value_Error | Type_Error | Attribute_Error
  | OtherError (n : Z).

#[global] Instance exc_class_eq_decision : EqDecision exc_class.
Proof. solve_decision. Defined.

(** An exception object: class, text and notes. *)
Record fault := Fault { f_class : exc_class; f_text : pystr; f_notes : list pystr }.

Definition add_note (e : fault) (note : pystr) : fault := Fault (f_class e) (f_text e) (f_notes e ++ [note]).

Definition is_OSError (c : exc_class) : bool := match c with OS_Error | TimeoutError | ProcessLookupError | PermissionError => true | _ => false end.
Definition is_RuntimeError (c : exc_class) : bool := match c with RuntimeError | HarnessError => true | _ => false end.
Definition is_ValueError (c : exc_class) : bool := match c with Value_Error => true | _ => false end.

Inductive outcome (A : Type) :=
  | Done (a : A)
  | Failed (e : fault)
  | Stuck.
Arguments Done {A} a.
Arguments Failed {A} e.
Arguments Stuck {A}.

(** [raise C(text)] *)
Definition error {A} (c : exc_class) (text : pystr) : outcome A := Failed (Fault c text []).

(** * Programs *)

Section Programs.
Context {request : Type -> Type} {state : Type}.

Inductive event :=
  | Event {R : Type} (q : request R) (a : R).

Record host := Host { h_trace : list event; h_state : state }.

Definition prog (A : Type) : Type := host -> outcome A * host.

Definition hret {A} (a : A) : prog A := fun s => (Done a, s).
Definition hlift {A} (m : outcome A) : prog A := fun s => (m, s).
Definition hbind {A B} (m : prog A) (k : A -> prog B) : prog B := fun s =>
  match m s with
  | (Done a, s') => k a s'
  | (Failed e, s') => (Failed e, s')
  | (Stuck, s') => (Stuck, s')
  end.

(** [try: m except: h] with the handler told what was raised. *)
Definition hcatch {A} (m : prog A) (h : fault -> prog A) : prog A := fun s =>
  match m s with (Failed e, s') => h e s' | r => r end.

(** [try: m except Exception as e: ...] with the outcome as a value. *)
Definition hattempt {A} (m : prog A) : prog (A + fault) := fun s =>
  match m s with
  | (Done a, s') => (Done (inl a), s')
  | (Failed e, s') => (Done (inr e), s')
  | (Stuck, s') => (Stuck, s')
  end.

Definition get_state : prog state := fun s => (Done (h_state s), s).
Definition update (f : state -> state) : prog unit := fun s => (Done tt, Host (h_trace s) (f (h_state s))).

Section Oracle.
Context (o : forall R, list event -> request R -> R).

Definition ask {R} (q : request R) : prog R := fun s =>
  let a := o R (h_trace s) q in (Done a, Host (h_trace s ++ [Event q a]) (h_state s)).

(** A call that may raise, its exceptions left to the caller. *)
Definition call {A} (q : request (A + fault)) : prog A := fun s =>
  match ask q s with
  | (Done (inl a), s') => (Done a, s')
  | (Done (inr e), s') => (Failed e, s')
  | (Failed e, s') => (Failed e, s')
  | (Stuck, s') => (Stuck, s')
  end.
End Oracle.

(** * Weakest preconditions *)

Definition hwp {A} (m : prog A) (Q : outcome A -> host -> Prop) (s : host) : Prop := Q (m s).1 (m s).2.

Lemma hwp_mono {A} (m : prog A) (Q R : outcome A -> host -> Prop) s :
  hwp m Q s -> (forall r s', Q r s' -> R r s') -> hwp m R s.
Proof. unfold hwp. auto. Qed.

Lemma hwp_ret {A} (a : A) (Q : outcome A -> host -> Prop) s : Q (Done a) s -> hwp (hret a) Q s.
Proof. done. Qed.

Lemma hwp_lift {A} (m : outcome A) (Q : outcome A -> host -> Prop) s : Q m s -> hwp (hlift m) Q s.
Proof. done. Qed.

Lemma hwp_bind {A B} (m : prog A) (k : A -> prog B) (Q : outcome B -> host -> Prop) s :
  hwp m (fun r s' => match r with Done a => hwp (k a) Q s' | Failed e => Q (Failed e) s' | Stuck => Q Stuck s' end) s ->
  hwp (hbind m k) Q s.
Proof. unfold hwp, hbind. destruct (m s) as [[a|e|] s']; auto. Qed.

Lemma hwp_catch {A} (m : prog A) (h : fault -> prog A) (Q : outcome A -> host -> Prop) s :
  hwp m (fun r s' => match r with Failed e => hwp (h e) Q s' | _ => Q r s' end) s -> hwp (hcatch m h) Q s.
Proof. unfold hwp, hcatch. destruct (m s) as [[a|e|] s']; auto. Qed.

Lemma hwp_attempt {A} (m : prog A) (Q : outcome (A + fault) -> host -> Prop) s :
  hwp m (fun r s' => match r with Done a => Q (Done (inl a)) s' | Failed e => Q (Done (inr e)) s' | Stuck => Q Stuck s' end) s ->
  hwp (hattempt m) Q s.
Proof. unfold hwp, hattempt. destruct (m s) as [[a|e|] s']; auto. Qed.

Lemma hwp_get (Q : outcome state -> host -> Prop) s : Q (Done (h_state s)) s -> hwp get_state Q s.
Proof. done. Qed.

Lemma hwp_update f (Q : outcome unit -> host -> Prop) s : Q (Done tt) (Host (h_trace s) (f (h_state s))) -> hwp (update f) Q s.
Proof. done. Qed.

Lemma hwp_ask o {R} (q : request R) (Q : outcome R -> host -> Prop) s :
  (forall a, a = o R (h_trace s) q -> Q (Done a) (Host (h_trace s ++ [Event q a]) (h_state s))) -> hwp (ask o q) Q s.
Proof. intros HQ. by apply HQ. Qed.

Lemma hwp_call o {A} (q : request (A + fault)) (Q : outcome A -> host -> Prop) s :
  (forall a, Q (Done a) (Host (h_trace s ++ [Event q (inl a)]) (h_state s))) ->
  (forall e, Q (Failed e) (Host (h_trace s ++ [Event q (inr e)]) (h_state s))) ->
  hwp (call o q) Q s.
Proof. intros Hd Hf. unfold hwp, call. simpl. destruct (o _ _ _); simpl; auto. Qed.

(** * Traces that obey a rule *)

(** Every event of the trace obeys the rule in what came before it. *)
Definition obeys (rule : list event -> event -> Prop) (tr : list event) : Prop :=
  forall pre e post, tr = pre ++ e :: post -> rule pre e.

Lemma list_snoc_cases {A} (l : list A) : l = [] \/ exists p x, l = p ++ [x].
Proof. induction l as [|x p _] using rev_ind; [by left|right; eauto]. Qed.

Lemma obeys_nil rule : obeys rule [].
Proof. intros pre e post E. by destruct pre. Qed.

Lemma obeys_snoc rule tr e : obeys rule tr -> rule tr e -> obeys rule (tr ++ [e]).
Proof.
  intros Htr He pre e' post E. destruct (list_snoc_cases post) as [->|(p & x & ->)].
  - by apply app_inj_tail in E as [-> ->].
  - rewrite app_comm_cons, app_assoc in E. apply app_inj_tail in E as [-> _]. by eapply Htr.
Qed.

(** * Programs that only ask *)

(** Whatever happens, a plain program obeys the rule, extends the trace, and leaves the part of
    the state that [view] shows alone; it is stuck only if [short] holds. *)
Section Plain.
Context (rule : list event -> event -> Prop) {T : Type} (view : state -> T) (short : Prop).

Definition kept (s s' : host) : Prop :=
  obeys rule (h_trace s') /\ (exists evs, h_trace s' = h_trace s ++ evs) /\ view (h_state s') = view (h_state s).

Definition plain {A} (m : prog A) : Prop :=
  forall s, obeys rule (h_trace s) -> hwp m (fun r s' => kept s s' /\ (r = Stuck -> short)) s.

Lemma kept_here s : obeys rule (h_trace s) -> kept s s.
Proof. intros Ho. split_and!; [done|exists []; by rewrite app_nil_r|done]. Qed.

Lemma kept_compose s s' s'' : kept s s' -> kept s' s'' -> kept s s''.
Proof.
  intros (_ & (e1 & E1) & V1) (Ho & (e2 & E2) & V2). split_and!; [done|exists (e1 ++ e2); by rewrite E2, E1, app_assoc|congruence].
Qed.

Lemma kept_log {R} s (q : request R) (a : R) :
  obeys rule (h_trace s) -> rule (h_trace s) (Event q a) -> kept s (Host (h_trace s ++ [Event q a]) (h_state s)).
Proof. intros Ho Hr. split_and!; [by apply obeys_snoc|by eexists|done]. Qed.

Lemma plain_ret {A} (a : A) : plain (hret a).
Proof. intros s Ho. split; [by apply kept_here|done]. Qed.

Lemma plain_lift {A} (m : outcome A) : m <> Stuck -> plain (hlift m).
Proof. intros Hm s Ho. split; [by apply kept_here|done]. Qed.

Lemma plain_get : plain get_state.
Proof. intros s Ho. split; [by apply kept_here|done]. Qed.

Lemma plain_update f : (forall x, view (f x) = view x) -> plain (update f).
Proof. intros Hf s Ho. split; [split_and!; [done|exists []; by rewrite app_nil_r|apply Hf]|done]. Qed.

Lemma plain_seq {A B} (m : prog A) (k : A -> prog B) : plain m -> (forall a, plain (k a)) -> plain (hbind m k).
Proof.
  intros Hm Hk s Ho. apply hwp_bind. eapply hwp_mono; [by apply Hm|]. intros [a|e|] s' [H1 Hs]; [|by split|split; [done|by auto]].
  eapply hwp_mono; [apply Hk, H1|]. intros r s'' [H2 Hs']. split; [by eapply kept_compose|done].
Qed.

Lemma plain_catch {A} (m : prog A) (h : fault -> prog A) : plain m -> (forall e, plain (h e)) -> plain (hcatch m h).
Proof.
  intros Hm Hh s Ho. apply hwp_catch. eapply hwp_mono; [by apply Hm|]. intros [a|e|] s' [H1 Hs]; [by split| |split; [done|by auto]].
  eapply hwp_mono; [apply Hh, H1|]. intros r s'' [H2 Hs']. split; [by eapply kept_compose|done].
Qed.

Lemma plain_attempt {A} (m : prog A) : plain m -> plain (hattempt m).
Proof.
  intros Hm s Ho. apply hwp_attempt. eapply hwp_mono; [by apply Hm|]. intros [a|e|] s' [H1 Hs]; [by split|by split|split; [done|by auto]].
Qed.

(** A value known in advance. *)
Lemma plain_done {A B} (a : A) (k : A -> prog B) : plain (k a) -> plain (hbind (hlift (Done a)) k).
Proof. done. Qed.

Lemma plain_raise {A B} e (k : A -> prog B) : plain (hbind (hlift (Failed e)) k).
Proof. intros s Ho. split; [by apply kept_here|done]. Qed.

(** Go on after a plain part. *)
Lemma plain_then {A B} (m : prog A) (k : A -> prog B) (Q : outcome B -> host -> Prop) s0 s :
  kept s0 s -> plain m -> ~ short -> (forall a s', kept s0 s' -> kept s s' -> hwp (k a) Q s') -> (forall e s', kept s0 s' -> Q (Failed e) s') ->
  hwp (hbind m k) Q s.
Proof.
  intros H0 Hm Hs Hk He. apply hwp_bind. eapply hwp_mono; [apply Hm, H0|]. intros [a|e|] s' [H1 Hst].
  - apply Hk; [by eapply kept_compose|done].
  - apply He. by eapply kept_compose.
  - by destruct Hs; apply Hst.
Qed.

(** A request without conditions. *)
Definition free {R} (q : request R) : Prop := forall tr a, rule tr (Event q a).

Lemma plain_ask o {R} (q : request R) : free q -> plain (ask o q).
Proof. intros Hq s Ho. apply hwp_ask. intros a _. split; [by apply kept_log|done]. Qed.

Lemma plain_call o {A} (q : request (A + fault)) : free q -> plain (call o q).
Proof. intros Hq s Ho. apply hwp_call; [intros a|intros e]; (split; [by apply kept_log|done]). Qed.
End Plain.

(** A plain program stays plain for a view of less. *)
Lemma plain_weaken rule {T U A} (view : state -> T) (view' : state -> U) short (m : prog A) (f : T -> U) :
  (forall x, view' x = f (view x)) -> plain rule view short m -> plain rule view' short m.
Proof.
  intros Hf Hm s Ho. eapply hwp_mono; [by apply Hm|]. intros r s' [(H1 & H2 & H3) Hs].
  split; [|done]. split_and!; [done|done|]. by rewrite !Hf, H3.
Qed.

Lemma plain_short rule {T A} (view : state -> T) (short short' : Prop) (m : prog A) :
  (short -> short') -> plain rule view short m -> plain rule view short' m.
Proof. intros Hs Hm s Ho. eapply hwp_mono; [by apply Hm|]. intros r s' [H1 H2]. split; [done|auto]. Qed.

(** * Runs that return *)

(** A run of [m] from the state [h] that returns adds events and ends in a state that satisfy [Q]. *)
Definition yields {A} (h : state) (m : prog A) (Q : A -> list event -> state -> Prop) : Prop :=
  forall tr a s', m (Host tr h) = (Done a, s') -> exists evs, h_trace s' = tr ++ evs /\ Q a evs (h_state s').

Lemma yields_mono {A} h (m : prog A) (Q R : A -> list event -> state -> Prop) :
  yields h m Q -> (forall a e h', Q a e h' -> R a e h') -> yields h m R.
Proof. intros Hm HQ tr a s' E. destruct (Hm tr a s' E) as (e & Ee & Hq). eauto. Qed.

Lemma yields_ret {A} h (a : A) (Q : A -> list event -> state -> Prop) : Q a [] h -> yields h (hret a) Q.
Proof. intros HQ tr a' s' [= <- <-]. exists []. by rewrite app_nil_r. Qed.

Lemma yields_lift {A} h (m : outcome A) (Q : A -> list event -> state -> Prop) : (forall a, m = Done a -> Q a [] h) -> yields h (hlift m) Q.
Proof. intros HQ tr a' s' [= E <-]. exists []. rewrite app_nil_r. auto. Qed.

Lemma yields_get h (Q : state -> list event -> state -> Prop) : Q h [] h -> yields h get_state Q.
Proof. intros HQ tr a' s' [= <- <-]. exists []. by rewrite app_nil_r. Qed.

Lemma yields_update h f (Q : unit -> list event -> state -> Prop) : Q tt [] (f h) -> yields h (update f) Q.
Proof. intros HQ tr [] s' [= <-]. exists []. by rewrite app_nil_r. Qed.

Lemma yields_bind {A B} h (m : prog A) (k : A -> prog B) (Q1 : A -> list event -> state -> Prop) (Q : B -> list event -> state -> Prop) :
  yields h m Q1 -> (forall a e1 h1, Q1 a e1 h1 -> yields h1 (k a) (fun b e2 h2 => Q b (e1 ++ e2) h2)) -> yields h (hbind m k) Q.
Proof.
  intros Hm Hk tr b s' E. unfold hbind in E. destruct (m (Host tr h)) as [[a|e|] [tr1 h1]] eqn:E1; try discriminate.
  destruct (Hm _ _ _ E1) as (e1 & Et & H1). simpl in Et. subst tr1. destruct (Hk a e1 h1 H1 _ _ _ E) as (e2 & Et2 & H2).
  exists (e1 ++ e2). by rewrite app_assoc.
Qed.

Lemma yields_fail {A} h e (Q : A -> list event -> state -> Prop) : yields h (hlift (Failed e)) Q.
Proof. by intros tr a s' [=]. Qed.

Lemma yields_stop {A} h (c : bool) e (m : prog A) (Q : A -> list event -> state -> Prop) :
  (c = false -> yields h m Q) -> yields h (if c then hlift (Failed e) else m) Q.
Proof. destruct c; intros Hm; [apply yields_fail|auto]. Qed.

Lemma yields_ask h o {R} (q : request R) (Q : R -> list event -> state -> Prop) :
  (forall a, Q a [Event q a] h) -> yields h (ask o q) Q.
Proof. intros HQ tr a s' [= <- <-]. simpl. eauto. Qed.

Lemma yields_call h o {A} (q : request (A + fault)) (Q : A -> list event -> state -> Prop) :
  (forall a, Q a [Event q (inl a)] h) -> yields h (call o q) Q.
Proof. intros HQ tr a s' E. unfold call in E. simpl in E. destruct (o _ _ _); [|done]. injection E as <- <-. simpl. eauto. Qed.

(** A program that never returns a value. *)
Definition never {A} (m : prog A) : Prop := forall s a s', m s <> (Done a, s').

Lemma never_lift {A} e : never (hlift (@Failed A e)).
Proof. by intros s a s' [=]. Qed.

Lemma never_bind {A B} (m : prog A) (k : A -> prog B) : (forall a, never (k a)) -> never (hbind m k).
Proof. intros Hk s b s' E. unfold hbind in E. destruct (m s) as [[a|e|] s1]; [by apply Hk in E|done..]. Qed.

Lemma never_lift_then {A B} (m : outcome A) (k : A -> prog B) : (forall a, m = Done a -> never (k a)) -> never (hbind (hlift m) k).
Proof. intros Hk s b s' E. unfold hbind, hlift in E. destruct m as [a| |]; [by apply Hk in E|done..]. Qed.

(** [try: m except E as e: raise ...], and a [finally] that raises again. *)
Lemma yields_catch {A} h (m : prog A) (k : fault -> prog A) (Q : A -> list event -> state -> Prop) :
  yields h m Q -> (forall e, never (k e)) -> yields h (hcatch m k) Q.
Proof.
  intros Hm Hk tr a s' E. unfold hcatch in E. destruct (m (Host tr h)) as [[a'|e|] s1] eqn:E1.
  - injection E as <- <-. by apply Hm.
  - by apply Hk in E.
  - done.
Qed.

Lemma yields_attempt {A B} h (m : prog A) (k : A + fault -> prog B) (Q1 : A -> list event -> state -> Prop) (Q : B -> list event -> state -> Prop) :
  yields h m Q1 -> (forall a e1 h1, Q1 a e1 h1 -> yields h1 (k (inl a)) (fun b e2 h2 => Q b (e1 ++ e2) h2)) ->
  (forall e, never (k (inr e))) -> yields h (hbind (hattempt m) k) Q.
Proof.
  intros Hm Hk Hn tr b s' E. unfold hbind, hattempt in E. destruct (m (Host tr h)) as [[a|e|] [tr1 h1]] eqn:E1; [|by apply Hn in E|done].
  destruct (Hm _ _ _ E1) as (e1 & Et & H1). simpl in Et. subst tr1. destruct (Hk a e1 h1 H1 _ _ _ E) as (e2 & Et2 & H2).
  exists (e1 ++ e2). by rewrite app_assoc.
Qed.

Lemma yields_and {A} h (m : prog A) (Q R : A -> list event -> state -> Prop) :
  yields h m Q -> yields h m R -> yields h m (fun a e h' => Q a e h' /\ R a e h').
Proof.
  intros H1 H2 tr a s' E. destruct (H1 tr a s' E) as (e1 & E1 & HQ), (H2 tr a s' E) as (e2 & E2 & HR). exists e1. rewrite E1 in E2.
  apply app_inv_head in E2 as <-. auto.
Qed.

(** What a run keeps, from a specification of all its outcomes. *)
Lemma yields_hwp {T A} rule (view : state -> T) h (m : prog A) (short : Prop) :
  (forall tr e, rule tr e) -> (forall tr, hwp m (fun r s' => kept rule view (Host tr h) s' /\ (r = Stuck -> short)) (Host tr h)) ->
  yields h m (fun _ _ h' => view h' = view h).
Proof.
  intros Hall Hm tr a s' E. pose proof (Hm tr) as Hw. unfold hwp in Hw. rewrite E in Hw.
  destruct Hw as [(_ & (evs & Ee) & Hv) _]. simpl in *. eauto.
Qed.

(** Plain programs return with the view they were given. *)
Lemma yields_plain {T A} rule (view : state -> T) short h (m : prog A) :
  (forall tr e, rule tr e) -> plain rule view short m -> yields h m (fun _ _ h' => view h' = view h).
Proof. intros Hall Hm. eapply yields_hwp; [done|]. intros tr. apply Hm. by intros pre e post _. Qed.

(** Step by step. *)
Lemma yields_ask_then {A R} h o (q : request R) (k : R -> prog A) (Q : A -> list event -> state -> Prop) :
  (forall a, yields h (k a) (fun b e h' => Q b (Event q a :: e) h')) -> yields h (hbind (ask o q) k) Q.
Proof. intros Hk. eapply yields_bind; [apply (yields_ask _ _ _ (fun a e h' => e = [Event q a] /\ h' = h)); by intros|]. intros a e h1 [-> ->]. apply Hk. Qed.

Lemma yields_call_then {A R} h o (q : request (R + fault)) (k : R -> prog A) (Q : A -> list event -> state -> Prop) :
  (forall a, yields h (k a) (fun b e h' => Q b (Event q (inl a) :: e) h')) -> yields h (hbind (call o q) k) Q.
Proof. intros Hk. eapply yields_bind; [apply (yields_call _ _ _ (fun a e h' => e = [Event q (inl a)] /\ h' = h)); by intros|]. intros a e h1 [-> ->]. apply Hk. Qed.

Lemma yields_get_then {A} h (k : state -> prog A) (Q : A -> list event -> state -> Prop) : yields h (k h) Q -> yields h (hbind get_state k) Q.
Proof. intros Hk tr a s' E. by apply (Hk tr a s'). Qed.

Lemma yields_update_then {A} h f (k : unit -> prog A) (Q : A -> list event -> state -> Prop) : yields (f h) (k tt) Q -> yields h (hbind (update f) k) Q.
Proof. intros Hk tr a s' E. by apply (Hk tr a s'). Qed.

Lemma yields_lift_then {A B} h (m : outcome A) (k : A -> prog B) (Q : B -> list event -> state -> Prop) :
  (forall a, m = Done a -> yields h (k a) Q) -> yields h (hbind (hlift m) k) Q.
Proof. intros Hk tr b s' E. unfold hbind, hlift in E. destruct m as [a| |]; [|done..]. by apply (Hk a eq_refl tr b s'). Qed.

Lemma yields_ret_then {A B} h (a : A) (k : A -> prog B) (Q : B -> list event -> state -> Prop) : yields h (k a) Q -> yields h (hbind (hret a) k) Q.
Proof. intros Hk tr b s' E. by apply (Hk tr b s'). Qed.

Lemma yields_assoc {A B C} h (m : prog A) (k : A -> prog B) (j : B -> prog C) (Q : C -> list event -> state -> Prop) :
  yields h (hbind m (fun a => hbind (k a) j)) Q -> yields h (hbind (hbind m k) j) Q.
Proof. intros Hk tr c s' E. apply (Hk tr c s'). rewrite <-E. unfold hbind. by destruct (m _) as [[a|e|] s1]. Qed.

(** [try: call except E: k] where [k] may go on. *)
Lemma yields_try {A R} h o (q : request (R + fault)) (m : R -> prog A) (k : fault -> prog A) (Q : A -> list event -> state -> Prop) :
  (forall a s r s', m a s = (r, s') -> exists b, r = Done b /\ s' = s) ->
  (forall a, yields h (m a) (fun b e h' => Q b (Event q (inl a) :: e) h')) ->
  (forall f, yields h (k f) (fun b e h' => Q b (Event q (inr f) :: e) h')) ->
  yields h (hcatch (hbind (call o q) m) k) Q.
Proof.
  intros Hm Hd Hf tr b s' E. unfold hcatch, hbind, call in E. simpl in E. destruct (o _ _ q) as [a|f].
  - destruct (m a _) as [r s1] eqn:Em. destruct (Hm _ _ _ _ Em) as (b' & -> & _). injection E as -> ->.
    destruct (Hd a _ _ _ Em) as (e & Ee & HQ). simpl in Ee. rewrite <-app_assoc in Ee. eauto.
  - destruct (Hf f _ _ _ E) as (e & Ee & HQ). simpl in Ee. rewrite <-app_assoc in Ee. eauto.
Qed.

(** A part that asks and leaves the state alone. *)
Lemma yields_skip {A B} rule short h (m : prog A) (k : A -> prog B) (Q : B -> list event -> state -> Prop) :
  (forall tr e, rule tr e) -> plain rule (fun x => x) short m ->
  (forall a e1, yields h (k a) (fun b e h' => Q b (e1 ++ e) h')) -> yields h (hbind m k) Q.
Proof. intros Hall Hm Hk. eapply yields_bind; [by eapply yields_plain|]. intros a e h1 ->. apply Hk. Qed.

End Programs.

(** * Loops with a deadline *)

(** A loop that read [last] on its clock and has used up [n] more rounds before its deadline:
    its clock moves too slowly for that many rounds. *)
Definition late (advances : Z -> Prop) (n : nat) (last deadline : Z) : Prop :=
  forall tick, advances tick -> n = O \/ last + Z.of_nat n * tick < deadline.

Lemma late_step (advances : Z -> Prop) n last now deadline :
  (forall tick, advances tick -> last + tick <= now) -> now < deadline -> late advances n now deadline -> late advances (S n) last deadline.
Proof.
  intros Hl Hn Hlate tick Ht. right. specialize (Hl tick Ht). destruct (Hlate tick Ht) as [-> |Hlt]; [simpl; lia|].
  rewrite Nat2Z.inj_succ. lia.
Qed.

Arguments event request : clear implicits.
Arguments host request state : clear implicits.
Arguments prog request state A : clear implicits.

Abbreviation oracle request := (forall R, list (event request) -> request R -> R).

Declare Scope harness_scope.
Delimit Scope harness_scope with harness.
Notation "'do' x <- m ; k" := (hbind m (fun x => k))
  (at level 10, x pattern, m at level 100, k at level 200) : harness_scope.
Notation "'raise_when' c 'as' e ; k" := (if c then hlift e else k)
  (at level 10, c at level 100, e at level 99, k at level 200) : harness_scope.
