(* ===== verification/PyPath.v ===== *)
(** Text, pure paths and IPv4 addresses as the harnesses use them: [str.split], [splitlines],
    [rstrip] and [partition], [pathlib.PurePosixPath], and [ipaddress.IPv4Address], as CPython
    3.12 implements them. *)

From S2P Require Import Prelude Json Regex.

Open Scope Z_scope.

(** * Text *)

(** [str(z)] of an [int] within the interpreter's limit on digits. *)
Definition int_str (z : Z) : pystr := default [] (int_repr z).

(** [repr(s)] of a text without quotes, backslashes and unprintable characters. *)
Definition str_repr (s : pystr) : pystr := [39] ++ s ++ [39].

(** [str(l)] of a list of such texts. *)
Definition list_repr (l : list pystr) : pystr :=
  py "[" ++ match l with [] => [] | x :: l' => str_repr x ++ (l' ≫= fun y => py ", " ++ str_repr y) end ++ py "]".

(** [sep.join(l)] *)
Definition join_text (sep : pystr) (l : list pystr) : pystr :=
  match l with [] => [] | x :: l' => x ++ (l' ≫= fun y => sep ++ y) end.

(** [s.split(c)] *)
Fixpoint split_on (c : Z) (s : pystr) : list pystr :=
  match s with
  | [] => [[]]
  | x :: s' =>
      if x =? c then [] :: split_on c s'
      else match split_on c s' with p :: ps => (x :: p) :: ps | [] => [[x]] end
  end.

(** [chr(c).join(parts)] *)
Fixpoint join_with (c : Z) (parts : list pystr) : pystr :=
  match parts with
  | [] => []
  | [p] => p
  | p :: ps => p ++ [c] ++ join_with c ps
  end.

(** Line boundaries of [str.splitlines]. *)
Definition is_break (c : Z) : bool := in_class [(10, 13); (28, 30); (133, 133); (8232, 8233)] c.

(** [s.splitlines()]; a carriage return with a line feed is one boundary. *)
Fixpoint lines_from (current s : pystr) : list pystr :=
  match s with
  | [] => if bool_decide (current = []) then [] else [current]
  | c :: s' =>
      if is_break c then
        match s' with
        | 10 :: s'' => if c =? 13 then current :: lines_from [] s'' else current :: lines_from [] s'
        | _ => current :: lines_from [] s'
        end
      else lines_from (current ++ [c]) s'
  end.
Definition splitlines (s : pystr) : list pystr := lines_from [] s.

(** [s.rstrip(chars)] *)
Fixpoint drop_chars (chars : list Z) (s : pystr) : pystr :=
  match s with
  | c :: s' => if bool_decide (c ∈ chars) then drop_chars chars s' else s
  | [] => []
  end.
Definition rstrip (chars : list Z) (s : pystr) : pystr := rev (drop_chars chars (rev s)).

(** [s.split()] *)
Fixpoint words_from (current s : pystr) : list pystr :=
  match s with
  | [] => if bool_decide (current = []) then [] else [current]
  | c :: s' =>
      if is_white c then (if bool_decide (current = []) then words_from [] s' else current :: words_from [] s')
      else words_from (current ++ [c]) s'
  end.
Definition words (s : pystr) : list pystr := words_from [] s.

(** [s.partition(sep)]: the text before, whether [sep] occurs, and the text after. *)
Definition partition (sep s : pystr) : pystr * bool * pystr :=
  match cut sep s with Some (a, b) => (a, true, b) | None => (s, false, []) end.

Lemma split_on_cons c s : exists p ps, split_on c s = p :: ps.
Proof. destruct s as [|x s]; simpl; [eauto|]. destruct (x =? c); [eauto|]. destruct (split_on c s); eauto. Qed.

Lemma join_split c s : join_with c (split_on c s) = s.
Proof.
  induction s as [|x s IH]; [done|]. simpl. destruct (split_on_cons c s) as (p & ps & E). rewrite E in IH |- *.
  destruct (Z.eqb_spec x c) as [->|Hne].
  - simpl in *. by rewrite IH.
  - destruct ps; simpl in *; by rewrite IH.
Qed.

Lemma split_on_parts c s : Forall (fun p => c ∉ p) (split_on c s).
Proof.
  induction s as [|x s IH]; simpl; [constructor; [apply not_elem_of_nil|constructor]|].
  destruct (Z.eqb_spec x c) as [->|Hne]; [constructor; [apply not_elem_of_nil|done]|].
  destruct (split_on c s) as [|p ps]; [constructor; [|done]; set_solver|].
  apply Forall_cons in IH as [? ?]. constructor; [set_solver|done].
Qed.

Lemma split_join c parts : parts <> [] -> Forall (fun p => c ∉ p) parts -> split_on c (join_with c parts) = parts.
Proof.
  assert (forall p, c ∉ p -> split_on c p = [p]) as Hone.
  { intros p. induction p as [|x p IH]; [done|]. intros Hp. simpl. destruct (Z.eqb_spec x c); [set_solver|]. rewrite IH; [done|set_solver]. }
  assert (forall p s, c ∉ p -> split_on c (p ++ c :: s) = p :: split_on c s) as Happ.
  { intros p s. induction p as [|x p IH]; intros Hp; simpl; [by rewrite Z.eqb_refl|].
    destruct (Z.eqb_spec x c); [set_solver|]. rewrite IH; [done|set_solver]. }
  induction parts as [|p [|q ps] IH]; [done|intros _ [Hp _]%Forall_cons; by apply Hone|].
  intros _ [Hp Hps]%Forall_cons. change (join_with c (p :: q :: ps)) with (p ++ c :: join_with c (q :: ps)).
  rewrite Happ by done. by rewrite IH.
Qed.

(** * Paths *)

(** [PurePosixPath]: the root ([""], ["/"] or ["//"]) and the names. *)
Record path := MkPath { p_root : pystr; p_tail : list pystr }.

#[global] Instance path_eq_decision : EqDecision path.
Proof. solve_decision. Defined.

Definition sep : Z := 47.

(** [posixpath.splitroot] *)
Definition splitroot (s : pystr) : pystr * pystr :=
  match s with
  | 47 :: 47 :: 47 :: _ => ([47], tail s)
  | 47 :: 47 :: rel => ([47; 47], rel)
  | 47 :: rel => ([47], rel)
  | _ => ([], s)
  end.

Definition is_name (x : pystr) : bool := negb (bool_decide (x = [])) && negb (bool_decide (x = [46])).

Definition Path (s : pystr) : path :=
  let r := splitroot s in MkPath r.1 (base.filter (fun x => is_name x = true) (split_on sep r.2)).

Definition path_str (p : path) : pystr :=
  let s := p_root p ++ join_with sep (p_tail p) in if bool_decide (s = []) then [46] else s.

(** [p / name] for one name. *)
Definition child (p : path) (name : pystr) : path := MkPath (p_root p) (p_tail p ++ [name]).

Definition is_absolute (p : path) : bool := negb (bool_decide (p_root p = [])).
Definition path_name (p : path) : pystr := default [] (last (p_tail p)).
Definition parent (p : path) : path := MkPath (p_root p) (take (pred (length (p_tail p))) (p_tail p)).
Definition parts (p : path) : list pystr := (if is_absolute p then [p_root p] else []) ++ p_tail p.

(** [q in p.parents] *)
Definition in_parents (q p : path) : bool :=
  existsb (fun n => bool_decide (q = MkPath (p_root p) (take n (p_tail p)))) (seq 0 (length (p_tail p))).

(** A name that a path keeps. *)
Definition plain_name (x : pystr) : Prop := is_name x = true /\ sep ∉ x.

(** A path that has been parsed: one of the three roots, and names. *)
Definition normal (p : path) : Prop :=
  (p_root p = [] \/ p_root p = [47] \/ p_root p = [47; 47]) /\ Forall plain_name (p_tail p).

Lemma Path_normal s : normal (Path s).
Proof.
  unfold Path, normal. simpl. split.
  - unfold splitroot. repeat case_match; simpl; auto.
  - apply Forall_forall. intros x [Hx Hin]%list_elem_of_filter. split; [done|].
    exact (proj1 (Forall_forall _ _) (split_on_parts sep _) x Hin).
Qed.

Lemma child_normal p x : normal p -> plain_name x -> normal (child p x).
Proof. intros [Hr Ht] Hx. split; [done|]. simpl. apply Forall_app_2; [done|]. constructor; [done|constructor]. Qed.

Lemma names_filter l : Forall plain_name l -> base.filter (fun x => is_name x = true) l = l.
Proof.
  induction 1 as [|x l [Hx _] _ IH]; [done|]. rewrite filter_cons_True by done. by f_equal.
Qed.

Lemma join_head l : Forall plain_name l -> l <> [] -> exists c s, join_with sep l = c :: s /\ c <> 47.
Proof.
  intros [|x l' [Hx Hs] _]; [done|]. intros _. destruct x as [|c x]; [done|].
  exists c. destruct l'; eexists; (split; [reflexivity|]); unfold sep in Hs; set_solver.
Qed.

Lemma splitroot_root r l :
  r = [47] \/ r = [47; 47] -> Forall plain_name l -> splitroot (r ++ join_with sep l) = (r, join_with sep l).
Proof.
  intros Hr Hl. destruct l as [|x l']; [by destruct Hr as [-> | ->]|].
  destruct (join_head _ Hl) as (c & s & -> & Hc); [done|].
  destruct Hr as [-> | ->]; simpl; repeat (case_match; try done; try congruence).
Qed.

(** An absolute path is its text. *)
Lemma Path_str p : normal p -> is_absolute p = true -> Path (path_str p) = p.
Proof.
  destruct p as [r l]. intros [Hr Hl] Ha. unfold is_absolute in Ha. simpl in *. bool_hyps.
  assert (r = [47] \/ r = [47; 47]) as Hr' by tauto.
  unfold path_str, Path. simpl. rewrite bool_decide_eq_false_2 by (destruct Hr' as [-> | ->]; done).
  rewrite (splitroot_root r l) by done. simpl. f_equal. destruct l as [|x l']; [done|].
  rewrite split_join; [by apply names_filter|done|].
  eapply Forall_impl; [exact Hl|]. by intros y [_ Hy].
Qed.

(** * IPv4 addresses *)

(** [ipaddress._parse_octet], [None] for [ValueError]. *)
Definition parse_octet (s : pystr) : option Z :=
  if negb (fullmatch (RPlus (RClass cls_digit)) s) then None
  else if (3 <? length s)%nat then None
  else if negb (bool_decide (s = [48])) && bool_decide (head s = Some 48) then None
  else let n := digits_value s in if 255 <? n then None else Some n.

(** [int(ipaddress.IPv4Address(s))], [None] for [AddressValueError]. *)
Definition IPv4Address (s : pystr) : option Z :=
  match parse_octet <$> split_on 46 s with
  | [Some a; Some b; Some c; Some d] => Some (((a * 256 + b) * 256 + c) * 256 + d)
  | _ => None
  end.

(** [str(address)] *)
Definition octet (n : Z) (i : Z) : Z := Z.land (Z.shiftr n (8 * i)) 255.
Definition ipv4_str (n : Z) : pystr :=
  join_with 46 ((fun i => digit_char <$> decimal (octet n i)) <$> [3; 2; 1; 0]).

(** [address in network] for a network of [prefix] bits. *)
Definition in_network (network : Z) (prefix : Z) (address : Z) : bool :=
  Z.land address (Z.shiftl (Z.ones prefix) (32 - prefix)) =? network.

Definition digit_codes : list Z := [48; 49; 50; 51; 52; 53; 54; 55; 56; 57].

(** Octets of at most three digits, all of them. *)
Definition octet_texts : list pystr :=
  ((fun a => [a]) <$> digit_codes) ++
  (a ← digit_codes; (fun b => [a; b]) <$> digit_codes) ++
  (a ← digit_codes; b ← digit_codes; (fun c => [a; b; c]) <$> digit_codes).

Definition octet_agrees (s : pystr) : bool :=
  match parse_octet s with
  | Some n => bool_decide (digit_char <$> decimal n = s) && (0 <=? n) && (n <=? 255)
  | None => true
  end.

Lemma octets_agree : forallb octet_agrees octet_texts = true.
Proof. vm_compute. reflexivity. Qed.

Lemma digit_code c : in_class cls_digit c = true -> c ∈ digit_codes.
Proof.
  unfold in_class, cls_digit. simpl. rewrite orb_false_r, andb_true_iff, !Z.leb_le. intros Hc.
  unfold digit_codes. rewrite !elem_of_cons, elem_of_nil. lia.
Qed.

Lemma octet_text s n : parse_octet s = Some n -> s ∈ octet_texts.
Proof.
  unfold parse_octet. destruct (fullmatch _ s) eqn:Em; [|done]. simpl. apply rep_class in Em as (Hlo & _ & Hf).
  destruct (Nat.ltb_spec 3 (length s)); [done|]. intros _.
  assert (Forall (fun c => c ∈ digit_codes) s) as Hd by (eapply Forall_impl; [exact Hf|]; apply digit_code).
  unfold octet_texts. rewrite !elem_of_app.
  destruct s as [|a [|b [|c [|d s]]]]; cbn [length] in *; try lia; rewrite ?Forall_cons in Hd; destruct_and? Hd.
  - left. apply list_elem_of_fmap. eauto.
  - right; left. apply list_elem_of_bind. exists a. split; [|done]. apply list_elem_of_fmap. eauto.
  - right; right. apply list_elem_of_bind. exists a. split; [|done]. apply list_elem_of_bind. exists b. split; [|done].
    apply list_elem_of_fmap. eauto.
Qed.

Lemma parse_octet_text s n : parse_octet s = Some n -> digit_char <$> decimal n = s /\ 0 <= n < 256.
Proof.
  intros E. pose proof (octet_text s n E) as Hin. apply list_elem_of_In in Hin.
  pose proof (proj1 (forallb_forall _ _) octets_agree s Hin) as Ha. unfold octet_agrees in Ha. rewrite E in Ha.
  bool_hyps. split; [done|lia].
Qed.

Lemma octet_of a b c d :
  0 <= a < 256 -> 0 <= b < 256 -> 0 <= c < 256 -> 0 <= d < 256 ->
  octet (((a * 256 + b) * 256 + c) * 256 + d) <$> [3; 2; 1; 0] = [a; b; c; d].
Proof.
  intros Ha Hb Hc Hd. unfold octet. simpl.
  change 255 with (Z.ones 8). rewrite !Z.land_ones, !Z.shiftr_div_pow2 by lia.
  change (2 ^ 24) with 16777216. change (2 ^ 16) with 65536. change (2 ^ 8) with 256. change (2 ^ 0) with 1.
  repeat f_equal; Z.to_euclidean_division_equations; lia.
Qed.

Lemma ipv4_octets n a b c d :
  octet n <$> [3; 2; 1; 0] = [a; b; c; d] ->
  (fun i => digit_char <$> decimal (octet n i)) <$> [3; 2; 1; 0] = (fun x => digit_char <$> decimal x) <$> [a; b; c; d].
Proof. intros [= <- <- <- <-]. done. Qed.

(** An address is read only from its own text. *)
Lemma IPv4Address_text s n : IPv4Address s = Some n -> ipv4_str n = s /\ 0 <= n < 2 ^ 32.
Proof.
  unfold IPv4Address. intros E. pose proof (join_split 46 s) as Hs. destruct (split_on 46 s) as [|s1 [|s2 [|s3 [|s4 [|s5 l]]]]]; simpl in E;
    repeat case_match; try done.
  injection E as <-.
  repeat match goal with H : parse_octet _ = Some _ |- _ => apply parse_octet_text in H as [? ?] end. subst. split; [|lia].
  unfold ipv4_str.
  erewrite ipv4_octets; [reflexivity|by apply octet_of].
Qed.
