(* ===== verification/RemoteRecords.v ===== *)
(** The records of the remote Registry fixture (remote_registry_fixture.py): peer addresses,
    ready records, the pinned revision, and the commands handed to [ssh] and [scp].

    Exceptions the interpreter raises itself carry a shortened text.

    Then what they say: peer addresses, ready records, the revision and command lines. *)

From stdpp Require Import gmap.
From S2P Require Import Prelude PyVal Json Regex Harness PyPath.

Open Scope Z_scope.

(** [re.fullmatch(pattern, s)] for patterns with the character classes of the file. *)
Definition cls_alnum : list (Z * Z) := cls_upper ++ cls_lower ++ cls_digit.
Definition cls_base58 : list (Z * Z) := [(49, 57); (65, 72); (74, 78); (80, 90); (97, 107); (109, 122)].
Definition cls_not_slash : list (Z * Z) := [(0, 46); (48, 1114111)].
Definition cls_hex : list (Z * Z) := [(48, 57); (97, 102)].

Definition _REMOTE_ROOT_NAME : regex :=
  RSeq (RLit (py "decent-wallet-registry-")) (RRep (RClass cls_alnum) 8 (Some 64%nat)).
Definition _PEER_ID : regex := RRep (RClass cls_base58) 20 (Some 100%nat).
Definition _PEER_ADDRESS : regex :=
  RSeq (RLit (py "/ip4/")) (RSeq (RPlus (RClass cls_not_slash))
    (RSeq (RLit (py "/tcp/")) (RSeq (RPlus (RClass cls_digit))
      (RSeq (RLit (py "/p2p/")) _PEER_ID)))).

(** [100.64.0.0/10] *)
Definition _TAILSCALE_IPV4 : Z * Z := (100 * 2 ^ 24 + 64 * 2 ^ 16, 10).

Record RemotePeerAddress := MkPeer { multiaddr : pystr; peer_host : pystr; port : Z; peer_id : pystr }.
Record RemoteReady := MkReady { ready_phase : Z; writer : RemotePeerAddress; readback : RemotePeerAddress }.

(** * Peer addresses *)

(** [match.groups()] of a word of [_PEER_ADDRESS]: no group contains a slash. *)
Definition address_groups (s : pystr) : pystr * pystr * pystr :=
  let l := split_on 47 s in (nth 2 l [], nth 4 l [], nth 6 l []).

(** [int(digits)] *)
Definition int_text (s : pystr) : option Z :=
  if (int_max_str_digits <? length s)%nat then None else Some (digits_value s).

Definition is_tailscale (a : Z) : bool := in_network _TAILSCALE_IPV4.1 _TAILSCALE_IPV4.2 a.

Definition parse_remote_peer_address (value : pystr) (expected_host : option pystr) : outcome RemotePeerAddress :=
  if negb (fullmatch _PEER_ADDRESS (strip value)) then
    error Value_Error (py "fixture emitted an invalid or unpinned Registry peer multiaddr")
  else
    let '(raw_host, raw_port, id) := address_groups (strip value) in
    match IPv4Address raw_host, int_text raw_port with
    | Some address, Some n =>
        let text := ipv4_str address in
        if negb ((1 <=? n) && (n <=? 65535)) || negb (fullmatch _PEER_ID id) ||
           negb (match IPv4Address text with Some a => is_tailscale a | None => false end)
        then error Value_Error (py "fixture emitted an invalid or non-Tailscale Registry peer multiaddr")
        else
          match expected_host with
          | None => Done (MkPeer (strip value) text n id)
          | Some h =>
              match IPv4Address h with
              | None => error Value_Error (py "invalid address")
              | Some e =>
                  if negb (bool_decide (text = ipv4_str e)) then
                    error Value_Error (py "Registry peer is not bound to the expected remote interface")
                  else Done (MkPeer (strip value) text n id)
              end
          end
    | _, _ => error Value_Error (py "fixture emitted an invalid Registry peer multiaddr")
    end.

(** * Ready records *)

(** [value.get(k)] of a parsed object. *)
Definition obj_get (items : list (pystr * json)) (k : string) : option json :=
  snd <$> List.find (fun kv => bool_decide (kv.1 = py k)) items.

Definition tab : pystr := [9].

Definition parse_remote_ready_record (line : pystr) (expected_phase : Z) (expected_host : option pystr) : outcome RemoteReady :=
  let '(tag, separator, payload) := partition tab (strip line) in
  if negb (bool_decide (tag = py "REMOTE_READY")) || negb separator then
    error Value_Error (py "remote Registry fixture did not report readiness")
  else
    match json_loads payload with
    | Err JSONDecodeError => error Value_Error (py "remote Registry fixture reported invalid readiness data")
    | Err _ => error Value_Error (py "Exceeds the limit for integer string conversion")
    | Ok (JObj items) =>
        match obj_get items "phase" with
        | Some (JInt phase) =>
            if negb (phase =? expected_phase) then
              error Value_Error (py "remote Registry fixture reported an unexpected test phase")
            else
              match obj_get items "writer", obj_get items "readback" with
              | Some (JStr writer_value), Some (JStr readback_value) =>
                  match parse_remote_peer_address writer_value expected_host with
                  | Done w =>
                      let readback_host :=
                        match expected_host with Some ((_ :: _) as h) => h | _ => peer_host w end in
                      match parse_remote_peer_address readback_value (Some readback_host) with
                      | Done r =>
                          if bool_decide (peer_id w = peer_id r) || (port w =? port r) then
                            error Value_Error (py "remote deployment requires distinct writer and read-back peers")
                          else Done (MkReady phase w r)
                      | Failed e => Failed e
                      | Stuck => Stuck
                      end
                  | Failed e => Failed e
                  | Stuck => Stuck
                  end
              | _, _ => error Type_Error (py "remote Registry fixture reported invalid readiness data")
              end
        | _ => error Value_Error (py "remote Registry fixture reported an unexpected test phase")
        end
    | Ok _ => error Value_Error (py "remote Registry fixture reported invalid readiness data")
    end.

(** * The pinned revision *)

(** One match of [_REGISTRY_GIT_REVISION] at the start of [s] after a prefix of [n]
    characters: the group. *)
Definition revision_after (n : nat) (s : pystr) : option pystr :=
  let group := take 40 (drop n s) in
  let rest := drop (n + 40) s in
  if fullmatch (RTimes 40 (RClass cls_hex)) group &&
     (bool_decide (rest = []) || bool_decide (rest = [10]) ||
      match rest with c :: _ => (c =? 38) || (c =? 35) | [] => false end)
  then Some group else None.

Definition revision_match (s : pystr) : option (pystr * nat) :=
  if starts_with (py "?rev=") s || starts_with (py "&rev=") s then (fun g => (g, 45%nat)) <$> revision_after 5 s
  else if starts_with (py "#") s then (fun g => (g, 41%nat)) <$> revision_after 1 s
  else None.

(** [_REGISTRY_GIT_REVISION.findall(s)]; [skip] counts the characters of the current match
    still to be dropped. *)
Fixpoint revisions_from (skip : nat) (s : pystr) : list pystr :=
  match s with
  | [] => []
  | _ :: s' =>
      match skip with
      | S k => revisions_from k s'
      | O => match revision_match s with
             | Some (g, n) => g :: revisions_from (pred n) s'
             | None => revisions_from O s'
             end
      end
  end.

Definition str_item (d : pydict) (k : string) : option pyval :=
  snd <$> List.find (fun kv => py_eq kv.1 (PStr (py k))) d.

Definition is_str_value (v : option pyval) (s : string) : bool :=
  match v with Some (PStr t) => bool_decide (t = py s) | _ => false end.

(** [[item for item in l if item.get("name") == "decent-registry"]] *)
Fixpoint named_packages (l : list pyval) : outcome (list pydict) :=
  match l with
  | [] => Done []
  | PDict d :: l' =>
      match named_packages l' with
      | Done r => Done (if is_str_value (str_item d "name") "decent-registry" then d :: r else r)
      | other => other
      end
  | _ => error Attribute_Error (py "object has no attribute 'get'")
  end.

(** The elements a [for] loop takes from a value. *)
Definition iterate (v : pyval) : option (list pyval) :=
  match v with
  | PList l => Some l
  | PStr s => Some ((fun c => PStr [c]) <$> s)
  | PDict d => Some (fst <$> d)
  | _ => None
  end.

Section Lock.
(** [tomllib.loads], [None] for [TOMLDecodeError]. *)
Context (toml_loads : pystr -> option pydict).

Definition registry_revision_from_lock_text (lock_text : pystr) : outcome pystr :=
  match toml_loads lock_text with
  | None => error Value_Error (py "wallet uv.lock is invalid TOML")
  | Some lock =>
      match iterate (default (PList []) (str_item lock "package")) with
      | None => error Type_Error (py "object is not iterable")
      | Some items =>
          match named_packages items with
          | Done [package] =>
              let git_url := match str_item package "source" with Some (PDict source) => str_item source "git" | _ => None end in
              match git_url with
              | Some (PStr url) =>
                  if negb (starts_with (py "https://github.com/jetpen/decent-registry.git?") url) then
                    error Value_Error (py "wallet uv.lock does not pin the expected decent-registry repository")
                  else
                    match revisions_from O url with
                    | r :: rs =>
                        if bool_decide (Forall (eq r) rs) then Done r
                        else error Value_Error (py "wallet uv.lock must pin a single immutable decent-registry commit")
                    | [] => error Value_Error (py "wallet uv.lock must pin a single immutable decent-registry commit")
                    end
              | _ => error Value_Error (py "wallet uv.lock does not pin the expected decent-registry repository")
              end
          | Done _ => error Value_Error (py "wallet uv.lock must pin exactly one decent-registry source")
          | Failed e => Failed e
          | Stuck => Stuck
          end
      end
  end.
End Lock.

(** * Commands *)

Definition SSH_TOKEN : regex := RSeq (RClass cls_alnum) (RStar (RClass (cls_alnum ++ chr "._-"))).

Definition _validate_ssh_token (value : pystr) (description : string) : outcome pystr :=
  if bool_decide (value = []) || starts_with (py "-") value || negb (fullmatch SSH_TOKEN value) then
    error Value_Error (py "invalid SSH " ++ py description)
  else Done value.

Definition ssh_options : list pystr :=
  [py "-oBatchMode=yes"; py "-oStrictHostKeyChecking=yes"; py "-oConnectTimeout=15";
   py "-oServerAliveInterval=15"; py "-oServerAliveCountMax=4"].

(** The options both commands end with before the host. *)
Definition alias_option (host_key_alias : option pystr) : outcome (list pystr) :=
  match host_key_alias with
  | None => Done []
  | Some a =>
      match _validate_ssh_token a "host-key alias" with
      | Done a => Done [py "-oHostKeyAlias=" ++ a]
      | Failed e => Failed e
      | Stuck => Stuck
      end
  end.

Definition ssh_command (host : pystr) (host_key_alias : option pystr) (remote_args : list pystr) : outcome (list pystr) :=
  match _validate_ssh_token host "host" with
  | Done host =>
      match alias_option host_key_alias with
      | Done alias => Done ([py "ssh"; py "-T"] ++ ssh_options ++ alias ++ [host] ++ remote_args)
      | Failed e => Failed e
      | Stuck => Stuck
      end
  | Failed e => Failed e
  | Stuck => Stuck
  end.

(** * Environments *)

Abbreviation environ := (gmap pystr pystr).

Definition devnull : pystr := py "/dev/null".

(** [env.update(items)] *)
Definition update_env (env : environ) (items : list (pystr * pystr)) : environ :=
  foldl (fun e kv => <[kv.1 := kv.2]> e) env items.

(** The settings of [isolated_environment] for a resolved root. *)
Definition isolated_settings (root : path) : list (pystr * pystr) :=
  let dir name := path_str (child root (py name)) in
  [(py "HOME", dir "home"); (py "TMPDIR", dir "tmp"); (py "XDG_CACHE_HOME", dir "cache");
   (py "XDG_CONFIG_HOME", dir "config"); (py "XDG_DATA_HOME", dir "data-home");
   (py "XDG_STATE_HOME", dir "state"); (py "PIP_CACHE_DIR", dir "pip-cache");
   (py "PIP_CONFIG_FILE", devnull); (py "PIP_DISABLE_PIP_VERSION_CHECK", py "1");
   (py "UV_CACHE_DIR", dir "uv-cache"); (py "UV_PROJECT_ENVIRONMENT", dir "registry-venv");
   (py "UV_LINK_MODE", py "copy"); (py "UV_NO_CONFIG", py "1"); (py "CARGO_HOME", dir "cargo");
   (py "RUSTUP_HOME", dir "rustup"); (py "GIT_CONFIG_GLOBAL", devnull);
   (py "GIT_TERMINAL_PROMPT", py "0"); (py "PYTHONNOUSERSITE", py "1"); (py "PYTHONDONTWRITEBYTECODE", py "1")].

(** * Addresses *)

Lemma network_range a :
  0 <= a < 2 ^ 32 -> is_tailscale a = true <-> 100 * 2 ^ 24 + 64 * 2 ^ 16 <= a < 100 * 2 ^ 24 + 128 * 2 ^ 16.
Proof.
  intros Ha. unfold is_tailscale, in_network, _TAILSCALE_IPV4. cbn [fst snd]. change (32 - 10) with 22.
  assert (Z.land a (Z.shiftl (Z.ones 10) 22) = ((a / 2 ^ 22) mod 2 ^ 10) * 2 ^ 22) as E.
  { rewrite <-Z.land_ones, <-Z.shiftr_div_pow2, <-Z.shiftl_mul_pow2 by lia. apply Z.bits_inj'. intros n Hn.
    rewrite Z.land_spec. destruct (Z.ltb_spec n 22).
    - rewrite !Z.shiftl_spec_low by lia. by rewrite andb_false_r.
    - rewrite !Z.shiftl_spec, Z.land_spec, Z.shiftr_spec by lia. f_equal. f_equal. lia. }
  rewrite E, Z.eqb_eq.
  change (2 ^ 22) with 4194304. change (2 ^ 10) with 1024. change (2 ^ 32) with 4294967296 in Ha. change (2 ^ 24) with 16777216. change (2 ^ 16) with 65536.
  Z.to_euclidean_division_equations. lia.
Qed.

Lemma octet_digits s n : parse_octet s = Some n -> s <> [] /\ Forall (fun c => in_class cls_digit c = true) s.
Proof.
  unfold parse_octet. destruct (fullmatch _ s) eqn:Em; [|done]. intros _. apply rep_class in Em as (Hl & _ & Hf).
  split; [|done]. intros ->. simpl in Hl. lia.
Qed.

Lemma digit_not_slash c : in_class cls_digit c = true -> in_class cls_not_slash c = true.
Proof. unfold in_class. simpl. rewrite ?orb_false_r, ?orb_true_iff, ?andb_true_iff, ?Z.leb_le. lia. Qed.

(** The text of an address has only digits and dots. *)
Lemma IPv4Address_chars s n :
  IPv4Address s = Some n -> s <> [] /\ Forall (fun c => in_class cls_not_slash c = true) s.
Proof.
  unfold IPv4Address. pose proof (join_split 46 s) as Hs. destruct (split_on 46 s) as [|s1 [|s2 [|s3 [|s4 [|s5 l]]]]]; cbn; try done;
    intros E; repeat case_match; try done.
  repeat match goal with H : parse_octet _ = Some _ |- _ => apply octet_digits in H as [? H]; eapply Forall_impl in H; [|apply digit_not_slash] end.
  subst s. cbn [join_with app]. split; [by destruct s1|].
  repeat first [apply Forall_app_2; [done|] | apply Forall_cons_2; [done|]]; done.
Qed.

Lemma not_slash_spec s : Forall (fun c => in_class cls_not_slash c = true) s -> 47 ∉ s.
Proof. intros Hs H. by apply (proj1 (Forall_forall _ _) Hs) in H. Qed.

Lemma plus_class ranges s :
  fullmatch (RPlus (RClass ranges)) s = true <-> s <> [] /\ Forall (fun c => in_class ranges c = true) s.
Proof.
  unfold RPlus. rewrite rep_class. split.
  - intros (Hl & _ & Hf). split; [|done]. intros ->. simpl in Hl. lia.
  - intros [Hn Hf]. destruct s; [done|]. simpl. split_and!; [lia|done|done].
Qed.

Definition address_text (h d id : pystr) : pystr := py "/ip4/" ++ h ++ py "/tcp/" ++ d ++ py "/p2p/" ++ id.

Lemma peer_address_lang v :
  fullmatch _PEER_ADDRESS v = true <-> exists h d id,
    v = address_text h d id /\ fullmatch (RPlus (RClass cls_not_slash)) h = true /\
    fullmatch (RPlus (RClass cls_digit)) d = true /\ fullmatch _PEER_ID id = true.
Proof.
  rewrite fullmatch_spec. unfold _PEER_ADDRESS, address_text. cbn [lang]. setoid_rewrite fullmatch_spec. split.
  - intros (s1 & r1 & -> & H1 & h & r2 & -> & Hh & s3 & r3 & -> & H3 & d & r4 & -> & Hd & s5 & id & -> & H5 & Hid).
    apply RLit_lang in H1 as ->. apply RLit_lang in H3 as ->. apply RLit_lang in H5 as ->. eauto 10.
  - intros (h & d & id & -> & Hh & Hd & Hid).
    exists (py "/ip4/"), (h ++ py "/tcp/" ++ d ++ py "/p2p/" ++ id). split; [done|]. split; [by apply RLit_lang|].
    exists h, (py "/tcp/" ++ d ++ py "/p2p/" ++ id). split; [done|]. split; [done|].
    exists (py "/tcp/"), (d ++ py "/p2p/" ++ id). split; [done|]. split; [by apply RLit_lang|].
    exists d, (py "/p2p/" ++ id). split; [done|]. split; [done|].
    exists (py "/p2p/"), id. split; [done|]. split; [by apply RLit_lang|done].
Qed.

Lemma class_no_slash ranges lo hi s :
  in_class ranges 47 = false -> fullmatch (RRep (RClass ranges) lo hi) s = true -> 47 ∉ s.
Proof.
  intros Hc (_ & _ & Hf)%rep_class Hin. apply (proj1 (Forall_forall _ _) Hf) in Hin. congruence.
Qed.

Lemma address_groups_text h d id :
  47 ∉ h -> 47 ∉ d -> 47 ∉ id -> address_groups (address_text h d id) = (h, d, id).
Proof.
  intros Hh Hd Hid. unfold address_groups.
  assert (address_text h d id = join_with 47 [[]; py "ip4"; h; py "tcp"; d; py "p2p"; id]) as -> by done.
  rewrite split_join; [done|done|].
  assert (47 ∉ py "ip4" /\ 47 ∉ py "tcp" /\ 47 ∉ py "p2p") as (? & ? & ?).
  { split_and!; (eapply bool_decide_unpack; vm_compute; exact I). }
  repeat constructor; try done. apply not_elem_of_nil.
Qed.

(** A peer on the remote interface, and its own multiaddr. *)
Definition peer_ok (p : RemotePeerAddress) : Prop :=
  exists a digits,
    IPv4Address (peer_host p) = Some a /\ 100 * 2 ^ 24 + 64 * 2 ^ 16 <= a < 100 * 2 ^ 24 + 128 * 2 ^ 16 /\
    fullmatch (RPlus (RClass cls_digit)) digits = true /\ int_text digits = Some (port p) /\ 1 <= port p <= 65535 /\
    fullmatch _PEER_ID (peer_id p) = true /\
    multiaddr p = address_text (peer_host p) digits (peer_id p).

Lemma parse_remote_peer_address_done value expected p :
  parse_remote_peer_address value expected = Done p <->
  peer_ok p /\ multiaddr p = strip value /\ (forall h, expected = Some h -> h = peer_host p).
Proof.
  unfold parse_remote_peer_address. split.
  - destruct (fullmatch _PEER_ADDRESS _) eqn:Em; [|done]. apply peer_address_lang in Em as (h & d & id & Ev & Hh & Hd & Hid).
    cbn [negb]. rewrite Ev, address_groups_text;
      [|by apply not_slash_spec, plus_class|by eapply class_no_slash; [|exact Hd]|by eapply class_no_slash; [|exact Hid]].
    destruct (IPv4Address h) as [a|] eqn:Ea; [|done]. destruct (int_text d) as [n|] eqn:En; [|done].
    apply IPv4Address_text in Ea as Et. destruct Et as [Et Ha]. rewrite Et, Ea.
    destruct (negb _ || _ || _) eqn:Ec; [done|]. intros Hp. bool_hyps.
    assert (p = MkPeer (address_text h d id) h n id /\ forall x, expected = Some x -> x = h) as [-> Hx].
    { destruct expected as [x|]; [|split; [congruence|done]]. destruct (IPv4Address x) as [e|] eqn:Ex; [|done].
      destruct (bool_decide _) eqn:Eq; [|done]. bool_hyps. apply IPv4Address_text in Ex as [Ex _].
      split; [cbn [negb] in Hp; congruence|]. intros y [= <-]. congruence. }
    split_and!; [|done|done]. exists a, d. cbn [peer_host port peer_id multiaddr]. split_and!; try done; try lia; by apply network_range.
  - intros ((a & d & Ea & Ha & Hd & En & Hn & Hid & Em) & Ev & Hx). rewrite <-Ev, Em.
    assert (IPv4Address (peer_host p) = Some a) as Ea' by done.
    apply IPv4Address_chars in Ea' as Hc. apply IPv4Address_text in Ea as [Et Hr].
    rewrite (proj2 (peer_address_lang _)) by (exists (peer_host p), d, (peer_id p); split_and!; [done|by apply plus_class|done|done]).
    cbn [negb]. rewrite address_groups_text;
      [|by apply not_slash_spec, Hc|by eapply class_no_slash; [|exact Hd]|by eapply class_no_slash; [|exact Hid]].
    rewrite Ea', En, Et, Ea', Hid. rewrite (proj2 (network_range a Hr)) by done.
    rewrite (proj2 (Z.leb_le 1 (port p))), (proj2 (Z.leb_le (port p) 65535)) by lia. cbn [negb andb orb].
    rewrite <-Em. destruct p as [m h n i]. cbn [peer_host port peer_id multiaddr] in *. destruct expected as [x|]; [|done].
    rewrite (Hx x eq_refl), Ea', Et. by rewrite bool_decide_eq_true_2.
Qed.

(** * Ready records *)

Lemma cut_char c s a b : cut [c] s = Some (a, b) <-> s = a ++ [c] ++ b /\ c ∉ a.
Proof.
  revert a. induction s as [|x s IH]; intros a; cbn.
  - split; [done|]. intros [E _]. by destruct a.
  - rewrite andb_true_r. destruct (Z.eqb_spec c x) as [<-|Hne].
    + split; [intros [= <- <-]; split; [done|apply not_elem_of_nil]|].
      intros [E Ha]. destruct a as [|y a]; cbn in E; [by injection E as ->|]. injection E as <- _. set_solver.
    + split.
      * destruct (cut [c] s) as [[a' b']|]; [|done]. intros [= <- <-]. destruct (proj1 (IH a') eq_refl) as [-> Ha].
        split; [done|]. set_solver.
      * intros [E Ha]. destruct a as [|y a]; cbn in E; [congruence|]. injection E as <- ->.
        rewrite (proj2 (IH a)); [done|]. split; [done|set_solver].
Qed.

Definition READY : pystr := py "REMOTE_READY".

Lemma partition_ready s payload :
  partition tab s = (READY, true, payload) <-> s = READY ++ tab ++ payload.
Proof.
  unfold partition. split.
  - destruct (cut tab s) as [[a b]|] eqn:E; [|done]. intros [= -> ->]. by apply cut_char in E as [-> _].
  - intros E. change tab with [9]. rewrite (proj2 (cut_char 9 s READY payload)); [done|]. split; [done|].
    eapply bool_decide_unpack. vm_compute. exact I.
Qed.

(** What a line has to say to announce the peers [r]. *)
Definition announces (line : pystr) (r : RemoteReady) : Prop :=
  exists payload items writer_text readback_text,
    strip line = READY ++ tab ++ payload /\ json_loads payload = Ok (JObj items) /\
    obj_get items "phase" = Some (JInt (ready_phase r)) /\
    obj_get items "writer" = Some (JStr writer_text) /\ strip writer_text = multiaddr (writer r) /\
    obj_get items "readback" = Some (JStr readback_text) /\ strip readback_text = multiaddr (readback r).

(** Two peers that can stand for writer and read-back. *)
Definition distinct_peers (r : RemoteReady) : Prop :=
  peer_ok (writer r) /\ peer_ok (readback r) /\ peer_host (readback r) = peer_host (writer r) /\
  peer_id (writer r) <> peer_id (readback r) /\ port (writer r) <> port (readback r).

Lemma expected_or_writer expected w :
  (forall h, expected = Some h -> h = peer_host w) -> peer_host w <> [] ->
  match expected with Some ((_ :: _) as h) => h | _ => peer_host w end = peer_host w.
Proof. intros Hx Hw. destruct expected as [[|c h]|]; [done|by apply Hx|done]. Qed.

Lemma peer_ok_host p : peer_ok p -> peer_host p <> [].
Proof. intros (a & d & Ea & _). by apply IPv4Address_chars in Ea as [? _]. Qed.

Lemma ready_record_done line phase expected r :
  parse_remote_ready_record line phase expected = Done r <->
  announces line r /\ ready_phase r = phase /\ distinct_peers r /\ (forall h, expected = Some h -> h = peer_host (writer r)).
Proof.
  unfold parse_remote_ready_record. split.
  - destruct (partition tab (strip line)) as [[tag separator] payload] eqn:Ep.
    destruct (negb _ || _) eqn:Et; [done|]. bool_hyps. subst tag separator. apply partition_ready in Ep.
    destruct (json_loads payload) as [[| | | | | |items]|[]] eqn:Ej; try done.
    destruct (obj_get items "phase") as [[| |z| | | |]|] eqn:Eph; try done. destruct (Z.eqb_spec z phase) as [->|]; [|done]. cbn [negb].
    destruct (obj_get items "writer") as [[| | | |s| |]|] eqn:Ew; try done.
    destruct (obj_get items "readback") as [[| | | |s0| |]|] eqn:Er; try done.
    destruct (parse_remote_peer_address s expected) as [w| |] eqn:Epw; try done.
    apply parse_remote_peer_address_done in Epw as (Hw & Ew' & Hx).
    rewrite expected_or_writer by (done || by apply peer_ok_host).
    destruct (parse_remote_peer_address s0 _) as [b| |] eqn:Epb; try done.
    apply parse_remote_peer_address_done in Epb as (Hb & Eb' & Hy).
    destruct (bool_decide _ || _) eqn:Ed; [done|]. intros [= <-]. bool_hyps.
    split_and!; [|done| |done].
    + exists payload, items, s, s0. cbn [ready_phase writer readback]. by rewrite Ew', Eb'.
    + unfold distinct_peers. cbn [writer readback]. split_and!; try done. symmetry. by apply Hy.
  - intros ((payload & items & wt & rt & El & Ej & Eph & Ew & Ew' & Er & Er') & Eph' & (Hw & Hb & Hh & Hid & Hport) & Hx).
    rewrite (proj2 (partition_ready _ _) El). rewrite bool_decide_eq_true_2 by done. cbn [negb orb].
    rewrite Ej, Eph, Eph', Z.eqb_refl, Ew, Er. cbn [negb].
    rewrite (proj2 (parse_remote_peer_address_done wt expected (writer r))) by done.
    rewrite expected_or_writer by (done || by apply peer_ok_host).
    rewrite (proj2 (parse_remote_peer_address_done rt (Some (peer_host (writer r))) (readback r))).
    + rewrite bool_decide_eq_false_2 by done. rewrite (proj2 (Z.eqb_neq _ _)) by done. cbn [orb]. by destruct r; simpl in *; subst.
    + split_and!; try done. intros h [= <-]. done.
Qed.

(** * The pinned revision *)

Definition revision_text (s : pystr) : Prop := fullmatch (RTimes 40 (RClass cls_hex)) s = true.

Lemma revision_after_hex n s g : revision_after n s = Some g -> revision_text g.
Proof. unfold revision_after. destruct (fullmatch _ _) eqn:E; [|done]. cbn [andb]. case_match; [|done]. by intros [= <-]. Qed.

Lemma revisions_hex skip s : Forall revision_text (revisions_from skip s).
Proof.
  revert skip. induction s as [|c s IH]; intros skip; cbn [revisions_from]; [constructor|].
  destruct skip as [|k]; [|done]. unfold revision_match.
  repeat case_match; simplify_eq/=; try done; constructor; try done; simplify_option_eq; by eapply revision_after_hex.
Qed.

Lemma registry_revision_hex toml text r : registry_revision_from_lock_text toml text = Done r -> revision_text r.
Proof.
  unfold registry_revision_from_lock_text. intros E. repeat case_match; try discriminate.
  injection E as <-. match goal with H : revisions_from O ?s = _ |- _ => pose proof (revisions_hex O s) as Hr; rewrite H in Hr end.
  by apply Forall_cons in Hr as [? _].
Qed.

(** * Command lines *)

(** A word the remote shell takes as it is. *)
Definition cls_word : list (Z * Z) := cls_alnum ++ chr "-_./=".
Definition shell_word (s : pystr) : Prop := s <> [] /\ Forall (fun c => in_class cls_word c = true) s.

Definition is_shell_word (s : pystr) : bool := negb (bool_decide (s = [])) && forallb (in_class cls_word) s.

Lemma is_shell_word_ok s : is_shell_word s = true -> shell_word s.
Proof.
  unfold is_shell_word. intros H. bool_hyps. split; [done|]. apply Forall_forall. intros x Hx.
  match goal with H : forallb _ _ = true |- _ => apply (proj1 (forallb_forall _ _) H) end. by apply list_elem_of_In.
Qed.

Lemma shell_word_app s t : shell_word s -> Forall (fun c => in_class cls_word c = true) t -> shell_word (s ++ t).
Proof. intros [Hn Hs] Ht. split; [by destruct s|]. by apply Forall_app_2. Qed.

Lemma class_sub ranges c :
  (forall p, p ∈ ranges -> exists q, q ∈ cls_word /\ q.1 <= p.1 /\ p.2 <= q.2) ->
  in_class ranges c = true -> in_class cls_word c = true.
Proof.
  unfold in_class. intros Hs (p & Hp & Hc)%existsb_exists. apply list_elem_of_In in Hp. apply Hs in Hp as (q & Hq & ? & ?).
  apply existsb_exists. exists q. split; [by apply list_elem_of_In|]. bool_hyps. apply andb_true_intro. split; apply Z.leb_le; lia.
Qed.

Lemma alnum_word c : in_class cls_alnum c = true -> in_class cls_word c = true.
Proof. unfold cls_word, in_class. rewrite existsb_app. intros ->. done. Qed.

Lemma hex_word c : in_class cls_hex c = true -> in_class cls_word c = true.
Proof.
  apply class_sub. intros p Hp. unfold cls_hex in Hp. rewrite !elem_of_cons, elem_of_nil in Hp. destruct Hp as [-> |[-> |[]]].
  - exists (48, 57). split; [|simpl; lia]. eapply bool_decide_unpack. vm_compute. exact I.
  - exists (97, 122). split; [|simpl; lia]. eapply bool_decide_unpack. vm_compute. exact I.
Qed.

Lemma revision_word r : revision_text r -> shell_word r.
Proof.
  unfold revision_text, RTimes. intros (Hl & _ & Hf)%rep_class. split; [intros ->; simpl in Hl; lia|].
  eapply Forall_impl; [exact Hf|]. apply hex_word.
Qed.

(** A root that [mktemp] may have made: directly under [/tmp], with the expected name. *)
Definition temp_root (p : path) : Prop :=
  exists name, fullmatch _REMOTE_ROOT_NAME name = true /\ p = MkPath [47] [py "tmp"; name].

Lemma root_name_lang name :
  fullmatch _REMOTE_ROOT_NAME name = true ->
  exists suffix, name = py "decent-wallet-registry-" ++ suffix /\ Forall (fun c => in_class cls_alnum c = true) suffix.
Proof.
  rewrite fullmatch_spec. intros (s1 & suffix & -> & H1 & H2). apply RLit_lang in H1 as ->.
  exists suffix. split; [done|]. apply (proj2 (fullmatch_spec (RRep (RClass cls_alnum) 8 (Some 64%nat)) _)), rep_class in H2. tauto.
Qed.

Lemma temp_root_str p : temp_root p -> exists suffix,
  path_str p = py "/tmp/decent-wallet-registry-" ++ suffix /\ Forall (fun c => in_class cls_alnum c = true) suffix.
Proof. intros (name & Hn & ->). apply root_name_lang in Hn as (suffix & -> & Hs). by exists suffix. Qed.

(** The text of a path below another. *)
Lemma child_str p n : p_root p = [47] -> p_tail p <> [] -> path_str (child p n) = path_str p ++ [47] ++ n.
Proof.
  destruct p as [r l]. simpl. intros -> Hl. unfold path_str. simpl. f_equal.
  induction l as [|x [|y l] IH]; [done|done|]. change (join_with sep ((x :: y :: l) ++ [n])) with (x ++ [sep] ++ join_with sep ((y :: l) ++ [n])).
  rewrite IH by done. change (join_with sep (x :: y :: l)) with (x ++ [sep] ++ join_with sep (y :: l)). by rewrite <-!app_assoc.
Qed.
