(* ===== verification/RemoteFixture.v ===== *)
(** The remote Registry fixture (remote_registry_fixture.py, [RemoteRegistryPeerFixture]) and the
    acceptance run on it (run_remote_registry_acceptance.py).

    The thread that reads the worker's output shares a queue and an event with the fixture; both
    are fields here, and [observe] lets the thread run before they are looked at.  Times are in
    nanoseconds.  The loop that waits for a ready record has a bound on its rounds. *)

From stdpp Require Import gmap.
From S2P Require Import Prelude PyVal Json Regex Harness PyPath RemoteRecords.

Open Scope Z_scope.
Open Scope harness_scope.

Definition sec (n : Z) : Z := n * 10 ^ 9.

(** * Requests *)

Inductive request : Type -> Type :=
  | Resolve (p : path) : request (path + fault)
  | IsSymlink (p : path) : request (bool + fault)
  | IsFile (p : path) : request (bool + fault)
  | IsDir (p : path) : request (bool + fault)
  | ReadText (p : path) : request (pystr + fault)
  | Run (command : list pystr) (timeout : Z) (cwd : path) : request (Z * pystr + fault) (* captured output *)
  | RunTest (command : list pystr) (cwd : path) (env : environ) : request (Z + fault)
  | Popen (command : list pystr) (cwd : path) : request (unit + fault)
  | StartReader : request (unit + fault)
  | ReaderLines (timeout : Z) : request (list pystr * bool)  (* what the thread reads, and whether the output ends *)
  | Poll : request (option Z)
  | Write (text : pystr) : request (unit + fault)            (* stdin.write and flush *)
  | Wait (timeout : Z) : request (Z + fault)
  | Terminate : request (unit + fault)
  | Kill : request (unit + fault)
  | Clock : request Z
  | Environ : request environ
  | Home : request (path + fault)
  | Print (stderr : bool) (line : pystr) : request (unit + fault).

(** * State *)

Inductive reader := NoReader | Unstarted | Running | Ended.

Record fixture := MkFixture {
  fx_host : pystr;
  fx_alias : option pystr;
  fx_repository : path;
  fx_startup_timeout : Z;
  fx_shutdown_timeout : Z;
  fx_revision : pystr;
  fx_root : option path;
  fx_process : bool;
  fx_ready : option RemoteReady;
  fx_messages : list (option pystr);
  fx_reader : reader;
  fx_stopped : bool;
  fx_phase : Z;
}.

Definition set_revision (v : pystr) (f : fixture) : fixture :=
  MkFixture (fx_host f) (fx_alias f) (fx_repository f) (fx_startup_timeout f) (fx_shutdown_timeout f) v
    (fx_root f) (fx_process f) (fx_ready f) (fx_messages f) (fx_reader f) (fx_stopped f) (fx_phase f).
Definition set_root (v : path) (f : fixture) : fixture :=
  MkFixture (fx_host f) (fx_alias f) (fx_repository f) (fx_startup_timeout f) (fx_shutdown_timeout f) (fx_revision f)
    (Some v) (fx_process f) (fx_ready f) (fx_messages f) (fx_reader f) (fx_stopped f) (fx_phase f).
Definition set_process (v : bool) (f : fixture) : fixture :=
  MkFixture (fx_host f) (fx_alias f) (fx_repository f) (fx_startup_timeout f) (fx_shutdown_timeout f) (fx_revision f)
    (fx_root f) v (fx_ready f) (fx_messages f) (fx_reader f) (fx_stopped f) (fx_phase f).
Definition set_ready (v : RemoteReady) (f : fixture) : fixture :=
  MkFixture (fx_host f) (fx_alias f) (fx_repository f) (fx_startup_timeout f) (fx_shutdown_timeout f) (fx_revision f)
    (fx_root f) (fx_process f) (Some v) (fx_messages f) (fx_reader f) (fx_stopped f) (fx_phase f).
Definition set_messages (v : list (option pystr)) (f : fixture) : fixture :=
  MkFixture (fx_host f) (fx_alias f) (fx_repository f) (fx_startup_timeout f) (fx_shutdown_timeout f) (fx_revision f)
    (fx_root f) (fx_process f) (fx_ready f) v (fx_reader f) (fx_stopped f) (fx_phase f).
Definition set_reader (v : reader) (f : fixture) : fixture :=
  MkFixture (fx_host f) (fx_alias f) (fx_repository f) (fx_startup_timeout f) (fx_shutdown_timeout f) (fx_revision f)
    (fx_root f) (fx_process f) (fx_ready f) (fx_messages f) v (fx_stopped f) (fx_phase f).
Definition set_stopped (v : bool) (f : fixture) : fixture :=
  MkFixture (fx_host f) (fx_alias f) (fx_repository f) (fx_startup_timeout f) (fx_shutdown_timeout f) (fx_revision f)
    (fx_root f) (fx_process f) (fx_ready f) (fx_messages f) (fx_reader f) v (fx_phase f).
Definition set_phase (v : Z) (f : fixture) : fixture :=
  MkFixture (fx_host f) (fx_alias f) (fx_repository f) (fx_startup_timeout f) (fx_shutdown_timeout f) (fx_revision f)
    (fx_root f) (fx_process f) (fx_ready f) (fx_messages f) (fx_reader f) (fx_stopped f) v.

(** One line read by [_read_stdout], and its end. *)
Definition read_line (f : fixture) (line : pystr) : fixture :=
  let normalized := rstrip [13; 10] line in
  set_messages (fx_messages f ++ [Some normalized])
    (set_stopped (fx_stopped f || starts_with (py "REMOTE_STOPPED" ++ tab) normalized) f).

Definition _read_stdout (lines : list pystr) (ended : bool) (f : fixture) : fixture :=
  let f := foldl read_line f lines in
  if ended then set_reader Ended (set_messages (fx_messages f ++ [None]) f) else f.

Section Fixture.
Context (o : oracle request) (toml_loads : pystr -> option pydict).

Abbreviation H := (prog request fixture).

Definition fail {A} (c : exc_class) (text : pystr) : H A := hlift (error c text).
Definition reraise {A} (e : fault) : H A := hlift (Failed e).

(** * Paths *)

Definition validate_temp_root (value : pystr) : H path :=
  let p := Path value in
  let message := py "remote Registry root must be a dedicated temporary directory" in
  if negb (is_absolute p) || negb (bool_decide (parent p = Path (py "/tmp"))) || negb (fullmatch _REMOTE_ROOT_NAME (path_name p))
  then fail Value_Error message
  else
    do link <- call o (IsSymlink p);
    if link then fail Value_Error message else hret p.

Definition validate_temp_destination (value : pystr) : H path :=
  let p := Path value in
  let message := py "remote file destination must stay inside the temporary Registry directory" in
  if negb (is_absolute p) || bool_decide (py ".." ∈ parts p) || (length (parts p) <? 4)%nat then fail Value_Error message
  else
    let root := child (Path (py "/tmp")) (nth 2 (parts p) []) in
    do _ <- hcatch (validate_temp_root (path_str root))
              (fun e => if is_ValueError (f_class e) then fail Value_Error message else reraise e);
    if negb (in_parents root p) then fail Value_Error message else hret p.

Definition scp_command (host : pystr) (host_key_alias : option pystr) (source : path) (remote_path : pystr) : H (list pystr) :=
  do host <- hlift (_validate_ssh_token host "host");
  do p <- validate_temp_destination remote_path;
  do alias <- hlift (alias_option host_key_alias);
  hret ([py "scp"; py "-q"] ++ ssh_options ++ alias ++ [path_str source; host ++ [58] ++ path_str p]).

Definition isolated_environment (root : path) (base_env : option environ) : H environ :=
  do env <- match base_env with Some e => hret e | None => ask o Environ end;
  do root <- call o (Resolve root);
  hret (update_env env (isolated_settings root)).

(** * The fixture *)

Definition init (host : pystr) (host_key_alias : option pystr) (repository_root : path) (startup_timeout shutdown_timeout : Z) : H unit :=
  do host <- hlift (_validate_ssh_token host "host");
  do _ <- match host_key_alias with None => hret tt | Some a => do _ <- hlift (_validate_ssh_token a "host-key alias"); hret tt end;
  do repository <- call o (Resolve repository_root);
  update (fun _ => MkFixture host host_key_alias repository startup_timeout shutdown_timeout [] None false None [] NoReader false 0).

Definition not_ready {A} : H A := fail RuntimeError (py "remote Registry fixture is not ready").

Definition get_writer : H RemotePeerAddress :=
  do f <- get_state; match fx_ready f with None => not_ready | Some r => hret (writer r) end.
Definition get_readback : H RemotePeerAddress :=
  do f <- get_state; match fx_ready f with None => not_ready | Some r => hret (readback r) end.

Definition _ssh (remote_args : list pystr) : H (list pystr) :=
  do f <- get_state; hlift (ssh_command (fx_host f) (fx_alias f) remote_args).

(** [except (OSError, subprocess.TimeoutExpired) as exc: raise RuntimeError(text) from exc] *)
Definition or_runtime_error {A} (text : string) (m : H A) : H A :=
  hcatch m (fun e => if is_OSError (f_class e) || bool_decide (f_class e = TimeoutExpired) then fail RuntimeError (py text) else reraise e).

Definition _run_remote (remote_args : list pystr) (timeout : Z) : H (Z * pystr) :=
  or_runtime_error "remote Registry fixture SSH command failed"
    (do command <- _ssh remote_args;
     do f <- get_state;
     call o (Run command timeout (fx_repository f))).

Definition mktemp_args : list pystr :=
  [py "mktemp"; py "-d"; py "--tmpdir=/tmp"; py "decent-wallet-registry-XXXXXXXXXXXX"].

Definition _allocate_remote_root : H path :=
  do (code, out) <- _run_remote mktemp_args (sec 45);
  raise_when negb (code =? 0) as error RuntimeError (py "could not create the temporary Registry test directory");
  match splitlines out with
  | [line] => validate_temp_root line
  | _ => fail RuntimeError (py "remote mktemp returned an invalid directory path")
  end.

(** [p / a / b / ...] *)
Definition under (p : path) (names : list string) : path := foldl (fun q n => child q (py n)) p names.

Definition input_directories (root : path) : list pystr :=
  [path_str (under root ["fixtures"; "tests"; "interop"]); path_str (under root ["fixtures"; "tests"; "vectors"])].

Definition input_files (repository root : path) : list (path * path) :=
  [(under repository ["tests"; "interop"; "remote_registry_host.py"], under root ["remote_registry_host.py"]);
   (under repository ["tests"; "interop"; "start_android_registry_peer.py"],
    under root ["fixtures"; "tests"; "interop"; "start_android_registry_peer.py"]);
   (under repository ["tests"; "vectors"; "identity-owner-key-rotation-legacy.json"],
    under root ["fixtures"; "tests"; "vectors"; "identity-owner-key-rotation-legacy.json"])].

Definition copy_input (source remote_path : path) : H unit :=
  do f <- get_state;
  do present <- call o (IsFile source);
  raise_when negb present as error RuntimeError (py "required remote fixture input is missing: " ++ path_name source);
  do (code, _) <- or_runtime_error "could not copy the temporary Registry fixture inputs"
    (do command <- scp_command (fx_host f) (fx_alias f) source (path_str remote_path);
     call o (Run command (sec 90) (fx_repository f)));
  raise_when negb (code =? 0) as error RuntimeError (py "could not copy the temporary Registry fixture inputs");
  hret tt.

Fixpoint copy_files (files : list (path * path)) : H unit :=
  match files with
  | [] => hret tt
  | (source, remote_path) :: rest => do _ <- copy_input source remote_path; copy_files rest
  end.

Definition _copy_inputs (root : path) : H unit :=
  do (code, _) <- _run_remote ([py "mkdir"; py "-p"] ++ input_directories root) (sec 45);
  raise_when negb (code =? 0) as error RuntimeError (py "could not prepare the temporary Registry test directory");
  do f <- get_state;
  copy_files (input_files (fx_repository f) root).

(** * The worker's output *)

(** The thread may run. *)
Definition observe (timeout : Z) : H unit :=
  do f <- get_state;
  match fx_reader f with
  | Running => do p <- ask o (ReaderLines timeout); update (_read_stdout p.1 p.2)
  | _ => hret tt
  end.

(** [self._messages.empty()] *)
Definition messages_empty : H bool :=
  do _ <- observe 0; do f <- get_state; hret (bool_decide (fx_messages f = [])).

(** [self._messages.get(timeout=timeout)]; [None] for [queue.Empty]. *)
Definition get_message (timeout : Z) : H (option (option pystr)) :=
  do _ <- observe timeout;
  do f <- get_state;
  match fx_messages f with
  | [] => hret None
  | line :: rest => do _ <- update (set_messages rest); hret (Some line)
  end.

Definition tagged (tag : string) (line : pystr) : bool := starts_with (py tag ++ tab) line.
Definition detail (line : pystr) : pystr := (partition tab line).2.

Fixpoint wait_loop (rounds : nat) (deadline expected_phase : Z) : H RemoteReady :=
  match rounds with
  | O => hlift Stuck
  | S rounds' =>
      do now <- ask o Clock;
      if negb (now <? deadline) then
        fail TimeoutError (py "remote Registry preflight did not become ready before its deadline")
      else
      do f <- get_state;
      raise_when negb (fx_process f) as error RuntimeError (py "remote Registry fixture process is missing");
      do code <- ask o Poll;
      do finished <- match code with Some _ => messages_empty | None => hret false end;
      raise_when finished as error RuntimeError (py "remote Registry fixture exited before becoming ready");
      do later <- ask o Clock;
      do message <- get_message (Z.min (sec 1 / 4) (Z.max (sec 1 / 100) (deadline - later)));
      match message with
      | None => wait_loop rounds' deadline expected_phase
      | Some None => fail RuntimeError (py "remote Registry fixture closed its output before readiness")
      | Some (Some line) =>
          if tagged "REMOTE_STAGE" line then
            do _ <- call o (Print true (py "remote Registry preflight: " ++ detail line));
            wait_loop rounds' deadline expected_phase
          else if tagged "REMOTE_ERROR" line then
            fail RuntimeError (py "remote Registry preflight failed: " ++ detail line)
          else if tagged "REMOTE_CLEANUP_REQUIRED" line then
            fail RuntimeError (py "remote Registry preflight could not clean its temporary deployment")
          else if tagged "REMOTE_READY" line then
            hcatch (hlift (parse_remote_ready_record line expected_phase None))
              (fun e => if is_ValueError (f_class e)
                        then fail RuntimeError (py "remote Registry fixture reported invalid peer addresses") else reraise e)
          else wait_loop rounds' deadline expected_phase
      end
  end.

Definition _wait_ready (rounds : nat) (expected_phase : Z) : H RemoteReady :=
  do now <- ask o Clock;
  do f <- get_state;
  wait_loop rounds (now + fx_startup_timeout f) expected_phase.

(** * Removal *)

Definition _remote_exists (p : path) : H bool :=
  do (code, _) <- _run_remote [py "test"; py "-e"; path_str p] (sec 45);
  if code =? 0 then hret true
  else if code =? 1 then hret false
  else fail RuntimeError (py "could not verify remote temporary-directory state").

(** [self.process is None or self.process.poll() is not None] *)
Definition worker_stopped : H bool :=
  do f <- get_state;
  if fx_process f then do code <- ask o Poll; hret (match code with Some _ => true | None => false end) else hret true.

Definition helper (root : path) : path := under root ["remote_registry_host.py"].
Definition marker (root : path) : path := under root [".decent-wallet-registry-test"].

(** The last part of [_remove_remote_root]: without the helper. *)
Definition remove_tree (root : path) : H unit :=
  do stopped <- worker_stopped;
  raise_when negb stopped as error RuntimeError (py "remote cleanup helper is missing while a peer process may still run");
  do (code, _) <- _run_remote [py "rm"; py "-rf"; py "--"; path_str root] (sec 45);
  do remains <- (if code =? 0 then _remote_exists root else hret true);
  raise_when remains as error RuntimeError (py "remote temporary Registry directory could not be removed");
  hret tt.

(** [true]: the helper removed the root. *)
Definition helper_cleanup (root : path) : H bool :=
  do f <- get_state;
  do (code, _) <- _run_remote [py "python3"; py "-B"; path_str (helper root); py "cleanup"; py "--root"; path_str root]
                    (fx_shutdown_timeout f);
  do remains <- (if code =? 0 then _remote_exists root else hret true);
  if negb remains then hret true
  else
    do stopped <- worker_stopped;
    do marked <- _remote_exists (marker root);
    raise_when marked || negb stopped as error RuntimeError (py "remote Registry cleanup refused to remove its temporary root");
    hret false.

Definition _remove_remote_root : H unit :=
  do f <- get_state;
  match fx_root f with
  | None => hret tt
  | Some root =>
      do present <- _remote_exists root;
      if negb present then hret tt
      else
        do has_helper <- _remote_exists (helper root);
        do removed <- (if has_helper then helper_cleanup root else hret false);
        if removed then hret tt else remove_tree root
  end.

(** * Closing *)

(** [process.wait], then [terminate] and [kill] with ten seconds each. *)
Definition wait_worker : H (Z + fault) :=
  do f <- get_state;
  do r <- hattempt (call o (Wait (fx_shutdown_timeout f)));
  match r with
  | inl code => hret (inl code)
  | inr e =>
      if bool_decide (f_class e = TimeoutExpired) then
        do r <- hattempt (do _ <- call o Terminate; call o (Wait (sec 10)));
        match r with
        | inl code => hret (inl code)
        | inr e =>
            if bool_decide (f_class e = TimeoutExpired)
            then hattempt (do _ <- call o Kill; call o (Wait (sec 10)))
            else hret (inr e)
        end
      else hret (inr e)
  end.

Definition send_stop : H unit :=
  do code <- ask o Poll;
  match code with
  | Some _ => hret tt
  | None => hcatch (call o (Write (py "STOP" ++ [10]))) (fun e => if is_OSError (f_class e) then hret tt else reraise e)
  end.

Definition join_reader : H unit :=
  do f <- get_state;
  match fx_reader f with
  | Unstarted => fail RuntimeError (py "cannot join thread before it is started")
  | _ => observe (sec 5)
  end.

(** The [try] block of [close] around the worker: its [cleanup_error]. *)
Definition stop_worker : H (option fault) :=
  do sent <- hattempt send_stop;
  match sent with
  | inr e => hret (Some e)
  | inl _ =>
      do w <- wait_worker;
      do joined <- hattempt join_reader;
      do f <- get_state;
      hret (match w, joined with
            | inr e, _ => Some e
            | _, inr e => Some e
            | inl code, inl _ =>
                if negb (code =? 0) then
                  Some (Fault RuntimeError (py "remote Registry fixture exited with status " ++ int_str code ++ py " during teardown") [])
                else if negb (fx_stopped f) then
                  Some (Fault RuntimeError (py "remote Registry fixture did not confirm teardown completion") [])
                else None
            end)
  end.

Definition removal_error (c : exc_class) : bool := is_RuntimeError c || is_OSError c || is_ValueError c.

(** [self._remove_remote_root()] in the handlers of [close]. *)
Definition try_remove (cleanup_error : option fault) : H (option fault) :=
  do r <- hattempt _remove_remote_root;
  match r with
  | inl _ => hret cleanup_error
  | inr e => if removal_error (f_class e) then hret (Some (default e cleanup_error)) else reraise e
  end.

Definition close : H unit :=
  do f <- get_state;
  do cleanup_error <-
    (if fx_process f then
       do err <- stop_worker;
       do err <- try_remove err;
       do _ <- update (set_process false);
       hret err
     else match fx_root f with Some _ => try_remove None | None => hret None end);
  match cleanup_error with None => hret tt | Some e => reraise e end.

Definition cleanup_note (e : fault) : pystr := py "remote temporary deployment cleanup also failed: " ++ f_text e.

(** An exception of the body, after [close]. *)
Definition close_after {A} (e : fault) : H A :=
  do r <- hattempt close;
  match r with inl _ => reraise e | inr c => reraise (add_note e (cleanup_note c)) end.

(** * The context manager *)

Definition serve_args (root : path) (revision : pystr) : list pystr :=
  [py "python3"; py "-B"; path_str (helper root); py "serve"; py "--root"; path_str root; py "--registry-revision"; revision].

Definition start (rounds : nat) : H unit :=
  do f <- get_state;
  do text <- call o (ReadText (under (fx_repository f) ["uv.lock"]));
  do revision <- hlift (registry_revision_from_lock_text toml_loads text);
  do _ <- update (set_revision revision);
  do root <- _allocate_remote_root;
  do _ <- update (set_root root);
  do _ <- _copy_inputs root;
  do command <- _ssh (serve_args root revision);
  do _ <- call o (Popen command (fx_repository f));
  do _ <- update (set_process true);
  do _ <- update (set_reader Unstarted);
  do _ <- call o StartReader;
  do _ <- update (set_reader Running);
  do ready <- _wait_ready rounds 1;
  do _ <- update (set_ready ready);
  update (set_phase 1).

Definition enter (rounds : nat) : H unit := hcatch (start rounds) close_after.

Definition reset (rounds : nat) : H unit :=
  do f <- get_state;
  raise_when negb (fx_process f) || bool_decide (fx_ready f = None)
    as error RuntimeError (py "remote Registry fixture is not running");
  do code <- ask o Poll;
  raise_when bool_decide (code <> None) as error RuntimeError (py "remote Registry fixture exited before reset");
  do _ <- update (set_phase (fx_phase f + 1));
  do _ <- hcatch (call o (Write (py "RESET" ++ [10])))
    (fun e => if is_OSError (f_class e) then
                do _ <- update (set_phase (fx_phase f));
                fail RuntimeError (py "remote Registry fixture could not reset its peer stores")
              else reraise e);
  do ready <- _wait_ready rounds (fx_phase f + 1);
  update (set_ready ready).

(** [with RemoteRegistryPeerFixture(...) as fixture: body] *)
Definition with_fixture (rounds : nat) (body : H unit) : H unit :=
  do _ <- enter rounds;
  do r <- hattempt body;
  match r with
  | inl _ => close
  | inr e => close_after e
  end.

(** * The acceptance run *)

Context (ROOT : path).

Definition ANDROID_TEST : pystr :=
  py "org.decentwallet.wallet.android.AndroidDirectDhtRegistryInteropTest." ++
  py "readsHistoryPublishesAndFreshReadsAgainstPythonRegistryPeer".
Definition DESKTOP_TEST : pystr := py "tests/test_remote_registry_acceptance.py".

Definition desktop_test_command : list pystr :=
  [py "uv"; py "run"; py "--locked"; py "--project"; path_str ROOT; py "--extra"; py "test"; py "--extra"; py "registry";
   py "python"; py "-m"; py "pytest"; py "-q"; py "-m"; py "registry_integration"; DESKTOP_TEST].

Definition android_test_command : list pystr :=
  [py "./gradlew"; py "--no-daemon"; py "--dependency-verification=strict"; py ":platforms:android-wallet:testDebugUnitTest";
   py "--rerun-tasks"; py "--tests"; ANDROID_TEST].

Definition WRITER_VARIABLE : pystr := py "DECENT_REGISTRY_TEST_PEER".
Definition READBACK_VARIABLE : pystr := py "DECENT_REGISTRY_TEST_READBACK_PEER".

(** [not env.get(k)] *)
Definition unset (env : environ) (k : string) : bool := bool_decide (default [] (env !! py k) = []).

Definition _test_environment (writer_peer readback_peer : pystr) (sdk_default : option path) : H environ :=
  do env <- ask o Environ;
  let env := <[READBACK_VARIABLE := readback_peer]> (<[WRITER_VARIABLE := writer_peer]> env) in
  if unset env "ANDROID_HOME" && unset env "ANDROID_SDK_ROOT" then
    do default_sdk <- match sdk_default with Some p => hret p | None => do home <- call o Home; hret (under home ["Android"; "Sdk"]) end;
    do present <- call o (IsDir default_sdk);
    hret (if present then update_env env [(py "ANDROID_HOME", path_str default_sdk); (py "ANDROID_SDK_ROOT", path_str default_sdk)] else env)
  else hret env.

Definition _run (command : list pystr) (env : environ) : H unit :=
  do _ <- call o (Print false (py "Running: " ++ join_with 32 command));
  do code <- call o (RunTest command ROOT env);
  raise_when negb (code =? 0) as error CalledProcessError (py "Command returned non-zero exit status " ++ int_str code);
  hret tt.

(** One client against the current peers. *)
Definition client (command : list pystr) : H unit :=
  do w <- get_writer;
  do r <- get_readback;
  do env <- _test_environment (multiaddr w) (multiaddr r) None;
  _run command env.

Inductive phase := Desktop | Jvm | Both.

Definition clients (rounds : nat) (p : phase) : H unit :=
  do _ <- match p with Desktop | Both => client desktop_test_command | Jvm => hret tt end;
  do _ <- match p with Both => reset rounds | _ => hret tt end;
  match p with Jvm | Both => client android_test_command | Desktop => hret tt end.

Definition parse_phase (s : pystr) : option phase :=
  if bool_decide (s = py "desktop") then Some Desktop
  else if bool_decide (s = py "jvm") then Some Jvm
  else if bool_decide (s = py "both") then Some Both
  else None.

Definition run_acceptance (rounds : nat) (ssh_host : pystr) (host_key_alias : option pystr) (phase : pystr) : H unit :=
  match parse_phase phase with
  | None => fail Value_Error (py "phase must be desktop, jvm, or both")
  | Some p =>
      do _ <- init ssh_host host_key_alias ROOT (sec 2400) (sec 120);
      with_fixture rounds (clients rounds p)
  end.

Definition reported (c : exc_class) : bool :=
  is_OSError c || is_RuntimeError c || bool_decide (c = CalledProcessError) || is_ValueError c.

(** [main] after argument parsing: the exit status. *)
Definition main (rounds : nat) (ssh_host : pystr) (host_key_alias : option pystr) (phase : pystr) : H Z :=
  do r <- hattempt (run_acceptance rounds ssh_host host_key_alias phase);
  match r with
  | inl _ =>
      do _ <- call o (Print false (py "Remote Registry acceptance completed; temporary Registry deployment was removed."));
      hret 0
  | inr e =>
      if reported (f_class e) then
        do _ <- call o (Print true (py "Remote Registry acceptance failed: " ++ f_text e));
        hret 1
      else reraise e
  end.

End Fixture.
