(* ===== verification/RemoteFacts.v ===== *)
(** The remote fixture under every environment: which commands it runs, and what it leaves
    behind.

    A trace obeys a rule: each command is one of a fixed list, on a root that was allocated
    before and validated.  [good] links the fields of the fixture to the trace; every method keeps
    it. *)

From stdpp Require Import gmap.
From S2P Require Import Prelude PyVal Json Regex Harness PyPath RemoteRecords RemoteFixture.

Open Scope Z_scope.
Open Scope harness_scope.

Abbreviation ev := (event request).

(** * What traces say *)

(** Whether the worker may still run. *)
Definition worker_step (alive : bool) (e : ev) : bool :=
  match e with
  | Event q a =>
      match q in request R return R -> bool with
      | Popen _ _ => fun r => match r with inl _ => true | inr _ => alive end
      | Poll => fun r => match r with Some _ => false | None => alive end
      | Wait _ => fun r => match r with inl _ => false | inr _ => alive end
      | _ => fun _ => alive
      end a
  end.
Definition worker_alive (tr : list ev) : bool := foldl worker_step false tr.

(** A line of the worker's output. *)
Definition heard (tr : list ev) (m : pystr) : Prop :=
  exists t lines ended line, Event (ReaderLines t) (lines, ended) ∈ tr /\ line ∈ lines /\ m = rstrip [13; 10] line.

(** Peers the worker announced. *)
Definition announced (tr : list ev) (r : RemoteReady) : Prop :=
  exists m, heard tr m /\ announces m r /\ distinct_peers r.

Lemma heard_mono tr tr' m : heard tr m -> heard (tr ++ tr') m.
Proof. intros (t & l & b & x & H & ?). exists t, l, b, x. split; [apply elem_of_app; by left|done]. Qed.

Lemma announced_mono tr tr' r : announced tr r -> announced (tr ++ tr') r.
Proof. intros (m & H & ?). exists m. split; [by apply heard_mono|done]. Qed.

Section Remote.
Context (o : oracle request) (toml_loads : pystr -> option pydict) (ROOT : path).
Context (host : pystr) (alias : option pystr).

(** A root that [mktemp] printed and [validate_temp_root] accepted. *)
Definition allocated (tr : list ev) (root : path) : Prop :=
  temp_root root /\ exists command t cwd out line,
    ssh_command host alias mktemp_args = Done command /\
    Event (Run command t cwd) (inl (0, out)) ∈ tr /\ splitlines out = [line] /\ root = Path line /\
    Event (IsSymlink root) (inl false) ∈ tr.

Lemma allocated_mono tr tr' root : allocated tr root -> allocated (tr ++ tr') root.
Proof.
  intros (Hr & c & t & w & out & line & Hc & H & ? & ? & H'). split; [done|]. exists c, t, w, out, line.
  split_and!; try done; apply elem_of_app; by left.
Qed.

(** The remote command lines. *)
Inductive remote_call (tr : list ev) : list pystr -> Prop :=
  | CallMktemp : remote_call tr mktemp_args
  | CallMkdir root : allocated tr root -> remote_call tr ([py "mkdir"; py "-p"] ++ input_directories root)
  | CallTest root p : allocated tr root -> p ∈ [root; helper root; marker root] -> remote_call tr [py "test"; py "-e"; path_str p]
  | CallCleanup root : allocated tr root ->
      remote_call tr [py "python3"; py "-B"; path_str (helper root); py "cleanup"; py "--root"; path_str root]
  | CallRemove root : allocated tr root -> worker_alive tr = false ->
      remote_call tr [py "rm"; py "-rf"; py "--"; path_str root].

(** [scp] of an input into its place below the root. *)
Definition copy_command (source target : path) (alias_args : list pystr) : list pystr :=
  [py "scp"; py "-q"] ++ ssh_options ++ alias_args ++ [path_str source; host ++ [58] ++ path_str target].

Definition command_ok (tr : list ev) (command : list pystr) : Prop :=
  (exists args, ssh_command host alias args = Done command /\ remote_call tr args /\ Forall shell_word args) \/
  (exists repository root source target alias_args,
     Event (Resolve ROOT) (inl repository) ∈ tr /\ allocated tr root /\ (source, target) ∈ input_files repository root /\
     alias_option alias = Done alias_args /\ command = copy_command source target alias_args).

Definition rule (tr : list ev) (e : ev) : Prop :=
  match e with
  | Event q _ =>
      match q with
      | Run command _ _ => command_ok tr command
      | Popen command _ => exists root revision,
          allocated tr root /\ revision_text revision /\ Forall shell_word (serve_args root revision) /\
          ssh_command host alias (serve_args root revision) = Done command
      | RunTest command cwd env => exists r,
          command ∈ [desktop_test_command ROOT; android_test_command] /\ cwd = ROOT /\ announced tr r /\
          env !! WRITER_VARIABLE = Some (multiaddr (writer r)) /\ env !! READBACK_VARIABLE = Some (multiaddr (readback r))
      | Write text => text ∈ [py "STOP" ++ [10]; py "RESET" ++ [10]]
      | _ => True
      end
  end.

Record good (s : Harness.host request fixture) : Prop := Good {
  g_rule : obeys rule (h_trace s);
  g_host : fx_host (h_state s) = host;
  g_alias : fx_alias (h_state s) = alias;
  g_repository : Event (Resolve ROOT) (inl (fx_repository (h_state s))) ∈ h_trace s;
  g_root : forall root, fx_root (h_state s) = Some root -> allocated (h_trace s) root;
  g_process : fx_process (h_state s) = false -> worker_alive (h_trace s) = false;
  g_messages : forall m, Some m ∈ fx_messages (h_state s) -> heard (h_trace s) m;
  g_stopped : fx_stopped (h_state s) = true -> exists m, heard (h_trace s) m /\ tagged "REMOTE_STOPPED" m = true;
  g_ready : forall r, fx_ready (h_state s) = Some r -> announced (h_trace s) r;
  g_timeout : fx_startup_timeout (h_state s) = sec 2400;
}.

(** One more event. *)
Definition log {R} (s : Harness.host request fixture) (q : request R) (a : R) : Harness.host request fixture :=
  Host (h_trace s ++ [Event q a]) (h_state s).

Lemma good_log {R} s (q : request R) (a : R) :
  good s -> rule (h_trace s) (Event q a) -> worker_step false (Event q a) = false -> good (log s q a).
Proof.
  intros [] Hr Hw. constructor; simpl; try done.
  - by apply obeys_snoc.
  - apply elem_of_app. by left.
  - intros root E. by apply allocated_mono, g_root0.
  - intros E. unfold worker_alive. rewrite foldl_app. fold (worker_alive (h_trace s)). by rewrite g_process0.
  - intros m E. by apply heard_mono, g_messages0.
  - intros E. destruct (g_stopped0 E) as (m & Hm & ?). exists m. split; [by apply heard_mono|done].
  - intros r E. by apply announced_mono, g_ready0.
Qed.

(** ** Fields *)

Definition upd (f : fixture -> fixture) (s : Harness.host request fixture) : Harness.host request fixture :=
  Host (h_trace s) (f (h_state s)).

Lemma good_revision v s : good s -> good (upd (set_revision v) s).
Proof. by intros []. Qed.
Lemma good_root v s : good s -> allocated (h_trace s) v -> good (upd (set_root v) s).
Proof. intros [] Hv. constructor; simpl; try done. by intros root [= <-]. Qed.
Lemma good_started s : good s -> good (upd (set_process true) s).
Proof. by intros []. Qed.
Lemma good_reader v s : good s -> good (upd (set_reader v) s).
Proof. by intros []. Qed.
Lemma good_phase v s : good s -> good (upd (set_phase v) s).
Proof. by intros []. Qed.
Lemma good_set_ready v s : good s -> announced (h_trace s) v -> good (upd (set_ready v) s).
Proof. intros [] Hv. constructor; simpl; try done. by intros r [= <-]. Qed.
Lemma good_set_messages v s : good s -> (forall m, Some m ∈ v -> Some m ∈ fx_messages (h_state s)) -> good (upd (set_messages v) s).
Proof. intros [] Hv. constructor; simpl; auto. Qed.

Lemma read_lines f lines :
  foldl read_line f lines =
  set_messages (fx_messages f ++ (Some ∘ rstrip [13; 10] <$> lines))
    (set_stopped (fx_stopped f || existsb (fun l => tagged "REMOTE_STOPPED" (rstrip [13; 10] l)) lines) f).
Proof.
  revert f. induction lines as [|l lines IH]; intros f; cbn [foldl].
  - cbn. rewrite app_nil_r, orb_false_r. by destruct f.
  - rewrite IH. unfold read_line. destruct f. cbn. unfold set_messages, set_stopped. cbn.
    by rewrite <-app_assoc, orb_assoc.
Qed.

Lemma good_read t p s : good s -> good (upd (_read_stdout p.1 p.2) (log s (ReaderLines t) p)).
Proof.
  intros Hg. assert (good (log s (ReaderLines t) p)) as [] by (by apply good_log).
  unfold upd, _read_stdout. rewrite read_lines. destruct p as [lines ended]. cbn [fst snd].
  assert (forall l, l ∈ lines -> heard (h_trace (log s (ReaderLines t) (lines, ended))) (rstrip [13; 10] l)) as Hh.
  { intros l Hl. exists t, lines, ended, l. split_and!; try done. apply elem_of_app. right. by left. }
  assert (good (upd (fun f => set_messages (fx_messages f ++ (Some ∘ rstrip [13; 10] <$> lines))
    (set_stopped (fx_stopped f || existsb (fun l => tagged "REMOTE_STOPPED" (rstrip [13; 10] l)) lines) f)) (log s (ReaderLines t) (lines, ended)))) as Hgood.
  { constructor; cbn; try done.
    - intros m [H|H]%elem_of_app; [by apply g_messages0|]. apply list_elem_of_fmap in H as (l & [= ->] & Hl). by apply Hh.
    - intros [H|H]%orb_true_iff; [by apply g_stopped0|]. apply existsb_exists in H as (l & Hl & Ht). apply list_elem_of_In in Hl. eauto. }
  destruct ended; [|exact Hgood].
  destruct Hgood. constructor; cbn in *; try done. intros m [H|H]%elem_of_app; [auto|]. by apply list_elem_of_singleton in H.
Qed.

(** * Words *)

Lemma root_word root : temp_root root -> shell_word (path_str root).
Proof.
  intros (suffix & -> & Hs)%temp_root_str. apply shell_word_app; [by apply is_shell_word_ok; vm_compute|].
  eapply Forall_impl; [exact Hs|]. apply alnum_word.
Qed.

Lemma under_word root names :
  temp_root root -> forallb (fun n => is_shell_word (py n)) names = true -> shell_word (path_str (under root names)).
Proof.
  intros Hr. assert (p_root root = [47] /\ p_tail root <> [] /\ shell_word (path_str root)) as H.
  { split_and!; [by destruct Hr as (n & _ & ->)|by destruct Hr as (n & _ & ->)|by apply root_word]. }
  clear Hr. revert root H. induction names as [|n names IH]; intros root (H1 & H2 & H3) Hn; [done|].
  cbn in Hn. apply andb_prop in Hn as [Hn Hns]. apply (IH (child root (py n))); [|done]. split_and!; [done|simpl; by destruct (p_tail root)|].
  rewrite child_str by done. apply shell_word_app; [done|]. apply Forall_cons_2; [done|]. by apply is_shell_word_ok in Hn as [_ ?].
Qed.

Lemma serve_words root revision : temp_root root -> revision_text revision -> Forall shell_word (serve_args root revision).
Proof.
  intros Hr Hv. unfold serve_args, helper.
  repeat (apply Forall_cons_2; [first [by apply is_shell_word_ok; vm_compute|by apply under_word|by apply root_word|by apply revision_word]|]). constructor.
Qed.

Lemma remote_call_words tr args : remote_call tr args -> Forall shell_word args.
Proof.
  destruct 1 as [|root [Hr _]|root p [Hr _] Hp|root [Hr _]|root [Hr _] _]; unfold mktemp_args, input_directories, helper, marker in *; cbn [app].
  3: rewrite !elem_of_cons, elem_of_nil in Hp; destruct Hp as [-> |[-> |[-> |[]]]].
  all: repeat (apply Forall_cons_2; [first [by apply is_shell_word_ok; vm_compute|by apply under_word|by apply root_word]|]); constructor.
Qed.

(** * Remote commands *)

(** The state is the one before, whatever the outcome. *)
Definition calm {A} (s : Harness.host request fixture) (r : outcome A) (s' : Harness.host request fixture) : Prop :=
  good s' /\ h_state s' = h_state s /\ h_trace s `prefix_of` h_trace s' /\ r <> Stuck.

Lemma calm_refl {A} s (r : outcome A) : good s -> r <> Stuck -> calm s r s.
Proof. done. Qed.

Lemma calm_log {A R} s (r : outcome A) (q : request R) (a : R) : good (log s q a) -> r <> Stuck -> calm s r (log s q a).
Proof. intros Hg Hr. split_and!; try done. by exists [Event q a]. Qed.

Lemma calm_trans {A B} s (r : outcome A) s' (r' : outcome B) s'' : calm s r s' -> calm s' r' s'' -> calm s r' s''.
Proof.
  intros (_ & E & P & _) (Hg & E' & P' & Hr). split_and!; [done|congruence|by etrans|done].
Qed.

Lemma calm_outcome {A B} s (r : outcome A) (r' : outcome B) s' : calm s r s' -> r' <> Stuck -> calm s r' s'.
Proof. intros (? & ? & ? & _) ?. by split_and!. Qed.

Lemma calm_allocated {A} s (r : outcome A) s' root : calm s r s' -> allocated (h_trace s) root -> allocated (h_trace s') root.
Proof. intros (_ & _ & [l ->] & _). apply allocated_mono. Qed.

(** Go on after a part that leaves the state alone. *)
Lemma calm_bind {A B} (m : prog request fixture A) (k : A -> prog request fixture B)
    (P : A -> Harness.host request fixture -> Prop) (Q : outcome B -> Harness.host request fixture -> Prop) s :
  hwp m (fun r s' => calm s r s' /\ forall a, r = Done a -> P a s') s ->
  (forall a s', calm s (Done a) s' -> P a s' -> hwp (k a) Q s') ->
  (forall e s', calm s (@Failed B e) s' -> Q (Failed e) s') -> hwp (hbind m k) Q s.
Proof.
  intros Hm Hk He. apply hwp_bind. eapply hwp_mono; [exact Hm|]. intros [a|e|] s' [Hc Hp].
  - by apply Hk; [|apply Hp].
  - apply He. by eapply calm_outcome.
  - by destruct Hc as (_ & _ & _ & ?).
Qed.

Lemma calm_any {A} (m : prog request fixture A) s :
  hwp m (calm s) s -> hwp m (fun r s' => calm s r s' /\ forall a, r = Done a -> True) s.
Proof. intros Hm. eapply hwp_mono; [exact Hm|]. done. Qed.

Lemma token_not_stuck v d : _validate_ssh_token v d <> Stuck.
Proof. unfold _validate_ssh_token. by case_match. Qed.

Lemma alias_not_stuck a : alias_option a <> Stuck.
Proof. unfold alias_option. destruct a as [a|]; [|done]. pose proof (token_not_stuck a "host-key alias"). by destruct (_validate_ssh_token _ _). Qed.

Lemma ssh_not_stuck h a args : ssh_command h a args <> Stuck.
Proof.
  unfold ssh_command. pose proof (token_not_stuck h "host"). destruct (_validate_ssh_token _ _); try done.
  pose proof (alias_not_stuck a). by destruct (alias_option a).
Qed.

(** [or_runtime_error] changes only what is raised. *)
Lemma or_runtime_spec {A} t (m : prog request fixture A) (Q : outcome A -> Harness.host request fixture -> Prop) s :
  hwp m (fun r s' => Q r s' /\ match r with Failed _ => forall e, Q (Failed e) s' | _ => True end) s -> hwp (or_runtime_error t m) Q s.
Proof.
  intros Hm. apply hwp_catch. eapply hwp_mono; [exact Hm|]. intros [a|e|] s' [Hq He]; try done.
  case_match; apply hwp_lift, He.
Qed.

Lemma run_remote_spec args timeout s :
  good s -> remote_call (h_trace s) args ->
  hwp (_run_remote o args timeout) (fun r s' => calm s r s' /\ forall v, r = Done v ->
    exists command, ssh_command host alias args = Done command /\
      h_trace s' = h_trace s ++ [Event (Run command timeout (fx_repository (h_state s))) (inl v)]) s.
Proof.
  intros Hg Hc. apply or_runtime_spec, hwp_bind. unfold _ssh. apply hwp_bind, hwp_get, hwp_lift. rewrite (g_host s Hg), (g_alias s Hg).
  pose proof (ssh_not_stuck host alias args) as Hns. destruct (ssh_command host alias args) as [command|e|] eqn:Ec; [| |done].
  - apply hwp_bind, hwp_get. assert (forall a, good (log s (Run command timeout (fx_repository (h_state s))) a)) as Hlog.
    { intros a. apply good_log; [done| |done]. left. exists args. split_and!; try done. by eapply remote_call_words. }
    apply hwp_call; [intros v|intros e].
    + split; [|done]. split; [by apply calm_log|]. intros v' [= <-]. by exists command.
    + split; [split; [by apply calm_log|done]|]. intros e'. split; [by apply calm_log|done].
  - split; [split; [by apply calm_refl|done]|]. intros e'. split; [by apply calm_refl|done].
Qed.

(** The check of a path, and its answer in the trace. *)
Definition checked (tr : list ev) (p : path) (present : bool) : Prop :=
  exists pre command t cwd out, ssh_command host alias [py "test"; py "-e"; path_str p] = Done command /\
    tr = pre ++ [Event (Run command t cwd) (inl (if present then 0 else 1, out))].

Lemma remote_exists_spec root p s :
  good s -> allocated (h_trace s) root -> p ∈ [root; helper root; marker root] ->
  hwp (_remote_exists o p) (fun r s' => calm s r s' /\ forall b, r = Done b -> checked (h_trace s') p b) s.
Proof.
  intros Hg Ha Hp. apply hwp_bind. eapply hwp_mono; [apply run_remote_spec; [done|by econstructor]|].
  intros [[code out]|e|] s' [Hc Hv]; [|split; [by eapply calm_outcome|done]|by destruct Hc as (_ & _ & _ & ?)].
  destruct (Hv _ eq_refl) as (command & Ec & Et).
  destruct (Z.eqb_spec code 0) as [->|H0]; [|destruct (Z.eqb_spec code 1) as [->|H1]]; apply hwp_lift;
    (split; [by eapply calm_outcome|]); [intros b [= <-]..|done];
    (eexists _, command, _, _, out; split; [exact Ec|exact Et]).
Qed.

Lemma validate_temp_root_spec value s :
  good s -> hwp (validate_temp_root o value) (fun r s' => calm s r s' /\ forall p, r = Done p ->
    p = Path value /\ temp_root p /\ Event (IsSymlink p) (inl false) ∈ h_trace s') s.
Proof.
  intros Hg. unfold validate_temp_root. destruct (negb _ || _ || _) eqn:E; [apply hwp_lift; split; [by apply calm_refl|done]|].
  bool_hyps. apply hwp_bind. assert (forall a, good (log s (IsSymlink (Path value)) a)) as Hlog by (intros a; by apply good_log).
  apply hwp_call; [intros [|]; apply hwp_lift|intros e]; (split; [by apply calm_log|]); try done.
  intros p [= <-]. split_and!; [done| |apply elem_of_app; right; by left].
  exists (path_name (Path value)). split; [done|]. destruct (Path value) as [r l]. unfold parent, path_name in *.
  match goal with H : _ = Path (py "/tmp") |- _ => vm_compute (Path (py "/tmp")) in H; cbn in H; injection H as -> Ht end.
  cbn [p_tail] in *. destruct (list_snoc_cases l) as [-> |(l' & x & ->)]; [done|].
  rewrite length_app, Nat.add_1_r in Ht. cbn [pred] in Ht. rewrite take_app_length in Ht. rewrite last_snoc, Ht. done.
Qed.

Lemma allocate_spec s :
  good s -> hwp (_allocate_remote_root o) (fun r s' => calm s r s' /\ forall root, r = Done root -> allocated (h_trace s') root) s.
Proof.
  intros Hg. apply hwp_bind. eapply hwp_mono; [apply run_remote_spec; [done|constructor]|].
  intros [[code out]|e|] s' [Hc Hv]; [|split; [by eapply calm_outcome|done]|by destruct Hc as (_ & _ & _ & ?)].
  destruct (Hv _ eq_refl) as (command & Ec & Et).
  assert (forall A (e : fault), hwp (@hlift request fixture A (Failed e)) (fun r s'' => calm s r s'' /\ forall x, r = Done x -> False) s') as Hf.
  { intros A e. apply hwp_lift. split; [by eapply calm_outcome|done]. }
  destruct (Z.eqb_spec code 0) as [->|]; [|eapply hwp_mono; [apply Hf|]; by intros r s'' [? Hd]; split; [|intros x Ex; destruct (Hd x Ex)]].
  cbn [negb]. destruct (splitlines out) as [|line [|]] eqn:El;
    [eapply hwp_mono; [apply Hf|]; by intros r s'' [? Hd]; split; [|intros x Ex; destruct (Hd x Ex)]| |
     eapply hwp_mono; [apply Hf|]; by intros r s'' [? Hd]; split; [|intros x Ex; destruct (Hd x Ex)]].
  eapply hwp_mono; [apply validate_temp_root_spec, Hc|]. intros r s'' [Hc' Hp]. split; [by eapply calm_trans|].
  intros root ->. destruct (Hp _ eq_refl) as (-> & Htr & Hl). split; [done|].
  exists command, (sec 45), (fx_repository (h_state s)), out, line. split_and!; try done.
  destruct Hc' as (_ & _ & [l ->] & _). rewrite Et, !elem_of_app. left. right. by left.
Qed.

Lemma under_normal root names :
  normal root -> Forall (fun n => plain_name (py n)) names -> normal (under root names).
Proof.
  revert root. induction names as [|n names IH]; intros root Hr Hn; [done|]. apply Forall_cons in Hn as [? ?].
  apply (IH (child root (py n))); [by apply child_normal|done].
Qed.

Lemma under_root root names : p_root (under root names) = p_root root.
Proof. revert root. induction names as [|n names IH]; intros root; [done|]. exact (IH (child root (py n))). Qed.

Lemma temp_root_normal root : temp_root root -> normal root /\ p_root root = [47].
Proof.
  intros (name & Hn & ->). split; [|done]. apply root_name_lang in Hn as (suffix & -> & Hs). split; [simpl; auto|].
  apply Forall_cons_2; [split; [done|]; eapply bool_decide_unpack; vm_compute; exact I|].
  apply Forall_cons_2; [|constructor]. split; [done|]. intros [H|H]%elem_of_app.
  - revert H. eapply bool_decide_unpack. vm_compute. exact I.
  - by apply (proj1 (Forall_forall _ _) Hs) in H.
Qed.

(** Inputs go to paths below the root whose text is the path itself. *)
Lemma input_target repository root source target :
  temp_root root -> (source, target) ∈ input_files repository root -> Path (path_str target) = target.
Proof.
  intros Hr Hin. destruct (temp_root_normal root Hr) as [Hn H47].
  unfold input_files in Hin. rewrite !elem_of_cons, elem_of_nil in Hin.
  destruct Hin as [[_ ->]%pair_eq|[[_ ->]%pair_eq|[[_ ->]%pair_eq|[]]]]; (apply Path_str; [|unfold is_absolute; by rewrite under_root, H47]);
    (apply under_normal; [done|]); repeat (apply Forall_cons_2; [split; [done|]; eapply bool_decide_unpack; vm_compute; exact I|]); constructor.
Qed.

Lemma destination_spec value s :
  good s -> hwp (validate_temp_destination o value) (fun r s' => calm s r s' /\ forall p, r = Done p -> p = Path value) s.
Proof.
  intros Hg. unfold validate_temp_destination. case_match; [apply hwp_lift; split; [by apply calm_refl|done]|].
  apply hwp_bind, hwp_catch. eapply hwp_mono; [by apply validate_temp_root_spec|].
  intros [p|e|] s' [Hc _]; [| |by destruct Hc as (_ & _ & _ & ?)].
  - case_match; apply hwp_lift; (split; [by eapply calm_outcome|]); [done|by intros p' [= <-]].
  - case_match; apply hwp_lift; (split; [by eapply calm_outcome|done]).
Qed.

Lemma token_same v d r : _validate_ssh_token v d = Done r -> r = v.
Proof. unfold _validate_ssh_token. case_match; [done|]. by intros [= <-]. Qed.

Lemma scp_spec source value s :
  good s -> hwp (scp_command o host alias source value) (fun r s' => calm s r s' /\ forall c, r = Done c ->
    exists alias_args, alias_option alias = Done alias_args /\ c = copy_command source (Path value) alias_args) s.
Proof.
  intros Hg. apply hwp_bind, hwp_lift. pose proof (token_not_stuck host "host") as Hn.
  destruct (_validate_ssh_token host "host") as [h|e|] eqn:Eh; [|split; [by apply calm_refl|done]|done]. apply token_same in Eh as ->.
  apply hwp_bind. eapply hwp_mono; [by apply destination_spec|].
  intros [p|e|] s' [Hc Hp]; [|split; [by eapply calm_outcome|done]|by destruct Hc as (_ & _ & _ & ?)].
  rewrite (Hp p eq_refl). apply hwp_bind, hwp_lift. pose proof (alias_not_stuck alias) as Ha.
  destruct (alias_option alias) as [args|e|] eqn:Ea; [apply hwp_ret|..|done]; (split; [by eapply calm_outcome|]); [|done].
  intros c [= <-]. by exists args.
Qed.

Lemma copy_input_spec root source target s :
  good s -> allocated (h_trace s) root -> (source, target) ∈ input_files (fx_repository (h_state s)) root ->
  hwp (copy_input o source target) (calm s) s.
Proof.
  intros Hg Ha Hin. apply hwp_bind, hwp_get, hwp_bind.
  assert (forall a, good (log s (IsFile source) a)) as Hlog by (intros a; by apply good_log).
  apply hwp_call; [intros present|intros e; by apply calm_log].
  set (s1 := log s (IsFile source) (inl present)). assert (calm s (Done ()) s1) as Hc1 by (by apply calm_log).
  change (Host _ _) with s1. destruct present; cbn [negb]; [|apply hwp_lift; by eapply calm_outcome].
  apply hwp_bind. rewrite (g_host s Hg), (g_alias s Hg).
  eapply (hwp_mono _ (fun r s' => calm s r s')); [|intros [[code out]|e|] s' Hc; [case_match; apply hwp_lift; by eapply calm_outcome|by eapply calm_outcome|by destruct Hc as (_ & _ & _ & ?)]].
  apply or_runtime_spec, hwp_bind. eapply hwp_mono; [apply scp_spec, Hlog|].
  intros [c|e|] s2 [Hc2 Hv]; [| |by destruct Hc2 as (_ & _ & _ & ?)].
  2: { split; [|intros e']; (eapply calm_trans; [exact Hc1|]; by eapply calm_outcome). }
  destruct (Hv c eq_refl) as (alias_args & Eal & ->). rewrite (input_target _ _ _ _ (proj1 Ha) Hin).
  assert (calm s (Done ()) s2) as Hc12 by (eapply calm_trans; [exact Hc1|by eapply calm_outcome]).
  assert (forall a, calm s (Done ()) (log s2 (Run (copy_command source target alias_args) (sec 90) (fx_repository (h_state s))) a)) as Hrun.
  { intros a. eapply calm_trans; [exact Hc12|]. apply calm_log; [|done]. apply good_log; [by apply Hc2| |done].
    right. destruct Hc12 as (Hg2 & Est & Hpre & _). exists (fx_repository (h_state s)), root, source, target, alias_args.
    split_and!; try done; [rewrite <-Est; apply Hg2|]. by eapply calm_allocated; [apply Hc2|apply allocated_mono]. }
  apply hwp_call; [intros v|intros e]; (split; [by eapply calm_outcome; [apply Hrun|]|]); [done|intros e'; by eapply calm_outcome; [apply Hrun|]].
Qed.

Lemma copy_files_spec root files s :
  good s -> allocated (h_trace s) root -> (forall x, x ∈ files -> x ∈ input_files (fx_repository (h_state s)) root) ->
  hwp (copy_files o files) (calm s) s.
Proof.
  revert s. induction files as [|[source target] files IH]; intros s Hg Ha Hin; [apply hwp_ret; by apply calm_refl|].
  apply hwp_bind. eapply hwp_mono; [apply (copy_input_spec root); [done|done|apply Hin; by left]|].
  intros [[]|e|] s' Hc; [|by eapply calm_outcome|by destruct Hc as (_ & _ & _ & ?)].
  eapply hwp_mono; [apply IH; [apply Hc|by eapply calm_allocated|]|intros r s'' Hc'; by eapply calm_trans].
  destruct Hc as (_ & -> & _). intros x Hx. apply Hin. by right.
Qed.

Lemma copy_inputs_spec root s : good s -> allocated (h_trace s) root -> hwp (_copy_inputs o root) (calm s) s.
Proof.
  intros Hg Ha. apply hwp_bind. eapply hwp_mono; [apply run_remote_spec; [done|by constructor]|].
  intros [[code out]|e|] s' [Hc _]; [|by eapply calm_outcome|by destruct Hc as (_ & _ & _ & ?)].
  case_match; [apply hwp_lift; by eapply calm_outcome|]. apply hwp_bind, hwp_get.
  eapply hwp_mono; [apply (copy_files_spec root); [apply Hc|by eapply calm_allocated|done]|]. intros r s'' Hc'. by eapply calm_trans.
Qed.

(** * Removal *)

Lemma worker_stopped_spec s :
  good s -> hwp (worker_stopped o) (fun r s' => calm s r s' /\ forall b, r = Done b -> b = true -> worker_alive (h_trace s') = false) s.
Proof.
  intros Hg. apply hwp_bind, hwp_get. destruct (fx_process (h_state s)) eqn:Ep.
  - apply hwp_bind, hwp_ask. intros a _. apply hwp_ret. split; [apply calm_log; [|done]; apply good_log; [done|done|by destruct a]|].
    intros b [= <-]. destruct a; [|done]. intros _. simpl. unfold worker_alive. by rewrite foldl_app.
  - apply hwp_ret. split; [by apply calm_refl|]. intros b _ _. by apply (g_process s Hg).
Qed.

(** [_remote_exists(root)] after a command that has to succeed first. *)
Lemma remains_spec root code s :
  good s -> allocated (h_trace s) root ->
  hwp (if code =? 0 then _remote_exists o root else hret true)
    (fun r s' => calm s r s' /\ forall b, r = Done b -> b = false -> checked (h_trace s') root false) s.
Proof.
  intros Hg Ha. case_match; [|apply hwp_ret; split; [by apply calm_refl|by intros b [= <-]]].
  eapply hwp_mono; [apply (remote_exists_spec root); [done|done|by left]|]. intros r s' [Hc Hb]. split; [done|].
  intros b Er ->. by apply Hb.
Qed.

Lemma remove_tree_spec root s :
  good s -> allocated (h_trace s) root ->
  hwp (remove_tree o root) (fun r s' => calm s r s' /\ forall a, r = Done a -> checked (h_trace s') root false) s.
Proof.
  intros Hg Ha. eapply calm_bind; [by apply worker_stopped_spec| |intros e s' Hc; by split].
  intros stopped s1 Hc1 Hs. destruct stopped; [|apply hwp_lift; split; [by eapply calm_outcome|done]]. cbn [negb].
  eapply calm_bind; [apply run_remote_spec; [apply Hc1|constructor; [by eapply calm_allocated|by apply Hs]]| |];
    [|intros e s' Hc; split; [by eapply calm_trans|done]].
  intros [code out] s2 Hc2 _. assert (calm s (Done ()) s2) as Hc12 by (eapply calm_outcome; [by eapply calm_trans|done]).
  eapply calm_bind; [apply (remains_spec root); [apply Hc2|by eapply calm_allocated]| |];
    [|intros e s' Hc; split; [by eapply calm_trans|done]].
  intros remains s3 Hc3 Hr. destruct remains; apply hwp_lift; (split; [by eapply calm_trans; [exact Hc12|eapply calm_outcome]|]); [done|].
  intros a _. by apply Hr.
Qed.

Lemma helper_cleanup_spec root s :
  good s -> allocated (h_trace s) root ->
  hwp (helper_cleanup o root) (fun r s' => calm s r s' /\ forall b, r = Done b -> b = true -> checked (h_trace s') root false) s.
Proof.
  intros Hg Ha. apply hwp_bind, hwp_get.
  eapply calm_bind; [apply run_remote_spec; [done|by constructor]| |intros e s' Hc; by split].
  intros [code out] s1 Hc1 _. eapply calm_bind; [apply (remains_spec root); [apply Hc1|by eapply calm_allocated]| |];
    [|intros e s' Hc; split; [by eapply calm_trans|done]].
  intros remains s2 Hc2 Hr. assert (calm s (Done ()) s2) as Hc12 by (eapply calm_outcome; [by eapply calm_trans|done]).
  destruct remains; cbn [negb]; [|apply hwp_ret; split; [by eapply calm_outcome|]; intros b _ _; by apply Hr].
  eapply calm_bind; [apply worker_stopped_spec, Hc2| |intros e s' Hc; split; [by eapply calm_trans|done]].
  intros stopped s3 Hc3 _. assert (calm s (Done ()) s3) as Hc13 by (eapply calm_trans; [exact Hc12|by eapply calm_outcome]).
  eapply calm_bind; [apply (remote_exists_spec root); [apply Hc3|by eapply calm_allocated|by right; right; left]| |];
    [|intros e s' Hc; split; [by eapply calm_trans|done]].
  intros marked s4 Hc4 _. case_match; apply hwp_lift; (split; [by eapply calm_trans; [exact Hc13|eapply calm_outcome]|]); [done|by intros b [= <-]].
Qed.

Lemma remove_spec s :
  good s -> hwp (_remove_remote_root o) (fun r s' => calm s r s' /\ forall a, r = Done a ->
    forall root, fx_root (h_state s) = Some root -> checked (h_trace s') root false) s.
Proof.
  intros Hg. apply hwp_bind, hwp_get. destruct (fx_root (h_state s)) as [root|] eqn:Er;
    [|apply hwp_ret; split; [by apply calm_refl|done]].
  pose proof (g_root s Hg root Er) as Ha.
  assert (forall tr, checked tr root false -> forall root', Some root = Some root' -> checked tr root' false) as Hsome by (by intros tr ? root' [= <-]).
  eapply calm_bind; [apply (remote_exists_spec root); [done|done|by left]| |intros e s' Hc; by split].
  intros present s1 Hc1 Hp. destruct present; cbn [negb]; [|apply hwp_ret; split; [by eapply calm_outcome|]; intros a _; by apply Hsome].
  eapply calm_bind; [apply (remote_exists_spec root); [apply Hc1|by eapply calm_allocated|by right; left]| |];
    [|intros e s' Hc; split; [by eapply calm_trans|done]].
  intros has s2 Hc2 _. assert (calm s (Done ()) s2) as Hc12 by (eapply calm_outcome; [by eapply calm_trans|done]).
  assert (allocated (h_trace s2) root) as Ha2 by (by eapply calm_allocated).
  eapply (calm_bind _ _ (fun b s' => b = true -> checked (h_trace s') root false)).
  - destruct has; [apply helper_cleanup_spec; [apply Hc2|done]|]. apply hwp_ret. split; [apply calm_refl; [apply Hc2|done]|by intros b [= <-]].
  - intros removed s3 Hc3 Hr. assert (calm s (Done ()) s3) as Hc13 by (eapply calm_trans; [exact Hc12|by eapply calm_outcome]).
    destruct removed; [apply hwp_ret; split; [by eapply calm_outcome|]; intros a _; by apply Hsome, Hr|].
    eapply hwp_mono; [apply remove_tree_spec; [apply Hc3|by eapply calm_allocated]|]. intros r s' [Hc Hd].
    split; [by eapply calm_trans|]. intros a Ea. apply Hsome. by eapply Hd.
  - intros e s' Hc. split; [by eapply calm_trans|done].
Qed.

End Remote.

Arguments g_rule {ROOT host alias} s _.
Arguments g_host {ROOT host alias} s _.
Arguments g_alias {ROOT host alias} s _.
Arguments g_repository {ROOT host alias} s _.
Arguments g_root {ROOT host alias} s _ _ _.
Arguments g_process {ROOT host alias} s _ _.
Arguments g_messages {ROOT host alias} s _ _ _.
Arguments g_stopped {ROOT host alias} s _ _.
Arguments g_ready {ROOT host alias} s _ _ _.
Arguments g_timeout {ROOT host alias} s _.
Arguments good_read {ROOT host alias} t p s _.
Arguments good_reader {ROOT host alias} v s _.
Arguments good_phase {ROOT host alias} v s _.
Arguments good_set_messages {ROOT host alias} v s _ _.
