(* ===== verification/RemoteClaims.v ===== *)
(** Runs of the remote fixture under every environment: waiting for the worker, closing, the
    clients of a phase; what the run guarantees about the records it trusts, its commands and
    its exit status; and a run on concrete answers. *)

From stdpp Require Import gmap.
From S2P Require Import Prelude PyVal Json Regex Harness PyPath RemoteRecords RemoteFixture RemoteFacts.

Open Scope Z_scope.
Open Scope harness_scope.

Section Remote.
Context (o : oracle request) (toml_loads : pystr -> option pydict) (ROOT : path).
Context (host : pystr) (alias : option pystr).

#[local] Abbreviation allocated := (RemoteFacts.allocated host alias).
#[local] Abbreviation checked := (RemoteFacts.checked host alias).
#[local] Abbreviation rule := (RemoteFacts.rule ROOT host alias).
#[local] Abbreviation good := (RemoteFacts.good ROOT host alias).
#[local] Abbreviation calm := (RemoteFacts.calm ROOT host alias).

(** * Waiting *)

(** The trace grows and only the reader's fields change. *)
Definition steady (s s' : Harness.host request fixture) : Prop :=
  good s' /\ h_trace s `prefix_of` h_trace s' /\ fx_root (h_state s') = fx_root (h_state s) /\
  fx_process (h_state s') = fx_process (h_state s) /\ fx_ready (h_state s') = fx_ready (h_state s) /\
  fx_phase (h_state s') = fx_phase (h_state s) /\ (fx_reader (h_state s) <> Unstarted -> fx_reader (h_state s') <> Unstarted).

Lemma steady_refl s : good s -> steady s s.
Proof. by intros Hg. Qed.

Lemma steady_trans s s' s'' : steady s s' -> steady s' s'' -> steady s s''.
Proof.
  intros (_ & P & E1 & E2 & E3 & E4 & E5) (Hg & P' & E1' & E2' & E3' & E4' & E5').
  split_and!; [done|by etrans|congruence|congruence|congruence|congruence|auto].
Qed.

Lemma steady_log {R} s (q : request R) (a : R) : good (log s q a) -> steady s (log s q a).
Proof. intros Hg. split_and!; try done. by exists [Event q a]. Qed.

Lemma calm_steady {A} s (r : outcome A) s' : calm s r s' -> steady s s'.
Proof. intros (Hg & E & P & _). unfold steady. rewrite E. by split_and!. Qed.

Lemma observe_spec timeout s : good s -> hwp (observe o timeout) (fun r s' => steady s s' /\ r <> Stuck) s.
Proof.
  intros Hg. apply hwp_bind, hwp_get. destruct (fx_reader (h_state s)) eqn:Er; try (apply hwp_ret; by split; [apply steady_refl|]).
  apply hwp_bind, hwp_ask. intros p _. apply hwp_update. split; [|done]. pose proof (good_read timeout p s Hg) as Hr.
  split_and!; [exact Hr|by exists [Event (ReaderLines timeout) p]|..];
    unfold _read_stdout; cbn [log h_state]; rewrite read_lines; destruct p as [lines ended]; cbn [snd]; destruct ended; try done; by rewrite ?Er.
Qed.

Lemma empty_spec s : good s -> hwp (messages_empty o) (fun r s' => steady s s' /\ r <> Stuck) s.
Proof.
  intros Hg. apply hwp_bind. eapply hwp_mono; [by apply observe_spec|]. intros [[]|e|] s' [Hc Hr]; [|by split|done].
  apply hwp_bind, hwp_get, hwp_ret. by split.
Qed.

Lemma get_message_spec timeout s :
  good s -> hwp (get_message o timeout) (fun r s' => steady s s' /\ r <> Stuck /\ forall m, r = Done (Some (Some m)) -> heard (h_trace s') m) s.
Proof.
  intros Hg. apply hwp_bind. eapply hwp_mono; [by apply observe_spec|]. intros [[]|e|] s' [Hc Hr]; [|by split_and!|done].
  apply hwp_bind, hwp_get. destruct (fx_messages (h_state s')) as [|m rest] eqn:Em; [apply hwp_ret; by split_and!|].
  apply hwp_bind, hwp_update, hwp_ret. destruct Hc as (Hg' & P & Hrest). split_and!; [|done|].
  - split_and!; [|done|by apply Hrest..]. apply (good_set_messages rest s'); [done|]. rewrite Em. intros x Hx. by right.
  - intros x [= ->]. apply (g_messages s' Hg'). rewrite Em. by left.
Qed.

Definition clock_advances (tick : Z) : Prop := forall tr t, Event Clock t ∈ tr -> t + tick <= o Z tr Clock.

(** What [_wait_ready] gives in a phase. *)
Definition awaited (phase : Z) (s s' : Harness.host request fixture) (r : outcome RemoteReady) : Prop :=
  steady s s' /\ forall x, r = Done x -> announced (h_trace s') x /\ ready_phase x = phase.

Lemma awaited_failed phase s s' e : steady s s' -> awaited phase s s' (Failed e).
Proof. by intros. Qed.

Definition late (n : nat) (last deadline : Z) (r : outcome RemoteReady) : Prop :=
  r = Stuck -> forall tick, clock_advances tick -> n = O \/ last + Z.of_nat n * tick < deadline.

Lemma parse_line_spec line phase s :
  good s -> heard (h_trace s) line -> forall n last deadline,
  hwp (hcatch (hlift (parse_remote_ready_record line phase None))
       (fun e => if is_ValueError (f_class e)
                 then fail RuntimeError (py "remote Registry fixture reported invalid peer addresses") else reraise e))
    (fun r s' => awaited phase s s' r /\ late n last deadline r) s.
Proof.
  intros Hg Hm n last deadline. apply hwp_catch, hwp_lift. destruct (parse_remote_ready_record line phase None) as [x|e|] eqn:E.
  - split; [|done]. split; [by apply steady_refl|]. intros x' [= <-]. apply ready_record_done in E as (Ha & Hp & Hd & _).
    split; [|done]. by exists line.
  - case_match; apply hwp_lift; (split; [by apply awaited_failed, steady_refl|done]).
  - exfalso. revert E. unfold parse_remote_ready_record. assert (forall v x, parse_remote_peer_address v x <> Stuck) as Hp.
    { intros v x. unfold parse_remote_peer_address. by repeat case_match. }
    repeat case_match; try done; intros _; by eapply Hp.
Qed.

Lemma log_clock s t : Event Clock t ∈ h_trace (log s Clock t).
Proof. apply elem_of_app. right. by left. Qed.

Lemma steady_event {R} s s' (q : request R) a : steady s s' -> Event q a ∈ h_trace s -> Event q a ∈ h_trace s'.
Proof. intros (_ & [l ->] & _) H. apply elem_of_app. by left. Qed.

(** The next round, after the clock showed [now]. *)
Lemma late_next n last now deadline r :
  (forall tick, clock_advances tick -> last + tick <= now) -> now < deadline -> late n now deadline r -> late (S n) last deadline r.
Proof.
  intros Hl Hn H Er tick Ht. right. specialize (Hl tick Ht). destruct (H Er tick Ht) as [-> |H']; [simpl; lia|].
  rewrite Nat2Z.inj_succ. lia.
Qed.

Lemma awaited_after phase s s' s'' r : steady s s' -> awaited phase s' s'' r -> awaited phase s s'' r.
Proof. intros Hs [Hs' Hd]. split; [by eapply steady_trans|done]. Qed.

Lemma wait_loop_spec phase deadline n : forall last s,
  good s -> Event Clock last ∈ h_trace s ->
  hwp (wait_loop o n deadline phase) (fun r s' => awaited phase s s' r /\ late n last deadline r) s.
Proof.
  induction n as [|n IH]; intros last s Hg Hl; cbn [wait_loop].
  { apply hwp_lift. split; [by split; [apply steady_refl|]|]. intros _ tick _. by left. }
  apply hwp_bind, hwp_ask. intros now Enow. set (s1 := log s Clock now). change (Host _ _) with s1.
  assert (steady s s1) as H1 by (apply steady_log; by apply good_log).
  assert (forall tick, clock_advances tick -> last + tick <= now) as Hadv by (intros tick Ht; rewrite Enow; by apply Ht).
  assert (forall s', steady s s' -> forall e, awaited phase s s' (Failed e) /\ late (S n) last deadline (Failed e)) as Hfail by (by intros).
  destruct (Z.ltb_spec now deadline) as [Hn|]; [|by apply hwp_lift, Hfail]. cbn [negb].
  apply hwp_bind, hwp_get. case_match; [by apply hwp_lift, Hfail|]. apply hwp_bind, hwp_ask. intros code _.
  set (s2 := log s1 Poll code). change (Host _ _) with s2.
  assert (steady s s2) as H2 by (eapply steady_trans; [exact H1|]; apply steady_log; apply good_log; [apply H1|done|by destruct code]).
  apply hwp_bind. eapply (hwp_mono _ (fun r s' => steady s2 s' /\ r <> Stuck)).
  { destruct code; [apply empty_spec, H2|]. apply hwp_ret. by split; [apply steady_refl, H2|]. }
  intros [finished|e|] s3 [H23 Hr]; [|by apply Hfail; eapply steady_trans|done].
  assert (steady s s3) as H3 by (by eapply steady_trans).
  destruct finished; [by apply hwp_lift, Hfail|]. apply hwp_bind, hwp_ask. intros later _.
  set (s4 := log s3 Clock later). change (Host _ _) with s4.
  assert (steady s s4) as H4 by (eapply steady_trans; [exact H3|]; apply steady_log; by apply good_log; [apply H3|..]).
  apply hwp_bind. eapply hwp_mono; [apply get_message_spec, H4|].
  intros [m|e|] s5 (H45 & Hr5 & Hm); [|by apply Hfail; eapply steady_trans|done].
  assert (steady s s5) as H5 by (by eapply steady_trans).
  assert (Event Clock now ∈ h_trace s5) as Hc5.
  { eapply steady_event; [exact H45|]. apply elem_of_app; left. eapply steady_event; [exact H23|]. apply elem_of_app; left. apply log_clock. }
  assert (forall s', steady s s' -> Event Clock now ∈ h_trace s' ->
    hwp (wait_loop o n deadline phase) (fun r s'' => awaited phase s s'' r /\ late (S n) last deadline r) s') as Hloop.
  { intros s' Hs' Hc'. eapply hwp_mono; [apply (IH now s'); [apply Hs'|done]|]. intros r s'' [Ha Hlate].
    split; [by eapply awaited_after|by eapply late_next]. }
  destruct m as [[line|]|]; [|by apply hwp_lift, Hfail|by apply Hloop].
  destruct (tagged "REMOTE_STAGE" line).
  { assert (forall a, steady s (log s5 (Print true (py "remote Registry preflight: " ++ detail line)) a)) as H6.
    { intros a. eapply steady_trans; [exact H5|]. apply steady_log. by apply good_log; [apply H5|..]. }
    apply hwp_bind, hwp_call; [intros []|intros e; apply Hfail, H6]. apply (Hloop _ (H6 _)). apply elem_of_app. by left. }
  do 2 (case_match; [by apply hwp_lift, Hfail|]). case_match; [|by apply Hloop].
  eapply hwp_mono; [apply (parse_line_spec line phase s5 (proj1 H5) (Hm line eq_refl) (S n) last deadline)|].
  intros r s' [Ha Hlate]. split; [by eapply awaited_after|done].
Qed.

(** Too few rounds for a clock of this resolution. *)
Definition short (rounds : nat) : Prop := forall tick, 0 < tick -> clock_advances tick -> Z.of_nat rounds * tick <= sec 2400.

Lemma wait_ready_spec rounds phase s :
  good s -> hwp (_wait_ready o rounds phase) (fun r s' => awaited phase s s' r /\ (r = Stuck -> short rounds)) s.
Proof.
  intros Hg. apply hwp_bind, hwp_ask. intros now _. set (s1 := log s Clock now). change (Host _ _) with s1.
  assert (steady s s1) as H1 by (apply steady_log; by apply good_log). apply hwp_bind, hwp_get. rewrite (g_timeout s1 (proj1 H1)).
  eapply hwp_mono; [apply (wait_loop_spec phase _ rounds now s1 (proj1 H1)), log_clock|]. intros r s' [Ha Hl].
  split; [by eapply awaited_after|]. intros Er tick Ht Hc. destruct (Hl Er tick Hc) as [-> |]; [vm_compute; discriminate|lia].
Qed.

(** * Closing *)

(** The worker ended well and said so. *)
Definition worker_done (tr : list ev) : Prop :=
  (exists t, Event (Wait t) (inl 0) ∈ tr) /\ exists m, heard tr m /\ tagged "REMOTE_STOPPED" m = true.

Lemma worker_done_mono tr tr' : worker_done tr -> worker_done (tr ++ tr').
Proof.
  intros [(t & H) (m & Hm & Ht)]. split; [exists t; apply elem_of_app; by left|]. exists m. split; [by apply heard_mono|done].
Qed.

(** A call whose exceptions are only recorded. *)
Lemma call_steady {A} (q : request (A + fault)) s :
  good s -> (forall a, rule (h_trace s) (Event q a)) -> (forall a, worker_step false (Event q a) = false) ->
  hwp (call o q) (fun r s' => steady s s' /\ r <> Stuck /\ forall a, r = Done a -> Event q (inl a) ∈ h_trace s') s.
Proof.
  intros Hg Hr Hw. apply hwp_call; [intros a|intros e]; (split_and!; [apply steady_log; by apply good_log|done|]); [|done].
  intros a' [= <-]. apply elem_of_app. right. by left.
Qed.

Lemma send_stop_spec s : good s -> hwp (send_stop o) (fun r s' => steady s s' /\ r <> Stuck) s.
Proof.
  intros Hg. apply hwp_bind, hwp_ask. intros code _. assert (steady s (log s Poll code)) as H1.
  { apply steady_log. apply good_log; [done|done|by destruct code]. }
  destruct code; [by apply hwp_ret|]. apply hwp_catch. eapply hwp_mono; [apply call_steady; [apply H1|intros a; by left|done]|].
  intros r s' (H2 & Hr & _). assert (steady s s') as H12 by (by eapply steady_trans).
  destruct r as [|e|]; [by split| |done]. case_match; apply hwp_lift; by split.
Qed.

Definition waited (s s' : Harness.host request fixture) (r : outcome (Z + fault)) : Prop :=
  steady s s' /\ forall v, r = Done v -> forall code, v = inl code -> exists t, Event (Wait t) (inl code) ∈ h_trace s'.

Lemma waited_error s s' e : steady s s' -> waited s s' (Done (inr e)) /\ Done (@inr Z fault e) <> Stuck.
Proof. intros Hs. split; [|done]. split; [done|]. by intros v [= <-]. Qed.

(** [terminate] or [kill], and ten seconds. *)
Lemma end_worker_spec q s :
  q = Terminate \/ q = Kill -> good s ->
  hwp (hattempt (do _ <- call o q; call o (Wait (sec 10)))) (fun r s' => waited s s' r /\ r <> Stuck) s.
Proof.
  intros Hq Hg. apply hwp_attempt, hwp_bind. eapply hwp_mono; [apply call_steady; [done|by destruct Hq as [-> | ->]|by destruct Hq as [-> | ->]]|].
  intros [[]|e|] s1 (H1 & Hr & _); [|by apply waited_error|done]. eapply hwp_mono; [apply call_steady; [apply H1|done|by intros []]|].
  intros [code|e|] s2 (H2 & Hr2 & He); [| |done]; (split; [split; [by eapply steady_trans|]|done]).
  - intros v [= <-] c [= <-]. eauto.
  - by intros v [= <-].
Qed.

Lemma wait_worker_spec s : good s -> hwp (wait_worker o) (fun r s' => waited s s' r /\ r <> Stuck) s.
Proof.
  intros Hg. apply hwp_bind, hwp_get, hwp_bind, hwp_attempt.
  eapply hwp_mono; [apply call_steady; [done|done|by intros []]|]. intros [code|e|] s1 (H1 & Hr & He); [| |done].
  - apply hwp_ret. split; [split; [done|]|done]. intros v [= <-] c [= <-]. eauto.
  - case_match; [|by apply hwp_ret, waited_error]. apply hwp_bind.
    eapply hwp_mono; [apply end_worker_spec; [by left|apply H1]|]. intros [[code|e']|e'|] s2 [[H2 Hv] Hr2]; [| | |done].
    + apply hwp_ret. split; [split; [by eapply steady_trans|]|done]. intros v [= <-] c [= <-]. by eapply Hv.
    + case_match; [|apply hwp_ret, waited_error; by eapply steady_trans].
      eapply hwp_mono; [apply end_worker_spec; [by right|apply H2]|]. intros r s3 [[H3 Hv3] Hr3].
      split; [|done]. split; [by do 2 (eapply steady_trans; [eassumption|])|done].
    + split; [split; [by eapply steady_trans|done]|done].
Qed.

Lemma join_spec s : good s -> hwp (join_reader o) (fun r s' => steady s s' /\ r <> Stuck) s.
Proof.
  intros Hg. apply hwp_bind, hwp_get. destruct (fx_reader (h_state s)); try by apply observe_spec.
  apply hwp_lift. by split; [apply steady_refl|].
Qed.

Lemma stop_worker_spec s :
  good s -> hwp (stop_worker o) (fun r s' => steady s s' /\ r <> Stuck /\ (r = Done None -> worker_done (h_trace s'))) s.
Proof.
  intros Hg. apply hwp_bind, hwp_attempt. eapply hwp_mono; [by apply send_stop_spec|].
  intros [[]|e|] s1 [H1 Hr1]; [|apply hwp_ret; by split_and!|done].
  apply hwp_bind. eapply hwp_mono; [apply wait_worker_spec, H1|]. intros [w|e|] s2 [[H2 Hw] Hr2]; [|split_and!; [by eapply steady_trans|done..]|done].
  apply hwp_bind, hwp_attempt. eapply hwp_mono; [apply join_spec, H2|].
  assert (forall s3, steady s2 s3 -> steady s s3) as H123 by (intros s3 H3; by do 2 (eapply steady_trans; [eassumption|])).
  intros [[]|e|] s3 [H3 Hr3]; [| |done]; apply hwp_bind, hwp_get, hwp_ret.
  - split_and!; [by eapply H123|done|]. destruct w as [code|e]; [|done]. destruct (Z.eqb_spec code 0) as [->|]; [|done].
    destruct (fx_stopped (h_state s3)) eqn:Es; [|done]. intros _. destruct (Hw _ eq_refl 0 eq_refl) as (t & Ht).
    split; [exists t; by eapply steady_event|]. by apply (g_stopped s3 (proj1 H3)).
  - split_and!; [by eapply H123|done|]. by destruct w.
Qed.

(** [close] leaves the root absent, the worker ended, or raises. *)
Definition closed (s s' : Harness.host request fixture) : Prop :=
  (fx_process (h_state s) = true -> worker_done (h_trace s')) /\
  forall root, fx_root (h_state s) = Some root -> checked (h_trace s') root false.

Lemma try_remove_spec err s :
  good s -> hwp (try_remove o err) (fun r s' => calm s r s' /\ forall x, r = Done x -> x = None ->
    err = None /\ forall root, fx_root (h_state s) = Some root -> checked (h_trace s') root false) s.
Proof.
  intros Hg. apply hwp_bind, hwp_attempt. eapply hwp_mono; [by apply remove_spec|].
  intros [a|e|] s' [Hc Hd]; [| |by destruct Hc as (_ & _ & _ & ?)].
  - apply hwp_ret. split; [by eapply calm_outcome|]. intros x [= <-] ->. split; [done|]. by eapply Hd.
  - case_match; apply hwp_lift; (split; [by eapply calm_outcome|]); [|done]. by intros x [= <-].
Qed.

Lemma close_spec s :
  good s -> hwp (close o) (fun r s' => obeys rule (h_trace s') /\ h_trace s `prefix_of` h_trace s' /\ r <> Stuck /\
    (r = Done tt -> closed s s')) s.
Proof.
  intros Hg. apply hwp_bind, hwp_get. destruct (fx_process (h_state s)) eqn:Ep.
  - apply hwp_bind, hwp_bind. eapply hwp_mono; [by apply stop_worker_spec|].
    intros [err|e|] s1 (H1 & Hr1 & Hd); [|split_and!; [apply H1|apply H1|done|done]|done].
    apply hwp_bind. eapply hwp_mono; [apply try_remove_spec, H1|]. intros r s2 [H2 Hx].
    assert (steady s s2) as H12 by (eapply steady_trans; [exact H1|by eapply calm_steady]).
    destruct r as [err'|e|]; [|split_and!; [apply H12|apply H12|done|done]|by destruct H2 as (_ & _ & _ & ?)].
    apply hwp_bind, hwp_update, hwp_ret. destruct err' as [e|]; apply hwp_lift; simpl; (split_and!; [apply H12|apply H12|done|]); [done|].
    intros _. destruct (Hx None eq_refl eq_refl) as [-> Hroot]. split; [intros _|].
    + destruct H2 as (_ & _ & [l ->] & _). by apply worker_done_mono, Hd.
    + intros root Er. apply Hroot. destruct H1 as (_ & _ & E & _). by rewrite E.
  - destruct (fx_root (h_state s)) as [root|] eqn:Er; apply hwp_bind.
    + eapply hwp_mono; [by apply try_remove_spec|]. intros [[e|]|e|] s1 [H1 Hx]; [| | |by destruct H1 as (_ & _ & _ & ?)].
      * apply hwp_lift. split_and!; [apply H1|apply H1|done|done].
      * apply hwp_lift. split_and!; [apply H1|apply H1|done|]. intros _. split; [congruence|].
        by destruct (Hx None eq_refl eq_refl) as [_ ?].
      * split_and!; [apply H1|apply H1|done|done].
    + apply hwp_ret, hwp_ret. split_and!; [apply Hg|done|done|]. intros _. split; congruence.
Qed.

Lemma close_after_spec {A} e s :
  good s -> hwp (close_after (A := A) o e) (fun r s' => obeys rule (h_trace s') /\ exists e', r = Failed e') s.
Proof.
  intros Hg. apply hwp_bind, hwp_attempt. eapply hwp_mono; [by apply close_spec|].
  intros [[]|e'|] s' (Ho & _ & Hr & _); [| |done]; apply hwp_lift; eauto.
Qed.

(** * Running *)

(** The fixture in its [n]th phase. *)
Definition serving (n : Z) (s : Harness.host request fixture) : Prop :=
  good s /\ fx_process (h_state s) = true /\ fx_phase (h_state s) = n /\ fx_root (h_state s) <> None /\
  exists r, fx_ready (h_state s) = Some r /\ ready_phase r = n.

Lemma steady_serving n s s' : serving n s -> steady s s' -> serving n s'.
Proof. intros (_ & ? & ? & ? & ?) (Hg & _ & E1 & E2 & E3 & E4 & _). unfold serving. rewrite E1, E2, E3, E4. done. Qed.

Section Rounds.
Context (rounds : nat).

(** Either the step succeeds in a given way, or the state is still good. *)
Definition succeeds {A} (P : A -> Harness.host request fixture -> Prop) (r : outcome A) (s' : Harness.host request fixture) : Prop :=
  good s' /\ (r = Stuck -> short rounds) /\ forall a, r = Done a -> P a s'.

Lemma succeeds_bind {A B} (m : prog request fixture A) (k : A -> prog request fixture B) P Q s :
  hwp m (succeeds P) s -> (forall a s', good s' -> P a s' -> hwp (k a) (succeeds Q) s') -> hwp (hbind m k) (succeeds Q) s.
Proof.
  intros Hm Hk. apply hwp_bind. eapply hwp_mono; [exact Hm|]. intros [a|e|] s' (Hg & Hs & Hp); [by apply Hk; [|apply Hp]|..]; by split_and!; auto.
Qed.

Lemma succeeds_calm {A} (m : prog request fixture A) P s :
  hwp m (fun r s' => calm s r s' /\ forall a, r = Done a -> P a s') s -> hwp m (succeeds P) s.
Proof. intros Hm. eapply hwp_mono; [exact Hm|]. intros r s' [Hc Hp]. split_and!; [apply Hc|by destruct Hc as (_ & _ & _ & ?)|done]. Qed.

Lemma succeeds_call {A} (q : request (A + fault)) s :
  good s -> (forall a, rule (h_trace s) (Event q a)) -> (forall a, worker_step false (Event q a) = false) ->
  hwp (call o q) (succeeds (fun a s' => s' = log s q (inl a))) s.
Proof.
  intros Hg Hr Hw. apply hwp_call; [intros a|intros e]; (split_and!; [by apply good_log|done|]); [by intros a' [= <-]|done].
Qed.

Lemma succeeds_update f P s : good (upd f s) -> P (upd f s) -> hwp (update f) (succeeds (fun _ => P)) s.
Proof. intros Hg Hp. apply hwp_update. by split_and!. Qed.

(** [Popen] and the field it sets. *)
Lemma popen_spec command cwd (k : prog request fixture unit) P s :
  good s -> rule (h_trace s) (Event (Popen command cwd) (inl tt)) ->
  (forall s', good s' -> h_state s' = set_process true (h_state s) -> hwp k (succeeds P) s') ->
  hwp (do _ <- call o (Popen command cwd); do _ <- update (set_process true); k) (succeeds P) s.
Proof.
  intros Hg Hr Hk. apply hwp_bind, hwp_call.
  - intros []. apply hwp_bind, hwp_update. apply Hk; [|done]. destruct Hg as [? ? ? ? Groot ? Gmessages Gstopped Gready ?]. constructor; simpl; try done.
    + by apply obeys_snoc.
    + apply elem_of_app. by left.
    + intros root E. by apply allocated_mono, Groot.
    + intros m E. by apply heard_mono, Gmessages.
    + intros E. destruct (Gstopped E) as (m & Hm & ?). exists m. split; [by apply heard_mono|done].
    + intros r E. by apply announced_mono, Gready.
  - intros e. split_and!; [|done|done]. by apply good_log.
Qed.

Lemma start_spec s : good s -> hwp (start o toml_loads rounds) (succeeds (fun _ => serving 1)) s.
Proof.
  intros Hg. apply hwp_bind, hwp_get. eapply succeeds_bind; [by apply succeeds_call|]. intros text s1 Hg1 ->.
  apply hwp_bind, hwp_lift. destruct (registry_revision_from_lock_text toml_loads text) as [revision|e|] eqn:Er.
  2: by split_and!.
  2: { exfalso. revert Er. unfold registry_revision_from_lock_text.
       assert (forall l, named_packages l <> Stuck) as Hn by (intros l; induction l as [|[] l IH]; simpl; repeat case_match; done).
       repeat case_match; try done. intros _. by eapply Hn. }
  apply registry_revision_hex in Er.
  eapply succeeds_bind; [apply (succeeds_update _ (fun _ => True)); [by apply good_revision|done]|]. intros _ s2 Hg2 _.
  eapply succeeds_bind; [by apply succeeds_calm, allocate_spec|]. intros root s3 Hg3 Ha.
  eapply (succeeds_bind _ _ (fun _ s' => fx_root (h_state s') = Some root));
    [apply (succeeds_update _ (fun s' => fx_root (h_state s') = Some root)); [by apply good_root|done]|]. intros _ s4 Hg4 Hroot.
  eapply (succeeds_bind _ _ (fun _ s' => fx_root (h_state s') = Some root)).
  { eapply succeeds_calm, hwp_mono; [apply copy_inputs_spec; [done|by apply (g_root s4 Hg4)]|]. intros r s' Hc.
    split; [done|]. intros _ _. by destruct Hc as (_ & -> & _). }
  intros _ s5 Hg5 Hroot5. unfold _ssh. apply hwp_bind, hwp_bind, hwp_get, hwp_lift. rewrite (g_host s5 Hg5), (g_alias s5 Hg5).
  destruct (ssh_command host alias (serve_args root revision)) as [command|e|] eqn:Ec; [|by split_and!|by apply ssh_not_stuck in Ec].
  pose proof (g_root s5 Hg5 root Hroot5) as Ha5.
  assert (forall a, rule (h_trace s5) (Event (Popen command (fx_repository (h_state s))) a)) as Hpop.
  { intros a. exists root, revision. split_and!; try done. apply serve_words; [apply Ha5|done]. }
  apply popen_spec; [done|apply Hpop|]. intros s6 Hg6 E6.
  apply hwp_bind, hwp_update. assert (good (upd (set_reader Unstarted) s6)) as Hg7 by (by apply good_reader).
  eapply succeeds_bind; [apply succeeds_call; [exact Hg7|done|done]|]. intros [] s8 Hg8 ->.
  apply hwp_bind, hwp_update. set (s9 := Host _ _). assert (good s9) as Hg9 by (by apply (good_reader Running)).
  eapply succeeds_bind; [eapply hwp_mono; [apply wait_ready_spec, Hg9|intros r s' [[Hst Hd] Hs]; split_and!; [apply Hst|done|]]|].
  { intros x Ex. exact (conj Hst (Hd x Ex)). }
  intros ready s10 Hg10 (Hst & Han & Hph). apply hwp_bind, hwp_update, hwp_update. set (s11 := Host _ _).
  assert (serving 1 s11) as H11.
  { destruct Hst as (_ & _ & E1 & E2 & _). split_and!; [by apply (good_phase 1), good_set_ready| | | |by eexists]; simpl.
    - rewrite E2. simpl. by rewrite E6.
    - done.
    - rewrite E1. simpl. rewrite E6. simpl. congruence. }
  split_and!; [apply H11|done|done].
Qed.

Lemma reset_spec s n : serving n s -> hwp (reset o rounds) (succeeds (fun _ s' => serving (n + 1) s' /\ h_trace s `prefix_of` h_trace s')) s.
Proof.
  intros Hs. pose proof Hs as (Hg & Ep & Eph & Hroot & r & Er & Hr). apply hwp_bind, hwp_get. rewrite Ep, Er, Eph. cbn [negb orb].
  rewrite bool_decide_eq_false_2 by done. apply hwp_bind, hwp_ask. intros code _.
  assert (good (log s Poll code)) as Hg1 by (by apply good_log; [| |destruct code]). case_match; [by split_and!|].
  apply hwp_bind, hwp_update. set (s2 := Host _ _). assert (good s2) as Hg2 by (by apply (good_phase (n + 1))).
  eapply (succeeds_bind _ _ (fun _ s' => h_state s' = h_state s2 /\ h_trace s `prefix_of` h_trace s')).
  { apply hwp_catch. eapply hwp_mono; [apply succeeds_call; [exact Hg2|intros a; by right; left|done]|].
    intros [a|e|] s3 (Hg3 & Hst & Hd); [split_and!; [done|done|]; intros a' _; rewrite (Hd a eq_refl); split; [done|]; by do 2 apply prefix_app_r| |by split_and!; auto].
    case_match; [apply hwp_bind, hwp_update, hwp_lift|apply hwp_lift]; (split_and!; [|done|done]); [by apply (good_phase n)|done]. }
  intros [] s3 Hg3 [E3 P3]. eapply succeeds_bind; [eapply hwp_mono; [by apply wait_ready_spec|intros x s' [[Hst Hd] Hsh]; split_and!; [apply Hst|done|]]|].
  { intros x' Ex. exact (conj Hst (Hd x' Ex)). }
  intros ready s4 Hg4 (Hst & Han & Hph). apply hwp_update. set (s5 := Host _ _). assert (serving (n + 1) s5) as H5.
  { destruct Hst as (_ & P4 & E1 & E2 & _ & E4 & _). split_and!; [by apply good_set_ready| | | |by eexists]; simpl.
    - by rewrite E2, E3.
    - by rewrite E4, E3.
    - by rewrite E1, E3. }
  split_and!; [apply H5|done|]. intros _ _. split; [done|]. etrans; [exact P3|apply Hst].
Qed.

(** A client command that succeeded against the peers of a phase. *)
Definition passed (tr : list ev) (command : list pystr) (n : Z) : Prop :=
  exists r env, announced tr r /\ ready_phase r = n /\ Event (RunTest command ROOT env) (inl 0) ∈ tr /\
    env !! WRITER_VARIABLE = Some (multiaddr (writer r)) /\ env !! READBACK_VARIABLE = Some (multiaddr (readback r)).

Lemma passed_mono tr tr' command n : passed tr command n -> passed (tr ++ tr') command n.
Proof.
  intros (r & env & Ha & Hn & He & ?). exists r, env. split_and!; try done; [by apply announced_mono|apply elem_of_app; by left|tauto..].
Qed.

Lemma steady_passed s s' command n : steady s s' -> passed (h_trace s) command n -> passed (h_trace s') command n.
Proof. intros (_ & [l ->] & _). apply passed_mono. Qed.

(** A part that leaves the fixture in its phase. *)
Definition stays {A} (P : A -> Prop) (s : Harness.host request fixture) (r : outcome A) (s' : Harness.host request fixture) : Prop :=
  steady s s' /\ r <> Stuck /\ forall a, r = Done a -> P a.

Lemma stays_bind {A B} (m : prog request fixture A) (k : A -> prog request fixture B) P Q s :
  hwp m (stays P s) s -> (forall a s', steady s s' -> P a -> hwp (k a) (stays Q s') s') -> hwp (hbind m k) (stays Q s) s.
Proof.
  intros Hm Hk. apply hwp_bind. eapply hwp_mono; [exact Hm|]. intros [a|e|] s' (Hs & Hr & Hp); [|by split_and!|done].
  eapply hwp_mono; [apply Hk; [done|by apply Hp]|]. intros r s'' (Hs' & ? & ?). split_and!; [by eapply steady_trans|done|done].
Qed.

Lemma stays_call {A} (q : request (A + fault)) s :
  good s -> (forall a, rule (h_trace s) (Event q a)) -> (forall a, worker_step false (Event q a) = false) ->
  hwp (call o q) (stays (fun _ => True) s) s.
Proof. intros Hg Hr Hw. eapply hwp_mono; [by apply call_steady|]. intros r s' (? & ? & _). by split_and!. Qed.

Lemma stays_from {A} s s' (H1 : steady s s') (m : prog request fixture A) P : hwp m (stays P s') s' -> hwp m (stays P s) s'.
Proof. intros Hm. eapply hwp_mono; [exact Hm|]. intros r s'' (H2 & ? & ?). split_and!; [by eapply steady_trans|done|done]. Qed.

Definition names_peers (w b : pystr) (env : environ) : Prop :=
  env !! WRITER_VARIABLE = Some w /\ env !! READBACK_VARIABLE = Some b.

Lemma test_environment_spec w b s : good s -> hwp (_test_environment o w b None) (stays (names_peers w b) s) s.
Proof.
  intros Hg. apply hwp_bind, hwp_ask. intros env _. set (s1 := log s Environ env). change (Host _ _) with s1.
  assert (steady s s1) as H1 by (apply steady_log; by apply good_log).
  set (env' := <[READBACK_VARIABLE := b]> (<[WRITER_VARIABLE := w]> env)).
  assert (WRITER_VARIABLE <> READBACK_VARIABLE /\ WRITER_VARIABLE <> py "ANDROID_HOME" /\ WRITER_VARIABLE <> py "ANDROID_SDK_ROOT" /\
    READBACK_VARIABLE <> py "ANDROID_HOME" /\ READBACK_VARIABLE <> py "ANDROID_SDK_ROOT") as (N1 & N2 & N3 & N4 & N5).
  { split_and!; (eapply bool_decide_unpack; vm_compute; exact I). }
  assert (names_peers w b env') as Hn by (split; unfold env'; [by rewrite lookup_insert_ne, lookup_insert_eq by done|by rewrite lookup_insert_eq]).
  apply (stays_from s s1 H1). cbv zeta. fold env'.
  case_match; [|apply hwp_ret; split_and!; [apply steady_refl, H1|done|by intros a [= <-]]].
  eapply (stays_bind _ _ (fun _ => True)).
  { eapply stays_bind; [by apply stays_call; [apply H1|..]|]. intros home s2 H2 _. apply hwp_ret. split_and!; [apply steady_refl, H2|done|done]. }
  intros sdk s2 H2 _. eapply stays_bind; [by apply stays_call; [apply H2|..]|]. intros present s3 H3 _. apply hwp_ret.
  split_and!; [apply steady_refl, H3|done|]. intros a [= <-]. destruct present; [|done]. destruct Hn as [Hw Hb].
  split; unfold update_env; cbn [foldl fst snd]; by rewrite !lookup_insert_ne by done.
Qed.

Lemma client_spec n command s :
  serving n s -> command ∈ [desktop_test_command ROOT; android_test_command] ->
  hwp (client o ROOT command) (fun r s' => steady s s' /\ r <> Stuck /\ (r = Done tt -> passed (h_trace s') command n)) s.
Proof.
  intros Hs Hc. pose proof Hs as (Hg & _ & _ & _ & r & Er & Hr). pose proof (g_ready s Hg r Er) as Ha.
  unfold client, get_writer, get_readback. apply hwp_bind, hwp_bind, hwp_get. rewrite Er. apply hwp_ret, hwp_bind, hwp_bind, hwp_get. rewrite Er. apply hwp_ret.
  apply hwp_bind. eapply hwp_mono; [by apply test_environment_spec|]. intros [env|e|] s1 (H1 & Hr1 & Hp); [|by split_and!|done].
  apply hwp_bind. eapply hwp_mono; [by apply call_steady; [apply H1|..]|]. intros [[]|e|] s2 (H2 & Hr2 & _);
    [|split_and!; [by eapply steady_trans|done|done]|done].
  assert (steady s s2) as H12 by (by eapply steady_trans). destruct (Hp env eq_refl) as [Hw Hb].
  assert (announced (h_trace s2) r) as Ha2 by (destruct H12 as (_ & [l ->] & _); by apply announced_mono).
  apply hwp_bind. eapply hwp_mono; [apply call_steady; [apply H2|intros a; by exists r|done]|].
  intros r3 s3 (H3 & Hr3 & He). assert (steady s s3) as H13 by (by eapply steady_trans).
  destruct r3 as [code|e|]; [|by split_and!|done]. destruct (Z.eqb_spec code 0) as [->|]; apply hwp_lift; (split_and!; [done|done|]); [|done].
  intros _. exists r, env. split_and!; try done; [|by apply He]. destruct H3 as (_ & [l ->] & _). by apply announced_mono.
Qed.

(** The evidence of a whole run. *)
Definition tested (tr : list ev) (p : phase) : Prop :=
  match p with
  | Desktop => passed tr (desktop_test_command ROOT) 1
  | Jvm => passed tr android_test_command 1
  | Both => passed tr (desktop_test_command ROOT) 1 /\ passed tr android_test_command 2
  end.

Lemma client_succeeds n command s :
  serving n s -> command ∈ [desktop_test_command ROOT; android_test_command] ->
  hwp (client o ROOT command) (succeeds (fun _ s' => serving n s' /\ passed (h_trace s') command n)) s.
Proof.
  intros Hs Hc. eapply hwp_mono; [by apply client_spec|]. intros r s' (Hst & Hr & Hp). split_and!; [apply Hst|done|].
  intros [] Er. split; [by eapply steady_serving|by apply Hp].
Qed.

Lemma clients_spec p s : serving 1 s -> hwp (clients o ROOT rounds p) (succeeds (fun _ s' => fx_process (h_state s') = true /\ fx_root (h_state s') <> None /\ tested (h_trace s') p)) s.
Proof.
  intros Hs. assert (forall n s', serving n s' -> fx_process (h_state s') = true /\ fx_root (h_state s') <> None) as Hbase by (by intros n s' (_ & ? & _ & ? & _)).
  destruct p; unfold clients.
  - eapply succeeds_bind; [by apply (client_succeeds 1); [|left]|]. intros [] s1 Hg1 [H1 Hp].
    apply hwp_bind, hwp_ret, hwp_ret. split_and!; [done|done|]. intros _ _. split_and!; [by eapply Hbase..|done].
  - do 2 apply hwp_bind, hwp_ret. eapply hwp_mono; [by apply (client_succeeds 1); [|right; left]|].
    intros r s' (Hg & Hst & Hd). split_and!; [done|done|]. intros a Ea. destruct (Hd a Ea) as [H1 Hp]. split_and!; [by eapply Hbase..|done].
  - eapply succeeds_bind; [by apply (client_succeeds 1); [|left]|]. intros [] s1 Hg1 [H1 Hp].
    eapply succeeds_bind; [by apply reset_spec|]. intros [] s2 Hg2 [H2 [l El]].
    eapply hwp_mono; [by apply client_spec; [exact H2|right; left]|]. intros r s' (Hst & Hr & Hd). split_and!; [apply Hst|done|].
    intros [] Ea. pose proof (steady_serving _ _ _ H2 Hst) as H3. split_and!; [by eapply Hbase..|]. split; [|by apply Hd].
    eapply steady_passed; [exact Hst|]. rewrite El. by apply passed_mono.
Qed.

(** ** The context manager and the exit status *)

(** The end of a run: its clients passed and nothing is left behind. *)
Definition completed (tr : list ev) (p : phase) : Prop :=
  tested tr p /\ worker_done tr /\ exists root, allocated tr root /\ checked tr root false.

Lemma tested_mono tr tr' p : tested tr p -> tested (tr ++ tr') p.
Proof. destruct p; simpl; [apply passed_mono..|]. intros [? ?]. split; by apply passed_mono. Qed.

Definition obedient {A} (P : A -> list ev -> Prop) (r : outcome A) (s' : Harness.host request fixture) : Prop :=
  obeys rule (h_trace s') /\ (r = Stuck -> short rounds) /\ forall a, r = Done a -> P a (h_trace s').

Lemma enter_spec s :
  good s -> hwp (enter o toml_loads rounds) (fun r s' => obeys rule (h_trace s') /\ (r = Stuck -> short rounds) /\ (r = Done tt -> serving 1 s')) s.
Proof.
  intros Hg. apply hwp_catch. eapply hwp_mono; [by apply start_spec|].
  intros [[]|e|] s1 (Hg1 & Hst & Hd); [split_and!; [apply Hg1|done|intros _; by apply (Hd tt)]| |split_and!; [apply Hg1|auto|done]].
  eapply hwp_mono; [by apply close_after_spec|]. intros r s2 [Ho (e' & ->)]. by split_and!.
Qed.

Lemma with_fixture_spec p s :
  good s -> hwp (with_fixture o toml_loads rounds (clients o ROOT rounds p)) (obedient (fun _ tr => completed tr p)) s.
Proof.
  intros Hg. apply hwp_bind. eapply hwp_mono; [by apply enter_spec|].
  intros [[]|e|] s1 (Ho1 & Hst1 & Hd1); [|by split_and!|by split_and!; auto].
  apply hwp_bind, hwp_attempt. eapply hwp_mono; [by apply clients_spec, Hd1|].
  intros [[]|e|] s2 (Hg2 & Hst2 & Hd2); [| |split_and!; [apply Hg2|auto|done]].
  - destruct (Hd2 tt eq_refl) as (Ep & Er & Ht). eapply hwp_mono; [by apply close_spec|].
    intros r s3 (Ho3 & [l El] & Hr3 & Hd3). split_and!; [done|done|]. intros [] Ea. destruct (Hd3 Ea) as [Hw Hc].
    split_and!; [rewrite El; by apply tested_mono|by apply Hw|]. destruct (fx_root (h_state s2)) as [root|] eqn:Eroot; [|done].
    exists root. split; [rewrite El; by apply allocated_mono, (g_root s2 Hg2)|by apply Hc].
  - eapply hwp_mono; [by apply close_after_spec|]. intros r s3 [Ho (e' & ->)]. by split_and!.
Qed.

Lemma init_spec f :
  hwp (init o host alias ROOT (sec 2400) (sec 120)) (fun r s' => obeys rule (h_trace s') /\ r <> Stuck /\ (r = Done tt -> good s')) (Host [] f).
Proof.
  apply hwp_bind, hwp_lift. destruct (_validate_ssh_token host "host") as [h|e|] eqn:Eh;
    [|split_and!; [apply obeys_nil|done|done]|by apply token_not_stuck in Eh]. apply token_same in Eh as ->.
  apply hwp_bind. eapply (hwp_mono _ (fun r s' => s' = Host [] f /\ r <> Stuck)).
  { destruct alias as [a|]; [|by apply hwp_ret]. apply hwp_bind, hwp_lift.
    destruct (_validate_ssh_token a "host-key alias") eqn:Ea; [by apply hwp_ret|done|by apply token_not_stuck in Ea]. }
  intros [[]|e|] s1 [-> Hr]; [|split_and!; [apply obeys_nil|done|done]|done].
  assert (forall a, obeys rule [Event (Resolve ROOT) a]) as Ho by (intros a; by apply (obeys_snoc rule []); [apply obeys_nil|]).
  apply hwp_bind, hwp_call; [intros repository; apply hwp_update|intros e]; (split_and!; [apply Ho|done|]); [|done]. intros _.
  constructor; simpl; try done; try congruence; [by left|]. intros m H. by apply not_elem_of_nil in H.
Qed.

Lemma run_spec text f :
  hwp (run_acceptance o toml_loads ROOT rounds host alias text) (obedient (fun _ tr => exists p, parse_phase text = Some p /\ completed tr p)) (Host [] f).
Proof.
  unfold run_acceptance. destruct (parse_phase text) as [p|]; [|apply hwp_lift; split_and!; [apply obeys_nil|done|done]].
  apply hwp_bind. eapply hwp_mono; [apply init_spec|]. intros [[]|e|] s1 (Ho & Hr & Hd); [|by split_and!|done].
  eapply hwp_mono; [by apply with_fixture_spec, Hd|]. intros r s2 (Ho2 & Hst & Hd2). split_and!; [done|done|]. intros a Ea. eauto.
Qed.

Definition completion_text : pystr := py "Remote Registry acceptance completed; temporary Registry deployment was removed.".

Lemma main_spec text f :
  hwp (main o toml_loads ROOT rounds host alias text) (obedient (fun code tr => code = 0 ->
    exists p tr', parse_phase text = Some p /\ completed tr' p /\ tr = tr' ++ [Event (Print false completion_text) (inl tt)])) (Host [] f).
Proof.
  apply hwp_bind, hwp_attempt. eapply hwp_mono; [apply run_spec|]. intros [[]|e|] s1 (Ho & Hst & Hd); [| |split_and!; [done|auto|done]].
  - destruct (Hd tt eq_refl) as (p & Ep & Hc). apply hwp_bind, hwp_call; [intros []; apply hwp_ret|intros e];
      (split_and!; [by apply obeys_snoc|done|]); [|done]. intros a _ _. eauto.
  - case_match; [|by apply hwp_lift]. apply hwp_bind, hwp_call; [intros []; apply hwp_ret|intros e']; (split_and!; [by apply obeys_snoc|done|]); [|done].
    by intros a [= <-].
Qed.

End Rounds.
End Remote.

(** C37. A ready record is accepted exactly when its line announces, for the expected phase, two
    peers at one Tailscale address (100.64.0.0/10, and the expected one if there is one) with
    different valid ports and different base58 identities, each under the multiaddr that spells
    out its address, port and identity. *)
Theorem ready_record_exact line expected_phase expected_host r :
  parse_remote_ready_record line expected_phase expected_host = Done r <->
  announces line r /\ ready_phase r = expected_phase /\ distinct_peers r /\
  (forall h, expected_host = Some h -> h = peer_host (writer r)).
Proof. apply ready_record_done. Qed.

(** C35. Whatever the remote host, the worker and the local system answer, every command of a run
    is one of a fixed list: [ssh] with strict host-key checking and words that a shell takes
    literally, on the one root that [mktemp] printed and that has the required form under /tmp;
    [scp] of the three inputs to their places below that root; the two test commands, with the
    peers the worker announced.  [rm -rf] names exactly that root, and only when the worker was
    never started or is known to have exited. *)
Theorem remote_commands_confined o toml_loads ROOT rounds ssh_host host_key_alias phase f :
  obeys (rule ROOT ssh_host host_key_alias) (h_trace (main o toml_loads ROOT rounds ssh_host host_key_alias phase (Host [] f)).2).
Proof. apply main_spec. Qed.

(** C36. On a clock that advances by [tick] between readings, a run with enough rounds for the
    startup timeout ends, and exit status 0 means: each client of the phase passed against peers
    announced for its own phase, the worker exited with status 0 and confirmed its teardown, and
    the last remote command found the allocated root absent. *)
Theorem remote_acceptance_exit o toml_loads ROOT rounds ssh_host host_key_alias phase f tick :
  0 < tick -> clock_advances o tick -> sec 2400 < Z.of_nat rounds * tick ->
  let run := main o toml_loads ROOT rounds ssh_host host_key_alias phase (Host [] f) in
  run.1 <> Stuck /\
  (run.1 = Done 0 -> exists p tr, parse_phase phase = Some p /\ completed ROOT ssh_host host_key_alias tr p /\
     h_trace run.2 = tr ++ [Event (Print false completion_text) (inl tt)]).
Proof.
  intros Ht Hc Hr run. destruct (main_spec o toml_loads ROOT ssh_host host_key_alias rounds phase f) as (_ & Hs & Hd). fold run in Hs, Hd.
  split; [intros E; specialize (Hs E tick Ht Hc); lia|]. intros E. by apply (Hd 0 E).
Qed.

Definition demo_peer (tcp : string) (id : string) : pystr := py "/ip4/100.64.0.7/tcp/" ++ py tcp ++ py "/p2p/" ++ py id.
Definition demo_writer : pystr := demo_peer "4001" "12D3KooWAbcdefghijkmnopq".
Definition demo_readback : pystr := demo_peer "4002" "12D3KooWBbcdefghijkmnopq".

Definition demo_ready (n : string) (w : pystr) : pystr :=
  READY ++ tab ++ [123] ++ quote (py "phase") ++ py ":" ++ py n ++ py "," ++ quote (py "writer") ++ py ":" ++ w ++ py "," ++
  quote (py "readback") ++ py ":" ++ quote demo_readback ++ [125; 10].

Definition demo_root : pystr := py "/tmp/decent-wallet-registry-abcdef123456".

(** The latest clock reading of a trace. *)
Definition latest (tr : list ev) : Z :=
  foldr (fun (e : ev) m =>
    match e with Event q a => match q in request R return R -> Z with Clock => fun t => Z.max t m | _ => fun _ => m end a end) 0 tr.

Definition has_write (tr : list ev) : bool :=
  existsb (fun e : ev => match e with Event q _ => match q with Write _ => true | _ => false end end) tr.

Definition demo_run (command : list pystr) : Z * pystr :=
  if bool_decide (py "mktemp" ∈ command) then (0, demo_root ++ [10])
  else if bool_decide (py "test" ∈ command) then (1, [])
  else (0, []).

(** Answers of a run in which everything works; [w] is what the worker reports as its writer. *)
Definition demo_oracle (w : pystr) : oracle request := fun R tr q =>
  match q in request R return R with
  | Resolve p => inl p
  | IsSymlink _ => inl false
  | IsFile _ => inl true
  | IsDir _ => inl true
  | ReadText _ => inl []
  | Run command _ _ => inl (demo_run command)
  | RunTest _ _ _ => inl 0
  | Popen _ _ => inl tt
  | StartReader => inl tt
  | ReaderLines t => if t =? sec 5 then ([py "REMOTE_STOPPED" ++ tab ++ py "ok" ++ [10]], true)
                     else ([demo_ready (if has_write tr then "2" else "1") w], false)
  | Poll => None
  | Write _ => inl tt
  | Wait _ => inl 0
  | Terminate => inl tt
  | Kill => inl tt
  | Clock => latest tr + sec 1
  | Environ => ∅
  | Home => inl (Path (py "/home/user"))
  | Print _ _ => inl tt
  end.

Definition demo_lock (text : pystr) : option pydict :=
  Some [(PStr (py "package"), PList [PDict [(PStr (py "name"), PStr (py "decent-registry"));
    (PStr (py "source"), PDict [(PStr (py "git"),
      PStr (py "https://github.com/jetpen/decent-registry.git?rev=0123456789abcdef0123456789abcdef01234567#0123456789abcdef0123456789abcdef01234567"))])]])].

Definition demo_repository : path := Path (py "/home/user/decent-wallet").
Definition blank : fixture := MkFixture [] None demo_repository 0 0 [] None false None [] NoReader false 0.

Abbreviation demo_main w phase :=
  (main (demo_oracle w) demo_lock demo_repository 2401 (py "build-host") (Some (py "registry.example")) (py phase) (Host [] blank)).

Lemma demo_completes : (demo_main (quote demo_writer) "both").1 = Done 0.
Proof. vm_compute. reflexivity. Qed.

Lemma latest_above tr t : Event Clock t ∈ tr -> t <= latest tr.
Proof.
  intros H. apply list_elem_of_split in H as (l1 & l2 & ->). induction l1 as [|[R q a] l1 IH]; simpl; [lia|].
  destruct q; try done. simpl in *. lia.
Qed.

Lemma demo_clock w : clock_advances (demo_oracle w) (sec 1).
Proof. intros tr t H. simpl. apply latest_above in H. lia. Qed.

Lemma remote_acceptance_exit_witness :
  exists p tr, parse_phase (py "both") = Some p /\ completed demo_repository (py "build-host") (Some (py "registry.example")) tr p /\
    h_trace (demo_main (quote demo_writer) "both").2 = tr ++ [Event (Print false completion_text) (inl tt)].
Proof.
  refine (proj2 (remote_acceptance_exit (demo_oracle (quote demo_writer)) demo_lock demo_repository 2401 (py "build-host")
    (Some (py "registry.example")) (py "both") blank (sec 1) _ (demo_clock _) _) demo_completes); vm_compute; reflexivity.
Defined.

(** A writer that is not text: the run raises [TypeError] instead of reporting a failure. *)
Example type_error_escapes :
  match (demo_main (py "5") "desktop").1 with Failed e => f_class e | _ => RuntimeError end = Type_Error.
Proof. vm_compute. reflexivity. Qed.
