(* ===== verification/LocalRecords.v ===== *)
(** The records of the local acceptance harness (run_wallet_registry_acceptance.py): fixture
    diagnostics, peer addresses, attached devices, port mappings, test results.

    [int] is modelled on ASCII text. *)

From stdpp Require Import gmap.
From S2P Require Import Prelude Json Regex NativeReport Harness PyPath RemoteRecords.

Open Scope Z_scope.

(** * Constants *)

Definition ROTATION_TEST_NAME : pystr := py "rotatesWalletThroughDirectDhtAndPersistsPromotionOnAndroid".
Definition HISTORY_AVAILABILITY_TEST_NAME : pystr := py "versionedHistoryAvailabilityFailsClosedBeforeDraftCreation".
Definition ROTATION_TEST_CLASS : pystr := py "org.decentwallet.wallet.android.AndroidDirectDhtRegistryRuntimeTest".
Definition JVM_INTEROP_TEST_NAME : pystr := py "readsHistoryPublishesAndFreshReadsAgainstPythonRegistryPeer".
Definition JVM_INTEROP_TEST_CLASS : pystr := py "org.decentwallet.wallet.android.AndroidDirectDhtRegistryInteropTest".
Definition PODMAN_DESKTOP_TEST_NAME : pystr := py "test_podman_writer_publication_remains_peer_scoped".
Definition PODMAN_DESKTOP_TEST_CLASS : pystr := py "tests.test_podman_registry_deployment".

(** An entry of [APPROVED_ANDROID_TARGETS]: API level, ABI, and the AVD settings compared. *)
Record android_target := MkTarget { t_api : Z; t_abi : pystr; t_config : list (pystr * pystr) }.

Definition APPROVED_ANDROID_TARGETS (name : pystr) : option android_target :=
  if bool_decide (name = py "Medium_Phone") then
    Some (MkTarget 26 (py "x86")
      [(py "AvdId", py "Medium_Phone"); (py "abi.type", py "x86");
       (py "image.sysdir.1", py "system-images/android-26/google_apis_playstore/x86/");
       (py "target", py "android-26"); (py "PlayStore.enabled", py "true"); (py "tag.ids", py "google_apis_playstore")])
  else if bool_decide (name = py "Pixel_9") then
    Some (MkTarget 37 (py "x86_64")
      [(py "AvdId", py "Pixel_9"); (py "abi.type", py "x86_64");
       (py "image.sysdir.1", py "system-images/android-37.2/google_apis_playstore_ps16k/x86_64/");
       (py "target", py "android-37.2"); (py "PlayStore.enabled", py "true");
       (py "tag.ids", py "google_apis_playstore,page_size_16kb")])
  else None.

Definition ANDROID_QUEUE_MAXSIZE : nat := 4.

(** * Diagnostics of the fixture *)

Definition SAFE_FIXTURE_ERRORS : list pystr :=
  [py "Podman executable was not found";
   py "the Registry fixture requires rootless Podman";
   py "data directory must be a real, empty directory";
   py "data directory must be empty";
   py "could not prepare the empty data directory";
   py "Registry peer did not report a valid peer address";
   py "Registry peer container exited during startup";
   py "Registry peer did not become ready before the startup deadline";
   py "could not determine the writer peer's internal address";
   py "could not load the synthetic legacy Registry vector";
   py "could not seed or confirm the synthetic Registry record";
   py "Registry peer bootstrap failed";
   py "Registry peer publication failed";
   py "Registry peer readback bootstrap failed";
   py "Registry peer readback failed";
   py "Registry peer did not confirm the synthetic legacy record";
   py "Registry peer did not return the synthetic record";
   py "Registry peer did not have the expected synthetic record";
   py "synthetic Registry Owner Name must be valid hex";
   py "Registry peer seed timed out";
   py "Registry peers did not receive distinct peer identities";
   py "Podman command exceeded its time limit";
   py "Podman command could not be started";
   py "Podman could not prepare the Registry peer fixture";
   py "could not fully tear down Podman Registry resources"].

Definition RAny (l : list string) : regex := foldr (fun s r => RAlt (RLit (py s)) r) RNone l.
Definition RCat (l : list regex) : regex := foldr RSeq REmpty l.
Definition ROpt (r : regex) : regex := RAlt r REmpty.
Definition lit (s : string) : regex := RLit (py s).

Definition READINESS_DIAGNOSTIC : regex :=
  RCat [lit "Registry peer readiness failed (bootstrap_records="; RRep (RClass cls_digit) 1 (Some 2%nat);
        lit ", address_error=";
        RAny ["bootstrap_count"; "bootstrap_prefix"; "bootstrap_format"; "bootstrap_suffix"; "address_value"; "container_port";
              "peer_id"; "logs_unavailable"; "none"];
        lit ", tcp_ready="; RAny ["true"; "false"]; lit ")"].

Definition cls_detail : list (Z * Z) := cls_alnum ++ chr " _[]().,:;?-".

Definition SEED_ERROR_DIAGNOSTIC : regex :=
  RCat [RAlt (RCat [lit "Registry peer "; RAny ["bootstrap"; "publication"; "readback bootstrap"; "readback"]; lit " failed"])
          (RAlt (RCat [lit "Registry "; RAny ["peer seed"; "readback confirmation"]; lit " failed"])
                (lit "could not seed or confirm the synthetic Registry record"));
        lit " (error="; RClass (cls_upper ++ cls_lower); RRep (RClass cls_alnum) 0 (Some 39%nat);
        ROpt (RSeq (lit "; detail=") (RRep (RClass cls_detail) 1 (Some 200%nat))); lit ")"].

Definition safe_fixture_error_message (message : pystr) : pystr :=
  if bool_decide (message ∈ SAFE_FIXTURE_ERRORS) || fullmatch READINESS_DIAGNOSTIC message || fullmatch SEED_ERROR_DIAGNOSTIC message
  then message else py "Registry peer fixture failed".

(** * Peers *)

Record RegistryPeerAddress := MkLocalPeer { l_multiaddr : pystr; l_port : Z; l_peer_id : pystr }.

Definition LOOPBACK_ADDRESS : regex :=
  RCat [lit "/ip4/127.0.0.1/tcp/"; RPlus (RClass cls_digit); lit "/p2p/"; RPlus (RClass cls_not_slash)].

Definition LOCAL_PEER_ID : regex := RRep (RClass cls_base58) 20 None.

Definition parse_peer_multiaddr (value : pystr) : outcome RegistryPeerAddress :=
  if negb (fullmatch LOOPBACK_ADDRESS (strip value)) then
    error HarnessError (py "fixture emitted an unsupported loopback peer multiaddr")
  else
    let groups := split_on 47 (strip value) in
    match int_text (nth 4 groups []) with
    | None => error Value_Error (py "Exceeds the limit for integer string conversion")
    | Some n =>
        let id := nth 6 groups [] in
        if negb ((1 <=? n) && (n <=? 65535)) || negb (fullmatch LOCAL_PEER_ID id) then
          error HarnessError (py "fixture emitted an invalid Registry peer address")
        else Done (MkLocalPeer (strip value) n id)
    end.

Definition READY_WRITE : pystr := py "READY_WRITE".
Definition READY_READBACK : pystr := py "READY_READBACK".

(** The dict [ready]: the two tags it may hold. *)
Definition ready_slots := (option RegistryPeerAddress * option RegistryPeerAddress)%type.

Definition read_ready (ready : ready_slots) (line : pystr) : outcome ready_slots :=
  match cut tab (strip line) with
  | None => Done ready
  | Some (tag, value) =>
      let is_writer := bool_decide (tag = READY_WRITE) in
      if negb is_writer && negb (bool_decide (tag = READY_READBACK)) then Done ready
      else
        match (if is_writer then ready.1 else ready.2) with
        | Some _ => error HarnessError (py "Registry fixture emitted duplicate " ++ tag ++ py " readiness lines")
        | None =>
            match parse_peer_multiaddr value with
            | Done p => Done (if is_writer then (Some p, ready.2) else (ready.1, Some p))
            | Failed e => Failed e
            | Stuck => Stuck
            end
        end
  end.

Fixpoint read_ready_lines (ready : ready_slots) (lines : list pystr) : outcome ready_slots :=
  match lines with
  | [] => Done ready
  | line :: rest =>
      match read_ready ready line with
      | Done ready' => read_ready_lines ready' rest
      | Failed e => Failed e
      | Stuck => Stuck
      end
  end.

Definition parse_ready_lines (lines : list pystr) : outcome (RegistryPeerAddress * RegistryPeerAddress) :=
  match read_ready_lines (None, None) lines with
  | Done (Some w, Some b) =>
      if bool_decide (l_peer_id w = l_peer_id b) || (l_port w =? l_port b) then
        error HarnessError (py "fixture must expose distinct Registry peers and listener ports")
      else Done (w, b)
  | Done _ => error HarnessError (py "Registry fixture did not announce both writer and read-back peers")
  | Failed e => Failed e
  | Stuck => Stuck
  end.

(** * Devices *)

(** [(connected, emulators)] of the lines of [adb devices]. *)
Fixpoint list_devices (lines : list pystr) : list pystr * list (pystr * pystr) :=
  match lines with
  | [] => ([], [])
  | line :: rest =>
      let r := list_devices rest in
      match words line with
      | serial :: state :: _ =>
          (if bool_decide (state = py "device") then serial :: r.1 else r.1,
           if starts_with (py "emulator-") serial then (serial, state) :: r.2 else r.2)
      | _ => r
      end
  end.

Definition select_single_emulator (devices_output : pystr) (requested_serial : option pystr) : outcome pystr :=
  let '(connected, emulators) := list_devices (splitlines devices_output) in
  if negb (length connected =? 1)%nat then
    error HarnessError (py "only one connected Android target is allowed, and it must be exactly one booted " ++
      py "Android emulator; run approved AVDs sequentially and stop the previous emulator first")
  else
    match emulators with
    | [(serial, state)] =>
        if negb (bool_decide (state = py "device")) then
          error HarnessError (py "exactly one booted Android emulator must be attached; run approved AVDs " ++
            py "sequentially and stop the previous emulator first")
        else
          match requested_serial with
          | Some r => if bool_decide (serial = r) then Done serial
                      else error HarnessError (py "requested serial " ++ str_repr r ++ py ", but the sole emulator is " ++ str_repr serial)
          | None => Done serial
          end
    | _ => error HarnessError (py "exactly one booted Android emulator must be attached; run approved AVDs " ++
             py "sequentially and stop the previous emulator first")
    end.

(** The items of a configuration file. *)
Definition config_line (config : gmap pystr pystr) (line : pystr) : gmap pystr pystr :=
  match cut (py "=") line with
  | Some (key, value) => if starts_with (py "#") (drop_white line) then config else <[strip key := strip value]> config
  | None => config
  end.
Definition parse_config (lines : list pystr) : gmap pystr pystr := foldl config_line ∅ lines.

(** [int(s)] *)
Definition py_int (s : pystr) : option Z :=
  let body s := let groups := split_on 95 s in
    if forallb (fullmatch (RPlus (RClass cls_digit))) groups then int_text (concat groups) else None in
  match strip s with
  | 45 :: r => Z.opp <$> body r
  | 43 :: r => body r
  | r => body r
  end.

Definition upper (s : pystr) : pystr := (fun c => if (97 <=? c) && (c <=? 122) then c - 32 else c) <$> s.

(** The host-side AVD names an emulator console printed. *)
Definition avd_names (output : pystr) : list pystr :=
  base.filter (fun n => n <> [] /\ upper n <> py "OK") (strip <$> splitlines output).

(** * Port mappings *)

Fixpoint digits_prefix (s : pystr) : pystr :=
  match s with c :: s' => if in_class cls_digit c then c :: digits_prefix s' else [] | [] => [] end.

(** [re.findall(r"tcp:([0-9]+)", s)] *)
Fixpoint tcp_ports_from (skip : nat) (s : pystr) : list pystr :=
  match s with
  | [] => []
  | _ :: s' =>
      match skip with
      | S k => tcp_ports_from k s'
      | O => if starts_with (py "tcp:") s then
               match digits_prefix (drop 4 s) with
               | [] => tcp_ports_from O s'
               | ds => ds :: tcp_ports_from (3 + length ds) s'
               end
             else tcp_ports_from O s'
      end
  end.

(** [[int(v) for v in l]] *)
Fixpoint ints (l : list pystr) : option (list Z) :=
  match l with
  | [] => Some []
  | s :: l' => match int_text s, ints l' with Some n, Some r => Some (n :: r) | _, _ => None end
  end.

Definition digits_limit {A} : outcome A := error Value_Error (py "Exceeds the limit for integer string conversion").

(** The first two ports of a list that are not used. *)
Fixpoint first_free (used : list Z) (candidates : list Z) : list Z :=
  match candidates with
  | [] => []
  | p :: rest => if bool_decide (p ∈ used) then first_free used rest else p :: first_free used rest
  end.

Definition REVERSE_PORTS : list Z := seqZ 31457 (40000 - 31457).

Definition select_reverse_ports (reverse_output : pystr) : outcome (Z * Z) :=
  match ints (tcp_ports_from O reverse_output) with
  | None => digits_limit
  | Some used =>
      match first_free used REVERSE_PORTS with
      | a :: b :: _ => Done (a, b)
      | _ => error HarnessError (py "could not find two unused Android reverse-forward ports in 31457..39999")
      end
  end.

(** A match of [(?:^|\s)tcp:([0-9]+)(?=\s|$)] at the start of [s], which is the start of the
    line if [first]: the group and the length. *)
Definition mapping_match (first : bool) (s : pystr) : option (pystr * nat) :=
  let at_tcp s n :=
    if starts_with (py "tcp:") s then
      match digits_prefix (drop 4 s) with
      | [] => None
      | ds =>
          let rest := drop (4 + length ds) s in
          if bool_decide (rest = []) || match rest with c :: _ => is_white c | [] => false end
          then Some (ds, (n + 4 + length ds)%nat) else None
      end
    else None in
  match (if first then at_tcp s O else None), s with
  | Some m, _ => Some m
  | None, c :: s' => if is_white c then at_tcp s' 1%nat else None
  | None, [] => None
  end.

Fixpoint mapping_ports (first : bool) (skip : nat) (s : pystr) : list pystr :=
  match s with
  | [] => []
  | _ :: s' =>
      match skip with
      | S k => mapping_ports false k s'
      | O => match mapping_match first s with
             | Some (ds, n) => ds :: mapping_ports false (pred n) s'
             | None => mapping_ports false O s'
             end
      end
  end.

(** [ports[-2], ports[-1]] *)
Fixpoint last_two {A} (l : list A) : option (A * A) :=
  match l with
  | [a; b] => Some (a, b)
  | _ :: l' => last_two l'
  | [] => None
  end.

Fixpoint read_mappings (mappings : gmap Z Z) (lines : list pystr) : outcome (gmap Z Z) :=
  match lines with
  | [] => Done mappings
  | line :: rest =>
      match last_two (mapping_ports true O line) with
      | None => read_mappings mappings rest
      | Some (r, l) =>
          match int_text r, int_text l with
          | Some remote_port, Some local_port =>
              match mappings !! remote_port with
              | Some _ => error HarnessError (py "adb reported duplicate reverse mappings for tcp:" ++ int_str remote_port)
              | None => read_mappings (<[remote_port := local_port]> mappings) rest
              end
          | _, _ => digits_limit
          end
      end
  end.

Definition parse_reverse_mappings (reverse_output : pystr) : outcome (gmap Z Z) :=
  read_mappings ∅ (splitlines reverse_output).

Fixpoint check_mappings (mappings : gmap Z Z) (expected : list (Z * Z)) : outcome unit :=
  match expected with
  | [] => Done tt
  | (remote_port, local_port) :: rest =>
      if bool_decide (mappings !! remote_port = Some local_port) then check_mappings mappings rest
      else error HarnessError (py "adb reverse target mismatch for tcp:" ++ int_str remote_port ++ py ": expected tcp:" ++
             int_str local_port ++ py ", observed " ++
             match mappings !! remote_port with None => py "none" | Some p => py "tcp:" ++ int_str p end)
  end.

Definition verify_reverse_mappings (reverse_output : pystr) (expected : list (Z * Z)) : outcome unit :=
  match parse_reverse_mappings reverse_output with
  | Done mappings => check_mappings mappings expected
  | Failed e => Failed e
  | Stuck => Stuck
  end.

(** [{**pending, **owned}] in insertion order. *)
Definition merge_mappings (pending owned : list (Z * Z)) : list (Z * Z) :=
  ((fun kv => (kv.1, default kv.2 (snd <$> List.find (fun kv' => kv'.1 =? kv.1) owned))) <$> pending) ++
  base.filter (fun kv => kv.1 ∉ pending.*1) owned.

Definition mapping_text (kv : Z * Z) : pystr := py "tcp:" ++ int_str kv.1 ++ py "->tcp:" ++ int_str kv.2.

(** [handle_android_cleanup_errors]: the primary exception with its notes, or an error. *)
Definition handle_android_cleanup_errors (cleanup_errors : list pystr) (operation : pystr) (primary : option fault)
    (exit_code : option Z) : outcome (option fault) :=
  let failed_code := match exit_code with Some c => negb (c =? 0) | None => false end in
  let code_text := match exit_code with Some c => int_str c | None => [] end in
  let primary := match primary with
    | Some e => Some (if failed_code then add_note e (operation ++ py " exited with status " ++ code_text) else e)
    | None => None end in
  match cleanup_errors with
  | [] => Done primary
  | _ =>
      let cleanup_message := py "Android reverse-mapping cleanup failed: " ++ join_text (py "; ") cleanup_errors in
      match primary with
      | Some e => Done (Some (add_note e cleanup_message))
      | None => if failed_code
                then error HarnessError (operation ++ py " exited with status " ++ code_text ++ py "; " ++ cleanup_message)
                else error HarnessError cleanup_message
      end
  end.

(** * Test results *)

(** [root.iter("testcase")] *)
Fixpoint iter_tag (tag : pystr) (e : element) : list element :=
  match e with
  | Element t a children =>
      (if bool_decide (t = tag) then [e] else []) ++ (fix go l := match l with [] => [] | x :: l' => iter_tag tag x ++ go l' end) children
  end.

(** [case.find(tag) is not None] *)
Definition has_child (tag : string) (e : element) : bool := existsb (fun c => bool_decide (e_tag c = py tag)) (e_children e).

Definition matching_cases (expected_class expected_test_name : pystr) (root : element) : list element :=
  base.filter (fun c => get "name" c = Some expected_test_name /\ get "classname" c = Some expected_class) (iter_tag (py "testcase") root).

(** The decision of [verify_junit_test_result] on the cases found. *)
Definition check_matches (expected_class expected_test_name : pystr) (cases : list element) : outcome unit :=
  let name := expected_class ++ py "." ++ expected_test_name in
  match cases with
  | [c] =>
      if has_child "skipped" c then error HarnessError (name ++ py " must pass, not skip")
      else if has_child "failure" c || has_child "error" c then error HarnessError (name ++ py " reported a failure or error")
      else Done tt
  | _ => error HarnessError (py "expected exactly one result for " ++ name ++ py "; found " ++ int_str (Z.of_nat (length cases)))
  end.

(** * Backends *)

(** A number of seconds as the option [--fixture-timeout] takes it, a float: a finite time in
    nanoseconds, or one of the two other values [float] reads (minus infinity is refused as any
    negative time is). *)
Inductive duration := Span (t : Z) | Infinity | NaN.

(** [duration <= 0]: false for a value that is not a number. *)
Definition not_positive (d : duration) : bool := match d with Span t => t <=? 0 | Infinity | NaN => false end.

(** [now + duration], [now < deadline], and [min(0.25, max(0.01, deadline - now))]. *)
Definition deadline_after (now : Z) (d : duration) : duration := match d with Span t => Span (now + t) | Infinity => Infinity | NaN => NaN end.
Definition before_deadline (now : Z) (d : duration) : bool := match d with Span t => now <? t | Infinity => true | NaN => false end.
Definition poll_time (now : Z) (d : duration) : Z :=
  match d with
  | Span t => Z.min (10 ^ 9 / 4) (Z.max (10 ^ 9 / 100) (t - now))
  | Infinity => 10 ^ 9 / 4
  | NaN => 10 ^ 9 / 100
  end.

Definition FIXTURE_STARTUP_TIMEOUT_SECONDS : duration := Span (90 * 10 ^ 9).
Definition PODMAN_FIXTURE_STARTUP_TIMEOUT_SECONDS : duration := Span (540 * 10 ^ 9).

Definition fixture_startup_timeout (peer_backend : pystr) (override : option duration) : outcome duration :=
  match override with
  | Some t => Done t
  | None =>
      if bool_decide (peer_backend = py "process") then Done FIXTURE_STARTUP_TIMEOUT_SECONDS
      else if bool_decide (peer_backend = py "podman") then Done PODMAN_FIXTURE_STARTUP_TIMEOUT_SECONDS
      else error HarnessError (py "unsupported Registry peer backend: " ++ peer_backend)
  end.

Definition registry_store_paths (data_root : path) (peer_backend : pystr) : outcome (path * path) :=
  if bool_decide (peer_backend = py "process") then
    Done (child data_root (py "writer.lmdb"), child data_root (py "readback.lmdb"))
  else if bool_decide (peer_backend = py "podman") then
    Done (child (child data_root (py "writer")) (py "writer.lmdb"), child (child data_root (py "readback")) (py "readback.lmdb"))
  else error HarnessError (py "unsupported Registry peer backend: " ++ peer_backend).

Definition validate_peer_backend_mode (peer_backend : pystr) (desktop_only : bool) : outcome unit :=
  if bool_decide (peer_backend = py "podman") && negb desktop_only then
    error HarnessError (py "Podman is currently a desktop-only diagnostic; JVM/device acceptance " ++
      py "requires a deployment that delivers the candidate to a distinct read-back peer")
  else Done tt.

Definition format_harness_error (e : fault) : pystr :=
  match f_notes e with
  | [] => f_text e
  | notes => join_text [10] (f_text e :: ((fun n => py "  note: " ++ n) <$> notes))
  end.

(** * Java *)

Section Java.
(** Letters and digits beyond ASCII, for the word boundary of a pattern. *)
Context (unicode_word : Z -> bool).

Definition is_word (c : Z) : bool := if c <? 128 then in_class (cls_alnum ++ chr "_") c else unicode_word c.

(** What follows the quoted major version. *)
Definition version_end (s : pystr) : bool :=
  match s with
  | 34 :: _ => true
  | c :: rest => in_class (chr ".+-") c && bool_decide (34 ∈ rest)
  | [] => false
  end.

(** A match at the start of [s], after the character [previous]. *)
Definition version_match (previous : option Z) (s : pystr) : bool :=
  match previous with Some c => negb (is_word c) | None => true end &&
  starts_with (py "version") s &&
  (let rest := drop 7 s in
   match rest with c :: _ => is_white c | [] => false end &&
   (let quoted := drop_white rest in
    starts_with [34; 49; 55] quoted && version_end (drop 3 quoted))).

(** [re.search(r'\bversion\s+'...)] *)
Fixpoint search_version (previous : option Z) (s : pystr) : bool :=
  version_match previous s || match s with [] => false | c :: s' => search_version (Some c) s' end.

Definition is_jdk17_version (version_output : pystr) : bool := search_version None version_output.
End Java.
