(* ===== verification/LocalFixture.v ===== *)
(** The local Registry fixture (run_wallet_registry_acceptance.py, [RegistryPeerFixture]): two
    peers in a scratch directory, their readiness, and their teardown.

    The thread that pumps the fixture's output shares a bounded queue and an event with the
    fixture; [observe] lets it run before the queue is read.  Times are in nanoseconds.  The loop
    that waits for readiness has a bound on its rounds. *)

From stdpp Require Import gmap.
From S2P Require Import Prelude Json Regex NativeReport Harness PyPath RemoteRecords LocalRecords.

Open Scope Z_scope.
Open Scope harness_scope.

Definition sec (n : Z) : Z := n * 10 ^ 9.

(** * Requests *)

Inductive signal := SIGINT | SIGTERM | SIGKILL.

Inductive request : Type -> Type :=
  | Environ : request environ
  | Home : request (path + fault)
  | Expanduser (p : path) : request (path + fault)
  | Resolve (p : path) : request (path + fault)
  | IsFile (p : path) : request (bool + fault)
  | IsDir (p : path) : request (bool + fault)
  | Exists (p : path) : request (bool + fault)
  | SameFile (p q : path) : request (bool + fault)
  | ReadText (p : path) : request (pystr + fault)
  | Rglob (p : path) : request (list path + fault)            (* p.rglob("TEST-*.xml") *)
  | Glob17 (p : path) : request (list path + fault)           (* sorted(p.glob("*17*")) *)
  | Mtime (p : path) : request (Z + fault)                    (* p.stat().st_mtime_ns *)
  | Size (p : path) : request (Z + fault)                     (* p.stat().st_size *)
  | ParseReport (p : path) : request (element + fault)        (* ET.parse(p).getroot() *)
  | Which (name : pystr) : request (option pystr + fault)
  | Output (command : list pystr) (cwd : option path) (timeout : Z) : request (Z * pystr + fault)
  | Run (command : list pystr) (cwd : path) (env : option environ) (timeout : Z) : request (Z + fault)
  | Mkdir (p : path) : request (unit + fault)
  | MakeTemp (dir : path) : request (pystr + fault)           (* TemporaryDirectory(...).name *)
  | CleanTemp (name : pystr) : request (unit + fault)
  | Popen (command : list pystr) (cwd : path) (env : environ) : request (unit + fault)
  | StartReader : request (unit + fault)
  | ReaderLines (timeout : Z) : request (list pystr * bool)
  | Poll : request (option Z)
  | KillGroup (s : signal) : request (unit + fault)
  | Signal (s : signal) : request (unit + fault)              (* send_signal, terminate, kill *)
  | Wait (timeout : Z) : request (Z + fault)
  | CloseStdout : request (unit + fault)
  | Clock : request Z
  | Print (stderr : bool) (line : pystr) : request (unit + fault).

(** * State *)

Inductive reader := NoReader | Unstarted | Running | Ended.

(** The fixture object, and the variables a [finally] clause reads: the mappings owned and
    pending, and the status of Gradle. *)
Record harness := MkHarness {
  fx_repo : path;
  fx_timeout : duration;
  fx_backend : pystr;
  fx_format : pystr;
  fx_fault : pystr;
  fx_process : bool;
  fx_lines : list pystr;
  fx_messages : list (option pystr);
  fx_reader : reader;
  fx_scratch : option pystr;
  fx_ready : bool;
  fx_signalled : bool;
  fx_peers : option (RegistryPeerAddress * RegistryPeerAddress);
  v_owned : list (Z * Z);
  v_pending : list (Z * Z);
  v_gradle : option Z;
}.

Definition new_fixture (repo : path) (timeout : duration) (backend format fault : pystr) (h : harness) : harness :=
  MkHarness repo timeout backend format fault false [] [] NoReader None false false None (v_owned h) (v_pending h) (v_gradle h).
Definition set_process (h : harness) : harness :=
  MkHarness (fx_repo h) (fx_timeout h) (fx_backend h) (fx_format h) (fx_fault h) true (fx_lines h) (fx_messages h) (fx_reader h)
    (fx_scratch h) (fx_ready h) (fx_signalled h) (fx_peers h) (v_owned h) (v_pending h) (v_gradle h).
Definition add_line (l : pystr) (h : harness) : harness :=
  MkHarness (fx_repo h) (fx_timeout h) (fx_backend h) (fx_format h) (fx_fault h) (fx_process h) (fx_lines h ++ [l]) (fx_messages h) (fx_reader h)
    (fx_scratch h) (fx_ready h) (fx_signalled h) (fx_peers h) (v_owned h) (v_pending h) (v_gradle h).
Definition set_messages (m : list (option pystr)) (h : harness) : harness :=
  MkHarness (fx_repo h) (fx_timeout h) (fx_backend h) (fx_format h) (fx_fault h) (fx_process h) (fx_lines h) m (fx_reader h)
    (fx_scratch h) (fx_ready h) (fx_signalled h) (fx_peers h) (v_owned h) (v_pending h) (v_gradle h).
Definition set_reader (r : reader) (h : harness) : harness :=
  MkHarness (fx_repo h) (fx_timeout h) (fx_backend h) (fx_format h) (fx_fault h) (fx_process h) (fx_lines h) (fx_messages h) r
    (fx_scratch h) (fx_ready h) (fx_signalled h) (fx_peers h) (v_owned h) (v_pending h) (v_gradle h).
Definition set_scratch (s : option pystr) (h : harness) : harness :=
  MkHarness (fx_repo h) (fx_timeout h) (fx_backend h) (fx_format h) (fx_fault h) (fx_process h) (fx_lines h) (fx_messages h) (fx_reader h)
    s (fx_ready h) (fx_signalled h) (fx_peers h) (v_owned h) (v_pending h) (v_gradle h).
Definition set_ready (h : harness) : harness :=
  MkHarness (fx_repo h) (fx_timeout h) (fx_backend h) (fx_format h) (fx_fault h) (fx_process h) (fx_lines h) (fx_messages h) (fx_reader h)
    (fx_scratch h) true (fx_signalled h) (fx_peers h) (v_owned h) (v_pending h) (v_gradle h).
Definition set_signalled (h : harness) : harness :=
  MkHarness (fx_repo h) (fx_timeout h) (fx_backend h) (fx_format h) (fx_fault h) (fx_process h) (fx_lines h) (fx_messages h) (fx_reader h)
    (fx_scratch h) (fx_ready h) true (fx_peers h) (v_owned h) (v_pending h) (v_gradle h).
Definition set_peers (p : RegistryPeerAddress * RegistryPeerAddress) (h : harness) : harness :=
  MkHarness (fx_repo h) (fx_timeout h) (fx_backend h) (fx_format h) (fx_fault h) (fx_process h) (fx_lines h) (fx_messages h) (fx_reader h)
    (fx_scratch h) (fx_ready h) (fx_signalled h) (Some p) (v_owned h) (v_pending h) (v_gradle h).
Definition set_owned (m : list (Z * Z)) (h : harness) : harness :=
  MkHarness (fx_repo h) (fx_timeout h) (fx_backend h) (fx_format h) (fx_fault h) (fx_process h) (fx_lines h) (fx_messages h) (fx_reader h)
    (fx_scratch h) (fx_ready h) (fx_signalled h) (fx_peers h) m (v_pending h) (v_gradle h).
Definition set_pending (m : list (Z * Z)) (h : harness) : harness :=
  MkHarness (fx_repo h) (fx_timeout h) (fx_backend h) (fx_format h) (fx_fault h) (fx_process h) (fx_lines h) (fx_messages h) (fx_reader h)
    (fx_scratch h) (fx_ready h) (fx_signalled h) (fx_peers h) (v_owned h) m (v_gradle h).
Definition set_gradle (c : option Z) (h : harness) : harness :=
  MkHarness (fx_repo h) (fx_timeout h) (fx_backend h) (fx_format h) (fx_fault h) (fx_process h) (fx_lines h) (fx_messages h) (fx_reader h)
    (fx_scratch h) (fx_ready h) (fx_signalled h) (fx_peers h) (v_owned h) (v_pending h) c.

Definition FIXTURE_ERROR_PREFIX : pystr := py "FIXTURE_ERROR" ++ tab.

Definition is_ready_line (line : pystr) : bool := starts_with (READY_WRITE ++ tab) line || starts_with (READY_READBACK ++ tab) line.

(** [put_nowait], the message dropped when the queue is full. *)
Definition put_nowait (m : option pystr) (h : harness) : harness :=
  if (length (fx_messages h) <? ANDROID_QUEUE_MAXSIZE)%nat then set_messages (fx_messages h ++ [m]) h else h.

(** One line read by [_pump_stdout], and its end. *)
Definition pump_line (h : harness) (line : pystr) : harness :=
  if fx_ready h || negb (is_ready_line line || starts_with FIXTURE_ERROR_PREFIX line) then h else put_nowait (Some line) h.

Definition _pump_stdout (lines : list pystr) (ended : bool) (h : harness) : harness :=
  let h := foldl pump_line h lines in
  if ended then set_reader Ended (put_nowait None h) else h.

Section Fixture.
Context (o : oracle request) (ROOT : path).

(** [f"{seconds:g}"] of a timeout. *)
Context (seconds_text : duration -> pystr).

Abbreviation H := (prog request harness).

Definition fail {A} (c : exc_class) (text : pystr) : H A := hlift (error c text).
Definition reraise {A} (e : fault) : H A := hlift (Failed e).

(** [p / a / b / ...] *)
Definition under (p : path) (names : list string) : path := foldl (fun q n => child q (py n)) p names.

Definition FIXTURE_SCRIPT : path := under ROOT ["tests"; "interop"; "start_android_registry_peer.py"].
Definition PODMAN_FIXTURE_SCRIPT : path := under ROOT ["tests"; "interop"; "start_podman_registry_peers.py"].

(** [except (OSError, subprocess.TimeoutExpired)] *)
Definition os_or_timeout (e : fault) : bool := is_OSError (f_class e) || bool_decide (f_class e = TimeoutExpired).

(** * Helpers *)

Definition ensure_distinct_lmdb_stores (writer_path readback_path : path) : H unit :=
  do w <- call o (IsFile writer_path);
  do b <- (if w then call o (IsFile readback_path) else hret false);
  raise_when negb b as error HarnessError (py "Registry peers did not create separate LMDB files");
  do rw <- call o (Resolve writer_path);
  do rb <- call o (Resolve readback_path);
  do same <- (if bool_decide (rw = rb) then hret true else call o (SameFile writer_path readback_path));
  raise_when same as error HarnessError (py "Registry peers must use separate LMDB files");
  hret tt.

Definition python_query (uv : pystr) (project : path) : list pystr :=
  [uv; py "run"; py "--locked"; py "--project"; path_str project; py "--extra"; py "dev"; py "python"; py "-c";
   py "import sys; print(sys.executable)"].

Definition registry_python_executable (uv : pystr) (registry_repo : path) : H pystr :=
  do expanded <- call o (Expanduser registry_repo);
  do project <- call o (Resolve expanded);
  let message := py "could not resolve the locked Registry Python environment" in
  do (code, out) <- hcatch (call o (Output (python_query uv project) (Some project) (sec 60)))
    (fun e => if os_or_timeout e then fail HarnessError message else reraise e);
  let executable := strip out in
  raise_when negb (code =? 0) || bool_decide (executable = []) || bool_decide (10 ∈ executable) as error HarnessError message;
  let p := Path executable in
  do present <- (if is_absolute p then call o (IsFile p) else hret false);
  raise_when negb present as error HarnessError (py "locked Registry project returned an invalid Python executable");
  hret (path_str p).

(** * The fixture *)

Definition init (registry_repo : path) (timeout_seconds : option duration) (peer_backend predecessor_format history_fault : pystr) : H unit :=
  raise_when negb (bool_decide (peer_backend ∈ [py "process"; py "podman"]))
    as error HarnessError (py "unsupported Registry peer backend: " ++ peer_backend);
  raise_when negb (bool_decide (predecessor_format ∈ [py "legacy"; py "versioned"]))
    as error HarnessError (py "unsupported Registry predecessor format: " ++ predecessor_format);
  raise_when negb (bool_decide (history_fault ∈ [py "none"; py "missing"; py "corrupt"]))
    as error HarnessError (py "unsupported Registry history fault: " ++ history_fault);
  raise_when bool_decide (predecessor_format = py "versioned") && negb (bool_decide (peer_backend = py "process"))
    as error HarnessError (py "versioned Registry history fixtures require the process backend");
  raise_when negb (bool_decide (history_fault = py "none")) && negb (bool_decide (predecessor_format = py "versioned"))
    as error HarnessError (py "Registry history faults require versioned predecessor history");
  do repo <- call o (Resolve registry_repo);
  do timeout <- hlift (fixture_startup_timeout peer_backend timeout_seconds);
  update (new_fixture repo timeout peer_backend predecessor_format history_fault).

Definition fixture_script (h : harness) : path :=
  if bool_decide (fx_backend h = py "process") then FIXTURE_SCRIPT else PODMAN_FIXTURE_SCRIPT.

Definition build_command (h : harness) (fixture_python : pystr) (data_root : path) : list pystr :=
  [fixture_python; path_str (fixture_script h)] ++
  (if bool_decide (fx_backend h = py "process") then
     [py "--advertise-host"; py "127.0.0.1"; py "--data-dir"; path_str data_root] ++
     (if bool_decide (fx_format h = py "legacy") then [] else [py "--predecessor-format"; fx_format h]) ++
     (if bool_decide (fx_fault h = py "none") then [] else [py "--history-fault"; fx_fault h])
   else [py "--data-dir"; path_str data_root; py "--wallet-repo"; path_str ROOT]).

(** [line.split("\t", 1)[0]] *)
Definition line_tag (line : pystr) : pystr := (partition tab line).1.1.

Definition received (h : harness) : pystr := list_repr (line_tag <$> fx_lines h).

(** [_fixture_exited_message] *)
Definition exited {A} : H A :=
  do h <- get_state;
  do code <- (if fx_process h then ask o Poll else hret None);
  fail HarnessError (py "Registry fixture exited before readiness (exit=" ++
    match code with Some c => int_str c | None => py "None" end ++ py "); records received: " ++ received h).

(** The pump may run. *)
Definition observe (timeout : Z) : H unit :=
  do h <- get_state;
  match fx_reader h with
  | Running => do p <- ask o (ReaderLines timeout); update (_pump_stdout p.1 p.2)
  | _ => hret tt
  end.

Definition get_message (timeout : Z) : H (option (option pystr)) :=
  do _ <- observe timeout;
  do h <- get_state;
  match fx_messages h with
  | [] => hret None
  | line :: rest => do _ <- update (set_messages rest); hret (Some line)
  end.

(** Both peers have been announced. *)
Definition become_ready (data_root : path) : H unit :=
  do h <- get_state;
  do peers <- hlift (parse_ready_lines (fx_lines h));
  do _ <- update (set_peers peers);
  do (w, b) <- hlift (registry_store_paths data_root (fx_backend h));
  do _ <- ensure_distinct_lmdb_stores w b;
  do _ <- update set_ready;
  call o (Print false (py "Managed writer/read-back peers ready; separate LMDB files verified.")).

Fixpoint ready_loop (rounds : nat) (data_root : path) (deadline : duration) : H unit :=
  match rounds with
  | O => hlift Stuck
  | S rounds' =>
      do now <- ask o Clock;
      do h <- get_state;
      if negb (before_deadline now deadline) then
        fail HarnessError (py "Registry fixture did not become ready within " ++ seconds_text (fx_timeout h) ++
          py "s; readiness records received: " ++ received h)
      else
      do later <- ask o Clock;
      do message <- get_message (poll_time later deadline);
      match message with
      | None =>
          do code <- ask o Poll;
          match code with Some _ => exited | None => ready_loop rounds' data_root deadline end
      | Some None => exited
      | Some (Some line) =>
          if starts_with FIXTURE_ERROR_PREFIX line then
            do _ <- update (add_line (py "FIXTURE_ERROR"));
            fail HarnessError (py "Registry fixture failed: " ++ safe_fixture_error_message (strip (partition tab line).2))
          else if negb (is_ready_line line) then ready_loop rounds' data_root deadline
          else
            do _ <- update (add_line line);
            do _ <- call o (Print false (py "Registry fixture announced " ++ line_tag line ++ py "."));
            do h <- get_state;
            if (length (base.filter (fun l => is_ready_line l = true) (fx_lines h)) =? 2)%nat
            then become_ready data_root
            else ready_loop rounds' data_root deadline
      end
  end.

(** [os.killpg], or the signal to the process alone. *)
Definition signal_group (s : signal) : H unit :=
  hcatch (call o (KillGroup s))
    (fun e => if bool_decide (f_class e = ProcessLookupError) || bool_decide (f_class e = PermissionError)
              then call o (Signal s) else reraise e).

(** [process.wait(timeout=timeout)], and what follows [TimeoutExpired]. *)
Definition wait_or (timeout : Z) (otherwise : H unit) : H unit :=
  hcatch (do _ <- call o (Wait timeout); hret tt)
    (fun e => if bool_decide (f_class e = TimeoutExpired) then otherwise else reraise e).

Definition stop_process : H unit :=
  do h <- get_state;
  do _ <- update set_signalled;
  do _ <- signal_group SIGINT;
  wait_or (if bool_decide (fx_backend h = py "podman") then sec 45 else sec 15)
    (do _ <- signal_group SIGTERM;
     wait_or (sec 5)
       (do _ <- signal_group SIGKILL;
        do _ <- call o (Wait (sec 5));
        hret tt)).

Definition stop : H unit :=
  do h <- get_state;
  do _ <- (if fx_process h then
             do code <- ask o Poll;
             match code with None => stop_process | Some _ => hret tt end
           else hret tt);
  do _ <- (if fx_process h then call o CloseStdout else hret tt);
  do _ <- match fx_reader h with
          | Unstarted => fail RuntimeError (py "cannot join thread before it is started")
          | _ => observe (sec 2)
          end;
  match fx_scratch h with
  | Some name => do _ <- call o (CleanTemp name); update (set_scratch None)
  | None => hret tt
  end.

(** The [try] block of [__enter__]. *)
Definition launch (rounds : nat) (command : list pystr) (env : environ) (data_root : path) : H unit :=
  do h <- get_state;
  do _ <- call o (Popen command (fx_repo h) env);
  do _ <- update set_process;
  do _ <- update (set_reader Unstarted);
  do _ <- call o StartReader;
  do _ <- update (set_reader Running);
  do now <- ask o Clock;
  ready_loop rounds data_root (deadline_after now (fx_timeout h)).

Definition enter (rounds : nat) : H unit :=
  do h <- get_state;
  do present <- call o (IsDir (fx_repo h));
  raise_when negb present as error HarnessError (py "decent-registry checkout not found: " ++ path_str (fx_repo h));
  do script <- call o (IsFile (fixture_script h));
  raise_when negb script as error HarnessError (py "Registry fixture script not found: " ++ path_str (fixture_script h));
  do found <- call o (Which (py "uv"));
  match found with
  | None => fail HarnessError (py "uv is required to start the locked decent-registry fixture")
  | Some uv =>
      do fixture_python <- registry_python_executable uv (fx_repo h);
      do env <- ask o Environ;
      do home <- call o Home;
      let scratch_root := match env !! py "TMPDIR" with Some t => Path t | None => under home [".cache"; "decent-wallet"] end in
      do _ <- call o (Mkdir scratch_root);
      do name <- call o (MakeTemp scratch_root);
      do _ <- update (set_scratch (Some name));
      let data_root := child (Path name) (py "peer-data") in
      do _ <- call o (Mkdir data_root);
      do env <- ask o Environ;
      let command := build_command h fixture_python data_root in
      do _ <- call o (Print false (py "Starting temporary Registry peers: " ++ join_with 32 command));
      hcatch (launch rounds command (<[py "TMPDIR" := name]> env) data_root)
        (fun e => do _ <- stop; reraise e)
  end.

(** [{-signal.SIGINT, 128 + signal.SIGINT}] *)
Definition expected_signal_exits : list Z := [-2; 130].

Definition exit : H unit :=
  do _ <- stop;
  do h <- get_state;
  if fx_process h then
    do code <- ask o Poll;
    let bad := match code with
      | Some c => negb (c =? 0) && negb (fx_signalled h && bool_decide (c ∈ expected_signal_exits))
      | None => true end in
    raise_when bad as error HarnessError (py "Registry fixture teardown failed (exit=" ++
      match code with Some c => int_str c | None => py "None" end ++ py ")");
    call o (Print false (py "Temporary Registry peers stopped and scratch LMDB data removed."))
  else hret tt.

(** [with RegistryPeerFixture(...) as fixture: body] *)
Definition with_peers {A} (rounds : nat) (registry_repo : path) (timeout : duration) (peer_backend predecessor_format history_fault : pystr)
    (body : RegistryPeerAddress -> RegistryPeerAddress -> H A) : H A :=
  do _ <- init registry_repo (Some timeout) peer_backend predecessor_format history_fault;
  do _ <- enter rounds;
  do r <- hattempt
    (do h <- get_state;
     match fx_peers h with
     | Some (w, b) => body w b
     | None => fail (OtherError 1) []
     end);
  do _ <- exit;
  match r with inl a => hret a | inr e => reraise e end.

End Fixture.
