(* ===== verification/LocalRun.v ===== *)
(** The local acceptance run (run_wallet_registry_acceptance.py): Android targets, port mappings,
    reports, the phases, and [main] after argument parsing. *)

From stdpp Require Import gmap.
From S2P Require Import Prelude Json Regex NativeReport Harness PyPath RemoteRecords LocalRecords LocalFixture.

Open Scope Z_scope.
Open Scope harness_scope.

Section Run.
Context (o : oracle request) (ROOT : path) (seconds_text : duration -> pystr) (unicode_word : Z -> bool).

Abbreviation H := (prog request harness).
Abbreviation fail := LocalFixture.fail.
Abbreviation reraise := LocalFixture.reraise.

Definition JVM_RESULTS : path := under ROOT ["platforms"; "android-wallet"; "build"; "test-results"; "testDebugUnitTest"].
Definition ANDROID_RESULTS : path :=
  under ROOT ["platforms"; "android-wallet"; "build"; "outputs"; "androidTest-results"; "connected"; "debug"].
Definition PODMAN_DESKTOP_TEST : path := under ROOT ["tests"; "test_podman_registry_deployment.py"].

(** * Android targets *)

Definition adb_command (adb : path) (serial : pystr) (args : list pystr) : list pystr := [path_str adb; py "-s"; serial] ++ args.

Definition adb_output (adb : path) (serial : pystr) (args : list pystr) : H pystr :=
  do (code, out) <- call o (Output (adb_command adb serial args) (Some ROOT) (sec 30));
  raise_when negb (code =? 0)
    as error HarnessError (py "adb " ++ join_with 32 args ++ py " failed (" ++ int_str code ++ py "): " ++ strip out);
  hret out.

(** [env.get(k)] as a condition. *)
Definition env_value (env : environ) (k : string) : option pystr :=
  match env !! py k with Some ((_ :: _) as v) => Some v | _ => None end.

Definition android_avd_config_root (env : environ) : H path :=
  match env_value env "ANDROID_AVD_HOME", env_value env "ANDROID_USER_HOME" with
  | Some v, _ => call o (Expanduser (Path v))
  | None, Some v => do p <- call o (Expanduser (Path v)); hret (child p (py "avd"))
  | None, None => do home <- call o Home; hret (under home [".android"; "avd"])
  end.

Definition read_avd_config (avd_name : pystr) (env : environ) : H (gmap pystr pystr) :=
  do root <- android_avd_config_root env;
  let config_path := child (child root (avd_name ++ py ".avd")) (py "config.ini") in
  do text <- hcatch (call o (ReadText config_path))
    (fun e => if is_OSError (f_class e) then fail HarnessError (py "could not read host AVD configuration for " ++ avd_name) else reraise e);
  hret (parse_config (splitlines text)).

Definition config_error (avd_name key : pystr) : pystr :=
  py "approved AVD " ++ avd_name ++ py " has an unexpected " ++ key ++ py " image configuration".

Fixpoint check_config (avd_name : pystr) (config : gmap pystr pystr) (expected : list (pystr * pystr)) : outcome unit :=
  match expected with
  | [] => Done tt
  | (key, value) :: rest =>
      if bool_decide (config !! key = Some value) then check_config avd_name config rest
      else error HarnessError (config_error avd_name key)
  end.

Definition verify_android_target (adb : path) (serial : pystr) : H (pystr * Z * pystr) :=
  do names <- adb_output adb serial [py "emu"; py "avd"; py "name"];
  match avd_names names with
  | [avd_name] =>
      match APPROVED_ANDROID_TARGETS avd_name with
      | None => fail HarnessError (avd_name ++ py " is not an approved AVD for Issue #18 runtime tests")
      | Some expected =>
          do boot <- adb_output adb serial [py "shell"; py "getprop"; py "sys.boot_completed"];
          raise_when negb (bool_decide (strip boot = py "1"))
            as error HarnessError (py "approved AVD " ++ avd_name ++ py " has not completed boot");
          do env <- ask o Environ;
          do config <- read_avd_config avd_name env;
          do _ <- hlift (check_config avd_name config (t_config expected));
          do api_text <- adb_output adb serial [py "shell"; py "getprop"; py "ro.build.version.sdk"];
          do abi_text <- adb_output adb serial [py "shell"; py "getprop"; py "ro.product.cpu.abi"];
          match py_int (strip api_text) with
          | None => fail HarnessError (py "approved AVD " ++ avd_name ++ py " reported an invalid Android API level")
          | Some api =>
              let abi := strip abi_text in
              raise_when negb (api =? t_api expected) || negb (bool_decide (abi = t_abi expected))
                as error HarnessError (py "approved AVD " ++ avd_name ++ py " API/ABI does not match the acceptance matrix");
              do play_store <- adb_output adb serial [py "shell"; py "pm"; py "path"; py "com.android.vending"];
              raise_when negb (existsb (fun l => starts_with (py "package:") (strip l)) (splitlines play_store))
                as error HarnessError (py "approved AVD " ++ avd_name ++ py " is missing the Google Play Store package");
              hret (avd_name, api, abi)
          end
      end
  | _ => fail HarnessError (py "could not determine the connected emulator's host-side AVD name")
  end.

Definition devices_command (adb : path) : list pystr := [path_str adb; py "devices"; py "-l"].

Definition revalidate_android_target (adb : path) (serial : pystr) (expected_target : pystr * Z * pystr) : H (pystr * Z * pystr) :=
  do (code, out) <- hcatch (call o (Output (devices_command adb) (Some ROOT) (sec 30)))
    (fun e => if os_or_timeout e then fail HarnessError (py "could not recheck Android targets before Gradle: " ++ f_text e) else reraise e);
  raise_when negb (code =? 0) as error HarnessError (py "adb devices failed before Gradle: " ++ strip out);
  do current_serial <- hlift (select_single_emulator out (Some serial));
  do current_target <- verify_android_target adb current_serial;
  raise_when negb (bool_decide (current_target = expected_target))
    as error HarnessError (py "approved Android target identity changed before Gradle");
  hret current_target.

(** * Reports *)

Fixpoint collect_matches (report_paths : list path) (expected_class expected_test_name : pystr) : H (list element) :=
  match report_paths with
  | [] => hret []
  | p :: rest =>
      do root <- hcatch (call o (ParseReport p))
        (fun e => if bool_decide (f_class e = ParseError) || is_OSError (f_class e)
                  then fail HarnessError (py "cannot parse JUnit report " ++ path_str p ++ py ": " ++ f_text e) else reraise e);
      do others <- collect_matches rest expected_class expected_test_name;
      hret (matching_cases expected_class expected_test_name root ++ others)
  end.

Definition verify_junit_test_result (report_paths : list path) (expected_class expected_test_name : pystr) : H unit :=
  do cases <- collect_matches report_paths expected_class expected_test_name;
  hlift (check_matches expected_class expected_test_name cases).

Definition verify_android_test_result (report_paths : list path) (expected_test_name : pystr) : H unit :=
  verify_junit_test_result report_paths ROTATION_TEST_CLASS expected_test_name.

Definition stamp (p : path) : H (Z * Z) :=
  do m <- call o (Mtime p); do z <- call o (Size p); hret (m, z).

Fixpoint stamps (paths : list path) : H (list (path * (Z * Z))) :=
  match paths with
  | [] => hret []
  | p :: rest =>
      do regular <- call o (IsFile p);
      do here <- (if regular then do s <- stamp p; hret [(p, s)] else hret []);
      do others <- stamps rest;
      hret (here ++ others)
  end.

Definition report_snapshot (report_root : path) : H (list (path * (Z * Z))) :=
  do present <- call o (Exists report_root);
  if negb present then hret [] else do paths <- call o (Rglob report_root); stamps paths.

(** [before.get(p)] *)
Definition stamp_before (before : list (path * (Z * Z))) (p : path) : option (Z * Z) :=
  snd <$> List.find (fun kv => bool_decide (kv.1 = p)) (reverse before).

Definition changed_reports (report_root : path) (before : list (path * (Z * Z))) : H (list path) :=
  do after <- report_snapshot report_root;
  hret (fst <$> base.filter (fun kv : path * (Z * Z) => stamp_before before kv.1 <> Some kv.2) after).

Definition android_report_snapshot : H (list (path * (Z * Z))) := report_snapshot ANDROID_RESULTS.

(** * Port mappings *)

Definition tcp (p : Z) : pystr := py "tcp:" ++ int_str p.

Definition list_mappings (adb : path) (serial : pystr) : H pystr := adb_output adb serial [py "reverse"; py "--list"].

Definition add_args (remote_port local_port : Z) : list pystr := [py "reverse"; py "--no-rebind"; tcp remote_port; tcp local_port].
Definition remove_args (remote_port : Z) : list pystr := [py "reverse"; py "--remove"; tcp remote_port].

Definition add_reverse_mapping (adb : path) (serial : pystr) (remote_port local_port : Z) : H unit :=
  do _ <- adb_output adb serial (add_args remote_port local_port); hret tt.

(** [except (HarnessError, OSError, subprocess.TimeoutExpired)] *)
Definition adb_failure (e : fault) : bool := bool_decide (f_class e = HarnessError) || os_or_timeout e.

(** The mappings adb reports, or the text of what went wrong. *)
Definition current_mappings (adb : path) (serial : pystr) : H (gmap Z Z + pystr) :=
  do r <- hattempt (do out <- list_mappings adb serial; hlift (parse_reverse_mappings out));
  match r with
  | inl m => hret (inl m)
  | inr e => if adb_failure e then hret (inr (f_text e)) else reraise e
  end.

(** The loop of [cleanup_reverse_mappings]; an error ends it. *)
Fixpoint remove_mappings (adb : path) (serial : pystr) (candidates : list (Z * Z)) : H (option pystr) :=
  match candidates with
  | [] => hret None
  | (remote_port, local_port) :: rest =>
      do current <- current_mappings adb serial;
      match current with
      | inr text => hret (Some (py "could not inspect adb reverse tcp:" ++ int_str remote_port ++ py " before cleanup: " ++ text))
      | inl m =>
          do _ <- (if bool_decide (m !! remote_port = Some local_port) then
                     hcatch (do _ <- call o (Output (adb_command adb serial (remove_args remote_port)) (Some ROOT) (sec 20)); hret tt)
                       (fun e => if os_or_timeout e then hret tt else reraise e)
                   else hret tt);
          remove_mappings adb serial rest
      end
  end.

Definition cleanup_reverse_mappings (adb : path) (serial : pystr) (owned pending : list (Z * Z)) : H (list pystr) :=
  let candidates := merge_mappings pending owned in
  match candidates with
  | [] => hret []
  | _ =>
      do problem <- remove_mappings adb serial (sort_by (fun kv : Z * Z => [kv.1; kv.2]) candidates);
      match problem with
      | Some text => hret [text]
      | None =>
          do remaining <- current_mappings adb serial;
          match remaining with
          | inr text => hret [py "could not verify adb reverse cleanup: " ++ text]
          | inl m =>
              match base.filter (fun kv : Z * Z => m !! kv.1 = Some kv.2) candidates with
              | [] => hret []
              | leftovers => hret [py "adb reverse mappings remain: " ++ list_repr (mapping_text <$> leftovers)]
              end
          end
      end
  end.

(** [pending.pop(port, None)] *)
Definition pop_pending (remote_port : Z) (h : harness) : harness :=
  set_pending (base.filter (fun kv => kv.1 <> remote_port) (v_pending h)) h.

(** One round of the loop that sets the mappings up. *)
Definition establish (adb : path) (serial : pystr) (mapping : Z * Z) : H unit :=
  let '(device_port, host_port) := mapping in
  do _ <- update (fun h => set_pending (v_pending h ++ [(device_port, host_port)]) h);
  do r <- hattempt (add_reverse_mapping adb serial device_port host_port);
  match r with
  | inl _ => update (fun h => set_owned (v_owned h ++ [(device_port, host_port)]) (pop_pending device_port h))
  | inr e =>
      if bool_decide (f_class e = HarnessError) then do _ <- update (pop_pending device_port); reraise e
      else if os_or_timeout e then
        fail HarnessError (py "adb reverse tcp:" ++ int_str device_port ++ py " setup outcome is uncertain: " ++ f_text e)
      else reraise e
  end.

Definition verify_mappings (adb : path) (serial : pystr) (expected : list (Z * Z)) : H unit :=
  do out <- list_mappings adb serial; hlift (verify_reverse_mappings out expected).

(** Both mappings of a fixture: the device ports. *)
Definition map_peers (adb : path) (serial : pystr) (w b : RegistryPeerAddress) : H (Z * Z) :=
  do out <- list_mappings adb serial;
  do (writer_port, readback_port) <- hlift (select_reverse_ports out);
  do _ <- establish adb serial (writer_port, l_port w);
  do _ <- establish adb serial (readback_port, l_port b);
  do _ <- verify_mappings adb serial [(writer_port, l_port w); (readback_port, l_port b)];
  hret (writer_port, readback_port).

(** The [try ... finally] around a device run. *)
Definition with_cleanup (adb : path) (serial : pystr) (operation : pystr) (body : H unit) : H unit :=
  do _ <- update (fun h => set_owned [] (set_pending [] (set_gradle None h)));
  do r <- hattempt body;
  do h <- get_state;
  do cleanup_errors <- cleanup_reverse_mappings adb serial (v_owned h) (v_pending h);
  do primary <- hlift (handle_android_cleanup_errors cleanup_errors operation
                         (match r with inl _ => None | inr e => Some e end) (v_gradle h));
  match primary with Some e => reraise e | None => hret tt end.

(** * Tools *)

Definition android_sdk_path (env : environ) : H path :=
  do sdk <- match env_value env "ANDROID_HOME", env_value env "ANDROID_SDK_ROOT" with
            | Some v, _ | None, Some v => call o (Expanduser (Path v))
            | None, None => do home <- call o Home; hret (under home ["Android"; "Sdk"])
            end;
  do present <- call o (IsDir sdk);
  raise_when negb present
    as error HarnessError (py "Android SDK not found at " ++ path_str sdk ++ py "; set ANDROID_HOME or ANDROID_SDK_ROOT");
  call o (Resolve sdk).

Definition adb_path : H path :=
  do env <- ask o Environ;
  do sdk <- android_sdk_path env;
  let candidate := under sdk ["platform-tools"; "adb"] in
  do present <- call o (IsFile candidate);
  if present then hret candidate
  else
    do located <- call o (Which (py "adb"));
    match located with
    | Some p => hret (Path p)
    | None => fail HarnessError (py "adb not found under " ++ path_str sdk ++ py "; set ANDROID_HOME or install platform-tools")
    end.

Fixpoint find_jdk17 (seen candidates : list path) : H path :=
  match candidates with
  | [] => fail HarnessError (py "JDK 17 is required; set JAVA_HOME to an installed JDK 17")
  | candidate :: rest =>
      do home <- call o (Expanduser candidate);
      if bool_decide (home ∈ seen) then find_jdk17 seen rest
      else
        let java := under home ["bin"; "java"] in
        do has_java <- call o (IsFile java);
        do usable <- (if has_java then call o (IsFile (under home ["bin"; "javac"])) else hret false);
        if negb usable then find_jdk17 (home :: seen) rest
        else
          do r <- hattempt (call o (Output [path_str java; py "-version"] None (sec 10)));
          match r with
          | inl (_, version) => if is_jdk17_version unicode_word version then call o (Resolve home) else find_jdk17 (home :: seen) rest
          | inr e => if os_or_timeout e then find_jdk17 (home :: seen) rest else reraise e
          end
  end.

Definition jdk17_home (env : environ) : H path :=
  do configured <- match env_value env "JAVA_HOME" with
                   | Some v => do p <- call o (Expanduser (Path v)); hret [p]
                   | None => hret []
                   end;
  do home <- call o Home;
  let jvm_root := Path (py "/usr/lib/jvm") in
  let known := [under home [".local"; "share"; "mise"; "installs"; "java"; "17.0.2"];
                Path (py "/usr/lib/jvm/java-17-openjdk"); Path (py "/usr/lib/jvm/java-17-openjdk-amd64")] in
  do present <- call o (IsDir jvm_root);
  do installed <- (if present then call o (Glob17 jvm_root) else hret []);
  find_jdk17 [] (configured ++ known ++ installed).

Definition gradle_environment : H environ :=
  do env <- ask o Environ;
  do sdk <- android_sdk_path env;
  do jdk <- jdk17_home env;
  hret (update_env env
    [(py "ANDROID_HOME", path_str sdk); (py "ANDROID_SDK_ROOT", path_str sdk); (py "JAVA_HOME", path_str jdk);
     (py "PATH", path_str (child (Path (path_str jdk)) (py "bin")) ++ py ":" ++ default [] (env !! py "PATH"))]).

(** * Commands *)

Definition run_command (command : list pystr) (env : environ) (timeout : Z) : H Z :=
  do _ <- call o (Print false ([10] ++ py "$ " ++ join_with 32 command));
  hcatch (call o (Run command ROOT (Some env) timeout))
    (fun e => if bool_decide (f_class e = TimeoutExpired) then
                do _ <- call o (Print true (py "command timed out after " ++ int_str (timeout / sec 1) ++ py "s"));
                hret 124
              else reraise e).

Definition uv_pytest (uv : pystr) : list pystr :=
  [uv; py "run"; py "--locked"; py "--project"; path_str ROOT; py "--extra"; py "test"; py "--extra"; py "registry";
   py "python"; py "-m"; py "pytest"; py "-q"; py "-o"; py "addopts="].

Definition desktop_command (uv : pystr) : list pystr :=
  uv_pytest uv ++ [py "-m"; py "registry_integration"; py "tests/test_registry_transport_integration.py"].

Definition run_desktop_integration : H Z :=
  do found <- call o (Which (py "uv"));
  match found with
  | None => fail SystemExit (py "Wallet Registry acceptance harness: uv is required for the desktop RegistryTransport integration suite")
  | Some uv =>
      do _ <- call o (Print false (py "Running desktop RegistryTransport integration tests; pytest owns their peer fixtures."));
      do env <- ask o Environ;
      run_command (desktop_command uv) env (sec 1800)
  end.

Definition podman_command (uv : pystr) (report : path) : list pystr :=
  uv_pytest uv ++ [py "--junitxml=" ++ path_str report; path_str PODMAN_DESKTOP_TEST ++ py "::" ++ PODMAN_DESKTOP_TEST_NAME].

Definition run_podman_desktop_registry_diagnostic (rounds : nat) (registry_repo : path) (fixture_timeout : duration) : H Z :=
  do found <- call o (Which (py "uv"));
  match found with
  | None => fail HarnessError (py "uv is required for the Podman Registry diagnostic")
  | Some uv =>
      do present <- call o (IsFile PODMAN_DESKTOP_TEST);
      raise_when negb present as error HarnessError (py "Podman Registry desktop diagnostic test is missing");
      with_peers o ROOT seconds_text rounds registry_repo fixture_timeout (py "podman") (py "legacy") (py "none") (fun w b =>
        do h <- get_state;
        match fx_scratch h with
        | None => fail (OtherError 1) []
        | Some name =>
            let report := child (Path name) (py "desktop-podman-diagnostic.xml") in
            do env <- ask o Environ;
            let env := <[py "DECENT_REGISTRY_ACCEPTANCE_READBACK_PEER" := l_multiaddr b]>
                        (<[py "DECENT_REGISTRY_ACCEPTANCE_WRITER_PEER" := l_multiaddr w]> env) in
            do code <- run_command (podman_command uv report) env (sec 600);
            if negb (code =? 0) then hret code
            else
              do _ <- verify_junit_test_result [report] PODMAN_DESKTOP_TEST_CLASS PODMAN_DESKTOP_TEST_NAME;
              do _ <- call o (Print false (py "Podman Registry diagnostic passed: writer returned the candidate and the " ++
                py "distinct read-back peer retained the seeded predecessor. Independent-candidate " ++
                py "confirmation remains blocked pending a deployment that delivers the candidate " ++
                py "to a distinct peer."));
              hret 0
        end)
  end.

Definition gradle_command (args : list pystr) : list pystr := [py "./gradlew"; py "--no-daemon"; py "--dependency-verification=strict"] ++ args.

Definition jvm_command : list pystr := gradle_command [py ":platforms:android-wallet:testDebugUnitTest"; py "--rerun-tasks"].

Definition peer_variables (w b : pystr) (env : environ) : environ :=
  <[py "DECENT_REGISTRY_TEST_READBACK_PEER" := b]> (<[py "DECENT_REGISTRY_TEST_PEER" := w]> env).

Definition passed_text (what : pystr) (noun : string) : pystr :=
  what ++ py " acceptance passed: 1 " ++ py noun ++ py ", 0 failures, 0 errors, 0 skipped.".

Definition run_jvm_registry_interop (rounds : nat) (registry_repo : path) (fixture_timeout : duration) (peer_backend : pystr) : H Z :=
  do before <- report_snapshot JVM_RESULTS;
  do gradle_code <- with_peers o ROOT seconds_text rounds registry_repo fixture_timeout peer_backend (py "legacy") (py "none") (fun w b =>
    do env <- gradle_environment;
    run_command jvm_command (peer_variables (l_multiaddr w) (l_multiaddr b) env) (sec 1800));
  if negb (gradle_code =? 0) then hret gradle_code
  else
    do reports <- changed_reports JVM_RESULTS before;
    do _ <- verify_junit_test_result reports JVM_INTEROP_TEST_CLASS JVM_INTEROP_TEST_NAME;
    do _ <- call o (Print false (py "Android host-JVM Registry interop passed: 1 test, 0 failures, 0 errors, 0 skipped."));
    hret 0.

(** * Device phases *)

(** The faults a versioned device phase may inject. *)
Record faults := MkFaults {
  history_fault : pystr;
  promotion_staging_failure : bool;
  lost_acknowledgement : bool;
  conditional_rejection : bool;
  promotion_rollback : bool;
  promotion_unknown : bool;
  competing_write : bool;
}.

Definition no_faults : faults := MkFaults (py "none") false false false false false false.

(** The kind of fixture, or the error of a combination. *)
Definition fixture_kind (f : faults) : outcome pystr :=
  let history := negb (bool_decide (history_fault f = py "none")) in
  if negb (bool_decide (history_fault f ∈ [py "none"; py "missing"; py "corrupt"])) then
    error HarnessError (py "unsupported Android versioned-history fault: " ++ history_fault f)
  else if promotion_staging_failure f && history then
    error HarnessError (py "promotion staging failure cannot use a history-fault fixture")
  else if lost_acknowledgement f && (history || promotion_staging_failure f) then
    error HarnessError (py "lost acknowledgement cannot combine with another fault")
  else if conditional_rejection f && (history || promotion_staging_failure f || lost_acknowledgement f) then
    error HarnessError (py "conditional rejection cannot combine with another fault")
  else if promotion_rollback f && (history || promotion_staging_failure f || lost_acknowledgement f || conditional_rejection f) then
    error HarnessError (py "promotion rollback cannot combine with another fault")
  else if promotion_unknown f &&
      (history || promotion_staging_failure f || lost_acknowledgement f || conditional_rejection f || promotion_rollback f) then
    error HarnessError (py "promotion unknown cannot combine with another fault")
  else if competing_write f &&
      (history || promotion_staging_failure f || lost_acknowledgement f || conditional_rejection f || promotion_rollback f || promotion_unknown f) then
    error HarnessError (py "competing write cannot combine with another fault")
  else Done
    (if competing_write f then py "versioned-competing-write"
     else if promotion_unknown f then py "versioned-promotion-unknown"
     else if promotion_rollback f then py "versioned-promotion-rollback"
     else if conditional_rejection f then py "versioned-conditional-rejection"
     else if lost_acknowledgement f then py "versioned-lost-acknowledgement"
     else if promotion_staging_failure f then py "versioned-promotion-staging-failure"
     else if history then py "versioned-" ++ history_fault f ++ py "-history"
     else py "versioned").

Definition phase_name (f : faults) : pystr :=
  if competing_write f then py "competing write"
  else if promotion_unknown f then py "promotion unknown"
  else if promotion_rollback f then py "promotion rollback"
  else if conditional_rejection f then py "conditional rejection"
  else if lost_acknowledgement f then py "lost acknowledgement"
  else if promotion_staging_failure f then py "promotion staging failure"
  else if bool_decide (history_fault f = py "missing") then py "missing versioned predecessor history"
  else if bool_decide (history_fault f = py "corrupt") then py "corrupt versioned predecessor history"
  else py "versioned owner-key rotation".

Definition test_name (f : faults) : pystr :=
  if bool_decide (history_fault f = py "none") then ROTATION_TEST_NAME else HISTORY_AVAILABILITY_TEST_NAME.

Definition device_peer (device_port : Z) (p : RegistryPeerAddress) : pystr :=
  py "/ip4/127.0.0.1/tcp/" ++ int_str device_port ++ py "/p2p/" ++ l_peer_id p.

Definition target_text (t : pystr * Z * pystr) : pystr := t.1.1 ++ py " API " ++ int_str t.1.2 ++ py ", " ++ t.2.

Definition versioned_command (f : faults) : list pystr :=
  gradle_command [py "-PwalletAndroidTestClass=" ++ ROTATION_TEST_CLASS ++ py "#" ++ test_name f;
                  py ":platforms:android-wallet:connectedDebugAndroidTest"; py "--rerun-tasks"].

Definition legacy_command : list pystr := gradle_command [py ":platforms:android-wallet:connectedDebugAndroidTest"; py "--rerun-tasks"].

(** [gradle_code = run_command(...)] *)
Definition run_gradle (command : list pystr) (env : environ) : H unit :=
  do code <- run_command command env (sec 2400);
  update (set_gradle (Some code)).

(** [return gradle_code if gradle_code is not None else 1] *)
Definition gradle_status : H Z := do h <- get_state; hret (default 1 (v_gradle h)).

Definition FIXTURE_VARIABLE : pystr := py "DECENT_REGISTRY_TEST_FIXTURE".

Definition run_versioned_android_runtime (rounds : nat) (registry_repo : path) (fixture_timeout : duration) (adb : path) (serial : pystr)
    (expected_target : pystr * Z * pystr) (peer_backend : pystr) (f : faults) : H (Z * list path) :=
  do kind <- hlift (fixture_kind f);
  do env <- gradle_environment;
  let env := <[FIXTURE_VARIABLE := kind]> env in
  do before <- android_report_snapshot;
  do _ <- with_cleanup adb serial (phase_name f ++ py " Android Gradle run")
    (with_peers o ROOT seconds_text rounds registry_repo fixture_timeout peer_backend (py "versioned") (history_fault f) (fun w b =>
      do (writer_port, readback_port) <- map_peers adb serial w b;
      let env := peer_variables (device_peer writer_port w) (device_peer readback_port b) env in
      do target <- revalidate_android_target adb serial expected_target;
      do _ <- call o (Print false (py "Revalidated sole target immediately before " ++ phase_name f ++ py " Android Gradle run: " ++ target_text target));
      run_gradle (versioned_command f) env));
  do status <- gradle_status;
  if negb (status =? 0) then hret (status, [])
  else do reports <- changed_reports ANDROID_RESULTS before; hret (0, reports).

Definition legacy_phase (rounds : nat) (registry_repo : path) (fixture_timeout : duration) (adb : path) (serial : pystr)
    (target : pystr * Z * pystr) (peer_backend : pystr) (env : environ) : H unit :=
  with_cleanup adb serial (py "Legacy Android Gradle run")
    (with_peers o ROOT seconds_text rounds registry_repo fixture_timeout peer_backend (py "legacy") (py "none") (fun w b =>
      do (writer_port, readback_port) <- map_peers adb serial w b;
      let env := peer_variables (device_peer writer_port w) (device_peer readback_port b) env in
      do _ <- call o (Print false (py "Verified adb reverse writer/read-back targets on device ports " ++ int_str writer_port ++ py "/" ++ int_str readback_port));
      do _ <- verify_mappings adb serial [(writer_port, l_port w); (readback_port, l_port b)];
      do current <- revalidate_android_target adb serial target;
      do _ <- call o (Print false (py "Revalidated sole target immediately before Gradle: " ++ target_text current));
      run_gradle legacy_command env)).

(** The later device phases: faults, the test expected, and what is reported. *)
Definition device_phases (all_device_faults : bool) : list (faults * pystr * pystr) :=
  [(no_faults, ROTATION_TEST_NAME, py "Android wallet versioned non-genesis Registry runtime");
   (MkFaults (py "missing") false false false false false false, HISTORY_AVAILABILITY_TEST_NAME, py "Android wallet missing-versioned-history fault");
   (MkFaults (py "corrupt") false false false false false false, HISTORY_AVAILABILITY_TEST_NAME, py "Android wallet corrupt-versioned-history fault");
   (MkFaults (py "none") true false false false false false, ROTATION_TEST_NAME, py "Android wallet promotion-staging fault");
   (MkFaults (py "none") false true false false false false, ROTATION_TEST_NAME, py "Android wallet lost-acknowledgement")] ++
  if all_device_faults then
    [(MkFaults (py "none") false false true false false false, ROTATION_TEST_NAME, py "Android wallet conditional_rejection");
     (MkFaults (py "none") false false false true false false, ROTATION_TEST_NAME, py "Android wallet promotion_rollback");
     (MkFaults (py "none") false false false false true false, ROTATION_TEST_NAME, py "Android wallet promotion_unknown");
     (MkFaults (py "none") false false false false false true, ROTATION_TEST_NAME, py "Android wallet competing_write")]
  else [].

Fixpoint run_device_phases (rounds : nat) (registry_repo : path) (fixture_timeout : duration) (adb : path) (serial : pystr)
    (target : pystr * Z * pystr) (peer_backend : pystr) (phases : list (faults * pystr * pystr)) : H Z :=
  match phases with
  | [] => hret 0
  | (f, expected, what) :: rest =>
      do (code, reports) <- run_versioned_android_runtime rounds registry_repo fixture_timeout adb serial target peer_backend f;
      if negb (code =? 0) then hret code
      else
        do _ <- verify_android_test_result reports expected;
        do _ <- call o (Print false (passed_text what "test"));
        run_device_phases rounds registry_repo fixture_timeout adb serial target peer_backend rest
  end.

Definition run_android_runtime (rounds : nat) (registry_repo : path) (requested_serial : option pystr) (fixture_timeout : duration)
    (peer_backend : pystr) (all_device_faults : bool) : H Z :=
  do adb <- adb_path;
  do started <- call o (Run [path_str adb; py "start-server"] ROOT None (sec 30));
  raise_when negb (started =? 0) as error CalledProcessError (py "Command returned non-zero exit status " ++ int_str started);
  do (code, out) <- call o (Output (devices_command adb) (Some ROOT) (sec 30));
  raise_when negb (code =? 0) as error HarnessError (py "adb devices failed: " ++ strip out);
  do serial <- hlift (select_single_emulator out requested_serial);
  do target <- verify_android_target adb serial;
  do _ <- call o (Print false (py "Verified the sole connected target: " ++ target_text target ++ py ", serial " ++ serial));
  do env <- gradle_environment;
  let env := <[FIXTURE_VARIABLE := py "legacy"]> env in
  do before <- android_report_snapshot;
  do _ <- legacy_phase rounds registry_repo fixture_timeout adb serial target peer_backend env;
  do status <- gradle_status;
  if negb (status =? 0) then hret status
  else
    do reports <- changed_reports ANDROID_RESULTS before;
    do _ <- verify_android_test_result reports ROTATION_TEST_NAME;
    do _ <- call o (Print false (passed_text (py "Android wallet legacy Registry runtime") "target rotation test"));
    run_device_phases rounds registry_repo fixture_timeout adb serial target peer_backend (device_phases all_device_faults).

(** * The command *)

Inductive selection := DesktopOnly | JvmOnly | AndroidOnly | Everything.

Record arguments := MkArguments {
  a_selection : selection;
  a_backend : pystr;
  a_serial : option pystr;
  a_repo : path;
  a_timeout : option duration;
}.

(** [code = ...; if code: return code] before what comes next. *)
Definition then_on_success (m : H Z) (k : H Z) : H Z := do code <- m; if negb (code =? 0) then hret code else k.

Definition run_selection (rounds : nat) (args : arguments) (fixture_timeout : duration) : H Z :=
  let podman := bool_decide (a_backend args = py "podman") in
  let diagnostic := run_podman_desktop_registry_diagnostic rounds (a_repo args) fixture_timeout in
  let jvm := run_jvm_registry_interop rounds (a_repo args) fixture_timeout (a_backend args) in
  let device := run_android_runtime rounds (a_repo args) (a_serial args) fixture_timeout (a_backend args) true in
  match a_selection args with
  | DesktopOnly => then_on_success run_desktop_integration (if podman then diagnostic else hret 0)
  | JvmOnly => jvm
  | AndroidOnly => then_on_success jvm device
  | Everything =>
      then_on_success run_desktop_integration
        (then_on_success (if podman then diagnostic else hret 0) (then_on_success jvm device))
  end.

Definition report_failure (e : fault) : H Z :=
  do _ <- call o (Print true (py "Wallet Registry acceptance harness: " ++ format_harness_error e));
  hret 1.

Definition main (rounds : nat) (args : arguments) : H Z :=
  match validate_peer_backend_mode (a_backend args) (match a_selection args with DesktopOnly => true | _ => false end) with
  | Failed e => report_failure e
  | _ =>
      raise_when match a_timeout args with Some t => not_positive t | None => false end
        as error SystemExit (py "Wallet Registry acceptance harness: --fixture-timeout must be positive");
      do fixture_timeout <- hlift (fixture_startup_timeout (a_backend args) (a_timeout args));
      hcatch (run_selection rounds args fixture_timeout)
        (fun e => if bool_decide (f_class e = HarnessError) then report_failure e else reraise e)
  end.

End Run.
