(* ===== verification/LocalPeers.v ===== *)
(** The local acceptance harness under every environment: which parts only ask, and the fixture's
    start, readiness and teardown.

    Facts hold for any rule that restricts only the commands that add or remove a mapping. *)

From stdpp Require Import gmap.
From S2P Require Import Prelude Json Regex NativeReport Harness PyPath RemoteRecords LocalRecords LocalFixture LocalRun.

Open Scope Z_scope.
Open Scope harness_scope.

Abbreviation ev := (event request).
Abbreviation hst := (Harness.host request harness).

(** The command word of an adb command line and what follows it: the first word after the
    program that is neither an option nor the value of one. *)
Fixpoint command_word (words : list pystr) : option (pystr * list pystr) :=
  match words with
  | [] => None
  | w :: rest =>
      if bool_decide (w ∈ [py "-s"; py "-t"; py "-H"; py "-P"; py "-L"]) then
        match rest with _ :: rest' => command_word rest' | [] => None end
      else if bool_decide (head w = Some 45) then command_word rest
      else Some (w, rest)
  end.

(** [adb ... reverse ...] with any arguments but the one word [--list] *)
Definition changes_mappings (command : list pystr) : bool :=
  match command_word (tail command) with
  | Some (word, args) => bool_decide (word = py "reverse") && negb (bool_decide (args = [py "--list"]))
  | None => false
  end.

(** The command that a request runs and waits for ([Popen] starts the fixture only). *)
Definition command_of {R} (q : request R) : list pystr :=
  match q with Output c _ _ => c | Run c _ _ _ => c | _ => [] end.

(** A rule on the commands that change mappings only. *)
Definition on_mappings (rule : list ev -> ev -> Prop) : Prop :=
  forall R (q : request R), changes_mappings (command_of q) = false -> free rule q.

Create HintDb plain.
#[export] Hint Extern 1 (changes_mappings _ = false) => reflexivity : plain.

(** What leaves the whole state alone leaves every view of it alone. *)
Lemma plain_asks {T A} rule (view : harness -> T) short (m : prog request harness A) :
  plain rule (fun h => h) short m -> plain rule view short m.
Proof. intros Hm. by apply (plain_weaken _ (fun h : harness => h) view _ _ view). Qed.

(** Decompose a program down to the functions that are known to be plain. *)
Ltac plain_free := first [assumption | match goal with H : on_mappings _ |- free _ _ => apply H; try done end].
Ltac plain_step :=
  first
  [ solve [auto with plain]
  | solve [apply plain_asks; auto with plain]
  | match goal with
    | |- plain _ _ _ (hbind _ _) => apply plain_seq; [|intros ?]
    | |- plain _ _ _ (hret _) => apply plain_ret
    | |- plain _ _ _ get_state => apply plain_get
    | |- plain _ _ _ (ask _ _) => apply plain_ask; plain_free
    | |- plain _ _ _ (call _ _) => apply plain_call; plain_free
    | |- plain _ _ _ (hcatch _ _) => apply plain_catch; [|intros ?]
    | |- plain _ _ _ (hattempt _) => apply plain_attempt
    | |- plain _ _ _ (hlift (error _ _)) => apply plain_lift; done
    | |- plain _ _ _ (hlift (Failed _)) => apply plain_lift; done
    | |- plain _ _ _ (fail _ _) => apply plain_lift; done
    | |- plain _ _ _ (reraise _) => apply plain_lift; done
    | |- plain _ _ _ (update _) => apply plain_update; done
    | |- plain _ _ _ (let _ := _ in _) => cbv zeta
    | |- plain _ _ _ (if ?c then _ else _) => destruct c
    | |- plain _ _ _ (match ?c with _ => _ end) => destruct c
    end ].
Ltac plain_tac := intros; repeat plain_step.

(** * Parts that only ask *)

Section Asking.
Context (o : oracle request) (ROOT : path) (seconds_text : duration -> pystr) (unicode_word : Z -> bool).
Context (rule : list ev -> ev -> Prop) (Hrule : on_mappings rule) (short : Prop).

(** The whole state is left alone. *)
#[local] Abbreviation asks m := (plain rule (fun h : harness => h) short m).

Lemma asks_stores w b : asks (ensure_distinct_lmdb_stores o w b).
Proof. unfold ensure_distinct_lmdb_stores. plain_tac. Qed.

Lemma asks_python uv repo : asks (registry_python_executable o uv repo).
Proof. unfold registry_python_executable. plain_tac. Qed.

Lemma asks_adb adb serial args :
  changes_mappings (adb_command adb serial args) = false -> asks (adb_output o ROOT adb serial args).
Proof. intros Ha. unfold adb_output. plain_tac. Qed.
Hint Resolve asks_stores asks_python asks_adb : plain.

Lemma asks_avd name env : asks (read_avd_config o name env).
Proof. unfold read_avd_config, android_avd_config_root. plain_tac. Qed.
Hint Resolve asks_avd : plain.

Lemma check_config_total name config expected : check_config name config expected <> Stuck.
Proof. induction expected as [|[k v] l IH]; simpl; [done|]. by case_match. Qed.

Lemma select_total out serial : select_single_emulator out serial <> Stuck.
Proof. unfold select_single_emulator. by repeat case_match. Qed.
Hint Resolve check_config_total select_total : plain.

Lemma asks_target adb serial : asks (verify_android_target o ROOT adb serial).
Proof.
  unfold verify_android_target. plain_tac. apply plain_lift. auto with plain.
Qed.
Hint Resolve asks_target : plain.

Lemma asks_revalidate adb serial target : asks (revalidate_android_target o ROOT adb serial target).
Proof. unfold revalidate_android_target. plain_tac; apply plain_lift; auto with plain. Qed.

Lemma asks_collect paths c n : asks (collect_matches o paths c n).
Proof. induction paths as [|p paths IH]; cbn [collect_matches]; plain_tac. Qed.
Hint Resolve asks_collect : plain.

Lemma check_matches_total c n cases : check_matches c n cases <> Stuck.
Proof. unfold check_matches. by repeat case_match. Qed.
Hint Resolve check_matches_total : plain.

Lemma asks_junit paths c n : asks (verify_junit_test_result o paths c n).
Proof. unfold verify_junit_test_result. plain_tac. apply plain_lift. auto with plain. Qed.

Lemma asks_stamps paths : asks (stamps o paths).
Proof. induction paths as [|p paths IH]; cbn [stamps]; unfold stamp; plain_tac. Qed.
Hint Resolve asks_stamps asks_junit : plain.

Lemma asks_snapshot root : asks (report_snapshot o root).
Proof. unfold report_snapshot. plain_tac. Qed.
Hint Resolve asks_snapshot : plain.

Lemma asks_changed root before : asks (changed_reports o root before).
Proof. unfold changed_reports. plain_tac. Qed.

Lemma asks_sdk env : asks (android_sdk_path o env).
Proof. unfold android_sdk_path. plain_tac. Qed.
Hint Resolve asks_sdk : plain.

Lemma asks_adb_path : asks (adb_path o).
Proof. unfold adb_path. plain_tac. Qed.

Lemma asks_jdk candidates : forall seen, asks (find_jdk17 o unicode_word seen candidates).
Proof. induction candidates as [|c l IH]; intros seen; cbn [find_jdk17]; plain_tac. Qed.
Hint Resolve asks_jdk : plain.

Lemma asks_gradle_environment : asks (gradle_environment o unicode_word).
Proof. unfold gradle_environment, jdk17_home. plain_tac. Qed.

Lemma asks_run command env timeout : changes_mappings command = false -> asks (run_command o ROOT command env timeout).
Proof. intros Hc. unfold run_command. plain_tac. Qed.
Hint Resolve asks_run : plain.

Lemma asks_desktop : asks (run_desktop_integration o ROOT).
Proof. unfold run_desktop_integration. plain_tac. Qed.

Lemma read_mappings_total m lines : read_mappings m lines <> Stuck.
Proof. revert m. induction lines as [|l lines IH]; intros m; simpl; [done|]. by repeat case_match. Qed.

Lemma asks_list adb serial : asks (list_mappings o ROOT adb serial).
Proof. apply asks_adb. done. Qed.
Hint Resolve asks_list : plain.

Lemma asks_current adb serial : asks (current_mappings o ROOT adb serial).
Proof. unfold current_mappings. plain_tac. apply plain_lift, read_mappings_total. Qed.

Lemma verify_total out expected : verify_reverse_mappings out expected <> Stuck.
Proof.
  unfold verify_reverse_mappings, parse_reverse_mappings. pose proof (read_mappings_total ∅ (splitlines out)) as Hm.
  destruct (read_mappings _ _) as [m| |]; try done. induction expected as [|[p q] l IH]; simpl; [done|]. by case_match.
Qed.

Lemma asks_verify adb serial expected : asks (verify_mappings o ROOT adb serial expected).
Proof. unfold verify_mappings. plain_tac. apply plain_lift, verify_total. Qed.

End Asking.

#[export] Hint Resolve asks_stores asks_python asks_adb asks_avd asks_target asks_revalidate asks_junit asks_snapshot asks_changed
  asks_sdk asks_adb_path asks_gradle_environment asks_run asks_desktop asks_list asks_current asks_verify : plain.

(** * Lines of the fixture *)

(** A line of the fixture's output. *)
Definition heard (tr : list ev) (line : pystr) : Prop :=
  exists t lines ended, Event (ReaderLines t) (lines, ended) ∈ tr /\ line ∈ lines.

(** Two peers of the fixture's own records. *)
Definition loopback_peer (p : RegistryPeerAddress) : Prop :=
  exists digits, fullmatch (RPlus (RClass cls_digit)) digits = true /\ int_text digits = Some (l_port p) /\ 1 <= l_port p <= 65535 /\
    fullmatch LOCAL_PEER_ID (l_peer_id p) = true /\
    l_multiaddr p = py "/ip4/127.0.0.1/tcp/" ++ digits ++ py "/p2p/" ++ l_peer_id p.

Definition peer_pair (w b : RegistryPeerAddress) : Prop :=
  loopback_peer w /\ loopback_peer b /\ l_peer_id w <> l_peer_id b /\ l_port w <> l_port b.

Lemma parse_peer_done value p : parse_peer_multiaddr value = Done p -> loopback_peer p /\ l_multiaddr p = strip value.
Proof.
  unfold parse_peer_multiaddr. destruct (fullmatch LOOPBACK_ADDRESS _) eqn:Em; [|done]. cbn [negb].
  apply fullmatch_spec in Em as (s1 & r1 & Es & H1 & d & r2 & -> & Hd & s3 & r3 & -> & H3 & id & r4 & -> & Hid & ->).
  apply RLit_lang in H1 as ->. apply RLit_lang in H3 as ->. apply fullmatch_spec in Hd, Hid. rewrite app_nil_r in Es.
  assert (47 ∉ d) as Nd by (eapply class_no_slash; [|exact Hd]; done).
  assert (47 ∉ id) as Nid by (eapply class_no_slash; [|exact Hid]; done).
  assert (split_on 47 (strip value) = [[]; py "ip4"; py "127.0.0.1"; py "tcp"; d; py "p2p"; id]) as ->.
  { rewrite Es. change (split_on 47 (join_with 47 [[]; py "ip4"; py "127.0.0.1"; py "tcp"; d; py "p2p"; id]) = [[]; py "ip4"; py "127.0.0.1"; py "tcp"; d; py "p2p"; id]).
    apply split_join; [done|]. assert (47 ∉ py "ip4" /\ 47 ∉ py "127.0.0.1" /\ 47 ∉ py "tcp" /\ 47 ∉ py "p2p") as (? & ? & ? & ?).
    { split_and!; (eapply bool_decide_unpack; vm_compute; exact I). }
    repeat (apply Forall_cons_2; [first [done|apply not_elem_of_nil]|]). constructor. }
  cbn [nth]. destruct (int_text d) as [n|] eqn:En; [|done]. destruct (negb _ || _) eqn:Ec; [done|]. intros [= <-]. bool_hyps.
  split; [|done]. exists d. cbn [l_port l_peer_id l_multiaddr]. split_and!; try done; lia.
Qed.

Lemma read_ready_done slots line slots' :
  read_ready slots line = Done slots' -> Forall (fun s => forall p, s = Some p -> loopback_peer p) [slots.1; slots.2] ->
  Forall (fun s => forall p, s = Some p -> loopback_peer p) [slots'.1; slots'.2].
Proof.
  unfold read_ready. intros E Hs. repeat case_match; try discriminate; injection E as <-; try done;
    match goal with H : parse_peer_multiaddr _ = Done _ |- _ => apply parse_peer_done in H as [? _] end;
    rewrite !Forall_cons in Hs |- *; destruct Hs as (? & ? & _); split_and!; simpl; try done; try (by intros ? [= <-]); apply List.Forall_nil.
Qed.

Lemma read_ready_lines_done lines : forall slots slots',
  read_ready_lines slots lines = Done slots' -> Forall (fun s => forall p, s = Some p -> loopback_peer p) [slots.1; slots.2] ->
  Forall (fun s => forall p, s = Some p -> loopback_peer p) [slots'.1; slots'.2].
Proof.
  induction lines as [|l lines IH]; intros slots slots' E Hs; cbn [read_ready_lines] in E; [by injection E as <-|].
  destruct (read_ready slots l) as [s1| |] eqn:E1; try done. by eapply IH; [|eapply read_ready_done].
Qed.

Lemma parse_ready_done lines w b : parse_ready_lines lines = Done (w, b) -> peer_pair w b.
Proof.
  unfold parse_ready_lines. destruct (read_ready_lines (None, None) lines) as [[[w'|] [b'|]]| |] eqn:E; try done.
  destruct (bool_decide _ || _) eqn:Ed; [done|]. intros [= -> ->]. bool_hyps.
  apply read_ready_lines_done in E; [|by repeat constructor]. rewrite !Forall_cons in E. destruct E as (Hw & Hb & _).
  split_and!; [by apply Hw|by apply Hb|done|done].
Qed.

(** The variables of a run, and with them the fixture's own fixed fields. *)
Definition vview (h : harness) : list (Z * Z) * list (Z * Z) * option Z := (v_owned h, v_pending h, v_gradle h).
Definition fview (h : harness) := (vview h, fx_timeout h, fx_scratch h, fx_process h, fx_backend h, fx_signalled h).

Lemma pump_fview lines ended h : fview (_pump_stdout lines ended h) = fview h.
Proof.
  unfold _pump_stdout. assert (fview (foldl pump_line h lines) = fview h) as E.
  { revert h. induction lines as [|l lines IH]; intros h; [done|]. cbn [foldl]. rewrite IH. unfold pump_line, put_nowait. by repeat case_match. }
  case_match; [|done]. rewrite <-E. unfold put_nowait. by case_match.
Qed.

(** Step over a plain part, keeping what has been reached from the start. *)
Tactic Notation "plain_next" hyp(H) "as" ident(a) ident(s) ident(K) ident(P) :=
  eapply (plain_then _ _ False _ _ _ _ _ H); [plain_tac|exact (fun x : False => x)|intros a s K P|by split].

(** Rounds enough to reach the deadline on a clock that advances by [tick]: no number is enough
    for an infinite timeout. *)
Definition ample (rounds : nat) (tick : Z) (timeout : duration) : Prop :=
  match timeout with Span t => Z.max 0 t < Z.of_nat rounds * tick | Infinity => False | NaN => (0 < rounds)%nat end.

Section Peers.
Context (o : oracle request) (ROOT : path) (seconds_text : duration -> pystr).
Context (rule : list ev -> ev -> Prop) (Hrule : on_mappings rule).

Definition clock_advances (tick : Z) : Prop := forall tr t, Event Clock t ∈ tr -> t + tick <= o Z tr Clock.

(** Too few rounds for a clock of this resolution and this timeout. *)
Definition short (rounds : nat) (timeout : duration) : Prop := forall tick, 0 < tick -> clock_advances tick -> ~ ample rounds tick timeout.

Lemma plain_observe stuck t : plain rule fview stuck (observe o t).
Proof. unfold observe. plain_tac. apply plain_update. intros x. apply pump_fview. Qed.
Hint Resolve plain_observe : plain.

Lemma plain_message stuck t : plain rule fview stuck (get_message o t).
Proof. unfold get_message. plain_tac. Qed.

Lemma plain_exited {A} stuck : plain rule fview stuck (exited (A := A) o).
Proof. unfold exited. plain_tac. Qed.

Lemma parse_ready_total lines : parse_ready_lines lines <> Stuck.
Proof.
  assert (forall v, parse_peer_multiaddr v <> Stuck) as Hp by (intros v; unfold parse_peer_multiaddr; by repeat case_match).
  assert (forall l s, read_ready s l <> Stuck) as Hr by (intros l s; unfold read_ready; repeat case_match; try done; intros _; by eapply Hp).
  assert (forall l s, read_ready_lines s l <> Stuck) as Hl.
  { intros l. induction l as [|x l IH]; intros s; cbn [read_ready_lines]; [done|]. pose proof (Hr x s). by destruct (read_ready s x). }
  unfold parse_ready_lines. pose proof (Hl lines (None, None)). by repeat case_match.
Qed.

Lemma store_paths_total p b : registry_store_paths p b <> Stuck.
Proof. unfold registry_store_paths. by repeat case_match. Qed.

Lemma plain_ready stuck root : plain rule fview stuck (become_ready o root).
Proof. unfold become_ready. plain_tac; apply plain_lift; [apply parse_ready_total|apply store_paths_total]. Qed.
Hint Resolve plain_message plain_exited plain_ready : plain.

(** The clock at the start of a round bounds the rounds that are left. *)
Definition late (n : nat) (last : Z) (deadline : duration) : Prop :=
  match deadline with Span t => Harness.late clock_advances n last t | Infinity => True | NaN => n = O end.

Lemma late_zero last deadline : late O last deadline.
Proof. destruct deadline; simpl; [|auto..]. intros tick _. by left. Qed.

Lemma late_round n last now deadline :
  (forall tick, clock_advances tick -> last + tick <= now) -> before_deadline now deadline = true -> late n now deadline -> late (S n) last deadline.
Proof. destruct deadline as [t| |]; simpl; [|auto|discriminate]. intros Hl Hn%Z.ltb_lt. by apply late_step. Qed.

Lemma late_short n now t : late n now (deadline_after now t) -> short n t.
Proof.
  intros Hlate tick Ht Hc. destruct t as [t| |]; simpl in *; [|tauto|lia]. destruct (Hlate tick Hc) as [-> |]; lia.
Qed.

Lemma kept_event {R T} (view : harness -> T) s s' (q : request R) a : kept rule view s s' -> Event q a ∈ h_trace s -> Event q a ∈ h_trace s'.
Proof. intros (_ & (e & ->) & _) Hin. apply elem_of_app. by left. Qed.

Lemma ready_loop_spec root deadline n : forall last s,
  obeys rule (h_trace s) -> Event Clock last ∈ h_trace s ->
  hwp (ready_loop o seconds_text n root deadline) (fun r s' => kept rule fview s s' /\ (r = Stuck -> late n last deadline)) s.
Proof.
  induction n as [|n IH]; intros last s Ho Hl; cbn [ready_loop].
  { apply hwp_lift. split; [by apply kept_here|]. intros _. apply late_zero. }
  apply hwp_bind, hwp_ask. intros now Enow. set (s1 := Host _ _). assert (kept rule fview s s1) as H1 by (apply kept_log; [done|by apply Hrule]).
  assert (forall tick, clock_advances tick -> last + tick <= now) as Hadv by (intros tick Ht; rewrite Enow; by apply Ht).
  assert (Event Clock now ∈ h_trace s1) as Hc1 by (apply elem_of_app; right; by left).
  apply hwp_bind, hwp_get. destruct (before_deadline now deadline) eqn:Hn; [|apply hwp_lift; by split]. cbn [negb].
  (** The rest of the round is plain, up to the next one. *)
  assert (forall s', kept rule fview s s' -> Event Clock now ∈ h_trace s' ->
    hwp (ready_loop o seconds_text n root deadline) (fun r s'' => kept rule fview s s'' /\ (r = Stuck -> late (S n) last deadline)) s') as Hloop.
  { intros s' Hs' Hc'. eapply hwp_mono; [apply (IH now s'); [apply Hs'|done]|]. intros r s'' [Hk Hlate].
    split; [by eapply kept_compose|]. intros Er. eapply late_round; [done|done|auto]. }
  assert (forall (m : prog request harness unit) s', plain rule fview False m -> kept rule fview s s' ->
    hwp m (fun r s3 => kept rule fview s s3 /\ (r = Stuck -> late (S n) last deadline)) s') as Hend.
  { intros m s' Hm Hs'. eapply hwp_mono; [apply Hm, Hs'|]. intros r s'' [Hk Hst]. split; [by eapply kept_compose|by intros ->; destruct Hst]. }
  plain_next H1 as later s2 H2 P2. plain_next H2 as message s3 H3 P3.
  assert (Event Clock now ∈ h_trace s3) as Hc3 by (eapply kept_event; [exact P3|]; by eapply kept_event; [exact P2|]).
  destruct message as [[line|]|].
  - case_match; [apply Hend; [plain_tac|done]|]. case_match; [by apply Hloop|].
    plain_next H3 as u s4 H4 P4. plain_next H4 as u5 s5 H5 P5. plain_next H5 as h s6 H6 P6.
    case_match; [apply Hend; [plain_tac|done]|]. apply Hloop; [done|].
    eapply kept_event; [exact P6|]. eapply kept_event; [exact P5|]. by eapply kept_event; [exact P4|].
  - apply Hend; [plain_tac|done].
  - plain_next H3 as code s4 H4 P4. destruct code; [apply Hend; [plain_tac|done]|]. apply Hloop; [done|]. by eapply kept_event; [exact P4|].
Qed.

(** * Teardown *)

(** The variables, and whether there is a process. *)
Definition pview (h : harness) := (vview h, fx_process h).

Lemma plain_pview {A} stuck (m : prog request harness A) : plain rule fview stuck m -> plain rule pview stuck m.
Proof. by apply (plain_weaken _ fview pview _ _ (fun x => (x.1.1.1.1.1, x.1.1.2))). Qed.

Lemma plain_signal stuck s : plain rule pview stuck (signal_group o s).
Proof. unfold signal_group. plain_tac. Qed.
Hint Resolve plain_signal : plain.

Lemma plain_wait_or stuck t m : plain rule pview stuck m -> plain rule pview stuck (wait_or o t m).
Proof. intros Hm. unfold wait_or. plain_tac. Qed.

Lemma plain_stop_process stuck : plain rule pview stuck (stop_process o).
Proof.
  unfold stop_process. plain_tac; (apply plain_wait_or; plain_tac; apply plain_wait_or; plain_tac).
Qed.
Hint Resolve plain_stop_process : plain.

Lemma plain_stop stuck : plain rule pview stuck (stop o).
Proof. unfold stop. plain_tac; apply plain_pview, plain_observe. Qed.
Hint Resolve plain_stop : plain.

Lemma plain_exit stuck : plain rule pview stuck (exit o).
Proof. unfold exit. plain_tac. Qed.

(** * Start *)

Lemma plain_vview {A} stuck (m : prog request harness A) : plain rule pview stuck m -> plain rule vview stuck m.
Proof. by apply (plain_weaken _ pview vview _ _ fst). Qed.

Lemma launch_spec rounds command env root s :
  obeys rule (h_trace s) ->
  hwp (launch o seconds_text rounds command env root) (fun r s' => kept rule vview s s' /\ (r = Stuck -> short rounds (fx_timeout (h_state s)))) s.
Proof.
  intros Ho. unfold launch. apply hwp_bind, hwp_get. set (t := fx_timeout (h_state s)).
  assert (kept rule vview s s) as H0 by (by apply kept_here).
  plain_next H0 as u s1 H1 P1. plain_next H1 as u2 s2 H2 P2. plain_next H2 as u3 s3 H3 P3. plain_next H3 as u4 s4 H4 P4. plain_next H4 as u5 s5 H5 P5.
  apply hwp_bind, hwp_ask. intros now _. set (s6 := Host _ _). assert (kept rule vview s5 s6) as H6 by (apply kept_log; [apply H5|by apply Hrule]).
  eapply hwp_mono; [apply (ready_loop_spec root (deadline_after now t) rounds now s6); [apply H6|apply elem_of_app; right; by left]|].
  intros r s7 [(H7 & E7 & V7) Hlate]. split.
  - eapply kept_compose; [exact H5|]. eapply kept_compose; [exact H6|]. split_and!; [done|done|]. exact (f_equal (fun x => x.1.1.1.1.1) V7).
  - intros Er. exact (late_short _ _ _ (Hlate Er)).
Qed.

Definition tview (h : harness) := (vview h, fx_timeout h).

Lemma kept_vview s s' : kept rule tview s s' -> kept rule vview s s'.
Proof. intros (Ho & He & Hv). split_and!; [done|done|]. exact (f_equal fst Hv). Qed.

Lemma peers_enter_spec rounds s :
  obeys rule (h_trace s) ->
  hwp (enter o ROOT seconds_text rounds) (fun r s' => kept rule vview s s' /\ (r = Stuck -> short rounds (fx_timeout (h_state s)))) s.
Proof.
  intros Ho. unfold enter. apply hwp_bind, hwp_get. assert (kept rule tview s s) as K0 by (by apply kept_here).
  assert (forall e s', kept rule tview s s' -> kept rule vview s s' /\ (@Failed unit e = Stuck -> short rounds (fx_timeout (h_state s)))) as Hfail.
  { intros e s' Hk. by split; [apply kept_vview|]. }
  assert (forall A (m : prog request harness A) (k : A -> prog request harness unit) s1, kept rule tview s s1 -> plain rule tview False m ->
    (forall a s2, kept rule tview s s2 -> hwp (k a) (fun r s' => kept rule vview s s' /\ (r = Stuck -> short rounds (fx_timeout (h_state s)))) s2) ->
    hwp (hbind m k) (fun r s' => kept rule vview s s' /\ (r = Stuck -> short rounds (fx_timeout (h_state s)))) s1) as Hstep.
  { intros A m k s1 K1 Hm Hk. eapply (plain_then _ _ False _ _ _ _ _ K1); [done|exact (fun x => x)|auto|auto]. }
  apply Hstep; [done|plain_tac|]. intros present s1 K1. case_match; [by apply hwp_lift, Hfail|].
  apply Hstep; [done|plain_tac|]. intros script s2 K2. case_match; [by apply hwp_lift, Hfail|].
  apply Hstep; [done|plain_tac|]. intros [uv|] s3 K3; [|by apply hwp_lift, Hfail].
  apply Hstep; [done|plain_tac|]. intros python s4 K4. apply Hstep; [done|plain_tac|]. intros env s5 K5.
  apply Hstep; [done|plain_tac|]. intros home s6 K6. cbv zeta. apply Hstep; [done|plain_tac|]. intros [] s7 K7.
  apply Hstep; [done|plain_tac|]. intros name s8 K8. apply Hstep; [done|plain_tac|]. intros [] s9 K9.
  apply Hstep; [done|plain_tac|]. intros [] s10 K10. apply Hstep; [done|plain_tac|]. intros env' s11 K11.
  apply Hstep; [done|plain_tac|]. intros [] s12 K12. apply hwp_catch. eapply hwp_mono; [apply launch_spec, K12|].
  assert (fx_timeout (h_state s12) = fx_timeout (h_state s)) as Et by (exact (f_equal snd (proj2 (proj2 K12)))). rewrite Et.
  pose proof (kept_vview _ _ K12) as V12.
  intros [[]|e|] s13 [K13 Hst]; [by split; [eapply kept_compose|]| |by split; [eapply kept_compose|]].
  assert (plain rule vview False (do _ <- stop o; @hlift request harness unit (Failed e))) as Hp.
  { apply plain_seq; [apply plain_vview, plain_stop|]. intros []. by apply plain_lift. }
  eapply hwp_mono; [apply Hp, K13|]. intros r s14 [K14 Hst']. split; [by do 2 (eapply kept_compose; [eassumption|])|by intros ->; destruct Hst'].
Qed.

Lemma startup_total b t : fixture_startup_timeout b t <> Stuck.
Proof. unfold fixture_startup_timeout. by repeat case_match. Qed.

Lemma peers_init_spec repo timeout backend format fault s :
  obeys rule (h_trace s) ->
  hwp (init o repo (Some timeout) backend format fault) (fun r s' => kept rule vview s s' /\ r <> Stuck /\
    (r = Done tt -> fx_timeout (h_state s') = timeout)) s.
Proof.
  intros Ho. unfold init. assert (kept rule vview s s) as K0 by (by apply kept_here).
  do 5 (case_match; [apply hwp_lift; by split_and!|]).
  assert (forall a, kept rule vview s (Host (h_trace s ++ [Event (Resolve repo) a]) (h_state s))) as K1 by (intros a; apply kept_log; [done|by apply Hrule]).
  apply hwp_bind, hwp_call; [intros p|intros e; by split_and!]. apply hwp_bind, hwp_lift, hwp_update. split_and!; [|done|done].
  destruct (K1 (inl p)) as (? & ? & ?). by split_and!.
Qed.

(** * A session with peers *)

(** A property of the state that survives whatever leaves the variables alone. *)
Definition stable (I : hst -> Prop) : Prop := forall s s', kept rule vview s s' -> I s -> I s'.

Lemma with_peers_spec {A} (I : hst -> Prop) rounds repo timeout backend format fault body s :
  stable I -> (forall s, I s -> obeys rule (h_trace s)) ->
  (forall w b s, I s -> hwp (body w b) (fun (r : outcome A) s' => I s' /\ r <> Stuck) s) ->
  I s ->
  hwp (with_peers o ROOT seconds_text rounds repo timeout backend format fault body) (fun r s' => I s' /\ (r = Stuck -> short rounds timeout)) s.
Proof.
  intros Hst Hobs Hbody Hi. unfold with_peers. apply hwp_bind. eapply hwp_mono; [apply peers_init_spec; auto|].
  intros r s1 (H1 & Hr1 & Ht1). pose proof (Hst _ _ H1 Hi) as I1. destruct r as [[]|e|]; [|by split|done].
  apply hwp_bind. eapply hwp_mono; [apply peers_enter_spec, H1|]. rewrite (Ht1 eq_refl). intros r s2 [H2 Hs2].
  pose proof (Hst _ _ H2 I1) as I2. destruct r as [[]|e|]; [|by split|by split; auto].
  apply hwp_bind, hwp_attempt, hwp_bind, hwp_get.
  assert (forall r s3, I s3 -> hwp (do _ <- exit o; match r with inl a => hret a | inr e => reraise e end)
    (fun (r : outcome A) s' => I s' /\ (r = Stuck -> short rounds timeout)) s3) as Hexit.
  { intros r s3 I3. apply hwp_bind. eapply hwp_mono; [apply (plain_vview False), Hobs, I3; apply plain_exit|].
    intros [[]|e|] s4 [H4 Hs4]; [|split; [by eapply Hst|done]|by destruct (Hs4 eq_refl)].
    destruct r; apply hwp_lift; (split; [by eapply Hst|done]). }
  destruct (fx_peers (h_state s2)) as [[w b]|]; [|by apply hwp_lift, (Hexit (inr _))].
  eapply hwp_mono; [by apply Hbody|]. intros [a|e|] s3 [I3 Hr3]; [by apply (Hexit (inl a))|by apply (Hexit (inr e))|done].
Qed.

End Peers.
