(* ===== verification/LocalRuns.v ===== *)
(** Port mappings of the device under every environment: the harness adds mappings only on
    ports that were listed as free, and removes only what it added and what still has its own
    target; this holds for every phase. *)

From stdpp Require Import gmap.
From S2P Require Import Prelude Json Regex NativeReport Harness PyPath RemoteRecords LocalRecords LocalFixture LocalRun LocalPeers.

Open Scope Z_scope.
Open Scope harness_scope.

Definition list_command (adb : path) (serial : pystr) : list pystr := adb_command adb serial [py "reverse"; py "--list"].

(** A mapping this run tried to add. *)
Definition added (tr : list ev) (adb : path) (serial : pystr) (p q : Z) : Prop :=
  exists cwd t a, Event (Output (adb_command adb serial (add_args p q)) cwd t) a ∈ tr.

(** The last thing adb reported is this mapping. *)
Definition listed (tr : list ev) (adb : path) (serial : pystr) (m : gmap Z Z) : Prop :=
  exists tr0 cwd t out, tr = tr0 ++ [Event (Output (list_command adb serial) cwd t) (inl (0, out))] /\ parse_reverse_mappings out = Done m.

(** A port of the range that a listing does not mention. *)
Definition free_port (tr : list ev) (adb : path) (serial : pystr) (p : Z) : Prop :=
  31457 <= p < 40000 /\ exists cwd t out used,
    Event (Output (list_command adb serial) cwd t) (inl (0, out)) ∈ tr /\ ints (tcp_ports_from O out) = Some used /\ p ∉ used.

(** A command that changes mappings is one of two, word for word: it removes a mapping of this
    run that the listing right before it still shows, or adds one on a free port without
    replacing another. *)
Definition mapping_rule (tr : list ev) (e : ev) : Prop :=
  match e with
  | Event q _ => changes_mappings (command_of q) = true -> exists adb serial p q',
      (command_of q = adb_command adb serial (remove_args p) /\ added tr adb serial p q' /\
       exists m, listed tr adb serial m /\ m !! p = Some q') \/
      (command_of q = adb_command adb serial (add_args p q') /\ free_port tr adb serial p)
  end.

Lemma mapping_rule_ok : on_mappings mapping_rule.
Proof. intros R q Hq tr a. simpl. by rewrite Hq. Qed.

Lemma added_mono tr tr' adb serial p q : added tr adb serial p q -> added (tr ++ tr') adb serial p q.
Proof. intros (cwd & t & a & H). exists cwd, t, a. apply elem_of_app. by left. Qed.

Lemma free_mono tr tr' adb serial p : free_port tr adb serial p -> free_port (tr ++ tr') adb serial p.
Proof. intros (Hr & cwd & t & out & used & H & ?). split; [done|]. exists cwd, t, out, used. split; [apply elem_of_app; by left|done]. Qed.

(** ** Candidates *)

Lemma merge_elem pending owned kv : kv ∈ merge_mappings pending owned -> kv ∈ owned ++ pending.
Proof.
  unfold merge_mappings. rewrite !elem_of_app. intros [H|H].
  - apply list_elem_of_fmap in H as (x & -> & Hx). destruct (List.find _ owned) as [y|] eqn:E; simpl; [|right; by destruct x].
    apply find_some in E as [Hy Ey]. apply Z.eqb_eq in Ey. left. rewrite <-Ey. apply list_elem_of_In. by destruct y.
  - left. by apply list_elem_of_filter in H as [_ H].
Qed.

Lemma first_free_elem used l p : p ∈ first_free used l -> p ∈ l /\ p ∉ used.
Proof.
  induction l as [|x l IH]; simpl; [by intros ?%not_elem_of_nil|]. case_bool_decide as Hd.
  - intros [? ?]%IH. split; [by right|done].
  - intros [-> |H]%elem_of_cons; [split; [by left|done]|]. apply IH in H as [? ?]. split; [by right|done].
Qed.

(** Two free ports of the range, different ones. *)
Lemma select_ports_done out a b :
  select_reverse_ports out = Done (a, b) -> exists used, ints (tcp_ports_from O out) = Some used /\
    31457 <= a < 40000 /\ 31457 <= b < 40000 /\ a ∉ used /\ b ∉ used.
Proof.
  unfold select_reverse_ports. destruct (ints _) as [used|]; [|done].
  destruct (first_free used REVERSE_PORTS) as [|x [|y l]] eqn:E; try done. intros [= -> ->]. exists used.
  assert (a ∈ first_free used REVERSE_PORTS) as [Ha Na]%first_free_elem by (rewrite E; by left).
  assert (b ∈ first_free used REVERSE_PORTS) as [Hb Nb]%first_free_elem by (rewrite E; by right; left).
  unfold REVERSE_PORTS in Ha, Hb. apply elem_of_seqZ in Ha, Hb. split_and!; try done; lia.
Qed.

Lemma select_ports_total out : select_reverse_ports out <> Stuck.
Proof. unfold select_reverse_ports. by repeat case_match. Qed.

Section Mappings.
Context (o : oracle request) (ROOT : path) (seconds_text : duration -> pystr) (unicode_word : Z -> bool).
Context (adb : path) (serial : pystr).

Abbreviation rule := mapping_rule.

(** Everything a run may have to remove was added by it. *)
Definition tracked (s : hst) : Prop :=
  obeys rule (h_trace s) /\ forall p q, (p, q) ∈ v_owned (h_state s) ++ v_pending (h_state s) -> added (h_trace s) adb serial p q.

Lemma tracked_stable : stable rule tracked.
Proof.
  intros s s' (Ho & (e & Ee) & Hv) [_ Ht]. split; [done|]. injection Hv as E1 E2 _. rewrite E1, E2, Ee.
  intros p q Hin. by apply added_mono, Ht.
Qed.

(** The state and its invariant survive, with more known of the trace. *)
Definition grown (s s' : hst) : Prop := kept rule (fun h => h) s s'.

Lemma grown_tracked s s' : grown s s' -> tracked s -> tracked s'.
Proof. intros (Ho & He & E). apply tracked_stable. split_and!; [done|done|]. by rewrite E. Qed.

Lemma adb_output_spec args s :
  obeys rule (h_trace s) -> (forall a, rule (h_trace s) (Event (Output (adb_command adb serial args) (Some ROOT) (sec 30)) a)) ->
  hwp (adb_output o ROOT adb serial args) (fun r s' => grown s s' /\ r <> Stuck /\
    (exists a, h_trace s' = h_trace s ++ [Event (Output (adb_command adb serial args) (Some ROOT) (sec 30)) a] /\ forall out, r = Done out -> a = inl (0, out))) s.
Proof.
  intros Ho Hr. apply hwp_bind, hwp_call.
  - intros [code out]. assert (grown s (Host (h_trace s ++ [Event (Output (adb_command adb serial args) (Some ROOT) (sec 30)) (inl (code, out))]) (h_state s))) as Hg by (by apply kept_log).
    destruct (Z.eqb_spec code 0) as [->|]; apply hwp_lift; (split_and!; [done|done|eexists; split; [reflexivity|]]); [by intros out' [= <-]|done].
  - intros e. split_and!; [by apply kept_log|done|eexists; split; [reflexivity|done]].
Qed.

Lemma list_free cwd t a tr : rule tr (Event (Output (list_command adb serial) cwd t) a).
Proof. by apply mapping_rule_ok. Qed.

Lemma current_spec s :
  obeys rule (h_trace s) ->
  hwp (current_mappings o ROOT adb serial) (fun r s' => grown s s' /\ r <> Stuck /\ forall m, r = Done (inl m) -> listed (h_trace s') adb serial m) s.
Proof.
  intros Ho. apply hwp_bind, hwp_attempt, hwp_bind. eapply hwp_mono; [apply adb_output_spec; [done|intros a; apply list_free]|].
  intros [out|e|] s' (Hg & Hr & a & Et & Ha); [apply hwp_lift| |done].
  - pose proof (read_mappings_total ∅ (splitlines out)) as Hn. unfold parse_reverse_mappings.
    destruct (read_mappings ∅ (splitlines out)) as [m|e|] eqn:Em; [| |done].
    + apply hwp_ret. split_and!; [done|done|]. intros m' [= <-]. exists (h_trace s), (Some ROOT), (sec 30), out. split; [by rewrite Et, (Ha out eq_refl)|done].
    + case_match; apply hwp_lift; by split_and!.
  - case_match; apply hwp_lift; by split_and!.
Qed.

Lemma remove_mappings_spec candidates : forall s,
  obeys rule (h_trace s) -> (forall p q, (p, q) ∈ candidates -> added (h_trace s) adb serial p q) ->
  hwp (remove_mappings o ROOT adb serial candidates) (fun r s' => grown s s' /\ r <> Stuck) s.
Proof.
  induction candidates as [|[p q] l IH]; intros s Ho Hc; cbn [remove_mappings]; [apply hwp_ret; by split; [apply kept_here|]|].
  apply hwp_bind. eapply hwp_mono; [by apply current_spec|]. intros [[m|text]|e|] s1 (H1 & Hr1 & Hl); [|apply hwp_ret; by split|by split|done].
  assert (forall s2, grown s s2 -> hwp (remove_mappings o ROOT adb serial l) (fun r s' => grown s s' /\ r <> Stuck) s2) as Hrest.
  { intros s2 H2. eapply hwp_mono; [apply IH; [apply H2|]|intros r s3 [H3 Hr]; split; [by eapply kept_compose|done]].
    destruct H2 as (_ & (e & ->) & _). intros p' q' Hin. apply added_mono, Hc. by right. }
  apply hwp_bind. case_bool_decide as Hm; [|by apply hwp_ret, Hrest].
  assert (forall a, grown s (Host (h_trace s1 ++ [Event (Output (adb_command adb serial (remove_args p)) (Some ROOT) (sec 20)) a]) (h_state s1))) as H2.
  { intros a. eapply kept_compose; [exact H1|]. apply kept_log; [apply H1|]. intros _. exists adb, serial, p, q. left.
    split_and!; [done| |by exists m; split; [apply Hl|]]. destruct H1 as (_ & (e & ->) & _). apply added_mono, Hc. by left. }
  apply hwp_catch, hwp_bind, hwp_call; [intros v; by apply hwp_ret, Hrest|]. intros e. case_match; [by apply hwp_ret, Hrest|].
  apply hwp_lift. by split.
Qed.

Lemma cleanup_spec s :
  tracked s -> hwp (cleanup_reverse_mappings o ROOT adb serial (v_owned (h_state s)) (v_pending (h_state s))) (fun r s' => grown s s' /\ r <> Stuck) s.
Proof.
  intros [Ho Ht]. unfold cleanup_reverse_mappings. set (candidates := merge_mappings _ _).
  assert (forall p q, (p, q) ∈ sort_by (fun kv : Z * Z => [kv.1; kv.2]) candidates -> added (h_trace s) adb serial p q) as Hadd.
  { intros p q Hin. apply Ht, (merge_elem (v_pending (h_state s))). by rewrite <-(sort_by_perm (fun kv : Z * Z => [kv.1; kv.2]) candidates) in Hin. }
  destruct candidates as [|c l] eqn:Ec; [apply hwp_ret; by split; [apply kept_here|]|].
  apply hwp_bind. eapply hwp_mono; [by apply remove_mappings_spec|]. intros [[text|]|e|] s1 [H1 Hr1]; [by apply hwp_ret| |by split|done].
  apply hwp_bind. eapply hwp_mono; [apply current_spec, H1|]. intros r s2 (H2 & Hr2 & _).
  assert (grown s s2) as H12 by (by eapply kept_compose). destruct r as [[m|text]|e|]; [|by apply hwp_ret|by split|done].
  case_match; by apply hwp_ret.
Qed.

(** ** Setting up *)

Lemma extended_trans (s s' s'' : hst) :
  (exists e, h_trace s' = h_trace s ++ e) -> (exists e, h_trace s'' = h_trace s' ++ e) -> exists e, h_trace s'' = h_trace s ++ e.
Proof. intros (e1 & E1) (e2 & E2). exists (e1 ++ e2). by rewrite E2, E1, app_assoc. Qed.

Lemma establish_spec p q s :
  tracked s -> free_port (h_trace s) adb serial p ->
  hwp (establish o ROOT adb serial (p, q)) (fun r s' => tracked s' /\ r <> Stuck /\ exists e, h_trace s' = h_trace s ++ e) s.
Proof.
  intros [Ho Ht] Hp. unfold establish. apply hwp_bind, hwp_update, hwp_bind, hwp_attempt. unfold add_reverse_mapping. apply hwp_bind.
  set (s1 := Host _ _). eapply hwp_mono; [apply adb_output_spec; [done|]|].
  { intros a _. exists adb, serial, p, q. by right. }
  intros r s2 ((Ho2 & _ & E2) & Hr & a & Et & _).
  assert (forall h', (forall p' q', (p', q') ∈ v_owned h' ++ v_pending h' -> (p', q') = (p, q) \/ (p', q') ∈ v_owned (h_state s) ++ v_pending (h_state s)) ->
    tracked (Host (h_trace s2) h')) as Hmore.
  { intros h' Hh. split; [done|]. simpl. rewrite Et. intros p' q' [[= -> ->]|Hin]%Hh; [|by apply added_mono, Ht].
    exists (Some ROOT), (sec 30), a. apply elem_of_app. right. by left. }
  assert (v_owned (h_state s2) = v_owned (h_state s) /\ v_pending (h_state s2) = v_pending (h_state s) ++ [(p, q)]) as [Eo Ep] by (by rewrite E2).
  assert (tracked s2) as H2.
  { destruct s2 as [tr2 h2]. apply Hmore. simpl in *. rewrite Eo, Ep. intros p' q'. rewrite !elem_of_app, list_elem_of_singleton. tauto. }
  assert (forall h', v_owned h' = v_owned (h_state s2) -> v_pending h' = base.filter (fun kv => kv.1 <> p) (v_pending (h_state s2)) -> tracked (Host (h_trace s2) h')) as Hpop.
  { intros h' E1 E2'. apply Hmore. rewrite E1, E2', Eo, Ep. intros p' q'. rewrite !elem_of_app, list_elem_of_filter, elem_of_app, list_elem_of_singleton. tauto. }
  assert (exists e, h_trace s2 = h_trace s ++ e) as He by (eexists; exact Et).
  destruct r as [out|e|]; [|case_match; [|case_match]|done].
  - apply hwp_ret, hwp_update. split_and!; [|done|done]. apply Hmore. simpl. rewrite Eo, Ep. intros p' q'.
    rewrite !elem_of_app, list_elem_of_filter, elem_of_app, !list_elem_of_singleton. tauto.
  - apply hwp_bind, hwp_update, hwp_lift. split_and!; [by apply Hpop|done|done].
  - apply hwp_lift. by split_and!.
  - apply hwp_lift. by split_and!.
Qed.

Lemma map_peers_spec w b s :
  tracked s -> hwp (map_peers o ROOT adb serial w b) (fun r s' => tracked s' /\ r <> Stuck /\ exists e, h_trace s' = h_trace s ++ e) s.
Proof.
  intros Ht. unfold map_peers, list_mappings. apply hwp_bind. eapply hwp_mono; [apply adb_output_spec; [apply Ht|intros a; apply list_free]|].
  intros r s1 (H1 & Hr & a & Et & Ha). pose proof (grown_tracked _ _ H1 Ht) as T1.
  assert (exists e, h_trace s1 = h_trace s ++ e) as X1 by (eexists; exact Et). destruct r as [out|e|]; [|by split_and!|done].
  apply hwp_bind, hwp_lift. pose proof (select_ports_total out) as Hs. destruct (select_reverse_ports out) as [[x y]|e|] eqn:Es; [|by split_and!|done].
  apply select_ports_done in Es as (used & Eu & Hx & Hy & Nx & Ny).
  assert (forall z, 31457 <= z < 40000 -> z ∉ used -> free_port (h_trace s1) adb serial z) as Hfree.
  { intros z Hz Nz. split; [done|]. exists (Some ROOT), (sec 30), out, used. split; [|done]. rewrite Et, (Ha out eq_refl). apply elem_of_app. right. by left. }
  apply hwp_bind. eapply hwp_mono; [apply establish_spec; [done|by apply Hfree]|]. intros r s2 (T2 & Hr2 & X2).
  pose proof (extended_trans _ _ _ X1 X2) as X12. destruct r as [[]|e|]; [|by split_and!|done].
  apply hwp_bind. eapply hwp_mono; [apply establish_spec; [done|destruct X2 as (e2 & ->); by apply free_mono, Hfree]|].
  intros r s3 (T3 & Hr3 & X3). pose proof (extended_trans _ _ _ X12 X3) as X13. destruct r as [[]|e|]; [|by split_and!|done].
  apply hwp_bind. eapply hwp_mono; [apply (asks_verify o ROOT rule mapping_rule_ok False), T3|].
  intros r s4 [H4 Hs4]. pose proof (grown_tracked _ _ H4 T3) as T4. pose proof (extended_trans _ _ _ X13 (proj1 (proj2 H4))) as X14.
  destruct r as [[]|e|]; [by apply hwp_ret|by split_and!|by destruct (Hs4 eq_refl)].
Qed.

(** ** A device run *)

(** What a run holds, and what it has done since [s0]. *)
Definition tracked_since (s0 s : hst) : Prop := tracked s /\ exists e, h_trace s = h_trace s0 ++ e.

Lemma tracked_since_stable s0 : stable rule (tracked_since s0).
Proof. intros s s' Hk [Ht Hx]. split; [by eapply tracked_stable|]. eapply extended_trans; [exact Hx|apply Hk]. Qed.

Lemma handle_total errs op primary code : handle_android_cleanup_errors errs op primary code <> Stuck.
Proof. unfold handle_android_cleanup_errors. by repeat case_match. Qed.

(** Cleaning up after a body that tracks its mappings. *)
Lemma plain_with_cleanup (stuck : Prop) op body :
  (forall s0 s, tracked_since s0 s -> hwp body (fun r s' => tracked_since s0 s' /\ (r = Stuck -> stuck)) s) ->
  plain rule (fun _ => tt) stuck (with_cleanup o ROOT adb serial op body).
Proof.
  intros Hb s Ho. unfold with_cleanup. apply hwp_bind, hwp_update. set (s1 := Host _ _).
  assert (tracked_since s s1) as T1.
  { split; [split; [done|intros p q Hin; by apply not_elem_of_nil in Hin]|]. exists []. by rewrite app_nil_r. }
  assert (forall r s', tracked_since s s' -> kept rule (fun _ : harness => tt) s s' /\ (@Failed unit r = Stuck -> stuck)) as Hfail.
  { intros r s' [[Ho' _] Hx]. by split_and!. }
  apply hwp_bind, hwp_attempt. eapply hwp_mono; [by apply (Hb s)|]. intros r s2 [T2 Hr2].
  assert (forall r : unit + fault, hwp (do h <- get_state;
      do cleanup_errors <- cleanup_reverse_mappings o ROOT adb serial (v_owned h) (v_pending h);
      do primary <- hlift (handle_android_cleanup_errors cleanup_errors op (match r with inl _ => None | inr e => Some e end) (v_gradle h));
      match primary with Some e => reraise e | None => hret tt end)
    (fun (r3 : outcome unit) s' => kept rule (fun _ : harness => tt) s s' /\ (r3 = Stuck -> stuck)) s2) as Hend.
  { intros r'. apply hwp_bind, hwp_get, hwp_bind. eapply hwp_mono; [apply cleanup_spec, T2|]. intros r3 s3 [H3 Hr3].
    assert (tracked_since s s3) as T3 by (eapply tracked_since_stable; [|exact T2]; destruct H3 as (? & ? & E); split_and!; [done|done|by rewrite E]).
    destruct r3 as [errs|e|]; [|by apply Hfail|done]. apply hwp_bind, hwp_lift.
    pose proof (handle_total errs op (match r' with inl _ => None | inr e => Some e end) (v_gradle (h_state s2))) as Hn.
    destruct (handle_android_cleanup_errors _ _ _ _) as [[e|]|e|]; [by apply hwp_lift, Hfail| |by apply Hfail|done].
    apply hwp_ret. destruct T3 as [[Ho3 _] Hx]. by split_and!. }
  destruct r as [a|e|]; [apply (Hend (inl a))|apply (Hend (inr e))|]. destruct T2 as [[Ho2 _] Hx]. split; [by split_and!|auto].
Qed.

End Mappings.

Definition mview (h : harness) : list (Z * Z) * list (Z * Z) := (v_owned h, v_pending h).

Lemma tracked_kept adb serial s0 s s' : kept mapping_rule mview s s' -> tracked_since adb serial s0 s -> tracked_since adb serial s0 s'.
Proof.
  intros (Ho & (e & Ee) & Hv) [[_ Ht] Hx]. injection Hv as E1 E2. split.
  - split; [done|]. rewrite E1, E2, Ee. intros p q Hin. by apply added_mono, Ht.
  - eapply extended_trans; [exact Hx|by exists e].
Qed.

(** Parts that only ask, under the rule on mappings. *)
Ltac ask_tac := pose proof mapping_rule_ok; plain_tac.
#[export] Hint Resolve mapping_rule_ok : plain.

Section Runs.
Context (o : oracle request) (ROOT : path) (seconds_text : duration -> pystr) (unicode_word : Z -> bool).
Context (rounds : nat) (timeout : duration).

Abbreviation rule := mapping_rule.
Abbreviation stuck := (short o rounds timeout).

(** Peers around a body that only asks. *)
Lemma plain_with_peers {A} repo backend format fault (body : RegistryPeerAddress -> RegistryPeerAddress -> prog request harness A) :
  (forall w b, plain rule (fun _ => tt) False (body w b)) ->
  plain rule (fun _ => tt) stuck (with_peers o ROOT seconds_text rounds repo timeout backend format fault body).
Proof.
  intros Hb s Ho. eapply hwp_mono; [apply (with_peers_spec o ROOT seconds_text rule mapping_rule_ok (kept rule (fun _ => tt) s))|].
  - intros s1 s2 (H2 & E2 & _) H1. eapply kept_compose; [exact H1|]. by split_and!.
  - by intros s1 [? _].
  - intros w b s1 H1. eapply hwp_mono; [apply Hb, H1|]. intros r s2 [H2 Hr]. split; [by eapply kept_compose|by intros ->; destruct Hr].
  - by apply kept_here.
  - done.
Qed.

(** A device run: mappings to the peers, then what [k] does. *)
Definition device_body (adb : path) (serial : pystr) (k : RegistryPeerAddress -> RegistryPeerAddress -> Z * Z -> prog request harness unit)
    (w b : RegistryPeerAddress) : prog request harness unit := do ports <- map_peers o ROOT adb serial w b; k w b ports.

Lemma plain_device adb serial op repo backend format fault k :
  (forall w b ports, plain rule mview False (k w b ports)) ->
  plain rule (fun _ => tt) stuck
    (with_cleanup o ROOT adb serial op (with_peers o ROOT seconds_text rounds repo timeout backend format fault (device_body adb serial k))).
Proof.
  intros Hk. apply plain_with_cleanup. intros s0 s Ht.
  apply (with_peers_spec o ROOT seconds_text rule mapping_rule_ok (tracked_since adb serial s0)); [apply tracked_since_stable|by intros ? [[? _] _]| |done].
  intros w b s1 [T1 X1]. apply hwp_bind. eapply hwp_mono; [by apply map_peers_spec|]. intros r s2 (T2 & Hr2 & X2).
  assert (tracked_since adb serial s0 s2) as H2 by (split; [done|by eapply extended_trans]).
  destruct r as [ports|e|]; [|by split|done]. eapply hwp_mono; [apply Hk, T2|]. intros r s3 [H3 Hr3].
  split; [by eapply tracked_kept|by intros ->; destruct Hr3].
Qed.

Lemma fixture_kind_total f : fixture_kind f <> Stuck.
Proof. unfold fixture_kind. by repeat case_match. Qed.

Lemma plain_versioned repo adb serial target backend f :
  plain rule (fun _ => tt) stuck (run_versioned_android_runtime o ROOT seconds_text unicode_word rounds repo timeout adb serial target backend f).
Proof.
  unfold run_versioned_android_runtime, android_report_snapshot. apply plain_seq; [apply plain_lift, fixture_kind_total|]. intros kind.
  apply plain_seq; [ask_tac|]. intros env. cbv zeta. apply plain_seq; [ask_tac|]. intros before.
  apply plain_seq; [|intros []; unfold gradle_status; ask_tac].
  set (k := fun w b (ports : Z * Z) => let '(writer_port, readback_port) := ports in
    do target' <- revalidate_android_target o ROOT adb serial target;
    do _ <- call o (Print false (py "Revalidated sole target immediately before " ++ phase_name f ++ py " Android Gradle run: " ++ target_text target'));
    run_gradle o ROOT (versioned_command f)
      (peer_variables (device_peer writer_port w) (device_peer readback_port b) (<[FIXTURE_VARIABLE := kind]> env))).
  apply (plain_device adb serial _ repo backend (py "versioned") (history_fault f) k).
  intros w b [x y]. unfold k, run_gradle. ask_tac.
Qed.

Lemma plain_legacy repo adb serial target backend env :
  plain rule (fun _ => tt) stuck (legacy_phase o ROOT seconds_text rounds repo timeout adb serial target backend env).
Proof.
  unfold legacy_phase.
  set (k := fun w b (ports : Z * Z) => let '(writer_port, readback_port) := ports in
    do _ <- call o (Print false (py "Verified adb reverse writer/read-back targets on device ports " ++ int_str writer_port ++ py "/" ++ int_str readback_port));
    do _ <- verify_mappings o ROOT adb serial [(writer_port, l_port w); (readback_port, l_port b)];
    do current <- revalidate_android_target o ROOT adb serial target;
    do _ <- call o (Print false (py "Revalidated sole target immediately before Gradle: " ++ target_text current));
    run_gradle o ROOT legacy_command (peer_variables (device_peer writer_port w) (device_peer readback_port b) env)).
  apply (plain_device adb serial _ repo backend (py "legacy") (py "none") k).
  intros w b [x y]. unfold k, run_gradle. ask_tac.
Qed.
#[local] Hint Resolve plain_versioned plain_legacy : plain.

Lemma plain_phases repo adb serial target backend phases :
  plain rule (fun _ => tt) stuck (run_device_phases o ROOT seconds_text unicode_word rounds repo timeout adb serial target backend phases).
Proof.
  induction phases as [|[[f expected] what] l IH]; cbn [run_device_phases]; [apply plain_ret|]. unfold verify_android_test_result. ask_tac.
Qed.

Lemma plain_jvm repo backend :
  plain rule (fun _ => tt) stuck (run_jvm_registry_interop o ROOT seconds_text unicode_word rounds repo timeout backend).
Proof.
  unfold run_jvm_registry_interop. apply plain_seq; [ask_tac|]. intros before.
  apply plain_seq; [apply plain_with_peers; ask_tac|]. intros code. ask_tac.
Qed.

Lemma plain_podman repo :
  plain rule (fun _ => tt) stuck (run_podman_desktop_registry_diagnostic o ROOT seconds_text rounds repo timeout).
Proof.
  unfold run_podman_desktop_registry_diagnostic. apply plain_seq; [ask_tac|]. intros [uv|]; [|ask_tac].
  apply plain_seq; [ask_tac|]. intros present. destruct present; cbn [negb]; [|by apply plain_lift]. apply plain_with_peers. ask_tac.
Qed.
#[local] Hint Resolve plain_phases plain_jvm plain_podman select_total : plain.

Lemma plain_android repo serial backend faults :
  plain rule (fun _ => tt) stuck (run_android_runtime o ROOT seconds_text unicode_word rounds repo serial timeout backend faults).
Proof.
  unfold run_android_runtime, android_report_snapshot, gradle_status, verify_android_test_result.
  ask_tac; apply plain_lift; auto with plain.
Qed.
#[local] Hint Resolve plain_android : plain.

Lemma plain_selection args :
  plain rule (fun _ => tt) stuck (run_selection o ROOT seconds_text unicode_word rounds args timeout).
Proof. unfold run_selection, then_on_success. ask_tac. Qed.

End Runs.
