(* ===== verification/LocalEvidence.v ===== *)
(** What a local acceptance run that returns has seen: the evidence behind its exit status. *)

From stdpp Require Import gmap.
From S2P Require Import Prelude Json Regex NativeReport Harness PyPath RemoteRecords LocalRecords LocalFixture LocalRun LocalPeers LocalRuns.

Open Scope Z_scope.
Open Scope harness_scope.

(** * Reports *)

(** The paths were looked at one after the other, and [l] are the reports among them with
    their times and sizes. *)
Inductive looked : list path -> list ev -> list (path * (Z * Z)) -> Prop :=
  | looked_none : looked [] [] []
  | looked_report p m z paths evs l :
      looked paths evs l ->
      looked (p :: paths) (Event (IsFile p) (inl true) :: Event (Mtime p) (inl m) :: Event (Size p) (inl z) :: evs) ((p, (m, z)) :: l)
  | looked_other p paths evs l :
      looked paths evs l -> looked (p :: paths) (Event (IsFile p) (inl false) :: evs) l.

(** The events are one complete look at the reports under [root]: there is no such directory,
    or every path in it was looked at. *)
Inductive snapshot (root : path) : list ev -> list (path * (Z * Z)) -> Prop :=
  | snapshot_absent : snapshot root [Event (Exists root) (inl false)] []
  | snapshot_present paths evs l :
      looked paths evs l -> snapshot root (Event (Exists root) (inl true) :: Event (Rglob root) (inl paths) :: evs) l.

(** The reports of the second look that the first did not show with the same time and size. *)
Definition fresh_reports (first second : list (path * (Z * Z))) : list path :=
  fst <$> base.filter (fun kv : path * (Z * Z) => stamp_before first kv.1 <> Some kv.2) second.

(** The reports contain the test once, and it passed. *)
Definition one_pass (evs : list ev) (reports : list path) (cls name : pystr) : Prop :=
  exists roots c, Forall2 (fun p r => Event (ParseReport p) (inl r) ∈ evs) reports roots /\
    concat (matching_cases cls name <$> roots) = [c] /\
    has_child "skipped" c = false /\ has_child "failure" c = false /\ has_child "error" c = false.

(** * Peers *)

(** The peers are those of two records of the fixture. *)
Definition announced_peers (evs : list ev) (w b : RegistryPeerAddress) : Prop :=
  exists lines, (forall l, l ∈ lines -> heard evs l) /\ parse_ready_lines lines = Done (w, b).

(** Two LMDB files that are not the same file. *)
Definition separate_stores (evs : list ev) : Prop :=
  exists p q p' q', Event (IsFile p) (inl true) ∈ evs /\ Event (IsFile q) (inl true) ∈ evs /\
    Event (Resolve p) (inl p') ∈ evs /\ Event (Resolve q) (inl q') ∈ evs /\ p' <> q' /\ Event (SameFile p q) (inl false) ∈ evs.

(** The fixture was interrupted by the harness. *)
Definition interrupted (evs : list ev) : Prop := exists a, Event (KillGroup SIGINT) a ∈ evs.

(** The fixture has ended well, and its directory is gone. *)
Definition torn_down (started stopped : list ev) : Prop :=
  exists dir name c, Event (MakeTemp dir) (inl name) ∈ started /\ Event (CleanTemp name) (inl tt) ∈ stopped /\
    Event Poll (Some c) ∈ stopped /\ (c = 0 \/ (c = -2 \/ c = 130) /\ interrupted stopped).

Definition session (w b : RegistryPeerAddress) (started stopped : list ev) : Prop :=
  peer_pair w b /\ announced_peers started w b /\ separate_stores started /\ torn_down started stopped.

(** * Runs *)

(** Every request is allowed. *)
Definition anything (tr : list ev) (e : ev) : Prop := True.

Lemma anything_ok : on_mappings anything.
Proof. by intros R q _ tr a. Qed.

Section Evidence.
Context (o : oracle request) (ROOT : path) (seconds_text : duration -> pystr) (unicode_word : Z -> bool).

Definition ran (evs : list ev) (command : list pystr) (env : environ) (timeout : Z) : Prop :=
  Event (Run command ROOT (Some env) timeout) (inl 0) ∈ evs.

Definition names_test_peers (w b : pystr) (env : environ) : Prop :=
  env !! py "DECENT_REGISTRY_TEST_PEER" = Some w /\ env !! py "DECENT_REGISTRY_TEST_READBACK_PEER" = Some b.

Definition desktop_passed (evs : list ev) : Prop := exists uv env, ran evs (desktop_command ROOT uv) env (sec 1800).

Definition podman_passed (evs : list ev) : Prop :=
  exists started body stopped w b uv report env, evs = started ++ body ++ stopped /\ session w b started stopped /\
    ran body (podman_command ROOT uv report) env (sec 600) /\
    env !! py "DECENT_REGISTRY_ACCEPTANCE_WRITER_PEER" = Some (l_multiaddr w) /\
    env !! py "DECENT_REGISTRY_ACCEPTANCE_READBACK_PEER" = Some (l_multiaddr b) /\
    one_pass body [report] PODMAN_DESKTOP_TEST_CLASS PODMAN_DESKTOP_TEST_NAME.

(** The command ran between two looks at the reports, and the new ones contain the test. *)
Definition jvm_passed (evs : list ev) : Prop :=
  exists before started body stopped after results w b env l k, evs = before ++ (started ++ body ++ stopped) ++ after ++ results /\
    snapshot (JVM_RESULTS ROOT) before l /\ snapshot (JVM_RESULTS ROOT) after k /\
    session w b started stopped /\ ran body jvm_command env (sec 1800) /\ names_test_peers (l_multiaddr w) (l_multiaddr b) env /\
    one_pass results (fresh_reports l k) JVM_INTEROP_TEST_CLASS JVM_INTEROP_TEST_NAME.

(** [adb -s serial args] answered [out]. *)
Definition adb_said (evs : list ev) (adb : path) (serial : pystr) (args : list pystr) (out : pystr) : Prop :=
  Event (Output (adb_command adb serial args) (Some ROOT) (sec 30)) (inl (0, out)) ∈ evs.

(** The device says that it is the AVD [name], an approved one that has booted, with the API
    level, the ABI and the Play Store that the matrix asks for; and the AVD's own settings on
    the host are those of the matrix. *)
Definition identified (evs : list ev) (adb : path) (serial name : pystr) : Prop :=
  exists expected names boot api abi store root text, let getprop p := [py "shell"; py "getprop"; p] in
  APPROVED_ANDROID_TARGETS name = Some expected /\
  adb_said evs adb serial [py "emu"; py "avd"; py "name"] names /\ avd_names names = [name] /\
  adb_said evs adb serial (getprop (py "sys.boot_completed")) boot /\ strip boot = py "1" /\
  adb_said evs adb serial (getprop (py "ro.build.version.sdk")) api /\ py_int (strip api) = Some (t_api expected) /\
  adb_said evs adb serial (getprop (py "ro.product.cpu.abi")) abi /\ strip abi = t_abi expected /\
  adb_said evs adb serial [py "shell"; py "pm"; py "path"; py "com.android.vending"] store /\
  existsb (fun l => starts_with (py "package:") (strip l)) (splitlines store) = true /\
  Event (ReadText (child (child root (name ++ py ".avd")) (py "config.ini"))) (inl text) ∈ evs /\
  Forall (fun kv => parse_config (splitlines text) !! kv.1 = Some kv.2) (t_config expected).

(** It is the only device. *)
Definition sole_device (evs : list ev) (adb : path) (serial : pystr) : Prop :=
  exists out, Event (Output (devices_command adb) (Some ROOT) (sec 30)) (inl (0, out)) ∈ evs /\ select_single_emulator out (Some serial) = Done serial.

(** Mappings as a listing shows them. *)
Definition mapped (evs : list ev) (adb : path) (serial : pystr) (mappings : list (Z * Z)) : Prop :=
  exists out m, Event (Output (list_command adb serial) (Some ROOT) (sec 30)) (inl (0, out)) ∈ evs /\ parse_reverse_mappings out = Done m /\
    forall p q, (p, q) ∈ mappings -> m !! p = Some q.

(** The command ran on the device [name] after it was identified again as the only one, both
    peers reached through ports of the device that end up released. *)
Definition device_run (adb : path) (serial name : pystr) (command : list pystr) (kind : pystr) (evs : list ev) : Prop :=
  exists started pre post stopped cleanup w b x y env m,
    evs = (started ++ (pre ++ Event (Run command ROOT (Some env) (sec 2400)) (inl 0) :: post) ++ stopped) ++ cleanup /\
    session w b started stopped /\ x <> y /\ mapped pre adb serial [(x, l_port w); (y, l_port b)] /\
    sole_device pre adb serial /\ identified pre adb serial name /\
    names_test_peers (device_peer x w) (device_peer y b) env /\ env !! FIXTURE_VARIABLE = Some kind /\
    listed cleanup adb serial m /\ m !! x <> Some (l_port w) /\ m !! y <> Some (l_port b).

(** One phase on the device: its command, the fixture it asks for, and the test that passed
    according to the reports that are new since a look before the command. *)
Definition device_phase (adb : path) (serial name : pystr) (phase : list pystr * pystr * pystr) (evs : list ev) : Prop :=
  exists first before run after results l k, evs = first ++ before ++ run ++ after ++ results /\
    snapshot (ANDROID_RESULTS ROOT) before l /\ snapshot (ANDROID_RESULTS ROOT) after k /\
    device_run adb serial name phase.1.1 phase.1.2 run /\ one_pass results (fresh_reports l k) ROTATION_TEST_CLASS phase.2.

Definition legacy_case : list pystr * pystr * pystr := (legacy_command, py "legacy", ROTATION_TEST_NAME).

(** The versioned phases, with the kinds of fixture they ask for. *)
Definition versioned_case (phase : faults * pystr * pystr) (c : list pystr * pystr * pystr) : Prop :=
  c.1.1 = versioned_command phase.1.1 /\ fixture_kind phase.1.1 = Done c.1.2 /\ c.2 = phase.1.2.

Definition device_passed (evs : list ev) : Prop :=
  exists adb serial name parts cases, evs = concat parts /\
    Forall2 versioned_case (device_phases true) cases /\ Forall2 (device_phase adb serial name) (legacy_case :: cases) parts.

(** What exit status 0 stands for. *)
Definition accepted (args : arguments) (tr : list ev) : Prop :=
  match a_selection args with
  | DesktopOnly => exists e1 e2, tr = e1 ++ e2 /\ desktop_passed e1 /\ (a_backend args = py "podman" -> podman_passed e2)
  | JvmOnly => jvm_passed tr
  | AndroidOnly => exists e1 e2, tr = e1 ++ e2 /\ jvm_passed e1 /\ device_passed e2
  | Everything => exists e1 e2 e3, tr = e1 ++ e2 ++ e3 /\ desktop_passed e1 /\ jvm_passed e2 /\ device_passed e3
  end.

End Evidence.
