(* ===== verification/LocalClaims.v ===== *)
(** Runs of the local acceptance harness that return, each part with the evidence it saw; and what
    the run guarantees: whose port mappings it touches, and the meaning of its exit status. *)

From stdpp Require Import gmap.
From S2P Require Import Prelude Json Regex NativeReport Harness PyPath RemoteRecords LocalRecords LocalFixture LocalRun LocalPeers LocalRuns LocalEvidence.

Open Scope Z_scope.
Open Scope harness_scope.

(** Parts that only ask, when everything is allowed. *)
Ltac free_tac := pose proof anything_ok; plain_tac.

#[local] Hint Resolve anything_ok : plain.

(** Step over a request, or over a part that leaves the state alone. *)
Tactic Notation "skip" "as" ident(a) ident(e) := eapply (yields_skip anything False); [done|free_tac|]; intros a e.
Tactic Notation "called" "as" ident(a) := apply yields_call_then; intros a.
Tactic Notation "asked" "as" ident(a) := apply yields_ask_then; intros a.
Tactic Notation "passed" "as" ident(E) := apply yields_stop; intros E.

Create HintDb evidence.
Lemma in_here {A} (x : A) l : x ∈ x :: l.
Proof. by left. Qed.
Lemma in_later {A} (x y : A) l : x ∈ l -> x ∈ y :: l.
Proof. by right. Qed.
Lemma in_left {A} (x : A) l k : x ∈ l -> x ∈ l ++ k.
Proof. intros. apply elem_of_app. by left. Qed.
Lemma in_right {A} (x : A) l k : x ∈ k -> x ∈ l ++ k.
Proof. intros. apply elem_of_app. by right. Qed.
#[export] Hint Resolve in_here in_later in_left in_right : evidence.

(** More events, in any order, are more evidence. *)
Lemma heard_sub (tr tr' : list ev) l : tr ⊆ tr' -> heard tr l -> heard tr' l.
Proof. intros Hs (t & ls & e & Hin & ?). exists t, ls, e. split; [by apply Hs|done]. Qed.

Ltac sub_tac := intros ?; repeat first [rewrite elem_of_app | rewrite elem_of_cons | rewrite elem_of_nil]; tauto.

Section Yields.
Context (o : oracle request) (ROOT : path) (seconds_text : duration -> pystr) (unicode_word : Z -> bool).

(** ** Reports *)

Lemma stamps_yields paths : forall h, yields h (stamps o paths) (fun l e h' => looked paths e l /\ h' = h).
Proof.
  induction paths as [|p paths IH]; intros h; cbn [stamps]; [apply yields_ret; split; [constructor|done]|]. called as regular. destruct regular.
  - unfold stamp. do 2 apply yields_assoc. called as m. apply yields_assoc. called as z. do 2 apply yields_ret_then.
    eapply yields_bind; [apply IH|]. cbv beta. intros others e h1 [Hl ->]. apply yields_ret. rewrite app_nil_r. split; [by constructor|done].
  - apply yields_ret_then. eapply yields_bind; [apply IH|]. cbv beta. intros others e h1 [Hl ->]. apply yields_ret. rewrite app_nil_r. split; [by constructor|done].
Qed.

Lemma snapshot_yields root h : yields h (report_snapshot o root) (fun l e h' => snapshot root e l /\ h' = h).
Proof.
  unfold report_snapshot. called as present. destruct present; cbn [negb]; [|apply yields_ret; split; [constructor|done]]. called as paths.
  eapply yields_mono; [apply stamps_yields|]. cbv beta. intros l e h' [Hl ->]. split; [by constructor|done].
Qed.

Lemma changed_yields root first h :
  yields h (changed_reports o root first) (fun l e h' => (exists k, snapshot root e k /\ l = fresh_reports first k) /\ h' = h).
Proof.
  eapply yields_bind; [apply snapshot_yields|]. cbv beta. intros after e h1 [Hs ->]. apply yields_ret. rewrite app_nil_r. split; [by exists after|done].
Qed.

Lemma collect_yields cls name reports : forall h, yields h (collect_matches o reports cls name) (fun cases e h' => h' = h /\
  exists roots, Forall2 (fun p r => Event (ParseReport p) (inl r) ∈ e) reports roots /\ cases = concat (matching_cases cls name <$> roots)).
Proof.
  induction reports as [|p reports IH]; intros h; cbn [collect_matches]; [apply yields_ret; split; [done|]; exists []; by split; [constructor|]|].
  eapply yields_bind.
  { apply yields_catch; [apply (yields_call _ _ _ (fun r e h' => e = [Event (ParseReport p) (inl r)] /\ h' = h)); done|].
    intros e. case_match; apply never_lift. }
  intros root e1 h1 [-> ->]. eapply yields_bind; [apply IH|]. intros others e2 h2 (-> & roots & Hr & ->). apply yields_ret.
  split; [done|]. exists (root :: roots). split; [|done]. rewrite app_nil_r. constructor; [auto with evidence|].
  eapply Forall2_impl; [exact Hr|]. simpl. auto with evidence.
Qed.

Lemma check_matches_done cls name cases u :
  check_matches cls name cases = Done u -> exists c, cases = [c] /\ has_child "skipped" c = false /\ has_child "failure" c = false /\ has_child "error" c = false.
Proof.
  unfold check_matches. destruct cases as [|c [|]]; try done. destruct (has_child "skipped" c) eqn:E1; [done|].
  destruct (has_child "failure" c) eqn:E2, (has_child "error" c) eqn:E3; try done. eauto.
Qed.

Lemma junit_yields cls name reports h :
  yields h (verify_junit_test_result o reports cls name) (fun _ e h' => one_pass e reports cls name /\ h' = h).
Proof.
  eapply yields_bind; [apply collect_yields|]. intros cases e h1 (-> & roots & Hr & ->). apply yields_lift. intros u Hc.
  apply check_matches_done in Hc as (c & Ec & Hok). split; [|done]. exists roots, c. by rewrite app_nil_r.
Qed.

(** ** Commands *)

Lemma run_yields command env timeout h :
  yields h (run_command o ROOT command env timeout) (fun code e h' => (code = 0 -> ran ROOT e command env timeout) /\ h' = h).
Proof.
  unfold run_command. called as u. intros tr code s' E. unfold hcatch in E.
  destruct (call o (Run command ROOT (Some env) timeout) (Host tr h)) as [[c|f|] s1] eqn:Ec; [| |done];
    unfold call in Ec; simpl in Ec; destruct (o _ _ _) as [c'|f'] in Ec; try discriminate; injection Ec as Ec1 Ec2; subst.
  - injection E as <- <-. eexists. split; [reflexivity|]. split; [|done]. intros ->. apply in_later, in_here.
  - case_bool_decide; [|by apply never_lift in E].
    assert (yields h (do _ <- call o (Print true (py "command timed out after " ++ int_str (timeout / sec 1) ++ py "s")); hret 124)
      (fun code _ h' => code = 124 /\ h' = h)) as Hy by (called as v; by apply yields_ret).
    destruct (Hy _ _ _ E) as (e & Ee & -> & Eh). simpl in Ee. rewrite <-app_assoc in Ee. eexists. split; [exact Ee|]. by split.
Qed.

(** ** The fixture *)

(** What the fixture has read comes from its process. *)
Definition sound (known : list ev) (h : harness) : Prop :=
  (forall l, l ∈ fx_lines h -> heard known l) /\ (forall l, Some l ∈ fx_messages h -> heard known l).

Lemma sound_sub (known known' : list ev) h : known ⊆ known' -> sound known h -> sound known' h.
Proof. intros Hs [Hl Hm]. split; intros l Hin; eapply heard_sub; eauto. Qed.

Lemma put_sound known m h : sound known h -> (forall l, m = Some l -> heard known l) -> sound known (put_nowait m h).
Proof.
  intros [Hl Hm] Hn. unfold put_nowait. case_match; [|done]. split; [done|]. simpl. intros l [Hin|Hin%list_elem_of_singleton]%elem_of_app; auto.
Qed.

Lemma pump_sound known lines ended h : sound known h -> (forall l, l ∈ lines -> heard known l) -> sound known (_pump_stdout lines ended h).
Proof.
  intros Hs Hl. unfold _pump_stdout. assert (sound known (foldl pump_line h lines)) as H1.
  { revert h Hs. induction lines as [|l lines IH]; intros h Hs; [done|]. cbn [foldl]. apply IH; [intros l' Hin; apply Hl; by right|].
    unfold pump_line. case_match; [done|]. apply put_sound; [done|]. intros l' [= <-]. apply Hl. by left. }
  case_match; [|done]. by apply (put_sound known None) in H1.
Qed.

Lemma observe_yields known t h : sound known h -> yields h (observe o t) (fun _ e h' => sound (known ++ e) h').
Proof.
  intros Hs. unfold observe. apply yields_get_then. destruct (fx_reader h); try (apply yields_ret; by rewrite app_nil_r).
  asked as p. apply yields_update. apply pump_sound; [eapply sound_sub; [|done]; sub_tac|].
  intros l Hl. destruct p as [lines ended]. exists t, lines, ended. split; [auto with evidence|done].
Qed.

Lemma message_yields known t h :
  sound known h -> yields h (get_message o t) (fun m e h' => sound (known ++ e) h' /\ forall l, m = Some (Some l) -> heard (known ++ e) l).
Proof.
  intros Hs. eapply yields_bind; [by apply (observe_yields known)|]. intros [] e h1 [Hl Hm]. apply yields_get_then.
  destruct (fx_messages h1) as [|m rest] eqn:E; [apply yields_ret; rewrite app_nil_r; rewrite <-E in Hm; by split; [split|]|].
  apply yields_update_then, yields_ret. rewrite app_nil_r. split; [split; [done|intros l Hin; apply Hm; by right]|].
  intros l [= ->]. apply Hm. by left.
Qed.

(** The peers are known and their stores have been compared. *)
Definition ready_state (known : list ev) (h : harness) : Prop :=
  exists w b, fx_peers h = Some (w, b) /\ announced_peers known w b /\ separate_stores known.

Lemma separate_sub (e e' : list ev) : e ⊆ e' -> separate_stores e -> separate_stores e'.
Proof. intros Hs (p & q & p' & q' & ? & ? & ? & ? & ? & ?). exists p, q, p', q'. split_and!; auto. Qed.

Lemma announced_sub (e e' : list ev) w b : e ⊆ e' -> announced_peers e w b -> announced_peers e' w b.
Proof. intros Hs (ls & Hl & ?). exists ls. split; [|done]. intros l Hin. eapply heard_sub; eauto. Qed.

Lemma ready_sub (e e' : list ev) h : e ⊆ e' -> ready_state e h -> ready_state e' h.
Proof. intros Hs (w & b & ? & ? & ?). exists w, b. split_and!; [done|by eapply announced_sub|by eapply separate_sub]. Qed.

Lemma stores_yields p q h : yields h (ensure_distinct_lmdb_stores o p q) (fun _ e h' => separate_stores e /\ h' = h).
Proof.
  unfold ensure_distinct_lmdb_stores. called as w. destruct w; [called as b|apply yields_ret_then, yields_fail]. destruct b; [|apply yields_fail].
  called as p'. called as q'. case_bool_decide as E; [apply yields_ret_then, yields_fail|]. called as same.
  destruct same; [apply yields_fail|]. apply yields_ret. split; [|done]. exists p, q, p', q'. split_and!; auto 10 with evidence.
Qed.

Lemma become_ready_yields known root h : sound known h -> yields h (become_ready o root) (fun _ e h' => ready_state (known ++ e) h').
Proof.
  intros [Hl _]. unfold become_ready. apply yields_get_then, yields_lift_then. intros [w b] Ep. apply yields_update_then, yields_lift_then.
  intros [pw pb] _. eapply yields_bind; [apply stores_yields|]. intros [] e h1 [He ->]. apply yields_update_then.
  apply yields_call. intros []. exists w, b. split_and!; [done| |eapply separate_sub; [|done]; sub_tac].
  exists (fx_lines h). split; [|done]. intros l Hin. eapply heard_sub; [|by apply Hl]. sub_tac.
Qed.

Lemma ready_loop_yields root deadline rounds : forall known h,
  sound known h -> yields h (ready_loop o seconds_text rounds root deadline) (fun _ e h' => ready_state (known ++ e) h').
Proof.
  induction rounds as [|n IH]; intros known h Hs; cbn [ready_loop]; [by intros tr a s' [=]|].
  asked as now. apply yields_get_then. case_match; [apply yields_fail|]. asked as later.
  eapply yields_bind; [by apply (message_yields known)|]. cbv beta. intros m e h1 [K1 Km].
  destruct m as [[line|]|].
  - case_match; [apply yields_update_then, yields_fail|]. case_match.
    { eapply yields_mono; [by apply IH|]. intros [] e2 h2. apply ready_sub. sub_tac. }
    apply yields_update_then. called as u. apply yields_get_then.
    assert (sound (known ++ e) (add_line line h1)) as K2.
    { destruct K1 as [Kl Kq]. split; [|done]. intros l [Hin|Hin%list_elem_of_singleton]%elem_of_app; [auto|subst; auto]. }
    case_match; (eapply yields_mono; [first [by apply become_ready_yields|by apply IH]|]); intros [] e2 h2; apply ready_sub; sub_tac.
  - apply yields_get_then. case_match; [asked as c|apply yields_ret_then]; apply yields_fail.
  - asked as code. destruct code; [apply yields_get_then; case_match; [asked as c|apply yields_ret_then]; apply yields_fail|].
    eapply yields_mono; [by apply IH|]. intros [] e2 h2. apply ready_sub. sub_tac.
Qed.

#[local] Hint Resolve plain_observe plain_message plain_exited plain_ready : plain.

Lemma ready_loop_frame root deadline rounds h :
  yields h (ready_loop o seconds_text rounds root deadline) (fun _ _ h' => fview h' = fview h).
Proof.
  apply (yields_plain anything fview True); [done|]. induction rounds as [|n IH]; cbn [ready_loop]; [|free_tac].
  intros s Ho. split; [by apply kept_here|done].
Qed.

Lemma launch_yields rounds command env root h :
  sound [] h -> yields h (launch o seconds_text rounds command env root) (fun _ e h' => ready_state e h' /\ fview h' = fview (set_process h)).
Proof.
  intros Hs. unfold launch. apply yields_get_then. called as u. do 2 apply yields_update_then. called as v. apply yields_update_then. asked as now.
  eapply yields_mono; [apply yields_and; [by apply (ready_loop_yields _ _ _ [])|apply ready_loop_frame]|].
  intros [] e h' [Hr Hv]. split; [|done]. eapply ready_sub; [|exact Hr]. sub_tac.
Qed.

(** A fixture that has started. *)
Definition serving (e : list ev) (h h' : harness) : Prop :=
  ready_state e h' /\ vview h' = vview h /\ fx_process h' = true /\ fx_signalled h' = false /\
  exists dir name, fx_scratch h' = Some name /\ Event (MakeTemp dir) (inl name) ∈ e.

Lemma serving_sub (e e' : list ev) h h' : e ⊆ e' -> serving e h h' -> serving e' h h'.
Proof. intros Hs (? & ? & ? & ? & dir & name & ? & ?). split_and!; [by eapply ready_sub|done..|]. exists dir, name. auto. Qed.

Lemma enter_yields rounds h :
  sound [] h -> fx_signalled h = false -> yields h (enter o ROOT seconds_text rounds) (fun _ e h' => serving e h h').
Proof.
  intros Hs Hsig. unfold enter. apply yields_get_then. called as present. passed as E1. called as script. passed as E2. called as uv.
  destruct uv as [uv|]; [|apply yields_fail]. skip as python e1. asked as env. called as home. cbv zeta. called as u1. called as name.
  apply yields_update_then. called as u2. asked as env'. called as u3. apply yields_catch; [|intros e; apply never_bind; intros ?; apply never_lift].
  eapply yields_mono; [by apply launch_yields|]. intros [] e h' [Hr Hv]. injection Hv as V1 V2 V3 V4 V5 V6 V7 V8.
  split_and!; [eapply ready_sub; [|exact Hr]; sub_tac|unfold vview; congruence|done|congruence|].
  eexists _, name. split; [done|]. auto 20 with evidence.
Qed.

Lemma init_yields repo timeout backend format fault h :
  yields h (init o repo (Some timeout) backend format fault) (fun _ _ h' => sound [] h' /\ fx_signalled h' = false /\ vview h' = vview h).
Proof.
  unfold init. do 5 (apply yields_stop; intros _). called as repo'. apply yields_lift_then. intros t _. apply yields_update. split_and!; [|done|done].
  split; intros l Hin; by apply not_elem_of_nil in Hin.
Qed.

(** ** Teardown *)

Lemma signal_frame s h : yields h (signal_group o s) (fun _ e h' => h' = h /\ (s = SIGINT -> interrupted e)).
Proof.
  intros tr a s' E. unfold signal_group, hcatch, call in E. simpl in E. destruct (o _ _ (KillGroup s)) as [u|f].
  - injection E as <- <-. eexists. split; [reflexivity|]. split; [done|]. intros ->. eexists. apply in_here.
  - case_match; [|by apply never_lift in E].
    destruct (yields_call h o (Signal s) (fun _ _ h' => h' = h) ltac:(done) _ _ _ E) as (e & Ee & Eh). simpl in Ee. rewrite <-app_assoc in Ee.
    eexists. split; [exact Ee|]. split; [done|]. intros ->. eexists. apply in_here.
Qed.

Lemma stop_process_yields h : yields h (stop_process o) (fun _ e h' => h' = set_signalled h /\ interrupted e).
Proof.
  apply yields_get_then, yields_update_then. eapply yields_bind; [apply signal_frame|]. intros [] e h1 [-> Hi].
  eapply yields_mono; [apply (yields_plain anything (fun x => x) False); [done|]|].
  { unfold wait_or, signal_group. free_tac. }
  intros [] e2 h2 ->. split; [done|]. destruct (Hi eq_refl) as [a Ha]. exists a. auto with evidence.
Qed.

Lemma observe_frame t h : yields h (observe o t) (fun _ _ h' => fview h' = fview h).
Proof. apply (yields_plain anything fview False); [done|]. free_tac. Qed.

Lemma interrupted_sub (e e' : list ev) : e ⊆ e' -> interrupted e -> interrupted e'.
Proof. intros Hs [a Ha]. exists a. auto. Qed.

Lemma stop_yields name h :
  fx_process h = true -> fx_scratch h = Some name -> fx_signalled h = false ->
  yields h (stop o) (fun _ e h' => Event (CleanTemp name) (inl tt) ∈ e /\ (fx_signalled h' = true -> interrupted e)).
Proof.
  intros Hp Hn Hs. unfold stop. apply yields_get_then. rewrite Hp, Hn. apply yields_assoc. asked as code.
  eapply (yields_bind _ _ _ (fun _ e h' => fx_signalled h' = true -> interrupted e)).
  { destruct code; [apply yields_ret; congruence|]. eapply yields_mono; [apply stop_process_yields|]. by intros [] e h' [-> Hi] _. }
  intros [] e h1 Hi. called as u. eapply (yields_bind _ _ _ (fun _ _ h2 => fx_signalled h2 = fx_signalled h1)).
  { destruct (fx_reader h); try apply yields_fail; (eapply yields_mono; [apply observe_frame|]); intros [] e2 h2 Hv; by injection Hv. }
  intros [] e2 h2 E2. called as v. destruct v. apply yields_update. split; [auto 10 with evidence|].
  simpl. rewrite E2. intros Ht. eapply interrupted_sub; [|by apply Hi]. sub_tac.
Qed.

Lemma exit_yields name dir started h :
  fx_process h = true -> fx_scratch h = Some name -> fx_signalled h = false -> Event (MakeTemp dir) (inl name) ∈ started ->
  yields h (exit o) (fun _ e h' => torn_down started e /\ vview h' = vview h).
Proof.
  intros Hp Hn Hs Hd. unfold exit. eapply yields_bind.
  { apply yields_and; [by apply stop_yields|]. apply (yields_plain anything pview False); [done|]. apply plain_stop, anything_ok. }
  intros [] e h1 [[Hc Hi] Hv]. assert (fx_process h1 = true) as Hp1 by (by injection Hv; congruence).
  apply yields_get_then. rewrite Hp1. asked as code. cbv zeta. passed as Eb. apply yields_call. intros [].
  destruct code as [c|]; [|done]. split; [|exact (f_equal fst Hv)]. exists dir, name, c. do 3 (split; [auto with evidence|]).
  destruct (Z.eqb_spec c 0) as [E0|_]; [left; exact E0|]. right. cbn [negb andb] in Eb. apply negb_false_iff, andb_true_iff in Eb as [Es Ec].
  apply bool_decide_eq_true in Ec. split; [set_solver|]. eapply interrupted_sub; [|by apply Hi]. sub_tac.
Qed.

(** The fields of the fixture that its teardown reads. *)
Definition xview (h : harness) := (fx_process h, fx_scratch h, fx_signalled h).

(** A session: what the body did, between the start and the end of the fixture. *)
Lemma with_peers_yields {A} rounds repo timeout backend format fault (body : RegistryPeerAddress -> RegistryPeerAddress -> prog request harness A)
    (Q : RegistryPeerAddress -> RegistryPeerAddress -> A -> list ev -> list (Z * Z) * list (Z * Z) * option Z -> Prop) h :
  (forall w b h1, vview h1 = vview h -> yields h1 (body w b) (fun a e h2 => Q w b a e (vview h2) /\ xview h2 = xview h1)) ->
  yields h (with_peers o ROOT seconds_text rounds repo timeout backend format fault body) (fun a e h' =>
    exists w b started eb stopped, e = started ++ eb ++ stopped /\ session w b started stopped /\ Q w b a eb (vview h')).
Proof.
  intros Hb. unfold with_peers. eapply yields_bind; [apply init_yields|]. cbv beta. intros [] e0 h0 (Hs & Hsig & Hv0).
  eapply yields_bind; [by apply enter_yields|]. cbv beta. intros [] e1 h1 (Hr & Hv1 & Hp & Hsig1 & dir & name & Hn & Hd).
  destruct Hr as (w & b & Epeers & Ha & Hst). eapply yields_attempt.
  - apply yields_get_then. rewrite Epeers. apply Hb. congruence.
  - cbv beta. intros a eb h2 [Hq Hx]. injection Hx as X1 X2 X3. eapply yields_bind.
    { eapply (exit_yields name dir (e0 ++ e1)); [congruence..|auto with evidence]. }
    cbv beta. intros [] e2 h3 [Ht Hv3]. apply yields_ret. exists w, b, (e0 ++ e1), eb, e2. rewrite app_nil_r, <-app_assoc, Hv3.
    split_and!; [done| |done]. destruct Ha as (lines & Hl & Hparse). split_and!; [by eapply parse_ready_done| | |done].
    + exists lines. split; [|done]. intros l Hin. eapply heard_sub; [|by apply Hl]. sub_tac.
    + eapply separate_sub; [|done]. sub_tac.
  - intros e. apply never_bind. intros ?. apply never_lift.
Qed.

(** ** Host phases *)

Lemma session_sub (e e' : list ev) w b stopped : e ⊆ e' -> session w b e stopped -> session w b e' stopped.
Proof.
  intros Hs (? & Ha & ? & dir & name & c & ? & ?). split_and!; [done|by eapply announced_sub|by eapply separate_sub|].
  exists dir, name, c. split; auto.
Qed.

Lemma ran_sub (e e' : list ev) command env t : e ⊆ e' -> ran ROOT e command env t -> ran ROOT e' command env t.
Proof. intros Hs. apply Hs. Qed.

Lemma one_pass_sub (e e' : list ev) reports cls name : e ⊆ e' -> one_pass e reports cls name -> one_pass e' reports cls name.
Proof. intros Hs (roots & c & Hr & ?). exists roots, c. split; [|done]. eapply Forall2_impl; [exact Hr|]. intros p r. apply Hs. Qed.

Lemma desktop_yields h : yields h (run_desktop_integration o ROOT) (fun code e _ => code = 0 -> desktop_passed ROOT e).
Proof.
  unfold run_desktop_integration. called as uv. destruct uv as [uv|]; [|apply yields_fail]. called as u. asked as env.
  eapply yields_mono; [apply run_yields|]. intros code e h' [Hr _] E. exists uv, env. eapply ran_sub; [|by apply Hr]. sub_tac.
Qed.

Lemma variable_names (w b : pystr) env : names_test_peers w b (peer_variables w b env).
Proof.
  assert (py "DECENT_REGISTRY_TEST_READBACK_PEER" <> py "DECENT_REGISTRY_TEST_PEER") as Hne by (eapply bool_decide_unpack; vm_compute; exact I).
  split; unfold peer_variables; [by rewrite lookup_insert_ne, lookup_insert_eq|by rewrite lookup_insert_eq].
Qed.

Lemma podman_yields rounds repo timeout h :
  yields h (run_podman_desktop_registry_diagnostic o ROOT seconds_text rounds repo timeout) (fun code e _ => code = 0 -> podman_passed ROOT e).
Proof.
  unfold run_podman_desktop_registry_diagnostic. called as uv. destruct uv as [uv|]; [|apply yields_fail]. called as present. passed as E.
  eapply yields_mono.
  - apply (with_peers_yields _ _ _ _ _ _ _ (fun w b code eb _ => code = 0 -> exists report env,
      ran ROOT eb (podman_command ROOT uv report) env (sec 600) /\
      env !! py "DECENT_REGISTRY_ACCEPTANCE_WRITER_PEER" = Some (l_multiaddr w) /\
      env !! py "DECENT_REGISTRY_ACCEPTANCE_READBACK_PEER" = Some (l_multiaddr b) /\
      one_pass eb [report] PODMAN_DESKTOP_TEST_CLASS PODMAN_DESKTOP_TEST_NAME)).
    intros w b h1 _. apply yields_get_then. destruct (fx_scratch h1) as [name|]; [|apply yields_fail]. asked as env. cbv zeta.
    eapply yields_bind; [apply run_yields|]. cbv beta. intros code e1 h2 [Hr ->].
    destruct (Z.eqb_spec code 0) as [->|Hc]; cbn [negb]; [|apply yields_ret; split; [done|done]].
    eapply yields_bind; [apply junit_yields|]. cbv beta. intros [] e2 h3 [Ho ->]. called as u. apply yields_ret. split; [|done]. intros _.
    assert (py "DECENT_REGISTRY_ACCEPTANCE_READBACK_PEER" <> py "DECENT_REGISTRY_ACCEPTANCE_WRITER_PEER") as Hne by (eapply bool_decide_unpack; vm_compute; exact I).
    eexists _, _. split_and!; [eapply ran_sub; [|by apply Hr]; sub_tac|by rewrite lookup_insert_ne, lookup_insert_eq|by rewrite lookup_insert_eq|].
    eapply one_pass_sub; [|exact Ho]. sub_tac.
  - cbv beta. intros code e h' (w & b & started & eb & stopped & -> & Hs & Hq) Hc. destruct (Hq Hc) as (report & env & ? & ? & ? & ?).
    exists (Event (Which (py "uv")) (inl (Some uv)) :: Event (IsFile (PODMAN_DESKTOP_TEST ROOT)) (inl present) :: started), eb, stopped, w, b, uv, report, env.
    split_and!; try done. eapply session_sub; [|exact Hs]. sub_tac.
Qed.

Lemma jvm_yields rounds repo timeout backend h :
  yields h (run_jvm_registry_interop o ROOT seconds_text unicode_word rounds repo timeout backend) (fun code e _ => code = 0 -> jvm_passed ROOT e).
Proof.
  unfold run_jvm_registry_interop. eapply yields_bind; [apply snapshot_yields|]. cbv beta. intros before e0 h0 [Hl ->].
  eapply yields_bind.
  { apply (with_peers_yields _ _ _ _ _ _ _ (fun w b code eb _ => code = 0 -> exists env,
      ran ROOT eb jvm_command env (sec 1800) /\ names_test_peers (l_multiaddr w) (l_multiaddr b) env)).
    intros w b h1 _. skip as env e1. eapply yields_mono; [apply run_yields|]. intros code e2 h2 [Hr ->]. split; [|done]. intros Hc.
    eexists. split; [eapply ran_sub; [|by apply Hr]; sub_tac|apply variable_names]. }
  cbv beta. intros code e1 h1 (w & b & started & eb & stopped & -> & Hs & Hq).
  destruct (Z.eqb_spec code 0) as [Hc|Hc]; cbn [negb]; [|by apply yields_ret]. destruct (Hq Hc) as (env & Hr & Hn).
  eapply yields_bind; [apply changed_yields|]. cbv beta. intros reports e2 h2 [(k & Hk & ->) ->].
  eapply yields_bind; [apply junit_yields|]. cbv beta. intros [] e3 h3 [Ho ->]. called as u. apply yields_ret. intros _.
  eexists e0, started, eb, stopped, e2, _, w, b, env, before, k. split_and!; try done. eapply one_pass_sub; [|exact Ho]. sub_tac.
Qed.

(** ** Port mappings *)

Section Device.
Context (adb : path) (serial : pystr).

Lemma adb_yields args h :
  yields h (adb_output o ROOT adb serial args) (fun out e h' => e = [Event (Output (adb_command adb serial args) (Some ROOT) (sec 30)) (inl (0, out))] /\ h' = h).
Proof.
  unfold adb_output. called as r. destruct r as [code out]. passed as E. apply negb_false_iff, Z.eqb_eq in E as ->. by apply yields_ret.
Qed.

Lemma current_yields h :
  yields h (current_mappings o ROOT adb serial) (fun r e h' => h' = h /\ forall m, r = inl m -> listed e adb serial m).
Proof.
  intros tr r s' E. unfold current_mappings, list_mappings, adb_output, hattempt, hbind, call, hlift, hret in E. simpl in E.
  destruct (o _ _ (Output _ _ _)) as [[code out]|f] eqn:Eo; [destruct (Z.eqb_spec code 0) as [->|]; cbn [negb] in E|].
  - destruct (parse_reverse_mappings out) as [m|f|] eqn:Ep; cbn in E; [| |discriminate E].
    + injection E as <- <-. eexists. split; [reflexivity|]. split; [done|]. intros m' [= <-]. by exists [], (Some ROOT), (sec 30), out.
    + destruct (adb_failure f); [|by apply never_lift in E]. injection E as <- <-. eexists. split; [reflexivity|]. by split.
  - cbn in E. injection E as <- <-. eexists. split; [reflexivity|]. by split.
  - destruct (adb_failure f); [|by apply never_lift in E]. injection E as <- <-. eexists. split; [reflexivity|]. by split.
Qed.

Lemma free_call {A} (q : request (A + fault)) : plain anything (fun h : harness => h) False (call o q).
Proof. by apply plain_call. Qed.
#[local] Hint Resolve free_call : plain.

Lemma remove_asks candidates : plain anything (fun h => h) False (remove_mappings o ROOT adb serial candidates).
Proof. induction candidates as [|[p q] l IH]; cbn [remove_mappings]; free_tac. Qed.
#[local] Hint Resolve remove_asks : plain.

Lemma listed_later e1 e2 m : listed e2 adb serial m -> listed (e1 ++ e2) adb serial m.
Proof. intros (e0 & cwd & t & out & -> & Hp). exists (e1 ++ e0), cwd, t, out. by rewrite app_assoc. Qed.

Lemma cleanup_yields owned h :
  owned <> [] -> yields h (cleanup_reverse_mappings o ROOT adb serial owned []) (fun errs e h' => h' = h /\
    (errs = [] -> exists m, listed e adb serial m /\ forall p q, (p, q) ∈ owned -> m !! p <> Some q)).
Proof.
  intros Hne. unfold cleanup_reverse_mappings. assert (merge_mappings [] owned = owned) as ->.
  { unfold merge_mappings. simpl. clear Hne. induction owned as [|[p q] l IH]; [done|].
    rewrite filter_cons_True by apply not_elem_of_nil. by rewrite IH. }
  destruct owned as [|c l] eqn:Eo; [done|]. rewrite <-Eo. skip as problem e1. destruct problem as [text|]; [by apply yields_ret|].
  eapply yields_bind; [apply current_yields|]. cbv beta. intros [m|text] e2 h2 [-> Hm]; [|by apply yields_ret].
  destruct (base.filter _ owned) as [|x left] eqn:El; [|by apply yields_ret]. apply yields_ret. split; [done|]. intros _. exists m.
  split; [rewrite app_nil_r; by apply listed_later, Hm|]. intros p q Hin Hp.
  assert ((p, q) ∈ base.filter (fun kv : Z * Z => m !! kv.1 = Some kv.2) owned) as Hf by (by apply list_elem_of_filter).
  rewrite El in Hf. by apply not_elem_of_nil in Hf.
Qed.

Lemma establish_yields p q h :
  v_pending h = [] -> yields h (establish o ROOT adb serial (p, q)) (fun _ e h' =>
    vview h' = (v_owned h ++ [(p, q)], [], v_gradle h) /\ xview h' = xview h).
Proof.
  intros Hp. unfold establish. apply yields_update_then. eapply (yields_attempt _ _ _ (fun _ _ h' => h' = set_pending (v_pending h ++ [(p, q)]) h)).
  - eapply yields_bind; [apply adb_yields|]. intros out e h1 [_ ->]. by apply yields_ret.
  - cbv beta. intros [] e h1 ->. apply yields_update. split; [|done]. unfold vview, pop_pending. simpl. rewrite Hp. simpl.
    rewrite filter_cons_False by (simpl; tauto). done.
  - intros e. case_match; [apply never_bind; intros ?; apply never_lift|]. case_match; apply never_lift.
Qed.

Lemma check_mappings_done m expected u : check_mappings m expected = Done u -> forall p q, (p, q) ∈ expected -> m !! p = Some q.
Proof.
  induction expected as [|[p q] l IH]; simpl; [by intros _ p q ?%not_elem_of_nil|]. case_bool_decide as Hm; [|done].
  intros H p' q' [[= -> ->]|Hin]%elem_of_cons; [done|]. by apply IH.
Qed.

Lemma verify_yields expected h :
  yields h (verify_mappings o ROOT adb serial expected) (fun _ e h' => mapped ROOT e adb serial expected /\ h' = h).
Proof.
  eapply yields_bind; [apply adb_yields|]. cbv beta. intros out e h1 [-> ->]. apply yields_lift. intros u Hv. split; [|done].
  unfold verify_reverse_mappings in Hv. destruct (parse_reverse_mappings out) as [m| |] eqn:Ep; [|done..].
  exists out, m. split_and!; [apply in_here|done|]. by eapply check_mappings_done.
Qed.

Lemma first_free_distinct used l : NoDup l -> NoDup (first_free used l).
Proof.
  induction 1 as [|x l Hx Hl IH]; simpl; [constructor|]. case_match; [done|]. constructor; [|done]. by intros [? _]%first_free_elem.
Qed.

Lemma select_distinct out x y : select_reverse_ports out = Done (x, y) -> x <> y.
Proof.
  unfold select_reverse_ports. destruct (ints _) as [used|]; [|done]. pose proof (first_free_distinct used REVERSE_PORTS (NoDup_seqZ _ _)) as Hn.
  destruct (first_free used REVERSE_PORTS) as [|a [|b l]]; try done. intros [= -> ->] ->. apply NoDup_cons in Hn as [Hn _]. apply Hn. by left.
Qed.

Lemma mapped_sub (e e' : list ev) mappings : e ⊆ e' -> mapped ROOT e adb serial mappings -> mapped ROOT e' adb serial mappings.
Proof. intros Hs (out & m & ? & ?). exists out, m. auto. Qed.

Lemma map_peers_yields w b h :
  v_owned h = [] -> v_pending h = [] -> yields h (map_peers o ROOT adb serial w b) (fun ports e h' =>
    ports.1 <> ports.2 /\ mapped ROOT e adb serial [(ports.1, l_port w); (ports.2, l_port b)] /\
    vview h' = ([(ports.1, l_port w); (ports.2, l_port b)], [], v_gradle h) /\ xview h' = xview h).
Proof.
  intros Ho Hp. unfold map_peers. eapply yields_bind; [apply adb_yields|]. cbv beta. intros out e1 h1 [_ ->]. apply yields_lift_then. intros [x y] Es.
  apply select_distinct in Es. eapply yields_bind; [by apply establish_yields|]. cbv beta. intros [] e2 h2 [V2 X2]. rewrite Ho in V2. injection V2 as O2 P2 G2.
  eapply yields_bind; [by apply establish_yields|]. cbv beta. intros [] e3 h3 [V3 X3]. rewrite O2, G2 in V3.
  eapply yields_bind; [apply verify_yields|]. cbv beta. intros [] e4 h4 [Hm ->]. apply yields_ret. cbn [fst snd].
  split_and!; [done| |done|congruence]. eapply mapped_sub; [|exact Hm]. sub_tac.
Qed.

(** ** A run on the device *)

(** What a body must show once the mappings are there. *)
Definition gradle_run (name : pystr) (command : list pystr) (kind : pystr) (w b : RegistryPeerAddress) (x y : Z) (evs : list ev) : Prop :=
  exists pre post env, evs = pre ++ Event (Run command ROOT (Some env) (sec 2400)) (inl 0) :: post /\
    sole_device ROOT pre adb serial /\ identified ROOT pre adb serial name /\
    names_test_peers (device_peer x w) (device_peer y b) env /\ env !! FIXTURE_VARIABLE = Some kind.

Lemma sole_sub (e e' : list ev) : e ⊆ e' -> sole_device ROOT e adb serial -> sole_device ROOT e' adb serial.
Proof. intros Hs (out & ? & ?). exists out. auto. Qed.

Lemma identified_sub (e e' : list ev) name : e ⊆ e' -> identified ROOT e adb serial name -> identified ROOT e' adb serial name.
Proof.
  intros Hs (expected & names & boot & api & abi & store & root & text & ? & H1 & ? & H2 & ? & H3 & ? & H4 & ? & H5 & ? & H6 & ?).
  exists expected, names, boot, api, abi, store, root, text. unfold adb_said in *. cbv zeta in *. split_and!; auto.
Qed.

(** More may have happened before. *)
Lemma gradle_run_later name command kind w b x y e e' :
  gradle_run name command kind w b x y e' -> gradle_run name command kind w b x y (e ++ e').
Proof.
  intros (pre & post & env & -> & Hs & Hi & ?). exists (e ++ pre), post, env. rewrite <-app_assoc.
  split_and!; [done|eapply sole_sub; [|exact Hs]; sub_tac|eapply identified_sub; [|exact Hi]; sub_tac|tauto..].
Qed.

Lemma device_yields op rounds repo timeout backend format fault k name command kind h :
  (forall w b x y h1, yields h1 (k w b (x, y)) (fun _ e h2 => xview h2 = xview h1 /\ exists code,
     vview h2 = (v_owned h1, v_pending h1, Some code) /\ (code = 0 -> gradle_run name command kind w b x y e))) ->
  yields h (with_cleanup o ROOT adb serial op
      (with_peers o ROOT seconds_text rounds repo timeout backend format fault (device_body o ROOT adb serial k)))
    (fun _ e h' => v_gradle h' = Some 0 -> device_run ROOT adb serial name command kind e).
Proof.
  intros Hk. unfold with_cleanup. apply yields_update_then. eapply yields_attempt.
  - apply (with_peers_yields _ _ _ _ _ _ _ (fun w b _ eb v => exists x y code, v = ([(x, l_port w); (y, l_port b)], [], Some code) /\ x <> y /\
      exists e1 e2, eb = e1 ++ e2 /\ mapped ROOT e1 adb serial [(x, l_port w); (y, l_port b)] /\ (code = 0 -> gradle_run name command kind w b x y e2))).
    intros w b h1 Hv. injection Hv as V1 V2 V3. eapply yields_bind; [by apply map_peers_yields|]. cbv beta. intros [x y] e1 h2 (Hd & Hm & V4 & X4).
    eapply yields_mono; [apply Hk|]. cbv beta. intros [] e2 h3 (X5 & code & V5 & Hg). split; [|congruence]. injection V4 as O4 P4 G4. rewrite O4, P4 in V5.
    exists x, y, code. split_and!; [done|done|]. by exists e1, e2.
  - cbv beta. intros [] e1 h1 (w & b & started & eb & stopped & -> & Hs & x & y & code & V1 & Hd & em & eg & -> & Hm & Hg). injection V1 as O1 P1 G1.
    apply yields_get_then. rewrite O1, P1, G1. eapply yields_bind; [by apply cleanup_yields|]. cbv beta. intros errs e2 h2 [-> Hc].
    apply yields_lift_then. intros primary Hp. assert (errs = [] /\ primary = None) as [-> ->].
    { revert Hp. unfold handle_android_cleanup_errors. destruct errs; [by intros [= <-]|]. by case_match. }
    apply yields_ret. intros Hg0. destruct (Hc eq_refl) as (m & Hl & Hn). rewrite G1 in Hg0. injection Hg0 as ->.
    destruct (Hg eq_refl) as (pre & post & env & -> & Hsole & Hid & Hnames & Hkind). rewrite app_nil_r.
    exists started, (em ++ pre), post, stopped, e2, w, b, x, y, env, m. split_and!; try done; try (apply Hn; set_solver).
    + by rewrite <-!app_assoc.
    + eapply mapped_sub; [|exact Hm]. sub_tac.
    + eapply sole_sub; [|exact Hsole]. sub_tac.
    + eapply identified_sub; [|exact Hid]. sub_tac.
  - intros e. apply never_bind. intros h'. apply never_bind. intros errs. apply never_lift_then. intros primary.
    unfold handle_android_cleanup_errors. destruct errs; intros [= <-]; apply never_lift.
Qed.

Lemma select_serial out x : select_single_emulator out (Some serial) = Done x -> x = serial.
Proof.
  unfold select_single_emulator. destruct (list_devices _) as [connected emulators]. destruct (negb _); [done|].
  destruct emulators as [|[s st] [|]]; try done. destruct (negb _); [done|]. destruct (decide (s = serial)) as [->|Hn].
  - rewrite bool_decide_eq_true_2 by done. congruence.
  - by rewrite bool_decide_eq_false_2.
Qed.

Lemma config_yields name env h :
  yields h (read_avd_config o name env) (fun config e h' => h' = h /\ exists root text,
    Event (ReadText (child (child root (name ++ py ".avd")) (py "config.ini"))) (inl text) ∈ e /\ config = parse_config (splitlines text)).
Proof.
  unfold read_avd_config. eapply (yields_skip anything False); [done|unfold android_avd_config_root; free_tac|]. intros root e1. cbv zeta. eapply yields_bind.
  { apply yields_catch; [|intros e; case_match; apply never_lift].
    apply (yields_call _ _ _ (fun text e h' => e = [Event (ReadText (child (child root (name ++ py ".avd")) (py "config.ini"))) (inl text)] /\ h' = h)). done. }
  cbv beta. intros text e2 h1 [-> ->]. apply yields_ret. split; [done|]. exists root, text. auto with evidence.
Qed.

Lemma check_config_done name config expected u :
  check_config name config expected = Done u -> Forall (fun kv => config !! kv.1 = Some kv.2) expected.
Proof. induction expected as [|[k v] l IH]; cbn [check_config]; [constructor|]. case_bool_decide; [|done]. constructor; auto. Qed.

Lemma target_yields h : yields h (verify_android_target o ROOT adb serial) (fun t e h' => identified ROOT e adb serial t.1.1 /\ h' = h).
Proof.
  unfold verify_android_target. eapply yields_bind; [apply adb_yields|]. cbv beta. intros names e1 h1 [-> ->].
  destruct (avd_names names) as [|name [|]] eqn:En; try apply yields_fail.
  destruct (APPROVED_ANDROID_TARGETS name) as [expected|] eqn:Ea; [|apply yields_fail].
  eapply yields_bind; [apply adb_yields|]. cbv beta. intros boot e2 h1 [-> ->]. passed as Eb. asked as env.
  eapply yields_bind; [apply config_yields|]. cbv beta. intros config e3 h1 (-> & root & text & Ht & ->).
  apply yields_lift_then. intros [] Hc%check_config_done.
  eapply yields_bind; [apply adb_yields|]. cbv beta. intros api_text e4 h1 [-> ->].
  eapply yields_bind; [apply adb_yields|]. cbv beta. intros abi_text e5 h1 [-> ->].
  destruct (py_int (strip api_text)) as [api|] eqn:Ei; [|apply yields_fail]. cbv zeta. passed as Em.
  eapply yields_bind; [apply adb_yields|]. cbv beta. intros store e6 h1 [-> ->]. passed as Ep.
  apply yields_ret. split; [|done]. apply orb_false_iff in Em as [E1 E2]. apply negb_false_iff in E1, E2, Eb, Ep. apply Z.eqb_eq in E1 as ->.
  apply bool_decide_eq_true in E2, Eb. exists expected, names, boot, api_text, abi_text, store, root, text. unfold adb_said. cbv zeta.
  split_and!; auto 20 with evidence.
Qed.

Lemma revalidate_yields target h :
  yields h (revalidate_android_target o ROOT adb serial target) (fun t e h' =>
    sole_device ROOT e adb serial /\ identified ROOT e adb serial target.1.1 /\ h' = h).
Proof.
  unfold revalidate_android_target. eapply yields_bind.
  { apply yields_catch; [|intros e; case_match; apply never_lift].
    apply (yields_call _ _ _ (fun r e h' => e = [Event (Output (devices_command adb) (Some ROOT) (sec 30)) (inl r)] /\ h' = h)). done. }
  cbv beta. intros [code out] e1 h1 [-> ->]. passed as E. apply negb_false_iff, Z.eqb_eq in E as ->. apply yields_lift_then. intros x Ex.
  pose proof (select_serial _ _ Ex) as ->. eapply yields_bind; [apply target_yields|]. cbv beta. intros t e2 h2 [Hi ->]. passed as E2.
  apply negb_false_iff, bool_decide_eq_true in E2 as ->. apply yields_ret.
  split_and!; [|eapply identified_sub; [|exact Hi]; sub_tac|done]. exists out. split; [auto with evidence|done].
Qed.

Lemma gradle_yields command env h :
  yields h (run_gradle o ROOT command env) (fun _ e h' => xview h' = xview h /\ exists code,
    vview h' = (v_owned h, v_pending h, Some code) /\ (code = 0 -> ran ROOT e command env (sec 2400))).
Proof.
  eapply yields_bind; [apply run_yields|]. cbv beta. intros code e h1 [Hr ->]. apply yields_update. split; [done|]. exists code.
  split; [done|]. by rewrite app_nil_r.
Qed.

(** Gradle after the target was checked again. *)
Lemma gradle_run_yields command kind target text w b x y env h :
  env !! FIXTURE_VARIABLE = Some kind ->
  yields h (do t <- revalidate_android_target o ROOT adb serial target;
            do _ <- call o (Print false (text t));
            run_gradle o ROOT command (peer_variables (device_peer x w) (device_peer y b) env))
    (fun _ e h2 => xview h2 = xview h /\ exists code, vview h2 = (v_owned h, v_pending h, Some code) /\ (code = 0 -> gradle_run target.1.1 command kind w b x y e)).
Proof.
  intros Hkind. eapply yields_bind; [apply revalidate_yields|]. cbv beta. intros t e1 h1 (Hs & Hi & ->). called as u.
  eapply yields_mono; [apply gradle_yields|]. cbv beta. intros [] e2 h2 (X2 & code & V2 & Hr). split; [done|]. exists code. split; [done|]. intros Hc.
  destruct (list_elem_of_split _ _ (Hr Hc)) as (pre & post & ->). eexists (e1 ++ _ :: pre), post, _. rewrite <-app_assoc. cbn [app].
  split_and!; [done|eapply sole_sub; [|exact Hs]; sub_tac|eapply identified_sub; [|exact Hi]; sub_tac|apply variable_names|].
  assert (FIXTURE_VARIABLE <> py "DECENT_REGISTRY_TEST_PEER" /\ FIXTURE_VARIABLE <> py "DECENT_REGISTRY_TEST_READBACK_PEER") as [N1 N2]
    by (split; eapply bool_decide_unpack; vm_compute; exact I).
  unfold peer_variables. by rewrite !lookup_insert_ne.
Qed.

Lemma status_yields h : yields h gradle_status (fun status e h' => e = [] /\ h' = h /\ (status = 0 -> v_gradle h = Some 0)).
Proof. apply yields_get_then, yields_ret. split_and!; [done|done|]. destruct (v_gradle h); simpl; [by intros ->|done]. Qed.

Lemma versioned_yields rounds repo timeout target backend f h :
  yields h (run_versioned_android_runtime o ROOT seconds_text unicode_word rounds repo timeout adb serial target backend f) (fun r e _ =>
    r.1 = 0 -> exists kind first before run after l k, fixture_kind f = Done kind /\ e = first ++ before ++ run ++ after /\
      snapshot (ANDROID_RESULTS ROOT) before l /\ snapshot (ANDROID_RESULTS ROOT) after k /\
      device_run ROOT adb serial target.1.1 (versioned_command f) kind run /\ r.2 = fresh_reports l k).
Proof.
  unfold run_versioned_android_runtime. apply yields_lift_then. intros kind Hkind. skip as env e0. cbv zeta.
  eapply yields_bind; [apply snapshot_yields|]. cbv beta. intros before e1 h1 [Hl ->]. eapply yields_bind.
  { apply (device_yields _ _ _ _ _ _ _ (fun w b (ports : Z * Z) => let '(writer_port, readback_port) := ports in
      do t <- revalidate_android_target o ROOT adb serial target;
      do _ <- call o (Print false (py "Revalidated sole target immediately before " ++ phase_name f ++ py " Android Gradle run: " ++ target_text t));
      run_gradle o ROOT (versioned_command f)
        (peer_variables (device_peer writer_port w) (device_peer readback_port b) (<[FIXTURE_VARIABLE := kind]> env))) target.1.1 (versioned_command f) kind).
    intros w b x y h2. apply gradle_run_yields. apply lookup_insert_eq. }
  cbv beta. intros [] e2 h2 Hd. eapply yields_bind; [apply status_yields|]. cbv beta. intros status e3 h3 (-> & -> & Hs).
  destruct (Z.eqb_spec status 0) as [E|E]; cbn [negb]; [|by apply yields_ret].
  eapply yields_bind; [apply changed_yields|]. cbv beta. intros reports e3 h3 [(k & Hk & ->) ->]. apply yields_ret. intros _.
  exists kind, e0, e1, e2, e3, before, k. rewrite app_nil_r. split_and!; [done..|by apply Hd, Hs|done].
Qed.

Lemma legacy_yields rounds repo timeout target backend env h :
  env !! FIXTURE_VARIABLE = Some (py "legacy") ->
  yields h (legacy_phase o ROOT seconds_text rounds repo timeout adb serial target backend env) (fun _ e h' =>
    v_gradle h' = Some 0 -> device_run ROOT adb serial target.1.1 legacy_command (py "legacy") e).
Proof.
  intros Hkind. unfold legacy_phase.
  apply (device_yields _ _ _ _ _ _ _ (fun w b (ports : Z * Z) => let '(writer_port, readback_port) := ports in
    do _ <- call o (Print false (py "Verified adb reverse writer/read-back targets on device ports " ++ int_str writer_port ++ py "/" ++ int_str readback_port));
    do _ <- verify_mappings o ROOT adb serial [(writer_port, l_port w); (readback_port, l_port b)];
    do current <- revalidate_android_target o ROOT adb serial target;
    do _ <- call o (Print false (py "Revalidated sole target immediately before Gradle: " ++ target_text current));
    run_gradle o ROOT legacy_command (peer_variables (device_peer writer_port w) (device_peer readback_port b) env)) target.1.1 legacy_command (py "legacy")).
  intros w b x y h1. called as u. skip as v e1. eapply yields_mono; [by apply gradle_run_yields|]. cbv beta.
  intros [] e2 h2 (X2 & code & V2 & Hg). split; [done|]. exists code. split; [done|]. intros Hc.
  by apply (gradle_run_later _ _ _ _ _ _ _ (_ :: e1)), Hg.
Qed.

Lemma phases_yields rounds repo timeout target backend phases : forall h,
  yields h (run_device_phases o ROOT seconds_text unicode_word rounds repo timeout adb serial target backend phases) (fun code e _ =>
    code = 0 -> exists parts cases, e = concat parts /\ Forall2 versioned_case phases cases /\ Forall2 (device_phase ROOT adb serial target.1.1) cases parts).
Proof.
  induction phases as [|[[f expected] what] rest IH]; intros h; cbn [run_device_phases].
  { apply yields_ret. intros _. exists [], []. split_and!; [done|constructor|constructor]. }
  eapply yields_bind; [apply versioned_yields|]. cbv beta. intros [code reports] e1 h1 Hv. cbn [fst snd] in Hv.
  destruct (Z.eqb_spec code 0) as [E|E]; cbn [negb]; [|by apply yields_ret].
  destruct (Hv E) as (kind & first & before & run & after & l & k & Hkind & -> & Hl & Hk & Hd & ->). eapply yields_bind; [apply junit_yields|]. cbv beta.
  intros [] e2 h2 [Ho ->]. called as u. eapply yields_mono; [apply IH|]. cbv beta. intros code' e3 h3 Hp Hc.
  destruct (Hp Hc) as (parts & cases & -> & Hcases & Hparts).
  exists ((first ++ before ++ run ++ after ++ e2 ++ [Event (Print false (passed_text what "test")) (inl u)]) :: parts), ((versioned_command f, kind, expected) :: cases).
  split_and!; [simpl; by rewrite <-!app_assoc|by constructor|]. constructor; [|done]. eexists first, before, run, after, _, l, k. split_and!; [done..|].
  eapply one_pass_sub; [|exact Ho]. sub_tac.
Qed.
End Device.

Lemma android_yields rounds repo requested timeout backend h :
  yields h (run_android_runtime o ROOT seconds_text unicode_word rounds repo requested timeout backend true) (fun code e _ =>
    code = 0 -> device_passed ROOT e).
Proof.
  unfold run_android_runtime. skip as adb e0. called as started. passed as E0. called as r. destruct r as [c out]. passed as E1.
  apply yields_lift_then. intros serial _. eapply yields_bind; [apply target_yields|]. cbv beta. intros target e1 h1 [_ ->]. called as u.
  skip as env e2. cbv zeta. eapply yields_bind; [apply snapshot_yields|]. cbv beta. intros before e3 h2 [Hl ->].
  eapply yields_bind; [apply legacy_yields, lookup_insert_eq|]. cbv beta. intros [] e4 h3 Hd. eapply yields_bind; [apply status_yields|]. cbv beta.
  intros status e5 h4 (-> & -> & Hs). destruct (Z.eqb_spec status 0) as [E|E]; cbn [negb]; [|by apply yields_ret].
  eapply yields_bind; [apply changed_yields|]. cbv beta. intros reports e5 h4 [(k & Hk & ->) ->]. eapply yields_bind; [apply junit_yields|]. cbv beta.
  intros [] e6 h4 [Ho ->]. called as v. eapply yields_mono; [apply phases_yields|]. cbv beta. intros code e7 h4 Hp Hc.
  destruct (Hp Hc) as (parts & cases & -> & Hcases & Hparts). 
  match goal with |- device_passed _ ?e => assert (exists first last, e = (first ++ e3 ++ e4 ++ e5 ++ e6 ++ last) ++ concat parts) as (first & last & ->) end.
  { match goal with |- exists first last, ?a ++ ?b :: ?c :: ?d ++ ?p :: ?x ++ _ = _ => exists (a ++ b :: c :: d ++ p :: x) end.
    match goal with |- exists last, ?l = _ => match l with context [e6 ++ ?q :: _] => exists [q] end end.
    simpl. repeat (rewrite <-app_assoc; simpl). done. }
  exists adb, serial, target.1.1, ((first ++ e3 ++ e4 ++ e5 ++ e6 ++ last) :: parts), cases. split_and!; [done|done|].
  constructor; [|done]. exists first, e3, e4, e5, (e6 ++ last), before, k. split_and!; [done..|by apply Hd, Hs|]. eapply one_pass_sub; [|exact Ho]. sub_tac.
Qed.

(** ** The command *)

Lemma selection_yields rounds args timeout h :
  a_backend args <> py "podman" \/ a_selection args = DesktopOnly ->
  yields h (run_selection o ROOT seconds_text unicode_word rounds args timeout) (fun code e _ => code = 0 -> accepted ROOT args e).
Proof.
  intros Hmode. unfold run_selection, accepted, then_on_success. cbv zeta. destruct (a_selection args).
  - eapply yields_bind; [apply desktop_yields|]. cbv beta. intros code e1 h1 Hd. destruct (Z.eqb_spec code 0) as [E|E]; cbn [negb]; [|by apply yields_ret].
    case_bool_decide as Hp.
    + eapply yields_mono; [apply podman_yields|]. cbv beta. intros code' e2 h2 Hpod Hc. exists e1, e2. split_and!; auto.
    + apply yields_ret. intros _. exists e1, []. split_and!; auto. by intros ?.
  - apply jvm_yields.
  - eapply yields_bind; [apply jvm_yields|]. cbv beta. intros code e1 h1 Hj. destruct (Z.eqb_spec code 0) as [E|E]; cbn [negb]; [|by apply yields_ret].
    eapply yields_mono; [apply android_yields|]. cbv beta. intros code' e2 h2 Ha Hc. exists e1, e2. split_and!; auto.
  - destruct Hmode as [Hb|]; [|done]. rewrite bool_decide_eq_false_2 by done.
    eapply yields_bind; [apply desktop_yields|]. cbv beta. intros code e1 h1 Hd. destruct (Z.eqb_spec code 0) as [E|E]; cbn [negb]; [|by apply yields_ret].
    apply yields_ret_then. cbn [negb Z.eqb].
    eapply yields_bind; [apply jvm_yields|]. cbv beta. intros code2 e2 h2 Hj. destruct (Z.eqb_spec code2 0) as [E2|E2]; cbn [negb]; [|by apply yields_ret].
    eapply yields_mono; [apply android_yields|]. cbv beta. intros code' e3 h3 Ha Hc. exists e1, e2, e3. split_and!; auto.
Qed.

End Yields.

Section Main.
Context (o : oracle request) (ROOT : path) (seconds_text : duration -> pystr) (unicode_word : Z -> bool).

Abbreviation run_main rounds args := (main o ROOT seconds_text unicode_word rounds args).

(** Too few rounds for the startup timeout of these arguments. *)
Definition rounds_short (rounds : nat) (args : arguments) : Prop :=
  exists t, fixture_startup_timeout (a_backend args) (a_timeout args) = Done t /\ short o rounds t.

Lemma validate_total backend desktop : validate_peer_backend_mode backend desktop <> Stuck.
Proof. unfold validate_peer_backend_mode. by case_match. Qed.

Lemma main_plain rounds args : plain mapping_rule (fun _ => tt) (rounds_short rounds args) (run_main rounds args).
Proof.
  assert (forall e, plain mapping_rule (fun _ => tt) (rounds_short rounds args) (report_failure o e)) as Hreport by (unfold report_failure; ask_tac).
  unfold main. set (desktop := match a_selection args with DesktopOnly => true | _ => false end).
  pose proof (validate_total (a_backend args) desktop) as Hv. destruct (validate_peer_backend_mode _ _); [|apply Hreport|done].
  destruct (match a_timeout args with Some t => not_positive t | None => false end); [by apply plain_lift|].
  pose proof (startup_total (a_backend args) (a_timeout args)) as Hn. destruct (fixture_startup_timeout _ _) as [t|e|] eqn:Et; [|apply plain_raise|done].
  apply plain_done, plain_catch; [|intros e; case_match; [apply Hreport|by apply plain_lift]].
  eapply plain_short; [|apply plain_selection]. intros Hs. by exists t.
Qed.

Lemma report_code e h : yields h (report_failure o e) (fun code _ _ => code = 1).
Proof. unfold report_failure. called as u. by apply yields_ret. Qed.

Lemma main_accepted rounds args h s' : run_main rounds args (Host [] h) = (Done 0, s') ->
  accepted ROOT args (h_trace s') /\ (a_backend args = py "podman" -> a_selection args = DesktopOnly).
Proof.
  assert (forall e s, report_failure o e s <> (Done 0, s')) as Hreport.
  { intros e [tr h0] E. by destruct (report_code e h0 _ _ _ E) as (? & _ & ?). }
  unfold main. set (desktop := match a_selection args with DesktopOnly => true | _ => false end).
  assert (validate_peer_backend_mode (a_backend args) desktop <> Done tt \/ a_backend args <> py "podman" \/ a_selection args = DesktopOnly) as Hmode.
  { unfold validate_peer_backend_mode, desktop. case_bool_decide; [|by right; left]. destruct (a_selection args); first [by right; right|by left]. }
  pose proof (validate_total (a_backend args) desktop) as Hv. destruct (validate_peer_backend_mode _ _) as [[]|e|]; [|by intros E; apply Hreport in E|done].
  destruct Hmode as [|Hmode]; [done|]. destruct (match a_timeout args with Some t => not_positive t | None => false end); [by intros E|].
  destruct (fixture_startup_timeout _ _) as [t|e|]; [|by intros E..]. unfold hbind, hlift, hcatch.
  destruct (run_selection _ _ _ _ _ _ _ _) as [[c|e|] s1] eqn:Er; [| |done].
  - intros [= -> ->]. destruct (selection_yields o ROOT seconds_text unicode_word rounds args t h Hmode _ _ _ Er) as (e & -> & He).
    split; [auto|]. by destruct Hmode.
  - intros E. case_match; [by apply Hreport in E|done].
Qed.
End Main.

(** C39. Whatever adb, the fixture and the system answer, and in every phase: an [adb reverse]
    command that a run makes, other than [--list], is word for word one of two.  It adds a mapping
    with [--no-rebind], so without replacing another, on a port from 31457 to 39999 that a
    listing of the same device did not mention; or it removes the mapping of one port with
    [--remove], which this run tried to add before, when the listing right before the removal
    shows the port with the very target the run gave it.  So a mapping that someone else holds
    is never replaced or removed. *)
Theorem reverse_mappings_owned o ROOT seconds_text unicode_word rounds args h :
  let tr := h_trace (main o ROOT seconds_text unicode_word rounds args (Host [] h)).2 in
  forall before R (q : request R) a after, tr = before ++ Event q a :: after -> changes_mappings (command_of q) = true ->
  exists adb serial remote local,
    (command_of q = [path_str adb; py "-s"; serial; py "reverse"; py "--no-rebind"; tcp remote; tcp local] /\
     free_port before adb serial remote) \/
    (command_of q = [path_str adb; py "-s"; serial; py "reverse"; py "--remove"; tcp remote] /\
     added before adb serial remote local /\ exists m, listed before adb serial m /\ m !! remote = Some local).
Proof.
  intros tr before R q a after E Hc.
  destruct (main_plain o ROOT seconds_text unicode_word rounds args (Host [] h) (obeys_nil _)) as [[Ho _] _].
  destruct (Ho before _ after E Hc) as (adb & serial & p & t & [Hr|Ha]); exists adb, serial, p, t; [by right|by left].
Qed.

