(* ===== verification/Conformance.v ===== *)
(** The two-device conformance run (run-android-runtime-conformance.py): both approved emulators
    are started and identified, one Gradle invocation tests both, its reports are assigned to the
    devices, and the emulators are stopped whatever happened.

    Processes are numbered in the order they are started.  Times are in nanoseconds; the loop that
    waits for a device has a bound on its rounds.  The order in which a set of reports is visited
    is that of the list the environment answers with. *)

From stdpp Require Import gmap.
From S2P Require Import Prelude Json Regex NativeReport Harness PyPath RemoteRecords LocalRecords.

Open Scope Z_scope.
Open Scope harness_scope.

(** * The matrix *)

Record avd := MkAvd {
  avd_name : pystr;
  avd_port : Z;
  avd_api : Z;
  avd_image_api : pystr;
  avd_abi : pystr;
  avd_release : pystr;
  avd_image : pystr;
}.

Definition AVDS : list avd :=
  [MkAvd (py "Medium_Phone") 5554 26 (py "26") (py "x86") (py "8.0.0") (py "system-images/android-26/google_apis_playstore/x86");
   MkAvd (py "Pixel_9") 5556 37 (py "37.2") (py "x86_64") (py "17") (py "system-images/android-37.2/google_apis_playstore_ps16k/x86_64")].

Definition avd_serial (s : avd) : pystr := py "emulator-" ++ int_str (avd_port s).

(** An entry of [target_results]; the report is added when it has been read. *)
Record target := MkTargetResult {
  tg_name : pystr;
  tg_serial : pystr;
  tg_api : Z;
  tg_release : pystr;
  tg_abi : pystr;
  tg_supported_abis : list pystr;
  tg_fingerprint : pystr;
  tg_image : list (pystr * pystr);
  tg_report : option (pystr * list (pystr * Z) * pystr);
}.

(** The entries of the evidence manifest that come from the run. *)
Record summary := MkSummary {
  sm_generated : pystr;
  sm_commit : pystr;
  sm_branch : pystr;
  sm_status : pystr;
  sm_java_version : pystr;
  sm_java_home : pystr;
  sm_sdk : pystr;
  sm_packages : list (pystr * pystr);
  sm_command : pystr;
  sm_targets : list target;
}.

Definition seconds (n : Z) : Z := n * 10 ^ 9.

(** * Requests and state *)

Inductive crequest : Type -> Type :=
  | CEnviron : crequest environ
  | CHome : crequest (path + fault)
  | CIsFile (p : path) : crequest (bool + fault)
  | CReadText (p : path) : crequest (pystr + fault)
  | Execute (command : list pystr) (env : option environ) (timeout : option Z) : crequest (Z * pystr + fault)
  | Stamp : crequest (pystr + fault)                                   (* the time as %Y%m%dT%H%M%SZ *)
  | NowIso : crequest (pystr + fault)
  | CMkdir (p : path) : crequest (unit + fault)
  | OpenLog (p : path) : crequest (unit + fault)
  | CPopen (process : nat) (command : list pystr) (env : environ) : crequest (unit + fault)
  | CPoll (process : nat) : crequest (option Z)
  | CWait (process : nat) (timeout : Z) : crequest (Z + fault)
  | CTerminate (process : nat) : crequest (unit + fault)
  | CKill (process : nat) : crequest (unit + fault)
  | Sleep (duration : Z) : crequest (unit + fault)
  | CClock : crequest Z
  | GlobXml (root : path) : crequest (list path + fault)               (* root.glob("TEST-*.xml") *)
  | CParseReport (p : path) : crequest (element + fault)
  | CopyFile (source destination : path) : crequest (unit + fault)
  | WriteText (p : path) (text : pystr) : crequest (unit + fault)
  | WriteSummary (p : path) (s : summary) : crequest (unit + fault)    (* write_text(json.dumps(summary, indent=2)) *)
  | CPrint (text : pystr) : crequest (unit + fault).

(** The variables [processes] and [target_results]. *)
Record conformance := MkConformance { cf_processes : list avd; cf_targets : list target }.

Definition add_process (s : avd) (c : conformance) : conformance := MkConformance (cf_processes c ++ [s]) (cf_targets c).
Definition add_target (t : target) (c : conformance) : conformance := MkConformance (cf_processes c) (cf_targets c ++ [t]).
Definition set_targets (l : list target) (c : conformance) : conformance := MkConformance (cf_processes c) l.

(** [result.update(...)] of the entry with that name. *)
Definition add_report (name : pystr) (r : pystr * list (pystr * Z) * pystr) (t : target) : target :=
  if bool_decide (tg_name t = name) then
    MkTargetResult (tg_name t) (tg_serial t) (tg_api t) (tg_release t) (tg_abi t) (tg_supported_abis t) (tg_fingerprint t) (tg_image t) (Some r)
  else t.

(** * Text *)

(** [shlex.quote] and [shlex.join] *)
Definition shell_safe : list (Z * Z) := cls_alnum ++ chr "_@%+=:,./-".

Definition shell_quote (s : pystr) : pystr :=
  match s with
  | [] => [39; 39]
  | _ => if forallb (in_class shell_safe) s then s
         else [39] ++ concat ((fun c => if c =? 39 then [39; 34; 39; 34; 39] else [c]) <$> s) ++ [39]
  end.

Definition shlex_join (command : list pystr) : pystr := join_with 32 (shell_quote <$> command).

(** A match of [^emulator-(5554|5556)\s+device\s*$] that starts at a line. *)
Definition occupied_here (s : pystr) : bool :=
  (starts_with (py "emulator-5554") s || starts_with (py "emulator-5556") s) &&
  match drop 13 s with
  | c :: _ =>
      is_white c &&
      (let rest := drop_white (drop 13 s) in
       starts_with (py "device") rest &&
       (let after := drop 6 rest in
        bool_decide (drop_white after = []) || bool_decide (10 ∈ take (length after - length (drop_white after)) after)))
  | [] => false
  end.

(** [re.search] of it, with [re.MULTILINE]. *)
Fixpoint occupied_from (line_start : bool) (s : pystr) : bool :=
  (line_start && occupied_here s) || match s with [] => false | c :: s' => occupied_from (c =? 10) s' end.

(** The word version, a space, a quote and 17, then a dot, plus, minus or quote. *)
Definition build_version_here (s : pystr) : bool :=
  starts_with (py "version " ++ [34; 49; 55]) s && match drop 11 s with c :: _ => in_class (chr ".+-") c || (c =? 34) | [] => false end.

Fixpoint build_version (s : pystr) : bool :=
  build_version_here s || match s with [] => false | _ :: s' => build_version s' end.

(** The serials of [adb devices]. *)
Definition attached_serials (listing : pystr) : list pystr :=
  omap (fun line => match words line with serial :: state :: _ => if bool_decide (state = py "device") then Some serial else None | _ => None end)
    (drop 1 (splitlines listing)).

(** * Reports *)

(** [suite.findall(".//property")] *)
Definition properties_of (suite : element) : list element := concat (iter_tag (py "property") <$> e_children suite).

(** [device_props.get("device", "")] *)
Definition device_label (suite : element) : pystr :=
  match last (base.filter (fun p => get "name" p = Some (py "device")) (properties_of suite)) with
  | Some p => default [] (get "value" p)
  | None => []
  end.

Definition occurs (needle s : pystr) : bool := match cut needle s with Some _ => true | None => false end.

(** The counts of a report, in the order they are read. *)
Fixpoint read_counts (keys : list string) (suite : element) : outcome (list (pystr * Z)) :=
  match keys with
  | [] => Done []
  | k :: rest =>
      match py_int (default (py "0") (get k suite)), read_counts rest suite with
      | Some n, Done l => Done ((py k, n) :: l)
      | Some _, r => r
      | None, _ => error Value_Error (py "invalid literal for int() with base 10")
      end
  end.

Definition COUNT_KEYS : list string := ["tests"; "failures"; "errors"; "skipped"].

(** [counts["tests"] != 9 or any(...)] *)
Definition bad_counts (counts : list (pystr * Z)) : bool :=
  match counts with
  | (_, tests) :: others => negb (tests =? 9) || existsb (fun kv => negb (kv.2 =? 0)) others
  | [] => true
  end.

(** [current - previous], or everything *)
Definition selected_reports (previous current : list path) : list path :=
  let previous := remove_dups previous in
  let current := remove_dups current in
  let fresh := base.filter (fun p => p ∉ previous) current in
  if (length fresh =? length AVDS)%nat then fresh else current.

Section Run.
Context (o : oracle crequest) (ROOT : path).

Abbreviation C := (prog crequest conformance).

(** [p / name / ...] *)
Definition below (p : path) (names : list string) : path := foldl (fun q n => child q (py n)) p names.

(** [fail(message)] *)
Definition fail {A} (message : pystr) : C A := hlift (error SystemExit (py "Issue #36 conformance runner: " ++ message)).

Definition run (command : list pystr) (env : environ) (timeout : Z) : C pystr :=
  do (code, out) <- call o (Execute command (Some env) (Some timeout));
  if negb (code =? 0) then fail (py "command failed (" ++ int_str code ++ py "): " ++ shlex_join command ++ [10] ++ out)
  else hret (strip out).

Definition properties (p : path) : C (gmap pystr pystr) :=
  do present <- call o (CIsFile p);
  if negb present then fail (py "required metadata is missing: " ++ path_str p)
  else do text <- call o (CReadText p); hret (parse_config (splitlines text)).

(** [os.environ.get(k)] as a condition. *)
Definition variable (k : string) : C (option pystr) :=
  do env <- ask o CEnviron;
  hret (match env !! py k with Some ((_ :: _) as v) => Some v | _ => None end).

Fixpoint find_jdk (candidates : list path) : C path :=
  match candidates with
  | [] => fail (py "JDK 17 is required. Install/select it and set JAVA_HOME.")
  | home :: rest =>
      do has_java <- call o (CIsFile (below home ["bin"; "java"]));
      do usable <- (if has_java then call o (CIsFile (below home ["bin"; "javac"])) else hret false);
      if negb usable then find_jdk rest
      else
        do (_, version) <- call o (Execute [path_str (below home ["bin"; "java"]); py "-version"] None None);
        if build_version version then hret home
        else fail (py "approved build JDK is 17; JAVA_HOME points to " ++ strip version)
  end.

Definition jdk17 : C path :=
  do configured <- variable "JAVA_HOME";
  do home <- call o CHome;
  find_jdk ((match configured with Some v => [Path v] | None => [] end) ++
    [below home [".local"; "share"; "mise"; "installs"; "java"; "17.0.2"]; Path (py "/usr/lib/jvm/java-17-openjdk")]).

(** [p / "a/b/..."] *)
Definition join_relative (p : path) (text : pystr) : path := foldl child p (split_on 47 text).

Definition avd_metadata (sdk avd_home : path) (spec : avd) : C (list (pystr * pystr)) :=
  let name := avd_name spec in
  let field m k := default [] (m !! py k) in
  do avd_ini <- properties (child avd_home (name ++ py ".ini"));
  do config <- properties (child (child avd_home (name ++ py ".avd")) (py "config.ini"));
  let image_path := avd_image spec in
  if negb (bool_decide (rstrip [47] (field config "image.sysdir.1") = image_path))
  then fail (name ++ py " is not configured with the approved image " ++ image_path)
  else if negb (bool_decide (config !! py "abi.type" = Some (avd_abi spec)))
  then fail (name ++ py " AVD ABI is " ++ match config !! py "abi.type" with Some v => str_repr v | None => py "None" end ++
    py ", expected " ++ str_repr (avd_abi spec))
  else
  do image <- properties (child (join_relative sdk image_path) (py "source.properties"));
  if negb (bool_decide (image !! py "AndroidVersion.ApiLevel" = Some (avd_image_api spec)))
  then fail (name ++ py " system-image API does not match the approved matrix")
  else hret
    [(py "avd_target", field avd_ini "target"); (py "avd_config_abi", field config "abi.type");
     (py "avd_image_sysdir", field config "image.sysdir.1"); (py "system_image_package", image_path);
     (py "system_image_description", field image "Pkg.Desc"); (py "system_image_revision", field image "Pkg.Revision");
     (py "system_image_tag", field image "SystemImage.TagId"); (py "system_image_abi", field image "SystemImage.Abi")].

Fixpoint all_metadata (sdk avd_home : path) (specs : list avd) : C (list (pystr * list (pystr * pystr))) :=
  match specs with
  | [] => hret []
  | s :: rest => do m <- avd_metadata sdk avd_home s; do l <- all_metadata sdk avd_home rest; hret ((avd_name s, m) :: l)
  end.

Definition device_command (adb serial : pystr) (args : list pystr) : list pystr := [adb; py "-s"; serial] ++ args.

Definition prop_command (adb serial name : pystr) : list pystr := device_command adb serial [py "shell"; py "getprop"; name].

Definition prop (adb serial : pystr) (name : string) (env : environ) : C pystr :=
  do out <- run (prop_command adb serial (py name)) env (seconds 15); hret (strip out).

Fixpoint wait_loop (rounds : nat) (adb serial : pystr) (process : nat) (name log : pystr) (env : environ) (deadline : Z) : C unit :=
  match rounds with
  | O => hlift Stuck
  | S rounds' =>
      do now <- ask o CClock;
      if negb (now <? deadline) then fail (name ++ py " did not boot within six minutes; see " ++ log)
      else
      do exited <- ask o (CPoll process);
      match exited with
      | Some c => fail (name ++ py " emulator exited " ++ int_str c ++ py "; see " ++ log)
      | None =>
          do (code, state) <- call o (Execute (device_command adb serial [py "get-state"]) (Some env) (Some (seconds 10)));
          do booted <- (if (code =? 0) && bool_decide (strip state = py "device") then
                          do (code, boot) <- call o (Execute (prop_command adb serial (py "sys.boot_completed")) (Some env) (Some (seconds 10)));
                          hret ((code =? 0) && bool_decide (strip boot = py "1"))
                        else hret false);
          if booted then hret tt
          else do _ <- call o (Sleep (seconds 3)); wait_loop rounds' adb serial process name log env deadline
      end
  end.

Definition wait_for_device (rounds : nat) (adb serial : pystr) (process : nat) (name log : pystr) (env : environ) : C unit :=
  do now <- ask o CClock;
  wait_loop rounds adb serial process name log env (now + seconds 360).

(** * The run *)

Definition emulator_command (emulator : pystr) (s : avd) : list pystr :=
  [emulator; py "-avd"; avd_name s; py "-port"; int_str (avd_port s); py "-no-window"; py "-no-audio"; py "-no-boot-anim"; py "-no-snapshot"].

Definition log_path (report_dir : path) (s : avd) : path := child report_dir (avd_name s ++ py "-emulator.log").

Fixpoint start_emulators (emulator : pystr) (report_dir : path) (env : environ) (specs : list avd) : C unit :=
  match specs with
  | [] => hret tt
  | s :: rest =>
      do _ <- call o (OpenLog (log_path report_dir s));
      do c <- get_state;
      do _ <- call o (CPopen (length (cf_processes c)) (emulator_command emulator s) env);
      do _ <- update (add_process s);
      start_emulators emulator report_dir env rest
  end.

(** One round of the loop that identifies the devices. *)
Definition identify (rounds : nat) (adb : pystr) (report_dir : path) (env : environ) (images : list (pystr * list (pystr * pystr)))
    (process : nat) (s : avd) : C unit :=
  let name := avd_name s in
  let serial := avd_serial s in
  do _ <- wait_for_device rounds adb serial process name (path_str (log_path report_dir s)) env;
  do names <- run (device_command adb serial [py "emu"; py "avd"; py "name"]) env (seconds 15);
  match splitlines names with
  | [] => hlift (error (OtherError 2) (py "list index out of range"))
  | first :: _ =>
      let actual_name := strip first in
      do api <- prop adb serial "ro.build.version.sdk" env;
      do abi <- prop adb serial "ro.product.cpu.abi" env;
      do release <- prop adb serial "ro.build.version.release" env;
      do fingerprint <- prop adb serial "ro.build.fingerprint" env;
      if negb (bool_decide (actual_name = name)) || negb (bool_decide (api = int_str (avd_api s))) || negb (bool_decide (abi = avd_abi s))
      then fail (py "runtime identity mismatch on " ++ serial ++ py ": AVD=" ++ actual_name ++ py ", API=" ++ api ++ py ", ABI=" ++ abi)
      else if negb (bool_decide (release = avd_release s)) || bool_decide (fingerprint = [])
      then fail (py "unexpected Android release/build fingerprint on " ++ name ++ py ": release=" ++ release)
      else
      do abis <- prop adb serial "ro.product.cpu.abilist" env;
      update (add_target (MkTargetResult name serial (avd_api s) release abi (split_on 44 abis) fingerprint
        (default [] (snd <$> List.find (fun kv => bool_decide (kv.1 = name)) images)) None))
  end.

Fixpoint identify_all (rounds : nat) (adb : pystr) (report_dir : path) (env : environ) (images : list (pystr * list (pystr * pystr)))
    (process : nat) (specs : list avd) : C unit :=
  match specs with
  | [] => hret tt
  | s :: rest =>
      do _ <- identify rounds adb report_dir env images process s;
      identify_all rounds adb report_dir env images (S process) rest
  end.

Definition invocation : list pystr :=
  [py "./gradlew"; py "--no-daemon"; py "--dependency-verification=strict"; py ":interop:android-runtime:connectedDebugAndroidTest"].

Definition gradle_log_name : pystr := py "gradle-connectedAndroidTest.log".

Definition reports_root : path :=
  below ROOT ["interop"; "android-runtime"; "build"; "outputs"; "androidTest-results"; "connected"; "debug"].

Definition saved_name (name : pystr) : pystr := name ++ py "-instrumentation.xml".

(** One report: the device it belongs to. *)
Definition take_report (report_dir : path) (matched : list pystr) (report_xml : path) : C (list pystr) :=
  do suite <- call o (CParseReport report_xml);
  let label := device_label suite in
  do c <- get_state;
  match base.filter (fun t => occurs (tg_name t) label = true) (cf_targets c) with
  | [result] =>
      let name := tg_name result in
      if bool_decide (name ∈ matched) then fail (py "duplicate instrumentation report for " ++ name)
      else
      do counts <- hlift (read_counts COUNT_KEYS suite);
      if bad_counts counts then fail (name ++ py " did not pass all 9 instrumentation tests")
      else
      do _ <- call o (CopyFile report_xml (child report_dir (saved_name name)));
      do _ <- update (fun c => set_targets (add_report name (label, counts, saved_name name) <$> cf_targets c) c);
      hret (name :: matched)
  | _ => fail (py "cannot associate test report with one approved AVD: " ++ str_repr label)
  end.

Fixpoint take_reports (report_dir : path) (matched : list pystr) (reports : list path) : C (list pystr) :=
  match reports with
  | [] => hret matched
  | p :: rest => do matched' <- take_report report_dir matched p; take_reports report_dir matched' rest
  end.

(** What the paths, tools and metadata of a run are. *)
Record setup := MkSetup {
  su_jdk : path;
  su_sdk : path;
  su_env : environ;
  su_packages : list (pystr * pystr);
  su_images : list (pystr * list (pystr * pystr));
  su_report_dir : path;
  su_java_version : pystr;
}.

Definition su_adb (u : setup) : pystr := path_str (below (su_sdk u) ["platform-tools"; "adb"]).
Definition su_emulator (u : setup) : pystr := path_str (below (su_sdk u) ["emulator"; "emulator"]).

(** The [try] block. *)
Definition conform (rounds : nat) (u : setup) : C Z :=
  let env := su_env u in
  let adb := su_adb u in
  do _ <- start_emulators (su_emulator u) (su_report_dir u) env AVDS;
  do c <- get_state;
  do _ <- identify_all rounds adb (su_report_dir u) env (su_images u) O (cf_processes c);
  do attached <- run [adb; py "devices"] env (seconds 15);
  let actual := attached_serials attached in
  if negb (forallb (fun x => bool_decide (x ∈ avd_serial <$> AVDS)) actual && forallb (fun x => bool_decide (x ∈ actual)) (avd_serial <$> AVDS))
  then fail (py "only the two approved emulator devices may be attached")
  else
  let command_text := shlex_join invocation in
  do _ <- call o (CPrint ([10] ++ py "=== Running one locked Gradle invocation on Medium_Phone and Pixel_9 ===" ++ [10] ++ py "$ " ++ command_text));
  do previous <- call o (GlobXml reports_root);
  do (code, out) <- call o (Execute invocation (Some env) (Some (seconds 2400)));
  do _ <- call o (WriteText (child (su_report_dir u) gradle_log_name) out);
  do _ <- call o (CPrint out);
  if negb (code =? 0) then fail (py "the combined Gradle instrumentation task failed with exit " ++ int_str code)
  else
  do current <- call o (GlobXml reports_root);
  let selected := selected_reports previous current in
  if negb (length selected =? length AVDS)%nat
  then fail (py "expected 2 per-device XML reports, found " ++ int_str (Z.of_nat (length selected)))
  else
  do matched <- take_reports (su_report_dir u) [] selected;
  if negb (forallb (fun x => bool_decide (x ∈ avd_name <$> AVDS)) matched && forallb (fun x => bool_decide (x ∈ matched)) (avd_name <$> AVDS))
  then fail (py "matrix is incomplete")
  else
  do generated <- call o NowIso;
  do commit <- run [py "git"; py "rev-parse"; py "HEAD"] env (seconds 60);
  do branch <- run [py "git"; py "branch"; py "--show-current"] env (seconds 60);
  do status <- run [py "git"; py "status"; py "--short"] env (seconds 60);
  do c <- get_state;
  let result_path := child (su_report_dir u) (py "results.json") in
  do _ <- call o (WriteSummary result_path (MkSummary generated commit branch status (su_java_version u) (path_str (su_jdk u))
    (path_str (su_sdk u)) (su_packages u) command_text (cf_targets c)));
  do _ <- call o (CPrint ([10] ++ py "Both accepted AVDs passed. Evidence manifest: " ++ path_str result_path));
  hret 0.

(** [process.wait(timeout=t)], and what follows [TimeoutExpired]. *)
Definition ended_or (process : nat) (timeout : Z) (otherwise : C unit) : C unit :=
  hcatch (do _ <- call o (CWait process timeout); hret tt)
    (fun e => if bool_decide (f_class e = TimeoutExpired) then otherwise else hlift (Failed e)).

Definition stop_emulator (adb : pystr) (env : environ) (process : nat) (s : avd) : C unit :=
  do _ <- call o (Execute (device_command adb (avd_serial s) [py "emu"; py "kill"]) (Some env) (Some (seconds 20)));
  ended_or process (seconds 30)
    (do _ <- call o (CTerminate process);
     ended_or process (seconds 10)
       (do _ <- call o (CKill process);
        do _ <- call o (CWait process (seconds 10));
        hret tt)).

(** The [finally] clause: the processes in reverse, with their numbers. *)
Fixpoint stop_emulators (adb : pystr) (env : environ) (processes : list (nat * avd)) : C unit :=
  match processes with
  | [] => hret tt
  | (i, s) :: rest => do _ <- stop_emulator adb env i s; stop_emulators adb env rest
  end.

Definition numbered (l : list avd) : list (nat * avd) := reverse (zip (seq 0 (length l)) l).

Definition package_property (sdk : path) (key : string) (file : list string) (field : string) : C (pystr * pystr) :=
  do m <- properties (below sdk (file ++ ["source.properties"]));
  hret (py key, default [] (m !! py field)).

(** Everything before the [try]. *)
Definition prepare : C setup :=
  do android_home <- variable "ANDROID_HOME";
  do sdk_root <- match android_home with Some v => hret (Some v) | None => variable "ANDROID_SDK_ROOT" end;
  do sdk <- match sdk_root with Some v => hret (Path v) | None => do home <- call o CHome; hret (below home ["Android"; "Sdk"]) end;
  do avd_variable <- variable "ANDROID_AVD_HOME";
  do avd_home <- match avd_variable with Some v => hret (Path v) | None => do home <- call o CHome; hret (below home [".android"; "avd"]) end;
  do jdk <- jdk17;
  do base <- ask o CEnviron;
  let env := update_env base
    [(py "JAVA_HOME", path_str jdk); (py "ANDROID_HOME", path_str sdk); (py "ANDROID_SDK_ROOT", path_str sdk);
     (py "PATH", path_str (child jdk (py "bin")) ++ py ":" ++ path_str (child sdk (py "platform-tools")) ++ py ":" ++
        path_str (child sdk (py "emulator")) ++ py ":" ++ default [] (base !! py "PATH"))] in
  let adb := below sdk ["platform-tools"; "adb"] in
  do has_adb <- call o (CIsFile adb);
  do installed <- (if has_adb then call o (CIsFile (below sdk ["emulator"; "emulator"])) else hret false);
  if negb installed then fail (py "Android Platform-Tools and Emulator must be installed under " ++ path_str sdk)
  else
  do p1 <- package_property sdk "emulator" ["emulator"] "Pkg.Revision";
  do p2 <- package_property sdk "platform_tools" ["platform-tools"] "Pkg.Revision";
  do p3 <- package_property sdk "build_tools" ["build-tools"; "37.0.0"] "Pkg.Revision";
  do p4 <- package_property sdk "compile_sdk_api" ["platforms"; "android-37.0"] "AndroidVersion.ApiLevel";
  do p5 <- package_property sdk "compile_sdk_package_revision" ["platforms"; "android-37.0"] "Pkg.Revision";
  do images <- all_metadata sdk avd_home AVDS;
  do _ <- run [path_str adb; py "start-server"] env (seconds 30);
  do connected <- run [path_str adb; py "devices"] env (seconds 15);
  if occupied_from true connected then fail (py "reserved emulator port 5554 or 5556 is occupied; stop that emulator and retry")
  else
  do stamp <- call o Stamp;
  let report_dir := child (below ROOT ["docs"; "reports"; "issue-36"]) stamp in
  do _ <- call o (CMkdir report_dir);
  do java_version <- run [path_str (below jdk ["bin"; "java"]); py "-version"] env (seconds 60);
  hret (MkSetup jdk sdk env [p1; p2; p3; p4; p5] images report_dir java_version).

Definition main (rounds : nat) : C Z :=
  do u <- prepare;
  do _ <- update (fun _ => MkConformance [] []);
  do r <- hattempt (conform rounds u);
  do c <- get_state;
  do _ <- stop_emulators (su_adb u) (su_env u) (numbered (cf_processes c));
  match r with inl code => hret code | inr e => hlift (Failed e) end.

End Run.
