(* ===== verification/ConformanceFacts.v ===== *)
(** The conformance run under every environment: it ends, and what exit status 0 stands for; and
    runs on concrete answers. *)

From stdpp Require Import gmap.
From S2P Require Import Prelude Json Regex NativeReport Harness PyPath RemoteRecords LocalRecords Conformance.

Open Scope Z_scope.
Open Scope harness_scope.

Abbreviation cev := (event crequest).

(** * Evidence *)

Section Evidence.
Context (tr : list cev).

(** The device answered a property. *)
Definition prop_answer (adb : pystr) (s : avd) (name : string) (value : pystr) : Prop :=
  exists env out, Event (Execute (prop_command adb (avd_serial s) (py name)) (Some env) (Some (seconds 15))) (inl (0, out)) ∈ tr /\ strip (strip out) = value.

(** The emulator of the device was started, and the device said that it had booted. *)
Definition started (s : avd) : Prop :=
  exists i emulator env, Event (CPopen i (emulator_command emulator s) env) (inl tt) ∈ tr.

Definition booted (adb : pystr) (s : avd) : Prop :=
  exists env out, Event (Execute (prop_command adb (avd_serial s) (py "sys.boot_completed")) (Some env) (Some (seconds 10))) (inl (0, out)) ∈ tr /\
    strip out = py "1".

(** The emulator itself gave this name: the first line of its answer. *)
Definition name_answer (adb : pystr) (s : avd) (name : pystr) : Prop :=
  exists env out line rest,
    Event (Execute (device_command adb (avd_serial s) [py "emu"; py "avd"; py "name"]) (Some env) (Some (seconds 15))) (inl (0, out)) ∈ tr /\
    splitlines (strip out) = line :: rest /\ strip line = name.

(** A result that describes the approved device, as it described itself. *)
Definition identified (adb : pystr) (t : target) (s : avd) : Prop :=
  (tg_name t = avd_name s /\ tg_serial t = avd_serial s /\ tg_api t = avd_api s /\ tg_abi t = avd_abi s /\ tg_release t = avd_release s /\
   tg_fingerprint t <> []) /\
  booted adb s /\ name_answer adb s (avd_name s) /\
  prop_answer adb s "ro.build.version.sdk" (int_str (avd_api s)) /\ prop_answer adb s "ro.product.cpu.abi" (avd_abi s) /\
  prop_answer adb s "ro.build.version.release" (avd_release s) /\ prop_answer adb s "ro.build.fingerprint" (tg_fingerprint t) /\
  exists abis, prop_answer adb s "ro.product.cpu.abilist" abis /\ tg_supported_abis t = split_on 44 abis.

(** A report that names the device and has nine tests, all passed. *)
Definition report_passed (t : target) (p : path) : Prop :=
  exists suite counts, Event (CParseReport p) (inl suite) ∈ tr /\ occurs (tg_name t) (device_label suite) = true /\
    read_counts COUNT_KEYS suite = Done counts /\ counts = [(py "tests", 9); (py "failures", 0); (py "errors", 0); (py "skipped", 0)] /\
    tg_report t = Some (device_label suite, counts, saved_name (tg_name t)).

Definition process_ended (i : nat) : Prop := exists t c, Event (CWait i t) (inl c) ∈ tr.

Definition asked_to_stop (adb : pystr) (s : avd) : Prop :=
  exists env a, Event (Execute (device_command adb (avd_serial s) [py "emu"; py "kill"]) (Some env) (Some (seconds 20))) (inl a) ∈ tr.
End Evidence.

(** What holds before the one Gradle command, and what the run found after it. *)
Definition prepared (ROOT : path) (adb : pystr) (ts : list target) (previous : list path) (tr : list cev) : Prop :=
  exists env listing, Forall (started tr) AVDS /\ Forall2 (identified tr adb) ts AVDS /\
    Event (Execute [adb; py "devices"] (Some env) (Some (seconds 15))) (inl (0, listing)) ∈ tr /\
    (forall x, x ∈ attached_serials (strip listing) <-> x ∈ avd_serial <$> AVDS) /\
    Event (GlobXml (reports_root ROOT)) (inl previous) ∈ tr.

Definition reported (ROOT : path) (t1 t2 : target) (previous : list path) (tr : list cev) : Prop :=
  exists current p1 p2 dest sm, Event (GlobXml (reports_root ROOT)) (inl current) ∈ tr /\
    p1 ∈ selected_reports previous current /\ p2 ∈ selected_reports previous current /\ p1 <> p2 /\
    report_passed tr t1 p1 /\ report_passed tr t2 p2 /\
    sm_targets sm = [t1; t2] /\ Event (WriteSummary dest sm) (inl tt) ∈ tr.

(** The evidence of the run itself, before the emulators are stopped. *)
Definition recorded (ROOT : path) (adb : pystr) (tr : list cev) : Prop :=
  exists before env out after t1 t2 previous,
    tr = before ++ Event (Execute invocation (Some env) (Some (seconds 2400))) (inl (0, out)) :: after /\
    prepared ROOT adb [t1; t2] previous before /\ reported ROOT t1 t2 previous after.

(** Exit status 0. *)
Definition conformant (ROOT : path) (tr : list cev) : Prop :=
  exists adb ran stopped, tr = ran ++ stopped /\ recorded ROOT adb ran /\
    Forall (asked_to_stop stopped adb) AVDS /\ process_ended stopped 0 /\ process_ended stopped 1.

(** ** More events are more evidence *)

Section Monotone.
Context (tr tr' : list cev) (Hs : tr ⊆ tr').

Lemma prop_answer_sub adb s name v : prop_answer tr adb s name v -> prop_answer tr' adb s name v.
Proof. intros (env & out & ? & ?). exists env, out. auto. Qed.

Lemma booted_sub adb s : booted tr adb s -> booted tr' adb s.
Proof. intros (env & out & ? & ?). exists env, out. auto. Qed.

Lemma device_identified_sub adb t s : identified tr adb t s -> identified tr' adb t s.
Proof.
  intros (? & ? & (env & out & line & rest & ? & ?) & ? & ? & ? & ? & abis & ? & ?). split; [done|].
  split; [by apply booted_sub|]. split; [exists env, out, line, rest; auto|]. split_and!; try by apply prop_answer_sub.
  exists abis. split; [by apply prop_answer_sub|done].
Qed.

Lemma started_sub s : started tr s -> started tr' s.
Proof. intros (i & emulator & env & ?). exists i, emulator, env. auto. Qed.

Lemma report_passed_sub t p : report_passed tr t p -> report_passed tr' t p.
Proof. intros (suite & counts & ? & ?). exists suite, counts. auto. Qed.
End Monotone.

(** * Pure parts *)

Lemma counts_passed suite counts :
  read_counts COUNT_KEYS suite = Done counts -> bad_counts counts = false ->
  counts = [(py "tests", 9); (py "failures", 0); (py "errors", 0); (py "skipped", 0)].
Proof.
  unfold COUNT_KEYS. cbn [read_counts]. repeat match goal with |- context [py_int ?x] => destruct (py_int x) as [?n|]; [|discriminate] end.
  intros [= <-]. cbn [bad_counts existsb snd]. rewrite !orb_false_iff, !negb_false_iff, !Z.eqb_eq. by intros (-> & -> & -> & -> & _).
Qed.

Lemma selected_distinct previous current : NoDup (selected_reports previous current).
Proof. unfold selected_reports. case_match; [apply NoDup_filter|]; apply NoDup_remove_dups. Qed.

Lemma two_names (a b : pystr) :
  a <> b -> Forall (fun x => x ∈ [a; b]) (avd_name <$> AVDS) ->
  (a = py "Medium_Phone" /\ b = py "Pixel_9") \/ (a = py "Pixel_9" /\ b = py "Medium_Phone").
Proof.
  intros Hn H. simpl in H. apply Forall_cons in H as [H1 H]. apply Forall_cons in H as [H2 _].
  assert (py "Medium_Phone" <> py "Pixel_9") as Hd by (eapply bool_decide_unpack; vm_compute; exact I).
  rewrite !elem_of_cons, elem_of_nil in H1, H2. intuition congruence.
Qed.

(** * Runs that return *)

Ltac c_sub := intros ?; repeat first [rewrite elem_of_app | rewrite elem_of_cons | rewrite elem_of_nil]; tauto.
Ltac c_in := repeat first [rewrite elem_of_app | rewrite elem_of_cons]; tauto.

(** Requests of a part that leaves the state alone. *)
Ltac quiet_step :=
  match goal with
  | |- plain _ _ _ (hbind _ _) => apply plain_seq; [|intros ?]
  | |- plain _ _ _ (hret _) => apply plain_ret
  | |- plain _ _ _ get_state => apply plain_get
  | |- plain _ _ _ (ask _ _) => by apply plain_ask
  | |- plain _ _ _ (call _ _) => by apply plain_call
  | |- plain _ _ _ (hlift (error _ _)) => by apply plain_lift
  | |- plain _ _ _ (fail _) => by apply plain_lift
  | |- plain _ _ _ (let _ := _ in _) => cbv zeta
  | |- plain _ _ _ (if ?c then _ else _) => destruct c
  | |- plain _ _ _ (match ?c with _ => _ end) => destruct c
  end.
Ltac quiet_tac := intros; repeat quiet_step.

Section Yields.
Context (o : oracle crequest) (ROOT : path).

Definition allowed (tr : list cev) (e : cev) : Prop := True.

Lemma execute_returns command env timeout h :
  yields h (run o command env timeout) (fun r e h' => h' = h /\ exists out, e = [Event (Execute command (Some env) (Some timeout)) (inl (0, out))] /\ r = strip out).
Proof.
  unfold run. apply yields_call_then. intros [code out]. destruct (Z.eqb_spec code 0) as [->|]; cbn [negb]; [|apply yields_fail].
  apply yields_ret. eauto.
Qed.

Lemma prop_returns adb s name env h :
  yields h (prop o adb (avd_serial s) name env) (fun v e h' => h' = h /\ prop_answer e adb s name v).
Proof.
  eapply yields_bind; [apply execute_returns|]. cbv beta. intros v e h1 (-> & out & -> & ->). apply yields_ret. split; [done|].
  exists env, out. split; [apply elem_of_app; left; by left|done].
Qed.

Lemma run_quiet command env timeout short : plain allowed (fun c => c) short (run o command env timeout).
Proof. unfold run. quiet_tac. Qed.

Lemma start_returns emulator dir env specs : forall h,
  yields h (start_emulators o emulator dir env specs) (fun _ e h' => h' = MkConformance (cf_processes h ++ specs) (cf_targets h) /\ Forall (started e) specs).
Proof.
  induction specs as [|s specs IH]; intros h; cbn [start_emulators]; [apply yields_ret; rewrite app_nil_r; split; [by destruct h|done]|].
  apply yields_call_then. intros []. apply yields_get_then, yields_call_then. intros []. apply yields_update_then.
  eapply yields_mono; [apply IH|]. intros [] e h' [-> He]. simpl. rewrite <-app_assoc. split; [done|]. constructor.
  - exists (length (cf_processes h)), emulator, env. c_in.
  - eapply Forall_impl; [exact He|]. intros s'. apply started_sub. c_sub.
Qed.

Lemma wait_loop_returns rounds adb s process name log env deadline h :
  yields h (wait_loop o rounds adb (avd_serial s) process name log env deadline) (fun _ e h' => h' = h /\ booted e adb s).
Proof.
  induction rounds as [|n IH]; cbn [wait_loop]; [apply yields_lift; discriminate|]. apply yields_ask_then. intros now. apply yields_stop. intros _.
  apply yields_ask_then. intros [c|]; [apply yields_fail|]. apply yields_call_then. intros [code state].
  assert (forall q a b c, yields h (do _ <- call o (Sleep (seconds 3)); wait_loop o n adb (avd_serial s) process name log env deadline)
    (fun _ e h' => h' = h /\ booted (q :: a :: b ++ c ++ e) adb s)) as Hagain.
  { intros q a b c. apply yields_call_then. intros u. eapply yields_mono; [exact IH|]. cbv beta. intros _ e h' [-> ?]. split; [done|].
    eapply booted_sub; [|done]. c_sub. }
  destruct ((code =? 0) && bool_decide (strip state = py "device")).
  - apply yields_assoc, yields_call_then. intros [code' boot]. apply yields_ret_then.
    destruct (Z.eqb_spec code' 0) as [->|]; [case_bool_decide as Hb|]; cbn [andb]; [|apply (Hagain _ _ [_; _] [])..].
    apply yields_ret. split; [done|]. exists env, boot. split; [c_in|done].
  - apply yields_ret_then, (Hagain _ _ [_] []).
Qed.

Lemma wait_returns rounds adb s process name log env h :
  yields h (wait_for_device o rounds adb (avd_serial s) process name log env) (fun _ e h' => h' = h /\ booted e adb s).
Proof.
  apply yields_ask_then. intros now. eapply yields_mono; [apply wait_loop_returns|]. cbv beta. intros _ e h' [-> ?].
  split; [done|]. eapply booted_sub; [|done]. c_sub.
Qed.

Lemma identify_returns rounds adb dir env images process s h :
  yields h (identify o rounds adb dir env images process s) (fun _ e h' => exists t,
    identified e adb t s /\ h' = MkConformance (cf_processes h) (cf_targets h ++ [t])).
Proof.
  unfold identify. eapply yields_bind; [apply wait_returns|]. cbv beta. intros [] e0 h0 [-> Hb].
  eapply yields_bind; [apply execute_returns|]. cbv beta. intros names e1 h1 (-> & out & -> & ->).
  destruct (splitlines (strip out)) as [|line rest] eqn:Hn; [apply yields_fail|].
  eapply yields_bind; [apply prop_returns|]. cbv beta. intros api e2 h2 [-> Hapi].
  eapply yields_bind; [apply prop_returns|]. cbv beta. intros abi e3 h3 [-> Habi].
  eapply yields_bind; [apply prop_returns|]. cbv beta. intros release e4 h4 [-> Hrel].
  eapply yields_bind; [apply prop_returns|]. cbv beta. intros fingerprint e5 h5 [-> Hfp].
  apply yields_stop. intros E1. apply yields_stop. intros E2.
  eapply yields_bind; [apply prop_returns|]. cbv beta. intros abis e6 h6 [-> Habis]. apply yields_update.
  rewrite !orb_false_iff, !negb_false_iff, !bool_decide_eq_true in E1. destruct E1 as [[Hname ->] ->].
  rewrite orb_false_iff, negb_false_iff, bool_decide_eq_true, bool_decide_eq_false in E2. destruct E2 as [-> Hf].
  eexists. split; [|reflexivity]. split; [done|]. destruct Hb as (env0 & out0 & ? & ?).
  split; [exists env0, out0; split; [c_in|done]|]. split; [exists env, out, line, rest; split; [c_in|done]|].
  split_and!; try (eapply prop_answer_sub; [|eassumption]; c_sub). exists abis. split; [|done]. eapply prop_answer_sub; [|eassumption]. c_sub.
Qed.

Lemma identify_all_returns rounds adb dir env images specs : forall process h,
  yields h (identify_all o rounds adb dir env images process specs) (fun _ e h' => exists l,
    Forall2 (identified e adb) l specs /\ h' = MkConformance (cf_processes h) (cf_targets h ++ l)).
Proof.
  induction specs as [|s specs IH]; intros process h; cbn [identify_all].
  { apply yields_ret. exists []. rewrite app_nil_r. split; [constructor|by destruct h]. }
  eapply yields_bind; [apply identify_returns|]. cbv beta. intros [] e1 h1 (t & Ht & ->).
  eapply yields_mono; [apply IH|]. cbv beta. intros [] e2 h2 (l & Hl & ->). exists (t :: l). simpl. rewrite <-app_assoc. split; [|done].
  constructor; [eapply device_identified_sub; [|done]; c_sub|]. eapply Forall2_impl; [exact Hl|]. intros t' s' Hi. eapply device_identified_sub; [|done]. c_sub.
Qed.

(** One report is given to one device. *)
Definition assigned (e : list cev) (p : path) (name : pystr) (before after : list target) : Prop :=
  exists suite counts, Event (CParseReport p) (inl suite) ∈ e /\ occurs name (device_label suite) = true /\
    read_counts COUNT_KEYS suite = Done counts /\ counts = [(py "tests", 9); (py "failures", 0); (py "errors", 0); (py "skipped", 0)] /\
    after = add_report name (device_label suite, counts, saved_name name) <$> before.

Lemma take_report_returns dir matched p h :
  yields h (take_report o dir matched p) (fun m e h' => exists name l, m = name :: matched /\ name ∉ matched /\
    assigned e p name (cf_targets h) l /\ h' = MkConformance (cf_processes h) l).
Proof.
  unfold take_report. apply yields_call_then. intros suite. cbv zeta. apply yields_get_then.
  destruct (base.filter _ (cf_targets h)) as [|result [|]] eqn:Ef; try apply yields_fail. case_bool_decide as Hm; [apply yields_fail|].
  apply yields_lift_then. intros counts Hc. destruct (bad_counts counts) eqn:Hb; [apply yields_fail|]. apply yields_call_then. intros u.
  apply yields_update_then, yields_ret. eexists _, _. split; [done|]. split; [done|]. split; [|reflexivity].
  exists suite, counts. split_and!; [by left| |done|by eapply counts_passed|done].
  assert (result ∈ base.filter (fun t => occurs (tg_name t) (device_label suite) = true) (cf_targets h)) as Hin by (rewrite Ef; by left).
  by apply list_elem_of_filter in Hin as [? _].
Qed.

(** ** Teardown *)

Lemma ended_returns i t m h :
  yields h m (fun _ e h' => h' = h /\ process_ended e i) -> yields h (ended_or o i t m) (fun _ e h' => h' = h /\ process_ended e i).
Proof.
  intros Hm. unfold ended_or. apply yields_try.
  - intros a s r s' [= <- <-]. eauto.
  - intros c. apply yields_ret. split; [done|]. exists t, c. by left.
  - intros f. case_bool_decide; [|apply yields_fail]. eapply yields_mono; [exact Hm|]. cbv beta. intros [] e h' [-> (t' & c & Hc)].
    split; [done|]. exists t', c. by right.
Qed.

Lemma stop_returns adb env i s h :
  yields h (stop_emulator o adb env i s) (fun _ e h' => h' = h /\ asked_to_stop e adb s /\ process_ended e i).
Proof.
  unfold stop_emulator. apply yields_call_then. intros a. eapply yields_mono.
  - apply ended_returns. apply yields_call_then. intros []. eapply yields_mono.
    + apply ended_returns. apply yields_call_then. intros []. apply yields_call_then. intros c. apply yields_ret. split; [done|].
      exists (seconds 10), c. c_in.
    + cbv beta. intros [] e h' [-> (t & c & Hc)]. split; [done|]. exists t, c. by right.
  - cbv beta. intros [] e h' [-> (t & c & Hc)]. split; [done|]. split; [exists env, a; by left|]. exists t, c. by right.
Qed.

Lemma stop_all_returns adb env l : forall h,
  yields h (stop_emulators o adb env l) (fun _ e h' => h' = h /\ Forall (fun x => asked_to_stop e adb x.2 /\ process_ended e x.1) l).
Proof.
  induction l as [|[i s] l IH]; intros h; cbn [stop_emulators]; [apply yields_ret; by split|].
  eapply yields_bind; [apply stop_returns|]. cbv beta. intros [] e1 h1 (-> & (env1 & a & Ha) & t & c & Hc).
  eapply yields_mono; [apply IH|]. cbv beta. intros [] e2 h2 [-> Hl]. split; [done|]. constructor; simpl.
  - split; [exists env1, a; c_in|exists t, c; c_in].
  - eapply Forall_impl; [exact Hl|]. intros [j s'] [(env2 & a2 & ?) (t2 & c2 & ?)]. split; [exists env2, a2; c_in|exists t2, c2; c_in].
Qed.

(** ** The assignment of reports *)

Lemma identified_report e adb n r t s : identified e adb t s -> identified e adb (add_report n r t) s.
Proof. intros H. unfold add_report. case_match; [exact H|done]. Qed.

Lemma add_report_name n r t : tg_name (add_report n r t) = tg_name t.
Proof. unfold add_report. by case_match. Qed.

Lemma add_report_same r t : tg_report (add_report (tg_name t) r t) = Some r.
Proof. unfold add_report. by rewrite bool_decide_eq_true_2. Qed.

Lemma add_report_other n r t : tg_name t <> n -> add_report n r t = t.
Proof. intros H. unfold add_report. by rewrite bool_decide_eq_false_2. Qed.

Lemma assigned_passed e e' p name r t suite counts :
  Event (CParseReport p) (inl suite) ∈ e -> e ⊆ e' -> occurs name (device_label suite) = true -> read_counts COUNT_KEYS suite = Done counts ->
  counts = [(py "tests", 9); (py "failures", 0); (py "errors", 0); (py "skipped", 0)] ->
  tg_name t = name -> r = (device_label suite, counts, saved_name name) -> report_passed e' (add_report name r t) p.
Proof.
  intros He Hs Ho Hr Hc <- ->. exists suite, counts. rewrite add_report_name, add_report_same. split_and!; auto.
Qed.

(** Two reports for two devices give each device its own. *)
Lemma both_assigned e1 e2 e p q n1 n2 t1 t2 l1 l2 :
  e1 ⊆ e -> e2 ⊆ e -> n1 <> n2 -> Forall (fun x => x ∈ [n2; n1]) (avd_name <$> AVDS) ->
  tg_name t1 = py "Medium_Phone" -> tg_name t2 = py "Pixel_9" ->
  assigned e1 p n1 [t1; t2] l1 -> assigned e2 q n2 l1 l2 ->
  exists u1 u2, l2 = [u1; u2] /\ (exists n r, u1 = add_report n r t1) /\ (exists n r, u2 = add_report n r t2) /\
    ((report_passed e u1 p /\ report_passed e u2 q) \/ (report_passed e u1 q /\ report_passed e u2 p)).
Proof.
  intros S1 S2 Hn Hall N1 N2 (suite1 & c1 & E1 & O1 & R1 & C1 & ->) (suite2 & c2 & E2 & O2 & R2 & C2 & ->).
  assert (py "Medium_Phone" <> py "Pixel_9") as Hd by (eapply bool_decide_unpack; vm_compute; exact I).
  cbn [fmap list_fmap].
  destruct (two_names n2 n1 (not_eq_sym Hn) Hall) as [[-> ->]|[-> ->]].
  - rewrite (add_report_other (py "Pixel_9") _ t1) by congruence. rewrite (add_report_other (py "Medium_Phone") _ (add_report _ _ t2)) by (rewrite add_report_name; congruence).
    eexists _, _. split; [reflexivity|]. split; [by eexists _, _|]. split; [by eexists _, _|]. right. split; by eapply assigned_passed.
  - rewrite (add_report_other (py "Medium_Phone") _ t2) by congruence. rewrite (add_report_other (py "Pixel_9") _ (add_report _ _ t1)) by (rewrite add_report_name; congruence).
    eexists _, _. split; [reflexivity|]. split; [by eexists _, _|]. split; [by eexists _, _|]. left. split; by eapply assigned_passed.
Qed.

(** ** The run *)

Lemma same_members (l m : list pystr) :
  negb (forallb (fun x => bool_decide (x ∈ m)) l && forallb (fun x => bool_decide (x ∈ l)) m) = false -> forall x, x ∈ l <-> x ∈ m.
Proof.
  rewrite negb_false_iff, andb_true_iff, !forallb_forall. intros [H1 H2] x. rewrite !list_elem_of_In. split; intros Hx.
  - specialize (H1 x Hx). apply bool_decide_eq_true in H1. by apply list_elem_of_In.
  - specialize (H2 x Hx). apply bool_decide_eq_true in H2. by apply list_elem_of_In.
Qed.

Lemma conform_returns rounds u :
  yields (MkConformance [] []) (conform o ROOT rounds u) (fun code e h' => code = 0 /\ recorded ROOT (su_adb u) e /\ cf_processes h' = AVDS).
Proof.
  unfold conform. cbv zeta. eapply yields_bind; [apply start_returns|]. cbv beta. intros [] e1 h1 [-> Hst]. apply yields_get_then.
  eapply yields_bind; [apply identify_all_returns|]. cbv beta. intros [] e2 h2 (l & Hl & ->). cbn [cf_processes cf_targets app].
  eapply yields_bind; [apply execute_returns|]. cbv beta. intros attached e3 h3 (-> & listing & -> & ->). apply yields_stop. intros Hser.
  pose proof (same_members _ _ Hser) as Hser'. clear Hser. apply yields_call_then. intros u1. apply yields_call_then. intros previous.
  apply yields_call_then. intros [code out]. apply yields_call_then. intros u2. apply yields_call_then. intros u3.
  destruct (Z.eqb_spec code 0) as [->|]; cbn [negb]; [|apply yields_fail]. apply yields_call_then. intros current. apply yields_stop. intros Hlen.
  pose proof (selected_distinct previous current) as Hnd. apply negb_false_iff, Nat.eqb_eq in Hlen.
  destruct (selected_reports previous current) as [|p [|q [|]]] eqn:Hsel; try discriminate Hlen. cbn [take_reports].
  apply NoDup_cons in Hnd as [Hpq _]. assert (p <> q) as Hne by (intros ->; apply Hpq; by left). apply yields_assoc.
  eapply yields_bind; [apply take_report_returns|]. cbv beta. intros m1 e4 h4 (n1 & l1 & -> & _ & A1 & ->). apply yields_assoc.
  eapply yields_bind; [apply take_report_returns|]. cbv beta. intros m2 e5 h5 (n2 & l2 & -> & Hn & A2 & ->). apply yields_ret_then.
  apply yields_stop. intros Hall. pose proof (same_members _ _ Hall) as Hall'. clear Hall. apply yields_call_then. intros generated.
  eapply (yields_skip allowed False); [done|apply run_quiet|]. intros commit e6. eapply (yields_skip allowed False); [done|apply run_quiet|]. intros branch e7.
  eapply (yields_skip allowed False); [done|apply run_quiet|]. intros status e8. apply yields_get_then, yields_call_then. intros []. apply yields_call_then. intros [].
  apply yields_ret. split; [done|]. split; [|done]. cbn [cf_targets] in *. apply Forall2_cons_inv_r in Hl as (t1 & l' & H1 & Hl & ->).
  apply Forall2_cons_inv_r in Hl as (t2 & l'' & H2 & Hl & ->). apply Forall2_nil_inv_r in Hl as ->.
  unfold recorded. match goal with |- context [Event (Execute invocation ?v ?w) ?a :: ?e] => set (ev := Event (Execute invocation v w) a); set (after := e) end.
  assert (e4 ⊆ after /\ e5 ⊆ after) as (S4 & S5) by (subst after; split_and!; c_sub).
  destruct (both_assigned e4 e5 after p q n1 n2 t1 t2 l1 l2) as (x1 & x2 & -> & (m1 & r1 & ->) & (m2 & r2 & ->) & Hrep); try done.
  { intros ->. apply Hn. by left. }
  { apply Forall_forall. intros x Hx. by apply Hall'. }
  { apply H1. } { apply H2. }
  eexists (e1 ++ e2 ++ _ :: _ :: [Event _ (inl previous)]), (su_env u), out, after, (add_report m1 r1 t1), (add_report m2 r2 t2), previous.
  split; [by rewrite <-!app_assoc|]. split.
  - exists (su_env u), listing. split_and!; try done; try c_in.
    + eapply Forall_impl; [exact Hst|]. intros s. apply started_sub. c_sub.
    + apply Forall2_cons_2; [|apply Forall2_cons_2; [|done]]; apply identified_report; (eapply device_identified_sub; [|done]; c_sub).
  - destruct Hrep as [[? ?]|[? ?]]; [exists current, p, q|exists current, q, p]; rewrite Hsel;
      eexists _, (MkSummary generated commit branch status (su_java_version u) (path_str (su_jdk u)) (path_str (su_sdk u)) (su_packages u) (shlex_join invocation) _);
      split_and!; try done; try (subst after; c_in); auto; c_in.
Qed.

Lemma find_jdk_quiet short candidates : plain allowed (fun c => c) short (find_jdk o candidates).
Proof. induction candidates as [|c l IH]; cbn [find_jdk]; quiet_tac; apply IH. Qed.

Lemma properties_quiet short p : plain allowed (fun c => c) short (properties o p).
Proof. unfold properties. quiet_tac. Qed.

Lemma metadata_quiet short sdk home specs : plain allowed (fun c => c) short (all_metadata o sdk home specs).
Proof.
  induction specs as [|s l IH]; cbn [all_metadata]; quiet_tac; [|apply IH]. unfold avd_metadata. quiet_tac; apply properties_quiet.
Qed.

Lemma prepare_quiet short : plain allowed (fun c => c) short (prepare o ROOT).
Proof.
  unfold prepare, variable, jdk17, package_property. quiet_tac;
    first [apply find_jdk_quiet|apply properties_quiet|apply metadata_quiet|apply run_quiet|idtac].
  unfold variable. quiet_tac.
Qed.

Lemma ended_both e adb : Forall (fun x : nat * avd => asked_to_stop e adb x.2 /\ process_ended e x.1) (numbered AVDS) ->
  Forall (asked_to_stop e adb) AVDS /\ process_ended e 0 /\ process_ended e 1.
Proof.
  intros H. apply Forall_cons in H as [[A1 E1] H]. apply Forall_cons in H as [[A0 E0] _]. split_and!; [|done|done].
  by repeat (apply Forall_cons_2; [done|]).
Qed.

Lemma recorded_later adb e0 e : recorded ROOT adb e -> recorded ROOT adb (e0 ++ e).
Proof.
  intros (before & env & out & after & t1 & t2 & previous & -> & (env' & listing & Hst & Hid & ? & ? & ?) & Hr).
  exists (e0 ++ before), env, out, after, t1, t2, previous. split; [by rewrite app_assoc|]. split; [|done].
  exists env', listing. split_and!; try done; try c_in.
  - eapply Forall_impl; [exact Hst|]. intros s. apply started_sub. c_sub.
  - eapply Forall2_impl; [exact Hid|]. intros t s. apply device_identified_sub. c_sub.
Qed.

Lemma main_returns rounds h : yields h (main o ROOT rounds) (fun code e _ => code = 0 /\ conformant ROOT e).
Proof.
  unfold main. eapply (yields_skip allowed False); [done|apply prepare_quiet|]. intros u e0. apply yields_update_then.
  eapply yields_attempt; [apply conform_returns| |].
  - cbv beta. intros code e1 h1 (Hcode & Hr & Hp). apply yields_get_then. rewrite Hp. eapply yields_bind; [apply stop_all_returns|]. cbv beta.
    intros [] e2 h2 [-> Hs]. apply ended_both in Hs as (Ha & (t0 & c0 & H0) & t1 & c1 & H1). apply yields_ret. split; [done|].
    exists (su_adb u), (e0 ++ e1), e2. rewrite app_nil_r, <-app_assoc. split; [done|]. split; [by apply recorded_later|].
    split; [done|]. split; [by exists t0, c0|by exists t1, c1].
  - intros f. apply never_bind. intros c. apply never_bind. intros []. apply never_lift.
Qed.
End Yields.

(** * Termination *)

Section Ends.
Context (o : oracle crequest) (ROOT : path).

Definition conformance_clock (tick : Z) : Prop := forall tr t, Event CClock t ∈ tr -> t + tick <= o Z tr CClock.

(** Too few rounds for the six minutes a device has to boot. *)
Definition boot_short (rounds : nat) : Prop := forall tick, 0 < tick -> conformance_clock tick -> Z.of_nat rounds * tick <= seconds 360.

Lemma wait_loop_ends adb serial process name log env deadline n : forall last s,
  obeys allowed (h_trace s) -> Event CClock last ∈ h_trace s ->
  hwp (wait_loop o n adb serial process name log env deadline)
    (fun r s' => kept allowed (fun c => c) s s' /\ (r = Stuck -> late conformance_clock n last deadline)) s.
Proof.
  induction n as [|n IH]; intros last s Ho Hl; cbn [wait_loop].
  { apply hwp_lift. split; [by apply kept_here|]. intros _ tick _. by left. }
  apply hwp_bind, hwp_ask. intros now Enow. set (s1 := Host _ _). assert (kept allowed (fun c => c) s s1) as K1 by (by apply kept_log).
  assert (forall tick, conformance_clock tick -> last + tick <= now) as Hadv by (intros tick Ht; rewrite Enow; by apply Ht).
  assert (Event CClock now ∈ h_trace s1) as Hc1 by (apply elem_of_app; right; by left).
  destruct (Z.ltb_spec now deadline) as [Hn|]; [|apply hwp_lift; by split]. cbn [negb].
  assert (forall s', kept allowed (fun c => c) s1 s' ->
    hwp (wait_loop o n adb serial process name log env deadline)
      (fun r s'' => kept allowed (fun c => c) s s'' /\ (r = Stuck -> late conformance_clock (S n) last deadline)) s') as Hloop.
  { intros s' Hs'. eapply hwp_mono; [apply (IH now s'); [apply Hs'|destruct Hs' as (_ & (e & ->) & _); apply elem_of_app; by left]|].
    intros r s'' [Hk Hlate]. split; [by do 2 (eapply kept_compose; [eassumption|])|]. intros Er. eapply late_step; [done|done|auto]. }
  assert (forall e s', kept allowed (fun c => c) s1 s' -> kept allowed (fun c => c) s s' /\ (@Failed unit e = Stuck -> late conformance_clock (S n) last deadline)) as Hfail
    by (intros e s' K; split; [by eapply kept_compose|done]).
  assert (kept allowed (fun c => c) s1 s1) as K11 by (apply kept_here, K1).
  eapply (plain_then _ _ False _ _ _ _ _ K11); [by apply plain_ask|exact (fun x => x)| |auto]. intros exited s2 K2 _.
  destruct exited; [by apply hwp_lift, Hfail|].
  eapply (plain_then _ _ False _ _ _ _ _ K2); [by apply plain_call|exact (fun x => x)| |auto]. intros [code state] s3 K3 _.
  eapply (plain_then _ _ False _ _ _ _ _ K3); [quiet_tac|exact (fun x => x)| |auto]. intros booted s4 K4 _.
  destruct booted; [apply hwp_ret; split; [by eapply kept_compose|done]|].
  eapply (plain_then _ _ False _ _ _ _ _ K4); [quiet_tac|exact (fun x => x)| |auto]. intros [] s5 K5 _. by apply Hloop.
Qed.

Lemma wait_ends rounds adb serial process name log env : plain allowed (fun c => c) (boot_short rounds) (wait_for_device o rounds adb serial process name log env).
Proof.
  intros s Ho. apply hwp_bind, hwp_ask. intros now _. set (s1 := Host _ _). assert (kept allowed (fun c => c) s s1) as K1 by (by apply kept_log).
  eapply hwp_mono; [apply (wait_loop_ends _ _ _ _ _ _ (now + seconds 360) rounds now s1); [apply K1|apply elem_of_app; right; by left]|].
  intros r s' [K Hlate]. split; [by eapply kept_compose|]. intros Er tick Ht Hc. destruct (Hlate Er tick Hc) as [-> |]; [|lia]. simpl. by vm_compute.
Qed.

(** Everything else has no loop of its own. *)
Abbreviation unit_view := (fun _ : conformance => tt).

Lemma view_unit {A} short (m : prog crequest conformance A) : plain allowed (fun c => c) short m -> plain allowed unit_view short m.
Proof. by apply (plain_weaken _ (fun c : conformance => c) unit_view _ _ (fun _ => tt)). Qed.

Ltac ends_tac := repeat first [progress quiet_tac | by apply plain_update | apply view_unit, run_quiet].

Lemma read_counts_total keys suite : read_counts keys suite <> Stuck.
Proof. induction keys as [|k l IH]; simpl; [done|]. destruct (py_int _); [|done]. by destruct (read_counts l suite). Qed.

Lemma conform_ends rounds u : plain allowed unit_view (boot_short rounds) (conform o ROOT rounds u).
Proof.
  assert (forall specs emulator dir env, plain allowed unit_view (boot_short rounds) (start_emulators o emulator dir env specs)) as Hstart.
  { intros specs emulator dir env. induction specs as [|s l IH]; cbn [start_emulators]; ends_tac. apply IH. }
  assert (forall specs adb dir env images i, plain allowed unit_view (boot_short rounds) (identify_all o rounds adb dir env images i specs)) as Hid.
  { intros specs adb dir env images. induction specs as [|s l IH]; intros i; cbn [identify_all]; [ends_tac|].
    apply plain_seq; [|intros []; apply IH]. unfold identify, prop. apply plain_seq; [apply view_unit, wait_ends|]. intros []. ends_tac. }
  assert (forall reports dir matched, plain allowed unit_view (boot_short rounds) (take_reports o dir matched reports)) as Htake.
  { intros reports dir. induction reports as [|p l IH]; intros matched; cbn [take_reports]; [ends_tac|].
    apply plain_seq; [|intros m; apply IH]. unfold take_report. ends_tac. apply plain_lift, read_counts_total. }
  unfold conform. ends_tac; first [apply Hstart|apply Hid|apply Htake].
Qed.

Lemma stop_ends adb env l short : plain allowed unit_view short (stop_emulators o adb env l).
Proof.
  assert (forall i t m, plain allowed unit_view short m -> plain allowed unit_view short (ended_or o i t m)) as Hor.
  { intros i t m Hm. unfold ended_or. apply plain_catch; [ends_tac|]. intros e. case_match; [done|by apply plain_lift]. }
  induction l as [|[i s] l IH]; cbn [stop_emulators]; [ends_tac|]. apply plain_seq; [|intros []; apply IH]. unfold stop_emulator. ends_tac.
  apply Hor. ends_tac. apply Hor. ends_tac.
Qed.

Lemma main_ends rounds : plain allowed unit_view (boot_short rounds) (main o ROOT rounds).
Proof.
  unfold main. apply plain_seq; [apply view_unit, prepare_quiet|]. intros u. apply plain_seq; [by apply plain_update|]. intros [].
  apply plain_seq; [apply plain_attempt, conform_ends|]. intros r. apply plain_seq; [apply plain_get|]. intros c.
  apply plain_seq; [apply stop_ends|]. intros []. destruct r; [apply plain_ret|by apply plain_lift].
Qed.
End Ends.

(** C40. On a clock that advances by [tick] between readings, the conformance run with enough rounds
    for the six minutes a device has to boot ends; and if it returns, then it returns 0 and its
    events have this shape.  Before the one Gradle command, which exited with status 0: the
    emulators of the two approved AVDs were started; each device said that it had booted and gave
    its own AVD name, API level, ABI and release, which are the approved ones, and a build
    fingerprint; and these two were the only devices attached.  After the command: two different
    reports among those selected from the two listings of the report directory, one naming each
    device, count nine tests without failures, errors or skips; and the manifest was written with
    exactly these two devices, described by their own answers.  Last, both emulators were told to
    stop and their processes ended. *)
Theorem conformance_exit o ROOT rounds h tick :
  0 < tick -> conformance_clock o tick -> seconds 360 < Z.of_nat rounds * tick ->
  let run := main o ROOT rounds (Host [] h) in
  run.1 <> Stuck /\ forall code, run.1 = Done code -> code = 0 /\ conformant ROOT (h_trace run.2).
Proof.
  intros Ht Hc Hr run. split.
  - intros E. destruct (main_ends o ROOT rounds (Host [] h)) as [_ Hs]; [by intros pre e post _|]. specialize (Hs E tick Ht Hc). lia.
  - intros code E. assert (run = (Done code, run.2)) as Er by (rewrite <-E; apply surjective_pairing).
    destruct (main_returns o ROOT rounds h _ _ _ Er) as (e & -> & He). done.
Qed.

Definition line_of (key : string) (value : pystr) : pystr := py key ++ py "=" ++ value ++ [10].

(** The metadata of the device a path belongs to. *)
Definition demo_metadata (p : path) : pystr :=
  let text := path_str p in
  let s := nth (if occurs (py "Pixel_9") text || occurs (py "android-37.2") text then 1 else 0)%nat AVDS (MkAvd [] 0 0 [] [] [] []) in
  line_of "image.sysdir.1" (avd_image s ++ py "/") ++ line_of "abi.type" (avd_abi s) ++
  line_of "AndroidVersion.ApiLevel" (avd_image_api s) ++ line_of "Pkg.Revision" (py "1").

(** The latest clock reading, and the emulators started. *)
Definition demo_clock_step (m : Z) (e : cev) : Z :=
  match e with Event q a => match q in crequest R return R -> Z with CClock => fun t => Z.max t m | _ => fun _ => m end a end.
Definition demo_now (tr : list cev) : Z := foldl demo_clock_step 0 tr.

Definition is_popen (e : cev) : bool := match e with Event q _ => match q with CPopen _ _ _ => true | _ => false end end.
Definition is_stop (e : cev) : bool :=
  match e with Event q _ => match q with Execute command _ _ => bool_decide (py "kill" ∈ command) | _ => false end end.

Definition demo_execute (tr : list cev) (command : list pystr) : pystr :=
  let s := nth (if bool_decide (py "emulator-5556" ∈ command) then 1 else 0)%nat AVDS (MkAvd [] 0 0 [] [] [] []) in
  if bool_decide (py "-version" ∈ command) then py "openjdk version " ++ [34] ++ py "17.0.2" ++ [34; 10]
  else if bool_decide (py "devices" ∈ command) then
    py "List of devices attached" ++ [10] ++
    (if existsb is_popen tr then py "emulator-5554 device" ++ [10] ++ py "emulator-5556 device" ++ [10] else [])
  else if bool_decide (py "get-state" ∈ command) then py "device" ++ [10]
  else if bool_decide (py "sys.boot_completed" ∈ command) then py "1" ++ [10]
  else if bool_decide (py "avd" ∈ command) then avd_name s ++ [10] ++ py "OK" ++ [10]
  else if bool_decide (py "ro.build.version.sdk" ∈ command) then int_str (avd_api s) ++ [10]
  else if bool_decide (py "ro.product.cpu.abi" ∈ command) then avd_abi s ++ [10]
  else if bool_decide (py "ro.build.version.release" ∈ command) then avd_release s ++ [10]
  else py "x" ++ [10].

Definition demo_suite (name : pystr) : element :=
  Element (py "testsuite") [(py "tests", py "9"); (py "failures", py "0"); (py "errors", py "0"); (py "skipped", py "0")]
    [Element (py "properties") [] [Element (py "property") [(py "name", py "device"); (py "value", name)] []]].

(** [hangs]: the command that stops an emulator does not return in time. *)
Definition conformance_oracle (hangs : bool) : oracle crequest := fun R tr q =>
  match q in crequest R return R with
  | CEnviron => ∅
  | CHome => inl (Path (py "/home/user"))
  | CIsFile _ => inl true
  | CReadText p => inl (demo_metadata p)
  | Execute command _ _ =>
      if hangs && bool_decide (py "kill" ∈ command) then inr (Fault TimeoutExpired [] []) else inl (0, demo_execute tr command)
  | Stamp => inl (py "20260101T000000Z")
  | NowIso => inl (py "2026-01-01T00:00:00+00:00")
  | CMkdir _ => inl tt
  | OpenLog _ => inl tt
  | CPopen _ _ _ => inl tt
  | CPoll _ => None
  | CWait _ _ => inl 0
  | CTerminate _ => inl tt
  | CKill _ => inl tt
  | Sleep _ => inl tt
  | CClock => demo_now tr + seconds 1
  | GlobXml root => inl [child root (py "TEST-a.xml"); child root (py "TEST-b.xml")]
  | CParseReport p => inl (demo_suite (if occurs (py "TEST-a") (path_str p) then py "Medium_Phone - 8.0.0" else py "Pixel_9 - 17"))
  | CopyFile _ _ => inl tt
  | WriteText _ _ => inl tt
  | WriteSummary _ _ => inl tt
  | CPrint _ => inl tt
  end.

Definition conformance_root : path := Path (py "/home/user/decent-wallet").

Abbreviation conformance_demo hangs := (main (conformance_oracle hangs) conformance_root 361 (Host [] (MkConformance [] []))).

(** The reports are the same two files before and after the Gradle run, and are accepted. *)
Lemma old_reports_accepted : (conformance_demo false).1 = Done 0.
Proof. vm_compute. reflexivity. Qed.

Lemma demo_now_bound tr : forall m, m <= foldl demo_clock_step m tr /\ forall t, Event CClock t ∈ tr -> t <= foldl demo_clock_step m tr.
Proof.
  induction tr as [|e tr IH]; intros m; [split; [done|by intros t ?%not_elem_of_nil]|]. cbn [foldl]. destruct (IH (demo_clock_step m e)) as [H1 H2].
  assert (m <= demo_clock_step m e /\ forall t, e = Event CClock t -> t <= demo_clock_step m e) as [K1 K2].
  { split; [destruct e as [R [] a]; simpl; lia|]. intros t ->. simpl. lia. }
  split; [lia|]. intros t [Ee|Hin]%elem_of_cons; [specialize (K2 t (eq_sym Ee)); lia|auto].
Qed.

Lemma conformance_demo_clock hangs : conformance_clock (conformance_oracle hangs) (seconds 1).
Proof. intros tr t H. simpl. unfold demo_now. destruct (demo_now_bound tr 0) as [_ Hc]. specialize (Hc t H). lia. Qed.

Lemma conformance_exit_witness : 0 = 0 /\ conformant conformance_root (h_trace (conformance_demo false).2).
Proof.
  refine (proj2 (conformance_exit (conformance_oracle false) conformance_root 361 (MkConformance [] []) (seconds 1) _ (conformance_demo_clock false) _)
    0 old_reports_accepted); vm_compute; reflexivity.
Defined.

(** Two emulators are started; the command that stops the second hangs, and the first is never
    told to stop. *)
Example emulator_left_running :
  length (base.filter (fun e => is_popen e = true) (h_trace (conformance_demo true).2)) = 2%nat /\
  length (base.filter (fun e => is_stop e = true) (h_trace (conformance_demo true).2)) = 1%nat.
Proof. vm_compute. split; reflexivity. Qed.
