(* ===== verification/Instances.v ===== *)
(** A concrete signature scheme that satisfies the Ed25519 laws, sample
    identities built with it, and the theorems on pure definitions applied to them. *)

From S2P Require Import Prelude PyVal Sha256 Interfaces CborCodec SignedUpdate Envelope EnvelopeFacts Chain Draft DraftFacts Finalize.

Open Scope Z_scope.

(** * A signature scheme *)

(** The message cut or padded to 32 bytes. *)
Definition tag (m : bytes) : bytes := take 32 (m ++ replicate 32 Byte.x00).

Definition toy_public (seed : bytes) : bytes := (fun b => byte_of_Z ((byteZ b + 1) mod 256)) <$> seed.

#[export] Instance toy_ed25519 : Ed25519 := {
  ed_public seed := if (length seed =? 32)%nat then Some (toy_public seed) else None;
  ed_sign seed m := toy_public seed ++ tag m;
  ed_verify pk sig m := bool_decide (sig = pk ++ tag m);
}.

Lemma tag_length m : length (tag m) = 32%nat.
Proof. unfold tag. rewrite length_take, length_app, length_replicate. lia. Qed.

#[export] Instance toy_ed25519_laws : Ed25519Laws.
Proof.
  constructor; simpl.
  - intros seed ->. eauto.
  - intros seed pk. destruct (Nat.eqb_spec (length seed) 32); [done|done].
  - intros seed pk. destruct (Nat.eqb_spec (length seed) 32); [|done]. intros [= <-].
    unfold toy_public. by rewrite length_fmap.
  - intros seed m Hs. unfold toy_public. rewrite length_app, tag_length, length_fmap. lia.
  - intros seed pk m. destruct (length seed =? 32)%nat; [|done]. intros [= <-]. by apply bool_decide_eq_true.
Qed.

(** * Sample identities *)

Module Sample.

Definition unwrap {A} (d : A) (r : res A) : A := match r with Ok a => a | Err _ => d end.

Definition owner : bytes := byte_of_Z <$> py "alice".
Definition seed (n : Z) : bytes := replicate 32 (byte_of_Z n).
Definition key (n : Z) : bytes := toy_public (seed n).
Definition signers : list (pystr * bytes) := [(py "a", key 1); (py "b", key 2); (py "c", key 3)].

Definition update (k : bytes) (seq : Z) (a : option authorization) : bytes :=
  unwrap [] (build_identity_update (PBytes owner) (PBytes k) (PInt seq) (auth_items <$> a)).
Definition sign (n : Z) (u : bytes) : bytes := ed_sign (seed n) (sha256 u).
Definition envelope (u : bytes) (signed_by : list (Z * pystr)) : bytes :=
  unwrap [] (_canonical (envelope_value u ((fun s => (Some s.2, sign s.1 u)) <$> signed_by))).

Definition no_state : identity_state := IdentityState [] [] 0 [] [] [] None None [] [].
Definition state (env : bytes) (prev : option identity_state) : identity_state :=
  unwrap no_state (_parse_identity_envelope owner (PBytes env) prev).

(** A governed identity: genesis and an ordinary update signed by two of three. *)
Definition genesis_auth : authorization := Authorization 1 1 2 signers zero_hash.
Definition genesis_update : bytes := Eval vm_compute in update (key 1) 1 (Some genesis_auth).
Definition genesis_envelope : bytes := Eval vm_compute in envelope genesis_update [(1, py "a"); (2, py "b")].
Definition genesis : identity_state := Eval vm_compute in state genesis_envelope None.
Definition next_auth : authorization := Authorization 2 1 2 signers (st_state_hash genesis).
Definition next_update : bytes := Eval vm_compute in update (key 1) 2 (Some next_auth).
Definition next_envelope : bytes := Eval vm_compute in envelope next_update [(2, py "b"); (3, py "c")].
Definition next : identity_state := Eval vm_compute in state next_envelope (Some genesis).

(** A legacy identity. *)
Definition legacy_update : bytes := Eval vm_compute in update (key 1) 1 None.
Definition legacy_envelope : bytes :=
  Eval vm_compute in unwrap [] (_legacy_envelope legacy_update (sign 1 legacy_update)).
Definition legacy : identity_state := Eval vm_compute in state legacy_envelope None.

(** A rotation of the legacy identity whose new owner key is a CBOR array. *)
Definition rotation_auth : authorization := Authorization 5 1 2 signers (st_state_hash legacy).
Definition odd_update : bytes :=
  Eval vm_compute in
  unwrap [] (_canonical (py_dict [(1, py_dict [(1, PBytes owner); (2, PList [])]); (2, PDict []); (3, PInt 2);
                                  (4, auth_to_py rotation_auth)])).
Definition odd_envelope : bytes :=
  Eval vm_compute in
  unwrap [] (_canonical (py_dict [(1, PInt 1); (2, PBytes odd_update); (3, PList [])])).

(** A genesis bundle with two proofs, and its two halves. *)
Definition draft : identity_draft := MkDraft genesis_update None [].
Definition proof (n : Z) (id : pystr) : identity_proof := MkProof (Some id) (key n) (sign n genesis_update).
Definition bundle : identity_bundle := MkBundle draft [proof 1 (py "a"); proof 2 (py "b")].
Definition bundle_a : identity_bundle := MkBundle draft [proof 1 (py "a")].
Definition bundle_b : identity_bundle := MkBundle draft [proof 2 (py "b")].
Definition bundle_c : identity_bundle := MkBundle draft [proof 3 (py "c")].
End Sample.

Import Sample.

Lemma build_decode_roundtrip_witness : exists s' a,
  PInt 1 = PInt s' /\
  _decode_signed_update (PBytes genesis_update) = Ok (SignedUpdate (PBytes owner) (PBytes (key 1)) [] s' a) /\
  exists a', _validate_authorization (PDict (auth_items genesis_auth)) = Ok a' /\ a = Some a'.
Proof.
  apply (build_decode_roundtrip (PBytes owner) (PBytes (key 1)) (PInt 1) (Some (auth_items genesis_auth))
    genesis_update).
  vm_compute. reflexivity.
Defined.

Lemma genesis_parsed : _parse_identity_envelope owner (PBytes genesis_envelope) None = Ok genesis.
Proof. vm_compute. reflexivity. Qed.

Lemma next_parsed : _parse_identity_envelope owner (PBytes next_envelope) (Some genesis) = Ok next.
Proof. vm_compute. reflexivity. Qed.

Lemma parse_sound_witness :
  _parse_identity_envelope owner (PBytes next_envelope) (Some genesis) = Ok next /\ accepted (Some genesis) next.
Proof.
  split; [exact next_parsed|].
  destruct (parse_sound owner (PBytes next_envelope) (Some genesis) next next_parsed) as [Ha _]. exact Ha.
Defined.

Lemma history_governed_witness :
  (exists l, chain (genesis :: l) /\ st_envelope_bytes <$> l = []) /\ quorum (st_signer_set genesis) 2 (st_signed_update_bytes next).
Proof.
  destruct (history_governed owner (PBytes genesis_envelope) [] genesis) as [(l & Hc & He & _) Hq].
  - unfold _parse_previous_state_chain. cbn [rev app parse_chain res_bind]. rewrite genesis_parsed. reflexivity.
  - split; [exists l; split; [exact Hc|exact He]|]. exact (proj1 (Hq eq_refl _ _ next_parsed eq_refl)).
Defined.

Lemma parse_errors_witness :
  TypeError = InvalidIdentityState \/ TypeError = InvalidIdentityRequest \/
  (TypeError = TypeError /\ exists p, Some legacy = Some p /\ is_legacy p = true).
Proof. apply (parse_errors owner (PBytes odd_envelope) (Some legacy)). vm_compute. reflexivity. Defined.

Lemma unhashable_owner_key_sample :
  _parse_identity_envelope owner (PBytes odd_envelope) (Some legacy) = Err TypeError.
Proof.
  apply (unhashable_owner_key_raises_type_error owner odd_envelope odd_update (PList []) (PBytes owner)
    (PList []) 2 rotation_auth legacy); try (vm_compute; reflexivity).
  - split; vm_compute; reflexivity.
  - split; [|split]; vm_compute; reflexivity.
Qed.

Lemma sample_proof_ok n s :
  s <> [] -> utf8_encode s = Some (byte_of_Z <$> s) -> (length s <= 256)%nat -> proof_ok (proof n s).
Proof.
  intros Hs He Hl.
  assert (length (key n) = 32%nat) as Hk by (unfold key, toy_public, seed; by rewrite length_fmap, length_replicate).
  constructor; [|exact Hk|].
  - intros ? [= <-]. split; [done|]. eexists. split; [done|]. by rewrite length_fmap.
  - unfold proof, sign. cbn [proof_signature]. apply ed_sign_length. apply length_replicate.
Qed.

Lemma sample_draft_wf : wf_draft draft.
Proof. vm_compute. reflexivity. Qed.

Ltac sample_bundle_wf :=
  constructor;
  [ exact sample_draft_wf
  | repeat (apply Forall_cons_2; [apply sample_proof_ok; [done|reflexivity|simpl; lia]|]); apply Forall_nil_2
  | apply sort_by_fixed; vm_compute; reflexivity
  | refine (bool_decide_eq_true_1 _ _); vm_compute; reflexivity ].

Lemma bundle_roundtrip_witness :
  exists data, bundle_to_cbor bundle = Ok data /\ bundle_from_cbor (PBytes data) = Ok bundle.
Proof. apply bundle_roundtrip. sample_bundle_wf. Defined.

Lemma merge_algebra_witness :
  merge bundle_b bundle_a = Ok bundle /\ merge bundle_a bundle_b = merge bundle_b bundle_a.
Proof.
  split; [vm_compute; reflexivity|].
  destruct (merge_algebra bundle_a bundle_b bundle_c) as [Hm _]; [sample_bundle_wf..|exact Hm].
Defined.

Lemma finalize_exact_witness :
  exists f, draft_view draft = Ok f /\ finalize bundle = Ok genesis_envelope /\
    authorizes f None genesis_update (bundle_proofs bundle).
Proof.
  destruct (finalize_exact bundle) as (f & prev & Hf & Hp & _ & Hi); [sample_bundle_wf|].
  exists f. split; [exact Hf|]. assert (finalize bundle = Ok genesis_envelope) as He by (vm_compute; reflexivity).
  split; [exact He|]. assert (prev = None) as -> by (vm_compute in Hp; congruence). exact (Hi _ He).
Defined.
