(* ===== verification/Scenarios.v ===== *)
(** Concrete runs of the adapter and the signer: a small registry, clock, consent
    handler and process state that answer the adapter's events, and the theorems on
    effectful code applied to the runs. *)

From S2P Require Import Prelude PyVal Sha256 Interfaces CborCodec SignedUpdate Envelope EnvelopeFacts Chain Draft DraftFacts Finalize Consent Rotation Effects Adapter Publish Dispatch ReadFacts Discipline Outcomes Concurrency OneUse Signer SignerFacts Instances.

Import Sample.

Open Scope Z_scope.

(** * A world that answers events *)

Record world := World {
  w_now : Z;
  w_current : pyval;                    (* the owner's current envelope, or None *)
  w_history : list (bytes * bytes);     (* state hash, envelope *)
  w_latches : latches;
  w_consumed_nonces : gset bytes;
  w_cells : gset Z;
  w_next_cell : Z;
}.

Definition lab : pystr := py "lab".

Definition lookup_hash (h : bytes) (l : list (bytes * bytes)) : pyval :=
  match list_find (fun e => e.1 = h) l with Some (_, e) => PBytes e.2 | None => PNone end.

Definition answer (B : Set) (w : world) (ev : event B) : res B * world :=
  match ev in event B return res B * world with
  | Now => (Ok (w_now w), w)
  | GetEnvelope _ | GetRemoteEnvelope _ => (Ok (w_current w), w)
  | GetEnvelopeByHash _ h => (Ok (lookup_hash h (w_history w)), w)
  | PutEnvelope _ e _ x =>
      if x <=? w_now w then (Err ExpiredPublication, w)
      else (Ok tt, World (w_now w) (PBytes e) (w_history w) (w_latches w) (w_consumed_nonces w) (w_cells w) (w_next_cell w))
  | TransportEnvironment => (Ok (Some (PStr lab)), w)
  | SupportsRotation => (Ok (PBool true), w)
  | HasRemoteRead => (Ok true, w)
  | Consent _ => (Ok (PStr (py "approved")), w)
  | ConsumeNonce k =>
      let r := consume (w_consumed_nonces w) k in
      (Ok r.1, World (w_now w) (w_current w) (w_history w) (w_latches w) r.2 (w_cells w) (w_next_cell w))
  | SignerCreate | SignerInvalidate | AcquireOwner _ | ReleaseOwner _ => (Ok tt, w)
  | SignerPublicKey => (Ok (PBytes (key 1)), w)
  | SignerActive => (Ok true, w)
  | SignerSign u => (Ok (PBytes (sign 1 u)), w)
  | IsOwnerLatched o => (Ok (is_owner_latched (w_latches w) o), w)
  | IsLatched b => (Ok (is_latched (w_latches w) b), w)
  | IsDispatchReady b => (Ok (is_dispatch_ready (w_latches w) b), w)
  | Register b ready =>
      let r := register (w_latches w) b ready in
      (Ok r.1, World (w_now w) (w_current w) (w_history w) r.2 (w_consumed_nonces w) (w_cells w) (w_next_cell w))
  | Clear b =>
      let r := clear (w_latches w) b in
      (Ok r.1, World (w_now w) (w_current w) (w_history w) r.2 (w_consumed_nonces w) (w_cells w) (w_next_cell w))
  | NewCell =>
      (Ok (w_next_cell w), World (w_now w) (w_current w) (w_history w) (w_latches w) (w_consumed_nonces w) (w_cells w)
                             (w_next_cell w + 1))
  | ConsumeCell c =>
      (Ok (negb (bool_decide (c ∈ w_cells w))),
       World (w_now w) (w_current w) (w_history w) (w_latches w) (w_consumed_nonces w) ({[c]} ∪ w_cells w) (w_next_cell w))
  end.

Lemma answer_internal B w (ev : event B) : internal_answered (MkStep ev (answer B w ev).1).
Proof. destruct ev; cbn; try done; eauto. Qed.

Lemma run_internal {A} w (p : prog A) : Forall internal_answered (run answer w p).2.
Proof.
  revert w. induction p as [a|e|B ev c IH]; intros w; cbn [run]; [constructor..|].
  destruct (run answer (answer B w ev).2 (c (answer B w ev).1)) as [[o w'] t] eqn:E. cbn.
  constructor; [apply answer_internal|]. specialize (IH (answer B w ev).1 (answer B w ev).2). by rewrite E in IH.
Qed.

(** The outcome of a run. *)
Definition outcome {A} (w : world) (p : prog A) : res A := (run answer w p).1.1.
Definition trace {A} (w : world) (p : prog A) : list step := (run answer w p).2.

Lemma outcome_returns {A} w (p : prog A) r : outcome w p = r -> returns p (trace w p) r.
Proof. intros <-. apply run_returns. Qed.

(** * Samples *)

Definition registry_with (v : pyval) (l : latches) : world := World 100 v [] l ∅ ∅ 0.

Definition consent (expires_at : Z) : consent_args :=
  ConsentArgs (PStr (py "app")) (PStr lab) (PStr (py "publish")) (PStr (py "identity"))
    (PInt expires_at) (PBytes [Byte.x01]).

Definition legacy_bundle : identity_bundle :=
  MkBundle (MkDraft legacy_update None []) [MkProof None (key 1) (sign 1 legacy_update)].

(** The rotation of the legacy identity to key 2, signed by its owner. *)
Definition rotation_update : bytes := Eval vm_compute in update (key 2) 2 (Some rotation_auth).
Definition rotation_proof : bytes := Eval vm_compute in sign 1 rotation_update.
Definition rotation_envelope : bytes :=
  Eval vm_compute in unwrap [] (_canonical (envelope_value rotation_update [(None, rotation_proof)])).
Definition rotation_envelope_hash : bytes := Eval vm_compute in sha256 rotation_envelope.
Definition rotated : identity_state := Eval vm_compute in state rotation_envelope (Some legacy).

Definition intent : rotation_binding :=
  RotationBinding (Some lab) owner (key 1) (key 2) (st_state_hash legacy) 2 rotation_envelope_hash.

Definition rotation_bundle : identity_bundle :=
  MkBundle (MkDraft rotation_update (Some legacy_envelope) []) [MkProof None (key 1) rotation_proof].
Definition publication (expires_at : Z) : rotation_publication :=
  RotationPublication lab rotation_bundle rotation_envelope legacy expires_at 7 0.

Definition latched_world (v : pyval) : world :=
  World 100 v [(st_state_hash legacy, legacy_envelope)] (register ∅ intent true).2 ∅ ∅ 1.

(** What an outcome shows of its result. *)
Definition shows {A X} (f : A -> X) (r : res A) : option X := match r with Ok a => Some (f a) | Err _ => None end.

Lemma shows_ok {A X} (f : A -> X) r x : shows f r = Some x -> exists a, r = Ok a /\ f a = x.
Proof. destruct r as [a|]; [|done]. intros [= <-]. eauto. Qed.

(** * Consent and latches *)

Definition genesis_hash : bytes := Eval vm_compute in sha256 genesis_update.

Definition transcript : consent_transcript :=
  MkTranscript (py "app") lab (py "genesis") genesis_hash (py "publish") (py "identity") 200 [Byte.x01] 1 (Some 1)
    genesis_update None (Some (key 1)).

(** The same request as it is put together from unvalidated arguments. *)
Definition transcript_again : consent_transcript :=
  Eval vm_compute in
  unwrap transcript (ConsentTranscript (PStr (py "app")) (PStr lab) (PStr (py "genesis")) (sha256 genesis_update)
    (PStr (py "publish")) (PStr (py "identity")) (PInt 200) (PBytes [Byte.x01]) 1 (Some 1) genesis_update None (Some (key 1))).

Lemma consent_binding_witness :
  (exists b, canonical_bytes transcript = Ok b /\ canonical_bytes transcript_again = Ok b /\ transcript = transcript_again) /\
  consume_all ∅ [key 1; key 2; key 1] !! 0%nat = Some true /\ consume_all ∅ [key 1; key 2; key 1] !! 2%nat <> Some true.
Proof.
  split.
  - eexists. split; [vm_compute; reflexivity|]. split; [vm_compute; reflexivity|].
    eapply (proj1 consent_binding); vm_compute; reflexivity.
  - assert (consume_all ∅ [key 1; key 2; key 1] !! 0%nat = Some true) as H0 by (vm_compute; reflexivity).
    split; [exact H0|]. intros Ht.
    discriminate (proj2 consent_binding ∅ [key 1; key 2; key 1] 0%nat 2%nat (key 1) eq_refl eq_refl H0 Ht).
Defined.

(** Another rotation of the same owner. *)
Definition other_intent : rotation_binding :=
  RotationBinding (Some lab) owner (key 1) (key 3) (st_state_hash legacy) 2 zero_hash.

Lemma latch_discipline_witness :
  (exists ops1 ops2, [OpRegister intent false; OpRegister intent true] = ops1 ++ OpRegister intent true :: ops2 /\ OpClear intent ∉ ops2) /\
  exists e r', foldl latch_step (latch_run [OpRegister intent true]) [OpClear other_intent; OpRegister other_intent true] !! owner =
    Some (replace_environment intent e, r').
Proof.
  split.
  - apply (proj1 latch_discipline). vm_compute. reflexivity.
  - destruct (proj2 latch_discipline (latch_run [OpRegister intent true]) [OpClear other_intent; OpRegister other_intent true]
      owner intent true) as (e & r' & Hl & _).
    + apply latch_run_wf.
    + vm_compute. reflexivity.
    + intros e He. apply elem_of_cons in He as [He|He].
      * apply (f_equal (fun o => match o with OpClear b => rb_successor_owner_public_key b | _ => [] end)) in He.
        vm_compute in He. discriminate He.
      * apply elem_of_cons in He as [He|He]; [discriminate He|]. by apply elem_of_nil in He.
    + exists e, r'. exact Hl.
Defined.

(** * Reading and publishing *)

Lemma legacy_read : outcome (registry_with (PBytes legacy_envelope) ∅) (read_state None (PBytes owner)) = Ok (Some legacy).
Proof. vm_compute. reflexivity. Qed.

Lemma read_state_verified_witness : verified owner legacy /\ governance_ok legacy.
Proof.
  destruct (read_state_verified None (PBytes owner) _ legacy (outcome_returns _ _ _ legacy_read))
    as (o & t & [= <-] & Hv & Hg & _).
  split; [exact Hv|exact Hg].
Defined.

(** A rotated state is read with one step back to the legacy state. *)
Lemma rotated_read : outcome (latched_world (PBytes rotation_envelope)) (read_state None (PBytes owner)) = Ok (Some rotated).
Proof. vm_compute. reflexivity. Qed.

Lemma read_state_walk_witness :
  exists first l depth last,
    trace (latched_world (PBytes rotation_envelope)) (read_state None (PBytes owner)) =
      MkStep (GetEnvelope (hex owner)) first :: l /\
    walked owner _MAX_PREDECESSOR_DEPTH first l depth last /\ (length l + depth = _MAX_PREDECESSOR_DEPTH)%nat /\
    length l = 1%nat.
Proof.
  destruct (read_state_walk None (PBytes owner) _ _ (outcome_returns _ _ _ rotated_read))
    as [[Ht _]|(o & first & l & depth & last & [= <-] & Ht & Hw & Hn & _)].
  - exfalso. apply (f_equal length) in Ht. vm_compute in Ht. discriminate Ht.
  - exists first, l, depth, last. split; [exact Ht|]. split; [exact Hw|]. split; [exact Hn|].
    apply (f_equal (fun t => length (tail t))) in Ht. vm_compute in Ht. exact (eq_sym Ht).
Defined.

(** The upgrade of the legacy identity to two-of-three governance: accepted as a draft,
    so the parser's checks accept it with a proof of some signer. *)
Definition upgrade_auth : authorization := Authorization 4 1 2 signers (st_state_hash legacy).

Lemma signers_nodup : NoDup signers.*1.
Proof. apply (bool_decide_eq_true_1 (NoDup signers.*1)). vm_compute. reflexivity. Qed.

Lemma draft_rules_exact_witness :
  (_validate_draft_transition owner (key 2) 2 (Some rotation_auth) (Some legacy) = Ok tt <->
   check_operation owner (PBytes (key 2)) 2 rotation_auth (Some legacy) = Ok tt) /\
  exists signer_id signature, check_upgrade (PBytes (key 1)) 2 upgrade_auth (Some legacy) [(Some signer_id, signature)] = Ok tt.
Proof.
  split.
  - refine (proj1 (draft_rules_exact owner (key 2) 2 rotation_auth (Some legacy) _) _).
    + exact signers_nodup.
    + discriminate.
  - refine (proj2 (proj2 (proj1 (proj1 (proj2 (draft_rules_exact owner (key 1) 2 upgrade_auth (Some legacy) _)) eq_refl) _))).
    + exact signers_nodup.
    + vm_compute. reflexivity.
Defined.

Lemma legacy_published :
  shows pr_status (outcome (registry_with PNone ∅) (publish_bundle None legacy_bundle (consent 200))) = Some st_CONFIRMED.
Proof. vm_compute. reflexivity. Qed.

Lemma publication_discipline_witness :
  exists r f prev e st, outcome (registry_with PNone ∅) (publish_bundle None legacy_bundle (consent 200)) = Ok r /\
    finalize legacy_bundle = Ok e /\ pr_accepted_state r = Some st /\
    confirmed_after (df_owner_name f) e prev st (rev (trace (registry_with PNone ∅) (publish_bundle None legacy_bundle (consent 200)))).
Proof.
  destruct (shows_ok _ _ _ legacy_published) as (r & Hr & Hs).
  destruct (proj2 (publication_discipline None legacy_bundle (consent 200)) _ r (outcome_returns _ _ _ Hr)
    (run_internal _ _) Hs) as (f & prev & e & st & _ & _ & He & Hst & Hc).
  exists r, f, prev, e, st. split; [exact Hr|]. split; [exact He|]. split; [exact Hst|exact Hc].
Defined.

(** * Rotation *)

Definition permit : dispatch_permit := RotationDispatchPermit intent true.

Lemma rotation_read_back :
  shows (option_map conf_state_hash)
    (outcome (latched_world (PBytes rotation_envelope)) (confirm_owner_key_rotation (Some lab) intent)) =
  Some (Some (st_state_hash rotated)).
Proof. vm_compute. reflexivity. Qed.

Lemma rotation_capabilities_sound_witness :
  exists c, outcome (latched_world (PBytes rotation_envelope)) (confirm_owner_key_rotation (Some lab) intent) = Ok (Some c) /\
    rotation_confirmed (Some lab) intent c
      (rev (trace (latched_world (PBytes rotation_envelope)) (confirm_owner_key_rotation (Some lab) intent))).
Proof.
  destruct (shows_ok _ _ _ rotation_read_back) as ([c|] & Hr & Hs); [|discriminate Hs].
  exists c. split; [exact Hr|].
  exact (proj2 (rotation_capabilities_sound (Some lab) 7 rotation_bundle (consent 200) intent) _ c (outcome_returns _ _ _ Hr)).
Defined.

(** A dispatch whose consent has expired before the write. *)
Lemma dispatch_expired :
  shows (fun r => (dr_status r, bool_decide (is_Some (dr_rejection r))))
    (outcome (latched_world (PBytes legacy_envelope)) (dispatch_owner_key_rotation (Some lab) 7 (publication 50) permit)) =
  Some (st_EXPIRED, true).
Proof. vm_compute. reflexivity. Qed.

Lemma dispatch_discipline_witness :
  writes_obey (dispatch_owner_key_rotation (Some lab) 7 (publication 50) permit) (dispatch_rule (Some lab) 7 (publication 50) permit) /\
  exists r rej b,
    outcome (latched_world (PBytes legacy_envelope)) (dispatch_owner_key_rotation (Some lab) 7 (publication 50) permit) = Ok r /\
    dr_rejection r = Some rej /\ rej_publication rej = publication 50 /\ sha256 b <> rb_envelope_hash intent.
Proof.
  destruct (dispatch_discipline (Some lab) 7 (publication 50) permit) as [Hw Ho]. split.
  { apply (Hw (PBytes owner) (PBytes (key 1)) (PBytes (key 2)) (PBytes (st_state_hash legacy)) (PInt 2) (PBytes rotation_envelope_hash) (PStr lab)).
    vm_compute. reflexivity. }
  destruct (shows_ok _ _ _ dispatch_expired) as (r & Hr & Hs).
  destruct (Ho _ r (outcome_returns _ _ _ Hr) r eq_refl) as (_ & _ & Hrej).
  destruct (dr_rejection r) as [rej|] eqn:Er; [|discriminate Hs].
  destruct (Hrej rej eq_refl) as (_ & Hp & _ & b & _ & Hb). exists r, rej, b.
  split; [exact Hr|]. split; [exact Er|]. split; [exact Hp|exact Hb].
Defined.

(** * One thread of a process, driven to its first write *)

(** The executable form of [answered] for thread 0; [external] answers what the process
    does not. *)
Definition answer_shared {B : Set} (ev : event B) : res B -> shared -> option (res B * shared) :=
  match ev in event B return res B -> shared -> option (res B * shared) with
  | IsOwnerLatched o => fun _ s => Some (Ok (is_owner_latched (sh_latches s) o), s)
  | IsLatched b => fun _ s => Some (Ok (is_latched (sh_latches s) b), s)
  | IsDispatchReady b => fun _ s => Some (Ok (is_dispatch_ready (sh_latches s) b), s)
  | ConsumeCell c => fun _ s =>
      Some (Ok (negb (bool_decide (c ∈ sh_consumed s))), Shared (sh_latches s) (sh_locks s) ({[c]} ∪ sh_consumed s))
  | AcquireOwner o => fun _ s =>
      match sh_locks s !! o with
      | Some _ => None
      | None => Some (Ok tt, Shared (sh_latches s) (<[o := (0, 1)%nat]> (sh_locks s)) (sh_consumed s))
      end
  | Register _ _ | Clear _ | ReleaseOwner _ => fun _ _ => None
  | _ => fun external s => Some (external, s)
  end.

Lemma answer_shared_ok B (ev : event B) external s r s' :
  answer_shared ev external s = Some (r, s') -> answered 0 ev r s s'.
Proof.
  destruct ev; cbn; intros E; try (by simplify_eq). unfold lock_open, lock_depth.
  destruct (sh_locks s !! owner_name); simplify_eq. done.
Qed.

(** The write a program is about to make. *)
Definition put_of {A} (p : prog A) : option (pystr * bytes * option bytes * Z) :=
  match p with
  | Do ev _ => match ev with PutEnvelope o e h x => Some (o, e, h, x) | _ => None end
  | _ => None
  end.

Lemma put_of_some {A} (p : prog A) o e h x :
  put_of p = Some (o, e, h, x) -> exists c, p = Do (PutEnvelope o e h x) c.
Proof. destruct p as [| |B ev c]; try done. destruct ev; cbn; try done. intros [= <- <- <- <-]. eauto. Qed.

Fixpoint drive (w : world) (s : shared) (p : prog unit) : option (prog unit * shared) :=
  match put_of p, p with
  | Some _, _ => Some (p, s)
  | None, Do ev c =>
      match answer_shared ev (answer _ w ev).1 s with
      | Some (r, s') => drive (answer _ w ev).2 s' (c r)
      | None => None
      end
  | None, _ => None
  end.

Lemma drive_trace ts w s p p' s' :
  drive w s p = Some (p', s') -> exists l, process_trace (Process (p :: ts) s) l (Process (p' :: ts) s').
Proof.
  revert w s. induction p as [a|e|B ev c IH]; intros w s; cbn [drive]; [done|done|].
  destruct (put_of (Do ev c)) as [q|] eqn:Eq; [intros [= <- <-]; eexists; apply trace_nil|].
  destruct (answer_shared ev (answer B w ev).1 s) as [[r s1]|] eqn:Ea; [|done]. intros [l Hl]%IH.
  eexists. by apply (trace_cons 0 B ev c r (Do ev c :: ts) s s1 l _ eq_refl (answer_shared_ok _ _ _ _ _ _ Ea)).
Qed.

(** What thread 0 is about to write once driven there. *)
Definition first_write (w : world) (s : shared) (p : prog unit) : option (pystr * bytes * option bytes * Z) :=
  match drive w s p with Some (p', _) => put_of p' | None => None end.

Lemma first_write_trace ts w s p o e h x :
  first_write w s p = Some (o, e, h, x) ->
  exists l c s', process_trace (Process (p :: ts) s) l (Process (Do (PutEnvelope o e h x) c :: ts) s').
Proof.
  unfold first_write. destruct (drive w s p) as [[p' s']|] eqn:Ed; [|done]. intros [c ->]%put_of_some.
  destruct (drive_trace ts _ _ _ _ _ Ed) as [l Hl]. eauto.
Qed.

Definition publisher : prog unit := let! _ := publish_bundle None legacy_bundle (consent 200) in Ret tt.

Lemma publisher_about_to_write :
  first_write (registry_with PNone ∅) shared_init publisher = Some (hex owner, legacy_envelope, None, 200).
Proof. vm_compute. reflexivity. Qed.

(** Two threads dispatch the same publication; the first gets to write. *)
Definition dispatcher : prog unit :=
  let! _ := dispatch_owner_key_rotation (Some lab) 7 (publication 200) permit in Ret tt.
Definition latched_shared : shared := Shared (register ∅ intent true).2 ∅ ∅.

Lemma dispatcher_about_to_write :
  first_write (latched_world (PBytes legacy_envelope)) latched_shared dispatcher =
  Some (hex owner, rotation_envelope, Some (st_state_hash legacy), 200).
Proof. vm_compute. reflexivity. Qed.

Lemma dispatcher_dispatches : dispatches (Some lab) 7 (publication 200) dispatcher.
Proof.
  exists permit, (PBytes owner), (PBytes (key 1)), (PBytes (key 2)), (PBytes (st_state_hash legacy)), (PInt 2),
    (PBytes rotation_envelope_hash), (PStr lab). split; [vm_compute; reflexivity|reflexivity].
Qed.

Lemma concurrent_writes_witness :
  (exists p c, rtc process_step (Process [publisher] shared_init) p /\
    pr_threads p !! 0%nat = Some (Do (PutEnvelope (hex owner) legacy_envelope None 200) c) /\
    exists o, hex owner = hex o /\ holds (pr_shared p) 0 o) /\
  exists l q, process_trace (Process [dispatcher; dispatcher] latched_shared) l q /\ length (puts l) = 1%nat.
Proof.
  split.
  - destruct (first_write_trace [] _ _ _ _ _ _ _ publisher_about_to_write) as (l & c & s & Hl).
    pose proof (process_trace_rtc _ _ _ Hl) as Hr.
    destruct (proj1 (concurrent_writes [publisher] shared_init)
      (proj2 (Forall_singleton adapter_thread publisher)
        (ex_intro _ _ (ex_intro _ _ (conj (calls_publish_bundle None legacy_bundle (consent 200)) eq_refl))))
      _ 0%nat (hex owner) legacy_envelope None 200 c Hr eq_refl) as (o & Ho & Hh & _).
    eexists _, c. split; [exact Hr|]. split; [reflexivity|]. exists o. split; [exact Ho|exact Hh].
  - destruct (first_write_trace [dispatcher] _ _ _ _ _ _ _ dispatcher_about_to_write) as (l & c & s & Hl).
    pose proof (trace_cons 0 _ (PutEnvelope (hex owner) rotation_envelope (Some (st_state_hash legacy)) 200) c (Ok tt)
      [_; dispatcher] s s [] _ eq_refl eq_refl (trace_nil _)) as Hput.
    pose proof (process_trace_app _ _ _ _ _ Hl Hput) as Ht.
    eexists _, _. split; [exact Ht|].
    pose proof (proj2 (concurrent_writes [dispatcher; dispatcher] latched_shared) (Some lab) 7 (publication 200) _ _
      (Forall_cons_2 _ _ _ dispatcher_dispatches (Forall_cons_2 _ _ _ dispatcher_dispatches (Forall_nil_2 _))) Ht) as Hone.
    unfold puts in *. rewrite filter_app, length_app in *. rewrite filter_cons_True in * by reflexivity. simpl in *. lia.
Defined.

(** * The signer *)

(** The owner of a legacy update may sign its draft. *)
Lemma signer_validation_agrees_witness :
  IdentityDraft (PBytes legacy_update) PNone (PTuple []) = Ok (MkDraft legacy_update None []) /\
  Signer._validate_identity_update (PBytes legacy_update) (key 1) = Ok tt.
Proof.
  assert (IdentityDraft (PBytes legacy_update) PNone (PTuple []) = Ok (MkDraft legacy_update None [])) as Hd
    by (vm_compute; reflexivity).
  split; [exact Hd|]. destruct (proj2 (signer_validation_agrees (key 1)) _ _ _ _ Hd) as (f & Hf & Hv). apply Hv.
  destruct f as [name owner_key sequence authorization]. vm_compute in Hf. injection Hf as <- <- <- <-. reflexivity.
Defined.

(** A capability for key 1, created at time 100 with the default lifetime of 30 time
    units out of a table that holds another key. *)
Definition capability_1 : Signer.capability :=
  Signer.create_capability 5 (seed 1) (key 1) 100 30 true {[ 4 := seed 9 ]}.

Lemma capability_1_created :
  Signer._create_capability_from_seed 1 (PBytes (seed 1)) 30 5 100 true {[ 4 := seed 9 ]} = Ok capability_1.
Proof. vm_compute. reflexivity. Qed.

Lemma capability_contract_witness :
  let ops := [OpIsActive 110; OpSign 111 legacy_update; OpSign 112 legacy_update; OpInvalidate] in
  ((length (cap_run ops capability_1).1 <= 1)%nat /\ erased 5 {[ 4 := seed 9 ]} true (cap_run ops capability_1).2) /\
  match (Signer.sign_identity_update 111 legacy_update capability_1).1 with
  | Ok sig => ed_verify (key 1) sig (sha256 legacy_update) = true
  | Err _ => False
  end.
Proof.
  intros ops. destruct (capability_contract 1 30 5 100 (PBytes (seed 1)) true _ _ capability_1_created) as [Honce Hsign]. split.
  - destruct (Honce ops) as (Hl & He & _). split; [exact Hl|exact (He eq_refl)].
  - destruct (Hsign 111 legacy_update toy_ed25519_laws) as [_ Ho]. revert Ho.
    assert (Signer._validate_identity_update (PBytes legacy_update) (key 1) = Ok tt) as Hv by (vm_compute; reflexivity).
    destruct (Signer.sign_identity_update 111 legacy_update capability_1).1 as [sig|e].
    + intros (_ & _ & _ & Hs). exact Hs.
    + intros [[Ht _]|(_ & Hn & _)]; [lia|]. exact (Hn Hv).
Defined.
