(* ===== verification/WalletScenarios.v ===== *)
(** A wallet from its creation to a promoted successor key, in a file system that works and
    in one that fails, and the theorems on sessions applied to it. *)

From stdpp Require Import gmap.
From S2P Require Import Prelude PyVal Sha256 Interfaces CborCodec SignedUpdate Envelope Draft Consent Rotation Adapter Dispatch Signer Base64 Json Container Instances Scenarios Storage StorageFacts ContainerScenarios WalletState Wallet WalletRotation WalletFacts WalletRotationFacts WalletOpenFacts WalletClaims Vault WalletDurable Durability Reopening.

Import Sample.

Open Scope Z_scope.

(** * A process *)

Definition empty_fs : fs := MkFs ∅ [] ∅ ∅ 0.

(** Seeds of the sample identities, so that the wallet's keys are theirs. *)
Definition demo_random : list bytes :=
  [seed 1; demo_bytes 32; demo_bytes 16; demo_bytes 24; demo_bytes 24; seed 2].

Definition demo_start : machine :=
  MkMachine (MkWallet [] None None None ∅ (JObj []) [] 0 0) [] [] ∅ ∅ ∅
    (Storage.MkWorld empty_fs [] [py "aa"; py "bb"; py "cc"; py "dd"; py "ee"] []) demo_random [] 1000.

Definition demo_create : factory :=
  CreateWithGeneratedKey demo_path (PStr demo_password) (PStr demo_password) (PInt 5).

Fixpoint run_methods (xs : list method) (m : machine) : machine :=
  match xs with [] => m | x :: xs' => run_methods xs' (run_method x m).2 end.

Definition demo_created : machine := (run_factory demo_create demo_start).2.
Definition demo_latched : machine :=
  run_methods [Prepare; Latch (Some rotation_bundle) (Some (publication 200)) 100] demo_created.

(** The confirmation the adapter gives when the registry has the successor. *)
Definition demo_confirmation : rotation_confirmation := RotationConfirmation intent (st_state_hash rotated).

Definition demo_open (password : pystr) : factory := Open demo_path (PStr password) (PInt 5).

(** The whole run: the intent is latched, the successor promoted, the wallet locked, and
    opened again from its file with its password and with no other. *)
Definition demo_run (latched : machine) :=
  let finalized := run_method (Finalize (Some demo_confirmation)) latched in
  let closed := (run_method Lock finalized.2).2 in
  ((bool_decide (is_Some (wl_payload (m_self latched) !! _ROTATION_DISPATCH_INTENT)), active latched),
   (finalized.1, bool_decide (is_Some (wl_dek (m_self finalized.2))), active finalized.2),
   (active closed, active (run_factory (demo_open demo_password) closed).2,
    (run_factory (demo_open (py "another password")) closed).1)).

Lemma demo_runs :
  demo_run demo_latched =
  ((true, (Some (seed 1), PBytes (key 1))),
   (Ok tt, true, (Some (seed 2), PBytes (key 2))),
   ((None, PNone), (Some (seed 2), PBytes (key 2)), Err UnlockFailed)).
Proof. vm_compute. reflexivity. Qed.

(** Storage that fails while the successor is being staged leaves the wallet as it was. *)
Lemma demo_prepare_fails :
  let m := set_world (Storage.MkWorld (w_fs (m_world demo_created)) [false; false; true] [py "xx"] []) demo_created in
  (run_method Prepare m).1 = Err StorageFailure /\ active (run_method Prepare m).2 = active m /\
  wl_pending (m_self (run_method Prepare m).2) = None /\ m_heap (run_method Prepare m).2 !! 3%nat = Some (repeat (byte_of_Z 0) 32).
Proof. vm_compute. repeat split. Qed.

(** A container whose payload has a public key and no seed is refused by [open], which
    leaves the data key in its byte array. *)
Definition keyless_envelope : res bytes :=
  let* envelope := _build_v2_envelope demo_password (demo_bytes 32) demo_kdf (PDict [(PStr f_public_key, PBytes (key 1))])
                     (demo_bytes 24) (demo_bytes 24) in
  _serialize envelope.
Definition keyless_file : bytes := match keyless_envelope with Ok raw => raw | Err _ => [] end.

Lemma open_leaves_data_key :
  let fs := MkFs {[demo_path := 0%nat]} [] {[0%nat := keyless_file]} {[0%nat := keyless_file]} 1 in
  let r := open demo_path (PStr demo_password) (PInt 5) (set_world (Storage.MkWorld fs [] [] []) demo_start) in
  r.1 = Err InvalidContainer /\ m_heap r.2 = [demo_bytes 32].
Proof. vm_compute. split; reflexivity. Qed.

(** * The theorems *)

Lemma demo_reachable : reachable 0 demo_latched.
Proof.
  unfold demo_latched. cbn [run_methods]. apply reach_method; [|done]. apply reach_method; [|done].
  assert (refused demo_create demo_start = 0%nat) as Hr by (vm_compute; reflexivity).
  pose proof (reach_factory demo_create 0 demo_start) as Hf. rewrite Hr in Hf. apply Hf; [by apply reach_start|done].
Qed.

Lemma demo_created_ok : machine_ok demo_created.
Proof. apply (factory_spec demo_create); [|done|done]. split; [by apply locked_session|]. intros a b Hb. by destruct a. Qed.

Lemma demo_ok : machine_ok demo_latched.
Proof.
  assert (forall x m, machine_ok m -> callback_ok x -> machine_ok (run_method x m).2) as Hstep.
  { intros x m Hm Hcb. destruct (method_spec x m Hm Hcb) as [[Hok _]|(c & _ & Hok & _)]; done. }
  unfold demo_latched. cbn [run_methods]. apply Hstep; [|done]. apply Hstep; [|done]. exact demo_created_ok.
Qed.

(** No [open] was refused on the way, so nothing is left behind. *)
Lemma reachable_sessions_ok_witness : reachable 0 demo_latched /\ machine_ok demo_latched.
Proof.
  split; [exact demo_reachable|]. destruct (reachable_sessions_ok 0 demo_latched demo_reachable) as (L & HL & Hok).
  destruct L as [|a L]; [exact Hok|]. exfalso. cbn in HL. lia.
Defined.

Lemma set_time_ok c now m : machine_ok m -> machine_ok (set_time c now m).
Proof. intros [Hs Hc]. split; [exact Hs|exact Hc]. Qed.

(** Asked for its key after an hour. *)
Definition demo_later : machine := set_time [3600000] (m_now demo_created) demo_created.

Lemma ended_session_erased_witness :
  erased demo_later (run_method PublicKey demo_later).2 /\ (run_method PublicKey demo_later).1 = Err WalletLockedError.
Proof.
  assert (machine_ok demo_later) as Hm by exact (set_time_ok _ _ _ demo_created_ok).
  assert (ends_session PublicKey demo_later) as Hx by (split; [exists 1%nat|]; vm_compute; [reflexivity|discriminate]).
  destruct (ended_session_erased PublicKey demo_later Hm Hx) as [He Ht]. split; [exact He|]. apply Ht. reflexivity.
Defined.

(** The call that finalizes changes the active key and leaves the session unlocked. *)
Lemma demo_key_changed :
  ~ (unlocked (run_method (Finalize (Some demo_confirmation)) demo_latched).2 ->
     active (run_method (Finalize (Some demo_confirmation)) demo_latched).2 = active demo_latched).
Proof.
  pose proof demo_runs as Hrun. unfold demo_run in Hrun. cbv zeta in Hrun. apply pair_eq in Hrun as [Hrun _].
  apply pair_eq in Hrun as [Hbefore Hafter]. apply pair_eq in Hbefore as [_ Hbefore]. apply pair_eq in Hafter as [Hopen Hafter].
  apply pair_eq in Hopen as [_ Hopen]. rewrite Hbefore, Hafter. intros Ha.
  apply bool_decide_eq_true_1 in Hopen. assert (PBytes (key 2) = PBytes (key 1)) as E.
  { apply (f_equal snd (x := (Some (seed 2), _)) (y := (Some (seed 1), _))), Ha, Hopen. }
  vm_compute in E. discriminate E.
Qed.

Lemma active_key_protected_witness :
  exists c, promoted c demo_latched (run_method (Finalize (Some demo_confirmation)) demo_latched).2.
Proof.
  destruct (active_key_protected (Finalize (Some demo_confirmation)) demo_latched demo_ok I) as [_ [Ha|(c & _ & Hp)]].
  - destruct (demo_key_changed Ha).
  - exists c. exact Hp.
Defined.

(** ** The wallet whose rotation is latched is locked and opened again *)

Lemma demo_lineage : lineage demo_password demo_latched.
Proof.
  assert (lineage demo_password demo_created) as Hcreated.
  { apply (lin_generate demo_path demo_password (PStr demo_password) (PInt 5) demo_start).
    - split; [by apply locked_session|]. intros a b Hb. by destruct a.
    - done.
    - split; [|done]. intros Hp. apply (bool_decide_unpack (~ temp_prefix `prefix_of` demo_path)) in Hp; [done|]. vm_compute. exact I.
    - constructor; [|constructor]. exists None. done.
    - rewrite (surjective_pairing (run_factory _ demo_start)). f_equal. }
  apply (lin_method (Latch (Some rotation_bundle) (Some (publication 200)) 100) demo_password); [|exact I].
  apply (lin_method Prepare demo_password); [exact Hcreated|exact I].
Qed.

Definition demo_closed : machine := (run_method Lock demo_latched).2.

Definition small_file (m : machine) (path : pystr) : bool :=
  match live (files m) path with Some raw => Z.of_nat (length raw) <=? _MAX_CONTAINER_BYTES | None => true end.

Lemma closed_session m : machine_ok m -> machine_ok (run_method Lock m).2 /\ wl_dek (m_self (run_method Lock m).2) = None /\ files (run_method Lock m).2 = files m.
Proof. intros Hm. split; [apply (lock_stable m Hm)|]. split; [|apply still_lock]. cbn [run_method]. by destruct (lock_wiped m) as [-> _]. Qed.

Lemma demo_unlocked : unlocked demo_latched.
Proof.
  assert (bool_decide (is_Some (wl_dek (m_self demo_latched))) = true) as Hb by (vm_compute; reflexivity).
  by apply bool_decide_eq_true in Hb.
Qed.

Lemma demo_small : small_file demo_closed (wl_path (m_self demo_latched)) = true.
Proof. vm_compute. reflexivity. Qed.

Lemma demo_no_faults : w_faults (m_world demo_closed) = [].
Proof. vm_compute. reflexivity. Qed.

Lemma small_file_size m path : small_file m path = true -> forall raw, live (files m) path = Some raw -> Z.of_nat (length raw) <= _MAX_CONTAINER_BYTES.
Proof. unfold small_file. intros Hs raw Hraw. rewrite Hraw in Hs. apply Z.leb_le, Hs. Qed.

Lemma minutes_ok : 1 <= 5 <= 15.
Proof. lia. Qed.

Lemma reopening_restores_witness :
  lineage demo_password demo_latched /\
  let r := run_factory (Open (wl_path (m_self demo_latched)) (PStr demo_password) (PInt 5)) demo_closed in r.1 = Ok tt /\ restored demo_latched r.2.
Proof.
  destruct (closed_session demo_latched demo_ok) as (Hm & Hn & Hf). split; [exact demo_lineage|].
  exact (reopening_restores demo_password demo_latched demo_closed 5 demo_lineage demo_unlocked Hm Hn demo_no_faults (or_introl Hf)
    (small_file_size _ _ demo_small) minutes_ok).
Defined.

(** A container of another writer whose salt is base64 text with non-zero bits after the last
    byte is opened; replacing its payload writes the salt in its own form, for which the data
    key was not wrapped, and the wallet cannot be opened any more. *)
Definition loose_salt : pystr := take 21 (_b64_encode (demo_bytes 16)) ++ py "x==".

Definition loose_kdf : json :=
  JObj [(py "algorithm", JStr (py "argon2id")); (py "memory_kib", JInt _KDF_MEMORY_KIB); (py "time_cost", JInt _KDF_TIME_COST);
        (py "parallelism", JInt _KDF_PARALLELISM); (py "salt", JStr loose_salt)].

Definition loose_file : bytes :=
  match (let* envelope := _build_v2_envelope demo_password (demo_bytes 32) loose_kdf (PDict []) (demo_bytes 24) (demo_bytes 24) in _serialize envelope) with
  | Ok raw => raw | Err _ => [] end.

Definition loose_start : machine :=
  set_world (Storage.MkWorld (MkFs {[demo_path := 0%nat]} [] {[0%nat := loose_file]} {[0%nat := loose_file]} 1) [] [py "aa"] []) demo_start.

Lemma loose_salt_loses_wallet :
  let opened := run_factory (demo_open demo_password) loose_start in
  let updated := run_method (UpdatePayload (PDict [])) opened.2 in
  let closed := (run_method Lock updated.2).2 in
  opened.1 = Ok tt /\ updated.1 = Ok tt /\ (run_factory (demo_open demo_password) closed).1 = Err UnlockFailed.
Proof. vm_compute. repeat split. Qed.
