(* ===== verification/CliScenarios.v ===== *)
(** Runs of the command line and sessions of the transport on concrete input. *)

From stdpp Require Import gmap.
From S2P Require Import Prelude PyVal Sha256 Interfaces CborCodec SignedUpdate Rotation Signer Effects Base64 Json Container Instances Storage StorageFacts ContainerScenarios WalletState Wallet WalletFacts WalletRotationFacts WalletOpenFacts DesktopCli CliFacts RegistryTransport TransportFacts.

Open Scope Z_scope.

(** * The command line *)

(** A process whose directory holds the demo container. *)
Definition demo_file : bytes := match demo_envelope with Ok e => match _serialize e with Ok raw => raw | Err _ => [] end | Err _ => [] end.
Definition wallet_fs : fs := MkFs {[demo_path := 0%nat]} [] {[0%nat := demo_file]} {[0%nat := demo_file]} 1.
Definition no_session : machine :=
  MkMachine (MkWallet [] None None None ∅ (JObj []) [] 0 0) [] [] ∅ ∅ ∅ (MkWorld wallet_fs [] [py "aa"] []) [] [] 1000.

Definition at_terminal (typed : list (option pystr)) : console := MkConsole no_session true typed [] [] [].
Definition backup_path : pystr := py "backup.json".
Definition demo_export (typed : list (option pystr)) := main (fun _ => true) (CmdExport demo_path backup_path) (at_terminal typed).

Lemma no_session_quiet : quiet [] no_session.
Proof. split; [done|]. split; [by apply locked_session|]. split; [|constructor]. intros a b Hb. by destruct a. Qed.

Lemma demo_export_done :
  (demo_export [Some demo_password]).1 = Done 0 /\
  live (files (c_machine (demo_export [Some demo_password]).2)) backup_path = Some demo_file.
Proof. vm_compute. split; reflexivity. Qed.

(** A wrong password, and input that is not from a terminal. *)
Lemma demo_export_refused :
  c_stderr (demo_export [Some (py "another password")]).2 = [py "wallet unlock failed"] /\
  c_stderr (demo_export []).2 = [py "password input requires a secure terminal"].
Proof. vm_compute. split; reflexivity. Qed.

Lemma main_outcome_witness :
  (demo_export [Some demo_password]).1 = Done 0 /\
  exported demo_path backup_path wallet_fs (files (c_machine (demo_export [Some demo_password]).2)).
Proof.
  assert (quiet [] (c_machine (at_terminal [Some demo_password]))) as Hq by exact no_session_quiet.
  destruct demo_export_done as [Hdone _]. split; [exact Hdone|].
  pose proof (main_outcome (fun _ => true) (CmdExport demo_path backup_path) (at_terminal [Some demo_password]) Hq) as Hm.
  fold (demo_export [Some demo_password]) in Hm. destruct (demo_export [Some demo_password]) as [r c'].
  destruct Hm as (_ & _ & Hx). exact (Hx _ _ eq_refl Hdone).
Defined.

(** * The transport *)

Definition peer_a : pystr := py "/ip4/10.0.0.1/tcp/4001/p2p/QmA".
Definition peer_b : pystr := py "/ip4/10.0.0.2/tcp/4001/p2p/QmB".
Definition peer_c : pystr := py "/ip4/10.0.0.3/tcp/4001/p2p/QmA/p2p-circuit/p2p/QmC".

Definition demo_transport : transport := MkTransport (Some (py "lab")) true [peer_a; peer_b] (Some peer_c) (py "store").

Lemma demo_transport_accepted :
  RegistryTransport (fun _ => Err TypeError) true (PList [PStr peer_a; PStr peer_b]) (PStr (py "store")) (PStr peer_c) (PBool true) (PStr (py "lab")) = Ok demo_transport.
Proof. vm_compute. reflexivity. Qed.

(** A Registry whose first peer is down. *)
Definition demo_answer (h : history) (c : sdk_call) : res pyval :=
  match c with
  | Bootstrap p => if bool_decide (p = peer_a) then Err OSError else Ok PNone
  | ReadRemote _ | ServiceGet _ | ServiceGetByHash _ _ => Ok (PBytes (demo_bytes 3))
  | _ => Ok PNone
  end.

(** Confirmation reads need a readback peer of its own. *)
Lemma same_peer_refused :
  RegistryTransport (fun _ => Err TypeError) true (PList [PStr peer_a; PStr peer_b]) (PStr (py "store")) (PStr peer_b) (PBool true) PNone = Err ValueError.
Proof. vm_compute. reflexivity. Qed.

(** A bootstrap address that ends in the marker has no peer id, and is accepted. *)
Lemma bootstrap_without_peer_id :
  exists t, RegistryTransport (fun _ => Err TypeError) true (PList [PStr (py "/ip4/10.0.0.1/tcp/4001/p2p/")]) (PStr (py "store")) PNone (PBool false) PNone = Ok t /\
    _pinned_peer_id (py "/ip4/10.0.0.1/tcp/4001/p2p/") = None.
Proof. eexists. split; vm_compute; reflexivity. Qed.

Definition demo_query : query := QGetRemote (hex (demo_bytes 2)).
Definition demo_session : res pyval * history := perform demo_answer (fun _ => false) (fun _ => false) demo_transport demo_query [].

Lemma demo_session_reads :
  demo_session.1 = Ok (PBytes (demo_bytes 3)) /\
  demo_session.2.*1 = [EnterDHT false; Bootstrap peer_c; MakeService; ReadRemote (hex (sha256 (demo_bytes 2))); ExitDHT].
Proof. vm_compute. split; reflexivity. Qed.

Lemma transport_discipline_witness :
  exists log, demo_session.2 = [] ++ log /\ disciplined (fun _ => false) (fun _ => false) demo_transport demo_query demo_session.1 log.
Proof.
  exact (transport_discipline demo_answer (fun _ => false) (fun _ => false) _ _ _ _ _ _ _ demo_transport demo_query [] demo_transport_accepted).
Defined.
