(* ===== verification/AcceptanceScenarios.v ===== *)
(** A concrete acceptance run: a machine whose tests pass, its report, inventory and vectors,
    and the claims applied to it. *)

From stdpp Require Import gmap.
From S2P Require Import Prelude PyVal Sha256 Json Storage StorageFacts Regex DateTime Receipt ReceiptFacts NativeReport Acceptance AcceptanceRuns AcceptanceClaims ReceiptStore.

Open Scope Z_scope.

(** A [testcase] element of the named case. *)
Definition demo_case (name : pystr) (children : list element) : element :=
  match cut (py "::") name with
  | Some (c, n) => Element (py "testcase") [(py "classname", c); (py "name", n)] children
  | None => Element (py "testcase") [] children
  end.

Definition demo_mandatory : pystr := py "tests.test_container::test_roundtrip".

(** One mandatory case and the five optional ones, the first of which is skipped. *)
Definition demo_root : element :=
  Element (py "testsuites") [] [
    Element (py "testsuite") [(py "tests", py "6"); (py "failures", py "0"); (py "errors", py "0"); (py "skipped", py "01")]
      (Element (py "properties") [] [] :: demo_case demo_mandatory [] ::
       match PYTHON_OPTIONAL_CASES with
       | first :: rest => demo_case first [Element (py "skipped") [(py "message", py "needs adb")] []] :: ((fun n => demo_case n []) <$> rest)
       | [] => []
       end)].

(** JSON texts; quotes are written as apostrophes. *)
Definition quoted (s : string) : pystr := (fun c => if c =? 39 then 34 else c) <$> py s.

Definition demo_inventory : pystr := quoted
  "{'schema': 'decent-wallet-security-acceptance-inventory-v1', 'python-security-matrix': ['tests.test_container::test_roundtrip'],
    'android-wallet-jvm-security': ['c::d'], 'local-registry-integration': {}}".

Definition demo_vector : pystr := quoted
  "{'test_only': true, 'notice': 'Never use with a real wallet', 'identity_vector': 'identity-owner-key-rotation-legacy.json',
    'python_bound_container_base64': 'AAAA', 'legacy_unbound_container_base64': '', 'python_bignum_container_base64': '',
    'candidate_envelope_cbor_hex': 'a1 00'}".

Definition demo_root_path : pystr := py "/repo".

(** Every answer is the one a healthy machine gives; [pytest] may be missing. *)
Definition machine_of (has_pytest : bool) : oracle := fun R tr q =>
  match q in request R' return R' with
  | ParseReport _ => Got demo_root
  | ReadText path => Got (if bool_decide (path = INVENTORY_PATH demo_root_path) then demo_inventory else demo_vector)
  | ReadBytes _ => Got [Byte.x00]
  | LoadToml _ => Caught
  | Run command _ _ _ => Got (0, if bool_decide (command = git_head) then replicate 40 97 ++ [10] else [])
  | IsFile _ => Ok true
  | FileSize _ => Ok 1
  | Glob _ _ => Ok [py "test_signer.py"; py "test_container.py"; py "test_android_registry_peer.py"]
  | Mkdir _ => Ok tt
  | Unlink _ => Ok tt
  | Resolve path => Ok path
  | MakeTemp => Ok (py "/tmp/scratch")
  | RemoveTree _ => Ok tt
  | Environ => ∅
  | ImportPytest => if has_pytest then Got tt else Caught
  | PythonVersion => py "3.12.3"
  | Platform => py "Linux-6.8.0-x86_64"
  | Implementation => py "CPython"
  | Now => MkUtc 2026 1 2 (MkTime 3 4 5 678901)
  | Print _ _ => Ok tt
  end.

Definition demo_args : arguments := MkArguments Core false (py "out/receipt.json") None None.
Definition demo_start : proc := MkProc [] (MkWorld (MkFs ∅ [] ∅ ∅ 0) [] [] []).

Definition is_valid {A} (m : outcome A) : bool := match m with Valid _ => true | _ => false end.

Lemma demo_run_valid : is_valid (run_acceptance (machine_of true) demo_root_path (py "python3") demo_args demo_start).1 = true.
Proof. vm_compute. reflexivity. Qed.

(** A receipt whose profile is a list: the membership test raises [TypeError]. *)
Definition unhashable_receipt : pyval :=
  obj [("schema", PStr RECEIPT_SCHEMA); ("created_at", PStr (py "2026-01-02T03:04:05Z")); ("profile", PList []); ("verdict", PStr passed);
       ("commit", PNone); ("environment", PNone); ("suites", PNone); ("artifacts", PNone)]%string.

Lemma receipt_contract_witness :
  validate_receipt unhashable_receipt = Raise TypeError /\ validate_receipt unhashable_receipt <> Valid unhashable_receipt /\
  (forall p, ~ acceptable p unhashable_receipt) /\ exists d, unhashable_receipt = PDict d.
Proof.
  assert (validate_receipt unhashable_receipt = Raise TypeError) as E by (vm_compute; reflexivity).
  destruct (receipt_contract unhashable_receipt) as [H1 H2]. split_and!; [done|congruence| |].
  - intros p Hp. assert (validate_receipt unhashable_receipt = Valid unhashable_receipt) as E' by (apply H1; eauto). congruence.
  - destruct (H2 _ E) as (_ & d & raw & Hd & _). by exists d.
Defined.

Lemma native_report_exact_witness :
  exists s' n cases, _native_report (machine_of true) [py "report.xml"] demo_start = (Valid (n, cases), s') /\
    counts_of cases n /\ r_tests n = 6 /\ r_skipped n = 1.
Proof.
  destruct (native_report_exact (machine_of true) (fun _ => demo_root) (fun _ _ => eq_refl) [py "report.xml"] demo_start) as (H1 & H2 & _).
  destruct (_native_report (machine_of true) [py "report.xml"] demo_start) as [[[n cases]|m|e] s'] eqn:E.
  - exists s', n, cases. split; [done|]. split; [apply H2, H1; by eexists|].
    assert (match (_native_report (machine_of true) [py "report.xml"] demo_start).1 with Valid (n, _) => (r_tests n, r_skipped n) | _ => (0, 0) end = (6, 1)) as En
      by (vm_compute; reflexivity). rewrite E in En. cbn in En. split; congruence.
  - exfalso. assert (is_valid (_native_report (machine_of true) [py "report.xml"] demo_start).1 = true) as En by (vm_compute; reflexivity).
    by rewrite E in En.
  - exfalso. assert (is_valid (_native_report (machine_of true) [py "report.xml"] demo_start).1 = true) as En by (vm_compute; reflexivity).
    by rewrite E in En.
Defined.

Lemma run_acceptance_sound_witness :
  exists receipt s' evs, run_acceptance (machine_of true) demo_root_path (py "python3") demo_args demo_start = (Valid receipt, s') /\
    p_trace s' = evs /\ receipt_evidence demo_root_path (py "python3") demo_args receipt evs.
Proof.
  pose proof demo_run_valid as Hv.
  destruct (run_acceptance (machine_of true) demo_root_path (py "python3") demo_args demo_start) as [[receipt|m|e] s'] eqn:E; [|discriminate Hv..].
  destruct (run_acceptance_sound _ _ _ _ _ _ _ E) as (_ & _ & evs & Ht & He). exists receipt, s', evs.
  split; [exact eq_refl|]. split; [exact Ht|exact He].
Defined.

Lemma demo_metadata : metadata_ok (machine_of true).
Proof. split; intros tr; vm_compute; reflexivity. Qed.

Lemma demo_vectors_valid : is_valid (_test_only_artifacts (machine_of true) demo_root_path false demo_start).1 = true.
Proof. vm_compute. reflexivity. Qed.

Lemma assembled_receipt_accepted_witness :
  exists vectors s0', _test_only_artifacts (machine_of true) demo_root_path false demo_start = (Valid vectors, s0') /\
  let run := run_profile (machine_of true) demo_root_path (py "python3") demo_args Core ∅ (profile_artifacts Core vectors) (py "/tmp/scratch") demo_start in
  match gather (machine_of true) demo_root_path (py "python3") demo_args Core ∅ (profile_artifacts Core vectors) (py "/tmp/scratch") demo_start with
  | (Valid _, s1) => match _commit (machine_of true) demo_root_path (after_metadata (machine_of true) s1) with
      | (Valid _, s2) => exists receipt, run = (Valid receipt, s2) /\ acceptable Core receipt
      | (Blocked m, s2) => run = (Blocked m, s2)
      | (Raise e, s2) => run = (Raise e, s2)
      end
  | (Blocked m, s1) => run = (Blocked m, s1)
  | (Raise e, s1) => run = (Raise e, s1)
  end.
Proof.
  pose proof demo_vectors_valid as Hv.
  destruct (_test_only_artifacts (machine_of true) demo_root_path false demo_start) as [[vectors|m|e] s0'] eqn:E; [|discriminate Hv..].
  exists vectors, s0'. split; [done|].
  exact (assembled_receipt_accepted (machine_of true) demo_root_path (py "python3") demo_args Core ∅ vectors (py "/tmp/scratch") demo_start s0' demo_start demo_metadata E).
Defined.

Lemma demo_receipt_settled : settled (path_name (arg_receipt demo_args)) None (disk demo_start).
Proof. constructor; [|constructor]. exists None. split; [done|]. reflexivity. Qed.

(** Without [pytest] the command stops with status 1. *)
Lemma demo_blocked : (main (machine_of false) demo_root_path (py "python3") demo_args demo_start).1 = Valid 1.
Proof. vm_compute. reflexivity. Qed.

Lemma acceptance_exit_witness :
  exists s', main (machine_of false) demo_root_path (py "python3") demo_args demo_start = (Valid 1, s') /\
  settled (path_name (arg_receipt demo_args)) None (disk s').
Proof.
  pose proof demo_blocked as Hb. destruct (main (machine_of false) demo_root_path (py "python3") demo_args demo_start) as [r s'] eqn:E.
  cbn in Hb. subst r. exists s'. split; [done|].
  destruct (acceptance_exit _ _ _ _ _ _ _ _ demo_receipt_settled E) as [[? _]|[_ H]]; [discriminate|exact H].
Defined.

(** The whole run: the receipt is written, and its file is its text. *)
Example demo_main : (main (machine_of true) demo_root_path (py "python3") demo_args demo_start).1 = Valid 0.
Proof. vm_compute. reflexivity. Qed.
