(* ===== verification/LocalScenarios.v ===== *)
(** A local acceptance run on concrete answers: every phase, on an emulator that passes. *)

From stdpp Require Import gmap.
From S2P Require Import Prelude Json Regex NativeReport Harness PyPath RemoteRecords LocalRecords LocalFixture LocalRun LocalPeers LocalRuns LocalEvidence LocalClaims.

Open Scope Z_scope.

Definition local_demo_line (tag port id : string) : pystr :=
  py tag ++ tab ++ py "/ip4/127.0.0.1/tcp/" ++ py port ++ py "/p2p/" ++ py id ++ [10].

Definition local_demo_case (cls name : pystr) : element :=
  Element (py "testcase") [(py "name", name); (py "classname", cls)] [].

Definition local_demo_report : element :=
  Element (py "testsuite") []
    [local_demo_case JVM_INTEROP_TEST_CLASS JVM_INTEROP_TEST_NAME; local_demo_case ROTATION_TEST_CLASS ROTATION_TEST_NAME;
     local_demo_case ROTATION_TEST_CLASS HISTORY_AVAILABILITY_TEST_NAME].

(** What the answers depend on: the last clock reading, the commands run, the mappings of the
    device, and whether the fixture has been signalled. *)
Record demo_world := MkWorld { dw_clock : Z; dw_runs : Z; dw_mappings : list (pystr * pystr); dw_signalled : bool }.

Definition world_step (x : demo_world) (e : ev) : demo_world :=
  match e with Event q a =>
    match q in request R return R -> demo_world with
    | Clock => fun t => MkWorld (Z.max t (dw_clock x)) (dw_runs x) (dw_mappings x) (dw_signalled x)
    | Run _ _ _ _ => fun _ => MkWorld (dw_clock x) (dw_runs x + 1) (dw_mappings x) (dw_signalled x)
    | Popen _ _ _ => fun _ => MkWorld (dw_clock x) (dw_runs x) (dw_mappings x) false
    | KillGroup _ => fun _ => MkWorld (dw_clock x) (dw_runs x) (dw_mappings x) true
    | Output command _ _ => fun _ =>
        match command with
        | [_; _; _; _; verb; p; q] => MkWorld (dw_clock x) (dw_runs x) (if bool_decide (verb = py "--no-rebind") then dw_mappings x ++ [(p, q)] else dw_mappings x) (dw_signalled x)
        | [_; _; _; _; verb; p] => MkWorld (dw_clock x) (dw_runs x) (if bool_decide (verb = py "--remove") then base.filter (fun m => m.1 <> p) (dw_mappings x) else dw_mappings x) (dw_signalled x)
        | _ => x
        end
    | _ => fun _ => x
    end a
  end.

Definition world (tr : list ev) : demo_world := foldl world_step (MkWorld 0 0 [] false) tr.

Definition mapping_lines (l : list (pystr * pystr)) : pystr :=
  concat ((fun m : pystr * pystr => py "emulator-5554 " ++ m.1 ++ py " " ++ m.2 ++ [10]) <$> l).

Definition local_demo_output (tr : list ev) (command : list pystr) : pystr :=
  if bool_decide (py "devices" ∈ command) then py "List of devices attached" ++ [10] ++ py "emulator-5554 device product:sdk" ++ [10]
  else if bool_decide (py "avd" ∈ command) then py "Medium_Phone" ++ [10] ++ py "OK" ++ [10]
  else if bool_decide (py "sys.boot_completed" ∈ command) then py "1" ++ [10]
  else if bool_decide (py "ro.build.version.sdk" ∈ command) then py "26" ++ [10]
  else if bool_decide (py "ro.product.cpu.abi" ∈ command) then py "x86" ++ [10]
  else if bool_decide (py "com.android.vending" ∈ command) then py "package:/system/Phonesky.apk" ++ [10]
  else if bool_decide (py "-version" ∈ command) then py "openjdk version " ++ [34] ++ py "17.0.2" ++ [34; 10]
  else if bool_decide (py "--list" ∈ command) then mapping_lines (dw_mappings (world tr))
  else if bool_decide (py "-c" ∈ command) then py "/registry/.venv/bin/python" ++ [10]
  else [].

Definition avd_config : pystr :=
  match APPROVED_ANDROID_TARGETS (py "Medium_Phone") with
  | Some t => concat ((fun kv : pystr * pystr => kv.1 ++ py "=" ++ kv.2 ++ [10]) <$> t_config t)
  | None => []
  end.

Definition local_demo_oracle : oracle request := fun R tr q =>
  match q in request R return R with
  | Environ => ∅
  | Home => inl (Path (py "/home/user"))
  | Expanduser p => inl p
  | Resolve p => inl p
  | IsFile _ => inl true
  | IsDir _ => inl true
  | Exists _ => inl true
  | SameFile _ _ => inl false
  | ReadText _ => inl avd_config
  | Rglob p => inl [child p (py "TEST-a.xml")]
  | Glob17 _ => inl []
  | Mtime _ => inl (dw_runs (world tr))
  | Size _ => inl 10
  | ParseReport _ => inl local_demo_report
  | Which name => inl (Some (py "/usr/bin/" ++ name))
  | Output command _ _ => inl (0, local_demo_output tr command)
  | Run _ _ _ _ => inl 0
  | Mkdir _ => inl tt
  | MakeTemp _ => inl (py "/home/user/.cache/decent-wallet/registry-acceptance-x")
  | CleanTemp _ => inl tt
  | Popen _ _ _ => inl tt
  | StartReader => inl tt
  | ReaderLines _ => ([local_demo_line "READY_WRITE" "4001" "12D3KooWAbcdefghijkmnopq"; local_demo_line "READY_READBACK" "4002" "12D3KooWBbcdefghijkmnopq"], false)
  | Poll => if dw_signalled (world tr) then Some (-2) else None
  | KillGroup _ => inl tt
  | Signal _ => inl tt
  | Wait _ => inl (-2)
  | CloseStdout => inl tt
  | Clock => dw_clock (world tr) + sec 1
  | Print _ _ => inl tt
  end.

Definition local_demo_root : path := Path (py "/home/user/decent-wallet").
Definition local_demo_state : harness := MkHarness local_demo_root (Span 0) [] [] [] false [] [] NoReader None false false None [] [] None.
Definition demo_arguments (s : selection) : arguments := MkArguments s (py "process") None (Path (py "/registry")) None.

Definition demo_seconds (d : duration) : pystr := match d with Span t => int_str (t / 10 ^ 9) | Infinity => py "inf" | NaN => py "nan" end.

Abbreviation local_demo s :=
  (main local_demo_oracle local_demo_root demo_seconds (fun _ => false) 91 (demo_arguments s) (Host [] local_demo_state)).

Lemma local_demo_everything : (local_demo Everything).1 = Done 0.
Proof. vm_compute. reflexivity. Qed.

Definition clock_of (e : ev) : option Z :=
  match e with Event q a => match q in request R return R -> option Z with Clock => fun t => Some t | _ => fun _ => None end a end.

Lemma world_clock tr : forall x, dw_clock x <= dw_clock (foldl world_step x tr) /\ forall t, Event Clock t ∈ tr -> t <= dw_clock (foldl world_step x tr).
Proof.
  induction tr as [|e tr IH]; intros x; [split; [done|by intros t ?%not_elem_of_nil]|]. cbn [foldl]. destruct (IH (world_step x e)) as [H1 H2].
  assert (dw_clock x <= dw_clock (world_step x e) /\ forall t, e = Event Clock t -> t <= dw_clock (world_step x e)) as [K1 K2].
  { destruct e as [R [] a]; simpl; try (split; [lia|discriminate]).
    - repeat case_match; simpl; (split; [lia|discriminate]).
    - split; [lia|]. intros t E. apply (f_equal clock_of) in E. injection E as ->. lia. }
  split; [lia|]. intros t [Ee|Hin]%elem_of_cons; [specialize (K2 t (eq_sym Ee)); lia|auto].
Qed.

Lemma local_demo_clock : clock_advances local_demo_oracle (sec 1).
Proof. intros tr t H. simpl. unfold world. destruct (world_clock tr (MkWorld 0 0 [] false)) as [_ Hc]. specialize (Hc t H). lia. Qed.

Lemma demo_rounds s t : fixture_startup_timeout (a_backend (demo_arguments s)) (a_timeout (demo_arguments s)) = Done t -> ample 91 (sec 1) t.
Proof. intros [= <-]. by vm_compute. Qed.


(** The first command of a trace that changes mappings, and what comes before it. *)
Fixpoint first_change (before tr : list ev) : option (list ev * list pystr) :=
  match tr with
  | [] => None
  | Event q a :: rest =>
      if changes_mappings (command_of q) then Some (before, command_of q) else first_change (before ++ [Event q a]) rest
  end.

Lemma first_change_split tr : forall before pre command, first_change before tr = Some (pre, command) ->
  exists R (q : request R) a after, before ++ tr = pre ++ Event q a :: after /\ command_of q = command /\ changes_mappings command = true.
Proof.
  induction tr as [|[R q a] tr IH]; intros before pre command E; [discriminate|]. simpl in E. destruct (changes_mappings (command_of q)) eqn:Hc.
  - injection E as -> <-. exists R, q, a, tr. split_and!; [done|done|done].
  - destruct (IH _ _ _ E) as (R' & q' & a' & after & Heq & ?). exists R', q', a', after. split; [|done]. by rewrite <-Heq, <-app_assoc.
Qed.

Lemma first_change_found tr command : snd <$> first_change [] tr = Some command ->
  exists before R (q : request R) a after, tr = before ++ Event q a :: after /\ command_of q = command /\ changes_mappings (command_of q) = true.
Proof.
  destruct (first_change [] tr) as [[before c]|] eqn:E; [|discriminate]. intros [= ->].
  destruct (first_change_split _ _ _ _ E) as (R & q & a & after & Hs & Hq & Hc). exists before, R, q, a, after. by rewrite Hq.
Qed.

Definition demo_add : list pystr :=
  [py "/home/user/Android/Sdk/platform-tools/adb"; py "-s"; py "emulator-5554"; py "reverse"; py "--no-rebind"; py "tcp:31457"; py "tcp:4001"].

Lemma demo_first_change : snd <$> first_change [] (h_trace (local_demo Everything).2) = Some demo_add.
Proof. vm_compute. reflexivity. Qed.

Lemma demo_add_words adb serial r l : demo_add = [adb; py "-s"; serial; py "reverse"; py "--no-rebind"; r; l] -> r = py "tcp:31457".
Proof. intros E. apply (f_equal (fun w => nth 5 w [])) in E. exact (eq_sym E). Qed.

Lemma demo_add_length adb serial r : demo_add <> [adb; py "-s"; serial; py "reverse"; py "--remove"; r].
Proof. intros E. by apply (f_equal length) in E. Qed.

Lemma reverse_mappings_owned_witness :
  exists before R (q : request R) a after remote,
    h_trace (local_demo Everything).2 = before ++ Event q a :: after /\ command_of q = demo_add /\
    tcp remote = py "tcp:31457" /\ 31457 <= remote < 40000.
Proof.
  destruct (first_change_found _ _ demo_first_change) as (before & R & q & a & after & Hs & Hq & Hc).
  destruct (reverse_mappings_owned local_demo_oracle local_demo_root demo_seconds (fun _ => false) 91 (demo_arguments Everything) local_demo_state
    before R q a after Hs Hc) as (adb & serial & remote & local & [[Hw Hfree]|[Hw _]]); [|by destruct (demo_add_length _ _ _ (eq_trans (eq_sym Hq) Hw))].
  exists before, R, q, a, after, remote. split; [exact Hs|]. split; [exact Hq|]. split; [|exact (proj1 Hfree)].
  exact (demo_add_words _ _ _ _ (eq_trans (eq_sym Hq) Hw)).
Defined.
